(* ===== verification/_CoqProject ===== *)
-Q . S2P
Prelude.v
Values.v
Plan.v
Kahn.v
GraphSpec.v
FragmentSpec.v
Assemble.v
Sequence.v
Result.v
GoPath.v
GoText.v
GoNet.v
Sha256.v
SshDial.v
ConnectionPool.v
SshConnector.v
PoolEffects.v
PoolInvariant.v
PoolSpec.v
PoolSafety.v
Cache.v
CacheSpec.v
Bom.v
AssetProviders.v
AssetManager.v
AssetSpec.v
AssetDownload.v
Slices.v
TaskScheduler.v
Network.v
NetworkSpec.v
NetworkText.v
Validators.v
HostRange.v
ValidationErrors.v
GoUrl.v
LoadBalancerTypes.v
EndpointTypes.v
ClusterTypes.v
ConfigLoad.v
ConfigLoadSpec.v
ConfigWitnesses.v
SectionBase.v
NetworkTypes.v
RuntimeTypes.v
KubernetesTypes.v
ServiceTypes.v
ApiSections.v
SectionSpec.v
SectionWitnesses.v
Cluster.v
Context.v
Task.v
PreflightTasks.v
OperationTasks.v
NodeTasks.v
LoadBalancerTasks.v
ServiceTasks.v
KubexmTasks.v
PkiTasks.v
Module.v
Tasks.v
ModuleSpec.v
TaskSpec.v
TaskContracts.v
TaskRuns.v
RollingSpec.v
TaskNodes.v
StepRunner.v
NodeRunner.v
Json.v
Checkpoint.v
Scheduler.v
SchedulerSpec.v
Pipeline.v
PipelineSpec.v
TaskPipelineSpec.v
ClusterPlans.v
Witnesses.v
