(* ===== verification/Prelude.v ===== *)
(** * kubexm: planning and running cluster operations

    kubexm installs, upgrades, repairs and removes Kubernetes clusters.  A
    pipeline (create the cluster, add nodes, renew certificates, ...) is a list
    of modules; a module plans a fragment of a graph of nodes, each of which is a
    step to run on some hosts; the pipeline merges and links the fragments into
    one execution graph, which an engine runs with a pool of workers, a node when
    its dependencies have succeeded, recording progress in a checkpoint file.
    This library models that machinery from the data of the graph up to the [Run]
    methods of the pipelines, and the self-contained components beside it.

    ** Parts

    - [Prelude]: what a Go call returns ([outcome]: a value, an error, a panic),
      the state-and-error monad [M] (an error keeps the updates made before it, as
      in Go), Go maps ([gomap]: a finite map or nil) and the class [GoRange] of
      iteration orders, hint database [kubexm], list and sorting lemmas.
    - [Values]: dynamically typed values ([interface{}]) and hosts.
    - [Plan]: [src/internal/plan/graph.go], [fragment.go], [plan.go], [utils.go];
      [ExecutionGraph_*] and [ExecutionFragment_*] are the methods, the class
      [Graph] is the interface, [LinkFragments] the function over it.  [Kahn]
      proves the topological sort of [Validate] on an arbitrary finite relation,
      [GraphSpec] the graph's specifications, [FragmentSpec] those of fragments
      and of linking, against the laws [GraphLaws] of the interface.  [Assemble]
      says what merging and linking fragments one after another gives, for any
      holder of a node map (class [NodeStore]: a graph or a fragment); modules and
      pipelines are its clients.  [Sequence]: when chained fragments run strictly
      one after another.
    - [Result]: the results of steps, hosts, nodes and graphs, [plan/result.go] and
      [types/result.go].
    - [GoPath], [Context]: [filepath.Clean/Join/Dir/Base]; state bags as locations of a
      heap and the runtime context derived from one another,
      [runtime/state.go], [runtime/context.go].
    - [StepRunner], [NodeRunner], [Scheduler]: [engine/executor.go] from the
      bottom up: a step on a host with precheck, retries and rollback, a node on
      its hosts, the graph.  The scheduler's loop and its workers are a step
      relation [exec_step] over the channels; the scheduler sees a node through
      the class [NodeRunner].  [SchedulerSpec] has the invariant of a run and its
      consequences.
    - [Json]: what a round trip through [encoding/json] does to strings, integers
      and the keys of objects.  [Checkpoint]: [checkpoint/checkpoint.go] over a disk
      of primitive operations.
    - [Cluster]: the part of the cluster configuration that planning reads.
    - [Task]: what the tasks of [task/] are written with: a fragment under
      construction ([M ExecutionFragment]), nodes, dependencies, the calls of step
      builders (class [Steps]).  [PreflightTasks], [OperationTasks], [NodeTasks]
      (preflight and assets; backup, restore, health, reconfiguration, registry;
      operating system, etcd, container runtimes, kubeadm), [LoadBalancerTasks],
      [ServiceTasks] (network, storage, DNS, gateway, registries, addons),
      [KubexmTasks] (Kubernetes from its binaries, other etcd members, repositories)
      and [PkiTasks] (certificates): [IsRequired] and [Plan] of every task of [task/].
      [Tasks] makes those the modules plan an instance of the interface the modules
      use: [Kubexm_Tasks], and [Pki_Tasks] for those on certificates, which read the
      caches of the context (class [Caches]).  [TaskSpec] starts with a small program
      logic for their bodies; it and [TaskContracts] have the promise the tasks with
      labelled nodes keep, and what a task needs for it ([ready], [can_plan],
      [can_answer]).  [TaskNodes] has the exact nodes and hosts of some, [TaskRuns]
      the order in which the nodes of the load balancer tasks run, [RollingSpec] that
      of the tasks that roll certificates out.
    - [Module], [ModuleSpec]: every module of [module/], and the load balancer
      tasks of [task/loadbalancer/] and the deploy tasks that plan other tasks; a
      task is a handle and the class [Tasks] its interface.  The class [Modules] is
      what the pipelines see of a module, [Tasks_Modules] its instance over any
      tasks.
    - [Pipeline], [PipelineSpec], [TaskPipelineSpec]: [pipeline/pipeline.go], [safe_plan.go] and every
      pipeline of [pipeline/cluster/] and [pipeline/assets/]: constructors, [Plan],
      [Run]; [PipelineSpec] proves them for all [Modules], [TaskPipelineSpec] composes
      them with the modules down to the tasks, and puts the modelled tasks in: whole
      pipelines from the configuration and the hosts to the graph.
      [ClusterPlans]: why creating and deleting a cluster cannot be planned.
    - [GoText], [GoNet], [GoUrl]: the functions of [strings], [strconv], [fmt],
      [time], [net], [net/url] and [encoding/base64] that the configuration uses, on
      byte strings; [regexp] is the first part of [Validators].
      Regular expressions are matched by derivatives, proved against their language.
    - [Validators]: the predicates on names, addresses, ports and versions of
      [apis/kubexms/v1alpha1/helpers/] and [util/validation.go] (Modules [Helpers],
      [Util]); [HostRange]: host ranges such as [node[01:12].lab] of
      [config/helpers.go] and [util/host.go] (Modules [Config], [Util]).
    - [ValidationErrors]: the monad [V] of defaults and validation: the list of
      errors, panics, and what a validation says or keeps silent about.
      [LoadBalancerTypes], [EndpointTypes], [ClusterTypes]: the API types of
      [apis/kubexms/v1alpha1/], one [SetDefaults_*] and [Validate_*] per function;
      the loader sees the other sections through the class [Sections], the
      directories that defaults create are behind [OS].  [NetworkTypes],
      [RuntimeTypes] (with the registry section), [KubernetesTypes], [ServiceTypes]
      (storage, DNS, preflight, extras) are these sections, over [SectionBase]
      (helpers and addons); [ApiSections] makes them the instance of [Sections] and
      proves defaults idempotent, [SectionSpec] proves what loading then
      guarantees.  What [fmt] prints for a format without a verb and an operand is
      the law of the class [Fmt].
    - [ConfigLoad]: [config/config.go] and [config/helpers.go], from the decoded
      configuration to the hosts with their roles; [ConfigLoadSpec] proves the
      loader.  Files and decoders are parameters.
    - [Sha256]: the standard hash function, for the keys of the pool.  [SshDial]:
      dialing a host, through a bastion or not, with the retries of
      [connector/ssh.go]; what the network answers is the class [Ssh].
      [ConnectionPool]: [connector/pool.go] over a heap of connections and host
      pools, each critical section one program; [SshConnector]: the connectors that
      take connections from the pool, and the process as a step relation between
      the sections of its goroutines.  [PoolEffects], [PoolInvariant], [PoolSpec],
      [PoolSafety]: what every section changes, the invariant of the process, and
      its consequences.
    - [Cache], [CacheSpec]: [cache/] as programs over one
      [sync.Map] each: run alone they refine a map with expiration times, run
      together their operations interleave.
    - [Bom], [AssetProviders], [AssetManager]: [util/*bom*.go], the providers of
      images, charts and binaries and the asset manager of [asset/]; versions are
      compared through the class [Semver], downloads go through the class [Machine].
      [AssetSpec], [AssetDownload] prove them.
    - [Slices], [Network], [TaskScheduler]: [util/slice.go], [util/network.go] with
      the copy of [helpers/], and [util/task_scheduler.go].  [NetworkSpec] proves
      the arithmetic of addresses on their values, [NetworkText] the parsers.
    - [Witnesses], [ConfigWitnesses], [SectionWitnesses]: concrete inputs at which the
      theorems apply.

    ** What the theorems show

    - Graphs: [Validate] accepts exactly the well-formed acyclic graphs and its
      errors are sound; entry and exit nodes, merging and linking do what their
      names say, whatever order the maps are visited in.
    - Planning: whatever the modules plan, the planned graph consists of the
      module fragments, in order, every entry node of one after every exit node of
      the one before; it is valid; planning succeeds when the fragments are sound
      and disjoint.  A panic while planning is reported as a success of nothing.
    - Modules: the modules that chain their tasks run them strictly one after
      another, and the pipelines of such modules (backup, restore, health,
      reconfigure, registry, download) run all their tasks in order; the modules on
      [PlanTasks] (certificate renewal, OS) do not order their tasks at all; the
      load balancer and storage modules cannot be linked and cut the order of a
      pipeline.
    - Tasks: a task with labelled nodes plans without an error in a ready context that
      has what it needs (a host of a role, a path, a supported plugin), and its
      fragment is empty or valid with all its ends named, its node IDs bearing labels
      of the task alone; certificates are rolled out one host at a time; six of the
      load balancer tasks run their nodes in the wrong order.  So the backup, restore, health,
      reconfiguration, registry and download pipelines always plan in such a
      context.  Creating a kubeadm cluster, deleting a cluster with workers and
      deploying etcd are never planned: two tasks use the same node IDs.
    - Running, when no node is found in a checkpoint: dependencies finish successfully before a node is handed out; the
      loop does not deadlock and ends; the final statuses are the ones of the
      failure cascade and do not depend on the schedule.  A resumed run may wait
      for ever.  A host is tried at most [MaxRetries + 1] times; a panic of a step
      is reported as a success.
    - Checkpoints: saving is atomic at every crash point and loads back, as JSON
      represents it.
    - Configuration: one that loads with the validation of hosts on is well formed, its hosts and role groups agree,
      and each host has the roles of its groups.  Ranges in role groups and
      configurations without an external load balancer never load.  A range expands
      to one name per number and its loop ends unless the counter overflows; the
      copies of the predicates and of the expansion agree.  Setting defaults twice is
      setting them once.  The networks of pods and services of a configuration that
      loads are disjoint; one without the networks of kube-ovn, or with kube-proxy
      switched off, never loads; the validation panics exactly when the endpoint has
      no external load balancer to look at.
    - Connections: whatever the interleaving, no two connectors use one connection,
      an idle connection is open and nobody's, none is lost; until [Shutdown] the
      limits per key hold and the counts are right; a call has at most six sections.
      The locks that make a section atomic are not modelled.  The key of the pool does not depend on
      the password, so a connector with another one gets the connection.
    - Caches: the sequential behaviour is that of a map whose entries expire; the
      increments of concurrent goroutines are all counted.
    - Assets: a download that declares a checksum succeeds only if the body has it, and
      a body that has not is left at its place only when its removal fails; no binary the provider makes declares one.  The
      bill of materials chosen is the newest that matches, whatever the order.
    - Utilities: the two overlap tests agree on networks in canonical form that are not mapped from IPv4, the
      halves of a network partition it, expansion lists it or says why not; port
      ranges; the scheduler of tasks; the search that never finds anything.

    ** Conventions

    - A [range] over a map is [range site m], a permutation of the entries that
      depends on the loop (numbered [site]) and is otherwise unknown; theorems
      hold for every instance of [GoRange].
    - nil pointers, maps and interfaces are [None]; a dereference of nil, an
      assignment to a nil map and a call of [panic] are [Panic].
    - One constructor per [fmt.Errorf] of the modelled code; texts are kept where
      the code stores or returns them.
    - Graph nodes are stored by value: a merge shares the nodes of a fragment with
      its target by pointers, but the nodes of a merged fragment are not read again
      through the fragment.  State bags, whose
      sharing matters, are heap locations.
    - [time.Now] reads the clock of the world, [Sleep] advances it.  Steps are
      arbitrary functions of the world that may return an error or panic.
    - Logging is left out.

    ** Fuel and bounds

    The queue of [Validate] runs with the number of nodes as fuel, the cascade of
    skipped nodes with the number of queued and dependent IDs ([cascade_fuel]); the
    lemmas [kahn_loop_correct] and [cascade_fuel_enough] show that neither runs out.
    The retry loop recurses on the number of attempts left.  The loop of a host range
    takes its fuel as an argument and returns [None] without enough: one turn more
    than the range has numbers suffices ([HostRange]).  The binary search of [Slices] runs
    with the length of the slice, the rounds of [TaskScheduler] with the number of
    tasks; an increment of [Cache] that loses its compare-and-swap has a number of
    turns, and [increments_all_counted] needs no more turns than goroutines.  Each
    loop of a dial runs its configured number of attempts.  Everything else is
    structural.  Integers that may wrap are computed modulo 2^64 or with the
    width of their type (the backoff of a retry, the numbers of a host range).

    ** Not modelled

    - The steps ([step/], about six hundred shell commands), behind the builders of
      class [Steps], the commands and file transfers of the connectors
      ([connector/ssh.go], [local.go]) and the runner ([runner/]): I/O whose effect
      is on the hosts.  The engine is proved for every step, the tasks for all
      builders, the pool for every network.
    - What the steps write to the caches of a context while they run: the tasks that
      plan see any content (class [Caches]).
    - A nil slice and an empty one are the same list unless the code tells them
      apart; [fmt] widths of more than ten million digits are not modelled.
    - The data buses and typed state, the error aggregation helpers, the runtime
      builder: glue around the modelled parts; [io] helpers, templates and text
      tables.
    - Command line, logging, templates, YAML decoding, the bodies of
      HTTP answers. *)
From stdpp Require Export base tactics list gmap strings pretty sorting fin_maps relations.
From Stdlib Require Export ZArith Lia.

(** ** Outcomes of Go functions *)

(** What a Go call returns: a value with a nil error, a non-nil error, or a
    run-time panic that unwinds the caller. *)
Inductive outcome (E A : Type) : Type :=
| Ok (a : A)
| Err (e : E)
| Panic.
Arguments Ok {E A} a.
Arguments Err {E A} e.
Arguments Panic {E A}.

(** Code that updates a structure in place: the structure is threaded, so an
    error return keeps the updates made before it, as in Go. *)
Definition M (S E A : Type) : Type := S → outcome E A * S.

Global Instance M_ret S E : MRet (M S E) := λ A a s, (Ok a, s).

Global Instance M_bind S E : MBind (M S E) := λ A B f m s,
  match m s with
  | (Ok a, s') => f a s'
  | (Err e, s') => (Err e, s')
  | (Panic, s') => (Panic, s')
  end.

Definition fail {S E A} (e : E) : M S E A := λ s, (Err e, s).
Definition panic {S E A} : M S E A := λ s, (Panic, s).
Definition get {S E} : M S E S := λ s, (Ok s, s).
Definition put {S E} (s : S) : M S E unit := λ _, (Ok tt, s).

(** [for _, x := range l { body }] where the body may return early. *)
Fixpoint foreach {S E A} (l : list A) (body : A → M S E unit) : M S E unit :=
  match l with
  | [] => mret tt
  | x :: l => body x ≫= λ _, foreach l body
  end.

(** Run [m] and report its error through [f], as [fmt.Errorf("...%w", err)]. *)
Definition wrap {S E E' A} (f : E → E') (m : M S E A) : M S E' A := λ s,
  match m s with
  | (Ok a, s') => (Ok a, s')
  | (Err e, s') => (Err (f e), s')
  | (Panic, s') => (Panic, s')
  end.

(** A call that fails or panics, without a structure to update. *)
Global Instance outcome_ret E : MRet (outcome E) := λ A a, Ok a.

Global Instance outcome_bind E : MBind (outcome E) := λ A B f o,
  match o with Ok a => f a | Err e => Err e | Panic => Panic end.

Definition map_err {E E' A} (f : E → E') (o : outcome E A) : outcome E' A :=
  match o with Ok a => Ok a | Err e => Err (f e) | Panic => Panic end.

(** Such a call among updates. *)
Definition lift {S E A} (o : outcome E A) : M S E A := λ s, (o, s).

(** Reading a field through a pointer. *)
Definition deref {S E A} (p : option A) : M S E A := λ s,
  match p with Some a => (Ok a, s) | None => (Panic, s) end.

Definition deref_or_panic {E A} (p : option A) : outcome E A :=
  match p with Some a => Ok a | None => Panic end.

(** A loop that appends what each turn gives to a slice. *)
Fixpoint collect {S E A B} (l : list A) (body : A → M S E B) : M S E (list B) :=
  match l with
  | [] => mret []
  | x :: l => body x ≫= λ y, collect l body ≫= λ ys, mret (y :: ys)
  end.

(** Update the first part of a pair of locals, reporting an error through [f]. *)
Definition on_fst {S P E E' A} (f : E → E') (m : M S E A) : M (S * P) E' A := λ '(s, p),
  let '(r, s') := m s in (map_err f r, (s', p)).

(** Run a body on its initial locals and continue with the final ones. *)
Definition run_body {S E A B} (m : M S E A) (s : S) (k : A → S → outcome E B) : outcome E B :=
  match m s with
  | (Ok a, s') => k a s'
  | (Err e, _) => Err e
  | (Panic, _) => Panic
  end.

(** ** Go maps *)

(** A Go map keyed by strings; [None] is the nil map, which reads as empty and
    panics on assignment. *)
Definition gomap (A : Type) : Type := option (gmap string A).

Definition entries {A} (m : gomap A) : gmap string A := default ∅ m.
Definition mlen {A} (m : gomap A) : nat := size (entries m).

(** [range] over a map visits the entries in an order the language leaves open.
    [range site m] is the order chosen at the loop numbered [site]; every
    theorem holds for every instance of the class. *)
Class GoRange := {
  range : ∀ {A}, nat → gmap string A → list (string * A);
  range_perm : ∀ {A} site (m : gmap string A), range site m ≡ₚ map_to_list m;
}.

(** The order of stdpp's enumeration, and its reverse: two concrete choices. *)
Definition range_forward : GoRange.
Proof.
  refine {| range := λ A _ m, map_to_list m |}. done.
Defined.

Definition range_backward : GoRange.
Proof.
  refine {| range := λ A _ m, reverse (map_to_list m) |}.
  intros A _ m. apply reverse_Permutation.
Defined.

(** ** Lists *)

(** Number of occurrences of [x] in [l]. *)
Fixpoint occ {A} `{EqDecision A} (x : A) (l : list A) : nat :=
  match l with
  | [] => 0
  | y :: l => (if decide (x = y) then 1 else 0) + occ x l
  end.

(** Sort strings by Go's byte-wise [<]. *)
Definition sort_strings (l : list string) : list string := merge_sort String.le l.

(** Append to a buffered channel of capacity [cap]; [None] when it would block. *)
Definition chan_send {A} (cap : nat) (q : list A) (x : A) : option (list A) :=
  if decide (length q < cap) then Some (q ++ [x]) else None.

(** Two's-complement wrap-around of a 64-bit [int]. *)
Definition wrap64 (z : Z) : Z := ((z + 2^63) mod 2^64 - 2^63)%Z.

(** ** Automation *)

Create HintDb kubexm discriminated.
Create Rewrite HintDb kubexm.

(** Split a hypothesis about a monadic bind into the run of its two parts. *)
Ltac inv_bind H :=
  unfold mbind, M_bind in H;
  lazymatch type of H with
  | context [match ?m with (_, _) => _ end] =>
      let o := fresh "o" in let s := fresh "s" in let E := fresh "E" in
      destruct m as [o s] eqn:E; destruct o; simplify_eq/=
  end.

(** ** Lemmas on outcomes *)

Lemma map_err_ok {E E' A} (f : E → E') (o : outcome E A) a : map_err f o = Ok a ↔ o = Ok a.
Proof. destruct o; simpl; naive_solver. Qed.

Lemma map_err_panic {E E' A} (f : E → E') (o : outcome E A) : map_err f o = Panic ↔ o = Panic.
Proof. by destruct o. Qed.

Lemma on_fst_ok {S P E E' A} (f : E → E') (m : M S E A) s (p : P) a st :
  on_fst f m (s, p) = (Ok a, st) ↔ ∃ s', m s = (Ok a, s') ∧ st = (s', p).
Proof.
  unfold on_fst. destruct (m s) as [r s']. split.
  - intros [= Hr <-]. apply map_err_ok in Hr as ->. eauto.
  - by intros (? & [= -> ->] & ->).
Qed.

Lemma run_body_ok {S E A B} (m : M S E A) s (k : A → S → outcome E B) b :
  run_body m s k = Ok b ↔ ∃ a s', m s = (Ok a, s') ∧ k a s' = Ok b.
Proof. unfold run_body. destruct (m s) as [[a|e|] s']; naive_solver. Qed.

Lemma outcome_bind_ok {E A B} (o : outcome E A) (f : A → outcome E B) b :
  o ≫= f = Ok b ↔ ∃ a, o = Ok a ∧ f a = Ok b.
Proof. unfold mbind, outcome_bind. destruct o; naive_solver. Qed.

(** ** Lemmas on ranges *)

Section range.
Context `{GoRange}.

Lemma elem_of_range {A} site (m : gmap string A) k x :
  (k, x) ∈ range site m ↔ m !! k = Some x.
Proof. by rewrite (range_perm site m), elem_of_map_to_list. Qed.

Lemma NoDup_range_keys {A} site (m : gmap string A) : NoDup (range site m).*1.
Proof. rewrite (range_perm site m). apply NoDup_fst_map_to_list. Qed.

Lemma elem_of_range_keys {A} site (m : gmap string A) k :
  k ∈ (range site m).*1 ↔ is_Some (m !! k).
Proof.
  rewrite list_elem_of_fmap. split.
  - intros ([k' x] & -> & Hin%elem_of_range). eauto.
  - intros [x Hx]. exists (k, x). split; [done|]. by apply elem_of_range.
Qed.

Lemma length_range {A} site (m : gmap string A) : length (range site m) = size m.
Proof. rewrite (range_perm site m). apply length_map_to_list. Qed.
End range.

Lemma elem_of_map_keys {A} (m : gmap string A) k : k ∈ (map_to_list m).*1 ↔ is_Some (m !! k).
Proof.
  rewrite list_elem_of_fmap. split.
  - intros ([k' x] & -> & ?%elem_of_map_to_list). simpl. eauto.
  - intros [x Hx]. exists (k, x). by rewrite elem_of_map_to_list.
Qed.

(** ** Lemmas on lists *)

Section occ.
Context {A} `{EqDecision A}.
Implicit Types (x y : A) (l k : list A).

Lemma occ_app x l k : occ x (l ++ k) = occ x l + occ x k.
Proof. induction l as [|y l IH]; simpl; [done|]. rewrite IH. lia. Qed.

Lemma occ_cons_eq x l : occ x (x :: l) = S (occ x l).
Proof. simpl. by rewrite decide_True. Qed.

Lemma occ_cons_ne x y l : y ≠ x → occ x (y :: l) = occ x l.
Proof. intros. simpl. by rewrite decide_False by done. Qed.

Lemma occ_pos x l : 0 < occ x l ↔ x ∈ l.
Proof.
  induction l as [|y l IH]; simpl; [split; [lia|by intros ?%elem_of_nil]|].
  rewrite elem_of_cons, <-IH. case_decide; naive_solver lia.
Qed.

Lemma occ_zero x l : occ x l = 0 ↔ x ∉ l.
Proof. rewrite <-occ_pos. lia. Qed.

Lemma occ_perm x l k : l ≡ₚ k → occ x l = occ x k.
Proof. induction 1; simpl; lia. Qed.

Lemma occ_le_length x l : occ x l ≤ length l.
Proof. induction l as [|y l IH]; simpl; [lia|]. case_decide; lia. Qed.

Lemma occ_filter_ne x y l :
  x ≠ y → occ x (filter (λ z, z ≠ y) l) = occ x l.
Proof.
  intros Hne. induction l as [|z l IH]; [done|].
  rewrite filter_cons. case_decide; simpl; rewrite ?IH; [done|].
  rewrite decide_False by naive_solver. done.
Qed.
End occ.

Lemma elem_of_prefix_snoc {A} (k l : list A) x : k ++ [x] `prefix_of` l → x ∈ l.
Proof. intros [l' ->]. set_solver. Qed.

(** In a list of entries with distinct keys, the key of an entry does not occur
    before it. *)
Lemma prefix_key_fresh {K A} (k l : list (K * A)) x :
  NoDup l.*1 → k ++ [x] `prefix_of` l → x.1 ∉ k.*1.
Proof.
  intros Hnd [l' ->]. rewrite !fmap_app, <-app_assoc in Hnd.
  apply NoDup_app in Hnd as (_ & Hdisj & _). intros Hin.
  apply (Hdisj _ Hin). simpl. set_solver.
Qed.

Lemma NoDup_fst_filter {K A} (P : K * A → Prop) `{∀ x, Decision (P x)} (l : list (K * A)) :
  NoDup l.*1 → NoDup (filter P l).*1.
Proof.
  induction l as [|x l IH]; [done|]. simpl. intros [Hx Hl]%NoDup_cons.
  rewrite filter_cons. case_decide; simpl; [|by apply IH].
  apply NoDup_cons. split; [|by apply IH].
  rewrite list_elem_of_fmap. intros (y & Heq & [_ Hy]%list_elem_of_filter).
  apply Hx. rewrite Heq. by apply list_elem_of_fmap_2.
Qed.

Lemma NoDup_subset_length {A} (l k : list A) : NoDup l → l ⊆ k → length l ≤ length k.
Proof. intros. by apply submseteq_length, NoDup_submseteq. Qed.

Lemma NoDup_length_eq_elem {A} (l k : list A) x :
  NoDup l → NoDup k → l ⊆ k → length l = length k → x ∈ k → x ∈ l.
Proof.
  intros Hl Hk Hsub Hlen Hx.
  assert (l ≡ₚ k) as ->; [|done].
  apply submseteq_length_Permutation; [by apply NoDup_submseteq|lia].
Qed.

(** ** Lemmas on strings *)

Lemma str_app_nil_r (s : string) : s +:+ "" = s.
Proof. induction s as [|c s IH]; [done|]. change (String c (s +:+ "") = String c s). by rewrite IH. Qed.

(** ** Lemmas on machine integers *)

Lemma wrap64_range z : (- 2^63 <= wrap64 z < 2^63)%Z.
Proof. unfold wrap64. pose proof (Z.mod_pos_bound (z + 2^63) (2^64)). lia. Qed.

Lemma wrap64_id z : (- 2^63 <= z < 2^63)%Z → wrap64 z = z.
Proof. intros. unfold wrap64. rewrite Z.mod_small; lia. Qed.

(** ** Lemmas on sorting *)

Lemma sort_strings_perm l : sort_strings l ≡ₚ l.
Proof. apply merge_sort_Permutation. Qed.

Lemma sort_strings_sorted l : StronglySorted String.le (sort_strings l).
Proof. apply StronglySorted_merge_sort; apply _. Qed.

Lemma sort_strings_unique l k :
  l ≡ₚ k → sort_strings l = sort_strings k.
Proof.
  intros Hp. apply (StronglySorted_unique String.le);
    [apply sort_strings_sorted..|]. by rewrite !sort_strings_perm.
Qed.

Lemma sort_strings_id l : StronglySorted String.le l → sort_strings l = l.
Proof.
  intros. apply (StronglySorted_unique String.le); [apply sort_strings_sorted|done|].
  apply sort_strings_perm.
Qed.

Lemma elem_of_sort_strings x l : x ∈ sort_strings l ↔ x ∈ l.
Proof. by rewrite sort_strings_perm. Qed.

Lemma NoDup_sort_strings l : NoDup (sort_strings l) ↔ NoDup l.
Proof. by rewrite sort_strings_perm. Qed.

#[export] Hint Resolve sort_strings_sorted NoDup_range_keys : kubexm.

(** ** Lemmas on the monad *)

Section monad.
Context {S E : Type}.

Lemma bind_ok {A B} (m : M S E A) (f : A → M S E B) s b s' :
  (m ≫= f) s = (Ok b, s') ↔ ∃ a t, m s = (Ok a, t) ∧ f a t = (Ok b, s').
Proof.
  unfold mbind, M_bind. destruct (m s) as [[a|e|] t]; naive_solver.
Qed.

Lemma bind_cases {A B} (m : M S E A) (f : A → M S E B) s r s' :
  (m ≫= f) s = (r, s') →
  (∃ a t, m s = (Ok a, t) ∧ f a t = (r, s')) ∨ (∃ e, m s = (Err e, s') ∧ r = Err e)
  ∨ (m s = (Panic, s') ∧ r = Panic).
Proof. unfold mbind, M_bind. destruct (m s) as [[a|e|] t]; naive_solver. Qed.

Lemma foreach_app {A} (l k : list A) (body : A → M S E unit) s :
  foreach (l ++ k) body s = (foreach l body ≫= λ _, foreach k body) s.
Proof.
  revert s. induction l as [|x l IH]; intros s; [done|].
  simpl. unfold mbind, M_bind. destruct (body x s) as [[[]|e|] t]; [|done..].
  rewrite IH. done.
Qed.

(** An invariant kept by every iteration that does not fail holds at the end. *)
Lemma foreach_ind {A} (P : list A → S → Prop) l (body : A → M S E unit) s s' :
  P [] s →
  (∀ k x t t', k ++ [x] `prefix_of` l → P k t → body x t = (Ok tt, t') → P (k ++ [x]) t') →
  foreach l body s = (Ok tt, s') → P l s'.
Proof.
  intros Hnil Hstep.
  assert (∀ k done t, l = done ++ k → P done t → foreach k body t = (Ok tt, s') → P l s')
    as Hgen; [|intros; eapply Hgen; [|done..]; done].
  induction k as [|x k IH]; intros done t -> Hd Hrun; simpl in Hrun.
  - unfold mret, M_ret in Hrun. simplify_eq. by rewrite app_nil_r.
  - apply bind_ok in Hrun as ([] & t' & Hx & Hrest).
    apply (IH (done ++ [x]) t'); [by rewrite <-app_assoc| |done].
    apply (Hstep _ _ t); [|done..]. exists k. by rewrite <-app_assoc.
Qed.

(** A loop either runs to the end, or stops with what its body returned at
    some element, the invariant holding before that element. *)
Lemma foreach_cases {A} (P : list A → S → Prop) l (body : A → M S E unit) s r s' :
  P [] s →
  (∀ k x t t', k ++ [x] `prefix_of` l → P k t → body x t = (Ok tt, t') → P (k ++ [x]) t') →
  foreach l body s = (r, s') →
  (r = Ok tt ∧ P l s') ∨
  (∃ k x t, k ++ [x] `prefix_of` l ∧ P k t ∧ body x t = (r, s') ∧ r ≠ Ok tt).
Proof.
  intros Hnil Hstep.
  assert (∀ k done t, l = done ++ k → P done t → foreach k body t = (r, s') →
    (r = Ok tt ∧ P l s') ∨
    (∃ k x t, k ++ [x] `prefix_of` l ∧ P k t ∧ body x t = (r, s') ∧ r ≠ Ok tt))
    as Hgen; [|intros; eapply Hgen; [|done..]; done].
  induction k as [|x k IH]; intros done t Hl Hd Hrun; simpl in Hrun.
  - unfold mret, M_ret in Hrun. simplify_eq. left. by rewrite app_nil_r.
  - assert (done ++ [x] `prefix_of` l) as Hpre by (exists k; by rewrite <-app_assoc).
    unfold mbind, M_bind in Hrun. destruct (body x t) as [[[]|e|] t'] eqn:Hx.
    + apply (IH (done ++ [x]) t'); [by rewrite <-app_assoc| |done]. by eapply Hstep.
    + right. exists done, x, t. simplify_eq. by split_and!.
    + right. exists done, x, t. simplify_eq. by split_and!.
Qed.

(** A loop whose iterations never fail while an invariant holds runs to the end. *)
Lemma foreach_total {A} (P : list A → S → Prop) l (body : A → M S E unit) s :
  P [] s →
  (∀ k x t, k ++ [x] `prefix_of` l → P k t →
     ∃ t', body x t = (Ok tt, t') ∧ P (k ++ [x]) t') →
  ∃ s', foreach l body s = (Ok tt, s') ∧ P l s'.
Proof.
  intros Hnil Hstep.
  assert (∀ k done t, l = done ++ k → P done t →
    ∃ s', foreach k body t = (Ok tt, s') ∧ P l s') as Hgen; [|eapply Hgen; [|done]; done].
  induction k as [|x k IH]; intros done t -> Hd; simpl.
  - exists t. by rewrite app_nil_r.
  - destruct (Hstep done x t) as (t' & Hx & Hd'); [exists k; by rewrite <-app_assoc|done|].
    destruct (IH (done ++ [x]) t') as (s' & Hrun & HP); [by rewrite <-app_assoc|done|].
    exists s'. split; [|done]. unfold mbind, M_bind. by rewrite Hx.
Qed.
End monad.
