(* ===== verification/Values.v ===== *)
(** Dynamically typed values ([interface{}]) and the hosts they travel with:
    the data shared by the state bags, the data buses, the step results and the
    execution nodes of [src/internal/]. *)
From S2P Require Import Prelude.

(** ** Values of type [interface{}] *)

(** A value with its dynamic type.  [AStruct] is a struct value of the named
    type with its fields in declaration order, [AAnyStrings] and [AAnyMap] are a
    [[]interface{}] and a [map[string]interface{}] holding strings (what a JSON
    decoder makes of a [[]string] and of a struct), [APtr] a pointer to a value;
    [AOpaque] stands for a value no code here looks into (a channel, a
    function, an interface of another package), identified by a tag. *)
Inductive any : Type :=
| ANil
| AString (s : string)
| AInt (z : Z)
| AFloat64 (z : Z)
| ABool (b : bool)
| AStrings (l : list string)
| AStruct (ty : string) (fields : list (string * string))
| AAnyStrings (l : list string)
| AAnyMap (fields : list (string * string))
| APtr (a : any)
| AOpaque (tag : string).

(** The dynamic types a type assertion [v.(T)] tests for. *)
Inductive gotype : Type :=
| TNil
| TString
| TInt
| TFloat64
| TBool
| TStrings
| TAnys
| TAnyMap
| TNamed (ty : string)
| TPtr (t : gotype)
| TOpaque (tag : string).

Fixpoint typeof (a : any) : gotype :=
  match a with
  | ANil => TNil
  | AString _ => TString
  | AInt _ => TInt
  | AFloat64 _ => TFloat64
  | ABool _ => TBool
  | AStrings _ => TStrings
  | AStruct ty _ => TNamed ty
  | AAnyStrings _ => TAnys
  | AAnyMap _ => TAnyMap
  | APtr a => TPtr (typeof a)
  | AOpaque tag => TOpaque tag
  end.

(** [s, ok := v.(string)] and its siblings: the zero value when the assertion fails. *)
Definition as_string (a : any) : string * bool :=
  match a with AString s => (s, true) | _ => ("", false) end.
Definition as_int (a : any) : Z * bool :=
  match a with AInt z => (z, true) | _ => (0%Z, false) end.
Definition as_bool (a : any) : bool * bool :=
  match a with ABool b => (b, true) | _ => (false, false) end.
Definition as_strings (a : any) : list string * bool :=
  match a with AStrings l => (l, true) | _ => ([], false) end.

Global Instance any_eq_dec : EqDecision any.
Proof. solve_decision. Defined.
Global Instance gotype_eq_dec : EqDecision gotype.
Proof. solve_decision. Defined.

(** ** Hosts *)

(** What the engine and the planner read of a [remotefw.Host]. *)
Record Host : Type := MkHost {
  host_GetName : string;
  host_GetRoles : list string;
  host_GetArch : string;
  host_GetAddress : string;
}.

Global Instance Host_eq_dec : EqDecision Host.
Proof. solve_decision. Defined.
