(* ===== verification/Plan.v ===== *)
(** Execution fragments and execution graphs: [src/internal/plan/graph.go],
    [fragment.go], [utils.go] and [result.go].

    A node is stored by value under its ID.  In Go the map holds pointers, which
    a merge shares between the source fragment and its target; no code reads the
    nodes of a fragment after it was merged away, so the by-value copy of the
    target is the only one observed. *)
From S2P Require Import Prelude.
From S2P Require Import Values.

(** ** Data *)

Abbreviation NodeID := string (only parsing).

(** Handles of the interface values a node carries; the engine interprets them. *)
Abbreviation StepRef := string (only parsing).
Abbreviation CondRef := string (only parsing).

Record ExecutionNode : Type := MkNode {
  node_Name : string;
  node_Step : option StepRef;
  node_Hosts : option (list (option Host));
  node_Dependencies : list NodeID;
  node_StepName : string;
  node_Hostnames : option (list string);
  node_RuntimeConfig : gmap string any;
  node_PipelineName : string;
  node_ModuleName : string;
  node_TaskName : string;
  node_Condition : option CondRef;
}.

Definition set_Dependencies (deps : list NodeID) (n : ExecutionNode) : ExecutionNode :=
  MkNode (node_Name n) (node_Step n) (node_Hosts n) deps (node_StepName n)
    (node_Hostnames n) (node_RuntimeConfig n) (node_PipelineName n) (node_ModuleName n)
    (node_TaskName n) (node_Condition n).

Definition set_StepName (s : string) (n : ExecutionNode) : ExecutionNode :=
  MkNode (node_Name n) (node_Step n) (node_Hosts n) (node_Dependencies n) s
    (node_Hostnames n) (node_RuntimeConfig n) (node_PipelineName n) (node_ModuleName n)
    (node_TaskName n) (node_Condition n).

Definition set_Hostnames (l : option (list string)) (n : ExecutionNode) : ExecutionNode :=
  MkNode (node_Name n) (node_Step n) (node_Hosts n) (node_Dependencies n) (node_StepName n)
    l (node_RuntimeConfig n) (node_PipelineName n) (node_ModuleName n)
    (node_TaskName n) (node_Condition n).

(** A map of nodes; an entry may hold the nil pointer. *)
Abbreviation node_map := (gmap NodeID (option ExecutionNode)) (only parsing).

Record ExecutionGraph : Type := MkGraph {
  g_Name : string;
  g_Nodes : gomap (option ExecutionNode);
  g_EntryNodes : list NodeID;
  g_ExitNodes : list NodeID;
}.

Record ExecutionFragment : Type := MkFragment {
  ef_Nodes : gomap (option ExecutionNode);
  ef_EntryNodes : list NodeID;
  ef_ExitNodes : list NodeID;
  ef_Name : string;
}.

Definition NewExecutionGraph (name : string) : ExecutionGraph :=
  MkGraph name (Some ∅) [] [].

Definition NewExecutionFragment (name : string) : ExecutionFragment :=
  MkFragment (Some ∅) [] [] name.

Definition NewEmptyFragment (name : string) : ExecutionFragment :=
  MkFragment (Some ∅) [] [] name.

Definition g_set_Nodes (m : node_map) (g : ExecutionGraph) : ExecutionGraph :=
  MkGraph (g_Name g) (Some m) (g_EntryNodes g) (g_ExitNodes g).

Definition ef_set_Nodes (m : node_map) (ef : ExecutionFragment) : ExecutionFragment :=
  MkFragment (Some m) (ef_EntryNodes ef) (ef_ExitNodes ef) (ef_Name ef).

(** One constructor per error the package returns, with its arguments. *)
Inductive plan_error : Type :=
| NodeNameEmpty (fragment : string)
| NodeExists (id : NodeID)
| AddNilNode (id : NodeID)
| SelfDependency (id : NodeID)
| SourceNotFound (from to : NodeID)
| TargetNotFound (from to : NodeID)
| MergeDuplicate (id : NodeID)
| LinkNilGraph
| LinkSourceNotFound (id : NodeID)
| LinkTargetNotFound (id : NodeID)
| LinkFailed (from to : NodeID) (err : plan_error)
| NilNodesMap
| ValidateNilNode (id : NodeID)
| DanglingDependency (id dep : NodeID)
| CyclicDependency (processed expected : nat)
| EntryNodeMissing (id : NodeID)
| EntryNodeHasDependencies (id : NodeID) (deps : list NodeID)
| ExitNodeMissing (id : NodeID).

(** ** Shared helpers *)

(** [UniqueNodeIDs]: first occurrences through a [seen] map, then sorted. *)
Fixpoint unique_loop (ids : list NodeID) (seen : gmap NodeID bool) (result : list NodeID) : list NodeID :=
  match ids with
  | [] => result
  | id :: ids =>
      if default false (seen !! id) then unique_loop ids seen result
      else unique_loop ids (<[id := true]> seen) (result ++ [id])
  end.

Definition UniqueNodeIDs (ids : list NodeID) : list NodeID :=
  match ids with
  | [] => []
  | _ => sort_strings (unique_loop ids ∅ [])
  end.

(** [NonEmptyNodeIDs] of [utils.go]. *)
Definition NonEmptyNodeIDs (ids : list NodeID) : list NodeID :=
  foldl (λ result id, if decide (id = "") then result else result ++ [id]) [] ids.

(** [m[id] = n], which panics on a nil map. *)
Definition store_node {S} (nodes : S → gomap (option ExecutionNode))
    (set : node_map → S → S) (id : NodeID) (n : option ExecutionNode) : M S plan_error unit := λ s,
  match nodes s with
  | None => (Panic, s)
  | Some m => (Ok tt, set (<[id := n]> m) s)
  end.

(** The tail of both [AddDependency] methods, from the duplicate test on: it
    writes through the node pointer found at [to], which panics when nil. *)
Definition append_dependency {S} (nodes : S → gomap (option ExecutionNode))
    (set : node_map → S → S) (from to : NodeID) (target : option ExecutionNode) : M S plan_error unit := λ s,
  match target with
  | None => (Panic, s)
  | Some n =>
      if decide (from ∈ node_Dependencies n) then (Ok tt, s)
      else
        let n' := set_Dependencies (node_Dependencies n ++ [from]) n in
        (Ok tt, set (<[to := Some n']> (entries (nodes s))) s)
  end.

(** ** ExecutionGraph *)

(** [step_meta s] is [Some name] when [s.Meta()] is not nil and carries [name]. *)
Definition ExecutionGraph_AddNode (step_meta : StepRef → option string)
    (id : NodeID) (node : option ExecutionNode) : M ExecutionGraph plan_error unit := λ g,
  if decide (is_Some (entries (g_Nodes g) !! id)) then (Err (NodeExists id), g)
  else
    match node with
    | None => (Err (AddNilNode id), g)
    | Some n =>
        let n1 :=
          match node_Step n ≫= step_meta with
          | Some name => set_StepName name n
          | None => n
          end in
        let n2 :=
          match node_Hostnames n1, node_Hosts n1 with
          | None, Some hosts =>
              set_Hostnames (Some (map (λ h, from_option host_GetName "" h) hosts)) n1
          | _, _ => n1
          end in
        store_node g_Nodes g_set_Nodes id (Some n2) g
    end.

Definition ExecutionGraph_IsEmpty (g : ExecutionGraph) : bool :=
  bool_decide (mlen (g_Nodes g) = 0).

(** A missing key reads as the nil pointer. *)
Definition ExecutionGraph_GetNode (id : NodeID) (g : ExecutionGraph) : option ExecutionNode :=
  mjoin (entries (g_Nodes g) !! id).

Definition ExecutionGraph_HasNode (id : NodeID) (g : ExecutionGraph) : bool :=
  bool_decide (is_Some (entries (g_Nodes g) !! id)).

Definition ExecutionGraph_AddDependency (from to : NodeID) : M ExecutionGraph plan_error unit := λ g,
  if decide (from = to) then (Err (SelfDependency from), g)
  else
    match entries (g_Nodes g) !! from with
    | None => (Err (SourceNotFound from to), g)
    | Some _ =>
        match entries (g_Nodes g) !! to with
        | None => (Err (TargetNotFound from to), g)
        | Some target => append_dependency g_Nodes g_set_Nodes from to target g
        end
    end.

(** The marks and degree tables the scans below build. *)
Abbreviation flags := (gmap NodeID bool) (only parsing).

Abbreviation degrees := (gmap NodeID (list NodeID) * gmap NodeID Z)%type (only parsing).

Section ranges.
Context `{GoRange}.

(** Both [MergeFragment] methods copy entry by entry and stop at the first
    duplicate, keeping the entries copied before it. *)
Definition ExecutionGraph_MergeFragment (fragment : option ExecutionFragment) : M ExecutionGraph plan_error unit :=
  match fragment with
  | None => mret tt
  | Some ef =>
      foreach (range 10 (entries (ef_Nodes ef))) (λ '(id, node) g,
        if decide (is_Some (entries (g_Nodes g) !! id)) then (Err (MergeDuplicate id), g)
        else store_node g_Nodes g_set_Nodes id node g)
  end.

(** *** CalculateEntryAndExitNodes *)

(** The scan of a node map that dereferences every node; a nil node panics. *)
Fixpoint fold_nodes {A} (l : list (NodeID * option ExecutionNode))
    (f : NodeID → ExecutionNode → A → A) (acc : A) : option A :=
  match l with
  | [] => Some acc
  | (id, None) :: _ => None
  | (id, Some node) :: l => fold_nodes l f (f id node acc)
  end.

(** [if _, exists := g.Nodes[depID]; exists { m[depID] = true }] over a dependency list. *)
Definition mark_existing (nodes : node_map) (deps : list NodeID) (m : gmap NodeID bool) : gmap NodeID bool :=
  foldl (λ m dep, match nodes !! dep with Some _ => <[dep := true]> m | None => m end) m deps.

Definition any_existing (nodes : node_map) (deps : list NodeID) : bool :=
  existsb (λ dep, bool_decide (is_Some (nodes !! dep))) deps.

(** First scan: [allNodeIDs], [hasIncoming] (has any dependency at all), [hasOutgoing]. *)
Definition graph_scan1 (id : NodeID) (node : ExecutionNode) (acc : flags * flags * flags) : flags * flags * flags :=
  let '(all, hasIncoming, hasOutgoing) := acc in
  (<[id := true]> all,
   <[id := bool_decide (0 < length (node_Dependencies node))]> hasIncoming,
   <[id := false]> hasOutgoing).

(** Second scan: the dependencies that are nodes of the graph. *)
Definition graph_scan2 (nodes : node_map) (id : NodeID) (node : ExecutionNode) (acc : flags * flags) : flags * flags :=
  let '(hasIncoming, hasOutgoing) := acc in
  (if any_existing nodes (node_Dependencies node) then <[id := true]> hasIncoming else hasIncoming,
   mark_existing nodes (node_Dependencies node) hasOutgoing).

Definition unset (m : flags) (id : NodeID) : bool := negb (default false (m !! id)).

Definition ExecutionGraph_CalculateEntryAndExitNodes : M ExecutionGraph plan_error unit := λ g,
  let nodes := entries (g_Nodes g) in
  let g0 := MkGraph (g_Name g) (g_Nodes g) [] [] in
  if decide (size nodes = 0) then (Ok tt, g0)
  else
    match fold_nodes (range 20 nodes) graph_scan1 (∅, ∅, ∅) with
    | None => (Panic, g0)
    | Some (all, hasIncoming, hasOutgoing) =>
        match fold_nodes (range 21 nodes) (graph_scan2 nodes) (hasIncoming, hasOutgoing) with
        | None => (Panic, g0)
        | Some (hasIncoming, hasOutgoing) =>
            let ids := (range 22 all).*1 in
            let entry := filter (unset hasIncoming) ids in
            let exit := filter (unset hasOutgoing) ids in
            (Ok tt, MkGraph (g_Name g) (g_Nodes g)
                      (sort_strings (UniqueNodeIDs entry)) (sort_strings (UniqueNodeIDs exit)))
        end
    end.

(** *** Validate *)

Definition zlookup (m : gmap NodeID Z) (id : NodeID) : Z := default 0%Z (m !! id).

(** [for _, v := range adj[u] { inDegree[v]--; if inDegree[v] == 0 { queue = append(queue, v) } }] *)
Fixpoint relax (vs : list NodeID) (inDegree : gmap NodeID Z) (queue : list NodeID) : gmap NodeID Z * list NodeID :=
  match vs with
  | [] => (inDegree, queue)
  | v :: vs =>
      let d := (zlookup inDegree v - 1)%Z in
      relax vs (<[v := d]> inDegree) (if decide (d = 0%Z) then queue ++ [v] else queue)
  end.

(** The queue loop; [None] is running out of fuel, which [Validate] never does. *)
Fixpoint kahn_loop (fuel : nat) (adj : gmap NodeID (list NodeID)) (queue : list NodeID)
    (inDegree : gmap NodeID Z) (count : nat) : option nat :=
  match queue with
  | [] => Some count
  | u :: queue =>
      match fuel with
      | 0 => None
      | S fuel =>
          let '(inDegree, queue) := relax (default [] (adj !! u)) inDegree queue in
          kahn_loop fuel adj queue inDegree (S count)
      end
  end.

(** First loop: refuse nil nodes, start every node with no successor and degree 0. *)
Definition validate_init (nodes : node_map) : M degrees plan_error unit :=
  foreach (range 30 nodes) (λ '(id, node) '(adj, inDegree),
    match node with
    | None => (Err (ValidateNilNode id), (adj, inDegree))
    | Some _ => (Ok tt, (<[id := []]> adj, <[id := 0%Z]> inDegree))
    end).

(** Second loop: one edge per dependency, refusing the ones that leave the graph. *)
Definition validate_edges (nodes : node_map) : M degrees plan_error unit :=
  foreach (range 31 nodes) (λ '(id, node),
    match node with
    | None => panic
    | Some n =>
        foreach (node_Dependencies n) (λ dep '(adj, inDegree),
          match nodes !! dep with
          | None => (Err (DanglingDependency id dep), (adj, inDegree))
          | Some _ =>
              (Ok tt, (<[dep := default [] (adj !! dep) ++ [id]]> adj,
                       <[id := (zlookup inDegree id + 1)%Z]> inDegree))
          end)
    end).

Definition validate_entries (nodes : node_map) (ids : list NodeID) : M unit plan_error unit :=
  foreach (UniqueNodeIDs ids) (λ id s,
    match nodes !! id with
    | None => (Err (EntryNodeMissing id), s)
    | Some None => (Panic, s)
    | Some (Some n) =>
        if decide (0 < length (node_Dependencies n))
        then (Err (EntryNodeHasDependencies id (node_Dependencies n)), s)
        else (Ok tt, s)
    end).

Definition validate_exits (nodes : node_map) (ids : list NodeID) : M unit plan_error unit :=
  foreach (UniqueNodeIDs ids) (λ id s,
    match nodes !! id with
    | None => (Err (ExitNodeMissing id), s)
    | Some _ => (Ok tt, s)
    end).

Definition ExecutionGraph_Validate (g : ExecutionGraph) : outcome plan_error unit :=
  match g_Nodes g with
  | None => Err NilNodesMap
  | Some nodes =>
      match (validate_init nodes ≫= λ _, validate_edges nodes) (∅, ∅) with
      | (Err e, _) => Err e
      | (Panic, _) => Panic
      | (Ok _, (adj, inDegree)) =>
          let queue := (filter (λ '(_, degree), degree = 0%Z) (range 32 inDegree)).*1 in
          match kahn_loop (size nodes) adj queue inDegree 0 with
          | None => Panic
          | Some count =>
              if decide (count = size nodes) then
                fst ((validate_entries nodes (g_EntryNodes g)
                      ≫= λ _, validate_exits nodes (g_ExitNodes g)) tt)
              else Err (CyclicDependency count (size nodes))
          end
      end
  end.

(** ** ExecutionFragment *)

Definition ExecutionFragment_MergeFragment (other : option ExecutionFragment) : M ExecutionFragment plan_error unit :=
  match other with
  | None => mret tt
  | Some other =>
      foreach (range 11 (entries (ef_Nodes other))) (λ '(id, node) ef,
        if decide (is_Some (entries (ef_Nodes ef) !! id)) then (Err (MergeDuplicate id), ef)
        else store_node ef_Nodes ef_set_Nodes id node ef)
  end.

(** First scans: every ID, no incoming or outgoing mark yet. *)
Definition fragment_scan1 (l : list (NodeID * option ExecutionNode)) : flags * flags * flags :=
  foldl (λ '(all, hasIncoming, hasOutgoing) '(id, _),
    (<[id := true]> all, <[id := false]> hasIncoming, <[id := false]> hasOutgoing)) (∅, ∅, ∅) l.

(** Second scan: it also marks nodes whose dependencies all lie outside. *)
Definition fragment_scan2 (nodes : node_map) (id : NodeID) (node : ExecutionNode) (acc : flags * flags) : flags * flags :=
  let '(hasIncoming, hasOutgoing) := acc in
  (if decide (0 < length (node_Dependencies node)) then <[id := true]> hasIncoming else hasIncoming,
   mark_existing nodes (node_Dependencies node) hasOutgoing).

(** [for id := range m { m[id] = false }] *)
Definition clear_flags (l : list (NodeID * bool)) (m : flags) : flags :=
  foldl (λ m '(id, _), <[id := false]> m) m l.

Definition fragment_scan3 (nodes : node_map) (id : NodeID) (node : ExecutionNode) (hasOutgoing : flags) : flags :=
  mark_existing nodes (node_Dependencies node) hasOutgoing.

(** The entry test of the last loop; [None] when [ef.Nodes[id]] is nil. *)
Definition fragment_is_entry (nodes : node_map) (id : NodeID) : option bool :=
  match mjoin (nodes !! id) with
  | None => None
  | Some n => Some (negb (any_existing nodes (node_Dependencies n)))
  end.

(** The last loop, appending to [ef.EntryNodes] and [ef.ExitNodes]. *)
Fixpoint fragment_collect (nodes : node_map) (hasOutgoing : flags) (ids : list NodeID)
    (entry exit : list NodeID) : option (list NodeID * list NodeID) :=
  match ids with
  | [] => Some (entry, exit)
  | id :: ids =>
      match fragment_is_entry nodes id with
      | None => None
      | Some is_entry =>
          fragment_collect nodes hasOutgoing ids
            (if is_entry then entry ++ [id] else entry)
            (if unset hasOutgoing id then exit ++ [id] else exit)
      end
  end.

Definition ExecutionFragment_CalculateEntryAndExitNodes : M ExecutionFragment plan_error unit := λ ef,
  let nodes := entries (ef_Nodes ef) in
  let ef0 := MkFragment (ef_Nodes ef) [] [] (ef_Name ef) in
  if decide (size nodes = 0) then (Ok tt, ef0)
  else
    let '(all, hasIncoming, hasOutgoing) := fragment_scan1 (range 40 nodes) in
    match fold_nodes (range 41 nodes) (fragment_scan2 nodes) (hasIncoming, hasOutgoing) with
    | None => (Panic, ef0)
    | Some (hasIncoming, hasOutgoing) =>
        match fold_nodes (range 43 nodes) (fragment_scan3 nodes)
                (clear_flags (range 42 hasOutgoing) hasOutgoing) with
        | None => (Panic, ef0)
        | Some hasOutgoing =>
            match fragment_collect nodes hasOutgoing (range 44 all).*1 [] [] with
            | None => (Panic, ef0)
            | Some (entry, exit) =>
                (Ok tt, MkFragment (ef_Nodes ef) (UniqueNodeIDs entry) (UniqueNodeIDs exit) (ef_Name ef))
            end
        end
    end.

End ranges.

(** [AddNode(node, id...)]: without an explicit ID the node's name is read
    before the nil test, so a nil node panics there. *)
Definition ExecutionFragment_AddNode (node : option ExecutionNode) (ids : list NodeID) : M ExecutionFragment plan_error NodeID := λ ef,
  let insert_at (nodeID : NodeID) :=
    if decide (is_Some (entries (ef_Nodes ef) !! nodeID)) then (Err (NodeExists nodeID), ef)
    else
      match node with
      | None => (Err (AddNilNode nodeID), ef)
      | Some _ => (store_node ef_Nodes ef_set_Nodes nodeID node ≫= λ _, mret nodeID) ef
      end in
  match ids with
  | nodeID :: _ => insert_at nodeID
  | [] =>
      match node with
      | None => (Panic, ef)
      | Some n => if decide (node_Name n = "") then (Err (NodeNameEmpty (ef_Name ef)), ef) else insert_at (node_Name n)
      end
  end.

(** [ef == nil || len(ef.Nodes) == 0] *)
Definition ExecutionFragment_IsEmpty (ef : option ExecutionFragment) : bool :=
  match ef with None => true | Some ef => bool_decide (mlen (ef_Nodes ef) = 0) end.

Definition ExecutionFragment_GetNode (id : NodeID) (ef : ExecutionFragment) : option ExecutionNode :=
  mjoin (entries (ef_Nodes ef) !! id).

Definition ExecutionFragment_HasNode (id : NodeID) (ef : ExecutionFragment) : bool :=
  bool_decide (is_Some (entries (ef_Nodes ef) !! id)).

Definition ExecutionFragment_AddDependency (from to : NodeID) : M ExecutionFragment plan_error unit := λ ef,
  if decide (from = to) then (Err (SelfDependency from), ef)
  else
    match entries (ef_Nodes ef) !! from with
    | None => (Err (SourceNotFound from to), ef)
    | Some _ =>
        match entries (ef_Nodes ef) !! to with
        | None => (Err (TargetNotFound from to), ef)
        | Some target => append_dependency ef_Nodes ef_set_Nodes from to target ef
        end
    end.

(** ** The Graph interface and LinkFragments *)

(** The interface [Graph] of [graph.go]. *)
Class Graph (G : Type) := {
  AddDependency : NodeID → NodeID → M G plan_error unit;
  GetNode : NodeID → G → option ExecutionNode;
  HasNode : NodeID → G → bool;
}.

Global Instance ExecutionGraph_Graph : Graph ExecutionGraph := {|
  AddDependency := ExecutionGraph_AddDependency;
  GetNode := ExecutionGraph_GetNode;
  HasNode := ExecutionGraph_HasNode;
|}.

Global Instance ExecutionFragment_Graph : Graph ExecutionFragment := {|
  AddDependency := ExecutionFragment_AddDependency;
  GetNode := ExecutionFragment_GetNode;
  HasNode := ExecutionFragment_HasNode;
|}.

(** [for _, id := range ids { if !graph.HasNode(id) { return err(id) } }] *)
Definition require_nodes {G} `{Graph G} (err : NodeID → plan_error) (ids : list NodeID) : M G plan_error unit :=
  foreach ids (λ id g, if HasNode id g then (Ok tt, g) else (Err (err id), g)).

Definition LinkFragments {G} `{Graph G} (fromNodeIDs toNodeIDs : list NodeID) : M G plan_error unit :=
  match fromNodeIDs, toNodeIDs with
  | [], _ | _, [] => mret tt
  | _, _ =>
      require_nodes LinkSourceNotFound fromNodeIDs ≫= λ _,
      require_nodes LinkTargetNotFound toNodeIDs ≫= λ _,
      foreach toNodeIDs (λ toID,
        foreach fromNodeIDs (λ fromID,
          wrap (LinkFailed fromID toID) (AddDependency fromID toID)))
  end.

(** The nil-interface guard in front of it. *)
Definition LinkFragments_iface {G} `{Graph G} (fromNodeIDs toNodeIDs : list NodeID) : M (option G) plan_error unit := λ og,
  match og with
  | None => (Err LinkNilGraph, None)
  | Some g => let '(r, g') := LinkFragments fromNodeIDs toNodeIDs g in (r, Some g')
  end.
