(* ===== verification/Kahn.v ===== *)
(** Correctness of the queue loop of [ExecutionGraph_Validate]
    ([src/internal/plan/graph.go]), on an arbitrary finite dependency relation:
    the loop processes every node exactly when the relation has no cycle. *)
From S2P Require Import Prelude.
From S2P Require Import Values.
From S2P Require Import Plan.

(** [before deps x y]: [x] is one of the dependencies of [y]. *)
Definition before (deps : NodeID → list NodeID) (x y : NodeID) : Prop := x ∈ deps y.

(** No node depends on itself, directly or not. *)
Definition acyclic (deps : NodeID → list NodeID) : Prop := ∀ x, ¬ tc (before deps) x x.

(** The dependencies of [v] not in [P], with multiplicity. *)
Definition pending (deps : NodeID → list NodeID) (P : list NodeID) (v : NodeID) : nat :=
  length (filter (.∉ P) (deps v)).

(** Every element of [P] comes after all of its dependencies. *)
Definition topological (deps : NodeID → list NodeID) (P : list NodeID) : Prop :=
  ∀ j v, P !! j = Some v → ∀ d, d ∈ deps v → ∃ i, i < j ∧ P !! i = Some d.

(** ** The inner loop *)

Lemma relax_spec vs D Q D' Q' :
  relax vs D Q = (D', Q') →
  (∀ v, v ∈ vs → ∃ n : nat, D !! v = Some (Z.of_nat n) ∧ occ v vs ≤ n) →
  (∀ v, D' !! v = (λ d, (d - Z.of_nat (occ v vs))%Z) <$> D !! v) ∧
  ∃ new, Q' = Q ++ new ∧ NoDup new ∧
    ∀ v, v ∈ new ↔ v ∈ vs ∧ D !! v = Some (Z.of_nat (occ v vs)).
Proof.
  revert D Q. induction vs as [|v vs IH]; intros D Q Hrun Hdeg; simpl in Hrun.
  { simplify_eq. split.
    - intros v. destruct (D' !! v); simpl; f_equal. lia.
    - exists []. rewrite app_nil_r. split_and!; [done|constructor|set_solver]. }
  destruct (Hdeg v) as (n & Hv & Hn); [set_solver|].
  rewrite occ_cons_eq in Hn.
  assert (zlookup D v = Z.of_nat n) as Hz by (unfold zlookup; by rewrite Hv).
  rewrite Hz in Hrun. apply IH in Hrun as (HD & new & -> & Hnd & Hnew); clear IH.
  2:{ intros w Hw. destruct (decide (v = w)) as [->|Hne].
      - exists (n - 1). rewrite lookup_insert_eq. split; [f_equal; lia|lia].
      - destruct (Hdeg w) as (m & Hm & Hle); [set_solver|]. exists m.
        rewrite lookup_insert_ne by done. rewrite occ_cons_ne in Hle by done. done. }
  split.
  { intros w. rewrite HD. destruct (decide (v = w)) as [->|Hne].
    - rewrite lookup_insert_eq, Hv, occ_cons_eq. simpl. f_equal. lia.
    - rewrite lookup_insert_ne, occ_cons_ne by done. done. }
  case_decide as H0.
  - exists (v :: new). rewrite <-app_assoc. split; [done|].
    assert (v ∉ vs) as Hnotin by (apply occ_zero; lia).
    split; [constructor; [rewrite Hnew; set_solver|done]|].
    intros w. rewrite !elem_of_cons, Hnew. destruct (decide (v = w)) as [->|Hne].
    + rewrite occ_cons_eq, Hv. split; [|by left]. intros _. split; [by left|]. f_equal. lia.
    + rewrite lookup_insert_ne, occ_cons_ne by done. naive_solver.
  - exists new. split; [done|split; [done|]].
    intros w. rewrite elem_of_cons, Hnew. destruct (decide (v = w)) as [->|Hne].
    + rewrite lookup_insert_eq, occ_cons_eq, Hv. split.
      * intros [Hw Heq]. simplify_eq. split; [by left|]. f_equal. lia.
      * intros [_ Heq]. simplify_eq. assert (0 < occ w vs) as Hpos by lia.
        apply occ_pos in Hpos. split; [done|]. f_equal. lia.
    + rewrite lookup_insert_ne, occ_cons_ne by done. naive_solver.
Qed.

(** ** Pending dependencies *)

Lemma pending_snoc deps P u v :
  u ∉ P → pending deps (P ++ [u]) v + occ u (deps v) = pending deps P v.
Proof.
  intros Hu. unfold pending. induction (deps v) as [|d l IH]; [done|].
  simpl. rewrite !filter_cons.
  destruct (decide (u = d)) as [->|Hne].
  - rewrite (decide_False (P := d ∉ P ++ [d])) by set_solver.
    rewrite decide_True by done. simpl. lia.
  - destruct (decide (d ∈ P)).
    + rewrite !decide_False by set_solver. lia.
    + rewrite !decide_True by set_solver. simpl. lia.
Qed.

Lemma pending_zero deps P v : pending deps P v = 0 ↔ ∀ d, d ∈ deps v → d ∈ P.
Proof.
  unfold pending. rewrite length_zero_iff_nil. split.
  - intros Hnil d Hd. destruct (decide (d ∈ P)); [done|].
    assert (d ∈ filter (.∉ P) (deps v)) as Hin by by apply list_elem_of_filter.
    rewrite Hnil in Hin. set_solver.
  - intros Hall. destruct (filter _ _) as [|d l] eqn:Heq; [done|].
    assert (d ∈ filter (.∉ P) (deps v)) as [Hin Hd]%list_elem_of_filter
      by (rewrite Heq; left). naive_solver.
Qed.

Lemma pending_nil deps v : pending deps [] v = length (deps v).
Proof.
  unfold pending. f_equal. induction (deps v) as [|d l IH]; [done|].
  rewrite filter_cons, decide_True by set_solver. by rewrite IH.
Qed.

Lemma topological_snoc deps P u :
  topological deps P → (∀ d, d ∈ deps u → d ∈ P) → topological deps (P ++ [u]).
Proof.
  intros HP Hu j v Hj d Hd.
  apply lookup_app_Some in Hj as [Hj|[Hlen Hj]].
  - destruct (HP j v Hj d Hd) as (i & Hi & Hl). exists i. split; [done|].
    by apply lookup_app_l_Some.
  - apply list_lookup_singleton_Some in Hj as [Hj ->].
    destruct (list_elem_of_lookup_1 P d) as [i Hi]; [by apply Hu|].
    pose proof (lookup_lt_Some _ _ _ Hi). exists i. split; [lia|].
    by apply lookup_app_l_Some.
Qed.

Lemma topological_acyclic deps P :
  NoDup P → topological deps P → (∀ v, deps v ≠ [] → v ∈ P) → acyclic deps.
Proof.
  intros Hnd Htopo Hall x Hx.
  assert (∀ a b, tc (before deps) a b → ∀ j, P !! j = Some b → ∃ i, i < j ∧ P !! i = Some a)
    as Hlt.
  { induction 1 as [a b Hab|a b c Hab _ IH]; intros j Hj; [by eapply Htopo|].
    destruct (IH j Hj) as (k & Hk & Hb). destruct (Htopo k b Hb a Hab) as (i & Hi & Ha).
    exists i. split; [lia|done]. }
  assert (∀ a b, tc (before deps) a b → deps b ≠ []) as Hne.
  { induction 1 as [a b Hab|]; [|done]. intros Hnil. unfold before in Hab.
    rewrite Hnil in Hab. by apply elem_of_nil in Hab. }
  assert (x ∈ P) as [j Hj]%list_elem_of_lookup_1 by (apply Hall; by eapply Hne).
  destruct (Hlt x x Hx j Hj) as (i & Hi & Hl).
  pose proof (NoDup_lookup _ _ _ _ Hnd Hl Hj). lia.
Qed.

Lemma tc_flip {A} (R : relation A) x y : tc (flip R) x y → tc R y x.
Proof.
  induction 1 as [a b Hab|a b c Hab _ IH]; [by apply tc_once|].
  by eapply tc_r.
Qed.

(** An acyclic relation over finitely many nodes can be followed down only
    finitely often. *)
Lemma acyclic_sn deps (N : list NodeID) :
  acyclic deps → (∀ v d, d ∈ deps v → d ∈ N) → ∀ v, sn (flip (before deps)) v.
Proof.
  intros Hac HN v. apply tc_finite_sn.
  - intros x Hx. apply (Hac x). by apply tc_flip in Hx.
  - exists N. intros d Hd. apply tc_flip in Hd. inversion Hd; subst; by eapply HN.
Qed.

(** ** The outer loop *)

Section loop.
Context (N : list NodeID) (deps : NodeID → list NodeID) (adj : gmap NodeID (list NodeID)).
Hypothesis N_nodup : NoDup N.
Hypothesis deps_closed : ∀ v d, d ∈ deps v → v ∈ N ∧ d ∈ N.
Hypothesis adj_occ : ∀ u v, occ v (default [] (adj !! u)) = occ u (deps v).

(** [P] was processed, [Q] is the queue, [D] the remaining degrees. *)
Definition kahn_inv (P Q : list NodeID) (D : gmap NodeID Z) : Prop :=
  NoDup (P ++ Q) ∧ P ++ Q ⊆ N ∧
  (∀ v, v ∈ N → D !! v = Some (Z.of_nat (pending deps P v))) ∧
  (∀ v, v ∈ N → v ∈ P ++ Q ↔ pending deps P v = 0) ∧
  topological deps P.

Lemma adj_in_N u v : v ∈ default [] (adj !! u) → v ∈ N.
Proof.
  intros Hv. apply occ_pos in Hv. rewrite adj_occ in Hv. apply occ_pos in Hv.
  by apply (deps_closed v u).
Qed.

Lemma kahn_step P u Q D D' Q' :
  kahn_inv P (u :: Q) D →
  relax (default [] (adj !! u)) D Q = (D', Q') →
  kahn_inv (P ++ [u]) Q' D'.
Proof.
  intros (Hnd & Hsub & HD & Hzero & Htopo) Hrun.
  assert (u ∉ P) as Hu by (apply NoDup_app in Hnd as (_ & Hdisj & _); set_solver).
  assert (u ∈ N) as HuN by (apply Hsub; set_solver).
  assert (∀ v, pending deps (P ++ [u]) v + occ v (default [] (adj !! u)) = pending deps P v)
    as Hsnoc by (intros v; rewrite adj_occ; by apply pending_snoc).
  apply relax_spec in Hrun as (HD' & new & -> & Hnew_nd & Hnew).
  2:{ intros v Hv. exists (pending deps P v). rewrite HD by by eapply adj_in_N.
      split; [done|]. rewrite <-(Hsnoc v). lia. }
  assert (∀ v, v ∈ new ↔ v ∈ N ∧ pending deps (P ++ [u]) v = 0 ∧ pending deps P v ≠ 0) as Hin.
  { intros v. rewrite Hnew. specialize (Hsnoc v). split.
    - intros [Hv Heq]. assert (v ∈ N) as HvN by by eapply adj_in_N.
      rewrite HD in Heq by done. simplify_eq. apply occ_pos in Hv. split; [done|lia].
    - intros (HvN & H0 & Hne). rewrite HD by done. split; [apply occ_pos; lia|f_equal; lia]. }
  assert ((P ++ [u]) ++ Q ++ new ≡ₚ (P ++ u :: Q) ++ new) as Hperm by solve_Permutation.
  split_and!.
  - rewrite Hperm. apply NoDup_app. split; [done|]. split; [|done].
    intros v Hv Hv'. apply Hin in Hv' as (HvN & _ & Hne). by apply Hne, Hzero.
  - intros v. rewrite Hperm, elem_of_app. intros [?|Hv]; [by apply Hsub|].
    by apply Hin in Hv as [? _].
  - intros v Hv. rewrite HD', HD by done. simpl. f_equal. specialize (Hsnoc v). lia.
  - intros v Hv. rewrite Hperm, elem_of_app, Hzero, Hin by done. specialize (Hsnoc v).
    split; [intros [?|?]; lia|]. intros. destruct (decide (pending deps P v = 0)); [by left|right].
    by split_and!.
  - apply topological_snoc; [done|]. apply pending_zero, Hzero; set_solver.
Qed.

(** With one unit of fuel per unprocessed node the loop ends, and it returns
    the number of nodes it processed. *)
Lemma kahn_loop_runs fuel P Q D :
  kahn_inv P Q D → length N ≤ fuel + length P →
  ∃ P' D', kahn_loop fuel adj Q D (length P) = Some (length P') ∧ kahn_inv P' [] D'.
Proof.
  revert P Q D. induction fuel as [|fuel IH]; intros P Q D Hinv Hfuel;
    destruct Q as [|u Q]; [by exists P, D..| |by exists P, D|].
  - destruct Hinv as (Hnd & Hsub & _).
    pose proof (NoDup_subset_length _ _ Hnd Hsub) as Hlen.
    rewrite length_app in Hlen. simpl in Hlen. lia.
  - simpl. destruct (relax _ D Q) as [D' Q'] eqn:Hrun.
    pose proof (kahn_step _ _ _ _ _ _ Hinv Hrun) as Hinv'.
    destruct (IH (P ++ [u]) Q' D') as (P' & D'' & Hloop & Hend); [done| |].
    { rewrite length_app. simpl. lia. }
    exists P', D''. split; [|done]. rewrite <-Hloop, length_app. simpl. by rewrite Nat.add_1_r.
Qed.

(** When the loop stops, it has processed every node iff there is no cycle. *)
Lemma kahn_end P D : kahn_inv P [] D → length P = length N ↔ acyclic deps.
Proof.
  intros (Hnd & Hsub & HD & Hzero & Htopo). rewrite app_nil_r in Hnd, Hsub.
  split.
  - intros Hlen. apply (topological_acyclic deps P); [done..|].
    intros v Hne. apply (NoDup_length_eq_elem P N); [done..|].
    destruct (deps v) as [|d l] eqn:Hd; [done|]. apply (deps_closed v d). rewrite Hd. left.
  - intros Hac. apply Nat.le_antisymm; [by apply NoDup_subset_length|].
    apply NoDup_subset_length; [done|]. intros v Hv.
    assert (sn (flip (before deps)) v) as Hsn.
    { apply (acyclic_sn deps N); [done|]. intros ??. apply deps_closed. }
    induction Hsn as [v _ IH].
    assert (v ∈ P ++ []) as Hvin; [|by rewrite app_nil_r in Hvin].
    apply Hzero; [done|]. apply pending_zero. intros d Hd. apply IH; [done|].
    by eapply deps_closed.
Qed.

(** The loop started on the nodes of degree 0 decides acyclicity. *)
Lemma kahn_loop_correct Q D :
  NoDup Q → (∀ v, v ∈ Q ↔ v ∈ N ∧ deps v = []) →
  (∀ v, v ∈ N → D !! v = Some (Z.of_nat (length (deps v)))) →
  ∃ count, kahn_loop (length N) adj Q D 0 = Some count ∧ (count = length N ↔ acyclic deps).
Proof.
  intros HQ Hin HD.
  destruct (kahn_loop_runs (length N) [] Q D) as (P' & D' & Hrun & Hend).
  - split_and!; simpl.
    + done.
    + intros v. rewrite Hin. naive_solver.
    + intros v Hv. rewrite pending_nil. by apply HD.
    + intros v Hv. rewrite pending_nil, Hin. rewrite length_zero_iff_nil. naive_solver.
    + intros j v Hj. by rewrite lookup_nil in Hj.
  - simpl. lia.
  - exists (length P'). split; [done|]. by apply (kahn_end P' D').
Qed.
End loop.
