(* ===== verification/GraphSpec.v ===== *)
(** What [src/internal/plan/graph.go] and [fragment.go] promise: the meaning of
    [UniqueNodeIDs], [Validate], [CalculateEntryAndExitNodes], [MergeFragment]
    and [LinkFragments], for every iteration order of Go's maps. *)
From S2P Require Import Prelude.
From S2P Require Import Values.
From S2P Require Import Plan.
From S2P Require Import Kahn.

(** ** Specifications *)

(** The dependencies of a node, none for an unknown or nil node. *)
Definition node_deps (nodes : node_map) (id : NodeID) : list NodeID :=
  from_option node_Dependencies [] (mjoin (nodes !! id)).

Definition nodes_nonnil (nodes : node_map) : Prop := ∀ id, nodes !! id ≠ Some None.

Definition nodes_closed (nodes : node_map) : Prop :=
  ∀ id dep, dep ∈ node_deps nodes id → is_Some (nodes !! dep).

(** A graph that may be executed. *)
Definition well_formed (g : ExecutionGraph) : Prop :=
  ∃ nodes, g_Nodes g = Some nodes ∧
    nodes_nonnil nodes ∧ nodes_closed nodes ∧ acyclic (node_deps nodes) ∧
    (∀ id, id ∈ g_EntryNodes g → is_Some (nodes !! id) ∧ node_deps nodes id = []) ∧
    (∀ id, id ∈ g_ExitNodes g → is_Some (nodes !! id)).

(** What each error of [Validate] says about the graph. *)
Definition validate_error_meaning (g : ExecutionGraph) (e : plan_error) : Prop :=
  let nodes := entries (g_Nodes g) in
  match e with
  | NilNodesMap => g_Nodes g = None
  | ValidateNilNode id => nodes !! id = Some None
  | DanglingDependency id dep => dep ∈ node_deps nodes id ∧ nodes !! dep = None
  | CyclicDependency processed expected =>
      ¬ acyclic (node_deps nodes) ∧ expected = size nodes
  | EntryNodeMissing id => id ∈ g_EntryNodes g ∧ nodes !! id = None
  | EntryNodeHasDependencies id deps =>
      id ∈ g_EntryNodes g ∧ deps = node_deps nodes id ∧ deps ≠ []
  | ExitNodeMissing id => id ∈ g_ExitNodes g ∧ nodes !! id = None
  | _ => False
  end.

(** IDs of a map satisfying a test, in Go's string order. *)
Definition sorted_ids (nodes : node_map) (f : NodeID → bool) : list NodeID :=
  sort_strings (filter f (map_to_list nodes).*1).

Definition no_deps (nodes : node_map) (id : NodeID) : bool :=
  bool_decide (node_deps nodes id = []).

Definition no_inner_deps (nodes : node_map) (id : NodeID) : bool :=
  negb (any_existing nodes (node_deps nodes id)).

(** No node of the map depends on [id]. *)
Definition no_dependents (nodes : node_map) (id : NodeID) : bool :=
  forallb (λ id', bool_decide (id ∉ node_deps nodes id')) (map_to_list nodes).*1.

(** ** UniqueNodeIDs *)

Lemma unique_loop_elem ids seen result :
  (∀ id, default false (seen !! id) = true → id ∈ result) →
  ∀ x, x ∈ unique_loop ids seen result ↔ x ∈ ids ∨ x ∈ result.
Proof.
  revert seen result. induction ids as [|id ids IH]; intros seen result Hseen x; simpl.
  { set_solver. }
  destruct (default false (seen !! id)) eqn:Hid.
  - rewrite IH by done. apply Hseen in Hid. set_solver.
  - rewrite IH; [set_solver|]. intros y. destruct (decide (id = y)) as [->|Hne].
    + set_solver.
    + rewrite lookup_insert_ne by done. intros Hy. apply Hseen in Hy. set_solver.
Qed.

Lemma unique_loop_NoDup ids seen result :
  (∀ id, id ∈ result → default false (seen !! id) = true) →
  NoDup result → NoDup (unique_loop ids seen result).
Proof.
  revert seen result. induction ids as [|id ids IH]; intros seen result Hseen Hnd; [done|].
  simpl. destruct (default false (seen !! id)) eqn:Hid; [by apply IH|].
  apply IH.
  - intros y Hy. destruct (decide (id = y)) as [->|Hne]; [by rewrite lookup_insert_eq|].
    rewrite lookup_insert_ne by done. apply Hseen. set_solver.
  - apply NoDup_app. split_and!; [done| |apply NoDup_singleton].
    intros y Hy ->%list_elem_of_singleton. apply Hseen in Hy. congruence.
Qed.

Lemma elem_of_UniqueNodeIDs x ids : x ∈ UniqueNodeIDs ids ↔ x ∈ ids.
Proof.
  destruct ids as [|id ids]; [done|]. unfold UniqueNodeIDs.
  rewrite elem_of_sort_strings, unique_loop_elem; [set_solver|].
  intros y. by rewrite lookup_empty.
Qed.

Lemma NoDup_UniqueNodeIDs ids : NoDup (UniqueNodeIDs ids).
Proof.
  destruct ids as [|id ids]; [constructor|]. unfold UniqueNodeIDs.
  rewrite NoDup_sort_strings. apply unique_loop_NoDup; [set_solver|constructor].
Qed.

Lemma sorted_UniqueNodeIDs ids : StronglySorted String.le (UniqueNodeIDs ids).
Proof. destruct ids; [constructor|]. apply sort_strings_sorted. Qed.

#[export] Hint Resolve NoDup_UniqueNodeIDs sorted_UniqueNodeIDs : kubexm.
#[export] Hint Rewrite elem_of_UniqueNodeIDs : kubexm.

(** A list is determined by its members once it is sorted and duplicate-free. *)
Lemma sorted_ids_unique l k :
  NoDup l → NoDup k → (∀ x, x ∈ l ↔ x ∈ k) → sort_strings l = sort_strings k.
Proof. intros. by apply sort_strings_unique, NoDup_Permutation. Qed.

Lemma UniqueNodeIDs_eq ids : UniqueNodeIDs ids = sort_strings (remove_dups ids).
Proof.
  rewrite <-(sort_strings_id (UniqueNodeIDs ids)) by auto with kubexm.
  apply sorted_ids_unique; [auto with kubexm|apply NoDup_remove_dups|].
  intros x. by rewrite elem_of_UniqueNodeIDs, elem_of_remove_dups.
Qed.

(** ** Validate *)

Section validate.
Context `{GoRange} (nodes : node_map).

Lemma validate_init_spec r st :
  validate_init nodes (∅, ∅) = (r, st) →
  (r = Ok tt ∧ nodes_nonnil nodes ∧
     (∀ v, st.1 !! v = (λ _, []) <$> nodes !! v) ∧
     (∀ v, st.2 !! v = (λ _, 0%Z) <$> nodes !! v)) ∨
  (∃ id, r = Err (ValidateNilNode id) ∧ nodes !! id = Some None).
Proof.
  unfold validate_init. intros Hrun.
  eapply (foreach_cases (λ k st,
    (∀ v, v ∈ k.*1 → nodes !! v ≠ Some None) ∧
    (∀ v, st.1 !! v = if decide (v ∈ k.*1) then Some [] else None) ∧
    (∀ v, st.2 !! v = if decide (v ∈ k.*1) then Some 0%Z else None))) in Hrun.
  - destruct Hrun as [(-> & Hnn & Hadj & Hdeg)|(k & [id n] & t & Hpre & _ & Hx & Hne)].
    + left. split; [done|].
      assert (∀ v, v ∈ (range 30 nodes).*1 ↔ is_Some (nodes !! v)) as Hin
        by (intros; apply elem_of_range_keys).
      split; [|split]; intros v.
      * intros Hv. eapply Hnn; [|exact Hv]. apply Hin. eauto.
      * rewrite Hadj. case_decide as Hv; rewrite Hin in Hv.
        -- destruct Hv as [? ->]. done.
        -- apply eq_None_not_Some in Hv. by rewrite Hv.
      * rewrite Hdeg. case_decide as Hv; rewrite Hin in Hv.
        -- destruct Hv as [? ->]. done.
        -- apply eq_None_not_Some in Hv. by rewrite Hv.
    + right. destruct t as [adj deg]. apply elem_of_prefix_snoc, elem_of_range in Hpre.
      destruct n as [n|]; simplify_eq. by exists id.
  - split_and!; [set_solver|by intros..].
  - intros k [id n] [adj deg] [adj' deg'] Hpre (Hnn & Hadj & Hdeg) Hx.
    apply elem_of_prefix_snoc, elem_of_range in Hpre.
    destruct n as [n|]; simplify_eq/=. rewrite !fmap_app; simpl. split_and!; intros v.
    + rewrite elem_of_app, list_elem_of_singleton. intros [?| ->]; [by apply Hnn|congruence].
    + destruct (decide (id = v)) as [->|Hne].
      * rewrite lookup_insert_eq, decide_True by set_solver. done.
      * rewrite lookup_insert_ne, Hadj by done. apply decide_ext. set_solver.
    + destruct (decide (id = v)) as [->|Hne].
      * rewrite lookup_insert_eq, decide_True by set_solver. done.
      * rewrite lookup_insert_ne, Hdeg by done. apply decide_ext. set_solver.
Qed.

Definition edge_body (id : NodeID) (dep : NodeID) : M degrees plan_error unit :=
  λ '(adj, inDegree),
    match nodes !! dep with
    | None => (Err (DanglingDependency id dep), (adj, inDegree))
    | Some _ =>
        (Ok tt, (<[dep := default [] (adj !! dep) ++ [id]]> adj,
                 <[id := (zlookup inDegree id + 1)%Z]> inDegree))
    end.

Definition adj_of (st : degrees) (u : NodeID) : list NodeID := default [] (st.1 !! u).

(** The inner loop over the dependencies [ds] of [id]. *)
Lemma edges_inner_spec id ds st r st' :
  is_Some (st.2 !! id) →
  foreach ds (edge_body id) st = (r, st') →
  (r = Ok tt ∧ (∀ d, d ∈ ds → is_Some (nodes !! d)) ∧
     (∀ u v, occ v (adj_of st' u) = occ v (adj_of st u) + (if decide (v = id) then occ u ds else 0)) ∧
     (∀ v, st'.2 !! v = (λ z, (z + if decide (v = id) then Z.of_nat (length ds) else 0)%Z) <$> st.2 !! v)) ∨
  (∃ d, r = Err (DanglingDependency id d) ∧ d ∈ ds ∧ nodes !! d = None).
Proof.
  intros [z0 Hid] Hrun.
  eapply (foreach_cases (λ ds st',
    (∀ d, d ∈ ds → is_Some (nodes !! d)) ∧
    (∀ u v, occ v (adj_of st' u) = occ v (adj_of st u) + (if decide (v = id) then occ u ds else 0)) ∧
    (∀ v, st'.2 !! v = (λ z, (z + if decide (v = id) then Z.of_nat (length ds) else 0)%Z) <$> st.2 !! v)))
    in Hrun.
  - destruct Hrun as [(-> & ? & ? & ?)|(k & d & [adj deg] & Hpre & _ & Hx & Hne)]; [by left|right].
    apply elem_of_prefix_snoc in Hpre. unfold edge_body in Hx.
    destruct (nodes !! d) eqn:Hd; simplify_eq. by exists d.
  - split_and!; [set_solver|..].
    + intros u v. simpl. case_decide; lia.
    + intros v. destruct (st.2 !! v); simpl; [|done]. f_equal. case_decide; lia.
  - intros k d [adj deg] [adj' deg'] _ (Hok & Hadj & Hdeg) Hx. unfold edge_body in Hx.
    destruct (nodes !! d) as [nd|] eqn:Hd; simplify_eq/=. split_and!.
    + intros d'. rewrite elem_of_app, list_elem_of_singleton. intros [?| ->]; [by apply Hok|by rewrite Hd].
    + intros u v. specialize (Hadj u v). unfold adj_of in *. simpl in *.
      rewrite occ_app. simpl. destruct (decide (u = d)) as [->|Hne].
      * rewrite lookup_insert_eq. simpl. rewrite occ_app. simpl.
        repeat case_decide; lia.
      * rewrite lookup_insert_ne by done. repeat case_decide; lia.
    + intros v. rewrite length_app. simpl. destruct (decide (id = v)) as [->|Hne].
      * rewrite lookup_insert_eq, Hid. unfold zlookup. rewrite Hdeg, Hid. simpl.
        rewrite !decide_True by done. f_equal. lia.
      * rewrite lookup_insert_ne, Hdeg by done. rewrite !decide_False by done. done.
Qed.

Lemma validate_edges_spec st r st' :
  nodes_nonnil nodes →
  (∀ v, st.1 !! v = (λ _, []) <$> nodes !! v) →
  (∀ v, st.2 !! v = (λ _, 0%Z) <$> nodes !! v) →
  validate_edges nodes st = (r, st') →
  (r = Ok tt ∧ nodes_closed nodes ∧
     (∀ u v, occ v (adj_of st' u) = occ u (node_deps nodes v)) ∧
     (∀ v, st'.2 !! v = (λ _, Z.of_nat (length (node_deps nodes v))) <$> nodes !! v)) ∨
  (∃ id d, r = Err (DanglingDependency id d) ∧ d ∈ node_deps nodes id ∧ nodes !! d = None).
Proof.
  intros Hnn Hadj0 Hdeg0 Hrun.
  set (part (k : list NodeID) (v : NodeID) := if decide (v ∈ k) then node_deps nodes v else []).
  eapply (foreach_cases (λ (k : list (NodeID * option ExecutionNode)) st',
    (∀ v d, v ∈ k.*1 → d ∈ node_deps nodes v → is_Some (nodes !! d)) ∧
    (∀ u v, occ v (adj_of st' u) = occ u (part k.*1 v)) ∧
    (∀ v, st'.2 !! v = (λ _, Z.of_nat (length (part k.*1 v))) <$> nodes !! v))) in Hrun.
  - destruct Hrun as [(-> & Hok & Hadj & Hdeg)|(k & [id n] & t & Hpre & (_ & _ & Hdeg) & Hx & Hne)].
    + left. split; [done|].
      assert (∀ v, part (range 31 nodes).*1 v = node_deps nodes v) as Hpart.
      { intros v. unfold part. case_decide as Hv; [done|]. rewrite elem_of_range_keys in Hv.
        apply eq_None_not_Some in Hv. unfold node_deps. by rewrite Hv. }
      split_and!.
      * intros v d Hd. apply (Hok v); [|done]. apply elem_of_range_keys.
        unfold node_deps in Hd. destruct (nodes !! v); [done|by apply elem_of_nil in Hd].
      * intros u v. by rewrite Hadj, Hpart.
      * intros v. by rewrite Hdeg, Hpart.
    + right. apply elem_of_prefix_snoc, elem_of_range in Hpre.
      destruct n as [n|]; [|by destruct (Hnn id)].
      apply edges_inner_spec in Hx as [(-> & _)|(d & -> & Hd & Hnone)]; [done| |].
      * exists id, d. unfold node_deps. by rewrite Hpre.
      * rewrite Hdeg, Hpre. done.
  - split_and!; [set_solver|..].
    + intros u v. unfold adj_of. rewrite Hadj0. unfold part. simpl.
      destruct (nodes !! u); done.
    + intros v. rewrite Hdeg0. done.
  - intros k [id n] t t' Hpre (Hok & Hadj & Hdeg) Hx.
    assert (id ∉ k.*1) as Hfresh by (by eapply (prefix_key_fresh k (range 31 nodes) (id, n)); [apply NoDup_range_keys|]).
    apply elem_of_prefix_snoc, elem_of_range in Hpre.
    destruct n as [n|]; [|by destruct (Hnn id)].
    assert (node_deps nodes id = node_Dependencies n) as Hdeps by (unfold node_deps; by rewrite Hpre).
    apply edges_inner_spec in Hx as [(_ & Hok' & Hadj' & Hdeg')|(d & ? & _)]; [|done|].
    2:{ rewrite Hdeg, Hpre. done. }
    rewrite fmap_app. simpl.
    assert (∀ v, part (k.*1 ++ [id]) v = if decide (v = id) then node_Dependencies n else part k.*1 v) as Hpart.
    { intros v. unfold part. destruct (decide (v = id)) as [->|Hne].
      - rewrite decide_True by set_solver. done.
      - apply decide_ext. set_solver. }
    assert (part k.*1 id = []) as Hnil by (unfold part; by rewrite decide_False).
    split_and!.
    + intros v d. rewrite elem_of_app, list_elem_of_singleton.
      intros [?| ->]; [by apply Hok|]. rewrite Hdeps. apply Hok'.
    + intros u v. rewrite Hadj', Hadj, Hpart. case_decide; [subst; by rewrite Hnil|lia].
    + intros v. rewrite Hdeg', Hdeg, Hpart. destruct (nodes !! v); [|done]. simpl. f_equal.
      case_decide; [subst; rewrite Hnil; simpl; lia|lia].
Qed.
End validate.

Lemma validate_entries_spec nodes ids r s :
  nodes_nonnil nodes →
  validate_entries nodes ids tt = (r, s) →
  (r = Ok tt ∧ ∀ id, id ∈ ids → is_Some (nodes !! id) ∧ node_deps nodes id = []) ∨
  (∃ id, id ∈ ids ∧ r = Err (EntryNodeMissing id) ∧ nodes !! id = None) ∨
  (∃ id, id ∈ ids ∧ r = Err (EntryNodeHasDependencies id (node_deps nodes id)) ∧ node_deps nodes id ≠ []).
Proof.
  intros Hnn Hrun. unfold validate_entries in Hrun.
  eapply (foreach_cases (λ k _, ∀ id, id ∈ k → is_Some (nodes !! id) ∧ node_deps nodes id = [])) in Hrun.
  - destruct Hrun as [[-> Hok]|(k & id & t & Hpre & _ & Hx & Hne)].
    + left. split; [done|]. intros id Hid. apply Hok. by rewrite elem_of_UniqueNodeIDs.
    + right. apply elem_of_prefix_snoc in Hpre. rewrite elem_of_UniqueNodeIDs in Hpre.
      destruct (nodes !! id) as [[n|]|] eqn:Hid; [|by destruct (Hnn id)|left; exists id; naive_solver].
      assert (node_deps nodes id = node_Dependencies n) as Heq by (unfold node_deps; by rewrite Hid).
      rewrite <-Heq in Hx. case_decide as Hlen; simplify_eq. right. exists id. split_and!; [done..|].
      intros Hnil. rewrite Hnil in Hlen. simpl in Hlen. lia.
  - set_solver.
  - intros k id t t' _ Hok Hx id' [?|Hid']%elem_of_app; [by apply Hok|].
    apply list_elem_of_singleton in Hid' as ->.
    destruct (nodes !! id) as [[n|]|] eqn:Hid; simplify_eq. case_decide as Hlen; simplify_eq.
    split; [done|]. unfold node_deps. rewrite Hid. simpl. destruct (node_Dependencies n); [done|].
    simpl in Hlen. lia.
Qed.

Lemma validate_exits_spec nodes ids r s :
  validate_exits nodes ids tt = (r, s) →
  (r = Ok tt ∧ ∀ id, id ∈ ids → is_Some (nodes !! id)) ∨
  (∃ id, id ∈ ids ∧ r = Err (ExitNodeMissing id) ∧ nodes !! id = None).
Proof.
  intros Hrun. unfold validate_exits in Hrun.
  eapply (foreach_cases (λ k _, ∀ id, id ∈ k → is_Some (nodes !! id))) in Hrun.
  - destruct Hrun as [[-> Hok]|(k & id & t & Hpre & _ & Hx & Hne)].
    + left. split; [done|]. intros id Hid. apply Hok. by rewrite elem_of_UniqueNodeIDs.
    + right. apply elem_of_prefix_snoc in Hpre. rewrite elem_of_UniqueNodeIDs in Hpre.
      destruct (nodes !! id) eqn:Hid; simplify_eq. by exists id.
  - set_solver.
  - intros k id t t' _ Hok Hx id' [?|Hid']%elem_of_app; [by apply Hok|].
    apply list_elem_of_singleton in Hid' as ->. by destruct (nodes !! id).
Qed.

Lemma node_deps_Some nodes v d : d ∈ node_deps nodes v → is_Some (nodes !! v).
Proof. unfold node_deps. destruct (nodes !! v); [done|]. by intros ?%elem_of_nil. Qed.

(** The queue loop, run on the tables the first two loops build, decides acyclicity. *)
Lemma validate_kahn `{GoRange} nodes adj inDegree :
  nodes_closed nodes →
  (∀ u v, occ v (adj_of (adj, inDegree) u) = occ u (node_deps nodes v)) →
  (∀ v, inDegree !! v = (λ _, Z.of_nat (length (node_deps nodes v))) <$> nodes !! v) →
  ∃ count,
    kahn_loop (size nodes) adj (filter (λ '(_, degree), degree = 0%Z) (range 32 inDegree)).*1 inDegree 0
      = Some count ∧ (count = size nodes ↔ acyclic (node_deps nodes)).
Proof.
  intros Hclosed Hadj Hdeg. set (N := (map_to_list nodes).*1).
  assert (∀ v, v ∈ N ↔ is_Some (nodes !! v)) as HN by (intros; apply elem_of_map_keys).
  assert (length N = size nodes) as <- by (unfold N; by rewrite length_fmap, length_map_to_list).
  apply kahn_loop_correct; try done.
  - apply NoDup_fst_map_to_list.
  - intros v d Hd. rewrite !HN. split; [by eapply node_deps_Some|by eapply Hclosed].
  - apply NoDup_fst_filter, NoDup_range_keys.
  - intros v. rewrite HN, list_elem_of_fmap. split.
    + intros ([v' z] & -> & [Hz Hin]%list_elem_of_filter). apply elem_of_range in Hin.
      rewrite Hdeg in Hin. simpl in *. destruct (nodes !! v') eqn:Hv'; simplify_eq/=.
      split; [done|]. apply length_zero_iff_nil. lia.
    + intros [[n Hn] Hnil]. exists (v, 0%Z). split; [done|]. apply list_elem_of_filter.
      split; [done|]. apply elem_of_range. by rewrite Hdeg, Hn, Hnil.
  - intros v [n Hn]%HN. by rewrite Hdeg, Hn.
Qed.

(** Close the case of a run that stopped with an error. *)
Ltac report_defect := right; eexists; split; [reflexivity|simpl; naive_solver].

(** Every run of [Validate] succeeds on a well-formed graph, or reports a defect
    the graph has. *)
Lemma Validate_cases `{GoRange} g :
  (ExecutionGraph_Validate g = Ok tt ∧ well_formed g) ∨
  (∃ e, ExecutionGraph_Validate g = Err e ∧ validate_error_meaning g e).
Proof.
  unfold ExecutionGraph_Validate, validate_error_meaning.
  destruct (g_Nodes g) as [nodes|] eqn:Hg; [|right; exists NilNodesMap; done]. simpl.
  unfold mbind, M_bind.
  destruct (validate_init nodes (∅, ∅)) as [r st] eqn:Hinit.
  apply validate_init_spec in Hinit as [(-> & Hnn & Hadj0 & Hdeg0)|(id & -> & Hid)]; [|report_defect].
  destruct (validate_edges nodes st) as [r st'] eqn:Hedges.
  apply validate_edges_spec in Hedges as [(-> & Hclosed & Hadj & Hdeg)|(id & d & -> & Hd & Hnone)];
    [|report_defect|done..].
  destruct st' as [adj inDegree].
  destruct (validate_kahn nodes adj inDegree) as (count & -> & Hcount); [done..|].
  case_decide as Hac; [|report_defect].
  apply Hcount in Hac.
  destruct (validate_entries nodes (g_EntryNodes g) tt) as [r []] eqn:Hentry.
  apply validate_entries_spec in Hentry as [(-> & Hentry)|[(id & ? & -> & ?)|(id & ? & -> & ?)]];
    [|report_defect..|done].
  destruct (validate_exits nodes (g_ExitNodes g) tt) as [r []] eqn:Hexit.
  apply validate_exits_spec in Hexit as [(-> & Hexit)|(id & ? & -> & ?)]; [|report_defect].
  left. split; [done|]. exists nodes. by split_and!.
Qed.

Lemma well_formed_no_error g e : well_formed g → ¬ validate_error_meaning g e.
Proof.
  intros (nodes & Hg & Hnn & Hclosed & Hac & Hentry & Hexit).
  unfold validate_error_meaning. rewrite Hg. simpl. destruct e; try naive_solver.
  - intros Hnil. by eapply Hnn.
  - intros [Hd Hnone]. apply Hclosed in Hd. rewrite Hnone in Hd. by destruct Hd.
  - intros [Hin Hnone]. apply Hentry in Hin as [Hin _]. rewrite Hnone in Hin. by destruct Hin.
  - intros [Hin Hnone]. apply Hexit in Hin. rewrite Hnone in Hin. by destruct Hin.
Qed.

(** C32: [Validate] accepts exactly the graphs that may be executed: a non-nil
    map without nil nodes, every dependency a node of the graph, no dependency
    cycle, entry nodes that exist and depend on nothing, exit nodes that exist. *)
Theorem Validate_iff_well_formed `{GoRange} (g : ExecutionGraph) :
  ExecutionGraph_Validate g = Ok tt ↔ well_formed g.
Proof.
  destruct (Validate_cases g) as [[-> Hwf]|(e & -> & He)]; [done|].
  split; [done|]. intros Hwf. by destruct (well_formed_no_error g e Hwf).
Qed.

(** [Validate] never panics and never runs out of fuel, and every error it
    returns describes a defect the graph has. *)
Theorem Validate_errors_sound `{GoRange} (g : ExecutionGraph) :
  ExecutionGraph_Validate g ≠ Panic ∧
  ∀ e, ExecutionGraph_Validate g = Err e → validate_error_meaning g e.
Proof. destruct (Validate_cases g) as [[-> Hwf]|(e & -> & He)]; naive_solver. Qed.

(** ** CalculateEntryAndExitNodes *)

(** [m] marks exactly the IDs satisfying [f]. *)
Definition marks (m : flags) (f : NodeID → bool) : Prop := ∀ v, default false (m !! v) = f v.

Definition depended_on (nodes : node_map) (ids : list NodeID) (v : NodeID) : bool :=
  bool_decide (is_Some (nodes !! v)) && existsb (λ w, bool_decide (v ∈ node_deps nodes w)) ids.

Lemma fold_nodes_ind {A} (P : list NodeID → A → Prop) l (f : NodeID → ExecutionNode → A → A) acc :
  P [] acc →
  (∀ id, (id, None) ∉ l) →
  (∀ k id node acc, (id, Some node) ∈ l → P k acc → P (k ++ [id]) (f id node acc)) →
  ∃ acc', fold_nodes l f acc = Some acc' ∧ P l.*1 acc'.
Proof.
  intros Hnil Hnn Hstep.
  assert (∀ l' k acc, l' ⊆ l → P k acc → ∃ acc', fold_nodes l' f acc = Some acc' ∧ P (k ++ l'.*1) acc')
    as Hgen.
  { induction l' as [|[id n] l' IH]; intros k acc' Hsub HP; simpl.
    - exists acc'. by rewrite app_nil_r.
    - destruct n as [node|]; [|destruct (Hnn id); apply Hsub; left].
      destruct (IH (k ++ [id]) (f id node acc')) as (acc'' & Hrun & HP').
      + intros x Hx. apply Hsub. by right.
      + apply Hstep; [|done]. apply Hsub. left.
      + exists acc''. split; [done|]. by rewrite <-app_assoc in HP'. }
  destruct (Hgen l [] acc) as (acc' & Hrun & HP); [done..|]. eauto.
Qed.

Lemma range_nonnil `{GoRange} site nodes id : nodes_nonnil nodes → (id, None) ∉ range site nodes.
Proof. intros Hnn Hin%elem_of_range. by eapply Hnn. Qed.

Lemma node_deps_range `{GoRange} site (nodes : node_map) id node :
  (id, Some node) ∈ range site nodes → node_deps nodes id = node_Dependencies node.
Proof. intros Hin%elem_of_range. unfold node_deps. by rewrite Hin. Qed.

Lemma marks_insert m f id b :
  marks m f → marks (<[id := b]> m) (λ v, if decide (v = id) then b else f v).
Proof.
  intros Hm v. destruct (decide (v = id)) as [->|Hne].
  - by rewrite lookup_insert_eq.
  - by rewrite lookup_insert_ne.
Qed.

Lemma marks_ext m f h : marks m f → (∀ v, f v = h v) → marks m h.
Proof. intros Hm Heq v. by rewrite Hm, Heq. Qed.

Lemma mark_existing_marks nodes deps m f :
  marks m f →
  marks (mark_existing nodes deps m)
    (λ v, f v || bool_decide (is_Some (nodes !! v)) && bool_decide (v ∈ deps)).
Proof.
  unfold mark_existing. revert m f. induction deps as [|d deps IH]; intros m f Hm; simpl.
  - eapply marks_ext; [done|]. intros v. simpl.
    by rewrite andb_false_r, orb_false_r.
  - destruct (nodes !! d) eqn:Hd.
    + eapply marks_ext; [apply IH, marks_insert, Hm|]. intros v. simpl.
      case_decide as Hv.
      * subst. rewrite Hd. rewrite (bool_decide_true (is_Some _)) by eauto.
        rewrite (bool_decide_true (d ∈ d :: deps)) by set_solver. by rewrite orb_true_r.
      * f_equal. f_equal. apply bool_decide_ext. set_solver.
    + eapply marks_ext; [apply IH, Hm|]. intros v. simpl.
      destruct (decide (v = d)) as [->|Hne].
      * by rewrite Hd, (bool_decide_false (is_Some None)) by (by intros []).
      * f_equal. f_equal. apply bool_decide_ext. set_solver.
Qed.

Lemma depended_on_snoc nodes k w v :
  depended_on nodes (k ++ [w]) v =
  depended_on nodes k v || bool_decide (is_Some (nodes !! v)) && bool_decide (v ∈ node_deps nodes w).
Proof. unfold depended_on. rewrite existsb_app. simpl. rewrite orb_false_r. by destruct (bool_decide _). Qed.

Lemma any_existing_nil nodes : any_existing nodes [] = false.
Proof. done. Qed.

Section calculate.
Context `{GoRange} (nodes : node_map).
Hypothesis nonnil : nodes_nonnil nodes.

Lemma in_ids v : v ∈ (map_to_list nodes).*1 ↔ is_Some (nodes !! v).
Proof. apply elem_of_map_keys. Qed.

Lemma no_dependents_depended_on site v :
  is_Some (nodes !! v) → negb (depended_on nodes (range site nodes).*1 v) = no_dependents nodes v.
Proof.
  intros Hv. unfold depended_on, no_dependents. rewrite bool_decide_true by done. simpl.
  apply eq_true_iff_eq. rewrite negb_true_iff, forallb_forall, <-not_true_iff_false, existsb_exists.
  split.
  - intros Hno w Hw. apply bool_decide_eq_true. intros Hin. apply Hno. exists w.
    split; [|by apply bool_decide_eq_true]. apply list_elem_of_In, elem_of_range_keys.
    by eapply node_deps_Some.
  - intros Hall (w & Hw & Hin%bool_decide_eq_true). apply node_deps_Some in Hin as Hws.
    apply in_ids, list_elem_of_In, Hall, bool_decide_eq_true in Hws. done.
Qed.

(** The IDs a loop selects out of all the IDs, once sorted. *)
Lemma selected_ids (l : list NodeID) (m : flags) (f h : NodeID → bool) :
  NoDup l → (∀ v, v ∈ l ↔ is_Some (nodes !! v)) →
  marks m f → (∀ v, is_Some (nodes !! v) → negb (f v) = h v) →
  sort_strings (UniqueNodeIDs (filter (unset m) l)) = sorted_ids nodes h.
Proof.
  intros Hnd Hin Hm Hfh. unfold sorted_ids. apply sorted_ids_unique.
  - apply NoDup_UniqueNodeIDs.
  - apply NoDup_filter, NoDup_fst_map_to_list.
  - intros v. rewrite elem_of_UniqueNodeIDs, !list_elem_of_filter, in_ids, Hin.
    unfold unset. rewrite Hm. split; intros [Hf Hv]; (split; [|done]).
    + by rewrite <-Hfh.
    + by rewrite Hfh.
Qed.

Lemma graph_scans :
  ∃ all inc out inc' out',
    fold_nodes (range 20 nodes) graph_scan1 (∅, ∅, ∅) = Some (all, inc, out) ∧
    fold_nodes (range 21 nodes) (graph_scan2 nodes) (inc, out) = Some (inc', out') ∧
    (∀ v, is_Some (all !! v) ↔ is_Some (nodes !! v)) ∧
    (∀ v, is_Some (nodes !! v) → negb (default false (inc' !! v)) = no_deps nodes v) ∧
    marks out' (depended_on nodes (range 21 nodes).*1).
Proof.
  edestruct (fold_nodes_ind (λ k '(all, inc, out),
    (∀ v, is_Some ((all : flags) !! v) ↔ v ∈ k) ∧
    marks inc (λ v, bool_decide (v ∈ k) && negb (no_deps nodes v)) ∧
    marks out (λ _, false)) (range 20 nodes) graph_scan1 (∅, ∅, ∅))
    as ([[all inc] out] & Hrun1 & Hall & Hinc & Hout).
  - split_and!; intros v; rewrite lookup_empty; [|done..]. split; [by intros []|set_solver].
  - intros. by apply range_nonnil.
  - intros k id node [[all inc] out] Hin (Hall & Hinc & Hout). simpl. split_and!.
    + intros v. rewrite lookup_insert_is_Some', Hall, elem_of_app, list_elem_of_singleton. naive_solver.
    + eapply marks_ext; [apply marks_insert, Hinc|]. intros v. simpl.
      case_decide as Hv; [subst|f_equal; apply bool_decide_ext; set_solver].
      unfold no_deps. rewrite (node_deps_range 20 _ _ _ Hin).
      rewrite (bool_decide_true (id ∈ _)) by set_solver. simpl.
      by destruct (node_Dependencies node).
    + eapply marks_ext; [apply marks_insert, Hout|]. intros v. simpl. by case_decide.
  - edestruct (fold_nodes_ind (λ k '(inc', out'),
      marks inc' (λ v, bool_decide (v ∈ (range 20 nodes).*1) && negb (no_deps nodes v)) ∧
      marks out' (depended_on nodes k)) (range 21 nodes) (graph_scan2 nodes) (inc, out))
      as ([inc' out'] & Hrun2 & Hinc' & Hout').
    + split; [done|]. eapply marks_ext; [done|]. intros v. unfold depended_on. simpl.
      by rewrite andb_false_r.
    + intros. by apply range_nonnil.
    + intros k id node [inc' out'] Hin [Hinc' Hout']. simpl. split.
      * destruct (any_existing nodes (node_Dependencies node)) eqn:Hany; [|done].
        eapply marks_ext; [apply marks_insert, Hinc'|]. intros v. simpl.
        case_decide as Hv; [subst|done]. unfold no_deps. rewrite (node_deps_range 21 _ _ _ Hin).
        apply elem_of_range in Hin. rewrite (bool_decide_true (id ∈ _)) by (apply elem_of_range_keys; eauto).
        destruct (node_Dependencies node); [done|]. by rewrite bool_decide_false.
      * eapply marks_ext; [apply mark_existing_marks, Hout'|]. intros v.
        by rewrite depended_on_snoc, (node_deps_range 21 _ _ _ Hin).
    + exists all, inc, out, inc', out'. split_and!; [done..| | |done].
      * intros v. by rewrite Hall, elem_of_range_keys.
      * intros v Hv. rewrite Hinc'. rewrite bool_decide_true by (by apply elem_of_range_keys).
        by rewrite andb_true_l, negb_involutive.
Qed.
End calculate.

Lemma calculate_graph `{GoRange} (g : ExecutionGraph) :
  nodes_nonnil (entries (g_Nodes g)) →
  ExecutionGraph_CalculateEntryAndExitNodes g =
    (Ok tt, MkGraph (g_Name g) (g_Nodes g)
              (sorted_ids (entries (g_Nodes g)) (no_deps (entries (g_Nodes g))))
              (sorted_ids (entries (g_Nodes g)) (no_dependents (entries (g_Nodes g))))).
Proof.
  intros Hnn. unfold ExecutionGraph_CalculateEntryAndExitNodes.
  set (nodes := entries (g_Nodes g)) in *. case_decide as Hsize.
  { apply map_size_empty_inv in Hsize. by rewrite Hsize. }
  destruct (graph_scans nodes Hnn) as (all & inc & out & inc' & out' & -> & -> & Hall & Hinc & Hout).
  assert (∀ v, v ∈ (range 22 all).*1 ↔ is_Some (nodes !! v)) as Hin
    by (intros v; by rewrite elem_of_range_keys, Hall).
  do 3 f_equal.
  - eapply selected_ids; [apply NoDup_range_keys|done|by intros v|]. intros. by apply Hinc.
  - eapply selected_ids; [apply NoDup_range_keys|done|exact Hout|].
    intros. by apply no_dependents_depended_on.
Qed.

(** On a graph without nil nodes [CalculateEntryAndExitNodes] sets the entry
    nodes to the sorted IDs of the nodes with no dependency and the exit nodes to
    the sorted IDs no node depends on, whatever the iteration order; the nodes
    stay as they are. *)
Theorem Graph_CalculateEntryAndExitNodes_spec `{GoRange} (g : ExecutionGraph) :
  nodes_nonnil (entries (g_Nodes g)) →
  ExecutionGraph_CalculateEntryAndExitNodes g =
    (Ok tt, MkGraph (g_Name g) (g_Nodes g)
              (sorted_ids (entries (g_Nodes g)) (no_deps (entries (g_Nodes g))))
              (sorted_ids (entries (g_Nodes g)) (no_dependents (entries (g_Nodes g))))).
Proof. apply calculate_graph. Qed.
