(* ===== verification/FragmentSpec.v ===== *)
(** What the fragment side of [src/internal/plan/] promises: the entry and exit
    nodes of a fragment ([fragment.go]), merging one node map into another
    ([MergeFragment] of [fragment.go] and [graph.go]) and linking two groups of
    nodes ([LinkFragments] of [graph.go]). *)
From S2P Require Import Prelude.
From S2P Require Import Values.
From S2P Require Import Plan.
From S2P Require Import Kahn.
From S2P Require Import GraphSpec.

(** ** Specifications *)

(** The dependency list after [LinkFragments] added [froms] to it one by one. *)
Definition add_deps (froms deps : list NodeID) : list NodeID :=
  foldl (λ deps from, if decide (from ∈ deps) then deps else deps ++ [from]) deps froms.

(** A node map whose nodes listed in [tos] got [froms] as dependencies. *)
Definition link_nodes (froms tos : list NodeID) (nodes : node_map) : node_map :=
  map_imap (λ id n, Some (if decide (id ∈ tos) then
    option_map (λ n, set_Dependencies (add_deps froms (node_Dependencies n)) n) n else n)) nodes.

(** What a [Graph] promises to [LinkFragments]: an abstract node map that
    [HasNode] and [GetNode] read and that [AddDependency] updates. *)
Class GraphLaws (G : Type) `{Graph G} := {
  graph_nodes : G → node_map;
  HasNode_spec : ∀ id g, HasNode id g = bool_decide (is_Some (graph_nodes g !! id));
  GetNode_spec : ∀ id g, GetNode id g = mjoin (graph_nodes g !! id);
  AddDependency_self : ∀ id g, AddDependency id id g = (Err (SelfDependency id), g);
  AddDependency_ok : ∀ from to g n,
    from ≠ to → is_Some (graph_nodes g !! from) → graph_nodes g !! to = Some (Some n) →
    ∃ g', AddDependency from to g = (Ok tt, g') ∧
      graph_nodes g' = <[to := Some (set_Dependencies (add_deps [from] (node_Dependencies n)) n)]> (graph_nodes g);
}.

(** ** Entry and exit nodes of a fragment *)

Lemma clear_flags_marks `{GoRange} (m : flags) : marks (clear_flags (range 42 m) m) (λ _, false).
Proof.
  unfold clear_flags.
  assert (∀ (l : list (NodeID * bool)) (m : flags),
    (∀ v, v ∉ l.*1 → default false (m !! v) = false) →
    marks (foldl (λ m '(id, _), <[id := false]> m) m l) (λ _, false)) as Hgen.
  { induction l as [|[id b] l IH]; intros m' Hm v; simpl; [apply Hm; set_solver|].
    apply IH. intros w Hw. destruct (decide (w = id)) as [->|Hne].
    - by rewrite lookup_insert_eq.
    - rewrite lookup_insert_ne by done. apply Hm. set_solver. }
  apply Hgen. intros v. rewrite elem_of_range_keys. intros Hv%eq_None_not_Some. by rewrite Hv.
Qed.

Section calculate.
Context `{GoRange} (nodes : node_map).
Hypothesis nonnil : nodes_nonnil nodes.

Lemma fragment_scan1_spec l :
  ∃ all inc out, fragment_scan1 l = (all, inc, out) ∧
    (∀ v, is_Some (all !! v) ↔ v ∈ l.*1) ∧ marks out (λ _, false).
Proof.
  unfold fragment_scan1.
  assert (∀ (k : list NodeID) (all inc out : flags),
    (∀ v, is_Some (all !! v) ↔ v ∈ k) → marks out (λ _, false) →
    ∃ all' inc' out', foldl (λ '(all, hasIncoming, hasOutgoing) '(id, _),
      (<[id := true]> all, <[id := false]> hasIncoming, <[id := false]> hasOutgoing)) (all, inc, out) l
        = (all', inc', out') ∧
      (∀ v, is_Some (all' !! v) ↔ v ∈ k ++ l.*1) ∧ marks out' (λ _, false)) as Hgen.
  { induction l as [|[id n] l IH]; intros k all inc out Hall Hout; simpl.
    - exists all, inc, out. split; [done|]. by rewrite app_nil_r.
    - destruct (IH (k ++ [id]) (<[id := true]> all) (<[id := false]> inc) (<[id := false]> out))
        as (all' & inc' & out' & -> & Hall' & Hout').
      + intros v. rewrite lookup_insert_is_Some', Hall, elem_of_app, list_elem_of_singleton. naive_solver.
      + eapply marks_ext; [by apply marks_insert|]. intros v. simpl. by case_decide.
      + exists all', inc', out'. split_and!; [done| |done]. intros v. by rewrite Hall', <-app_assoc. }
  apply (Hgen [] ∅ ∅ ∅).
  - intros v. rewrite lookup_empty. split; [by intros [? ?]|by intros ?%elem_of_nil].
  - intros v. by rewrite lookup_empty.
Qed.

(** The scan that marks the nodes other nodes depend on. *)
Lemma fragment_scan3_spec site m :
  marks m (λ _, false) →
  ∃ m', fold_nodes (range site nodes) (fragment_scan3 nodes) m = Some m' ∧
    marks m' (depended_on nodes (range site nodes).*1).
Proof.
  intros Hm. apply (fold_nodes_ind (λ k m, marks m (depended_on nodes k))).
  - eapply marks_ext; [done|]. intros v. unfold depended_on. simpl. by rewrite andb_false_r.
  - intros. by apply range_nonnil.
  - intros k id node acc Hin Hacc. eapply marks_ext; [by apply mark_existing_marks|].
    intros v. by rewrite depended_on_snoc, (node_deps_range site _ _ _ Hin).
Qed.

Lemma fragment_scan2_runs inc out :
  ∃ st, fold_nodes (range 41 nodes) (fragment_scan2 nodes) (inc, out) = Some st.
Proof.
  edestruct (fold_nodes_ind (λ _ (_ : flags * flags), True) (range 41 nodes)
    (fragment_scan2 nodes) (inc, out)) as (st & -> & _); [done| |done|by eauto].
  intros. by apply range_nonnil.
Qed.

Lemma fragment_is_entry_spec v :
  is_Some (nodes !! v) → fragment_is_entry nodes v = Some (no_inner_deps nodes v).
Proof.
  intros [[n|] Hv]; [|by destruct (nonnil v)].
  unfold fragment_is_entry, no_inner_deps, node_deps. by rewrite Hv.
Qed.

Lemma fragment_collect_spec out ids entry exit :
  (∀ v, v ∈ ids → is_Some (nodes !! v)) →
  fragment_collect nodes out ids entry exit =
    Some (entry ++ filter (no_inner_deps nodes) ids, exit ++ filter (unset out) ids).
Proof.
  revert entry exit. induction ids as [|id ids IH]; intros entry exit Hin; simpl.
  { by rewrite !filter_nil, !app_nil_r. }
  rewrite fragment_is_entry_spec by (apply Hin; left). rewrite IH by (intros; apply Hin; by right).
  rewrite !filter_cons. f_equal. f_equal.
  - destruct (no_inner_deps nodes id); simpl; by rewrite <-?app_assoc.
  - destruct (unset out id); simpl; by rewrite <-?app_assoc.
Qed.

Lemma unique_sorted_ids (l : list NodeID) (f h : NodeID → bool) :
  NoDup l → (∀ v, v ∈ l ↔ is_Some (nodes !! v)) →
  (∀ v, is_Some (nodes !! v) → f v = h v) →
  UniqueNodeIDs (filter f l) = sorted_ids nodes h.
Proof.
  intros Hnd Hin Hfh. rewrite <-(sort_strings_id (UniqueNodeIDs _)) by auto with kubexm.
  unfold sorted_ids. apply sorted_ids_unique.
  - apply NoDup_UniqueNodeIDs.
  - apply NoDup_filter, NoDup_fst_map_to_list.
  - intros v. rewrite elem_of_UniqueNodeIDs, !list_elem_of_filter, in_ids, Hin.
    split; intros [Hf Hv]; (split; [|done]); [by rewrite <-Hfh|by rewrite Hfh].
Qed.
End calculate.

(** The entry and exit nodes of a fragment over [nodes], without the scans. *)
Definition fragment_entries (nodes : node_map) : list NodeID := sorted_ids nodes (no_inner_deps nodes).
Definition fragment_exits (nodes : node_map) : list NodeID := sorted_ids nodes (no_dependents nodes).

Lemma calculate_fragment `{GoRange} (ef : ExecutionFragment) :
  nodes_nonnil (entries (ef_Nodes ef)) →
  ExecutionFragment_CalculateEntryAndExitNodes ef =
    (Ok tt, MkFragment (ef_Nodes ef)
              (fragment_entries (entries (ef_Nodes ef))) (fragment_exits (entries (ef_Nodes ef)))
              (ef_Name ef)).
Proof.
  intros Hnn. unfold ExecutionFragment_CalculateEntryAndExitNodes, fragment_entries, fragment_exits.
  set (nodes := entries (ef_Nodes ef)) in *. case_decide as Hsize.
  { apply map_size_empty_inv in Hsize. by rewrite Hsize. }
  destruct (fragment_scan1_spec (range 40 nodes)) as (all & inc & out & -> & Hall & Hout).
  destruct (fragment_scan2_runs nodes Hnn inc out) as ([inc' out'] & ->).
  destruct (fragment_scan3_spec nodes Hnn 43 (clear_flags (range 42 out') out')) as (out'' & -> & Hout'').
  { apply clear_flags_marks. }
  assert (∀ v, v ∈ (range 44 all).*1 ↔ is_Some (nodes !! v)) as Hin
    by (intros v; by rewrite elem_of_range_keys, Hall, elem_of_range_keys).
  rewrite fragment_collect_spec by (done || naive_solver). simpl. do 3 f_equal.
  - apply unique_sorted_ids; [apply NoDup_range_keys|done|done].
  - apply unique_sorted_ids; [apply NoDup_range_keys|done|].
    intros v Hv. unfold unset. rewrite Hout''. by apply no_dependents_depended_on.
Qed.

(** A nil node makes the scan panic. *)
Lemma fold_nodes_nonnil {A} l (f : NodeID → ExecutionNode → A → A) acc acc' id :
  fold_nodes l f acc = Some acc' → (id, None) ∉ l.
Proof.
  revert acc. induction l as [|[v [n|]] l IH]; intros acc; simpl; [by intros _ ?%elem_of_nil| |done].
  intros Hrun [?|Hin]%elem_of_cons; [done|by eapply IH].
Qed.

Lemma calculate_fragment_nonnil `{GoRange} (ef ef' : ExecutionFragment) :
  ExecutionFragment_CalculateEntryAndExitNodes ef = (Ok tt, ef') → nodes_nonnil (entries (ef_Nodes ef)).
Proof.
  unfold ExecutionFragment_CalculateEntryAndExitNodes. case_decide as Hsize.
  { apply map_size_empty_inv in Hsize. intros _ id. by rewrite Hsize, lookup_empty. }
  destruct (fragment_scan1 _) as [[all inc] out].
  destruct (fold_nodes (range 41 _) _ _) as [[inc' out']|] eqn:Hscan; [|done].
  intros _ id Hid. eapply fold_nodes_nonnil; [done|]. by apply elem_of_range.
Qed.

(** On a fragment without nil nodes [CalculateEntryAndExitNodes] sets the
    entry nodes to the sorted IDs of the nodes none of whose dependencies lies
    in the fragment, and the exit nodes to the sorted IDs no node of the
    fragment depends on, whatever the iteration order. *)
Theorem Fragment_CalculateEntryAndExitNodes_spec `{GoRange} (ef : ExecutionFragment) :
  nodes_nonnil (entries (ef_Nodes ef)) →
  ExecutionFragment_CalculateEntryAndExitNodes ef =
    (Ok tt, MkFragment (ef_Nodes ef)
              (fragment_entries (entries (ef_Nodes ef))) (fragment_exits (entries (ef_Nodes ef)))
              (ef_Name ef)).
Proof. apply calculate_fragment. Qed.

(** ** MergeFragment *)

(** What merging [other] into a map [m] leaves: every node of [other] when no ID
    is in both, and otherwise the nodes copied before the first clash. *)
Definition merged (m other m' : node_map) (r : outcome plan_error unit) : Prop :=
  (r = Ok tt ∧ m ##ₘ other ∧ m' = m ∪ other) ∨
  (∃ id kept, r = Err (MergeDuplicate id) ∧ is_Some (m !! id) ∧ is_Some (other !! id) ∧
     kept ⊆ other ∧ m ##ₘ kept ∧ m' = m ∪ kept).

Section merge.
Context {S : Type} (nodes : S → gomap (option ExecutionNode)) (set : node_map → S → S).
Hypothesis nodes_set : ∀ m s, nodes (set m s) = Some m.
Hypothesis set_set : ∀ m m' s, set m (set m' s) = set m s.
Hypothesis set_nodes : ∀ m s, nodes s = Some m → set m s = s.

Definition merge_body : NodeID * option ExecutionNode → M S plan_error unit :=
  λ '(id, node) s,
    if decide (is_Some (entries (nodes s) !! id)) then (Err (MergeDuplicate id), s)
    else store_node nodes set id node s.

Lemma merge_loop_spec (l : list (NodeID * option ExecutionNode)) (other m : node_map) s r s' :
  l ≡ₚ map_to_list other → nodes s = Some m →
  foreach l merge_body s = (r, s') →
  ∃ m', s' = set m' s ∧ merged m other m' r.
Proof.
  intros Hl Hs Hrun.
  assert (NoDup l.*1) as Hnd by (rewrite Hl; apply NoDup_fst_map_to_list).
  assert (∀ k x, k ++ [x] `prefix_of` l → x ∈ l) as Hpre by (intros; by eapply elem_of_prefix_snoc).
  assert (∀ k, k `prefix_of` l → (list_to_map k : node_map) ⊆ other) as Hsub.
  { intros k [k' ->]. apply map_subseteq_spec. intros i x Hx%elem_of_list_to_map_2.
    apply elem_of_map_to_list. rewrite <-Hl. set_solver. }
  eapply (foreach_cases (λ k t, m ##ₘ (list_to_map k : node_map) ∧
    t = set (m ∪ list_to_map k) s)) in Hrun as [(-> & Hdisj & ->)|Hstop].
  - rewrite (list_to_map_proper l (map_to_list other)), list_to_map_to_list in Hdisj |- * by done.
    eexists; split; [done|by left].
  - destruct Hstop as (k & [id n] & t & Hk & [Hdisj ->] & Hx & Hne). unfold merge_body in Hx.
    rewrite nodes_set in Hx. simpl in Hx.
    assert ((list_to_map k : node_map) !! id = None) as Hfresh.
    { apply not_elem_of_list_to_map_1. by apply (prefix_key_fresh k l (id, n)). }
    case_decide as Hid; unfold store_node in Hx; rewrite ?nodes_set in Hx; simplify_eq.
    eexists; split; [done|]. right. exists id, (list_to_map k). split_and!; try done.
    + rewrite lookup_union_l in Hid; done.
    + apply Hpre in Hk. rewrite Hl, elem_of_map_to_list in Hk. eauto.
    + apply Hsub. etrans; [by eexists|done].
  - split; [apply map_disjoint_empty_r|]. simpl. by rewrite (right_id ∅ (∪)), set_nodes.
  - intros k [id n] t t' Hk [Hdisj ->] Hx. unfold merge_body in Hx. rewrite nodes_set in Hx.
    simpl in Hx. case_decide as Hid; [done|].
    apply eq_None_not_Some, lookup_union_None in Hid as [Hm Hkk].
    unfold store_node in Hx. rewrite nodes_set, set_set in Hx. simplify_eq.
    rewrite list_to_map_app. simpl. rewrite insert_empty.
    rewrite <-insert_union_singleton_r by done. split.
    + apply map_disjoint_insert_r. done.
    + by rewrite <-insert_union_r.
Qed.
End merge.

(** [MergeFragment], on a graph and on a fragment, is disjoint union: it adds
    every node of the merged fragment and returns no error when the IDs are
    disjoint, and otherwise stops at an ID both have, with the error naming it
    and only nodes of the merged fragment added. *)
Theorem MergeFragment_disjoint_union `{GoRange} (g : ExecutionGraph) (ef other : ExecutionFragment)
    (m mf : node_map) :
  g_Nodes g = Some m → ef_Nodes ef = Some mf →
  (∃ r m', ExecutionGraph_MergeFragment (Some other) g = (r, g_set_Nodes m' g) ∧
     merged m (entries (ef_Nodes other)) m' r) ∧
  (∃ r m', ExecutionFragment_MergeFragment (Some other) ef = (r, ef_set_Nodes m' ef) ∧
     merged mf (entries (ef_Nodes other)) m' r).
Proof.
  intros Hg Hef. split.
  - destruct (ExecutionGraph_MergeFragment (Some other) g) as [r g'] eqn:Hrun.
    eapply (merge_loop_spec g_Nodes g_set_Nodes) in Hrun as (m' & -> & Hm); eauto using range_perm.
    + intros m0 [] ?; simpl in *; by subst.
  - destruct (ExecutionFragment_MergeFragment (Some other) ef) as [r ef'] eqn:Hrun.
    eapply (merge_loop_spec ef_Nodes ef_set_Nodes) in Hrun as (m' & -> & Hm); eauto using range_perm.
    + intros m0 [] ?; simpl in *; by subst.
Qed.

(** ** LinkFragments *)

Lemma elem_of_add_deps froms deps d : d ∈ add_deps froms deps ↔ d ∈ deps ∨ d ∈ froms.
Proof.
  unfold add_deps. revert deps. induction froms as [|f froms IH]; intros deps; simpl; [set_solver|].
  rewrite IH. case_decide; set_solver.
Qed.

Lemma add_deps_subset froms deps : froms ⊆ deps → add_deps froms deps = deps.
Proof.
  unfold add_deps. induction froms as [|f froms IH]; intros Hsub; simpl; [done|].
  rewrite decide_True by set_solver. apply IH. set_solver.
Qed.

Lemma add_deps_snoc froms f deps : add_deps (froms ++ [f]) deps = add_deps [f] (add_deps froms deps).
Proof. unfold add_deps. by rewrite foldl_app. Qed.

Lemma add_deps_idem froms deps : add_deps froms (add_deps froms deps) = add_deps froms deps.
Proof. apply add_deps_subset. intros d Hd. apply elem_of_add_deps. by right. Qed.

Lemma lookup_link_nodes froms tos nodes id :
  link_nodes froms tos nodes !! id =
  (λ n, if decide (id ∈ tos) then
     option_map (λ n, set_Dependencies (add_deps froms (node_Dependencies n)) n) n else n) <$> nodes !! id.
Proof. unfold link_nodes. rewrite map_lookup_imap. by destruct (nodes !! id). Qed.

Lemma link_nodes_nil froms nodes : link_nodes froms [] nodes = nodes.
Proof.
  apply map_eq. intros id. rewrite lookup_link_nodes. by destruct (nodes !! id).
Qed.

(** One more target of a link. *)
Lemma link_nodes_snoc froms tos to n nodes :
  link_nodes froms tos nodes !! to = Some (Some n) →
  link_nodes froms (tos ++ [to]) nodes =
  <[to := Some (set_Dependencies (add_deps froms (node_Dependencies n)) n)]> (link_nodes froms tos nodes).
Proof.
  intros Hto. apply map_eq. intros id. destruct (decide (to = id)) as [->|Hne].
  - rewrite lookup_insert_eq. rewrite !lookup_link_nodes in Hto |- *.
    destruct (nodes !! id) as [[n0|]|]; simpl in *; [|case_decide; simplify_eq|done].
    rewrite (decide_True (P := id ∈ tos ++ [id])) by set_solver. simpl.
    case_decide; simplify_eq/=; [|done]. by rewrite add_deps_idem.
  - rewrite lookup_insert_ne, !lookup_link_nodes by done. destruct (nodes !! id); [|done].
    simpl. f_equal. apply decide_ext. set_solver.
Qed.

Global Program Instance ExecutionGraph_GraphLaws : GraphLaws ExecutionGraph := {|
  graph_nodes g := entries (g_Nodes g);
|}.
Next Obligation. done. Qed.
Next Obligation. done. Qed.
Next Obligation. intros id g. simpl. unfold ExecutionGraph_AddDependency. by rewrite decide_True. Qed.
Next Obligation.
  intros from to g n Hne [nf Hf] Ht. simpl in *. unfold ExecutionGraph_AddDependency, append_dependency.
  rewrite decide_False, Hf, Ht by done. unfold add_deps. simpl. case_decide.
  - eexists; split; [done|]. by rewrite insert_id by (rewrite Ht; by destruct n).
  - eexists; split; [done|done].
Qed.

Global Program Instance ExecutionFragment_GraphLaws : GraphLaws ExecutionFragment := {|
  graph_nodes ef := entries (ef_Nodes ef);
|}.
Next Obligation. done. Qed.
Next Obligation. done. Qed.
Next Obligation. intros id g. simpl. unfold ExecutionFragment_AddDependency. by rewrite decide_True. Qed.
Next Obligation.
  intros from to g n Hne [nf Hf] Ht. simpl in *. unfold ExecutionFragment_AddDependency, append_dependency.
  rewrite decide_False, Hf, Ht by done. unfold add_deps. simpl. case_decide.
  - eexists; split; [done|]. by rewrite insert_id by (rewrite Ht; by destruct n).
  - eexists; split; [done|done].
Qed.

Section link.
Context {G : Type} `{GraphLaws G}.
Implicit Types (g : G) (froms tos : list NodeID).

Lemma require_nodes_spec err ids g :
  ((∀ id, id ∈ ids → is_Some (graph_nodes g !! id)) ∧ require_nodes err ids g = (Ok tt, g)) ∨
  (∃ id, id ∈ ids ∧ graph_nodes g !! id = None ∧ require_nodes err ids g = (Err (err id), g)).
Proof.
  destruct (require_nodes err ids g) as [r g'] eqn:Hrun. unfold require_nodes in Hrun.
  eapply (foreach_cases (λ k g', g' = g ∧ ∀ id, id ∈ k → is_Some (graph_nodes g !! id))) in Hrun
    as [(-> & -> & Hall)|(k & id & t & Hpre & [-> _] & Hx & Hne)].
  - by left.
  - right. apply elem_of_prefix_snoc in Hpre. exists id. rewrite HasNode_spec in Hx.
    case_bool_decide as Hid; simplify_eq. split_and!; [done| |done]. by apply eq_None_not_Some.
  - split; [done|]. by intros id ?%elem_of_nil.
  - intros k id t t' _ [-> Hk] Hx. rewrite HasNode_spec in Hx.
    case_bool_decide as Hid; simplify_eq. split; [done|].
    intros id' [?| ->%list_elem_of_singleton]%elem_of_app; eauto.
Qed.

Definition link_one (to from : NodeID) : M G plan_error unit :=
  wrap (LinkFailed from to) (AddDependency from to).

Lemma link_one_ok to from g n :
  from ≠ to → is_Some (graph_nodes g !! from) → graph_nodes g !! to = Some (Some n) →
  ∃ g', link_one to from g = (Ok tt, g') ∧
    graph_nodes g' = <[to := Some (set_Dependencies (add_deps [from] (node_Dependencies n)) n)]> (graph_nodes g).
Proof.
  intros Hne Hf Ht. destruct (AddDependency_ok from to g n) as (g' & Hrun & Hg'); [done..|].
  exists g'. split; [|done]. unfold link_one, wrap. by rewrite Hrun.
Qed.

(** The inner loop: every source becomes a dependency of [to]. *)
Lemma link_inner froms to g n :
  to ∉ froms → (∀ id, id ∈ froms → is_Some (graph_nodes g !! id)) →
  graph_nodes g !! to = Some (Some n) →
  ∃ g', foreach froms (link_one to) g = (Ok tt, g') ∧
    graph_nodes g' = <[to := Some (set_Dependencies (add_deps froms (node_Dependencies n)) n)]> (graph_nodes g).
Proof.
  intros Hto Hfroms Hn.
  apply (foreach_total (λ k g', graph_nodes g' =
    <[to := Some (set_Dependencies (add_deps k (node_Dependencies n)) n)]> (graph_nodes g))).
  - simpl. rewrite insert_id by (rewrite Hn; by destruct n). done.
  - intros k f t Hpre Ht. apply elem_of_prefix_snoc in Hpre.
    destruct (link_one_ok to f t (set_Dependencies (add_deps k (node_Dependencies n)) n))
      as (t' & Hrun & Ht').
    + set_solver.
    + rewrite Ht, lookup_insert_is_Some'. naive_solver.
    + by rewrite Ht, lookup_insert_eq.
    + exists t'. split; [done|]. rewrite Ht', Ht, insert_insert_eq, add_deps_snoc. done.
Qed.

Lemma link_outer froms tos g :
  (∀ id, id ∈ tos → ∃ n, graph_nodes g !! id = Some (Some n)) →
  (∀ id, id ∈ froms → is_Some (graph_nodes g !! id)) →
  (∀ id, id ∈ froms → id ∉ tos) →
  ∃ g', foreach tos (λ to, foreach froms (link_one to)) g = (Ok tt, g') ∧
    graph_nodes g' = link_nodes froms tos (graph_nodes g).
Proof.
  intros Htos Hfroms Hdisj.
  apply (foreach_total (λ k g', graph_nodes g' = link_nodes froms k (graph_nodes g))).
  { by rewrite link_nodes_nil. }
  intros k to t Hpre Ht. apply elem_of_prefix_snoc in Hpre.
  destruct (Htos to Hpre) as [n Hn].
  destruct (graph_nodes t !! to) as [[n'|]|] eqn:Hto.
  2,3: rewrite Ht, lookup_link_nodes, Hn in Hto; simpl in Hto; by case_decide.
  destruct (link_inner froms to t n') as (t' & Hrun & Ht'); [naive_solver| |done|].
  { intros id Hid. rewrite Ht, lookup_link_nodes. apply fmap_is_Some. by apply Hfroms. }
  exists t'. split; [done|]. rewrite Ht', Ht. symmetry. apply link_nodes_snoc. by rewrite <-Ht.
Qed.

Lemma LinkFragments_nonempty froms tos g :
  froms ≠ [] → tos ≠ [] →
  LinkFragments froms tos g =
    (require_nodes LinkSourceNotFound froms ≫= λ _,
     require_nodes LinkTargetNotFound tos ≫= λ _,
     foreach tos (λ to, foreach froms (link_one to))) g.
Proof. by destruct froms, tos. Qed.

(** [LinkFragments] against the interface: the run succeeds and adds [froms]
    to the dependencies of every target. *)
Lemma LinkFragments_ok froms tos g :
  (∀ id, id ∈ tos → ∃ n, graph_nodes g !! id = Some (Some n)) →
  (∀ id, id ∈ froms → is_Some (graph_nodes g !! id)) →
  (∀ id, id ∈ froms → id ∉ tos) →
  ∃ g', LinkFragments froms tos g = (Ok tt, g') ∧
    graph_nodes g' = link_nodes froms tos (graph_nodes g).
Proof.
  intros Htos Hfroms Hdisj.
  destruct (decide (froms = [])) as [->|Hf0].
  { exists g. split; [done|]. apply map_eq. intros id. rewrite lookup_link_nodes.
    destruct (graph_nodes g !! id) as [[[]|]|]; simpl; try case_decide; done. }
  destruct (decide (tos = [])) as [->|Ht0].
  { exists g. split; [by destruct froms|]. by rewrite link_nodes_nil. }
  rewrite LinkFragments_nonempty by done. unfold mbind, M_bind.
  destruct (require_nodes_spec LinkSourceNotFound froms g) as [[_ ->]|(id & Hid & Hnone & _)].
  2:{ apply Hfroms in Hid as [? ?]. congruence. }
  destruct (require_nodes_spec LinkTargetNotFound tos g) as [[_ ->]|(id & Hid & Hnone & _)].
  2:{ apply Htos in Hid as [? ?]. congruence. }
  by apply link_outer.
Qed.

(** C33: against the [Graph] interface, [LinkFragments] of non-empty lists adds
    every source to the dependencies of every target, without duplicates, and
    changes nothing else, when sources and targets are distinct nodes of the
    graph; a missing source or target is an error naming it that leaves the
    graph untouched; with an empty list nothing happens. *)
Theorem LinkFragments_spec froms tos g :
  ((∀ id, id ∈ tos → ∃ n, graph_nodes g !! id = Some (Some n)) →
   (∀ id, id ∈ froms → is_Some (graph_nodes g !! id)) →
   (∀ id, id ∈ froms → id ∉ tos) →
   ∃ g', LinkFragments froms tos g = (Ok tt, g') ∧
     graph_nodes g' = link_nodes froms tos (graph_nodes g)) ∧
  (froms ≠ [] → tos ≠ [] → (∃ id, id ∈ froms ∧ graph_nodes g !! id = None) →
   ∃ id, id ∈ froms ∧ graph_nodes g !! id = None ∧
     LinkFragments froms tos g = (Err (LinkSourceNotFound id), g)) ∧
  (froms ≠ [] → (∀ id, id ∈ froms → is_Some (graph_nodes g !! id)) →
   (∃ id, id ∈ tos ∧ graph_nodes g !! id = None) →
   ∃ id, id ∈ tos ∧ graph_nodes g !! id = None ∧
     LinkFragments froms tos g = (Err (LinkTargetNotFound id), g)) ∧
  (froms = [] ∨ tos = [] → LinkFragments froms tos g = (Ok tt, g)).
Proof.
  split_and!; [apply LinkFragments_ok|..].
  - intros Hf Ht (id & Hid & Hnone). rewrite LinkFragments_nonempty by done. unfold mbind, M_bind.
    destruct (require_nodes_spec LinkSourceNotFound froms g) as [[Hall _]|(id' & ? & ? & ->)]; [|eauto].
    apply Hall in Hid as [? ?]. congruence.
  - intros Hf Hall (id & Hid & Hnone).
    rewrite LinkFragments_nonempty by (done || by intros ->; apply elem_of_nil in Hid).
    unfold mbind, M_bind.
    destruct (require_nodes_spec LinkSourceNotFound froms g) as [[_ ->]|(id' & Hid' & ? & _)].
    2:{ apply Hall in Hid' as [? ?]. congruence. }
    destruct (require_nodes_spec LinkTargetNotFound tos g) as [[Hall' _]|(id' & ? & ? & ->)]; [|eauto].
    apply Hall' in Hid as [? ?]. congruence.
  - intros [-> | ->]; [done|]. by destruct froms.
Qed.
End link.

(** ** Linking keeps a graph acyclic *)

Lemma node_deps_link froms tos nodes id d :
  d ∈ node_deps (link_nodes froms tos nodes) id →
  d ∈ node_deps nodes id ∨ (d ∈ froms ∧ id ∈ tos).
Proof.
  unfold node_deps. rewrite lookup_link_nodes. destruct (nodes !! id) as [[n|]|]; simpl; [|case_decide; simpl; set_solver|set_solver].
  case_decide; simpl; [|by left]. rewrite elem_of_add_deps. naive_solver.
Qed.

(** When [deps'] adds to [deps] at most dependencies of [tos] on [froms], and no
    source depends on a target, a path takes at most one new edge. *)
Lemma extended_paths (deps deps' : NodeID → list NodeID) (froms tos : list NodeID) x y :
  (∀ v d, d ∈ deps' v → d ∈ deps v ∨ (d ∈ froms ∧ v ∈ tos)) →
  (∀ f t, f ∈ froms → t ∈ tos → ¬ rtc (before deps) t f) →
  tc (before deps') x y →
  tc (before deps) x y ∨
  ∃ f t, f ∈ froms ∧ t ∈ tos ∧ rtc (before deps) x f ∧ rtc (before deps) t y.
Proof.
  intros Hext Hno. induction 1 as [x y Hxy|x y z Hxy Hyz IH].
  - apply Hext in Hxy as [Hxy|[Hf Ht]]; [left; by apply tc_once|right].
    exists x, y. by split_and!.
  - apply Hext in Hxy as [Hxy|[Hf Ht]].
    + destruct IH as [IH|(f & t & Hf & Ht & Hyf & Htz)]; [left; by eapply tc_l|right].
      exists f, t. split_and!; [done..|by eapply rtc_l|done].
    + destruct IH as [IH|(f & t & Hf' & Ht' & Hyf & Htz)].
      * right. exists x, y. split_and!; [done..|]. by apply tc_rtc.
      * by destruct (Hno f y Hf' Ht).
Qed.

Lemma extended_acyclic (deps deps' : NodeID → list NodeID) (froms tos : list NodeID) :
  (∀ v d, d ∈ deps' v → d ∈ deps v ∨ (d ∈ froms ∧ v ∈ tos)) →
  (∀ f t, f ∈ froms → t ∈ tos → ¬ rtc (before deps) t f) →
  acyclic deps → acyclic deps'.
Proof.
  intros Hext Hno Hac x Hx.
  apply (extended_paths deps _ froms tos) in Hx as [Hx|(f & t & Hf & Ht & Hxf & Htx)];
    [by eapply Hac| |done..].
  apply (Hno f t Hf Ht). by etrans.
Qed.

(** C34: linking the exits of one part of an acyclic graph to the entries of
    another succeeds and leaves the graph acyclic, when no source depends on a
    target, directly or not. *)
Theorem LinkFragments_acyclic {G} `{GraphLaws G} (froms tos : list NodeID) (g : G) :
  acyclic (node_deps (graph_nodes g)) →
  (∀ id, id ∈ tos → ∃ n, graph_nodes g !! id = Some (Some n)) →
  (∀ id, id ∈ froms → is_Some (graph_nodes g !! id)) →
  (∀ f t, f ∈ froms → t ∈ tos → ¬ rtc (before (node_deps (graph_nodes g))) t f) →
  ∃ g', LinkFragments froms tos g = (Ok tt, g') ∧ acyclic (node_deps (graph_nodes g')).
Proof.
  intros Hac Htos Hfroms Hno.
  destruct (LinkFragments_ok froms tos g) as (g' & Hrun & Hg'); [done..| |].
  { intros id Hf Ht. by destruct (Hno id id Hf Ht). }
  exists g'. split; [done|]. rewrite Hg'.
  eapply (extended_acyclic _ _ froms tos); [|done..]. intros v d. apply node_deps_link.
Qed.
