(* ===== verification/Assemble.v ===== *)
(** Putting node maps together: what merging a fragment into a graph or into
    another fragment and linking its entry nodes to earlier exit nodes makes of
    the nodes.  The modules assemble the fragments of their tasks this way and the
    pipelines those of their modules ([src/internal/module/],
    [src/internal/pipeline/]). *)
From S2P Require Import Prelude.
From S2P Require Import Values.
From S2P Require Import Plan.
From S2P Require Import Kahn.
From S2P Require Import GraphSpec.
From S2P Require Import FragmentSpec.

(** ** Specifications *)

(** What linking [prev] to [ents] makes of the nodes. *)
Definition grown (prev ents : list NodeID) (nodes nodes' : node_map) : Prop :=
  (∀ id, is_Some (nodes' !! id) ↔ is_Some (nodes !! id)) ∧
  (∀ id, nodes !! id = Some None → nodes' !! id = Some None) ∧
  ∀ id n, nodes !! id = Some (Some n) →
    ∃ deps, nodes' !! id = Some (Some (set_Dependencies deps n)) ∧
      ∀ d, d ∈ deps ↔ d ∈ node_Dependencies n ∨ (d ∈ prev ∧ id ∈ ents).

(** The links that the fragments from the [i]th on add to node [id]: an exit of
    one fragment when the next one names [id] as an entry. *)
Definition links (frs : list ExecutionFragment) (i : nat) (id d : NodeID) : Prop :=
  ∃ k f f', frs !! k = Some f ∧ frs !! S k = Some f' ∧ i ≤ S k ∧
    d ∈ ef_ExitNodes f ∧ id ∈ ef_EntryNodes f'.

(** [nodes] is what chaining the fragments [frs] gives: their nodes, each in one
    fragment, and no dependency but a node's own and the links. *)
Definition assembles (frs : list ExecutionFragment) (nodes : node_map) : Prop :=
  (∀ id, is_Some (nodes !! id) ↔ ∃ ef, ef ∈ frs ∧ is_Some (entries (ef_Nodes ef) !! id)) ∧
  (∀ i j fi fj, frs !! i = Some fi → frs !! j = Some fj → i ≠ j →
     entries (ef_Nodes fi) ##ₘ entries (ef_Nodes fj)) ∧
  (∀ i ef id n, frs !! i = Some ef → entries (ef_Nodes ef) !! id = Some (Some n) →
     ∃ deps, nodes !! id = Some (Some (set_Dependencies deps n)) ∧
       ∀ d, d ∈ deps ↔ d ∈ node_Dependencies n ∨ links frs i id d) ∧
  (∀ ef id, ef ∈ frs → entries (ef_Nodes ef) !! id = Some None → nodes !! id = Some None).

(** A fragment fit to be assembled: its nodes are a valid graph of their own, and
    it names its own nodes as entries and exits. *)
Definition fragment_valid (ef : ExecutionFragment) : Prop :=
  let nodes := entries (ef_Nodes ef) in
  nodes_nonnil nodes ∧ nodes_closed nodes ∧ acyclic (node_deps nodes) ∧
  (∀ id, id ∈ ef_EntryNodes ef → is_Some (nodes !! id)) ∧
  (∀ id, id ∈ ef_ExitNodes ef → is_Some (nodes !! id)).

(** The fragments can share one graph. *)
Definition fragments_disjoint (frs : list ExecutionFragment) : Prop :=
  ∀ i j fi fj, frs !! i = Some fi → frs !! j = Some fj → i ≠ j →
    entries (ef_Nodes fi) ##ₘ entries (ef_Nodes fj).

(** The exits the next fragment is linked to. *)
Definition last_exits (frs : list ExecutionFragment) : list NodeID :=
  match last frs with Some ef => ef_ExitNodes ef | None => [] end.

(** The nodes assembled so far are a valid graph, and so are the exits to link. *)
Definition loop_valid (m : node_map) (prev : list NodeID) : Prop :=
  nodes_nonnil m ∧ nodes_closed m ∧ acyclic (node_deps m) ∧ ∀ id, id ∈ prev → is_Some (m !! id).

(** A structure that holds one node map: a graph or a fragment. *)
Class NodeStore (S : Type) `{GraphLaws S} := {
  store_nodes : S → gomap (option ExecutionNode);
  store_set : node_map → S → S;
  store_merge : ∀ `{GoRange}, option ExecutionFragment → M S plan_error unit;
  store_nodes_set : ∀ m s, store_nodes (store_set m s) = Some m;
  store_set_set : ∀ m m' s, store_set m (store_set m' s) = store_set m s;
  store_set_nodes : ∀ m s, store_nodes s = Some m → store_set m s = s;
  store_graph_nodes : ∀ s, graph_nodes s = entries (store_nodes s);
  store_AddDependency : ∀ from to s s', AddDependency from to s = (Ok tt, s') →
    ∃ n, entries (store_nodes s) !! to = Some (Some n) ∧
      s' = store_set (<[to := Some (set_Dependencies (add_deps [from] (node_Dependencies n)) n)]>
                        (entries (store_nodes s))) s;
  store_merge_spec : ∀ `{GoRange} ef m s r s', store_nodes s = Some m →
    store_merge (Some ef) s = (r, s') →
    ∃ m', s' = store_set m' s ∧ merged m (entries (ef_Nodes ef)) m' r;
}.

(** ** Links *)

Lemma grown_refl prev nodes : grown prev [] nodes nodes.
Proof.
  split_and!; [done..|]. intros id n Hn. exists (node_Dependencies n). split; [by destruct n|].
  intros d. set_solver.
Qed.

Lemma grown_nil ents nodes : grown [] ents nodes nodes.
Proof.
  split_and!; [done..|]. intros id n Hn. exists (node_Dependencies n). split; [by destruct n|].
  intros d. set_solver.
Qed.

(** One more target. *)
Lemma grown_snoc prev ents id nodes nodes' n :
  grown prev ents nodes nodes' → nodes' !! id = Some (Some n) →
  ∀ deps, (∀ d, d ∈ deps ↔ d ∈ node_Dependencies n ∨ d ∈ prev) →
  grown prev (ents ++ [id]) nodes (<[id := Some (set_Dependencies deps n)]> nodes').
Proof.
  intros (Hdom & Hnil & Hn) Hid deps Hdeps. split_and!.
  - intros v. rewrite lookup_insert_is_Some', Hdom. split; [|by right].
    intros [->|?]; [|done]. apply Hdom. by eexists.
  - intros v Hv. rewrite lookup_insert_ne; [by apply Hnil|]. intros ->.
    apply Hnil in Hv. congruence.
  - intros v n0 Hv. destruct (Hn v n0 Hv) as (deps0 & Hv' & Hdeps0).
    destruct (decide (id = v)) as [->|Hne].
    + rewrite lookup_insert_eq. rewrite Hid in Hv'. simplify_eq.
      exists deps. split; [done|]. intros d. rewrite Hdeps. simpl. rewrite Hdeps0. set_solver.
    + rewrite lookup_insert_ne by done. exists deps0. split; [done|].
      intros d. rewrite Hdeps0. set_solver.
Qed.

(** A target the map does not have. *)
Lemma grown_missing prev ents id nodes nodes' :
  grown prev ents nodes nodes' → nodes' !! id = None → grown prev (ents ++ [id]) nodes nodes'.
Proof.
  intros (Hdom & Hnil & Hn) Hid. split_and!; [done..|].
  intros v n Hv. destruct (Hn v n Hv) as (deps & Hv' & Hdeps). exists deps. split; [done|].
  intros d. rewrite Hdeps, elem_of_app, list_elem_of_singleton. split; [naive_solver|].
  intros [?|[? [?| ->]]]; [by left|by right|congruence].
Qed.

Lemma grown_deps prev ents (m m' : node_map) id d :
  grown prev ents m m' → d ∈ node_deps m id → d ∈ node_deps m' id.
Proof.
  intros (_ & _ & Hn). unfold node_deps. destruct (m !! id) as [[n|]|] eqn:Hid; simpl; [|by intros ?%elem_of_nil..].
  destruct (Hn id n Hid) as (deps & -> & Hdeps). simpl. intros. apply Hdeps. by left.
Qed.

Section store.
Context {S : Type} `{NodeStore S}.
Implicit Types (s t : S) (m : node_map).

(** A [LinkFragments] that succeeds. *)
Lemma LinkFragments_grown froms tos s s' m :
  store_nodes s = Some m → LinkFragments froms tos s = (Ok tt, s') →
  ∃ m', s' = store_set m' s ∧ grown froms tos m m'.
Proof.
  intros Hs Hrun.
  assert (store_set m s = s) as Hset by by apply store_set_nodes.
  destruct (decide (froms = [])) as [->|Hf].
  { unfold LinkFragments, mret, M_ret in Hrun. simplify_eq. exists m. by split; [|apply grown_nil]. }
  destruct (decide (tos = [])) as [->|Ht].
  { unfold LinkFragments, mret, M_ret in Hrun. destruct froms; [done|]. simplify_eq. exists m.
    by split; [|apply grown_refl]. }
  rewrite LinkFragments_nonempty in Hrun by done.
  apply bind_ok in Hrun as ([] & s1 & Hr1 & Hrun). apply bind_ok in Hrun as ([] & s2 & Hr2 & Hrun).
  assert (s1 = s) as -> by (destruct (require_nodes_spec LinkSourceNotFound froms s) as [[_ Heq]|(? & _ & _ & Heq)]; congruence).
  assert (s2 = s) as -> by (destruct (require_nodes_spec LinkTargetNotFound tos s) as [[_ Heq]|(? & _ & _ & Heq)]; congruence).
  clear Hr1 Hr2.
  eapply (foreach_ind (λ k s', ∃ m', s' = store_set m' s ∧ grown froms k m m')) in Hrun; [done| |].
  { exists m. by split; [|apply grown_refl]. }
  intros k to t t' _ (m1 & -> & Hgrown) Hin.
  assert (∃ f, f ∈ froms) as [f0 Hf0] by (destruct froms as [|f0 l]; [done|exists f0; left]).
  assert (froms = [] ∨ ∃ n, m1 !! to = Some (Some n) ∧
    t' = store_set (<[to := Some (set_Dependencies (add_deps froms (node_Dependencies n)) n)]> m1) s) as Hinner.
  { clear Hf Hf0. eapply (foreach_ind (λ (j : list NodeID) t', (j = [] ∧ t' = store_set m1 s) ∨
      ∃ n, m1 !! to = Some (Some n) ∧
        t' = store_set (<[to := Some (set_Dependencies (add_deps j (node_Dependencies n)) n)]> m1) s)) in Hin.
    - destruct Hin as [[-> _]|?]; [by left|by right].
    - by left.
    - intros j from u u' _ Hu Hlink. right. unfold link_one, wrap in Hlink.
      destruct (AddDependency from to u) as [[[]|?|] u1] eqn:Hadd; simplify_eq.
      apply store_AddDependency in Hadd as (n1 & Hn1 & ->).
      destruct Hu as [[-> ->]|(n & Hn & ->)]; rewrite store_nodes_set in Hn1 |- *; simpl in Hn1;
        rewrite store_set_set; simpl.
      + by exists n1.
      + rewrite lookup_insert_eq in Hn1. simplify_eq. exists n. split; [done|].
        by rewrite insert_insert_eq, add_deps_snoc. }
  destruct Hinner as [->|(n & Hn & ->)]; [by apply elem_of_nil in Hf0|].
  eexists; split; [done|]. apply grown_snoc; [done|done|]. intros d. apply elem_of_add_deps.
Qed.

(** [s'] is [s] with the nodes of [ef] merged in and its entries linked to [prev]. *)
Definition extends prev ef s s' : Prop :=
  ∃ m m', store_nodes s = Some m ∧ m ##ₘ entries (ef_Nodes ef) ∧ s' = store_set m' s ∧
    grown prev (ef_EntryNodes ef) (m ∪ entries (ef_Nodes ef)) m'.

Lemma merge_grown `{GoRange} ef s s' m :
  store_nodes s = Some m → store_merge (Some ef) s = (Ok tt, s') →
  m ##ₘ entries (ef_Nodes ef) ∧ s' = store_set (m ∪ entries (ef_Nodes ef)) s.
Proof.
  intros Hs Hrun. destruct (store_merge_spec ef m s _ _ Hs Hrun) as (m' & -> & [(_ & Hd & ->)|(? & ? & ? & _)]); done.
Qed.

Lemma merge_total `{GoRange} ef s m :
  store_nodes s = Some m → m ##ₘ entries (ef_Nodes ef) →
  store_merge (Some ef) s = (Ok tt, store_set (m ∪ entries (ef_Nodes ef)) s).
Proof.
  intros Hs Hd. destruct (store_merge (Some ef) s) as [r s1] eqn:Hrun.
  destruct (store_merge_spec ef m s r s1 Hs Hrun) as (m' & -> & [(-> & _ & ->)|(id & kept & _ & [n1 Hn1] & [n2 Hn2] & _)]); [done|].
  by eapply map_disjoint_spec in Hn2.
Qed.

(** Merge, then link when there is something to link to: [link] is any loop that
    grows the nodes. *)
Lemma merge_link_extends `{GoRange} prev ef s s1 s2 m (link : M S plan_error unit) :
  (∀ t t' m1, store_nodes t = Some m1 → link t = (Ok tt, t') →
     ∃ m2, t' = store_set m2 t ∧ grown prev (ef_EntryNodes ef) m1 m2) →
  store_nodes s = Some m → store_merge (Some ef) s = (Ok tt, s1) →
  (if decide (0 < length prev) then link else mret tt) s1 = (Ok tt, s2) →
  extends prev ef s s2.
Proof.
  intros Hlink Hs Hm Hl. apply (merge_grown ef s s1 m Hs) in Hm as [Hdisj ->].
  exists m. case_decide as Hp.
  - apply (Hlink _ _ (m ∪ entries (ef_Nodes ef))) in Hl as (m2 & -> & Hg); [|by rewrite store_nodes_set].
    exists m2. rewrite store_set_set. by split_and!.
  - unfold mret, M_ret in Hl. simplify_eq. eexists. split_and!; [done..|].
    destruct prev; [apply grown_nil|]. simpl in Hp. lia.
Qed.
End store.

Global Program Instance ExecutionGraph_NodeStore : NodeStore ExecutionGraph := {|
  store_nodes := g_Nodes;
  store_set := g_set_Nodes;
  store_merge := @ExecutionGraph_MergeFragment;
|}.
Next Obligation. done. Qed.
Next Obligation. done. Qed.
Next Obligation. intros m []; simpl. by intros ->. Qed.
Next Obligation. done. Qed.
Next Obligation.
  intros from to g g'. simpl. unfold ExecutionGraph_AddDependency, append_dependency. case_decide; [done|].
  destruct (entries (g_Nodes g) !! from) as [nf|]; [|done].
  destruct (entries (g_Nodes g) !! to) as [[n|]|] eqn:Hto; [|done..].
  intros Hrun. exists n. split; [done|]. unfold add_deps. simpl. case_decide; simplify_eq; [|done].
  rewrite insert_id by (rewrite Hto; by destruct n).
  destruct g' as [name [m|] en ex]; simpl in *; [done|by rewrite lookup_empty in Hto].
Qed.
Next Obligation.
  intros R ef m g r g' Hg Hrun. eapply (merge_loop_spec g_Nodes g_set_Nodes) in Hrun; eauto using range_perm.
  intros m0 [] ?; simpl in *; by subst.
Qed.

Global Program Instance ExecutionFragment_NodeStore : NodeStore ExecutionFragment := {|
  store_nodes := ef_Nodes;
  store_set := ef_set_Nodes;
  store_merge := @ExecutionFragment_MergeFragment;
|}.
Next Obligation. done. Qed.
Next Obligation. done. Qed.
Next Obligation. intros m []; simpl. by intros ->. Qed.
Next Obligation. done. Qed.
Next Obligation.
  intros from to g g'. simpl. unfold ExecutionFragment_AddDependency, append_dependency. case_decide; [done|].
  destruct (entries (ef_Nodes g) !! from) as [nf|]; [|done].
  destruct (entries (ef_Nodes g) !! to) as [[n|]|] eqn:Hto; [|done..].
  intros Hrun. exists n. split; [done|]. unfold add_deps. simpl. case_decide; simplify_eq; [|done].
  rewrite insert_id by (rewrite Hto; by destruct n).
  destruct g' as [[m|] en ex name]; simpl in *; [done|by rewrite lookup_empty in Hto].
Qed.
Next Obligation.
  intros R ef m g r g' Hg Hrun. eapply (merge_loop_spec ef_Nodes ef_set_Nodes) in Hrun; eauto using range_perm.
  intros m0 [] ?; simpl in *; by subst.
Qed.

(** ** Chains of fragments *)

Lemma last_exits_snoc frs ef : last_exits (frs ++ [ef]) = ef_ExitNodes ef.
Proof. unfold last_exits. by rewrite last_snoc. Qed.

Lemma links_snoc frs ef i id d :
  i ≤ length frs →
  links (frs ++ [ef]) i id d ↔ links frs i id d ∨ (d ∈ last_exits frs ∧ id ∈ ef_EntryNodes ef).
Proof.
  intros Hi. split.
  - intros (k & f & f' & Hk & HSk & Hik & Hd & Hid).
    apply lookup_app_Some in HSk as [HSk|[Hlen HSk]].
    + left. exists k, f, f'. rewrite lookup_app_l in Hk by (apply lookup_lt_Some in HSk; lia). by split_and!.
    + right. apply list_lookup_singleton_Some in HSk as [Hz <-]. split; [|done].
      rewrite lookup_app_l in Hk by lia. unfold last_exits. rewrite last_lookup.
      replace (pred (length frs)) with k by lia. by rewrite Hk.
  - intros [(k & f & f' & Hk & HSk & Hik & Hd & Hid)|[Hd Hid]].
    + exists k, f, f'. split_and!; [by apply lookup_app_l_Some..|done|done|done].
    + unfold last_exits in Hd. destruct (last frs) as [f|] eqn:Hlast; [|by apply elem_of_nil in Hd].
      rewrite last_lookup in Hlast. pose proof (lookup_lt_Some _ _ _ Hlast).
      exists (pred (length frs)), f, ef. replace (S (pred (length frs))) with (length frs) by lia.
      split_and!; [by apply lookup_app_l_Some|by rewrite list_lookup_middle|lia|done|done].
Qed.

Lemma links_past frs i id d : length frs ≤ i → ¬ links frs i id d.
Proof. intros Hi (k & f & f' & _ & HSk%lookup_lt_Some & Hik & _). lia. Qed.

Lemma assembles_nil : assembles [] ∅.
Proof.
  split_and!.
  - intros id. rewrite lookup_empty. split; [by intros [? ?]|]. by intros (? & ?%elem_of_nil & _).
  - done.
  - done.
  - by intros ? ? ?%elem_of_nil.
Qed.

Lemma assembles_snoc frs ef m m' :
  assembles frs m → m ##ₘ entries (ef_Nodes ef) →
  grown (last_exits frs) (ef_EntryNodes ef) (m ∪ entries (ef_Nodes ef)) m' →
  assembles (frs ++ [ef]) m'.
Proof.
  intros (Hdom & Hdisj & Hnodes & Hnil) Hef (Hgd & Hgnil & Hgn).
  assert (∀ fi, fi ∈ frs → entries (ef_Nodes fi) ##ₘ entries (ef_Nodes ef)) as Hnew.
  { intros fi Hfi. apply map_disjoint_alt. intros id.
    destruct (entries (ef_Nodes fi) !! id) eqn:Hid; [right|by left].
    assert (is_Some (m !! id)) as [x Hx] by (apply Hdom; exists fi; split; [done|by eexists]).
    by eapply map_disjoint_Some_l. }
  split_and!.
  - intros id. rewrite Hgd, lookup_union_is_Some, Hdom. split.
    + intros [(fi & Hfi & Hs)|Hs]; [exists fi|exists ef]; (split; [set_solver|done]).
    + intros (fi & [Hfi| ->%list_elem_of_singleton]%elem_of_app & Hs); [left|by right]. by exists fi.
  - intros i j fi fj Hi Hj Hij.
    apply lookup_app_Some in Hi as [Hi|[Hli Hi]]; apply lookup_app_Some in Hj as [Hj|[Hlj Hj]].
    + by eapply Hdisj.
    + apply list_lookup_singleton_Some in Hj as [_ <-]. apply Hnew. by eapply list_elem_of_lookup_2.
    + apply list_lookup_singleton_Some in Hi as [_ <-]. symmetry. apply Hnew. by eapply list_elem_of_lookup_2.
    + apply list_lookup_singleton_Some in Hi as [? _]. apply list_lookup_singleton_Some in Hj as [? _]. lia.
  - intros i fi id n [Hi|[Hlen Hi]]%lookup_app_Some Hid.
    + destruct (Hnodes i fi id n Hi Hid) as (deps & Hm & Hdeps).
      destruct (Hgn id (set_Dependencies deps n)) as (deps' & Hm' & Hdeps'); [by apply lookup_union_Some_l|].
      exists deps'. split; [done|]. intros d. apply lookup_lt_Some in Hi.
      rewrite Hdeps', links_snoc by lia. simpl. rewrite Hdeps. tauto.
    + apply list_lookup_singleton_Some in Hi as [Hz <-].
      destruct (Hgn id n) as (deps' & Hm' & Hdeps'); [by apply lookup_union_Some_r|].
      exists deps'. split; [done|]. intros d. rewrite Hdeps', links_snoc by lia.
      pose proof (links_past frs i id d). naive_solver.
  - intros fi id [Hfi| ->%list_elem_of_singleton]%elem_of_app Hid; apply Hgnil.
    + apply lookup_union_Some_l. by eapply Hnil.
    + by apply lookup_union_Some_r.
Qed.

(** Every entry node of a fragment waits for the exits of the one before. *)
Lemma assembles_ordered frs nodes i f1 f2 x y :
  assembles frs nodes → frs !! i = Some f1 → frs !! S i = Some f2 →
  x ∈ ef_ExitNodes f1 → y ∈ ef_EntryNodes f2 → (∃ n, entries (ef_Nodes f2) !! y = Some (Some n)) →
  x ∈ node_deps nodes y.
Proof.
  intros (_ & _ & Hnodes & _) H1 H2 Hx Hy [n Hn].
  destruct (Hnodes (S i) f2 y n H2 Hn) as (deps & Hm & Hdeps).
  unfold node_deps. rewrite Hm. simpl. apply Hdeps. right. exists i, f1, f2. by split_and!.
Qed.

(** ** Disjoint fragments *)

Lemma StronglySorted_lookup {A} (R : relation A) (l : list A) :
  StronglySorted R l ↔ ∀ i j x y, i < j → l !! i = Some x → l !! j = Some y → R x y.
Proof.
  induction l as [|a l IH]; [split; [done|constructor]|]. rewrite StronglySorted_cons, Forall_lookup, IH. split.
  - intros [Ha Hl] [|i] [|j] x y Hij Hx Hy; simplify_eq/=; [lia|by eapply Ha|lia|].
    eapply (Hl i j); eauto with lia.
  - intros Hl. split.
    + intros j y Hy. by apply (Hl 0 (S j)); [lia|..].
    + intros i j x y Hij. apply (Hl (S i) (S j)). lia.
Qed.

Lemma fragments_disjoint_sorted frs :
  fragments_disjoint frs ↔
  StronglySorted (λ f1 f2, entries (ef_Nodes f1) ##ₘ entries (ef_Nodes f2)) frs.
Proof.
  rewrite StronglySorted_lookup. split.
  - intros Hd i j fi fj Hij Hi Hj. apply (Hd i j); [done..|lia].
  - intros Hs i j fi fj Hi Hj Hne. destruct (decide (i < j)); [by apply (Hs i j)|].
    symmetry. apply (Hs j i); [lia|done..].
Qed.

(** ** Validity *)

Lemma node_deps_union_l (m1 m2 : node_map) id :
  is_Some (m1 !! id) → node_deps (m1 ∪ m2) id = node_deps m1 id.
Proof. intros [n Hn]. unfold node_deps. by erewrite lookup_union_Some_l, Hn. Qed.

Lemma node_deps_union_r (m1 m2 : node_map) id :
  m1 !! id = None → node_deps (m1 ∪ m2) id = node_deps m2 id.
Proof. intros Hn. unfold node_deps. by rewrite lookup_union_r. Qed.

(** A path that ends in a closed part of a graph stays in it. *)
Lemma closed_path (deps : NodeID → list NodeID) (P : NodeID → Prop) x y :
  (∀ v d, P v → d ∈ deps v → P d) → rtc (before deps) x y → P y → P x.
Proof. intros Hcl. induction 1 as [|x y z Hxy _ IH]; [done|]. intros Hz. eapply Hcl; [by apply IH|done]. Qed.

Lemma tc_first {A} (R : relation A) x y : tc R x y → ∃ z, R x z.
Proof. induction 1; eauto. Qed.

Lemma tc_restrict (deps deps' : NodeID → list NodeID) (P : NodeID → Prop) a b :
  (∀ v d, P v → d ∈ deps' v → P d) → (∀ v, P v → deps' v = deps v) →
  tc (before deps') a b → P b → tc (before deps) a b.
Proof.
  intros Hcl Heq. induction 1 as [a b Hab|a c b Hac Hcb IH]; intros Hb.
  - apply tc_once. unfold before in *. by rewrite <-Heq.
  - eapply tc_l; [|by apply IH]. unfold before in *. rewrite <-Heq; [done|].
    eapply closed_path; [done|by apply tc_rtc|done].
Qed.

Lemma union_valid (m f : node_map) :
  m ##ₘ f → nodes_nonnil m → nodes_nonnil f → nodes_closed m → nodes_closed f →
  acyclic (node_deps m) → acyclic (node_deps f) →
  nodes_nonnil (m ∪ f) ∧ nodes_closed (m ∪ f) ∧ acyclic (node_deps (m ∪ f)).
Proof.
  intros Hd Hn1 Hn2 Hc1 Hc2 Ha1 Ha2.
  assert (∀ v, is_Some (m !! v) → node_deps (m ∪ f) v = node_deps m v) as Hl by apply node_deps_union_l.
  assert (∀ v, is_Some (f !! v) → node_deps (m ∪ f) v = node_deps f v) as Hr.
  { intros v [n Hv]. apply node_deps_union_r. by eapply map_disjoint_Some_r. }
  assert (nodes_closed (m ∪ f)) as Hcl.
  { intros v d Hdv. apply node_deps_Some in Hdv as Hv. apply lookup_union_is_Some in Hv as [Hv|Hv].
    - rewrite Hl in Hdv by done. apply lookup_union_is_Some. left. by eapply Hc1.
    - rewrite Hr in Hdv by done. apply lookup_union_is_Some. right. by eapply Hc2. }
  split_and!; [|done|].
  - intros v Hv. apply lookup_union_Some in Hv as [Hv|Hv]; [by eapply Hn1|by eapply Hn2|done].
  - intros x Hx.
    assert (is_Some ((m ∪ f) !! x)) as Hxs by (apply tc_first in Hx as [z Hz]; by eapply Hcl).
    apply lookup_union_is_Some in Hxs as [Hxs|Hxs].
    + apply (Ha1 x), (tc_restrict _ (node_deps (m ∪ f)) (λ v, is_Some (m !! v))); try done.
      intros v d Hv. rewrite Hl by done. apply Hc1.
    + apply (Ha2 x), (tc_restrict _ (node_deps (m ∪ f)) (λ v, is_Some (f !! v))); try done.
      intros v d Hv. rewrite Hr by done. apply Hc2.
Qed.

(** Growing the union by links from the old part to the new one. *)
Lemma grown_valid prev ents (m f m' : node_map) :
  loop_valid m prev → m ##ₘ f → nodes_nonnil f → nodes_closed f → acyclic (node_deps f) →
  (∀ id, id ∈ ents → is_Some (f !! id)) → grown prev ents (m ∪ f) m' →
  nodes_nonnil m' ∧ nodes_closed m' ∧ acyclic (node_deps m').
Proof.
  intros (Hn & Hc & Ha & Hprev) Hd Hnf Hcf Haf Hents Hgrown.
  destruct (union_valid m f) as (Hnu & Hcu & Hau); [done..|].
  destruct Hgrown as (Hdom & _ & Hgn).
  assert (∀ v d, d ∈ node_deps m' v → d ∈ node_deps (m ∪ f) v ∨ (d ∈ prev ∧ v ∈ ents)) as Hext.
  { intros v d Hdv. apply node_deps_Some in Hdv as Hv. apply Hdom in Hv as [[n|] Hv]; [|by destruct (Hnu v)].
    destruct (Hgn v n Hv) as (deps & Hv' & Hdeps). unfold node_deps in *. rewrite Hv' in Hdv. rewrite Hv.
    simpl in *. by apply Hdeps. }
  split_and!.
  - intros v Hv. assert (is_Some ((m ∪ f) !! v)) as [[n|] Hv2]; [apply Hdom; by eexists| |by destruct (Hnu v)].
    destruct (Hgn v n Hv2) as (deps & Hv' & _). congruence.
  - intros v d Hdv. apply Hdom. apply Hext in Hdv as [Hdv|[Hdv _]]; [by eapply Hcu|].
    apply lookup_union_is_Some. left. by apply Hprev.
  - eapply (extended_acyclic _ _ prev ents); [done| |done].
    intros p t Hp Ht Hpath. apply (closed_path _ (λ v, is_Some (m !! v))) in Hpath.
    + destruct Hpath as [n1 Hn1], (Hents t Ht) as [n2 Hn2]. by eapply map_disjoint_spec.
    + intros v d Hv. rewrite node_deps_union_l by done. apply Hc.
    + by apply Hprev.
Qed.

(** A step keeps the nodes a valid graph. *)
Lemma extends_valid (m m' : node_map) prev ef :
  loop_valid m prev → fragment_valid ef → m ##ₘ entries (ef_Nodes ef) →
  grown prev (ef_EntryNodes ef) (m ∪ entries (ef_Nodes ef)) m' → loop_valid m' (ef_ExitNodes ef).
Proof.
  intros Hm (Hn & Hc & Ha & Hen & Hex) Hd Hg.
  destruct (grown_valid prev (ef_EntryNodes ef) m (entries (ef_Nodes ef)) m') as (? & ? & ?); [done..|].
  split_and!; [done..|]. intros id Hid. destruct Hg as (Hgd & _). apply Hgd, lookup_union_is_Some.
  right. by apply Hex.
Qed.

Lemma loop_valid_empty : loop_valid ∅ [].
Proof.
  split_and!.
  - intros id. by rewrite lookup_empty.
  - intros id d Hd. by apply elem_of_nil in Hd.
  - intros x [z Hz]%tc_first. by apply elem_of_nil in Hz.
  - by intros id ?%elem_of_nil.
Qed.

(** The nodes of the first of a disjoint list of fragments leave room for the next
    one. *)
Lemma fragments_room k ef k' (m : node_map) :
  fragments_disjoint (k ++ ef :: k') →
  (∀ id, is_Some (m !! id) ↔ ∃ ef, ef ∈ k ∧ is_Some (entries (ef_Nodes ef) !! id)) → m ##ₘ entries (ef_Nodes ef).
Proof.
  intros Hdisj Hdom. apply map_disjoint_alt. intros id.
  destruct (m !! id) as [n|] eqn:Hid; [right|by left].
  assert (∃ fi, fi ∈ k ∧ is_Some (entries (ef_Nodes fi) !! id)) as (fi & Hfi & [x Hx])
    by (apply Hdom; by eexists).
  apply list_elem_of_lookup in Hfi as [i Hi]. pose proof (lookup_lt_Some _ _ _ Hi).
  eapply map_disjoint_Some_l; [|done].
  apply (Hdisj i (length k)); [by apply lookup_app_l_Some|by rewrite list_lookup_middle|lia].
Qed.

Lemma link_total {S} `{NodeStore S} prev ef (m : node_map) (s : S) :
  loop_valid m prev → fragment_valid ef → m ##ₘ entries (ef_Nodes ef) →
  store_nodes s = Some (m ∪ entries (ef_Nodes ef)) →
  ∃ s', LinkFragments prev (ef_EntryNodes ef) s = (Ok tt, s').
Proof.
  intros (_ & _ & _ & Hprev) (Hn & _ & _ & Hen & _) Hd Hs.
  assert (graph_nodes s = m ∪ entries (ef_Nodes ef)) as Hgn by by rewrite store_graph_nodes, Hs.
  destruct (LinkFragments_ok prev (ef_EntryNodes ef) s) as (g2 & Hrun & _); [| | |by exists g2].
  - intros id Hid. rewrite Hgn. destruct (Hen id Hid) as [[n|] Hid']; [|by destruct (Hn id)].
    exists n. by apply lookup_union_Some_r.
  - intros id Hid. rewrite Hgn. apply lookup_union_is_Some. left. by apply Hprev.
  - intros id Hid Hin. destruct (Hprev id Hid) as [n1 Hn1], (Hen id Hin) as [n2 Hn2].
    by eapply map_disjoint_spec.
Qed.

(** ** Loops that chain fragments *)

Section chain.
Context {S E T : Type} `{NodeStore S}.
Variables (frag : T → option ExecutionFragment) (body : T → M (S * list NodeID) E unit).

(** What a body that succeeds does with the fragment of its item. *)
Definition chains : Prop := ∀ x s prev m s' prev',
  store_nodes s = Some m → body x (s, prev) = (Ok tt, (s', prev')) →
  (frag x = None ∧ s' = s ∧ prev' = prev) ∨
  ∃ ef, frag x = Some ef ∧ prev' = ef_ExitNodes ef ∧ extends prev ef s s'.

(** The body succeeds on an item whose fragment fits. *)
Definition chains_total (items : list T) : Prop := ∀ x s prev m,
  x ∈ items → store_nodes s = Some m → loop_valid m prev →
  (∀ ef, frag x = Some ef → fragment_valid ef ∧ m ##ₘ entries (ef_Nodes ef)) →
  ∃ s' prev', body x (s, prev) = (Ok tt, (s', prev')).

Lemma omap_snoc (k : list T) x :
  omap frag (k ++ [x]) = omap frag k ++ match frag x with Some ef => [ef] | None => [] end.
Proof. rewrite omap_app. simpl. by destruct (frag x). Qed.

Lemma chain_step (k : list T) x s m s' prev' :
  chains → assembles (omap frag k) m →
  body x (store_set m s, last_exits (omap frag k)) = (Ok tt, (s', prev')) →
  ∃ m', s' = store_set m' s ∧ prev' = last_exits (omap frag (k ++ [x])) ∧ assembles (omap frag (k ++ [x])) m' ∧
    (∀ ef, frag x = Some ef → m ##ₘ entries (ef_Nodes ef) ∧
       grown (last_exits (omap frag k)) (ef_EntryNodes ef) (m ∪ entries (ef_Nodes ef)) m') ∧
    (frag x = None → m' = m).
Proof.
  intros Hch Hm Hrun. apply (Hch _ _ _ m) in Hrun as [(Hnone & -> & ->)|(ef & Hef & -> & m0 & m' & Hm0 & Hd & -> & Hg)];
    [..|by rewrite store_nodes_set]; rewrite omap_snoc.
  - rewrite Hnone, app_nil_r. exists m. by split_and!.
  - rewrite store_nodes_set in Hm0. simplify_eq. rewrite Hef, last_exits_snoc, store_set_set.
    exists m'. split_and!; [done..|by eapply assembles_snoc| |done]. by intros ? [= <-].
Qed.

(** The loop from an empty node map. *)
Lemma chain_run items s s' prev' :
  chains → store_nodes s = Some ∅ → foreach items body (s, []) = (Ok tt, (s', prev')) →
  ∃ m, s' = store_set m s ∧ prev' = last_exits (omap frag items) ∧ assembles (omap frag items) m ∧
    ((∀ ef, ef ∈ omap frag items → fragment_valid ef) → loop_valid m prev').
Proof.
  intros Hch Hs Hrun.
  eapply (foreach_ind (λ k '(t, prev), ∃ m, t = store_set m s ∧
    prev = last_exits (omap frag k) ∧ assembles (omap frag k) m ∧
    ((∀ ef, ef ∈ omap frag k → fragment_valid ef) → loop_valid m prev))) in Hrun; [done| |].
  - exists ∅. split_and!; [by rewrite store_set_nodes|done|apply assembles_nil|intros; apply loop_valid_empty].
  - intros k x [t prev] [t' prev''] _ (m & -> & -> & Hm & Hlv) Hstep.
    apply chain_step in Hstep as (m' & -> & -> & Hm' & Hg & Hnone); [|done..].
    exists m'. split_and!; [done..|]. rewrite omap_snoc. destruct (frag x) as [ef|] eqn:Hef.
    + intros Hvalid. rewrite last_exits_snoc. destruct (Hg ef eq_refl) as [Hd Hgrown].
      eapply extends_valid; [apply Hlv|apply Hvalid|done..]; set_solver.
    + rewrite app_nil_r, Hnone by done. done.
Qed.

Lemma chain_total items s :
  chains → chains_total items → store_nodes s = Some ∅ →
  (∀ ef, ef ∈ omap frag items → fragment_valid ef) → fragments_disjoint (omap frag items) →
  ∃ m, foreach items body (s, []) = (Ok tt, (store_set m s, last_exits (omap frag items))) ∧
    assembles (omap frag items) m ∧ loop_valid m (last_exits (omap frag items)).
Proof.
  intros Hch Htot Hs Hvalid Hdisj.
  destruct (foreach_total (λ k '(t, prev), ∃ m, t = store_set m s ∧ prev = last_exits (omap frag k) ∧
    assembles (omap frag k) m ∧ loop_valid m prev) items body (s, [])) as ([t prev] & Hrun & m & -> & -> & ? & ?);
    [| |by exists m].
  - exists ∅. split_and!; [by rewrite store_set_nodes|done|apply assembles_nil|apply loop_valid_empty].
  - intros k x [t prev] [k' ->] (m & -> & -> & Hm & Hlv).
    assert (∀ ef, frag x = Some ef → fragment_valid ef ∧ m ##ₘ entries (ef_Nodes ef)) as Hfit.
    { intros ef Hef. rewrite !omap_app in Hvalid, Hdisj. simpl in Hvalid, Hdisj. rewrite Hef in Hvalid, Hdisj.
      rewrite <-app_assoc in Hdisj. split; [apply Hvalid; set_solver|by eapply fragments_room; [|apply Hm]]. }
    destruct (Htot x (store_set m s) (last_exits (omap frag k)) m) as (t' & prev' & Hrun);
      [set_solver|by rewrite store_nodes_set|done..|].
    exists (t', prev'). split; [done|].
    apply chain_step in Hrun as (m' & -> & -> & Hm' & Hg & Hnone); [|done..].
    exists m'. split_and!; [done..|]. rewrite omap_snoc. destruct (frag x) as [ef|] eqn:Hef.
    + rewrite last_exits_snoc. destruct (Hfit ef eq_refl), (Hg ef eq_refl). eapply extends_valid; eauto.
    + rewrite app_nil_r, Hnone by done. done.
Qed.
End chain.
