(* ===== verification/Sequence.v ===== *)
(** Fragments that run one after another: when every fragment names all its first
    and last nodes, chaining fragments orders all the nodes of one before all the
    nodes of the next, although a link only joins exits to entries. *)
From S2P Require Import Prelude.
From S2P Require Import Values.
From S2P Require Import Plan.
From S2P Require Import Kahn.
From S2P Require Import GraphSpec.
From S2P Require Import FragmentSpec.
From S2P Require Import Assemble.

(** ** Specifications *)

(** A fragment with at least one node that names every node without a dependency
    in the fragment as an entry and every node nothing depends on as an exit. *)
Definition ends_complete (ef : ExecutionFragment) : Prop :=
  let nodes := entries (ef_Nodes ef) in
  fragment_valid ef ∧ nodes ≠ ∅ ∧
  (∀ id, is_Some (nodes !! id) → no_inner_deps nodes id = true → id ∈ ef_EntryNodes ef) ∧
  (∀ id, is_Some (nodes !! id) → no_dependents nodes id = true → id ∈ ef_ExitNodes ef).

(** Every node of an earlier fragment is a dependency, direct or not, of every
    node of a later one. *)
Definition runs_before (deps : NodeID → list NodeID) (f1 f2 : ExecutionFragment) : Prop :=
  ∀ x y, is_Some (entries (ef_Nodes f1) !! x) → is_Some (entries (ef_Nodes f2) !! y) → tc (before deps) x y.

Definition sequential (deps : NodeID → list NodeID) (frs : list ExecutionFragment) : Prop :=
  StronglySorted (runs_before deps) frs.

(** ** Paths inside a fragment *)

Lemma no_inner_deps_closed (nodes : node_map) id :
  nodes_closed nodes → no_inner_deps nodes id = false ↔ node_deps nodes id ≠ [].
Proof.
  intros Hcl. unfold no_inner_deps, any_existing. rewrite negb_false_iff, existsb_exists. split.
  - intros (d & Hd & _) Hnil. by rewrite Hnil in Hd.
  - destruct (node_deps nodes id) as [|d l] eqn:Hd; [done|]. intros _. exists d. split; [by left|].
    apply bool_decide_eq_true, (Hcl id). rewrite Hd. left.
Qed.

Lemma no_dependents_false (nodes : node_map) id :
  no_dependents nodes id = false → ∃ v, is_Some (nodes !! v) ∧ id ∈ node_deps nodes v.
Proof.
  unfold no_dependents. intros Hf. apply not_true_iff_false in Hf.
  destruct (decide (Exists (λ v, id ∈ node_deps nodes v) (map_to_list nodes).*1)) as [He|Hn].
  - apply Exists_exists in He as (v & Hv & Hd). exists v. by rewrite <-elem_of_map_keys.
  - destruct Hf. apply forallb_forall. intros v Hv%list_elem_of_In. apply bool_decide_eq_true. intros Hd.
    apply Hn, Exists_exists. by exists v.
Qed.

Lemma tc_last {A} (R : relation A) x y : tc R x y → ∃ z, R z y.
Proof. induction 1; eauto. Qed.

Section paths.
Context (nodes : node_map).
Hypothesis closed : nodes_closed nodes.
Hypothesis acyc : acyclic (node_deps nodes).

(** Going up from any node one meets a node without dependencies. *)
Lemma reach_entry y :
  is_Some (nodes !! y) →
  ∃ a, is_Some (nodes !! a) ∧ no_inner_deps nodes a = true ∧ rtc (before (node_deps nodes)) a y.
Proof.
  assert (sn (flip (before (node_deps nodes))) y) as Hsn.
  { apply (acyclic_sn _ (map_to_list nodes).*1); [done|]. intros v d Hd. apply elem_of_map_keys. by eapply closed. }
  induction Hsn as [y _ IH]. intros Hy. destruct (no_inner_deps nodes y) eqn:Hno; [by exists y|].
  apply no_inner_deps_closed in Hno; [|done]. destruct (node_deps nodes y) as [|d l] eqn:Hd; [done|].
  assert (d ∈ node_deps nodes y) as Hin by (rewrite Hd; left).
  destruct (IH d) as (a & Ha & Hna & Hpath); [done|by eapply closed|].
  exists a. split_and!; [done..|]. by eapply rtc_r.
Qed.

(** Going down one meets a node nothing depends on. *)
Lemma reach_exit x :
  is_Some (nodes !! x) →
  ∃ e, is_Some (nodes !! e) ∧ no_dependents nodes e = true ∧ rtc (before (node_deps nodes)) x e.
Proof.
  assert (sn (before (node_deps nodes)) x) as Hsn.
  { apply tc_finite_sn; [apply acyc|]. exists (map_to_list nodes).*1. intros e He.
    apply elem_of_map_keys. apply tc_last in He as [z Hz]. by eapply node_deps_Some. }
  induction Hsn as [x _ IH]. intros Hx. destruct (no_dependents nodes x) eqn:Hno; [by exists x|].
  apply no_dependents_false in Hno as (v & Hv & Hd).
  destruct (IH v) as (e & He & Hne & Hpath); [done..|]. exists e. split_and!; [done..|]. by eapply rtc_l.
Qed.
End paths.

(** ** Chains *)

(** Chaining only adds dependencies. *)
Lemma assembles_deps frs nodes ef id d :
  assembles frs nodes → ef ∈ frs → d ∈ node_deps (entries (ef_Nodes ef)) id → d ∈ node_deps nodes id.
Proof.
  intros (_ & _ & Hnodes & _) [i Hi]%list_elem_of_lookup. unfold node_deps at 1.
  destruct (entries (ef_Nodes ef) !! id) as [[n|]|] eqn:Hid; [|by intros ?%elem_of_nil..].
  destruct (Hnodes i ef id n Hi Hid) as (deps & Hm & Hdeps). unfold node_deps. rewrite Hm. simpl.
  intros Hd. apply Hdeps. by left.
Qed.

Lemma assembles_path frs nodes ef x y :
  assembles frs nodes → ef ∈ frs → rtc (before (node_deps (entries (ef_Nodes ef)))) x y →
  rtc (before (node_deps nodes)) x y.
Proof.
  intros Has Hef. apply (rtc_congruence id). intros a b Hab. by eapply assembles_deps.
Qed.

Lemma assembles_tc_path frs nodes ef x y :
  assembles frs nodes → ef ∈ frs → tc (before (node_deps (entries (ef_Nodes ef)))) x y →
  tc (before (node_deps nodes)) x y.
Proof.
  intros Has Hef. apply (tc_congruence id). intros a b Hab. by eapply assembles_deps.
Qed.

Lemma assembles_adjacent frs nodes i f1 f2 :
  assembles frs nodes → frs !! i = Some f1 → frs !! S i = Some f2 → ends_complete f1 → ends_complete f2 →
  runs_before (node_deps nodes) f1 f2.
Proof.
  intros Has H1 H2 ((_ & _ & Ha1 & _) & _ & _ & Hex) ((Hnn2 & Hc2 & Ha2 & _) & _ & Hen & _) x y Hx Hy.
  destruct (reach_exit _ Ha1 x Hx) as (e & He & Hne & Hxe).
  destruct (reach_entry _ Hc2 Ha2 y Hy) as (a & Ha & Hna & Hay).
  assert (f1 ∈ frs ∧ f2 ∈ frs) as [Hf1 Hf2] by (split; by eapply list_elem_of_lookup_2).
  assert (∃ n, entries (ef_Nodes f2) !! a = Some (Some n)) as Han
    by (destruct Ha as [[n|] Hn]; [by exists n|by destruct (Hnn2 a)]).
  apply (tc_rtc_l x e); [by apply (assembles_path frs nodes f1)|].
  apply (tc_rtc_r _ a); [|by apply (assembles_path frs nodes f2)].
  apply tc_once, (assembles_ordered frs nodes i f1 f2); auto.
Qed.

Lemma assembles_sequential frs nodes :
  assembles frs nodes → (∀ ef, ef ∈ frs → ends_complete ef) → sequential (node_deps nodes) frs.
Proof.
  intros Has Hends. apply StronglySorted_lookup. intros i j fi fj Hij. revert fj.
  induction Hij as [|j Hij IH]; intros fj Hi Hj.
  - eapply assembles_adjacent; eauto using list_elem_of_lookup_2.
  - destruct (lookup_lt_is_Some_2 frs j) as [f Hf]; [apply lookup_lt_Some in Hj; lia|].
    intros x y Hx Hy.
    destruct (Hends f) as (_ & Hne & _); [by eapply list_elem_of_lookup_2|].
    apply map_choose in Hne as (z & n & Hz).
    trans z; [by eapply IH; eauto|].
    eapply (assembles_adjacent frs nodes j f fj); eauto using list_elem_of_lookup_2.
Qed.

(** Two levels: fragments [ef] that are chained, each made of smaller ones. *)
Lemma sequential_concat deps (L : list (ExecutionFragment * list ExecutionFragment)) :
  sequential deps L.*1 →
  (∀ ef frs, (ef, frs) ∈ L → sequential deps frs ∧
     ∀ f id, f ∈ frs → is_Some (entries (ef_Nodes f) !! id) → is_Some (entries (ef_Nodes ef) !! id)) →
  sequential deps (concat L.*2).
Proof.
  unfold sequential. induction L as [|[ef frs] L IH]; intros Hout Hin; simpl; [constructor|].
  simpl in Hout. apply StronglySorted_cons in Hout as [Hef Hout].
  destruct (Hin ef frs) as [Hfrs Hsub]; [left|]. apply StronglySorted_app. split_and!; [|done|].
  - intros f1 f2 Hf1 (frs2 & Hfrs2%list_elem_of_In & Hf2%list_elem_of_In)%list_elem_of_In%in_concat x y Hx Hy.
    apply list_elem_of_fmap in Hfrs2 as ([ef2 frs2'] & -> & Hin2).
    destruct (Hin ef2 frs2') as [_ Hsub2]; [by right|]. rewrite Forall_forall in Hef.
    apply (Hef ef2); [apply list_elem_of_fmap; by exists (ef2, frs2')|by eapply Hsub|by eapply Hsub2].
  - apply IH; [done|]. intros ef' frs' Hin'. apply Hin. by right.
Qed.
