(* ===== verification/Result.v ===== *)
(** Execution results: [src/internal/plan/result.go] and the step results of
    [src/internal/types/result.go] the engine reads. *)
From S2P Require Import Prelude.
From S2P Require Import Values.

(** ** Data *)

(** A point in time in nanoseconds; [0] is Go's zero time. *)
Abbreviation Time := Z (only parsing).

Definition IsZero (t : Time) : bool := bool_decide (t = 0%Z).

(** The status strings of [result.go]; a checkpoint read from disk may hold any
    other string. *)
Inductive Status : Type :=
| StatusPending
| StatusRunning
| StatusSuccess
| StatusFailed
| StatusSkipped
| OtherStatus (s : string).

Global Instance Status_eq_dec : EqDecision Status.
Proof. solve_decision. Defined.

Record HostResult : Type := MkHostResult {
  hr_HostName : string;
  hr_Status : Status;
  hr_Message : string;
  hr_Stdout : string;
  hr_Stderr : string;
  hr_Metadata : gomap any;
  hr_StartTime : Time;
  hr_EndTime : Time;
}.

Record NodeResult : Type := MkNodeResult {
  nr_NodeName : string;
  nr_StepName : string;
  nr_Status : Status;
  nr_StartTime : Time;
  nr_EndTime : Time;
  nr_Message : string;
  nr_HostResults : gomap HostResult;
  nr_Output : gomap any;
}.

Record GraphExecutionResult : Type := MkGraphResult {
  ger_GraphName : string;
  ger_StartTime : Time;
  ger_EndTime : Time;
  ger_Status : Status;
  ger_NodeResults : gmap string NodeResult;
  ger_Message : string;
}.

(** The status of a step result, [types.StepStatus]. *)
Inductive StepStatus : Type :=
| StepStatusPending
| StepStatusRunning
| StepStatusCompleted
| StepStatusFailed
| StepStatusSkipped
| StepStatusRolledBack
| OtherStepStatus (s : string).

(** A nil [Artifacts] is [None]; a duration is in nanoseconds. *)
Record StepResult : Type := MkStepResult {
  sr_StepName : string;
  sr_ExecutionID : string;
  sr_Status : StepStatus;
  sr_StartTime : Time;
  sr_EndTime : Time;
  sr_Duration : Z;
  sr_Host : option Host;
  sr_HostName : string;
  sr_Message : string;
  sr_Error : string;
  sr_Metadata : gomap any;
  sr_Artifacts : option (list string);
  sr_PreCheckDone : bool;
  sr_RollbackDone : bool;
}.

(** ** Operations *)

Definition NewGraphExecutionResult (now : Time) (graphName : string) : GraphExecutionResult :=
  MkGraphResult graphName now 0 StatusPending ∅ "".

Definition GraphExecutionResult_Finalize (now : Time) (status : Status) (message : string)
    (ger : GraphExecutionResult) : GraphExecutionResult :=
  MkGraphResult (ger_GraphName ger) (ger_StartTime ger) now status (ger_NodeResults ger) message.

Definition NewNodeResult (now : Time) (nodeName stepName : string) : NodeResult :=
  MkNodeResult nodeName stepName StatusPending now 0 "" (Some ∅) None.

Definition nr_set_Status (s : Status) (nr : NodeResult) : NodeResult :=
  MkNodeResult (nr_NodeName nr) (nr_StepName nr) s (nr_StartTime nr) (nr_EndTime nr)
    (nr_Message nr) (nr_HostResults nr) (nr_Output nr).

(** The loop of [AggregateStatus], which stops at the first failed host; the
    branch for skipped hosts has an empty body. *)
Fixpoint aggregate_loop (l : list (string * HostResult)) : Status :=
  match l with
  | [] => StatusSuccess
  | (_, hr) :: l => if decide (hr_Status hr = StatusFailed) then StatusFailed else aggregate_loop l
  end.

Definition NodeResult_AggregateStatus `{GoRange} (nr : NodeResult) : NodeResult :=
  if decide (mlen (nr_HostResults nr) = 0) then nr_set_Status StatusSuccess nr
  else nr_set_Status (aggregate_loop (range 50 (entries (nr_HostResults nr)))) nr.

Definition NewHostResult (now : Time) (hostName : string) : HostResult :=
  MkHostResult hostName StatusPending "" "" "" (Some ∅) now 0.

Definition hr_set_Metadata (m : gomap any) (hr : HostResult) : HostResult :=
  MkHostResult (hr_HostName hr) (hr_Status hr) (hr_Message hr) (hr_Stdout hr) (hr_Stderr hr)
    m (hr_StartTime hr) (hr_EndTime hr).

Definition hr_set_Status (s : Status) (msg : string) (hr : HostResult) : HostResult :=
  MkHostResult (hr_HostName hr) s msg (hr_Stdout hr) (hr_Stderr hr)
    (hr_Metadata hr) (hr_StartTime hr) (hr_EndTime hr).

Definition hr_set_EndTime (t : Time) (hr : HostResult) : HostResult :=
  MkHostResult (hr_HostName hr) (hr_Status hr) (hr_Message hr) (hr_Stdout hr) (hr_Stderr hr)
    (hr_Metadata hr) (hr_StartTime hr) t.

(** A nil [Metadata] is allocated first; a value under "artifacts" that is not a
    list of strings is replaced. *)
Definition HostResult_AddArtifact (path : string) (hr : HostResult) : HostResult :=
  let m := entries (hr_Metadata hr) in
  let '(artifacts, ok) := as_strings (default ANil (m !! "artifacts")) in
  let artifacts := if ok then artifacts else [] in
  hr_set_Metadata (Some (<["artifacts" := AStrings (artifacts ++ [path])]> m)) hr.

(** *** Step results *)

(** [t.Sub(u)], which saturates at the ends of a 64-bit [Duration]. *)
Definition Time_Sub (t u : Time) : Z := Z.max (- 2^63) (Z.min (2^63 - 1) (t - u)).

(** A nil host panics. *)
Definition NewStepResult (now : Time) (stepName executionID : string) (host : option Host) : option StepResult :=
  match host with
  | None => None
  | Some h =>
      Some (MkStepResult stepName executionID StepStatusPending now 0 0 host (host_GetName h) "" ""
              (Some ∅) (Some []) false false)
  end.

(** The assignments the [Mark] methods share. *)
Definition sr_finish (now : Time) (status : StepStatus) (message : string) (r : StepResult) : StepResult :=
  MkStepResult (sr_StepName r) (sr_ExecutionID r) status (sr_StartTime r) now
    (Time_Sub now (sr_StartTime r)) (sr_Host r) (sr_HostName r) message (sr_Error r)
    (sr_Metadata r) (sr_Artifacts r) (sr_PreCheckDone r) (sr_RollbackDone r).

Definition sr_set_flags (error : string) (precheck rollback : bool) (r : StepResult) : StepResult :=
  MkStepResult (sr_StepName r) (sr_ExecutionID r) (sr_Status r) (sr_StartTime r) (sr_EndTime r)
    (sr_Duration r) (sr_Host r) (sr_HostName r) (sr_Message r) error
    (sr_Metadata r) (sr_Artifacts r) precheck rollback.

Definition StepResult_MarkCompleted (now : Time) (message : string) (r : StepResult) : StepResult :=
  sr_finish now StepStatusCompleted message r.

(** A nil error panics. *)
Definition StepResult_MarkFailed (now : Time) (err : option string) (message : string) (r : StepResult) : option StepResult :=
  match err with
  | None => None
  | Some err => Some (sr_set_flags err (sr_PreCheckDone r) (sr_RollbackDone r) (sr_finish now StepStatusFailed message r))
  end.

Definition StepResult_MarkSkipped (now : Time) (reason : string) (r : StepResult) : StepResult :=
  sr_set_flags (sr_Error r) true (sr_RollbackDone r) (sr_finish now StepStatusSkipped reason r).

Definition StepResult_MarkRunning (r : StepResult) : StepResult :=
  MkStepResult (sr_StepName r) (sr_ExecutionID r) StepStatusRunning (sr_StartTime r) (sr_EndTime r)
    (sr_Duration r) (sr_Host r) (sr_HostName r) (sr_Message r) (sr_Error r)
    (sr_Metadata r) (sr_Artifacts r) (sr_PreCheckDone r) (sr_RollbackDone r).

Definition StepResult_MarkRolledBack (now : Time) (message : string) (r : StepResult) : StepResult :=
  sr_set_flags (sr_Error r) (sr_PreCheckDone r) true (sr_finish now StepStatusRolledBack message r).

Definition sr_set_data (metadata : gomap any) (artifacts : option (list string)) (r : StepResult) : StepResult :=
  MkStepResult (sr_StepName r) (sr_ExecutionID r) (sr_Status r) (sr_StartTime r) (sr_EndTime r)
    (sr_Duration r) (sr_Host r) (sr_HostName r) (sr_Message r) (sr_Error r)
    metadata artifacts (sr_PreCheckDone r) (sr_RollbackDone r).

Definition StepResult_AddArtifact (path : string) (r : StepResult) : StepResult :=
  sr_set_data (sr_Metadata r) (Some (default [] (sr_Artifacts r) ++ [path])) r.

(** A nil map panics. *)
Definition StepResult_SetMetadata (key : string) (value : any) (r : StepResult) : option StepResult :=
  match sr_Metadata r with
  | None => None
  | Some m => Some (sr_set_data (Some (<[key := value]> m)) (sr_Artifacts r) r)
  end.

Definition StepResult_GetMetadata (key : string) (r : StepResult) : any * bool :=
  match entries (sr_Metadata r) !! key with Some v => (v, true) | None => (ANil, false) end.

(** ** Lemmas *)

Lemma aggregate_loop_failed l :
  aggregate_loop l = StatusFailed ↔ ∃ k hr, (k, hr) ∈ l ∧ hr_Status hr = StatusFailed.
Proof.
  induction l as [|[k hr] l IH]; simpl.
  - split; [done|]. by intros (k & hr & ?%elem_of_nil & _).
  - case_decide as Hhr.
    + split; [|done]. intros _. exists k, hr. split; [left|done].
    + rewrite IH. split; intros (k' & hr' & Hin & Hf); exists k', hr'; (split; [|done]).
      * by right.
      * apply elem_of_cons in Hin as [?|?]; [simplify_eq|done].
Qed.

Lemma aggregate_loop_cases l : aggregate_loop l = StatusFailed ∨ aggregate_loop l = StatusSuccess.
Proof. induction l as [|[k hr] l IH]; simpl; [by right|]. case_decide; [by left|done]. Qed.

(** The aggregate is [Failed] when some host failed and [Success] otherwise,
    whatever the iteration order. *)
Lemma AggregateStatus_eq `{GoRange} nr :
  nr_Status (NodeResult_AggregateStatus nr) =
    if decide (map_Exists (λ _ hr, hr_Status hr = StatusFailed) (entries (nr_HostResults nr)))
    then StatusFailed else StatusSuccess.
Proof.
  unfold NodeResult_AggregateStatus, mlen. set (m := entries _).
  case_decide as Hsize; simpl.
  { apply map_size_empty_inv in Hsize as ->. case_decide as He; [|done].
    by apply map_Exists_empty in He. }
  assert (aggregate_loop (range 50 m) = StatusFailed ↔
    map_Exists (λ _ hr, hr_Status hr = StatusFailed) m) as Hiff.
  { rewrite aggregate_loop_failed. unfold map_Exists.
    by setoid_rewrite (elem_of_range 50 m). }
  case_decide as He; [by apply Hiff|].
  destruct (aggregate_loop_cases (range 50 m)) as [Hf|Hs]; [|done]. by apply Hiff in Hf.
Qed.
