(* ===== verification/GoPath.v ===== *)
(** The part of Go's [path/filepath] (on Unix) the code calls: [Base], [Clean],
    [Join], [Dir]. *)
From S2P Require Import Prelude.
From Stdlib Require Import Ascii.

(** [strings.Split(s, "/")] *)
Fixpoint split_slash (s : string) : list string :=
  match s with
  | "" => [""]
  | String c s =>
      if decide (c = "/"%char) then "" :: split_slash s
      else match split_slash s with
           | [] => [String c ""]
           | x :: l => String c x :: l
           end
  end.

Definition rooted (s : string) : bool :=
  match s with String c _ => bool_decide (c = "/"%char) | "" => false end.

(** One path element onto the reversed stack of elements kept so far. *)
Definition clean_push (root : bool) (stack : list string) (x : string) : list string :=
  if decide (x = "" ∨ x = ".") then stack
  else if decide (x = "..") then
    match stack with
    | [] => if root then [] else [".."]
    | top :: rest => if decide (top = "..") then ".." :: stack else rest
    end
  else x :: stack.

Definition clean_stack (root : bool) (xs : list string) : list string :=
  foldl (clean_push root) [] xs.

Definition clean_render (root : bool) (stack : list string) : string :=
  let body := String.concat "/" (reverse stack) in
  if root then "/" +:+ body else if decide (body = "") then "." else body.

(** [filepath.Base]: the last element that is not empty. *)
Definition filepath_Base (s : string) : string :=
  if decide (s = "") then "." else default "/" (last (filter (λ x, x ≠ "") (split_slash s))).

(** [filepath.Clean] *)
Definition filepath_Clean (s : string) : string :=
  clean_render (rooted s) (clean_stack (rooted s) (split_slash s)).

(** [filepath.Join]: leading empty elements are dropped, the rest is cleaned. *)
Fixpoint filepath_Join (elems : list string) : string :=
  match elems with
  | [] => ""
  | e :: rest => if decide (e = "") then filepath_Join rest
                 else filepath_Clean (String.concat "/" elems)
  end.

(** [filepath.Dir]: the cleaned text up to the last slash. *)
Fixpoint up_to_last_slash (s : string) : option string :=
  match s with
  | "" => None
  | String c s =>
      match up_to_last_slash s with
      | Some p => Some (String c p)
      | None => if decide (c = "/"%char) then Some "/" else None
      end
  end.

Definition filepath_Dir (s : string) : string := filepath_Clean (default "" (up_to_last_slash s)).

Example clean_1 : filepath_Clean "/a//b/../c/./d/" = "/a/c/d". Proof. reflexivity. Qed.
Example clean_2 : filepath_Clean "../../a" = "../../a". Proof. reflexivity. Qed.
Example clean_3 : filepath_Clean "/../a" = "/a". Proof. reflexivity. Qed.
Example clean_4 : filepath_Clean "a/.." = ".". Proof. reflexivity. Qed.
Example dir_1 : filepath_Dir "/a/b/c.json" = "/a/b". Proof. reflexivity. Qed.
Example dir_2 : filepath_Dir "c.json" = ".". Proof. reflexivity. Qed.
