(* ===== verification/GoText.v ===== *)
(** The part of Go's [strings], [strconv], [fmt], [time] and [path] the
    configuration code calls, on byte strings. *)
From S2P Require Import Prelude.
From Stdlib Require Import Ascii.

(** ** Bytes *)

Definition byte (c : ascii) : Z := Z.of_N (N_of_ascii c).

Definition byte_in (lo hi : ascii) (c : ascii) : bool := (byte lo <=? byte c)%Z && (byte c <=? byte hi)%Z.

Definition is_digit (c : ascii) : bool := byte_in "0" "9" c.

Definition newline : ascii := "010".

(** ** [strings] *)

(** [strings.Contains(s, sub)] *)
Fixpoint Contains (s sub : string) : bool :=
  String.prefix sub s || match s with "" => false | String _ s' => Contains s' sub end.

(** [strings.IndexByte(s, c) >= 0] *)
Fixpoint has_byte (c : ascii) (s : string) : bool :=
  match s with "" => false | String d s' => bool_decide (c = d) || has_byte c s' end.

(** The text before and after the first, and the last, occurrence of a byte. *)
Fixpoint cut_first (c : ascii) (s : string) : option (string * string) :=
  match s with
  | "" => None
  | String d s' =>
      if decide (c = d) then Some ("", s')
      else match cut_first c s' with Some (a, b) => Some (String d a, b) | None => None end
  end.

Fixpoint cut_last (c : ascii) (s : string) : option (string * string) :=
  match s with
  | "" => None
  | String d s' =>
      match cut_last c s' with
      | Some (a, b) => Some (String d a, b)
      | None => if decide (c = d) then Some ("", s') else None
      end
  end.

(** [strings.Split(s, c)] for a separator of one byte. *)
Fixpoint Split (c : ascii) (s : string) : list string :=
  match s with
  | "" => [""]
  | String d s' =>
      if decide (c = d) then "" :: Split c s'
      else match Split c s' with
           | [] => [String d ""]
           | x :: l => String d x :: l
           end
  end.

(** The white space of [unicode.IsSpace] in UTF-8: one, two or three bytes. *)
Definition space1 (c : ascii) : bool := byte_in "009" "013" c || bool_decide (c = " "%char).

Definition space2 (c1 c2 : ascii) : bool :=
  ((byte c1 =? 0xC2) && ((byte c2 =? 0x85) || (byte c2 =? 0xA0)))%Z.

Definition space3 (c1 c2 c3 : ascii) : bool :=
  let '(b1, b2, b3) := (byte c1, byte c2, byte c3) in
  (((b1 =? 0xE1) && (b2 =? 0x9A) && (b3 =? 0x80))
   || ((b1 =? 0xE2) && (b2 =? 0x80)
       && (((0x80 <=? b3) && (b3 <=? 0x8A)) || (b3 =? 0xA8) || (b3 =? 0xA9) || (b3 =? 0xAF)))
   || ((b1 =? 0xE2) && (b2 =? 0x81) && (b3 =? 0x9F))
   || ((b1 =? 0xE3) && (b2 =? 0x80) && (b3 =? 0x80)))%Z.

(** The text after a white space character at the head of a string. *)
Definition after_space (s : string) : option string :=
  match s with
  | String c1 s1 =>
      if space1 c1 then Some s1 else
      match s1 with
      | String c2 s2 =>
          if space2 c1 c2 then Some s2 else
          match s2 with
          | String c3 s3 => if space3 c1 c2 c3 then Some s3 else None
          | "" => None
          end
      | "" => None
      end
  | "" => None
  end.

(** [strings.TrimLeft] of white space: at most one rune per byte. *)
Fixpoint trim_left_n (n : nat) (s : string) : string :=
  match n with
  | 0 => s
  | S n => match after_space s with Some s' => trim_left_n n s' | None => s end
  end.

Definition trim_left (s : string) : string := trim_left_n (String.length s) s.

(** The longest prefix that white space alone does not follow: a white space
    character that starts a run reaching the end of the string is where it ends. *)
Fixpoint trim_right (s : string) : string :=
  if bool_decide (trim_left s = "") then "" else
  match s with "" => "" | String c s' => String c (trim_right s') end.

(** [strings.TrimSpace] *)
Definition TrimSpace (s : string) : string := trim_right (trim_left s).

Definition HasPrefix (s pre : string) : bool := String.prefix pre s.

(** [strings.TrimPrefix] *)
Definition TrimPrefix (s pre : string) : string :=
  if String.prefix pre s then String.substring (String.length pre) (String.length s - String.length pre) s
  else s.

Fixpoint last_byte (s : string) : option ascii :=
  match s with "" => None | String c "" => Some c | String _ s' => last_byte s' end.

(** [strings.TrimRight(s, c)] for a cutset of one byte. *)
Fixpoint TrimRight (c : ascii) (s : string) : string :=
  match s with
  | "" => ""
  | String d s' =>
      match TrimRight c s' with
      | "" => if decide (c = d) then "" else String d ""
      | t => String d t
      end
  end.

Definition to_lower (c : ascii) : ascii :=
  if byte_in "A" "Z" c then ascii_of_N (N_of_ascii c + 32) else c.

(** Case folding of a byte string against ASCII letters: besides the capitals,
    U+017F folds to [s] and U+212A to [k]. *)
Fixpoint fold_ascii (s : string) : string :=
  match s with
  | "" => ""
  | String c1 s1 =>
      match s1 with
      | "" => String (to_lower c1) ""
      | String c2 s2 =>
          if ((byte c1 =? 0xC5) && (byte c2 =? 0xBF))%Z then String "s" (fold_ascii s2) else
          match s2 with
          | String c3 s3 =>
              if ((byte c1 =? 0xE2) && (byte c2 =? 0x84) && (byte c3 =? 0xAA))%Z
              then String "k" (fold_ascii s3)
              else String (to_lower c1) (fold_ascii s1)
          | "" => String (to_lower c1) (fold_ascii s1)
          end
      end
  end.

(** [strings.EqualFold(s, t)] for a [t] in ASCII. *)
Definition EqualFold (s t : string) : bool := bool_decide (fold_ascii s = fold_ascii t).

(** [strings.Join] *)
Definition Join (l : list string) (sep : string) : string := String.concat sep l.

(** A slice that holds a string. *)
Definition slice_contains (l : list string) (s : string) : bool := bool_decide (s ∈ l).

(** ** [strconv] and [fmt] *)

Definition digit_value (c : ascii) : Z := (byte c - 48)%Z.

(** The longest prefix of digits, and what follows. *)
Fixpoint take_digits (s : string) : string * string :=
  match s with
  | "" => ("", "")
  | String c s' =>
      if is_digit c then let '(a, r) := take_digits s' in (String c a, r) else ("", s)
  end.

Fixpoint all_digits (s : string) : bool :=
  match s with "" => true | String c s' => is_digit c && all_digits s' end.

Fixpoint digits_value_from (acc : Z) (s : string) : Z :=
  match s with "" => acc | String c s' => digits_value_from (10 * acc + digit_value c) s' end.

(** The number a string of digits writes. *)
Definition digits_value (s : string) : Z := digits_value_from 0 s.

Definition max_int : Z := (2^63 - 1)%Z.
Definition min_int : Z := (- 2^63)%Z.

(** [strconv.Atoi] with 64-bit integers; [None] is its error. *)
Definition Atoi (s : string) : option Z :=
  let number (neg : bool) (ds : string) :=
    if bool_decide (ds = "") || negb (all_digits ds) then None else
    let v := if neg then (- digits_value ds)%Z else digits_value ds in
    if (min_int <=? v)%Z && (v <=? max_int)%Z then Some v else None in
  match s with
  | String "+" ds => number false ds
  | String "-" ds => number true ds
  | _ => number false s
  end.

(** [fmt.Sprintf("%d", i)] *)
Definition decimal (i : Z) : string := pretty i.

(** [fmt.Sprintf("%0wd", i)] for a width [w] and [0 <= i]: zeros on the left. *)
Fixpoint zeros (n : nat) : string := match n with 0 => "" | S n => String "0" (zeros n) end.

Definition padded (w : nat) (i : Z) : string :=
  let d := decimal i in zeros (w - String.length d) +:+ d.

(** The UTF-8 rune a [fmt] verb is, and the bytes after it; a malformed one is
    printed as U+FFFD. *)
Definition cont (lo hi : Z) (c : ascii) : bool := ((lo <=? byte c) && (byte c <=? hi))%Z.

Definition rune_error : string := String "239" (String "191" (String "189" "")).

Definition decode_rune (s : string) : string * string :=
  match s with
  | "" => ("", "")
  | String c1 s1 =>
      let b := byte c1 in
      let bad := (rune_error, s1) in
      if (b <? 0x80)%Z then (String c1 "", s1) else
      match s1 with
      | "" => bad
      | String c2 s2 =>
          let second := ((cont 0xA0 0xBF c2 && (b =? 0xE0)) || (cont 0x80 0x9F c2 && (b =? 0xED))
            || (cont 0x90 0xBF c2 && (b =? 0xF0)) || (cont 0x80 0x8F c2 && (b =? 0xF4))
            || (cont 0x80 0xBF c2 && negb ((b =? 0xE0) || (b =? 0xED) || (b =? 0xF0) || (b =? 0xF4))))%Z in
          if negb second then bad else
          if ((0xC2 <=? b) && (b <=? 0xDF))%Z then (String c1 (String c2 ""), s2) else
          match s2 with
          | "" => bad
          | String c3 s3 =>
              if negb (cont 0x80 0xBF c3) then bad else
              if ((0xE0 <=? b) && (b <=? 0xEF))%Z then (String c1 (String c2 (String c3 "")), s3) else
              match s3 with
              | "" => bad
              | String c4 s4 =>
                  if (cont 0x80 0xBF c4 && (0xF0 <=? b) && (b <=? 0xF4))%Z
                  then (String c1 (String c2 (String c3 (String c4 ""))), s4) else bad
              end
          end
      end
  end.

(** [fmt.Sprintf(format)] without operands: what is not a verb is copied, a verb
    is reported as missing its operand. *)
Fixpoint skip_flags (s : string) : string :=
  match s with
  | String c s' => if bool_decide (c ∈ ["#"; "0"; "+"; "-"; " "]%char) then skip_flags s' else s
  | "" => ""
  end.

(** [parsenum]: whether there is a number, and what follows; numbers beyond a
    million consume the rest. *)
Fixpoint parsenum_from (num : Z) (isnum : bool) (s : string) : bool * string :=
  match s with
  | String c s' =>
      if is_digit c then
        if (1000000 <? num)%Z then (false, "") else parsenum_from (10 * num + digit_value c) true s'
      else (isnum, s)
  | "" => (isnum, "")
  end.

Definition parsenum (s : string) : bool * string := parsenum_from 0 false s.

(** [argNumber] with no operands: the text after the index, whether the operands
    are still good, whether an index was found. *)
Definition arg_number (s : string) (good : bool) : string * bool * bool :=
  match s with
  | String "[" s1 =>
      match cut_first "]" s1 with
      | Some (inside, rest) =>
          let '(isnum, tail) := parsenum inside in
          (rest, false, isnum && bool_decide (tail = ""))
      | None => (s1, false, false)
      end
  | _ => (s, good, false)
  end.

(** One verb, after its [%]: what it prints, and the rest of the format unless it
    ended there. *)
Definition print_verb (s : string) : string * option string :=
  let '(s, good, after) := arg_number (skip_flags s) true in
  let '(out, s, good, after) :=
    match s with
    | String "*" s => ("%!(BADWIDTH)", s, good, false)
    | _ => let '(isnum, s) := parsenum s in ("", s, good && negb (after && isnum), after)
    end in
  let '(out, s, good, after) :=
    match s with
    | String "." s =>
        let '(s, good, after) := arg_number s (good && negb after) in
        match s with
        | String "*" s => (out +:+ "%!(BADPREC)", s, good, false)
        | _ => (out, (parsenum s).2, good, after)
        end
    | _ => (out, s, good, after)
    end in
  let '(s, good) := if after then (s, good) else (arg_number s good).1 in
  match s with
  | "" => (out +:+ "%!(NOVERB)", None)
  | String "%" s => (out +:+ "%", Some s)
  | _ =>
      let '(verb, s) := decode_rune s in
      (out +:+ "%!" +:+ verb +:+ (if good then "(MISSING)" else "(BADINDEX)"), Some s)
  end.

Fixpoint Sprintf0_n (n : nat) (s : string) : string :=
  match n, s with
  | S n, String "%" s' =>
      match print_verb s' with
      | (out, Some s'') => out +:+ Sprintf0_n n s''
      | (out, None) => out
      end
  | S n, String c s' => String c (Sprintf0_n n s')
  | _, _ => ""
  end.

Definition Sprintf0 (s : string) : string := Sprintf0_n (String.length s) s.

(** [time.Duration.String]: [fmtFrac] prints the fraction [v / 10^prec] without
    its trailing zeros, and gives the integer part. *)
Fixpoint fmtFrac (prec : nat) (acc : string) (v : Z) : string * Z :=
  match prec with
  | 0 => (if decide (acc = "") then "" else "." +:+ acc, v)
  | S prec =>
      let d := (v mod 10)%Z in
      fmtFrac prec (if bool_decide (acc = "") && (d =? 0)%Z then "" else decimal d +:+ acc) (v / 10)%Z
  end.

Definition micro : string := String "194" (String "181" "").

Definition Duration_String (d : Z) : string :=
  let u := Z.abs d in
  let body :=
    if (u <? 1000000000)%Z then
      let part prec unit := let '(f, n) := fmtFrac prec "" u in decimal n +:+ f +:+ unit in
      if (u =? 0)%Z then "0s"
      else if (u <? 1000)%Z then part 0 "ns"
      else if (u <? 1000000)%Z then part 3 (micro +:+ "s")
      else part 6 "ms"
    else
      let '(f, secs) := fmtFrac 9 "" u in
      let mins := (secs / 60)%Z in
      let hours := (mins / 60)%Z in
      (if (0 <? hours)%Z then decimal hours +:+ "h" else "")
      +:+ (if (0 <? mins)%Z then decimal (mins mod 60) +:+ "m" else "")
      +:+ decimal (secs mod 60) +:+ f +:+ "s" in
  if (d <? 0)%Z then "-" +:+ body else body.

Example contains_1 : Contains "spec.hosts[0]" ".hosts" = true. Proof. reflexivity. Qed.
Example contains_2 : Contains "spec/roleGroups.master" ".roleGroups" = false. Proof. reflexivity. Qed.
Example trim_1 : TrimSpace "  a b 	" = "a b". Proof. reflexivity. Qed.
Example trim_2 : TrimSpace (String "194" (String "160" "x")) = "x". Proof. reflexivity. Qed.
Example split_1 : Split "," "a,,b" = ["a"; ""; "b"]. Proof. reflexivity. Qed.
Example fold_1 : EqualFold "EXISTS" "exists" = true. Proof. reflexivity. Qed.
Example fold_2 : EqualFold (String "226" (String "132" (String "170" "ubexm_KH"))) "kubexm_kh" = true.
Proof. reflexivity. Qed.
Example atoi_1 : Atoi "-0042" = Some (-42)%Z. Proof. reflexivity. Qed.
Example atoi_2 : Atoi "9223372036854775808" = None. Proof. reflexivity. Qed.
Example padded_1 : padded 3 7 = "007". Proof. reflexivity. Qed.
Example sprintf_1 : Sprintf0 "50% done" = "50%!d(MISSING)one". Proof. reflexivity. Qed.
Example sprintf_2 : Sprintf0 "%%a%" = "%a%!(NOVERB)". Proof. reflexivity. Qed.
Example sprintf_3 : Sprintf0 "%[1]s%*d" = "%!s(BADINDEX)%!(BADWIDTH)%!d(MISSING)". Proof. reflexivity. Qed.
Example duration_1 : Duration_String (-90500000000) = "-1m30.5s". Proof. reflexivity. Qed.
Example duration_2 : Duration_String 1500 = "1.5" +:+ micro +:+ "s". Proof. reflexivity. Qed.

(** ** Lemmas on texts *)

Lemma str_app_cons c (s t : string) : String c s +:+ t = String c (s +:+ t).
Proof. done. Qed.

Lemma str_app_nil_l (s : string) : "" +:+ s = s.
Proof. done. Qed.

#[export] Hint Rewrite str_app_cons str_app_nil_l str_app_nil_r : kubexm.

Lemma str_app_assoc (s t u : string) : (s +:+ t) +:+ u = s +:+ (t +:+ u).
Proof. induction s as [|c s IH]; [done|]. rewrite !str_app_cons. by f_equal. Qed.

Lemma str_length_app (s t : string) : String.length (s +:+ t) = String.length s + String.length t.
Proof. induction s as [|c s IH]; [done|]. rewrite str_app_cons. simpl. by f_equal. Qed.

(** A text is determined by what precedes and what follows it. *)
Lemma str_app_inj_r (s s' t : string) : s +:+ t = s' +:+ t → s = s'.
Proof.
  revert s'. induction s as [|c s IH]; intros [|c' s'] Heq; [done|..].
  - apply (f_equal String.length) in Heq. rewrite !str_length_app in Heq. simpl in Heq. lia.
  - apply (f_equal String.length) in Heq. rewrite !str_length_app in Heq. simpl in Heq. lia.
  - rewrite !str_app_cons in Heq. injection Heq as -> Heq. f_equal. by apply IH.
Qed.

Lemma has_byte_app c (s t : string) : has_byte c (s +:+ t) = has_byte c s || has_byte c t.
Proof. induction s as [|d s IH]; [done|]. rewrite str_app_cons. simpl. by rewrite IH, orb_assoc. Qed.

Lemma all_digits_app (s t : string) : all_digits (s +:+ t) = all_digits s && all_digits t.
Proof. induction s as [|d s IH]; [done|]. rewrite str_app_cons. simpl. by rewrite IH, andb_assoc. Qed.

Lemma take_digits_sound s a r :
  take_digits s = (a, r) → s = a +:+ r ∧ all_digits a = true.
Proof.
  revert a. induction s as [|c s IH]; intros a; simpl; [by intros [= <- <-]|].
  destruct (is_digit c) eqn:Hc; [|by intros [= <- <-]].
  destruct (take_digits s) as [a' r'] eqn:Hs. intros [= <- <-].
  destruct (IH _ eq_refl) as [-> Ha]. simpl. by rewrite Hc, Ha.
Qed.

Lemma take_digits_app a r c s :
  all_digits a = true → r = String c s → is_digit c = false → take_digits (a +:+ r) = (a, r).
Proof.
  intros Ha -> Hc. induction a as [|d a IH]; simpl in Ha; [simpl; by rewrite Hc|].
  apply andb_true_iff in Ha as [Hd Ha]. rewrite str_app_cons. simpl. by rewrite Hd, IH.
Qed.

Lemma byte_nonneg c : (0 <= byte c)%Z.
Proof. unfold byte. lia. Qed.

Lemma is_digit_value c : is_digit c = true → (0 <= digit_value c < 10)%Z.
Proof.
  unfold is_digit, byte_in, digit_value. change (byte "0") with 48%Z. change (byte "9") with 57%Z. lia.
Qed.

Lemma digits_value_from_app acc s t :
  digits_value_from acc (s +:+ t) = digits_value_from (digits_value_from acc s) t.
Proof. revert acc. induction s as [|c s IH]; intros acc; [done|]. simpl. apply IH. Qed.

Lemma digits_value_from_ge acc s :
  all_digits s = true → (0 <= acc)%Z → (acc <= digits_value_from acc s)%Z.
Proof.
  revert acc. induction s as [|c s IH]; intros acc; simpl; [lia|].
  intros [Hc Hs]%andb_true_iff Hacc. pose proof (is_digit_value _ Hc).
  specialize (IH (10 * acc + digit_value c)%Z Hs). lia.
Qed.

Lemma digits_value_nonneg s : all_digits s = true → (0 <= digits_value s)%Z.
Proof. intros Hs. by apply digits_value_from_ge. Qed.

Lemma pretty_N_char_digit x : (x < 10)%N →
  is_digit (pretty_N_char x) = true ∧ digit_value (pretty_N_char x) = Z.of_N x.
Proof.
  intros Hx.
  assert (x = 0 ∨ x = 1 ∨ x = 2 ∨ x = 3 ∨ x = 4 ∨ x = 5 ∨ x = 6 ∨ x = 7 ∨ x = 8 ∨ x = 9)%N
    as Hcases by lia.
  by repeat destruct Hcases as [->|Hcases]; subst.
Qed.

Lemma pretty_N_go_spec x s :
  ∃ d, pretty_N_go x s = d +:+ s ∧ all_digits d = true ∧ digits_value d = Z.of_N x.
Proof.
  revert s. induction (N.lt_wf_0 x) as [x _ IH]; intros s.
  assert (x = 0 ∨ 0 < x)%N as [->|Hx] by lia; [by exists ""|].
  rewrite pretty_N_go_step by done.
  destruct (IH (x `div` 10)%N (N.div_lt x 10 Hx eq_refl) (String (pretty_N_char (x `mod` 10)) s))
    as (d & -> & Hd & Hval).
  assert (x `mod` 10 < 10)%N as Hmod by (by apply N.mod_lt).
  destruct (pretty_N_char_digit _ Hmod) as [Hdig Hdv].
  exists (d +:+ String (pretty_N_char (x `mod` 10)) ""). split; [|split].
  - by rewrite str_app_assoc.
  - rewrite all_digits_app, Hd. simpl. by rewrite Hdig.
  - unfold digits_value in *. rewrite digits_value_from_app, Hval. simpl. rewrite Hdv.
    pose proof (N.div_mod x 10). lia.
Qed.

(** Printing a number and reading it back. *)
Lemma decimal_digits i : (0 <= i)%Z → all_digits (decimal i) = true ∧ digits_value (decimal i) = i.
Proof.
  intros Hi. destruct i as [|p|p]; [done| |lia].
  unfold decimal, pretty, pretty_Z, pretty, pretty_positive, pretty, pretty_N. simpl.
  destruct (pretty_N_go_spec (N.pos p) "") as (d & Hd & Hdig & Hval). rewrite Hd, str_app_nil_r.
  split; [done|]. by rewrite Hval.
Qed.

Lemma zeros_digits n : all_digits (zeros n) = true ∧ digits_value (zeros n) = 0%Z.
Proof.
  induction n as [|n [IH1 IH2]]; [done|]. simpl. split; [by rewrite IH1|].
  unfold digits_value in *. simpl. exact IH2.
Qed.

Lemma padded_digits w i : (0 <= i)%Z → all_digits (padded w i) = true ∧ digits_value (padded w i) = i.
Proof.
  intros Hi. unfold padded. destruct (decimal_digits i Hi) as [Hd Hv].
  destruct (zeros_digits (w - String.length (decimal i))) as [Hz Hzv].
  split; [by rewrite all_digits_app, Hz, Hd|].
  unfold digits_value in *. by rewrite digits_value_from_app, Hzv.
Qed.

Lemma Atoi_digits s v :
  all_digits s = true → s ≠ "" → Atoi s = Some v ↔ v = digits_value s ∧ (v <= max_int)%Z.
Proof.
  intros Hs Hne. pose proof (digits_value_nonneg s Hs) as Hpos.
  assert (Atoi s = if (digits_value s <=? max_int)%Z then Some (digits_value s) else None) as ->.
  { unfold Atoi. destruct s as [|c s]; [done|].
    assert (is_digit c = true) as Hc by (simpl in Hs; by apply andb_true_iff in Hs as [? _]).
    assert (c ≠ "+"%char ∧ c ≠ "-"%char) as [Hplus Hminus] by (split; by intros ->).
    assert ((min_int <=? digits_value (String c s))%Z = true) as Hmin by (unfold min_int; lia).
    destruct c as [[] [] [] [] [] [] [] []]; try done; rewrite Hs, Hmin; done. }
  destruct (Z.leb_spec (digits_value s) max_int); naive_solver lia.
Qed.

(** [Sprintf] without operands copies a text without verbs. *)
Lemma Sprintf0_literal s : has_byte "%" s = false → Sprintf0 s = s.
Proof.
  unfold Sprintf0. induction s as [|c s IH]; [done|]. simpl.
  intros [Hc Hs]%orb_false_iff. apply bool_decide_eq_false in Hc.
  destruct c as [[] [] [] [] [] [] [] []]; simpl; try (f_equal; by apply IH); done.
Qed.

(** ** Lemmas on white space *)

(** A printing character of ASCII is no part of a white space character. *)
Definition graphic (c : ascii) : Prop := (33 <= byte c <= 126)%Z.

Lemma after_space_keeps c s s' : graphic c → after_space s = Some s' → has_byte c s' = has_byte c s.
Proof.
  intros Hc.
  assert (∀ d, (byte d < 33 ∨ 126 < byte d)%Z → bool_decide (c = d) = false) as Hne.
  { intros d Hd. apply bool_decide_false. intros ->. unfold graphic in Hc. lia. }
  destruct s as [|c1 s1]; [done|]. simpl. destruct (space1 c1) eqn:H1.
  { intros [= <-]. rewrite Hne; [done|]. unfold space1, byte_in in H1.
    apply orb_true_iff in H1 as [H1%andb_true_iff|H1%bool_decide_eq_true].
    - change (byte "013") with 13%Z in H1. lia.
    - subst. left. by compute. }
  destruct s1 as [|c2 s2]; [done|]. simpl. destruct (space2 c1 c2) eqn:H2.
  { intros [= <-]. unfold space2 in H2. rewrite !Hne by lia. done. }
  destruct s2 as [|c3 s3]; [done|]. destruct (space3 c1 c2 c3) eqn:H3; [|done].
  intros [= <-]. unfold space3 in H3. simpl. rewrite !Hne by lia. done.
Qed.

Lemma trim_left_n_keeps c n s : graphic c → has_byte c (trim_left_n n s) = has_byte c s.
Proof.
  intros Hc. revert s. induction n as [|n IH]; intros s; simpl; [done|].
  destruct (after_space s) as [s'|] eqn:Hs; [|done]. rewrite IH. by apply after_space_keeps.
Qed.

Lemma graphic_not_blank c s : graphic c → has_byte c s = true → TrimSpace s ≠ "".
Proof.
  intros Hc Hs.
  assert (∀ t, has_byte c t = true → has_byte c (trim_left t) = true) as Hl.
  { intros t Ht. unfold trim_left. by rewrite trim_left_n_keeps. }
  assert (∀ t, has_byte c t = true → t ≠ "") as Hnil by (by intros t ? ->).
  unfold TrimSpace. apply Hl in Hs. destruct (trim_left s) as [|d t] eqn:Ht; [done|]. cbn [trim_right].
  rewrite bool_decide_false; [done|]. apply Hnil, Hl. done.
Qed.

(** ** Splitting at a byte *)

Lemma Split_none c s : has_byte c s = false → Split c s = [s].
Proof.
  induction s as [|d s IH]; simpl; [done|]. intros [Hd Hs]%orb_false_iff.
  apply bool_decide_eq_false in Hd. rewrite decide_False by done. by rewrite IH.
Qed.

Lemma Split_app c x y : has_byte c x = false → Split c (x +:+ String c y) = x :: Split c y.
Proof.
  induction x as [|d x IH]; [intros _; rewrite str_app_nil_l; simpl; by rewrite decide_True|].
  simpl. intros [Hd Hx]%orb_false_iff. apply bool_decide_eq_false in Hd.
  rewrite decide_False by done. by rewrite IH.
Qed.

(** The pieces of a text have no separator, and their concatenation is the text. *)
Lemma Split_cons c s : ∃ x rest, Split c s = x :: rest ∧ has_byte c x = false
  ∧ (rest = [] ∧ s = x ∨ ∃ s', s = x +:+ String c s' ∧ rest = Split c s').
Proof.
  induction s as [|d s IH]; simpl; [by exists "", []; auto|].
  destruct (decide (c = d)) as [->|Hne].
  - exists "", (Split d s). split_and!; [done..|]. right. by exists s.
  - destruct IH as (x & rest & -> & Hx & Hs). exists (String d x), rest.
    split_and!; [done|simpl; by rewrite bool_decide_false, Hx|].
    destruct Hs as [[-> ->]|(s' & -> & ->)]; [by left|right; by exists s'].
Qed.

(** Words of printing characters are not trimmed. *)
Fixpoint all_graphic (s : string) : Prop :=
  match s with "" => True | String c s => graphic c ∧ all_graphic s end.

Lemma graphic_no_space c s : graphic c → after_space (String c s) = None.
Proof.
  unfold graphic. intros Hc. simpl. assert (∀ d, (byte d < 33 ∨ 126 < byte d)%Z → c ≠ d) as Hne.
  { intros d Hd ->. lia. }
  assert (space1 c = false) as ->.
  { unfold space1, byte_in. rewrite bool_decide_false by (apply Hne; left; by compute).
    change (byte "013") with 13%Z. change (byte "009") with 9%Z. lia. }
  destruct s as [|c2 s]; [done|]. assert (space2 c c2 = false) as ->.
  { unfold space2. by rewrite (proj2 (Z.eqb_neq (byte c) _)) by lia. }
  destruct s as [|c3 s]; [done|]. assert (space3 c c2 c3 = false) as ->; [|done].
  unfold space3. by rewrite !(proj2 (Z.eqb_neq (byte c) _)) by lia.
Qed.

Lemma TrimSpace_graphic s : all_graphic s → TrimSpace s = s.
Proof.
  assert (∀ s, all_graphic s → trim_left s = s) as Hleft.
  { intros [|c t]; [done|]. intros [Hc _]. unfold trim_left. simpl String.length. cbn [trim_left_n].
    by rewrite graphic_no_space. }
  intros Hs. unfold TrimSpace. rewrite Hleft by done. induction s as [|c s IH]; [done|]. cbn [trim_right].
  rewrite Hleft, bool_decide_false by done. f_equal. apply IH, Hs.
Qed.

Lemma all_graphic_app s t : all_graphic (s +:+ t) ↔ all_graphic s ∧ all_graphic t.
Proof. induction s as [|c s IH]; [rewrite str_app_nil_l; simpl; tauto|]. rewrite str_app_cons. simpl. tauto. Qed.

Lemma digits_graphic s : all_digits s = true → all_graphic s.
Proof.
  induction s as [|c s IH]; [done|]. simpl. intros [Hc Hs]%andb_true_iff. split; [|by apply IH].
  unfold is_digit, byte_in in Hc. unfold graphic. change (byte "0") with 48%Z in Hc. change (byte "9") with 57%Z in Hc. lia.
Qed.

Lemma digits_no_byte c s : is_digit c = false → all_digits s = true → has_byte c s = false.
Proof.
  intros Hc. induction s as [|d s IH]; [done|]. simpl. intros [Hd Hs]%andb_true_iff. rewrite IH by done.
  rewrite bool_decide_false; [done|]. intros ->. congruence.
Qed.

Lemma Contains_byte s c : Contains s (String c "") = has_byte c s.
Proof.
  induction s as [|d s IH]; [done|]. cbn [Contains has_byte]. rewrite IH. f_equal. simpl.
  destruct (ascii_dec c d) as [->|Hne]; [by rewrite bool_decide_true; destruct s|by rewrite bool_decide_false].
Qed.

Lemma decimal_positive i : (0 < i)%Z → decimal i ≠ "".
Proof. intros Hi He. destruct (decimal_digits i) as [_ Hv]; [lia|]. rewrite He in Hv. unfold digits_value in Hv. simpl in Hv. lia. Qed.

Lemma Atoi_decimal i : (0 < i)%Z → (i <= max_int)%Z → Atoi (decimal i) = Some i.
Proof.
  intros Hi Hm. destruct (decimal_digits i) as [Hd Hv]; [lia|]. apply Atoi_digits; [done|by apply decimal_positive|].
  by rewrite Hv.
Qed.
