(* ===== verification/GoNet.v ===== *)
(** The part of Go's [net] the configuration code calls: textual addresses and
    their classes, [host:port] pairs. *)
From S2P Require Import Prelude.
From S2P Require Import GoText.
From Stdlib Require Import Ascii.

(** [net.IP]: the bytes of an address, four or sixteen of them. *)
Abbreviation IP := (list Z).

Definition v4_prefix : IP := replicate 10 0%Z ++ [0xFF; 0xFF]%Z.

(** [ip.To4()] *)
Definition To4 (ip : IP) : option IP :=
  if decide (length ip = 4) then Some ip
  else if decide (length ip = 16 ∧ take 12 ip = v4_prefix) then Some (drop 12 ip)
  else None.

(** ** Parsing *)

(** A field of a dotted address: digits without a leading zero, at most 255. *)
Definition ipv4_field (s : string) : option Z :=
  if bool_decide (s = "") || negb (all_digits s)
     || (String.prefix "0" s && negb (bool_decide (s = "0")))
     || (255 <? digits_value s)%Z
  then None else Some (digits_value s).

Definition parseIPv4 (s : string) : option IP :=
  match mapM ipv4_field (Split "." s) with
  | Some [a; b; c; d] => Some [a; b; c; d]
  | _ => None
  end.

Definition hex_value (c : ascii) : option Z :=
  if is_digit c then Some (digit_value c)
  else if byte_in "a" "f" c then Some (byte c - 87)%Z
  else if byte_in "A" "F" c then Some (byte c - 55)%Z
  else None.

(** A group of hexadecimal digits: its value, its length and what follows. *)
Fixpoint hex_group (acc : Z) (off : nat) (s : string) : Z * nat * string :=
  match s with
  | String c s' =>
      match hex_value c with
      | Some v => hex_group (16 * acc + v) (S off) s'
      | None => (acc, off, s)
      end
  | "" => (acc, off, "")
  end.

(** The loop of [netip.parseIPv6]: [n] groups are still free, [ip] is read so far,
    [ellipsis] where a [::] stood.  The result is the bytes read, the ellipsis
    and the text left. *)
Fixpoint ipv6_loop (n : nat) (ip : IP) (ellipsis : option nat) (s : string)
    : option (IP * option nat * string) :=
  match n with
  | 0 => Some (ip, ellipsis, s)
  | S n =>
      let '(v, off, s') := hex_group 0 0 s in
      if (off =? 0)%nat || (4 <? off)%nat then None else
      match s' with
      | String "." _ =>
          if bool_decide (ellipsis = None) && negb (length ip =? 12)%nat then None
          else if (16 <? length ip + 4)%nat then None
          else match parseIPv4 s with
               | Some v4 => Some (ip ++ v4, ellipsis, "")
               | None => None
               end
      | _ =>
          let ip := ip ++ [v / 256; v mod 256]%Z in
          match s' with
          | "" => Some (ip, ellipsis, "")
          | String ":" "" => None
          | String ":" (String ":" s'') =>
              if bool_decide (is_Some ellipsis) then None
              else if decide (s'' = "") then Some (ip, Some (length ip), "")
              else ipv6_loop n ip (Some (length ip)) s''
          | String ":" s'' => ipv6_loop n ip ellipsis s''
          | _ => None
          end
      end
  end.

Definition parseIPv6 (s : string) : option IP :=
  let start :=
    if String.prefix "::" s then
      let rest := String.substring 2 (String.length s - 2) s in
      if decide (rest = "") then Some ([], Some 0, "") else ipv6_loop 8 [] (Some 0) rest
    else ipv6_loop 8 [] None s in
  match start with
  | Some (ip, ellipsis, "") =>
      if (length ip <? 16)%nat then
        match ellipsis with
        | None => None
        | Some e => Some (take e ip ++ replicate (16 - length ip) 0%Z ++ drop e ip)
        end
      else if bool_decide (is_Some ellipsis) then None else Some ip
  | _ => None
  end.

(** Which of [.], [:] and [%] comes first decides the kind of address. *)
Fixpoint first_mark (s : string) : option ascii :=
  match s with
  | "" => None
  | String c s' => if decide (c ∈ ["."; ":"; "%"]%char) then Some c else first_mark s'
  end.

(** [net.ParseIP]: an address with a zone is none. *)
Definition ParseIP (s : string) : option IP :=
  match first_mark s with
  | Some "."%char => match parseIPv4 s with Some v4 => Some (v4_prefix ++ v4) | None => None end
  | Some ":"%char => if has_byte "%" s then None else parseIPv6 s
  | _ => None
  end.

(** ** Classes of addresses *)

Definition first_byte (ip : IP) : Z := default 0%Z (ip !! 0).
Definition second_byte (ip : IP) : Z := default 0%Z (ip !! 1).

Definition IPv6loopback : IP := replicate 15 0%Z ++ [1%Z].

Definition IsLoopback (ip : IP) : bool :=
  match To4 ip with
  | Some v4 => (first_byte v4 =? 127)%Z
  | None => bool_decide (ip = IPv6loopback)
  end.

Definition IsUnspecified (ip : IP) : bool :=
  bool_decide (To4 ip = Some (replicate 4 0%Z)) || bool_decide (ip = replicate 16 0%Z).

Definition IsMulticast (ip : IP) : bool :=
  match To4 ip with
  | Some v4 => (Z.land (first_byte v4) 0xF0 =? 0xE0)%Z
  | None => (length ip =? 16)%nat && (first_byte ip =? 0xFF)%Z
  end.

Definition IsLinkLocalUnicast (ip : IP) : bool :=
  match To4 ip with
  | Some v4 => ((first_byte v4 =? 169) && (second_byte v4 =? 254))%Z
  | None => (length ip =? 16)%nat && ((first_byte ip =? 0xFE) && (Z.land (second_byte ip) 0xC0 =? 0x80))%Z
  end.

(** [ip.String()] of four bytes. *)
Definition ipv4_String (ip : IP) : string := Join (decimal <$> ip) ".".

(** ** Host and port *)

Inductive AddrError : Type :=
| MissingPort
| TooManyColons
| MissingBracket
| UnexpectedOpen
| UnexpectedClose.

(** [net.SplitHostPort] *)
Definition SplitHostPort (hostport : string) : outcome AddrError (string * string) :=
  match cut_last ":" hostport with
  | None => Err MissingPort
  | Some (before, port) =>
      match hostport with
      | String "[" rest =>
          match cut_first "]" rest with
          | None => Err MissingBracket
          | Some (host, after) =>
              if decide (after = "") then Err MissingPort
              else if decide (before = "[" +:+ host +:+ "]") then
                if has_byte "[" rest then Err UnexpectedOpen
                else if has_byte "]" after then Err UnexpectedClose
                else Ok (host, port)
              else if String.prefix ":" after then Err TooManyColons
              else Err MissingPort
          end
      | _ =>
          if has_byte ":" before then Err TooManyColons
          else if has_byte "[" hostport then Err UnexpectedOpen
          else if has_byte "]" hostport then Err UnexpectedClose
          else Ok (before, port)
      end
  end.

Example ip_1 : ParseIP "10.0.0.255" = Some (v4_prefix ++ [10; 0; 0; 255]%Z). Proof. reflexivity. Qed.
Example ip_2 : ParseIP "10.0.0.256" = None. Proof. reflexivity. Qed.
Example ip_3 : ParseIP "010.0.0.1" = None. Proof. reflexivity. Qed.
Example ip_4 : ParseIP "::1" = Some IPv6loopback. Proof. reflexivity. Qed.
Example ip_5 : ParseIP "fe80::1:2" = Some ([0xFE; 0x80]%Z ++ replicate 10 0%Z ++ [0; 1; 0; 2]%Z).
Proof. reflexivity. Qed.
Example ip_6 : ParseIP "::ffff:1.2.3.4" = ParseIP "1.2.3.4". Proof. reflexivity. Qed.
Example ip_7 : ParseIP "fe80::1%eth0" = None. Proof. reflexivity. Qed.
Example ip_8 : ParseIP "1::2::3" = None. Proof. reflexivity. Qed.
Example ip_9 : ParseIP "1:2:3:4:5:6:7:8" = Some [0;1;0;2;0;3;0;4;0;5;0;6;0;7;0;8]%Z. Proof. reflexivity. Qed.
Example ip_10 : ParseIP "1:2:3:4:5:6:7::8" = None. Proof. reflexivity. Qed.
Example hp_1 : SplitHostPort "a:80" = Ok ("a", "80"). Proof. reflexivity. Qed.
Example hp_2 : SplitHostPort "[::1]:80" = Ok ("::1", "80"). Proof. reflexivity. Qed.
Example hp_3 : SplitHostPort "::1" = Err TooManyColons. Proof. reflexivity. Qed.
Example hp_4 : SplitHostPort "a" = Err MissingPort. Proof. reflexivity. Qed.
Example hp_5 : SplitHostPort "[::1]" = Err MissingPort. Proof. reflexivity. Qed.
