(* ===== verification/Sha256.v ===== *)
(** SHA-256 ([crypto/sha256]) on lists of bytes, and [%x] of [fmt], which the pool
    keys of the connector use. *)
From S2P Require Import Prelude.
From S2P Require Import GoText.
From Stdlib Require Import Ascii.
Local Open Scope Z_scope.

(** ** Words of 32 bits *)

Definition w32 (z : Z) : Z := z mod 2^32.
Definition rotr (n x : Z) : Z := Z.lor (Z.shiftr x n) (w32 (Z.shiftl x (32 - n))).
Definition xor3 (x y z : Z) : Z := Z.lxor x (Z.lxor y z).

(** ** Constants: digits of roots of the first primes *)

Definition is_prime (n : Z) : bool :=
  forallb (λ d, negb (n mod d =? 0)) (seqZ 2 (Z.sqrt n - 1)).

Definition primes : list Z := filter (λ n, is_prime n = true) (seqZ 2 310).

(** The integer cube root of [n], its bits found from the highest down. *)
Fixpoint cbrt_bits (bits : nat) (acc n : Z) : Z :=
  match bits with
  | O => acc
  | S b => let acc' := acc + 2 ^ Z.of_nat b in
           cbrt_bits b (if acc' ^ 3 <=? n then acc' else acc) n
  end.

Definition K : list Z := Eval vm_compute in (λ p, w32 (cbrt_bits 36 0 (p * 2^96))) <$> take 64 primes.
Definition init_hash : list Z := Eval vm_compute in (λ p, w32 (Z.sqrt (p * 2^64))) <$> take 8 primes.

(** ** Blocks *)

Definition nth_word (l : list Z) (i : nat) : Z := default 0 (l !! i).

(** Four bytes, the most significant first, and back. *)
Definition word_of (l : list Z) : Z := fold_left (λ acc b, acc * 256 + b) l 0.

Definition bytes_of (n : nat) (z : Z) : list Z :=
  (λ i, Z.shiftr z (8 * Z.of_nat i) mod 256) <$> reverse (seq 0 n).

Fixpoint chunks (n fuel : nat) (l : list Z) : list (list Z) :=
  match fuel, l with
  | S fuel, _ :: _ => take n l :: chunks n fuel (drop n l)
  | _, _ => []
  end.

(** A one bit, zeros up to 56 modulo 64 bytes, the length in bits. *)
Definition pad (msg : list Z) : list Z :=
  let n := Z.of_nat (length msg) in
  msg ++ 128 :: replicate (Z.to_nat ((55 - n) mod 64)) 0 ++ bytes_of 8 (8 * n).

(** The 64 words of the message schedule. *)
Fixpoint extend (n : nat) (w : list Z) : list Z :=
  match n with
  | O => w
  | S n =>
      let i := length w in
      let w15 := nth_word w (i - 15) in let w2 := nth_word w (i - 2) in
      let s0 := xor3 (rotr 7 w15) (rotr 18 w15) (Z.shiftr w15 3) in
      let s1 := xor3 (rotr 17 w2) (rotr 19 w2) (Z.shiftr w2 10) in
      extend n (w ++ [w32 (nth_word w (i - 16) + s0 + nth_word w (i - 7) + s1)])
  end.

Definition schedule (block : list Z) : list Z := extend 48 (word_of <$> chunks 4 16 block).

Definition round (st : list Z) (kw : Z * Z) : list Z :=
  match st with
  | [a; b; c; d; e; f; g; h] =>
      let S1 := xor3 (rotr 6 e) (rotr 11 e) (rotr 25 e) in
      let ch := Z.lxor (Z.land e f) (Z.land (2^32 - 1 - e) g) in
      let t1 := h + S1 + ch + kw.1 + kw.2 in
      let S0 := xor3 (rotr 2 a) (rotr 13 a) (rotr 22 a) in
      let maj := xor3 (Z.land a b) (Z.land a c) (Z.land b c) in
      [w32 (t1 + S0 + maj); a; b; c; w32 (d + t1); e; f; g]
  | _ => st
  end.

Definition compress (st block : list Z) : list Z :=
  zip_with (λ x y, w32 (x + y)) st (fold_left round (zip K (schedule block)) st).

Definition sha256_bytes (msg : list Z) : list Z :=
  let blocks := chunks 64 (length msg + 10) (pad msg) in
  mjoin (bytes_of 4 <$> fold_left compress blocks init_hash).

(** ** [fmt.Sprintf("%x", bytes)] *)

Definition hex_digit (z : Z) : ascii :=
  ascii_of_N (Z.to_N (if z <? 10 then 48 + z else 87 + z)).

Fixpoint hex (l : list Z) : string :=
  match l with
  | [] => ""
  | b :: l => String (hex_digit (b / 16)) (String (hex_digit (b mod 16)) (hex l))
  end.

(** The bytes of a string. *)
Fixpoint bytes (s : string) : list Z :=
  match s with "" => [] | String c s => byte c :: bytes s end.

Definition Sum256 (data : string) : string := hex (sha256_bytes (bytes data)).
