(* ===== verification/SshDial.v ===== *)
(** Dialing SSH connections: [dialSSH], [dialViaBastion] and [buildAuthMethods] of
    [connector/ssh.go], over the functions of the SSH library. *)
From S2P Require Import Prelude.
From S2P Require Import GoText.
From Stdlib Require Import Ascii.
Local Open Scope Z_scope.

(** ** Configuration *)

(** A [ssh.HostKeyCallback], which no code here calls, by its name. *)
Definition HostKeyCallback : Type := option string.

Definition InsecureIgnoreHostKey : HostKeyCallback := Some "InsecureIgnoreHostKey".

Record BastionCfg : Type := MkBastion {
  Bastion_Host : string;
  Bastion_Port : Z;
  Bastion_User : string;
  Bastion_Password : string;
  Bastion_PrivateKey : list Z;
  Bastion_PrivateKeyPath : string;
  Bastion_Timeout : Z;
  Bastion_HostKeyCallback : HostKeyCallback;
}.

(** Without [ProxyCfg], which no code reads. *)
Record ConnectionCfg : Type := MkCfg {
  Cfg_Host : string;
  Cfg_Port : Z;
  Cfg_User : string;
  Cfg_Password : string;
  Cfg_PrivateKey : list Z;
  Cfg_PrivateKeyPath : string;
  Cfg_Timeout : Z;
  Cfg_Bastion : option BastionCfg;
  Cfg_HostKeyCallback : HostKeyCallback;
}.

(** ** The SSH library *)

Inductive AuthMethod : Type :=
| PasswordAuth (password : string)
| PublicKeys (signer : list Z).

Record ClientConfig : Type := MkClientConfig {
  cc_User : string;
  cc_Auth : list AuthMethod;
  cc_HostKeyCallback : HostKeyCallback;
  cc_Timeout : Z;
}.

(** What the world answers at its [n]-th observation: the clock, and whether an
    operation of the SSH library fails ([Some] error text). *)
Class Ssh := {
  now : nat → Z;
  ReadFile : nat → string → string + list Z;
  ParsePrivateKey : list Z → string + list Z;
  Dial : nat → string → ClientConfig → option string;
  DialThrough : nat → nat → string → option string;
  NewClientConn : nat → nat → string → ClientConfig → option string;
  KeepAlive : nat → nat → bool;
  CloseError : nat → nat → option string;
  SftpCloseError : nat → nat → option string;
}.

(** The observations made, the connections open, the next one's identity. *)
Record net : Type := MkNet { ticks : nat; opened : gset nat; next_conn : nat }.

Definition tick {E} : M net E nat := λ w, (Ok (ticks w), MkNet (S (ticks w)) (opened w) (next_conn w)).

(** A connection is opened. *)
Definition open_conn {E} : M net E nat := λ w,
  (Ok (next_conn w), MkNet (ticks w) (opened w ∪ {[next_conn w]}) (S (next_conn w))).

Definition drop_conn {E} (c : nat) : M net E unit := λ w,
  (Ok tt, MkNet (ticks w) (opened w ∖ {[c]}) (next_conn w)).

Definition or_fail {S E E' A} (f : E' → E) (e : option E') (m : M S E A) : M S E A :=
  match e with Some e => fail (f e) | None => m end.

Inductive conn_error : Type :=
| KeyUnparsed (err : string)
| KeyUnread (path err : string)
| KeyFileUnparsed (path err : string)
| NoAuthMethod (host : string)
| TargetAuthError (host : string) (err : conn_error)
| DirectDialFailed (host err : string)
| BastionAuthError (host : string) (err : conn_error)
| BastionDialFailed (host err : string)
| DialViaBastionFailed (addr err : string)
| HandshakeFailed (addr err : string)
| PoolExhausted (key : string) (max active : Z).

Global Instance conn_error_eq_dec : EqDecision conn_error.
Proof. solve_decision. Defined.

(** [net.JoinHostPort] *)
Definition JoinHostPort (host : string) (port : Z) : string :=
  (if has_byte ":"%char host || has_byte "%"%char host then "[" +:+ host +:+ "]" else host) +:+ ":" +:+ decimal port.

Section dial.
Context `{Ssh}.
Local Abbreviation N := (M net conn_error).

Definition time_Now {E} : M net E Z := tick ≫= λ t, mret (now t).

(** [client.Close()], with the error it returns. *)
Definition close_conn {E} (c : nat) : M net E (option string) :=
  t ← tick ; drop_conn c ;; mret (CloseError t c).

(** A keep-alive request, which fails on a closed connection. *)
Definition keepalive {E} (c : nat) : M net E bool :=
  t ← tick ; w ← get ; mret (bool_decide (c ∈ opened w) && KeepAlive t c).

(** ** Authentication *)

Definition signer_of (f : string → conn_error) (key : list Z) : N (list AuthMethod) :=
  match ParsePrivateKey key with
  | inl e => fail (f e)
  | inr signer => mret [PublicKeys signer]
  end.

Definition buildAuthMethods (cfg : ConnectionCfg) : N (list AuthMethod) :=
  let path := Cfg_PrivateKeyPath cfg in
  keys ← (if decide (Cfg_PrivateKey cfg ≠ []) then signer_of KeyUnparsed (Cfg_PrivateKey cfg)
          else if decide (path ≠ "") then
            t ← tick ;
            match ReadFile t path with
            | inl e => fail (KeyUnread path e)
            | inr key => signer_of (KeyFileUnparsed path) key
            end
          else mret []) ;
  let methods := (if decide (Cfg_Password cfg ≠ "") then [PasswordAuth (Cfg_Password cfg)] else []) ++ keys in
  if decide (methods = []) then fail (NoAuthMethod (Cfg_Host cfg)) else mret methods.

(** The first timeout that is set. *)
Definition effective_timeout (param own : Z) : Z :=
  if decide (param ≠ 0) then param else if decide (own ≠ 0) then own else 30 * 10^9.

Definition client_config (cfg : ConnectionCfg) (auth : list AuthMethod) (timeout : Z) : ClientConfig :=
  MkClientConfig (Cfg_User cfg) auth
    (match Cfg_HostKeyCallback cfg with None => InsecureIgnoreHostKey | Some f => Some f end) timeout.

(** [ssh.Dial] *)
Definition ssh_Dial (f : string → conn_error) (addr : string) (cc : ClientConfig) : N nat :=
  t ← tick ; or_fail f (Dial t addr cc) open_conn.

(** Run [m]; when it fails, close [c] before the error is returned. *)
Definition closing_on_error {A} (c : nat) (m : N A) : N A := λ w,
  match m w with
  | (Err e, w) => match close_conn (E:=conn_error) c w with (_, w) => (Err e, w) end
  | r => r
  end.

Definition dialViaBastion (addr : string) (target : ClientConfig) (cfg : ConnectionCfg) (timeout : Z)
    : N (option nat * option nat) :=
  let host := Cfg_Host cfg in
  auth ← wrap (BastionAuthError host) (buildAuthMethods cfg) ;
  b ← ssh_Dial (BastionDialFailed host) (JoinHostPort host (Cfg_Port cfg))
        (client_config cfg auth (effective_timeout timeout (Cfg_Timeout cfg))) ;
  c ← closing_on_error b (t ← tick ; or_fail (DialViaBastionFailed addr) (DialThrough t b addr) open_conn) ;
  closing_on_error b (closing_on_error c
    (t ← tick ; or_fail (HandshakeFailed addr) (NewClientConn t c addr target) (mret tt))) ;;
  mret (Some c, Some b).

(** The bastion as a host of its own. *)
Definition bastion_cfg (b : BastionCfg) : ConnectionCfg :=
  MkCfg (Bastion_Host b) (Bastion_Port b) (Bastion_User b) (Bastion_Password b) (Bastion_PrivateKey b)
    (Bastion_PrivateKeyPath b) (Bastion_Timeout b) None (Bastion_HostKeyCallback b).

(** The client and, when there is a bastion, the client of the bastion. *)
Definition dialSSH (cfg : ConnectionCfg) (connectTimeout : Z) : N (option nat * option nat) :=
  let host := Cfg_Host cfg in
  auth ← wrap (TargetAuthError host) (buildAuthMethods cfg) ;
  let timeout := effective_timeout connectTimeout (Cfg_Timeout cfg) in
  let target := client_config cfg auth timeout in
  let addr := JoinHostPort host (Cfg_Port cfg) in
  match Cfg_Bastion cfg with
  | Some b => dialViaBastion addr target (bastion_cfg b) timeout
  | None => c ← ssh_Dial (DirectDialFailed host) addr target ; mret (Some c, None)
  end.
End dial.

(** ** What a dialer promises *)

(** A dialer reports errors without leaving anything open, and opens just the
    connections it returns, which are new. *)
Class Dialer := {
  dial : ConnectionCfg → Z → M net conn_error (option nat * option nat);
}.

Definition clients (p : option nat * option nat) : gset nat :=
  (match p.1 with Some c => {[c]} | None => ∅ end) ∪ (match p.2 with Some c => {[c]} | None => ∅ end).

Definition below (w : net) : Prop := ∀ c, c ∈ opened w → (c < next_conn w)%nat.

Definition dialed (w w' : net) (r : outcome conn_error (option nat * option nat)) : Prop :=
  (next_conn w ≤ next_conn w')%nat ∧
  match r with
  | Panic => False
  | Err _ => opened w' = opened w
  | Ok p => opened w' = opened w ∪ clients p ∧ p.1 ≠ None ∧ (∀ b, p.2 = Some b → p.1 ≠ Some b)
            ∧ ∀ c, c ∈ clients p → (next_conn w ≤ c < next_conn w')%nat
  end.

Class DialerLaws `(D : Dialer) := {
  dial_spec : ∀ cfg t w r w', below w → dial cfg t w = (r, w') → dialed w w' r;
}.

(** ** [dialSSH] keeps the promise *)

Section dial_laws.
Context `{Ssh}.
Local Abbreviation N := (M net conn_error).

(** [m] changes nothing but the number of observations. *)
Definition observes {E A} (m : M net E A) : Prop := ∀ w,
  (m w).1 ≠ Panic ∧ opened (m w).2 = opened w ∧ next_conn (m w).2 = next_conn w.

Lemma observes_ret {E A} (a : A) : observes (E:=E) (mret a).
Proof. done. Qed.

Lemma observes_fail {E A} (e : E) : observes (A:=A) (fail e).
Proof. done. Qed.

Lemma observes_tick {E} : observes (E:=E) tick.
Proof. done. Qed.

Lemma observes_bind {E A B} (m : M net E A) (f : A → M net E B) :
  observes m → (∀ a, observes (f a)) → observes (m ≫= f).
Proof.
  intros Hm Hf w. specialize (Hm w). unfold mbind, M_bind. destruct (m w) as [[a|e|] w1]; simpl in *;
    destruct Hm as (Hp & <- & <-); [apply Hf|done..].
Qed.

Lemma observes_wrap {E E' A} (f : E → E') (m : M net E A) : observes m → observes (wrap f m).
Proof. intros Hm w. specialize (Hm w). unfold wrap. destruct (m w) as [[] ?]; simpl in *; naive_solver. Qed.

Lemma observes_or_fail {E E' A} (f : E' → E) e (m : M net E A) : observes m → observes (or_fail f e m).
Proof. by destruct e. Qed.

Lemma observes_signer f key : observes (signer_of f key).
Proof. unfold signer_of. by destruct (ParsePrivateKey key). Qed.

Lemma observes_auth cfg : observes (buildAuthMethods cfg).
Proof.
  apply observes_bind; [|intros keys; cbn zeta; case_decide; [apply observes_fail|apply observes_ret]].
  case_decide; [apply observes_signer|]. case_decide; [|done].
  apply observes_bind; [done|]. intros t. destruct (ReadFile _ _); [done|apply observes_signer].
Qed.

Lemma run_observing {E A B} (m : M net E A) (f : A → M net E B) w r w' :
  observes m → (m ≫= f) w = (r, w') →
  (∃ e, r = Err e ∧ opened w' = opened w ∧ next_conn w' = next_conn w)
  ∨ ∃ a w1, m w = (Ok a, w1) ∧ opened w1 = opened w ∧ next_conn w1 = next_conn w ∧ f a w1 = (r, w').
Proof.
  intros Hm Hr. specialize (Hm w). unfold mbind, M_bind in Hr.
  destruct (m w) as [[a|e|] w1]; simplify_eq/=; destruct Hm as (Hp & Ho & Hn);
    [right; eauto 10|left; eauto 10|done].
Qed.

(** Opening a connection: it fails and opens nothing, or opens the next one. *)
Lemma ssh_Dial_cases f addr cc w r w' :
  ssh_Dial f addr cc w = (r, w') →
  (∃ e, r = Err e ∧ opened w' = opened w ∧ next_conn w' = next_conn w)
  ∨ r = Ok (next_conn w) ∧ opened w' = opened w ∪ {[next_conn w]} ∧ next_conn w' = S (next_conn w).
Proof.
  unfold ssh_Dial, mbind, M_bind. simpl. destruct (Dial _ _ _); simpl; intros [= <- <-]; [left|right]; eauto.
Qed.

Lemma closing_on_error_cases {A} c (m : N A) w r w' :
  closing_on_error c m w = (r, w') →
  (∃ w1 e, m w = (Err e, w1) ∧ r = Err e ∧ opened w' = opened w1 ∖ {[c]} ∧ next_conn w' = next_conn w1)
  ∨ (m w = (r, w') ∧ ∀ e, r ≠ Err e).
Proof.
  unfold closing_on_error. destruct (m w) as [[a|e|] w1] eqn:Hm; intros [= <- <-]; [right; done|left|right; done].
  exists w1, e. done.
Qed.

Lemma handshake_cases (f : string → conn_error) b c (t : nat → option string) w r w' :
  closing_on_error b (closing_on_error c (t' ← tick ; or_fail f (t t') (mret tt))) w = (r, w') →
  next_conn w' = next_conn w ∧
  (r = Ok tt ∧ opened w' = opened w ∨ (∃ e, r = Err e) ∧ opened w' = (opened w ∖ {[c]}) ∖ {[b]}).
Proof.
  intros Hr. apply closing_on_error_cases in Hr as [(w1 & e & Hr & -> & Ho & Hn)|[Hr Hne]];
    apply closing_on_error_cases in Hr as [(w2 & e' & Hr & ? & Ho' & Hn')|[Hr Hne']];
    unfold mbind, M_bind in Hr; simpl in Hr; destruct (t (ticks w));
    unfold or_fail, fail, mret, M_ret in Hr; simplify_eq/=;
    try (by edestruct Hne); try (by edestruct Hne'); [|naive_solver].
  rewrite Ho, Ho', Hn, Hn'. naive_solver.
Qed.

Lemma dialViaBastion_spec addr target cfg timeout w r w' :
  below w → dialViaBastion addr target cfg timeout w = (r, w') → dialed w w' r.
Proof.
  intros Hw Hr. unfold dialViaBastion in Hr.
  apply run_observing in Hr as [(e & -> & Ho & Hn)|(auth & w1 & _ & Ho & Hn & Hr)];
    [split; [lia|done]| |apply observes_wrap, observes_auth].
  apply bind_cases in Hr as [(b & w2 & Hd & Hr)|[(e & Hd & ->)|[Hd ->]]];
    apply ssh_Dial_cases in Hd as [(e' & He & Ho2 & Hn2)|(He & Ho2 & Hn2)]; simplify_eq;
    [|split; [lia|congruence]].
  assert (below w2) as Hw2 by (intros c; rewrite Ho2, Ho, Hn2, Hn; set_unfold; naive_solver lia).
  apply bind_cases in Hr as [(c & w3 & Hd & Hr)|[(e & Hd & ->)|[Hd ->]]];
    apply closing_on_error_cases in Hd as [(w4 & e' & Hd & ? & Ho3 & Hn3)|[Hd Hne]]; simplify_eq;
    unfold mbind, M_bind in Hd; simpl in Hd; destruct (DialThrough _ _ _);
    unfold or_fail, fail, open_conn in Hd; simplify_eq/=; try naive_solver.
  - apply bind_cases in Hr as [(u & w5 & Hd & Hr)|[(e & Hd & ->)|[Hd ->]]];
      apply handshake_cases in Hd as [Hn5 [[He Ho5]|[[e' He] Ho5]]];
      try (unfold mret, M_ret in Hr); simplify_eq/=; (split; [lia|]).
    + rewrite Ho5, Ho2, Ho, Hn5, Hn2, Hn. simpl. unfold clients. simpl.
      split_and!; [set_solver|done|intros b [= <-] [= ?]; lia|set_unfold; lia].
    + rewrite Ho5, Ho2, Ho, Hn2, Hn.
      apply set_eq. intros x. set_unfold. specialize (Hw x). naive_solver lia.
  - split; [lia|]. rewrite Ho3, Ho2, Ho, Hn.
    apply set_eq. intros x. set_unfold. specialize (Hw x). naive_solver lia.
Qed.

Lemma dialSSH_spec cfg timeout w r w' :
  below w → dialSSH cfg timeout w = (r, w') → dialed w w' r.
Proof.
  intros Hw Hr. unfold dialSSH in Hr.
  apply run_observing in Hr as [(e & -> & Ho & Hn)|(auth & w1 & _ & Ho & Hn & Hr)];
    [split; [lia|done]| |apply observes_wrap, observes_auth].
  assert (below w1) as Hw1 by (intros c; rewrite Ho, Hn; apply Hw).
  unfold dialed. rewrite <-Ho, <-Hn. destruct (Cfg_Bastion cfg); [by apply dialViaBastion_spec in Hr|].
  apply bind_cases in Hr as [(b & w2 & Hd & Hr)|[(e & Hd & ->)|[Hd ->]]];
    apply ssh_Dial_cases in Hd as [(e' & He & Ho2 & Hn2)|(He & Ho2 & Hn2)]; try (unfold mret, M_ret in Hr); simplify_eq/=;
    (split; [lia|]); [|done].
  rewrite Ho2, Hn2. unfold clients. simpl. split_and!; [set_solver|done..|set_unfold; lia].
Qed.

Definition dialSSH_dialer : Dialer := {| dial := dialSSH |}.

#[export] Instance dialSSH_laws : DialerLaws dialSSH_dialer.
Proof. split. exact dialSSH_spec. Qed.
End dial_laws.
