(* ===== verification/ConnectionPool.v ===== *)
(** The pool of SSH connections ([connector/pool.go]) and the connectors that take
    connections from it ([Connect], [IsConnected] and [Close] of
    [connector/ssh.go]).  Every section of the code between two acquisitions of a
    lock is a function of its own, so that connectors can be interleaved. *)
From S2P Require Import Prelude.
From S2P Require Import GoText.
From S2P Require Import Sha256.
From S2P Require Import SshDial.
Local Open Scope Z_scope.

(** ** Data *)

Record ManagedConnection : Type := MkConn {
  mc_client : option nat;
  mc_bastionClient : option nat;
  mc_poolKey : string;
  mc_lastUsed : Z;
  mc_createdAt : Z;
}.

Record PoolConfig : Type := MkPoolConfig {
  MaxPerKey : Z;
  MaxIdlePerKey : Z;
  MaxConnectionAge : Z;
  IdleTimeout : Z;
  HealthCheckInterval : Z;
  ConnectTimeout : Z;
}.

Definition second : Z := 10^9.

Definition DefaultPoolConfig : PoolConfig :=
  MkPoolConfig 10 5 (3600 * second) (600 * second) (60 * second) (15 * second).

(** The configuration [NewConnectionPool] stores: defaults for the fields that are
    zero, except the maximal age, which zero switches off. *)
Definition pool_config (c : PoolConfig) : PoolConfig :=
  let or_default f := if decide (f c = 0) then f DefaultPoolConfig else f c in
  MkPoolConfig (or_default MaxPerKey) (or_default MaxIdlePerKey) (MaxConnectionAge c)
    (or_default IdleTimeout) (or_default HealthCheckInterval) (or_default ConnectTimeout).

Record hostConnectionPool : Type := MkHostPool { idle : list nat; numActive : Z }.

(** Connections and host pools are objects reached by pointers; [next_loc] is the
    next free location. *)
Record heap : Type := MkHeap {
  network : net;
  mcs : gmap nat ManagedConnection;
  hcps : gmap nat hostConnectionPool;
  pools : gmap string nat;
  next_loc : nat;
  stopped : bool;
}.

Definition empty_heap (w : net) : heap := MkHeap w ∅ ∅ ∅ 0 false.

(** ** Access to the objects *)

Definition set_network (w : net) (s : heap) : heap :=
  MkHeap w (mcs s) (hcps s) (pools s) (next_loc s) (stopped s).
Definition set_mc (m : nat) (mc : ManagedConnection) (s : heap) : heap :=
  MkHeap (network s) (<[m := mc]> (mcs s)) (hcps s) (pools s) (next_loc s) (stopped s).
Definition set_hcp (h : nat) (p : hostConnectionPool) (s : heap) : heap :=
  MkHeap (network s) (mcs s) (<[h := p]> (hcps s)) (pools s) (next_loc s) (stopped s).

Definition on_net {E A} (m : M net E A) : M heap E A := λ s,
  let '(r, w) := m (network s) in (r, set_network w s).

Definition load_mc {E} (m : nat) : M heap E ManagedConnection := s ← get ; deref (mcs s !! m).
Definition load_hcp {E} (h : nat) : M heap E hostConnectionPool := s ← get ; deref (hcps s !! h).

Definition store_idle {E} (h : nat) (l : list nat) : M heap E unit :=
  p ← load_hcp h ; s ← get ; put (set_hcp h (MkHostPool l (numActive p)) s).
Definition store_active {E} (h : nat) (n : Z) : M heap E unit :=
  p ← load_hcp h ; s ← get ; put (set_hcp h (MkHostPool (idle p) n) s).

Definition add_active {E} (h : nat) (d : Z) : M heap E unit :=
  p ← load_hcp h ; store_active h (numActive p + d).

(** [hcp.numActive -= n; if hcp.numActive < 0 { hcp.numActive = 0 }] *)
Definition drop_active {E} (h : nat) (n : Z) : M heap E unit :=
  p ← load_hcp h ; store_active h (Z.max 0 (numActive p - n)).

(** ** Keys of the pool *)

(** [fmt.Sprintf("%d", i)] *)
Definition user_at_host (user host : string) (port : Z) : string :=
  user +:+ "@" +:+ host +:+ ":" +:+ decimal port.

Definition key_parts (user host : string) (port : Z) (key : list Z) (path password : string) : list string :=
  [user_at_host user host port]
  ++ (if decide (key ≠ []) then ["pksha256:" +:+ hex (sha256_bytes key)]
      else if decide (path ≠ "") then ["pkpath:" +:+ path] else [])
  ++ (if decide (password ≠ "") then ["pwd:true"] else []).

(** The configuration made for the bastion has no private key and no bastion. *)
Definition bastion_key (b : BastionCfg) : string :=
  Join (sort_strings (key_parts (Bastion_User b) (Bastion_Host b) (Bastion_Port b) []
                        (Bastion_PrivateKeyPath b) (Bastion_Password b))) "|".

Definition generatePoolKey (c : ConnectionCfg) : string :=
  Join (sort_strings
    (key_parts (Cfg_User c) (Cfg_Host c) (Cfg_Port c) (Cfg_PrivateKey c) (Cfg_PrivateKeyPath c) (Cfg_Password c)
     ++ match Cfg_Bastion c with Some b => ["bastion:" +:+ bastion_key b] | None => [] end)) "|".

(** ** The pool of a key: the two halves of [getOrCreateHostPool] *)

Definition lookup_pool {E} (key : string) : M heap E (option nat) := s ← get ; mret (pools s !! key).

(** Under the write lock: look again, then create. *)
Definition create_pool {E} (key : string) : M heap E nat :=
  s ← get ;
  match pools s !! key with
  | Some h => mret h
  | None =>
      let h := next_loc s in
      put (MkHeap (network s) (mcs s) (<[h := MkHostPool [] 0]> (hcps s)) (<[key := h]> (pools s))
             (S h) (stopped s)) ;;
      mret h
  end.

Definition getOrCreateHostPool {E} (key : string) : M heap E nat :=
  h ← lookup_pool key ; match h with Some h => mret h | None => create_pool key end.

Section pool.
Context `{Ssh} `{Dialer} (cfg : PoolConfig).
Local Abbreviation P := (M heap conn_error).

(** ** One connection *)

Definition close_client (c : option nat) : P unit :=
  match c with Some c => on_net (close_conn c) ;; mret tt | None => mret tt end.

Definition ManagedConnection_Close (m : nat) : P unit :=
  mc ← load_mc m ; close_client (mc_client mc) ;; close_client (mc_bastionClient mc).

Definition IsHealthy (m : nat) : P bool :=
  mc ← load_mc m ;
  match mc_client mc with None => mret false | Some c => on_net (keepalive c) end.

(** [limit > 0 && t.Add(limit).Before(time.Now())]: the clock is read only when the
    limit is on. *)
Definition elapsed (limit t : Z) : P bool :=
  if decide (limit > 0) then n ← on_net time_Now ; mret (t + limit <? n) else mret false.

Definition is_stale (mc : ManagedConnection) : P bool :=
  old ← elapsed (IdleTimeout cfg) (mc_lastUsed mc) ;
  if (old : bool) then mret true else elapsed (MaxConnectionAge cfg) (mc_createdAt mc).

Definition touch (m : nat) : P unit :=
  mc ← load_mc m ; n ← on_net time_Now ; s ← get ;
  put (set_mc m (MkConn (mc_client mc) (mc_bastionClient mc) (mc_poolKey mc) n (mc_createdAt mc)) s).

(** ** [Get] *)

(** The loop over the idle connections: stale and broken ones are closed. *)
Fixpoint get_idle (h : nat) (l : list nat) : P (option nat) :=
  match l with
  | [] => mret None
  | m :: l =>
      store_idle h l ;;
      mc ← load_mc m ;
      stale ← is_stale mc ;
      if (stale : bool) then ManagedConnection_Close m ;; add_active h (-1) ;; get_idle h l
      else
        healthy ← IsHealthy m ;
        if (healthy : bool) then touch m ;; mret (Some m)
        else ManagedConnection_Close m ;; add_active h (-1) ;; get_idle h l
  end.

(** Under the lock of the host pool: an idle connection, or [None] when a place is
    reserved for a new one. *)
Definition Get_locked (key : string) (h : nat) : P (option nat) :=
  hcp ← load_hcp h ;
  r ← get_idle h (idle hcp) ;
  match r with
  | Some m => mret (Some m)
  | None =>
      hcp ← load_hcp h ;
      if decide (MaxPerKey cfg <= numActive hcp) then fail (PoolExhausted key (MaxPerKey cfg) (numActive hcp))
      else add_active h 1 ;; mret None
  end.

Definition Get_dial (c : ConnectionCfg) : P (option nat * option nat) :=
  on_net (dial c (ConnectTimeout cfg)).

(** A failed dial gives its place back, without a lower bound. *)
Definition Get_release (h : nat) : P unit := add_active h (-1).

Definition Get_new (key : string) (p : option nat * option nat) : P nat :=
  used ← on_net time_Now ; created ← on_net time_Now ;
  s ← get ;
  let m := next_loc s in
  put (MkHeap (network s) (<[m := MkConn p.1 p.2 key used created]> (mcs s)) (hcps s) (pools s) (S m) (stopped s)) ;;
  mret m.

Definition Get (c : ConnectionCfg) : P nat :=
  let key := generatePoolKey c in
  h ← getOrCreateHostPool key ;
  r ← Get_locked key h ;
  match r with
  | Some m => mret m
  | None => λ s,
      match Get_dial c s with
      | (Ok p, s) => Get_new key p s
      | (Err e, s) => (Get_release h ;; fail e) s
      | (Panic, s) => (Panic, s)
      end
  end.

(** ** [Put], [CloseConnection], the scrubber, [Shutdown] *)

(** Before the pool is looked up: nothing to do for nil, a connection without a key
    is closed. *)
Definition Put_begin (m : option nat) : P (option nat) :=
  match m with
  | None => mret None
  | Some m =>
      mc ← load_mc m ;
      if decide (mc_client mc = None) then mret None
      else if decide (mc_poolKey mc = "") then ManagedConnection_Close m ;; mret None
      else mret (Some m)
  end.

Definition Put_locked (h m : nat) (isHealthy : bool) : P unit :=
  hcp ← load_hcp h ;
  if negb isHealthy || (MaxIdlePerKey cfg <=? Z.of_nat (length (idle hcp))) then
    ManagedConnection_Close m ;; drop_active h 1
  else touch m ;; store_idle h (idle hcp ++ [m]).

Definition Put (m : option nat) (isHealthy : bool) : P unit :=
  r ← Put_begin m ;
  match r with
  | None => mret tt
  | Some m => mc ← load_mc m ; h ← getOrCreateHostPool (mc_poolKey mc) ; Put_locked h m isHealthy
  end.

(** The first idle connection of the client leaves the list. *)
Fixpoint remove_client (client : nat) (l : list nat) : P (list nat) :=
  match l with
  | [] => mret []
  | m :: l =>
      mc ← load_mc m ;
      if decide (mc_client mc = Some client) then mret l
      else r ← remove_client client l ; mret (m :: r)
  end.

Definition CloseConnection (c : ConnectionCfg) (client : option nat) : P unit :=
  match client with
  | None => mret tt
  | Some client =>
      h ← getOrCreateHostPool (generatePoolKey c) ;
      hcp ← load_hcp h ;
      l ← remove_client client (idle hcp) ;
      store_idle h l ;; drop_active h 1
  end.

(** The idle connections that are not stale; the others are closed and counted. *)
Fixpoint scrub_idle (l : list nat) : P (list nat * Z) :=
  match l with
  | [] => mret ([], 0)
  | m :: l =>
      mc ← load_mc m ;
      stale ← is_stale mc ;
      if (stale : bool) then
        ManagedConnection_Close m ;; r ← scrub_idle l ; mret (r.1, r.2 + 1)
      else r ← scrub_idle l ; mret (m :: r.1, r.2)
  end.

(** One host pool of one tick of the scrubber, under its lock. *)
Definition scrub_host (h : nat) : P unit :=
  hcp ← load_hcp h ;
  r ← scrub_idle (idle hcp) ;
  store_idle h r.1 ;; drop_active h r.2.

Definition scrub_tick `{GoRange} : P unit :=
  s ← get ; foreach (range 62 (pools s)).*2 scrub_host.

(** [close(cp.stopCh)] panics the second time. *)
Definition shutdown_host (h : nat) : P unit :=
  hcp ← load_hcp h ;
  foreach (idle hcp) ManagedConnection_Close ;;
  store_idle h [] ;; store_active h 0.

Definition Shutdown `{GoRange} : P unit :=
  s ← get ;
  if stopped s then panic else
  put (MkHeap (network s) (mcs s) (hcps s) (pools s) (next_loc s) true) ;;
  foreach (range 63 (pools s)).*2 shutdown_host ;;
  s ← get ;
  put (MkHeap (network s) (mcs s) (hcps s) ∅ (next_loc s) (stopped s)).
End pool.
