(* ===== verification/SshConnector.v ===== *)
(** Connectors over a shared pool: [Connect], [IsConnected] and [Close] of
    [connector/ssh.go], each call cut into the sections between which other
    connectors, the scrubber and [Shutdown] may run. *)
From S2P Require Import Prelude.
From S2P Require Import SshDial.
From S2P Require Import ConnectionPool.

(** ** A connector *)

Record SSHConnector : Type := MkConnector {
  client : option nat;
  bastionClient : option nat;
  sftpClient : option nat;
  connCfg : option ConnectionCfg;
  isConnected : bool;
  hasPool : bool;
  isFromPool : bool;
  managedConn : option nat;
}.

Definition NewSSHConnector (hasPool : bool) : SSHConnector :=
  MkConnector None None None None false hasPool false None.

(** What a connector is about to do on the pool: take a connection, give one back. *)
Inductive use : Type :=
| UGet (c : ConnectionCfg)
| UPut (m : nat) (isHealthy : bool) (result : option string).

(** Where a call stands.  [Looking] and [Creating] are the two halves of
    [getOrCreateHostPool], [Locking] waits for the lock of the host pool,
    [Dialing] holds a reserved place, [Releasing] is about to give it back,
    [Direct] dials without the pool. *)
Inductive pc : Type :=
| Ready (result : option conn_error) (closed : option string)
| Looking (u : use) (key : string)
| Creating (u : use) (key : string)
| Locking (u : use) (key : string) (h : nat)
| Dialing (c : ConnectionCfg) (key : string) (h : nat)
| Releasing (c : ConnectionCfg) (h : nat)
| Direct (c : ConnectionCfg).

Definition returned : pc := Ready None None.

(** The error of [m], if any, as a value. *)
Definition attempt {S E E' A} (m : M S E A) : M S E' (E + A) := λ s,
  match m s with
  | (Ok a, s) => (Ok (inr a), s)
  | (Err e, s) => (Ok (inl e), s)
  | (Panic, s) => (Panic, s)
  end.

Section connector.
Context `{Ssh} `{Dialer} (cfg : PoolConfig).
Local Abbreviation P := (M heap conn_error).

(** ** [Connect] *)

Definition start_Connect (s : SSHConnector) (c : ConnectionCfg) : SSHConnector * pc :=
  let s := MkConnector (client s) (bastionClient s) (sftpClient s) (Some c) (isConnected s) (hasPool s)
             false (managedConn s) in
  if hasPool s && bool_decide (Cfg_Bastion c = None) then (s, Looking (UGet c) (generatePoolKey c))
  else (s, Direct c).

(** The pool has given connection [m]; without a client it is not used. *)
Definition connect_with (s : SSHConnector) (c : ConnectionCfg) (m : nat) : P (SSHConnector * pc) :=
  mc ← load_mc m ;
  match mc_client mc with
  | Some cl =>
      mret (MkConnector (Some cl) (bastionClient s) (sftpClient s) (connCfg s) true (hasPool s) true (Some m),
            returned)
  | None => mret (s, Direct c)
  end.

(** The dial without the pool. *)
Definition connect_direct (s : SSHConnector) (c : ConnectionCfg) : P (SSHConnector * pc) :=
  r ← attempt (on_net (dial c (Cfg_Timeout c))) ;
  match r with
  | inl e =>
      mret (MkConnector (client s) (bastionClient s) (sftpClient s) (connCfg s) (isConnected s) (hasPool s)
              false None, Ready (Some e) None)
  | inr p =>
      mret (MkConnector p.1 p.2 (sftpClient s) (connCfg s) true (hasPool s) false None, returned)
  end.

(** ** [IsConnected] *)

Definition IsConnected (s : SSHConnector) : P (SSHConnector * bool) :=
  match client s with
  | None => mret (s, false)
  | Some c =>
      if isConnected s then
        alive ← on_net (keepalive c) ;
        mret (MkConnector (client s) (bastionClient s) (sftpClient s) (connCfg s) alive (hasPool s)
                (isFromPool s) (managedConn s), alive)
      else mret (s, false)
  end.

(** ** [Close] *)

(** All the fields that [Close] resets, in the end. *)
Definition disconnected (s : SSHConnector) : SSHConnector :=
  MkConnector None None None (connCfg s) false (hasPool s) false None.

Definition first_error (a b : option string) : option string :=
  match a with Some _ => a | None => b end.

Definition close_optional (c : option nat) : P (option string) :=
  match c with Some c => on_net (close_conn c) | None => mret None end.

Definition close_sftp (s : SSHConnector) : P (option string) :=
  match sftpClient s with
  | Some f =>
      t ← on_net tick ;
      mret (match SftpCloseError t f with
            | Some e => Some ("failed to close SFTP client for " +:+ from_option Cfg_Host "" (connCfg s) +:+ ": " +:+ e)
            | None => None
            end)
  | None => mret None
  end.

(** Close what the connector owns, or start to give its connection back. *)
Definition start_Close (s : SSHConnector) : P (SSHConnector * pc) :=
  err ← close_sftp s ;
  let s := MkConnector (client s) (bastionClient s) None (connCfg s) false (hasPool s) (isFromPool s)
             (managedConn s) in
  match client s, managedConn s with
  | Some _, Some m =>
      if isFromPool s && hasPool s then
        healthy ← IsHealthy m ;
        r ← Put_begin (Some m) ;
        match r with
        | Some m => mc ← load_mc m ; mret (s, Looking (UPut m healthy err) (mc_poolKey mc))
        | None => mret (disconnected s, Ready None err)
        end
      else
        e1 ← close_optional (client s) ; e2 ← close_optional (bastionClient s) ;
        mret (disconnected s, Ready None (first_error err (first_error e1 e2)))
  | _, _ =>
      e1 ← close_optional (client s) ; e2 ← close_optional (bastionClient s) ;
      mret (disconnected s, Ready None (first_error err (first_error e1 e2)))
  end.

(** ** One section of a call *)

Definition advance (s : SSHConnector) (p : pc) : P (SSHConnector * pc) :=
  match p with
  | Ready _ _ => mret (s, p)
  | Looking u key =>
      h ← lookup_pool key ;
      mret (s, match h with Some h => Locking u key h | None => Creating u key end)
  | Creating u key => h ← create_pool key ; mret (s, Locking u key h)
  | Locking (UGet c) key h =>
      r ← attempt (Get_locked cfg key h) ;
      match r with
      | inr (Some m) => connect_with s c m
      | inr None => mret (s, Dialing c key h)
      | inl _ => mret (s, Direct c)
      end
  | Locking (UPut m healthy err) key h =>
      Put_locked cfg h m healthy ;; mret (disconnected s, Ready None err)
  | Dialing c key h =>
      r ← attempt (Get_dial cfg c) ;
      match r with
      | inr p => m ← Get_new key p ; connect_with s c m
      | inl _ => mret (s, Releasing c h)
      end
  | Releasing c h => Get_release h ;; mret (s, Direct c)
  | Direct c => connect_direct s c
  end.

(** ** The connectors of a process *)

Record system : Type := Sys {
  sys_heap : heap;
  connectors : gmap nat (SSHConnector * pc);
}.

(** What happens next: a call starts, a call in progress runs one section, the
    scrubber visits a host pool, the pool is shut down.  A connector is connected
    only when it has no connection. *)
Inductive event : Type :=
| EConnect (i : nat) (c : ConnectionCfg)
| EIsConnected (i : nat)
| EClose (i : nat)
| EAdvance (i : nat)
| EScrub (key : string)
| EShutdown.

Definition run {A} (m : P A) (σ : system) (k : A → gmap nat (SSHConnector * pc)) : option system :=
  match m (sys_heap σ) with
  | (Ok a, s) => Some (Sys s (k a))
  | _ => None
  end.

Definition fire `{GoRange} (e : event) (σ : system) : option system :=
  let cs := connectors σ in
  match e with
  | EConnect i c =>
      match cs !! i with
      | Some (s, Ready _ _) =>
          if decide (client s = None ∧ bastionClient s = None)
          then Some (Sys (sys_heap σ) (<[i := start_Connect s c]> cs)) else None
      | _ => None
      end
  | EIsConnected i =>
      match cs !! i with
      | Some (s, Ready a b) => run (IsConnected s) σ (λ r, <[i := (r.1, Ready a b)]> cs)
      | _ => None
      end
  | EClose i =>
      match cs !! i with
      | Some (s, Ready _ _) => run (start_Close s) σ (λ r, <[i := r]> cs)
      | _ => None
      end
  | EAdvance i =>
      match cs !! i with
      | Some (_, Ready _ _) | None => None
      | Some (s, p) => run (advance s p) σ (λ r, <[i := r]> cs)
      end
  | EScrub key =>
      match pools (sys_heap σ) !! key with
      | Some h => run (scrub_host cfg h) σ (λ _, cs)
      | None => None
      end
  | EShutdown => run Shutdown σ (λ _, cs)
  end.

Fixpoint fire_all `{GoRange} (es : list event) (σ : system) : option system :=
  match es with
  | [] => Some σ
  | e :: es => fire e σ ≫= fire_all es
  end.
End connector.

(** Fresh connectors, over an empty pool, in a world where nothing is open. *)
Definition initial (n : gmap nat bool) : system :=
  Sys (empty_heap (MkNet 0 ∅ 0)) ((λ p, (NewSSHConnector p, returned)) <$> n).
