(* ===== verification/PoolEffects.v ===== *)
(** What each section of the pool's code does to the heap: which connections it
    closes, and what it leaves in a host pool. *)
From S2P Require Import Prelude.
From S2P Require Import SshDial.
From S2P Require Import ConnectionPool.

(** ** What matters of a connection *)

(** All but the times: the clients and the key. *)
Definition ident (mc : ManagedConnection) : option nat * option nat * string :=
  (mc_client mc, mc_bastionClient mc, mc_poolKey mc).

Definition view (s : heap) : gmap nat (option nat * option nat * string) := ident <$> mcs s.

Definition owned (v : gmap nat (option nat * option nat * string)) (m : nat) : gset nat :=
  match v !! m with Some (p, _) => clients p | None => ∅ end.

Definition owned_by v (l : list nat) : gset nat := ⋃ (owned v <$> l).

Lemma elem_of_owned_by v l c : c ∈ owned_by v l ↔ ∃ m, m ∈ l ∧ c ∈ owned v m.
Proof.
  unfold owned_by. rewrite elem_of_union_list. split.
  - intros (X & (m & -> & Hm)%list_elem_of_fmap & Hc). eauto.
  - intros (m & Hm & Hc). exists (owned v m). split; [by apply list_elem_of_fmap_2|done].
Qed.

Lemma view_lookup s m mc : mcs s !! m = Some mc → view s !! m = Some (ident mc).
Proof. intros H. unfold view. by rewrite lookup_fmap, H. Qed.

Lemma view_some s m : is_Some (view s !! m) ↔ is_Some (mcs s !! m).
Proof. unfold view. by rewrite lookup_fmap, fmap_is_Some. Qed.

(** ** Effects *)

(** The connections [X] are closed; the rest of the heap but the host pools and the
    times is as before. *)
Record closes (X : gset nat) (s s' : heap) : Prop := {
  closes_opened : opened (network s') = opened (network s) ∖ X;
  closes_next : next_conn (network s') = next_conn (network s);
  closes_view : view s' = view s;
  closes_pools : pools s' = pools s;
  closes_loc : next_loc s' = next_loc s;
  closes_stopped : stopped s' = stopped s;
}.

(** Moreover host pool [h] becomes [p], and no other changes. *)
Definition effect (h : nat) (p : hostConnectionPool) (X : gset nat) (s s' : heap) : Prop :=
  closes X s s' ∧ hcps s' = <[h := p]> (hcps s).

(** Only the clock moves. *)
Definition quiet (s s' : heap) : Prop := closes ∅ s s' ∧ hcps s' = hcps s ∧ mcs s' = mcs s.

Lemma closes_trans X Y s1 s2 s3 : closes X s1 s2 → closes Y s2 s3 → closes (X ∪ Y) s1 s3.
Proof. intros [] []. split; try congruence. set_solver. Qed.

Lemma closes_refl s : closes ∅ s s.
Proof. split; try done. set_solver. Qed.

Lemma quiet_refl s : quiet s s.
Proof. split; [apply closes_refl|done]. Qed.

Lemma quiet_trans s1 s2 s3 : quiet s1 s2 → quiet s2 s3 → quiet s1 s3.
Proof.
  intros (H1 & H2 & H3) (H4 & H5 & H6). split; [|split; congruence].
  pose proof (closes_trans _ _ _ _ _ H1 H4) as H. by rewrite (left_id_L ∅ (∪)) in H.
Qed.

Lemma effect_refl h p s : hcps s !! h = Some p → effect h p ∅ s s.
Proof. intros Hp. split; [apply closes_refl|]. by rewrite insert_id. Qed.

Lemma effect_trans h p q X Y s1 s2 s3 : effect h p X s1 s2 → effect h q Y s2 s3 → effect h q (X ∪ Y) s1 s3.
Proof.
  intros [H1 Hp] [H2 Hq]. split; [by eapply closes_trans|]. by rewrite Hq, Hp, insert_insert_eq.
Qed.

Lemma quiet_effect h p X s1 s2 s3 : quiet s1 s2 → effect h p X s2 s3 → effect h p X s1 s3.
Proof.
  intros (H1 & H2 & H3) [H4 H5]. split; [|congruence].
  pose proof (closes_trans _ _ _ _ _ H1 H4) as H. by rewrite (left_id_L ∅ (∪)) in H.
Qed.

Lemma effect_quiet h p X s1 s2 s3 : effect h p X s1 s2 → quiet s2 s3 → effect h p X s1 s3.
Proof.
  intros [H4 H5] (H1 & H2 & H3). split; [|congruence].
  pose proof (closes_trans _ _ _ _ _ H4 H1) as H. by rewrite (right_id_L ∅ (∪)) in H.
Qed.

Lemma effect_lookup h p X s s' : effect h p X s s' → hcps s' !! h = Some p.
Proof. intros [_ ->]. apply lookup_insert_eq. Qed.

Lemma effect_view h p X s s' : effect h p X s s' → view s' = view s.
Proof. by intros [[] _]. Qed.

#[export] Hint Resolve closes_refl quiet_refl quiet_trans effect_trans quiet_effect effect_quiet : kubexm.

(** ** Running a sequence *)

Lemma bind_run {S E A B} (m : M S E A) (f : A → M S E B) s a t :
  m s = (Ok a, t) → (m ≫= f) s = f a t.
Proof. intros H. unfold mbind, M_bind. by rewrite H. Qed.

Lemma load_mc_run {E} s m mc : mcs s !! m = Some mc → load_mc (E:=E) m s = (Ok mc, s).
Proof. intros H. unfold load_mc, mbind, M_bind, get, deref. by rewrite H. Qed.

Lemma load_hcp_run {E} s h p : hcps s !! h = Some p → load_hcp (E:=E) h s = (Ok p, s).
Proof. intros H. unfold load_hcp, mbind, M_bind, get, deref. by rewrite H. Qed.

Lemma store_idle_run {E} s h p l : hcps s !! h = Some p →
  store_idle (E:=E) h l s = (Ok tt, set_hcp h (MkHostPool l (numActive p)) s).
Proof. intros H. unfold store_idle. by rewrite (bind_run _ _ _ _ _ (load_hcp_run _ _ _ H)). Qed.

Lemma store_active_run {E} s h p n : hcps s !! h = Some p →
  store_active (E:=E) h n s = (Ok tt, set_hcp h (MkHostPool (idle p) n) s).
Proof. intros H. unfold store_active. by rewrite (bind_run _ _ _ _ _ (load_hcp_run _ _ _ H)). Qed.

Lemma add_active_run {E} s h p d : hcps s !! h = Some p →
  add_active (E:=E) h d s = (Ok tt, set_hcp h (MkHostPool (idle p) (numActive p + d)) s).
Proof.
  intros H. unfold add_active. rewrite (bind_run _ _ _ _ _ (load_hcp_run _ _ _ H)). by apply store_active_run.
Qed.

Lemma drop_active_run {E} s h p n : hcps s !! h = Some p →
  drop_active (E:=E) h n s = (Ok tt, set_hcp h (MkHostPool (idle p) (Z.max 0 (numActive p - n))) s).
Proof.
  intros H. unfold drop_active. rewrite (bind_run _ _ _ _ _ (load_hcp_run _ _ _ H)). by apply store_active_run.
Qed.

Lemma set_hcp_effect h p s : effect h p ∅ s (set_hcp h p s).
Proof. split; [|done]. split; try done. simpl. set_solver. Qed.

(** The heap of a bind that succeeds so far. *)
Ltac step_with H := rewrite (bind_run _ _ _ _ _ H).

Section effects.
Context `{Ssh} (cfg : PoolConfig).
Local Abbreviation P := (M heap conn_error).

Lemma tick_quiet s w :
  opened w = opened (network s) → next_conn w = next_conn (network s) → quiet s (set_network w s).
Proof. intros Ho Hn. split; [|done]. split; try done. simpl. rewrite Ho. set_solver. Qed.

Lemma time_Now_run s : ∃ n s', on_net time_Now s = (Ok (E:=conn_error) n, s') ∧ quiet s s'.
Proof. eexists _, _. split; [reflexivity|]. by apply tick_quiet. Qed.

Lemma elapsed_run limit t s : ∃ b s', elapsed limit t s = (Ok b, s') ∧ quiet s s'.
Proof.
  unfold elapsed. case_decide; [|eauto with kubexm].
  destruct (time_Now_run s) as (n & s' & Hr & Hq). step_with Hr. eauto.
Qed.

Lemma is_stale_run mc s : ∃ b s', is_stale cfg mc s = (Ok b, s') ∧ quiet s s'.
Proof.
  unfold is_stale. destruct (elapsed_run (IdleTimeout cfg) (mc_lastUsed mc) s) as (b & s1 & Hr & Hq).
  step_with Hr. destruct b; [eauto|].
  destruct (elapsed_run (MaxConnectionAge cfg) (mc_createdAt mc) s1) as (b & s2 & -> & Hq2). eauto with kubexm.
Qed.

Lemma IsHealthy_run m mc s : mcs s !! m = Some mc → ∃ b s', IsHealthy m s = (Ok b, s') ∧ quiet s s'.
Proof.
  intros Hm. unfold IsHealthy. step_with (load_mc_run (E:=conn_error) _ _ _ Hm).
  destruct (mc_client mc); [|eauto with kubexm].
  eexists _, _. split; [reflexivity|]. by apply tick_quiet.
Qed.

Lemma close_client_run c s : ∃ s', close_client c s = (Ok tt, s')
  ∧ closes (match c with Some c => {[c]} | None => ∅ end) s s' ∧ hcps s' = hcps s ∧ mcs s' = mcs s.
Proof.
  destruct c as [c|]; [|by eauto with kubexm].
  eexists. split; [reflexivity|]. split; [|done]. by split.
Qed.

Lemma Close_run m mc s : mcs s !! m = Some mc → ∃ s', ManagedConnection_Close m s = (Ok tt, s')
  ∧ closes (owned (view s) m) s s' ∧ hcps s' = hcps s ∧ mcs s' = mcs s.
Proof.
  intros Hm. unfold ManagedConnection_Close. step_with (load_mc_run (E:=conn_error) _ _ _ Hm).
  destruct (close_client_run (mc_client mc) s) as (s1 & Hr & Hc1 & Hh1 & Hm1). step_with Hr.
  destruct (close_client_run (mc_bastionClient mc) s1) as (s2 & Hr2 & Hc2 & Hh2 & Hm2).
  exists s2. split; [done|]. split; [|split; congruence].
  unfold owned. rewrite (view_lookup _ _ _ Hm). unfold clients, ident. simpl. by eapply closes_trans.
Qed.

Lemma touch_run m mc s : mcs s !! m = Some mc → ∃ s', touch m s = (Ok tt, s') ∧ closes ∅ s s' ∧ hcps s' = hcps s.
Proof.
  intros Hm. unfold touch. step_with (load_mc_run (E:=conn_error) _ _ _ Hm).
  eexists. split; [reflexivity|]. split; [|done]. split; try done; simpl; [set_solver|].
  unfold view. simpl. rewrite fmap_insert. apply insert_id. by rewrite lookup_fmap, Hm.
Qed.

(** ** The sections of [Get], [Put] and the scrubber *)

Definition known (s : heap) (l : list nat) : Prop := Forall (λ m, is_Some (view s !! m)) l.

Lemma known_cons s m l : known s (m :: l) → (∃ mc, mcs s !! m = Some mc) ∧ known s l.
Proof. intros [Hm Hl]%Forall_cons. by apply view_some in Hm. Qed.

Lemma known_view s s' l : view s' = view s → known s l → known s' l.
Proof. unfold known. by intros ->. Qed.

Lemma owned_by_cons v m l : owned_by v (m :: l) = owned v m ∪ owned_by v l.
Proof. done. Qed.

(** The loop over the idle connections closes a first part of them and takes the
    next, or closes them all. *)
Lemma get_idle_run h l s p : hcps s !! h = Some p → known s l →
  ∃ dead rest r s', get_idle cfg h l s = (Ok r, s')
    ∧ (r = None ∧ l = dead ∧ (l = [] ∨ rest = []) ∨ ∃ m, r = Some m ∧ l = dead ++ m :: rest)
    ∧ effect h (MkHostPool (if decide (l = []) then idle p else rest) (numActive p - Z.of_nat (length dead)))
        (owned_by (view s) dead) s s'.
Proof.
  revert s p. induction l as [|m l IH]; intros s p Hp Hk.
  { exists [], [], None, s. split_and!; [done|by left; eauto|]. simpl. rewrite Z.sub_0_r.
    apply effect_refl. by rewrite Hp; destruct p. }
  apply known_cons in Hk as [[mc Hm] Hk]. simpl.
  step_with (store_idle_run (E:=conn_error) _ _ _ l Hp).
  pose proof (set_hcp_effect h (MkHostPool l (numActive p)) s) as He.
  set (s0 := set_hcp _ _ s) in *. assert (mcs s0 !! m = Some mc) as Hm0 by done.
  step_with (load_mc_run (E:=conn_error) _ _ _ Hm0).
  destruct (is_stale_run mc s0) as (stale & s1 & Hr & Hq). step_with Hr.
  assert (mcs s1 !! m = Some mc) as Hm1 by (destruct Hq as (_ & _ & ->); done).
  assert (∀ s2, quiet s1 s2 → mcs s2 !! m = Some mc →
    ∃ dead rest r s', (ManagedConnection_Close m ;; add_active h (-1) ;; get_idle cfg h l) s2 = (Ok r, s')
      ∧ (r = None ∧ m :: l = dead ∧ (m :: l = [] ∨ rest = []) ∨ ∃ m', r = Some m' ∧ m :: l = dead ++ m' :: rest)
      ∧ effect h (MkHostPool rest (numActive p - Z.of_nat (length dead))) (owned_by (view s) dead) s s') as Hclose.
  { intros s2 Hq2 Hm2. destruct (Close_run m mc s2 Hm2) as (s3 & Hr3 & Hc3 & Hh3 & Hm3). step_with Hr3.
    assert (effect h (MkHostPool l (numActive p)) ∅ s s2) as He2 by eauto with kubexm.
    assert (effect h (MkHostPool l (numActive p)) (owned (view s) m) s s3) as He3.
    { destruct He2 as [He2 Hh2]. split; [|congruence]. pose proof (closes_trans _ _ _ _ _ He2 Hc3) as Hc.
      rewrite (left_id_L ∅ (∪)) in Hc. by rewrite (closes_view _ _ _ He2) in Hc. }
    step_with (add_active_run (E:=conn_error) _ _ _ (-1) (effect_lookup _ _ _ _ _ He3)). simpl.
    set (s4 := set_hcp _ _ s3).
    assert (effect h (MkHostPool l (numActive p + -1)) (owned (view s) m) s s4) as He4.
    { rewrite <-(right_id_L ∅ (∪) (owned _ _)). eapply effect_trans; [exact He3|apply set_hcp_effect]. }
    destruct (IH s4 (MkHostPool l (numActive p + -1))) as (dead & rest & r & s5 & -> & Hcase & He5);
      [by eapply effect_lookup|eapply known_view; [|done]; by apply effect_view in He4|].
    exists (m :: dead), (if decide (l = []) then l else rest), r, s5. split; [done|].
    split.
    { destruct Hcase as [(-> & <- & Hl)|(m' & -> & ->)]; [left|right].
      - case_decide; [by subst; eauto|]. naive_solver.
      - exists m'. rewrite decide_False by (by destruct dead). done. }
    rewrite owned_by_cons. simpl in He5. rewrite (effect_view _ _ _ _ _ He4) in He5.
    replace (numActive p - Z.of_nat (length (m :: dead)))%Z
      with (numActive p + -1 - Z.of_nat (length dead))%Z by (simpl; lia).
    by eapply effect_trans. }
  destruct stale; [apply Hclose; [apply quiet_refl|done]|].
  destruct (IsHealthy_run m mc s1 Hm1) as (healthy & s2 & Hr2 & Hq2). step_with Hr2.
  assert (mcs s2 !! m = Some mc) as Hm2 by (destruct Hq2 as (_ & _ & ->); done).
  destruct healthy; [|by apply Hclose].
  destruct (touch_run m mc s2 Hm2) as (s3 & Hr3 & Hc3 & Hh3). step_with Hr3.
  exists [], l, (Some m), s3. split; [done|]. split; [right; by exists m|].
  simpl. rewrite Z.sub_0_r. unfold owned_by. simpl.
  assert (effect h (MkHostPool l (numActive p)) ∅ s s2) as [He2 Hh2] by eauto with kubexm.
  split; [|congruence]. pose proof (closes_trans _ _ _ _ _ He2 Hc3) as Hc.
  by rewrite (left_id_L ∅ (∪)) in Hc.
Qed.

Lemma get_idle_all h s p : hcps s !! h = Some p → known s (idle p) →
  ∃ dead rest r s', get_idle cfg h (idle p) s = (Ok r, s')
    ∧ idle p = dead ++ option_list r ++ rest ∧ (r = None → rest = [])
    ∧ effect h (MkHostPool rest (numActive p - Z.of_nat (length dead))) (owned_by (view s) dead) s s'.
Proof.
  intros Hp Hk. destruct (get_idle_run h (idle p) s p Hp Hk) as (dead & rest & r & s' & -> & Hcase & He).
  destruct Hcase as [(-> & <- & Hrest)|(m & -> & Hd)].
  - exists (idle p), [], None, s'. split_and!; [done|by rewrite app_nil_r|done|].
    by replace (if decide (idle p = []) then idle p else rest) with (@nil nat) in He
      by (case_decide; destruct Hrest; congruence).
  - exists dead, rest, (Some m), s'. split_and!; [done..|].
    by rewrite decide_False in He by (rewrite Hd; by destruct dead).
Qed.

(** Under the lock, [Get] takes an idle connection, reserves a place, or finds the
    pool exhausted; a first part of the idle connections is closed. *)
Lemma Get_locked_run key h s p : hcps s !! h = Some p → known s (idle p) →
  ∃ dead rest r s', Get_locked cfg key h s = (r, s')
    ∧ let n := (numActive p - Z.of_nat (length dead))%Z in
      match r with
      | Ok (Some m) => idle p = dead ++ m :: rest
          ∧ effect h (MkHostPool rest n) (owned_by (view s) dead) s s'
      | Ok None => idle p = dead ∧ rest = [] ∧ (n < MaxPerKey cfg)%Z
          ∧ effect h (MkHostPool [] (n + 1)) (owned_by (view s) dead) s s'
      | Err e => idle p = dead ∧ rest = [] ∧ e = PoolExhausted key (MaxPerKey cfg) n
          ∧ effect h (MkHostPool [] n) (owned_by (view s) dead) s s'
      | Panic => False
      end.
Proof.
  intros Hp Hk. unfold Get_locked. step_with (load_hcp_run (E:=conn_error) _ _ _ Hp).
  destruct (get_idle_all h s p Hp Hk) as (dead & rest & r & s1 & Hr & Hl & Hnone & He). step_with Hr.
  exists dead, rest. destruct r as [m|]; [by exists (Ok (Some m)), s1|].
  rewrite (Hnone eq_refl) in *. simpl in Hl. rewrite app_nil_r in Hl.
  step_with (load_hcp_run (E:=conn_error) _ _ _ (effect_lookup _ _ _ _ _ He)). simpl. case_decide as Hmax.
  - eexists _, s1. split; [done|]. done.
  - step_with (add_active_run (E:=conn_error) _ _ _ 1 (effect_lookup _ _ _ _ _ He)).
    eexists (Ok None), _. split; [done|]. split_and!; [done..|lia|]. simpl.
    rewrite <-(right_id_L ∅ (∪) (owned_by _ _)). eapply effect_trans; [exact He|apply set_hcp_effect].
Qed.

(** [Put] closes the connection, or appends it to the idle ones. *)
Lemma Put_locked_run h m mc b s p : hcps s !! h = Some p → mcs s !! m = Some mc →
  ∃ s', Put_locked cfg h m b s = (Ok tt, s')
    ∧ ((b = false ∨ (MaxIdlePerKey cfg <= Z.of_nat (length (idle p)))%Z)
         ∧ effect h (MkHostPool (idle p) (Z.max 0 (numActive p - 1))) (owned (view s) m) s s'
       ∨ b = true ∧ (Z.of_nat (length (idle p)) < MaxIdlePerKey cfg)%Z
         ∧ effect h (MkHostPool (idle p ++ [m]) (numActive p)) ∅ s s').
Proof.
  intros Hp Hm. unfold Put_locked. step_with (load_hcp_run (E:=conn_error) _ _ _ Hp).
  destruct (negb b || _) eqn:Hb.
  - destruct (Close_run m mc s Hm) as (s1 & Hr & Hc & Hh & Hm1). step_with Hr.
    assert (hcps s1 !! h = Some p) as Hp1 by congruence.
    rewrite (drop_active_run (E:=conn_error) _ _ _ 1 Hp1). eexists. split; [done|]. left. split.
    { apply orb_true_iff in Hb as [Hb|Hb]; [apply negb_true_iff in Hb|apply Z.leb_le in Hb]; auto. }
    rewrite <-(right_id_L ∅ (∪) (owned _ _)). apply effect_trans with p s1; [|apply set_hcp_effect].
    split; [done|]. by rewrite insert_id, Hh.
  - destruct (touch_run m mc s Hm) as (s1 & Hr & Hc & Hh). step_with Hr.
    assert (hcps s1 !! h = Some p) as Hp1 by congruence.
    rewrite (store_idle_run (E:=conn_error) _ _ _ _ Hp1). eexists. split; [done|]. right.
    apply orb_false_iff in Hb as [Hb Hl]; apply negb_false_iff in Hb; apply Z.leb_gt in Hl. split_and!; [done|lia|].
    rewrite <-(right_id_L ∅ (∪) ∅). apply effect_trans with p s1; [|apply set_hcp_effect].
    split; [done|]. by rewrite insert_id, Hh.
Qed.

(** The scrubber parts the idle connections into those it closes and those it keeps,
    in their order. *)
Lemma scrub_idle_run l s : known s l →
  ∃ dead keep s', scrub_idle cfg l s = (Ok (keep, Z.of_nat (length dead)), s')
    ∧ dead ++ keep ≡ₚ l ∧ closes (owned_by (view s) dead) s s' ∧ hcps s' = hcps s.
Proof.
  revert s. induction l as [|m l IH]; intros s Hk.
  { exists [], [], s. split_and!; [done..|apply closes_refl|done]. }
  apply known_cons in Hk as [[mc Hm] Hk]. simpl. step_with (load_mc_run (E:=conn_error) _ _ _ Hm).
  destruct (is_stale_run mc s) as (stale & s1 & Hr & Hc1 & Hh1 & Hm1). step_with Hr.
  assert (mcs s1 !! m = Some mc) as Hmc1 by congruence.
  destruct stale.
  - destruct (Close_run m mc s1 Hmc1) as (s2 & Hr2 & Hc2 & Hh2 & Hm2). step_with Hr2.
    assert (closes (owned (view s) m) s s2) as Hc.
    { rewrite <-(left_id_L ∅ (∪) (owned _ _)), <-(closes_view _ _ _ Hc1). by eapply closes_trans. }
    destruct (IH s2) as (dead & keep & s3 & Hr3 & Hperm & Hc3 & Hh3);
      [by eapply known_view; [apply Hc|]|]. step_with Hr3.
    exists (m :: dead), keep, s3. split; [unfold mret, M_ret; simpl; repeat f_equal; lia|].
    split; [simpl; by rewrite Hperm|]. split; [|congruence].
    rewrite owned_by_cons. rewrite (closes_view _ _ _ Hc) in Hc3. by eapply closes_trans.
  - destruct (IH s1) as (dead & keep & s3 & Hr3 & Hperm & Hc3 & Hh3);
      [by eapply known_view; [apply Hc1|]|]. step_with Hr3.
    exists dead, (m :: keep), s3. split; [done|]. split; [by rewrite <-Permutation_middle, Hperm|].
    split; [|congruence].
    rewrite <-(left_id_L ∅ (∪) (owned_by _ _)), <-(closes_view _ _ _ Hc1). by eapply closes_trans.
Qed.

Lemma scrub_host_run h s p : hcps s !! h = Some p → known s (idle p) →
  ∃ dead keep s', scrub_host cfg h s = (Ok tt, s') ∧ dead ++ keep ≡ₚ idle p
    ∧ effect h (MkHostPool keep (Z.max 0 (numActive p - Z.of_nat (length dead)))) (owned_by (view s) dead) s s'.
Proof.
  intros Hp Hk. unfold scrub_host. step_with (load_hcp_run (E:=conn_error) _ _ _ Hp).
  destruct (scrub_idle_run (idle p) s Hk) as (dead & keep & s1 & Hr & Hperm & Hc & Hh). step_with Hr.
  assert (hcps s1 !! h = Some p) as Hp1 by congruence. simpl.
  step_with (store_idle_run (E:=conn_error) _ _ _ keep Hp1).
  set (s2 := set_hcp _ _ s1).
  assert (hcps s2 !! h = Some (MkHostPool keep (numActive p))) as Hp2 by apply lookup_insert_eq.
  rewrite (drop_active_run (E:=conn_error) _ _ _ (Z.of_nat (length dead)) Hp2).
  exists dead, keep. eexists. split; [done|]. split; [done|].
  rewrite <-(right_id_L ∅ (∪) (owned_by _ _)). apply effect_trans with (MkHostPool keep (numActive p)) s2;
    [|apply set_hcp_effect].
  rewrite <-(right_id_L ∅ (∪) (owned_by _ _)). apply effect_trans with p s1; [|apply set_hcp_effect].
  split; [done|]. by rewrite insert_id, Hh.
Qed.
End effects.
