(* ===== verification/PoolInvariant.v ===== *)
(** The invariant of the connectors that share a pool: where every open connection
    is, and what the host pools count. *)
From S2P Require Import Prelude.
From S2P Require Import GoText.
From S2P Require Import SshDial.
From S2P Require Import ConnectionPool.
From S2P Require Import SshConnector.
From S2P Require Import PoolEffects.

(** ** What a connector holds *)

Abbreviation connector_state := (SSHConnector * pc)%type (only parsing).
Abbreviation conn_view := (gmap nat (option nat * option nat * string)) (only parsing).

(** The pooled connection it uses, the host pool it has reserved a place in, the
    connections that are its own. *)
Definition managed (x : connector_state) : option nat := managedConn x.1.

Definition slot (x : connector_state) : option nat :=
  match x.2 with Dialing _ _ h | Releasing _ h => Some h | _ => None end.

Definition direct (x : connector_state) : gset nat :=
  if isFromPool x.1 then ∅ else clients (client x.1, bastionClient x.1).

Definition home (v : conn_view) (ps : gmap string nat) (m : nat) : option nat :=
  match v !! m with Some (_, k) => ps !! k | None => None end.

(** The host pool that counts the connector. *)
Definition uses_at v ps (x : connector_state) : option nat :=
  match slot x with Some h => Some h | None => managed x ≫= home v ps end.

Definition detached (s : SSHConnector) : Prop :=
  client s = None ∧ bastionClient s = None ∧ managedConn s = None ∧ isFromPool s = false.

Definition waiting (s : SSHConnector) : Prop := detached s ∧ hasPool s = true.

(** What is true at each place of a call. *)
Definition pc_ok (v : conn_view) (ps : gmap string nat) (x : connector_state) : Prop :=
  match x.2 with
  | Ready _ _ => True
  | Looking (UGet c) key | Creating (UGet c) key => waiting x.1 ∧ key ≠ ""
  | Locking (UGet c) key h | Dialing c key h => waiting x.1 ∧ key ≠ "" ∧ ps !! key = Some h
  | Looking (UPut m _ _) key | Creating (UPut m _ _) key => managed x = Some m ∧ (snd <$> v !! m) = Some key
  | Locking (UPut m _ _) key h => managed x = Some m ∧ home v ps m = Some h
  | Releasing c h => detached x.1 ∧ ∃ key, ps !! key = Some h
  | Direct c => detached x.1
  end.

(** A connector and the pooled connection it uses agree. *)
Record connector_ok (v : conn_view) (ps : gmap string nat) (x : connector_state) : Prop := {
  ok_pc : pc_ok v ps x;
  ok_from_pool : isFromPool x.1 = bool_decide (is_Some (managed x));
  ok_has_pool : is_Some (managed x) → hasPool x.1 = true;
  ok_client : ∀ m, managed x = Some m →
    ∃ c b k, v !! m = Some (Some c, b, k) ∧ client x.1 = Some c ∧ bastionClient x.1 = None;
}.

(** ** Counting connectors *)

Definition count (P : connector_state → Prop) `{∀ x, Decision (P x)} (cs : gmap nat connector_state) : nat :=
  size (filter (λ ix, P ix.2) cs).

Definition one (P : connector_state → Prop) `{∀ x, Decision (P x)} (x : option connector_state) : nat :=
  match x with Some x => if decide (P x) then 1 else 0 | None => 0 end.

Lemma count_delete P `{∀ x, Decision (P x)} i cs :
  count P cs = count P (delete i cs) + one P (cs !! i).
Proof.
  unfold count. destruct (cs !! i) as [x|] eqn:Hx; simpl; [|by rewrite delete_id].
  rewrite <-(insert_delete_id cs i x Hx) at 1. case_decide as HP.
  - rewrite map_filter_insert_True by done. rewrite map_size_insert_None; [lia|].
    apply map_lookup_filter_None. left. apply lookup_delete_eq.
  - rewrite map_filter_insert_False by done. by rewrite delete_delete_eq, Nat.add_0_r.
Qed.

Lemma count_change P `{∀ x, Decision (P x)} i cs cs' :
  (∀ j, j ≠ i → cs' !! j = cs !! j) → count P cs' + one P (cs !! i) = count P cs + one P (cs' !! i).
Proof.
  intros Heq. rewrite (count_delete P i cs), (count_delete P i cs').
  assert (delete i cs' = delete i cs) as ->; [|lia].
  apply map_eq. intros j. destruct (decide (j = i)) as [->|]; [by rewrite !lookup_delete_eq|].
  rewrite !lookup_delete_ne by done. auto.
Qed.

Lemma count_ext P Q `{∀ x, Decision (P x)} `{∀ x, Decision (Q x)} cs :
  (∀ i x, cs !! i = Some x → P x ↔ Q x) → count P cs = count Q cs.
Proof.
  intros HPQ. unfold count. f_equal. apply map_filter_ext. intros i x Hx. by apply (HPQ i).
Qed.

Definition counted v ps h : gmap nat connector_state → nat := count (λ x, uses_at v ps x = Some h).

(** ** The invariant *)

Section invariant.
Context (cfg : PoolConfig).

(** The objects alone. *)
Record store_ok (s : heap) : Prop := {
  st_below : below (network s);
  st_loc_mc : ∀ m, is_Some (view s !! m) → m < next_loc s;
  st_loc_hcp : ∀ h, is_Some (hcps s !! h) → h < next_loc s;
  st_pool : ∀ k h, pools s !! k = Some h → is_Some (hcps s !! h);
  st_pool_inj : ∀ k k' h, pools s !! k = Some h → pools s !! k' = Some h → k = k';
  st_conn : ∀ m c b k, view s !! m = Some (c, b, k) → c ≠ None ∧ k ≠ "" ∧ is_Some (pools s !! k);
  st_owned : ∀ m c, c ∈ owned (view s) m → c < next_conn (network s);
  st_disjoint : ∀ m m' c, c ∈ owned (view s) m → c ∈ owned (view s) m' → m = m';
}.

(** Connection [m] is idle in a host pool, or a connector uses it. *)
Definition is_idle (s : heap) (m : nat) : Prop := ∃ h p, hcps s !! h = Some p ∧ m ∈ idle p.
Definition is_held (cs : gmap nat connector_state) (i m : nat) : Prop := ∃ x, cs !! i = Some x ∧ managed x = Some m.

Record inv (σ : system) : Prop := {
  inv_store : store_ok (sys_heap σ);
  inv_connector : ∀ i x, connectors σ !! i = Some x →
    connector_ok (view (sys_heap σ)) (pools (sys_heap σ)) x;
  inv_idle : ∀ h p m, hcps (sys_heap σ) !! h = Some p → m ∈ idle p →
    home (view (sys_heap σ)) (pools (sys_heap σ)) m = Some h;
  inv_nodup : ∀ h p, hcps (sys_heap σ) !! h = Some p → NoDup (idle p);
  inv_held_idle : ∀ i m, is_held (connectors σ) i m → ¬ is_idle (sys_heap σ) m;
  inv_held_once : ∀ i j m, is_held (connectors σ) i m → is_held (connectors σ) j m → i = j;
  inv_open : ∀ m, is_idle (sys_heap σ) m ∨ (∃ i, is_held (connectors σ) i m) →
    owned (view (sys_heap σ)) m ⊆ opened (network (sys_heap σ));
  inv_direct_open : ∀ i x, connectors σ !! i = Some x → direct x ⊆ opened (network (sys_heap σ));
  inv_direct_owned : ∀ i x m c, connectors σ !! i = Some x → c ∈ direct x → c ∉ owned (view (sys_heap σ)) m;
  inv_direct_once : ∀ i j x y c, connectors σ !! i = Some x → connectors σ !! j = Some y →
    c ∈ direct x → c ∈ direct y → i = j;
  inv_no_leak : ∀ c, c ∈ opened (network (sys_heap σ)) →
    (∃ i x, connectors σ !! i = Some x ∧ c ∈ direct x)
    ∨ ∃ m, c ∈ owned (view (sys_heap σ)) m ∧ (is_idle (sys_heap σ) m ∨ ∃ i, is_held (connectors σ) i m);
  inv_count : ∀ h p, hcps (sys_heap σ) !! h = Some p →
    numActive p = (Z.of_nat (length (idle p))
      + Z.of_nat (counted (view (sys_heap σ)) (pools (sys_heap σ)) h (connectors σ)))%Z;
  inv_max : ∀ h p, hcps (sys_heap σ) !! h = Some p →
    (numActive p <= Z.max 0 (MaxPerKey cfg))%Z ∧ (Z.of_nat (length (idle p)) <= Z.max 0 (MaxIdlePerKey cfg))%Z;
}.

(** ** One exchange between a connector and a host pool *)

Definition held_list (x : option connector_state) : list nat := option_list (x ≫= managed).
Definition odirect (x : option connector_state) : gset nat := from_option direct ∅ x.

Lemma is_held_list cs i m : is_held cs i m ↔ m ∈ held_list (cs !! i).
Proof.
  unfold is_held, held_list. destruct (cs !! i) as [x|]; simpl.
  - split; [intros (? & [= <-] & ->); by left|].
    destruct (managed x) as [m'|] eqn:Hm; [|by intros ?%elem_of_nil].
    intros ->%list_elem_of_singleton. by exists x.
  - split; [by intros (? & ? & _)|by intros ?%elem_of_nil].
Qed.

Section exchange.
Context (σ : system) (s' : heap) (cs' : gmap nat connector_state) (i h : nat)
        (p p' : hostConnectionPool) (dead : list nat).
Local Abbreviation s := (sys_heap σ).
Local Abbreviation cs := (connectors σ).
Context (Hinv : inv σ) (Hp : hcps s !! h = Some p)
  (Hcs : ∀ j, j ≠ i → cs' !! j = cs !! j)
  (Heff : effect h p' (owned_by (view s) dead) s s')
  (Hperm : idle p ++ held_list (cs !! i) ≡ₚ dead ++ idle p' ++ held_list (cs' !! i)).

Lemma exchange_view : view s' = view s.
Proof. by apply effect_view in Heff. Qed.

Lemma exchange_idle m : is_idle s' m ↔ m ∈ idle p' ∨ ∃ h' p0, h' ≠ h ∧ hcps s !! h' = Some p0 ∧ m ∈ idle p0.
Proof.
  destruct Heff as [_ Hh]. unfold is_idle. rewrite Hh. setoid_rewrite lookup_insert_Some.
  split; [naive_solver|]. intros [Hm|(h' & p0 & Hne & Hh' & Hm)]; [by exists h, p'; eauto|].
  exists h', p0. naive_solver.
Qed.

Lemma exchange_elem m :
  m ∈ dead ∨ m ∈ idle p' ∨ m ∈ held_list (cs' !! i) ↔ m ∈ idle p ∨ m ∈ held_list (cs !! i).
Proof. rewrite <-!elem_of_app. by rewrite <-Hperm. Qed.

(** The connections concerned were all different. *)
Lemma exchange_nodup : NoDup (dead ++ idle p' ++ held_list (cs' !! i)).
Proof.
  rewrite <-Hperm. apply NoDup_app. split; [by eapply inv_nodup|]. split.
  - intros m Hm Hi. apply is_held_list in Hi. eapply inv_held_idle; [done..|]. by exists h, p.
  - unfold held_list. destruct (cs !! i ≫= managed); simpl; [apply NoDup_singleton|apply NoDup_nil_2].
Qed.

(** A connection that is still idle or in use was so before, and is not closed. *)
Lemma exchange_live m : is_idle s' m ∨ (∃ j, is_held cs' j m) →
  (is_idle s m ∨ ∃ j, is_held cs j m) ∧ m ∉ dead.
Proof.
  pose proof exchange_nodup as Hnd. apply NoDup_app in Hnd as (_ & Hdead & _).
  assert (∀ m, m ∈ dead → is_idle s m ∨ is_held cs i m) as Hwas.
  { intros m' Hm'. destruct (proj1 (exchange_elem m') (or_introl Hm')) as [?|?];
      [left; by exists h, p|right; by apply is_held_list]. }
  assert (m ∈ idle p' ∨ m ∈ held_list (cs' !! i) → (is_idle s m ∨ ∃ j, is_held cs j m) ∧ m ∉ dead) as Hhere.
  { intros Hm. split.
    - destruct (proj1 (exchange_elem m) (or_intror Hm)) as [?|?];
        [left; by exists h, p|right; exists i; by apply is_held_list].
    - intros Hd. apply (Hdead m Hd). by apply elem_of_app. }
  intros [Hm|[j Hj]].
  - apply exchange_idle in Hm as [Hm|(h' & p0 & Hne & Hh' & Hm)]; [by auto|].
    split; [left; by exists h', p0|]. intros Hd.
    destruct (proj1 (exchange_elem m) (or_introl Hd)) as [Hd'|Hd'].
    + apply Hne. eapply (inv_idle _ Hinv) in Hm; [|done]. eapply (inv_idle _ Hinv) in Hd'; [|done]. congruence.
    + apply is_held_list in Hd'. eapply (inv_held_idle _ Hinv); [done|]. by exists h', p0.
  - destruct (decide (j = i)) as [->|Hne]; [apply Hhere; right; by apply is_held_list|].
    destruct Hj as (x & Hx & Hm). rewrite Hcs in Hx by done.
    assert (is_held cs j m) as Hj by (by exists x). split; [by eauto|]. intros Hd.
    destruct (proj1 (exchange_elem m) (or_introl Hd)) as [Hd'|Hd'].
    + eapply (inv_held_idle _ Hinv); [done|]. by exists h, p.
    + apply is_held_list in Hd'. by pose proof (inv_held_once _ Hinv _ _ _ Hj Hd').
Qed.

Context (Hnew : ∀ x, cs' !! i = Some x → connector_ok (view s) (pools s) x)
  (Hdir : odirect (cs' !! i) = odirect (cs !! i))
  (Hback : ∀ m, m ∈ idle p' → m ∈ held_list (cs !! i) → home (view s) (pools s) m = Some h)
  (Hother : ∀ h', h' ≠ h → one (λ x, uses_at (view s) (pools s) x = Some h') (cs' !! i)
                         = one (λ x, uses_at (view s) (pools s) x = Some h') (cs !! i))
  (Hcount : (numActive p' + Z.of_nat (length (idle p))
               + Z.of_nat (one (λ x, uses_at (view s) (pools s) x = Some h) (cs !! i))
             = numActive p + Z.of_nat (length (idle p'))
               + Z.of_nat (one (λ x, uses_at (view s) (pools s) x = Some h) (cs' !! i)))%Z)
  (Hmax : (numActive p' <= Z.max 0 (MaxPerKey cfg))%Z
          ∧ (Z.of_nat (length (idle p')) <= Z.max 0 (MaxIdlePerKey cfg))%Z).

Lemma exchange_store : store_ok s'.
Proof.
  destruct Heff as [[Ho Hn Hv Hps Hl _] Hh]. destruct (inv_store _ Hinv) as [].
  split; rewrite ?Hv, ?Hps, ?Hl, ?Hn; try done.
  - intros c. rewrite Ho, Hn. set_unfold. intros [? _]. by apply st_below0.
  - intros h'. rewrite Hh, lookup_insert_is_Some'. intros [<-|?]; [by apply st_loc_hcp0|by auto].
  - intros k h' Hk. rewrite Hh, lookup_insert_is_Some'. eauto.
Qed.

(** The connections of a connector of its own before and after are the same. *)
Lemma exchange_direct j x c : cs' !! j = Some x → c ∈ direct x → ∃ y, cs !! j = Some y ∧ c ∈ direct y.
Proof.
  intros Hx Hc. destruct (decide (j = i)) as [->|Hne]; [|rewrite Hcs in Hx by done; eauto].
  rewrite Hx in Hdir. simpl in Hdir. rewrite Hdir in Hc.
  destruct (cs !! i) as [y|]; simpl in Hc; [by eauto|set_solver].
Qed.

Lemma exchange_direct_back j y c : cs !! j = Some y → c ∈ direct y → ∃ x, cs' !! j = Some x ∧ c ∈ direct x.
Proof.
  intros Hy Hc. destruct (decide (j = i)) as [->|Hne]; [|rewrite <-Hcs in Hy by done; eauto].
  rewrite Hy in Hdir. simpl in Hdir. rewrite <-Hdir in Hc.
  destruct (cs' !! i) as [x|]; simpl in Hc; [by eauto|set_solver].
Qed.

Lemma exchange_held_idle j m : is_held cs' j m → ¬ is_idle s' m.
Proof.
  intros Hj Hm. apply exchange_idle in Hm. destruct (decide (j = i)) as [->|Hne].
  - apply is_held_list in Hj. pose proof exchange_nodup as Hnd.
    apply NoDup_app in Hnd as (_ & _ & (_ & Hd & _)%NoDup_app).
    destruct Hm as [Hm|(h' & p0 & Hne & Hh' & Hm)]; [by apply (Hd m)|].
    destruct (proj1 (exchange_elem m) (or_intror (or_intror Hj))) as [Hi|Hi].
    + apply Hne. eapply (inv_idle _ Hinv) in Hm; [|done]. eapply (inv_idle _ Hinv) in Hi; [|done]. congruence.
    + apply is_held_list in Hi. eapply (inv_held_idle _ Hinv); [done|]. by exists h', p0.
  - assert (is_held cs j m) as Hj' by (destruct Hj as (x & Hx & ?); rewrite Hcs in Hx by done; by exists x).
    destruct Hm as [Hm|(h' & p0 & _ & Hh' & Hm)]; [|eapply (inv_held_idle _ Hinv); [done|by exists h', p0]].
    destruct (proj1 (exchange_elem m) (or_intror (or_introl Hm))) as [Hi|Hi].
    + eapply (inv_held_idle _ Hinv); [done|]. by exists h, p.
    + apply is_held_list in Hi. by pose proof (inv_held_once _ Hinv _ _ _ Hj' Hi).
Qed.

(** A connector that holds [m] after the exchange: another one held it before, or it
    is [i]. *)
Lemma exchange_held_other j m : j ≠ i → is_held cs' j m → is_held cs j m.
Proof. intros Hne (x & Hx & Hm). rewrite Hcs in Hx by done. by exists x. Qed.

Lemma exchange_held_once j k m : is_held cs' j m → is_held cs' k m → j = k.
Proof.
  assert (∀ j, j ≠ i → is_held cs' j m → is_held cs' i m → False) as Hmix.
  { intros l Hne Hl Hi. apply (exchange_held_other _ _ Hne) in Hl. apply is_held_list in Hi.
    destruct (proj1 (exchange_elem m) (or_intror (or_intror Hi))) as [Hm|Hm].
    - eapply (inv_held_idle _ Hinv); [done|]. by exists h, p.
    - apply is_held_list in Hm. by pose proof (inv_held_once _ Hinv _ _ _ Hl Hm). }
  intros Hj Hk. destruct (decide (j = i)) as [->|Hji], (decide (k = i)) as [->|Hki]; [done|..].
  - by destruct (Hmix k Hki).
  - by destruct (Hmix j Hji).
  - eapply (inv_held_once _ Hinv); by apply exchange_held_other.
Qed.

Lemma exchange_no_leak c : c ∈ opened (network s') →
  (∃ j x, cs' !! j = Some x ∧ c ∈ direct x)
  ∨ ∃ m, c ∈ owned (view s') m ∧ (is_idle s' m ∨ ∃ j, is_held cs' j m).
Proof.
  rewrite exchange_view. destruct Heff as [[Ho _ _ _ _ _] _]. rewrite Ho, elem_of_difference.
  intros [Hc Hdead]. destruct (inv_no_leak _ Hinv c Hc) as [(j & y & Hy & Hcy)|(m & Hcm & Hm)].
  { left. destruct (exchange_direct_back _ _ _ Hy Hcy) as (x & ? & ?). eauto. }
  right. exists m. split; [done|]. rewrite elem_of_owned_by in Hdead.
  assert (m ∉ dead) as Hnd by (intros ?; apply Hdead; eauto).
  assert (m ∈ idle p ∨ m ∈ held_list (cs !! i) → is_idle s' m ∨ ∃ j, is_held cs' j m) as Hhere.
  { intros [?|[Hm'|Hm']]%exchange_elem; [done|left; apply exchange_idle; by left|].
    right. exists i. by apply is_held_list. }
  destruct Hm as [(h' & p0 & Hh' & Hm)|[j Hj]].
  - destruct (decide (h' = h)) as [->|Hne]; [apply Hhere; left; congruence|].
    left. apply exchange_idle. right. eauto 10.
  - destruct (decide (j = i)) as [->|Hne]; [apply Hhere; right; by apply is_held_list|].
    right. exists j. destruct Hj as (x & Hx & ?). exists x. by rewrite Hcs.
Qed.

Lemma exchange_counts h' p0 : hcps s' !! h' = Some p0 →
  numActive p0 = (Z.of_nat (length (idle p0)) + Z.of_nat (counted (view s) (pools s) h' cs'))%Z.
Proof.
  destruct Heff as [_ ->]. unfold counted.
  pose proof (count_change (λ x, uses_at (view s) (pools s) x = Some h') i cs cs' Hcs) as Hch.
  intros [[<- <-]|[Hne Hh']]%lookup_insert_Some.
  - pose proof (inv_count _ Hinv _ _ Hp) as Hold. unfold counted in Hold. lia.
  - pose proof (inv_count _ Hinv _ _ Hh') as Hold. unfold counted in Hold.
    specialize (Hother h' (not_eq_sym Hne)). lia.
Qed.

Lemma inv_exchange : inv (Sys s' cs').
Proof.
  pose proof exchange_view as Hv. pose proof (closes_pools _ _ _ (proj1 Heff)) as Hps.
  pose proof (closes_opened _ _ _ (proj1 Heff)) as Ho.
  split; simpl; rewrite ?Hv, ?Hps.
  - apply exchange_store.
  - intros j x Hx. destruct (decide (j = i)) as [->|Hne]; [by apply Hnew|].
    rewrite Hcs in Hx by done. by apply (inv_connector _ Hinv j).
  - intros h' p0 m. destruct Heff as [_ ->]. intros [[<- <-]|[Hne Hh']]%lookup_insert_Some Hm.
    + destruct (proj1 (exchange_elem m) (or_intror (or_introl Hm))) as [?|?]; [by eapply inv_idle|by apply Hback].
    + by eapply inv_idle.
  - intros h' p0. destruct Heff as [_ ->]. intros [[<- <-]|[Hne Hh']]%lookup_insert_Some; [|by eapply inv_nodup].
    pose proof exchange_nodup as Hnd. by apply NoDup_app in Hnd as (_ & _ & (? & _ & _)%NoDup_app).
  - apply exchange_held_idle.
  - apply exchange_held_once.
  - intros m Hm. apply exchange_live in Hm as [Hm Hnd]. rewrite Ho. intros c Hc. apply elem_of_difference.
    split; [by apply (inv_open _ Hinv m)|]. rewrite elem_of_owned_by. intros (m' & Hm' & Hc').
    apply Hnd. by rewrite (st_disjoint _ (inv_store _ Hinv) m m' c).
  - intros j x Hx c Hc. destruct (exchange_direct _ _ _ Hx Hc) as (y & Hy & Hcy). rewrite Ho.
    apply elem_of_difference. split; [by apply (inv_direct_open _ Hinv j y)|].
    rewrite elem_of_owned_by. intros (m & _ & Hcm). by eapply inv_direct_owned.
  - intros j x m c Hx Hc. destruct (exchange_direct _ _ _ Hx Hc) as (y & Hy & Hcy). by eapply inv_direct_owned.
  - intros j k x y c Hx Hy Hcx Hcy. destruct (exchange_direct _ _ _ Hx Hcx) as (x' & ? & ?).
    destruct (exchange_direct _ _ _ Hy Hcy) as (y' & ? & ?). by eapply (inv_direct_once _ Hinv).
  - intros c Hc. pose proof (exchange_no_leak c Hc) as Hl. by rewrite Hv in Hl.
  - intros h' p0 Hh'. by apply exchange_counts.
  - intros h' p0. destruct Heff as [_ ->]. intros [[<- <-]|[Hne Hh']]%lookup_insert_Some; [done|by eapply inv_max].
Qed.
End exchange.

(** ** Changes of one connector *)

Section one_connector.
Context (σ : system) (s' : heap) (i : nat) (x x' : connector_state).
Local Abbreviation s := (sys_heap σ).
Local Abbreviation cs := (connectors σ).
Context (Hinv : inv σ) (Hx : cs !! i = Some x).

Lemma is_held_insert j m : is_held (<[i := x']> cs) j m ↔ i = j ∧ managed x' = Some m ∨ i ≠ j ∧ is_held cs j m.
Proof. unfold is_held. setoid_rewrite lookup_insert_Some. naive_solver. Qed.

Lemma is_held_here m : is_held cs i m ↔ managed x = Some m.
Proof. unfold is_held. rewrite Hx. naive_solver. Qed.

Lemma is_held_same : managed x' = managed x → ∀ j m, is_held (<[i := x']> cs) j m ↔ is_held cs j m.
Proof.
  intros Hm j m. rewrite is_held_insert. destruct (decide (i = j)) as [<-|]; [|naive_solver].
  rewrite is_held_here, Hm. naive_solver.
Qed.

Lemma counted_same v ps h : uses_at v ps x' = uses_at v ps x → counted v ps h (<[i := x']> cs) = counted v ps h cs.
Proof.
  intros Hu. pose proof (count_change (λ x, uses_at v ps x = Some h) i cs (<[i := x']> cs)) as Hc.
  rewrite Hx, lookup_insert_eq in Hc. simpl in Hc. rewrite Hu in Hc. unfold counted.
  assert (∀ j, j ≠ i → <[i := x']> cs !! j = cs !! j) as Hj by (intros; by rewrite lookup_insert_ne).
  specialize (Hc Hj). case_decide; lia.
Qed.

(** The call moves on; the connections stay where they are. *)
Lemma inv_local :
  opened (network s') = opened (network s) → next_conn (network s) ≤ next_conn (network s') →
  view s' = view s → hcps s' = hcps s → pools s' = pools s → next_loc s' = next_loc s →
  connector_ok (view s) (pools s) x' → direct x' = direct x → managed x' = managed x → slot x' = slot x →
  inv (Sys s' (<[i := x']> cs)).
Proof.
  intros Ho Hn Hv Hh Hps Hl Hok Hd Hm Hs. pose proof (is_held_same Hm) as Hheld.
  assert (∀ j y, <[i := x']> cs !! j = Some y → ∃ z, cs !! j = Some z ∧ direct y = direct z) as Hdirect.
  { intros j y [[<- <-]|[_ Hj]]%lookup_insert_Some; eauto. }
  assert (∀ m, is_idle s' m ↔ is_idle s m) as Hidle by (intros; unfold is_idle; by rewrite Hh).
  destruct Hinv as [[] ? ? ? ? ? Hop Hdo Hdw Hd1 Hnl Hcount ?].
  split; simpl; rewrite ?Hv, ?Hh, ?Hps, ?Ho; try done.
  - split; rewrite ?Hv, ?Hh, ?Hps, ?Hl; try done.
    + intros c. rewrite Ho. intros ?%st_below0. lia.
    + intros m c ?%st_owned0. lia.
  - intros j y [[<- <-]|[_ Hj]]%lookup_insert_Some; eauto.
  - intros j m Hj%Hheld. rewrite Hidle. eauto.
  - intros j k m Hj%Hheld Hk%Hheld. eauto.
  - intros m. rewrite Hidle. setoid_rewrite Hheld. apply Hop.
  - intros j y (z & Hz & ->)%Hdirect. by apply (Hdo j).
  - intros j y m c (z & Hz & ->)%Hdirect. by apply (Hdw j).
  - intros j k y z c (y' & Hy & ->)%Hdirect (z' & Hz & ->)%Hdirect. by apply Hd1.
  - intros c Hc. setoid_rewrite Hheld. destruct (Hnl c Hc) as [(j & y & Hy & Hcy)|(m & Hcm & Hlive)].
    + left. destruct (decide (i = j)) as [<-|Hne].
      * exists i, x'. rewrite lookup_insert_eq. split; [done|]. rewrite Hd. congruence.
      * exists j, y. by rewrite lookup_insert_ne.
    + right. exists m. by rewrite Hidle.
  - intros h p Hp. rewrite counted_same; [by apply Hcount|]. unfold uses_at. by rewrite Hs, Hm.
Qed.

(** The connections the connector owns are closed, or replaced by new ones. *)
Lemma inv_own :
  opened (network s') = (opened (network s) ∖ direct x) ∪ direct x' →
  next_conn (network s) ≤ next_conn (network s') →
  (∀ c, c ∈ direct x' → next_conn (network s) ≤ c < next_conn (network s')) →
  view s' = view s → hcps s' = hcps s → pools s' = pools s → next_loc s' = next_loc s →
  connector_ok (view s) (pools s) x' → managed x = None → managed x' = None → slot x = None → slot x' = None →
  inv (Sys s' (<[i := x']> cs)).
Proof.
  intros Ho Hn Hnew Hv Hh Hps Hl Hok Hm Hm' Hs Hs'.
  assert (∀ j m, is_held (<[i := x']> cs) j m ↔ is_held cs j m) as Hheld by (apply is_held_same; congruence).
  assert (∀ m, is_idle s' m ↔ is_idle s m) as Hidle by (intros; unfold is_idle; by rewrite Hh).
  destruct Hinv as [[] ? ? ? ? ? Hop Hdo Hdw Hd1 Hnl Hcount ?].
  assert (∀ c, c ∈ direct x' → c ∉ opened (network s)) as Hfresh by (intros c ?%Hnew ?%st_below0; lia).
  split; simpl; rewrite ?Hv, ?Hh, ?Hps; try done.
  - split; rewrite ?Hv, ?Hh, ?Hps, ?Hl; try done.
    + intros c. rewrite Ho. set_unfold. intros [[?%st_below0 _]|?%Hnew]; lia.
    + intros m c ?%st_owned0. lia.
  - intros j y [[<- <-]|[_ Hj]]%lookup_insert_Some; eauto.
  - intros j m Hj%Hheld. rewrite Hidle. eauto.
  - intros j k m Hj%Hheld Hk%Hheld. eauto.
  - intros m. rewrite Hidle. setoid_rewrite Hheld. intros Hlive c Hc. rewrite Ho. set_unfold. left.
    split; [by apply (Hop m)|]. intros Hcx. by eapply Hdw.
  - intros j y [[<- <-]|[Hne Hj]]%lookup_insert_Some c Hc; rewrite Ho; set_unfold; [by right|left].
    split; [by apply (Hdo j y)|]. intros Hcx. by apply Hne, (Hd1 i j x y c).
  - intros j y m c [[<- <-]|[Hne Hj]]%lookup_insert_Some Hc; [|by eapply Hdw].
    intros Hcm%st_owned0. apply Hnew in Hc. lia.
  - intros j k y z c [[<- <-]|[Hne Hj]]%lookup_insert_Some [[<- <-]|[Hne' Hk]]%lookup_insert_Some Hcy Hcz; try done.
    + destruct (Hfresh c Hcy). by apply (Hdo k z).
    + destruct (Hfresh c Hcz). by apply (Hdo j y).
    + by apply (Hd1 j k y z c).
  - intros c. rewrite Ho. set_unfold. setoid_rewrite Hheld. setoid_rewrite Hidle. intros [[Hc Hnot]|Hc].
    + destruct (Hnl c Hc) as [(j & y & Hy & Hcy)|?]; [left|by right].
      exists j, y. rewrite lookup_insert_ne; [done|]. intros <-. congruence.
    + left. exists i, x'. by rewrite lookup_insert_eq.
  - intros h p Hp. rewrite counted_same; [by apply Hcount|]. unfold uses_at. by rewrite Hs, Hm, Hs', Hm'.
Qed.
End one_connector.

(** ** New objects *)


(** What is true of a connector stays true when pools and connections are added. *)
Lemma home_mono v v' ps ps' m h : v ⊆ v' → ps ⊆ ps' → home v ps m = Some h → home v' ps' m = Some h.
Proof.
  unfold home. intros Hv Hps. destruct (v !! m) as [[p k]|] eqn:Hm; [|done].
  rewrite (lookup_weaken _ _ _ _ Hm Hv). intros Hk. by eapply lookup_weaken.
Qed.

Lemma connector_ok_mono v v' ps ps' x : v ⊆ v' → ps ⊆ ps' → connector_ok v ps x → connector_ok v' ps' x.
Proof.
  intros Hv Hps [Hpc Hf Hhp Hc]. split; [|done..|].
  - unfold pc_ok in *. destruct (x.2) as [|[]|[]|[]| | |]; try done.
    + destruct Hpc as [? (y & Hy & ?)%fmap_Some]. split; [done|].
      rewrite (lookup_weaken _ _ _ _ Hy Hv). by subst.
    + destruct Hpc as [? (y & Hy & ?)%fmap_Some]. split; [done|].
      rewrite (lookup_weaken _ _ _ _ Hy Hv). by subst.
    + destruct Hpc as (? & ? & ?). refine (conj _ (conj _ _)); [done..|by eapply lookup_weaken].
    + destruct Hpc as (? & ?). split; [done|by eapply home_mono].
    + destruct Hpc as (? & ? & ?). refine (conj _ (conj _ _)); [done..|by eapply lookup_weaken].
    + destruct Hpc as (? & k & ?). split; [done|]. exists k. by eapply lookup_weaken.
  - intros m Hm. destruct (Hc m Hm) as (c & b & k & Hk & ?). exists c, b, k. split; [|done].
    by eapply lookup_weaken.
Qed.

(** The host pool that counts a connector exists, and adding objects does not change
    it. *)
Lemma uses_at_known σ i x h : inv σ → connectors σ !! i = Some x →
  uses_at (view (sys_heap σ)) (pools (sys_heap σ)) x = Some h →
  ∃ k, pools (sys_heap σ) !! k = Some h.
Proof.
  intros Hinv Hx. destruct (inv_connector _ Hinv i x Hx) as [Hpc _ _ _].
  unfold uses_at. destruct (slot x) as [h'|] eqn:Hs.
  - intros [= <-]. unfold slot in Hs. unfold pc_ok in Hpc. destruct (x.2); simplify_eq; naive_solver.
  - destruct (managed x) as [m|]; [|done]. simpl. unfold home.
    destruct (view (sys_heap σ) !! m) as [[p k]|]; [|done]. eauto.
Qed.

Lemma uses_at_mono σ v' ps' i x : inv σ → connectors σ !! i = Some x →
  view (sys_heap σ) ⊆ v' → pools (sys_heap σ) ⊆ ps' →
  uses_at v' ps' x = uses_at (view (sys_heap σ)) (pools (sys_heap σ)) x.
Proof.
  intros Hinv Hx Hv Hps. destruct (inv_connector _ Hinv i x Hx) as [_ _ _ Hc].
  unfold uses_at. destruct (slot x); [done|]. destruct (managed x) as [m|]; [|done]. simpl.
  destruct (Hc m eq_refl) as (c & b & k & Hk & _).
  destruct (st_conn _ (inv_store _ Hinv) _ _ _ _ Hk) as (_ & _ & [h Hh]).
  assert (home (view (sys_heap σ)) (pools (sys_heap σ)) m = Some h) as Hhome by (unfold home; by rewrite Hk).
  by rewrite Hhome, (home_mono _ _ _ _ _ _ Hv Hps Hhome).
Qed.

Lemma inv_create σ key : inv σ → key ≠ "" → pools (sys_heap σ) !! key = None →
  let s := sys_heap σ in let h := next_loc s in
  inv (Sys (MkHeap (network s) (mcs s) (<[h := MkHostPool [] 0]> (hcps s)) (<[key := h]> (pools s))
              (S h) (stopped s)) (connectors σ)).
Proof.
  intros Hinv Hkey Hnone. cbn zeta. set (s := sys_heap σ) in *. set (s' := MkHeap _ _ _ _ _ _).
  assert (hcps s !! next_loc s = None) as Hfresh.
  { destruct (hcps s !! next_loc s) eqn:E; [|done].
    pose proof (st_loc_hcp _ (inv_store _ Hinv) (next_loc s) ltac:(eauto)). subst s. lia. }
  assert (pools s ⊆ pools s') as Hps by by apply insert_subseteq.
  assert (view s ⊆ view s') as Hv by done.
  assert (∀ m, is_idle s' m ↔ is_idle s m) as Hidle.
  { intros m. unfold is_idle. simpl. setoid_rewrite lookup_insert_Some. split.
    - intros (h & p & [[<- <-]|[? ?]] & Hm); [by apply elem_of_nil in Hm|eauto].
    - intros (h & p & Hh & Hm). exists h, p. split; [right; split; [congruence|done]|done]. }
  assert (∀ h, counted (view s') (pools s') h (connectors σ) = counted (view s) (pools s) h (connectors σ)) as Hcounted.
  { intros h. apply count_ext. intros i x Hx. by rewrite (uses_at_mono σ _ _ i x Hinv Hx Hv Hps). }
  pose proof Hinv as [[] Hok Hid ? Hhi ? Hop ? ? ? Hnl Hcount ?]. fold s in st_pool0, st_pool_inj0.
  split; simpl; try done.
  - split; simpl; try done.
    + intros m ?%st_loc_mc0. fold s in H. lia.
    + intros h. rewrite lookup_insert_is_Some'. intros [<-|?%st_loc_hcp0]; [lia|]. fold s in H. lia.
    + intros k h. rewrite lookup_insert_is_Some'. intros [[<- <-]|[_ Hk]]%lookup_insert_Some; [by left|right; eauto].
    + intros k k' h [[<- <-]|[_ Hk]]%lookup_insert_Some [[<- Hh]|[_ Hk']]%lookup_insert_Some; [done|..|eauto].
      * destruct (st_pool0 _ _ Hk'). congruence.
      * destruct (st_pool0 _ _ Hk). congruence.
    + intros m c b k Hm. apply st_conn0 in Hm as (? & ? & ?). split_and!; [done..|]. apply lookup_insert_is_Some'. by right.
  - intros i x Hx. eapply connector_ok_mono; [exact Hv|exact Hps|]. by apply (Hok i).
  - intros h p m [[<- <-]|[_ Hh]]%lookup_insert_Some Hm; [by apply elem_of_nil in Hm|].
    eapply home_mono; [exact Hv|exact Hps|]. by eapply Hid.
  - intros h p [[<- <-]|[_ Hh]]%lookup_insert_Some; [apply NoDup_nil_2|eauto].
  - intros i m. rewrite Hidle. apply Hhi.
  - intros m. rewrite Hidle. apply Hop.
  - intros c. setoid_rewrite Hidle. apply Hnl.
  - intros h p Hh. rewrite Hcounted. apply lookup_insert_Some in Hh as [[<- <-]|[_ Hh]]; [|by apply Hcount].
    simpl. cut (counted (view s) (pools s) (next_loc s) (connectors σ) = 0); [lia|].
    unfold counted, count. apply map_size_empty_iff. apply map_empty. intros i.
    apply map_lookup_filter_None. right. intros x Hx Hu. simpl in Hu.
    destruct (uses_at_known σ i x _ Hinv Hx Hu) as [k Hk]. destruct (st_pool0 _ _ Hk). congruence.
  - intros h p [[<- <-]|[_ Hh]]%lookup_insert_Some; [simpl; lia|eauto].
Qed.

(** A dialed connection enters the pool, in the hands of the connector that had
    reserved its place. *)
Lemma inv_new σ i x x' key h c b u v w' :
  inv σ → connectors σ !! i = Some x → slot x = Some h → managed x = None → direct x = ∅ →
  let s := sys_heap σ in let m := next_loc s in
  key ≠ "" → pools s !! key = Some h →
  dialed (network s) w' (Ok (Some c, b)) →
  managed x' = Some m → slot x' = None → direct x' = ∅ →
  let s' := MkHeap w' (<[m := MkConn (Some c) b key u v]> (mcs s)) (hcps s) (pools s) (S m) (stopped s) in
  connector_ok (view s') (pools s) x' →
  inv (Sys s' (<[i := x']> (connectors σ))).
Proof.
  intros Hinv Hx Hslot Hm Hd. cbn zeta. set (s := sys_heap σ) in *. set (m := next_loc s) in *.
  intros Hkey Hpool (Hn & Ho & _ & _ & Hnew) Hm' Hslot' Hd' Hok'. set (s' := MkHeap _ _ _ _ _ _) in *.
  assert (view s !! m = None) as Hfresh.
  { destruct (view s !! m) eqn:E; [|done].
    pose proof (st_loc_mc _ (inv_store _ Hinv) m ltac:(eauto)). subst s m. lia. }
  assert (view s' = <[m := (Some c, b, key)]> (view s)) as Hview.
  { unfold view, s'. simpl. by rewrite fmap_insert. }
  assert (view s ⊆ view s') as Hv by (rewrite Hview; by apply insert_subseteq).
  assert (owned (view s') m = clients (Some c, b)) as Hownm.
  { unfold owned. by rewrite Hview, lookup_insert_eq. }
  assert (∀ m', m' ≠ m → owned (view s') m' = owned (view s) m') as Hown.
  { intros m' Hne. unfold owned. by rewrite Hview, lookup_insert_ne. }
  assert (∀ m', is_idle s' m' ↔ is_idle s m') as Hidle by done.
  assert (∀ j m', is_held (<[i := x']> (connectors σ)) j m' ↔ i = j ∧ m' = m ∨ is_held (connectors σ) j m') as Hheld.
  { intros j m'. rewrite (is_held_insert σ i x x' Hx), Hm'. destruct (decide (i = j)) as [<-|Hne]; [|naive_solver].
    rewrite (is_held_here σ i x Hx), Hm. naive_solver. }
  assert (home (view s') (pools s) m = Some h) as Hhome by (unfold home; by rewrite Hview, lookup_insert_eq).
  assert (∀ h', counted (view s') (pools s) h' (<[i := x']> (connectors σ)) = counted (view s) (pools s) h' (connectors σ)) as Hcounted.
  { intros h'. rewrite (counted_same σ i x x' Hx).
    - apply count_ext. intros j y Hy.
      pose proof (uses_at_mono σ (view s') (pools s) j y Hinv Hy Hv (reflexivity _)) as Hu. fold s in Hu. by rewrite Hu.
    - unfold uses_at. rewrite Hslot, Hslot', Hm'. simpl. done. }
  assert (∀ m', is_idle s m' → m' ≠ m) as Hidm.
  { intros m' (h' & p & Hh & Hin) ->. eapply (inv_idle _ Hinv) in Hin; [|done].
    unfold home in Hin. fold s in Hin. by rewrite Hfresh in Hin. }
  assert (∀ j m', is_held (connectors σ) j m' → m' ≠ m) as Hhm.
  { intros j m' (y & Hy & Hmy) ->. destruct (inv_connector _ Hinv j y Hy) as [_ _ _ Hc].
    destruct (Hc _ Hmy) as (? & ? & ? & Hk & _). fold s in Hk. congruence. }
  assert (∀ j y, <[i := x']> (connectors σ) !! j = Some y → direct y = ∅ ∨ i ≠ j ∧ connectors σ !! j = Some y) as Hdir.
  { intros j y [[<- <-]|?]%lookup_insert_Some; auto. }
  pose proof Hinv as [[] Hok Hid ? Hhi Hho Hop Hdo Hdw Hd1 Hnl Hcount ?].
  assert (∀ m' c', c' ∈ owned (view s') m' → m' = m ∧ c' ∈ clients (Some c, b) ∨ m' ≠ m ∧ c' ∈ owned (view s) m') as Hcase.
  { intros m' c' Hc'. destruct (decide (m' = m)) as [->|Hne]; [left|right]; [by rewrite Hownm in Hc'|].
    by rewrite Hown in Hc'. }
  split; simpl; try done.
  - split; simpl; try done.
    + intros c'. simpl. rewrite Ho. set_unfold. intros [?%st_below0|?]; [fold s in H; lia|]. by apply Hnew.
    + intros m'. rewrite Hview, lookup_insert_is_Some'. intros [<-|?%st_loc_mc0]; [lia|]. fold s in H. lia.
    + intros h' Hh'%st_loc_hcp0. fold s in Hh'. lia.
    + intros m' c' b' k. rewrite Hview. intros [[<- [= <- <- <-]]|[_ Hm'']]%lookup_insert_Some; [by eauto|].
      by apply (st_conn0 m' c' b').
    + intros m' c' [[-> Hc']|[Hne Hc'%st_owned0]]%Hcase; [by apply Hnew|]. fold s in Hc'. lia.
    + intros m1 m2 c' [[-> H1]|[Hne H1]]%Hcase [[-> H2]|[Hne' H2]]%Hcase; [done|..|eauto].
      * apply st_owned0 in H2. apply Hnew in H1. fold s in H2. lia.
      * apply st_owned0 in H1. apply Hnew in H2. fold s in H1. lia.
  - intros j y [[<- <-]|[_ Hj]]%lookup_insert_Some; [done|].
    eapply connector_ok_mono; [exact Hv|reflexivity|]. by apply (Hok j).
  - intros h' p m' Hh' Hm''. eapply home_mono; [exact Hv|reflexivity|]. by eapply Hid.
  - intros j m' [[<- ->]|Hj]%Hheld Hi; [by apply (Hidm m)|]. by eapply Hhi.
  - intros j k m' [[<- ->]|Hj]%Hheld [[<- Hk']|Hk]%Hheld; try done; [|by destruct (Hhm _ _ Hj)|eauto].
    by destruct (Hhm _ _ Hk).
  - intros m' Hlive. destruct (decide (m' = m)) as [->|Hne]; [rewrite Hownm, Ho; set_solver|].
    rewrite Hown, Ho by done. setoid_rewrite Hheld in Hlive.
    assert (owned (view s) m' ⊆ opened (network s)); [|set_solver]. apply Hop. naive_solver.
  - intros j y Hy. rewrite Ho. destruct (Hdir j y Hy) as [->|[_ Hj]]; [set_solver|].
    pose proof (Hdo j y Hj). fold s in H. set_solver.
  - intros j y m' c' Hy Hc'. destruct (Hdir j y Hy) as [He|[_ Hj]]; [rewrite He in Hc'; set_solver|].
    intros [[-> Hc'']|[_ Hc'']]%Hcase; [|by eapply Hdw].
    apply Hnew in Hc''. apply (Hdo j y Hj), st_below0 in Hc'. fold s in Hc'. lia.
  - intros j k y z c' Hy Hz Hcy Hcz.
    destruct (Hdir j y Hy) as [He|[_ Hj]]; [rewrite He in Hcy; set_solver|].
    destruct (Hdir k z Hz) as [He|[_ Hk]]; [rewrite He in Hcz; set_solver|]. by eapply (Hd1 j k y z c').
  - intros c'. rewrite Ho. set_unfold. intros [Hc'|Hc'].
    + destruct (Hnl c' Hc') as [(j & y & Hy & Hcy)|(m' & Hcm & Hlive)].
      * left. exists j, y. rewrite lookup_insert_ne; [done|]. intros <-. rewrite Hx in Hy. simplify_eq. set_solver.
      * right. exists m'. setoid_rewrite Hheld. rewrite Hown; [naive_solver|].
        destruct Hlive as [?|[j ?]]; [by apply Hidm|by eapply Hhm].
    + right. exists m. rewrite Hownm. split; [done|]. right. exists i. apply Hheld. by left.
  - intros h' p Hh'. rewrite Hcounted. by apply Hcount.
Qed.
End invariant.
