(* ===== verification/PoolSpec.v ===== *)
(** Every step of the connectors, the scrubber and the pool keeps the invariant, and
    no call gets stuck. *)
From S2P Require Import Prelude.
From S2P Require Import GoText.
From S2P Require Import SshDial.
From S2P Require Import ConnectionPool.
From S2P Require Import SshConnector.
From S2P Require Import PoolEffects.
From S2P Require Import PoolInvariant.

(** ** Pool keys are not empty *)

Lemma concat_nonempty sep l x : sep ≠ "" → x ∈ l → x ≠ "" → String.concat sep l ≠ "".
Proof.
  intros Hsep Hin Hx. destruct l as [|y [|z l]]; [by apply elem_of_nil in Hin|..].
  - apply list_elem_of_singleton in Hin. by subst.
  - simpl. intros H. apply (f_equal String.length) in H. rewrite !str_length_app in H.
    destruct sep; [done|]. simpl in H. lia.
Qed.

Lemma user_at_host_nonempty u h p : user_at_host u h p ≠ "".
Proof.
  unfold user_at_host. intros H. apply (f_equal String.length) in H. rewrite !str_length_app in H.
  simpl in H. lia.
Qed.

Lemma generatePoolKey_nonempty c : generatePoolKey c ≠ "".
Proof.
  unfold generatePoolKey, Join. eapply (concat_nonempty _ _ (user_at_host (Cfg_User c) (Cfg_Host c) (Cfg_Port c)));
    [done| |apply user_at_host_nonempty].
  apply elem_of_sort_strings. unfold key_parts. simpl. by left.
Qed.

Section steps.
Context `{Ssh} `{!Dialer} `{!DialerLaws _} (cfg : PoolConfig).
Local Abbreviation P := (M heap conn_error).

(** ** The exchange when one connector changes *)

Lemma inv_exchange_insert σ s' i x x' h p p' dead :
  inv cfg σ → connectors σ !! i = Some x → hcps (sys_heap σ) !! h = Some p →
  let v := view (sys_heap σ) in let ps := pools (sys_heap σ) in
  effect h p' (owned_by v dead) (sys_heap σ) s' →
  idle p ++ option_list (managed x) ≡ₚ dead ++ idle p' ++ option_list (managed x') →
  connector_ok v ps x' → direct x' = direct x →
  (managed x = None ∨ uses_at v ps x = Some h ∧ slot x = None) →
  (∀ h', h' ≠ h → uses_at v ps x' = Some h' ↔ uses_at v ps x = Some h') →
  (numActive p' + Z.of_nat (length (idle p)) + (if decide (uses_at v ps x = Some h) then 1 else 0)
   = numActive p + Z.of_nat (length (idle p')) + (if decide (uses_at v ps x' = Some h) then 1 else 0))%Z →
  (numActive p' <= Z.max 0 (MaxPerKey cfg))%Z ∧ (Z.of_nat (length (idle p')) <= Z.max 0 (MaxIdlePerKey cfg))%Z →
  inv cfg (Sys s' (<[i := x']> (connectors σ))).
Proof.
  intros Hinv Hx Hp v ps; subst v ps. intros Heff Hperm Hok Hdir Hback Hother Hcount Hmax.
  eapply (inv_exchange cfg σ s' (<[i := x']> (connectors σ)) i h p p' dead); try done.
  - intros j Hj. by rewrite lookup_insert_ne.
  - unfold held_list. by rewrite lookup_insert_eq, Hx.
  - intros y. rewrite lookup_insert_eq. by intros [= <-].
  - by rewrite lookup_insert_eq, Hx.
  - intros m _. unfold held_list. rewrite Hx. simpl. destruct (managed x) as [m'|] eqn:Hm; simpl;
      [|by intros ?%elem_of_nil]. intros ->%list_elem_of_singleton.
    destruct Hback as [?|[Hu Hs]]; [done|]. unfold uses_at in Hu. by rewrite Hs, Hm in Hu.
  - intros h' Hne. rewrite lookup_insert_eq, Hx. simpl. specialize (Hother h' Hne). clear Hcount.
    destruct (decide (uses_at _ _ x' = _)), (decide (uses_at _ _ x = _)); try done; exfalso; tauto.
  - rewrite lookup_insert_eq, Hx. simpl.
    destruct (decide (uses_at _ _ x' = _)), (decide (uses_at _ _ x = _)); done.
Qed.

Lemma inv_known σ h p : inv cfg σ → hcps (sys_heap σ) !! h = Some p → known (sys_heap σ) (idle p).
Proof.
  intros Hinv Hp. apply Forall_forall. intros m Hm. eapply (inv_idle _ _ Hinv) in Hm; [|done].
  unfold home in Hm. by destruct (view (sys_heap σ) !! m).
Qed.

Lemma inv_load σ m c b k : view (sys_heap σ) !! m = Some (c, b, k) →
  ∃ mc, mcs (sys_heap σ) !! m = Some mc ∧ mc_client mc = c ∧ mc_bastionClient mc = b ∧ mc_poolKey mc = k.
Proof.
  unfold view. rewrite lookup_fmap. intros (mc & Hmc & [= -> -> ->])%fmap_Some. eauto.
Qed.

(** A connector in the middle of [Connect] has nothing. *)
Lemma detached_facts (x : connector_state) : detached x.1 → managed x = None ∧ direct x = ∅.
Proof.
  intros (Hc & Hb & Hm & Hf). split; [done|]. unfold direct. rewrite Hf, Hc, Hb. done.
Qed.

Lemma connector_ok_detached v ps x : detached x.1 → pc_ok v ps x → connector_ok v ps x.
Proof.
  intros (Hc & Hb & Hm & Hf) Hpc. unfold managed in *. split; unfold managed; rewrite ?Hm; [done..|by intros [? ?]|done].
Qed.

(** ** The sections of a call *)

Definition keeps (σ : system) (i : nat) (m : P connector_state) : Prop :=
  ∃ r s', m (sys_heap σ) = (Ok r, s') ∧ inv cfg (Sys s' (<[i := r]> (connectors σ))).

Lemma inv_local_same σ i s p p' : inv cfg σ → connectors σ !! i = Some (s, p) →
  pc_ok (view (sys_heap σ)) (pools (sys_heap σ)) (s, p') → slot (s, p') = slot (s, p) →
  inv cfg (Sys (sys_heap σ) (<[i := (s, p')]> (connectors σ))).
Proof.
  intros Hinv Hx Hpc Hs. eapply (inv_local cfg σ (sys_heap σ) i (s, p)); try done.
  by destruct (inv_connector _ _ Hinv i _ Hx) as [_ ? ? ?].
Qed.

Lemma keeps_Looking σ i s u key : inv cfg σ → connectors σ !! i = Some (s, Looking u key) →
  keeps σ i (advance cfg s (Looking u key)).
Proof.
  intros Hinv Hx. eexists _, _. split; [reflexivity|].
  destruct (inv_connector _ _ Hinv i _ Hx) as [Hpc _ _ _]. unfold pc_ok in Hpc. simpl in Hpc.
  destruct (pools (sys_heap σ) !! key) as [h|] eqn:Hk; (eapply inv_local_same; [done..| |done]).
  - destruct u as [c|m b err]; unfold pc_ok; simpl; [naive_solver|].
    destruct Hpc as [Hm ([p k] & Hv & [= ->])%fmap_Some]. split; [done|]. unfold home. by rewrite Hv.
  - by destruct u.
Qed.

Lemma keeps_Creating σ i s u key : inv cfg σ → connectors σ !! i = Some (s, Creating u key) →
  keeps σ i (advance cfg s (Creating u key)).
Proof.
  intros Hinv Hx. destruct (inv_connector _ _ Hinv i _ Hx) as [Hpc _ _ _]. unfold pc_ok in Hpc. simpl in Hpc.
  assert (key ≠ "") as Hkey.
  { destruct u as [c|m b err]; [tauto|]. destruct Hpc as [_ ([[c b'] k] & Hv & [= ->])%fmap_Some].
    by apply (st_conn _ (inv_store _ _ Hinv)) in Hv as (_ & ? & _). }
  assert (∀ σ' h, inv cfg σ' → connectors σ' !! i = Some (s, Creating u key) →
    pools (sys_heap σ') !! key = Some h →
    inv cfg (Sys (sys_heap σ') (<[i := (s, Locking u key h)]> (connectors σ')))) as Hgo.
  { intros σ' h Hinv' Hx' Hk. eapply inv_local_same; [done..| |done].
    destruct (inv_connector _ _ Hinv' i _ Hx') as [Hpc' _ _ _]. unfold pc_ok in *. simpl in *.
    destruct u as [c|m b err]; [naive_solver|].
    destruct Hpc' as [Hm ([p k] & Hv & [= ->])%fmap_Some]. split; [done|]. unfold home. by rewrite Hv. }
  unfold keeps, advance, create_pool, mbind, M_bind, get. simpl.
  destruct (pools (sys_heap σ) !! key) as [h|] eqn:Hk; simpl.
  - eexists _, _. split; [reflexivity|]. by apply Hgo.
  - eexists _, _. split; [reflexivity|].
    apply (Hgo (Sys (MkHeap _ _ _ _ _ _) (connectors σ))); [by apply inv_create|done|]. apply lookup_insert_eq.
Qed.

Lemma keeps_Releasing σ i s c h : inv cfg σ → connectors σ !! i = Some (s, Releasing c h) →
  keeps σ i (advance cfg s (Releasing c h)).
Proof.
  intros Hinv Hx. destruct (inv_connector _ _ Hinv i _ Hx) as [[Hdet [k Hk]] _ _ _].
  destruct (st_pool _ (inv_store _ _ Hinv) _ _ Hk) as [p Hp].
  unfold keeps. simpl. unfold Get_release.
  step_with (add_active_run (E:=conn_error) _ _ _ (-1) Hp). eexists _, _. split; [reflexivity|].
  destruct (detached_facts (s, Direct c) Hdet) as [Hm Hd].
  destruct (inv_max _ _ Hinv _ _ Hp) as [Hmax Hidle].
  eapply (inv_exchange_insert σ _ i _ _ h p (MkHostPool (idle p) (numActive p + -1)) []); try done; simpl.
  - apply set_hcp_effect.
  - by apply connector_ok_detached.
  - by left.
  - intros h' Hne. unfold uses_at. simpl. unfold managed in *. simpl in *. rewrite Hm. naive_solver.
  - unfold uses_at. simpl. unfold managed in *. simpl in *. rewrite Hm. rewrite decide_True by done. simpl. lia.
  - simpl. lia.
Qed.

Lemma attempt_run {E' A} (m : P A) s :
  attempt (E':=E') m s = match m s with
                 | (Ok a, s') => (Ok (inr a), s')
                 | (Err e, s') => (Ok (inl e), s')
                 | (Panic, s') => (Panic, s')
                 end.
Proof. done. Qed.

(** The connection taken from the pool is handed to the connector. *)
Lemma connect_with_run s c m h (s0 : heap) k b cl :
  view s0 !! m = Some (Some cl, b, k) → home (view s0) (pools s0) m = Some h →
  detached s → hasPool s = true →
  ∃ x', connect_with s c m s0 = (Ok x', s0) ∧ managed x' = Some m ∧ slot x' = None ∧ direct x' = ∅
    ∧ connector_ok (view s0) (pools s0) x' ∧ uses_at (view s0) (pools s0) x' = Some h.
Proof.
  intros Hv Hh (Hc & Hb & Hm & Hf) Hp.
  assert (∃ mc, mcs s0 !! m = Some mc ∧ mc_client mc = Some cl) as (mc & Hmc & Hcl).
  { unfold view in Hv. rewrite lookup_fmap in Hv. apply fmap_Some in Hv as (mc & ? & [= ?]). eauto. }
  eexists. unfold connect_with. rewrite (bind_run _ _ _ _ _ (load_mc_run (E:=conn_error) _ _ _ Hmc)), Hcl.
  split; [reflexivity|]. split_and!; try done.
  split; unfold managed; simpl; try done. intros m' [= <-]. eauto 10.
Qed.

Lemma keeps_Locking_Get σ i s c key h :
  inv cfg σ → connectors σ !! i = Some (s, Locking (UGet c) key h) →
  keeps σ i (advance cfg s (Locking (UGet c) key h)).
Proof.
  intros Hinv Hx. destruct (inv_connector _ _ Hinv i _ Hx) as [([Hdet Hpool] & Hkey & Hk) _ _ _]. simpl in *.
  destruct (st_pool _ (inv_store _ _ Hinv) _ _ Hk) as [p Hp].
  destruct (Get_locked_run cfg key h _ p Hp (inv_known _ _ _ Hinv Hp)) as (dead & rest & r & s' & Hr & Hcase).
  destruct (inv_max _ _ Hinv _ _ Hp) as [Hmax Hidle].
  pose proof Hdet as (Hc & Hb & Hm & Hf).
  unfold keeps. simpl. unfold mbind at 1, M_bind. rewrite attempt_run, Hr.
  assert (direct (s, Locking (UGet c) key h) = ∅) as Hd by by apply detached_facts.
  assert (uses_at (view (sys_heap σ)) (pools (sys_heap σ)) (s, Locking (UGet c) key h) = None) as Hu.
  { unfold uses_at, managed. simpl. by rewrite Hm. }
  assert (managed (s, Locking (UGet c) key h) = None) as Hm0 by done.
  destruct r as [[m|]|e|]; simpl in Hcase; [| | |done].
  - destruct Hcase as [Hl He].
    assert (m ∈ idle p) as Hin by (rewrite Hl; set_solver).
    pose proof (inv_idle _ _ Hinv _ _ _ Hp Hin) as Hhome. pose proof Hhome as Hhome0. unfold home in Hhome0.
    destruct (view (sys_heap σ) !! m) as [[[[cl|] b] k]|] eqn:Hv; [| |done].
    2: { by apply (st_conn _ (inv_store _ _ Hinv)) in Hv as [? _]. }
    pose proof (effect_view _ _ _ _ _ He) as Hv'. pose proof (closes_pools _ _ _ (proj1 He)) as Hps'.
    destruct (connect_with_run s c m h s' k b cl) as (x' & Hrun & Hm' & Hs' & Hd' & Hok' & Hu');
      [by rewrite Hv'|by rewrite Hv', Hps'|done..|].
    exists x', s'. split; [done|]. rewrite Hv', Hps' in Hok', Hu'.
    eapply (inv_exchange_insert σ s' i _ x' h p _ dead); try done.
    + rewrite Hm0, Hm', Hl. simpl. rewrite app_nil_r. f_equiv. by rewrite Permutation_cons_append.
    + by rewrite Hd, Hd'.
    + by left.
    + intros h' Hne. rewrite Hu, Hu'. split; intros [=]; congruence.
    + rewrite Hu, Hu'. rewrite decide_False, decide_True by done. simpl.
      rewrite Hl, length_app. simpl. lia.
    + simpl. rewrite Hl, length_app in Hidle. simpl in Hidle. lia.
  - destruct Hcase as (Hl & -> & Hlt & He). eexists _, _. split; [reflexivity|].
    eapply (inv_exchange_insert σ s' i _ _ h p _ dead); try done.
    + rewrite Hm0. unfold managed. simpl. by rewrite Hm, Hl.
    + by apply connector_ok_detached.
    + by left.
    + intros h' Hne. rewrite Hu. unfold uses_at. simpl. split; intros [=]; congruence.
    + rewrite Hu. unfold uses_at. simpl. repeat case_decide; try congruence. rewrite Hl. lia.
    + simpl. lia.
  - destruct Hcase as (Hl & -> & _ & He). eexists _, _. split; [reflexivity|].
    eapply (inv_exchange_insert σ s' i _ _ h p _ dead); try done.
    + rewrite Hm0. unfold managed. simpl. by rewrite Hm, Hl.
    + by apply connector_ok_detached.
    + by left.
    + rewrite Hu. unfold uses_at, managed. simpl. rewrite Hm. simpl. rewrite Hl. lia.
    + simpl. lia.
Qed.

Lemma keeps_Locking_Put σ i s m b err key h :
  inv cfg σ → connectors σ !! i = Some (s, Locking (UPut m b err) key h) →
  keeps σ i (advance cfg s (Locking (UPut m b err) key h)).
Proof.
  intros Hinv Hx. destruct (inv_connector _ _ Hinv i _ Hx) as [[Hm Hhome] Hf _ Hc]. simpl in *.
  destruct (Hc m Hm) as (cl & bc & k & Hv & _ & _).
  assert (pools (sys_heap σ) !! k = Some h) as Hk by (unfold home in Hhome; by rewrite Hv in Hhome).
  destruct (st_pool _ (inv_store _ _ Hinv) _ _ Hk) as [p Hp].
  destruct (inv_load σ m _ _ _ Hv) as (mc & Hmc & _).
  destruct (Put_locked_run cfg h m mc b (sys_heap σ) p Hp Hmc) as (s' & Hr & Hcase).
  destruct (inv_max _ _ Hinv _ _ Hp) as [Hmax Hidle]. pose proof (inv_count _ _ Hinv _ _ Hp) as Hcount.
  unfold keeps. simpl. rewrite (bind_run _ _ _ _ _ Hr). eexists _, _. split; [reflexivity|].
  set (x := (s, Locking (UPut m b err) key h)) in *. set (x' := (disconnected s, Ready None err)).
  assert (uses_at (view (sys_heap σ)) (pools (sys_heap σ)) x = Some h) as Hu by (unfold uses_at; simpl; by rewrite Hm).
  assert (uses_at (view (sys_heap σ)) (pools (sys_heap σ)) x' = None) as Hu' by done.
  assert (direct x = ∅) as Hd by (unfold direct; simpl; rewrite Hf, bool_decide_true; eauto).
  assert (0 < counted (view (sys_heap σ)) (pools (sys_heap σ)) h (connectors σ)) as Hpos.
  { unfold counted. rewrite (count_delete _ i), Hx. simpl. rewrite decide_True by done. lia. }
  destruct Hcase as [[_ He]|(_ & Hlt & He)].
  - eapply (inv_exchange_insert σ s' i x x' h p (MkHostPool (idle p) (Z.max 0 (numActive p - 1))) [m]); try done.
    + unfold owned_by. simpl. by rewrite (right_id_L ∅ (∪)).
    + rewrite Hm. simpl. rewrite app_nil_r. by rewrite <-Permutation_cons_append.
    + by apply connector_ok_detached.
    + by right.
    + intros h' Hne. rewrite Hu, Hu'. split; intros [=]; congruence.
    + rewrite Hu, Hu'. rewrite decide_True, decide_False by done. simpl. lia.
    + simpl. lia.
  - eapply (inv_exchange_insert σ s' i x x' h p (MkHostPool (idle p ++ [m]) (numActive p)) []); try done.
    + rewrite Hm. simpl. by rewrite app_nil_r.
    + by apply connector_ok_detached.
    + by right.
    + intros h' Hne. rewrite Hu, Hu'. split; intros [=]; congruence.
    + rewrite Hu, Hu'. rewrite decide_True, decide_False by done. simpl. rewrite length_app. simpl. lia.
    + simpl. rewrite length_app. simpl. lia.
Qed.

(** A dial that fails leaves the connections as they are. *)
Lemma inv_dial_failed σ i s p p' w' e : inv cfg σ → connectors σ !! i = Some (s, p) →
  dialed (network (sys_heap σ)) w' (Err e) → detached s →
  pc_ok (view (sys_heap σ)) (pools (sys_heap σ)) (s, p') → slot (s, p') = slot (s, p) →
  inv cfg (Sys (set_network w' (sys_heap σ)) (<[i := (s, p')]> (connectors σ))).
Proof.
  intros Hinv Hx [Hn Ho] Hdet Hpc Hs. eapply (inv_local cfg σ _ i (s, p)); try done.
  by apply connector_ok_detached.
Qed.

Lemma keeps_Dialing σ i s c key h : inv cfg σ → connectors σ !! i = Some (s, Dialing c key h) →
  keeps σ i (advance cfg s (Dialing c key h)).
Proof.
  intros Hinv Hx. destruct (inv_connector _ _ Hinv i _ Hx) as [([Hdet Hpool] & Hkey & Hk) _ _ _]. simpl in *.
  unfold keeps. simpl. unfold mbind at 1, M_bind. rewrite attempt_run. unfold Get_dial, on_net.
  destruct (dial c _ (network (sys_heap σ))) as [r w'] eqn:Hdial.
  apply dial_spec in Hdial; [|by apply (st_below _ (inv_store _ _ Hinv))].
  destruct r as [[[cl|] b]|e|]; [| |eexists _, _; split; [reflexivity|]|by destruct Hdial].
  - unfold mbind, M_bind, Get_new. simpl. unfold mbind, M_bind. simpl. unfold load_mc, mbind, M_bind, get, deref.
    simpl. unfold connect_with.
    match goal with |- context [load_mc ?m ≫= _] =>
      erewrite (bind_run (load_mc m)); [|apply load_mc_run; apply lookup_insert_eq] end.
    eexists _, _. split; [reflexivity|]. destruct (detached_facts (s, Dialing c key h) Hdet) as [Hm Hd].
    eapply (inv_new cfg σ i _ _ key h cl b); try done.
    destruct Hdet as (Hc & Hb & Hmm & Hf). split; unfold managed; simpl; try done.
    intros m [= <-]. exists cl, b, key. split; [|done]. unfold view. simpl. by rewrite lookup_fmap, lookup_insert_eq.
  - by destruct Hdial as (_ & _ & ? & _).
  - by eapply inv_dial_failed; [done..| |unfold pc_ok; simpl; eauto|].
Qed.

Lemma keeps_Direct σ i s c : inv cfg σ → connectors σ !! i = Some (s, Direct c) →
  keeps σ i (advance cfg s (Direct c)).
Proof.
  intros Hinv Hx. destruct (inv_connector _ _ Hinv i _ Hx) as [Hdet _ _ _].
  pose proof Hdet as (Hc & Hb & Hm & Hf). simpl in *.
  destruct (detached_facts (s, Direct c) Hdet) as [Hm0 Hd0].
  unfold keeps. simpl. unfold connect_direct, mbind, M_bind. rewrite attempt_run. unfold on_net.
  destruct (dial c _ (network (sys_heap σ))) as [r w'] eqn:Hdial.
  apply dial_spec in Hdial; [|by apply (st_below _ (inv_store _ _ Hinv))].
  destruct r as [p|e|]; [| |by destruct Hdial]; (eexists _, _; split; [reflexivity|]).
  - destruct Hdial as (Hn & Ho & _ & _ & Hnew). destruct p as [p1 p2].
    eapply (inv_own cfg σ _ i (s, Direct c)); try done.
    + rewrite Hd0. simpl. rewrite Ho. set_solver.
    + split; unfold managed; simpl; try done; by intros [? ?].
  - destruct Hdial as [Hn Ho]. eapply (inv_local cfg σ _ i (s, Direct c)); try done.
    + by apply connector_ok_detached.
    + rewrite Hd0. unfold direct. simpl. by rewrite Hc, Hb.
Qed.

(** ** The start of a call *)

Lemma keeps_start_Connect σ i s r0 r1 c : inv cfg σ → connectors σ !! i = Some (s, Ready r0 r1) →
  client s = None → bastionClient s = None →
  inv cfg (Sys (sys_heap σ) (<[i := start_Connect s c]> (connectors σ))).
Proof.
  intros Hinv Hx Hc Hb. destruct (inv_connector _ _ Hinv i _ Hx) as [_ Hf _ Hcl]. simpl in *.
  assert (managedConn s = None) as Hm.
  { destruct (managedConn s) as [m|] eqn:Hm; [|done].
    destruct (Hcl m Hm) as (? & ? & ? & _ & Hc' & _). congruence. }
  assert (isFromPool s = false) as Hfp by (rewrite Hf; unfold managed; simpl; by rewrite Hm).
  unfold start_Connect. simpl.
  destruct (hasPool s && _) eqn:Hp; (eapply (inv_local cfg σ _ i (s, Ready r0 r1)); try done);
    try (unfold direct; simpl; by rewrite Hfp).
  - apply andb_true_iff in Hp as [Hp _]. apply connector_ok_detached; [done|]. split; [done|].
    apply generatePoolKey_nonempty.
  - by apply connector_ok_detached.
Qed.

Lemma IsConnected_run s σ : ∃ a b w', IsConnected s (sys_heap σ)
    = (Ok (E:=conn_error) (MkConnector (client s) (bastionClient s) (sftpClient s) (connCfg s) a (hasPool s)
              (isFromPool s) (managedConn s), b), set_network w' (sys_heap σ))
  ∧ opened w' = opened (network (sys_heap σ)) ∧ next_conn w' = next_conn (network (sys_heap σ)).
Proof.
  unfold IsConnected. destruct s as [cl bc f cf con hp fp mg]. simpl. destruct cl; [destruct con|].
  - unfold mbind at 1, M_bind at 1, on_net. simpl. eexists _, _, _. split; [reflexivity|done].
  - eexists _, _, (network (sys_heap σ)). split; [|done]. by destruct (sys_heap σ).
  - eexists _, _, (network (sys_heap σ)). split; [|done]. by destruct (sys_heap σ).
Qed.

Lemma keeps_IsConnected σ i s r0 r1 σ' : inv cfg σ → connectors σ !! i = Some (s, Ready r0 r1) →
  run (IsConnected s) σ (λ r, <[i := (r.1, Ready r0 r1)]> (connectors σ)) = Some σ' → inv cfg σ'.
Proof.
  intros Hinv Hx. unfold run. destruct (IsConnected_run s σ) as (a & b & w' & -> & Ho & Hn). intros [= <-].
  destruct (inv_connector _ _ Hinv i _ Hx) as [Hpc Hf Hh Hc].
  eapply (inv_local cfg σ _ i (s, Ready r0 r1)); try done. simpl. lia.
Qed.

Lemma close_sftp_run s s0 : ∃ e s', close_sftp s s0 = (Ok (E:=conn_error) e, s') ∧ quiet s0 s'.
Proof.
  unfold close_sftp. destruct (sftpClient s); [|eauto with kubexm].
  eexists _, _. split; [reflexivity|]. by apply tick_quiet.
Qed.

Lemma close_optional_run c s0 : ∃ e s', close_optional c s0 = (Ok (E:=conn_error) e, s')
  ∧ closes (match c with Some c => {[c]} | None => ∅ end) s0 s' ∧ hcps s' = hcps s0 ∧ mcs s' = mcs s0.
Proof.
  destruct c as [c|]; (eexists _, _; split; [reflexivity|]); (split; [|done]); [by split|apply closes_refl].
Qed.

Lemma quiet_facts s s' : quiet s s' →
  opened (network s') = opened (network s) ∧ next_conn (network s') = next_conn (network s)
  ∧ view s' = view s ∧ hcps s' = hcps s ∧ pools s' = pools s ∧ next_loc s' = next_loc s ∧ mcs s' = mcs s.
Proof. intros ([Ho ? ? ? ? ?] & ? & ?). split_and!; try done. rewrite Ho. set_solver. Qed.

Lemma keeps_start_Close_direct σ i s r0 r1 err s1 s2 :
  inv cfg σ → connectors σ !! i = Some (s, Ready r0 r1) → managedConn s = None → quiet (sys_heap σ) s1 →
  managedConn s2 = None → client s2 = client s → bastionClient s2 = bastionClient s →
  ∃ r s', (e1 ← close_optional (client s2) ; e2 ← close_optional (bastionClient s2) ;
     mret (disconnected s2, Ready None (first_error err (first_error e1 e2)))) s1 = (Ok (E:=conn_error) r, s')
   ∧ inv cfg (Sys s' (<[i := r]> (connectors σ))).
Proof.
  intros Hinv Hx Hm Hq Hm2 Hc2 Hb2. rewrite Hc2, Hb2.
  destruct (close_optional_run (client s) s1) as (e1 & s3 & Hr1 & Hcl1 & Hh1 & Hm1). step_with Hr1.
  destruct (close_optional_run (bastionClient s) s3) as (e2 & s4 & Hr2 & Hcl2 & Hh2 & Hmm2). step_with Hr2.
  eexists _, _. split; [reflexivity|]. apply quiet_facts in Hq as (Ho & Hn & Hv & Hh & Hp & Hl & Hmc).
  pose proof (closes_trans _ _ _ _ _ Hcl1 Hcl2) as [Ho' Hn' Hv' Hp' Hl' _].
  destruct (inv_connector _ _ Hinv i _ Hx) as [_ Hf _ _]. unfold managed in Hf. simpl in Hf. rewrite Hm in Hf.
  eapply (inv_own cfg σ s4 i (s, Ready r0 r1)); simpl; try congruence; try done.
  - unfold direct. simpl. rewrite Hf, Ho', Ho. simpl. unfold clients. simpl. set_solver.
  - simpl. lia.
  - by apply connector_ok_detached.
Qed.

Lemma keeps_start_Close σ i s r0 r1 : inv cfg σ → connectors σ !! i = Some (s, Ready r0 r1) →
  keeps σ i (start_Close s).
Proof.
  intros Hinv Hx. unfold keeps, start_Close. destruct (close_sftp_run s (sys_heap σ)) as (err & s1 & Hr & Hq).
  step_with Hr. cbn zeta. simpl.
  destruct (inv_connector _ _ Hinv i _ Hx) as [_ Hf Hhp Hcl]. unfold managed in *. simpl in *.
  destruct (managedConn s) as [m|] eqn:Hm.
  2: { destruct (keeps_start_Close_direct σ i s r0 r1 err s1
         (MkConnector (client s) (bastionClient s) None (connCfg s) false (hasPool s) (isFromPool s) None)
         Hinv Hx Hm Hq eq_refl eq_refl eq_refl) as (r & s' & Hr' & Hi).
       exists r, s'. split; [|done]. rewrite <-Hr'. simpl. by destruct (client s). }
  destruct (Hcl m eq_refl) as (cl & b & k & Hv & Hc & Hb). rewrite Hc, Hf, (Hhp ltac:(eauto)). simpl.
  pose proof (quiet_facts _ _ Hq) as (Ho & Hn & Hv1 & Hh & Hp & Hl & Hmc).
  destruct (inv_load σ m _ _ _ Hv) as (mc & Hmcs & Hcl' & Hb' & Hk').
  assert (mcs s1 !! m = Some mc) as Hm1 by congruence.
  destruct (IsHealthy_run m mc s1 Hm1) as (healthy & s2 & Hr2 & Hq2). step_with Hr2.
  pose proof (quiet_facts _ _ Hq2) as (Ho2 & Hn2 & Hv2 & Hh2 & Hp2 & Hl2 & Hmc2).
  assert (mcs s2 !! m = Some mc) as Hm2 by congruence.
  destruct (st_conn _ (inv_store _ _ Hinv) _ _ _ _ Hv) as (_ & Hkey & _).
  rewrite (bind_run _ _ _ (Some m) s2).
  2: { unfold Put_begin. rewrite (bind_run _ _ _ _ _ (load_mc_run (E:=conn_error) _ _ _ Hm2)).
       by rewrite decide_False, decide_False by congruence. }
  rewrite (bind_run _ _ _ _ _ (load_mc_run (E:=conn_error) _ _ _ Hm2)). eexists _, _. split; [reflexivity|].
  eapply (inv_local cfg σ s2 i (s, Ready r0 r1)); simpl; try congruence; try done.
  - lia.
  - split; unfold managed; simpl; try done.
    + split; [done|]. by rewrite Hv, <-Hk'.
    + intros m' [= <-]. by exists cl, b, k.
  - unfold direct. simpl. by rewrite Hf.
Qed.

Lemma keeps_advance σ i s p : inv cfg σ → connectors σ !! i = Some (s, p) →
  (∀ a b, p ≠ Ready a b) → keeps σ i (advance cfg s p).
Proof.
  intros Hinv Hx Hp. destruct p as [a b|u key|u key|[c|m b err] key h|c key h|c h|c].
  - by destruct (Hp a b).
  - by apply keeps_Looking.
  - by apply keeps_Creating.
  - by apply keeps_Locking_Get.
  - by apply keeps_Locking_Put.
  - by apply keeps_Dialing.
  - by apply keeps_Releasing.
  - by apply keeps_Direct.
Qed.

Lemma keeps_scrub σ h key : inv cfg σ → pools (sys_heap σ) !! key = Some h →
  ∃ s', scrub_host cfg h (sys_heap σ) = (Ok tt, s') ∧ inv cfg (Sys s' (connectors σ)).
Proof.
  intros Hinv Hk. destruct (st_pool _ (inv_store _ _ Hinv) _ _ Hk) as [p Hp].
  destruct (scrub_host_run cfg h _ p Hp (inv_known _ _ _ Hinv Hp)) as (dead & keep & s' & -> & Hperm & He).
  exists s'. split; [done|]. destruct (inv_max _ _ Hinv _ _ Hp) as [Hmax Hidle].
  pose proof (inv_count _ _ Hinv _ _ Hp) as Hcount. pose proof (Permutation_length Hperm) as Hlen.
  rewrite length_app in Hlen.
  eapply (inv_exchange cfg σ s' (connectors σ) 0 h p _ dead); try done; simpl.
  - rewrite <-Hperm. by rewrite (assoc_L (++)).
  - intros x. by apply (inv_connector _ _ Hinv).
  - intros m Hm Hheld. exfalso. apply is_held_list in Hheld. eapply (inv_held_idle _ _ Hinv); [done|].
    exists h, p. split; [done|]. rewrite <-Hperm. set_solver.
  - lia.
  - simpl. lia.
Qed.

(** Every event but a shutdown keeps the invariant; a call in progress is never
    stuck. *)
Lemma fire_inv `{GoRange} e σ σ' : e ≠ EShutdown → inv cfg σ → fire cfg e σ = Some σ' → inv cfg σ'.
Proof.
  intros He Hinv. destruct e as [i c|i|i|i|key|]; simpl; [..|done].
  - destruct (connectors σ !! i) as [[s []]|] eqn:Hx; try done. case_decide as Hc; [|done].
    intros [= <-]. destruct Hc. by eapply keeps_start_Connect.
  - destruct (connectors σ !! i) as [[s []]|] eqn:Hx; try done. by eapply keeps_IsConnected.
  - destruct (connectors σ !! i) as [[s []]|] eqn:Hx; try done.
    destruct (keeps_start_Close σ i s _ _ Hinv Hx) as (r & s' & Hr & Hinv'). unfold run. rewrite Hr.
    by intros [= <-].
  - destruct (connectors σ !! i) as [[s p]|] eqn:Hx; [|done]. intros Hrun.
    assert (∀ a b, p ≠ Ready a b) as Hp by (by intros a b ->).
    destruct (keeps_advance σ i s p Hinv Hx Hp) as (r & s' & Hr & Hinv').
    unfold run in Hrun. rewrite Hr in Hrun. destruct p; by simplify_eq.
  - destruct (pools (sys_heap σ) !! key) as [h|] eqn:Hk; [|done].
    destruct (keeps_scrub σ h key Hinv Hk) as (s' & Hr & Hinv'). unfold run. rewrite Hr. by intros [= <-].
Qed.

Lemma initial_inv n : inv cfg (initial n).
Proof.
  assert (∀ i x, connectors (initial n) !! i = Some x → ∃ b, x = (NewSSHConnector b, returned)) as Hnew.
  { intros i x Hx. simpl in Hx. rewrite lookup_fmap in Hx. apply fmap_Some in Hx as (b & _ & ->). eauto. }
  assert (∀ i m, ¬ is_held (connectors (initial n)) i m) as Hheld.
  { intros i m (x & Hx & Hm). by destruct (Hnew i x Hx) as [b ->]. }
  assert (∀ i x, connectors (initial n) !! i = Some x → direct x = ∅) as Hdirect.
  { intros i x Hx. by destruct (Hnew i x Hx) as [b ->]. }
  assert (∀ m, owned ∅ m = ∅) as Hown by done.
  split; simpl.
  - split; simpl; unfold view; simpl; rewrite ?fmap_empty; try done.
    all: try (intros *; rewrite lookup_empty; by intros [? ?]). all: intros; set_solver.
  - intros i x Hx. destruct (Hnew i x Hx) as [b ->]. by apply connector_ok_detached.
  - done.
  - done.
  - intros i m Hi. by destruct (Hheld i m).
  - intros i j m Hi. by destruct (Hheld i m).
  - intros m [(h & p & Hp & _)|[i Hi]]; [done|by destruct (Hheld i m)].
  - intros i x Hx. by rewrite (Hdirect i x).
  - intros i x m c Hx. rewrite (Hdirect i x) by done. set_solver.
  - intros i j x y c Hx _. rewrite (Hdirect i x) by done. set_solver.
  - set_solver.
  - done.
  - done.
Qed.

Lemma reachable_inv `{GoRange} es n σ :
  EShutdown ∉ es → fire_all cfg es (initial n) = Some σ → inv cfg σ.
Proof.
  intros Hes. cut (∀ σ0, inv cfg σ0 → fire_all cfg es σ0 = Some σ → inv cfg σ); [eauto using initial_inv|].
  induction es as [|e es IH]; intros σ0 Hinv; simpl; [by intros [= <-]|].
  destruct (fire cfg e σ0) as [σ1|] eqn:He; [|done]. simpl.
  apply IH; [set_solver|]. eapply fire_inv; [|done..]. set_solver.
Qed.

(** ** What the invariant says of the connections of the connectors *)

(** The connection a connector talks through is its own or the pooled one it holds,
    and is open. *)
Lemma client_cases σ i x c : inv cfg σ → connectors σ !! i = Some x → client x.1 = Some c →
  c ∈ opened (network (sys_heap σ)) ∧
  (c ∈ direct x ∨ ∃ m, is_held (connectors σ) i m ∧ c ∈ owned (view (sys_heap σ)) m).
Proof.
  intros Hinv Hx Hc. destruct (inv_connector _ _ Hinv i x Hx) as [_ Hf _ Hcl].
  destruct (managed x) as [m|] eqn:Hm.
  - destruct (Hcl m eq_refl) as (c' & b & k & Hv & Hc' & _). rewrite Hc in Hc'. injection Hc' as <-.
    assert (is_held (connectors σ) i m) as Hheld by (by exists x).
    assert (c ∈ owned (view (sys_heap σ)) m) as Hown.
    { unfold owned. rewrite Hv. unfold clients. simpl. set_solver. }
    split; [|by eauto]. by apply (inv_open _ _ Hinv m); eauto.
  - assert (c ∈ direct x) as Hd.
    { unfold direct. rewrite Hf. simpl. unfold clients. rewrite Hc. simpl. set_solver. }
    split; [|by left]. by apply (inv_direct_open _ _ Hinv i x).
Qed.

Lemma client_once σ i j x y c : inv cfg σ → connectors σ !! i = Some x → connectors σ !! j = Some y →
  client x.1 = Some c → client y.1 = Some c → i = j.
Proof.
  intros Hinv Hx Hy Hcx Hcy.
  destruct (client_cases σ i x c Hinv Hx Hcx) as [_ [Hd|(m & Hm & Ho)]],
    (client_cases σ j y c Hinv Hy Hcy) as [_ [Hd'|(m' & Hm' & Ho')]].
  - by eapply (inv_direct_once _ _ Hinv i j x y).
  - by destruct (inv_direct_owned _ _ Hinv i x m' c Hx Hd).
  - by destruct (inv_direct_owned _ _ Hinv j y m c Hy Hd').
  - rewrite (st_disjoint _ (inv_store _ _ Hinv) m m' c Ho Ho') in Hm. by eapply (inv_held_once _ _ Hinv).
Qed.

(** The idle connections of a key. *)
Definition idle_of (σ : system) (key : string) : list nat :=
  match pools (sys_heap σ) !! key with
  | Some h => from_option idle [] (hcps (sys_heap σ) !! h)
  | None => []
  end.

Lemma idle_of_spec σ key m : inv cfg σ → m ∈ idle_of σ key →
  is_idle (sys_heap σ) m ∧ ∃ c b, view (sys_heap σ) !! m = Some (Some c, b, key)
    ∧ c ∈ opened (network (sys_heap σ)) ∧ c ∈ owned (view (sys_heap σ)) m.
Proof.
  intros Hinv. unfold idle_of. destruct (pools (sys_heap σ) !! key) as [h|] eqn:Hk; [|by intros ?%elem_of_nil].
  destruct (hcps (sys_heap σ) !! h) as [p|] eqn:Hp; simpl; [|by intros ?%elem_of_nil]. intros Hm.
  assert (is_idle (sys_heap σ) m) as Hi by (by exists h, p). split; [done|].
  pose proof (inv_idle _ _ Hinv _ _ _ Hp Hm) as Hhome. unfold home in Hhome.
  destruct (view (sys_heap σ) !! m) as [[[c b] k]|] eqn:Hv; [|done].
  destruct (st_conn _ (inv_store _ _ Hinv) _ _ _ _ Hv) as (Hc & _ & _). destruct c as [c|]; [|done].
  rewrite (st_pool_inj _ (inv_store _ _ Hinv) key k h Hk Hhome).
  assert (c ∈ owned (view (sys_heap σ)) m) as Ho.
  { unfold owned. rewrite Hv. unfold clients. simpl. set_solver. }
  exists c, b. split_and!; try done. by apply (inv_open _ _ Hinv m (or_introl Hi)).
Qed.
End steps.
