(* ===== verification/PoolSafety.v ===== *)
(** What the pool of connections guarantees: no connection is shared, lost or opened
    beyond the limits, and no call panics; and what it does not: passwords are not told
    apart, and after [Shutdown] the limits no longer hold.

    Concrete inputs at which the theorems on the connection pool apply. *)
From S2P Require Import Prelude.
From S2P Require Import GoText.
From S2P Require Import SshDial.
From S2P Require Import ConnectionPool.
From S2P Require Import SshConnector.
From S2P Require Import PoolEffects.
From S2P Require Import PoolInvariant.
From S2P Require Import PoolSpec.

(** A connection object of the pool whose SSH connection is open. *)
Definition open_conn_of (s : heap) (key : string) (m : nat) : Prop :=
  ∃ mc c, mcs s !! m = Some mc ∧ mc_poolKey mc = key ∧ mc_client mc = Some c ∧ c ∈ opened (network s).

(** The object owns the SSH connection [c]. *)
Definition conn_has (s : heap) (m c : nat) : Prop :=
  ∃ mc, mcs s !! m = Some mc ∧ (mc_client mc = Some c ∨ mc_bastionClient mc = Some c).

Lemma conn_has_owned s m c : conn_has s m c ↔ c ∈ owned (view s) m.
Proof.
  unfold conn_has, owned, view. rewrite lookup_fmap. destruct (mcs s !! m) as [mc|]; simpl.
  - unfold clients, ident. simpl. split.
    + intros (? & [= <-] & [-> | ->]); set_solver.
    + intros [Hc|Hc]%elem_of_union; eexists; (split; [done|]); [left|right];
        [destruct (mc_client mc)|destruct (mc_bastionClient mc)]; set_solver.
  - split; [by intros (? & ? & _)|set_solver].
Qed.

(** The sections a call has left to run, at most. *)
Definition rank (p : pc) : nat :=
  match p with
  | Ready _ _ => 0
  | Direct _ => 1
  | Releasing _ _ => 2
  | Dialing _ _ _ => 3
  | Locking _ _ _ => 4
  | Creating _ _ => 5
  | Looking _ _ => 6
  end.

Section safety.
Context `{Ssh} `{!Dialer} `{!DialerLaws _} `{GoRange} (cfg : PoolConfig).

Lemma connect_with_rank s c m s0 x' s' : connect_with s c m s0 = (Ok x', s') → rank x'.2 ≤ 1.
Proof.
  unfold connect_with. intros (mc & t & _ & Hr)%bind_ok.
  destruct (mc_client mc); injection Hr as <- <-; simpl; lia.
Qed.

Lemma advance_rank s p s0 x' s' : (∀ a b, p ≠ Ready a b) →
  advance cfg s p s0 = (Ok x', s') → rank x'.2 < rank p.
Proof.
  intros Hp. destruct p as [a b|u key|u key|[c|m b err] key h|c key h|c h|c]; simpl; [by destruct (Hp a b)|..].
  - intros [= <- <-]. destruct (pools s0 !! key); simpl; lia.
  - intros (h & t & _ & [= <- <-])%bind_ok. simpl. lia.
  - intros (r & t & _ & Hr)%bind_ok. destruct r as [e|[m|]].
    + injection Hr as <- <-. simpl. lia.
    + apply connect_with_rank in Hr. lia.
    + injection Hr as <- <-. simpl. lia.
  - intros (r & t & _ & [= <- <-])%bind_ok. simpl. lia.
  - intros (r & t & _ & Hr)%bind_ok. destruct r as [e|q].
    + injection Hr as <- <-. simpl. lia.
    + apply bind_ok in Hr as (m & t' & _ & Hr). apply connect_with_rank in Hr. lia.
  - intros (r & t & _ & [= <- <-])%bind_ok. simpl. lia.
  - unfold connect_direct. intros (r & t & _ & Hr)%bind_ok. destruct r; injection Hr as <- <-; simpl; lia.
Qed.

(** In a state of the invariant, the sections of connector [i] that are left can be
    run one after the other. *)
Lemma finish n σ i x : inv cfg σ → connectors σ !! i = Some x → rank x.2 ≤ n →
  ∃ k σ' s r e, k ≤ n ∧ fire_all cfg (replicate k (EAdvance i)) σ = Some σ'
    ∧ connectors σ' !! i = Some (s, Ready r e).
Proof.
  revert σ x. induction n as [|n IH]; intros σ [s p] Hinv Hx Hn; simpl in Hn.
  { exists 0, σ, s. destruct p; simpl in Hn; try lia. eauto. }
  destruct (decide (rank p = 0)) as [Hz|Hz].
  { exists 0, σ, s. destruct p; simpl in Hz; try lia. eauto with lia. }
  assert (∀ a b, p ≠ Ready a b) as Hp by (by intros a b ->).
  destruct (keeps_advance cfg σ i s p Hinv Hx Hp) as (x' & s' & Hr & Hinv').
  pose proof (advance_rank _ _ _ _ _ Hp Hr) as Hlt.
  destruct (IH (Sys s' (<[i := x']> (connectors σ))) x' Hinv') as (k & σ' & s2 & r & e & Hk & Hf & He);
    [apply lookup_insert_eq|lia|].
  exists (S k), σ', s2, r, e. split; [lia|]. split; [|done]. simpl. rewrite Hx. unfold run. rewrite Hr. simpl.
  by destruct p.
Qed.

(** Every open connection of a key is counted by its host pool. *)
Lemma open_conns_counted σ key h p l : inv cfg σ → pools (sys_heap σ) !! key = Some h →
  hcps (sys_heap σ) !! h = Some p → NoDup l → Forall (open_conn_of (sys_heap σ) key) l →
  (Z.of_nat (length l) <= numActive p)%Z.
Proof.
  intros Hinv Hk Hp Hnd Hl.
  set (users := map_to_list (filter (λ ix, uses_at (view (sys_heap σ)) (pools (sys_heap σ)) ix.2 = Some h) (connectors σ))).
  assert (l ⊆ idle p ++ omap (λ ix, managed ix.2) users) as Hsub.
  { intros m Hm. rewrite Forall_forall in Hl. destruct (Hl m Hm) as (mc & c & Hmc & Hkey & Hc & Ho).
    assert (conn_has (sys_heap σ) m c) as Hown%conn_has_owned by (exists mc; auto).
    assert (home (view (sys_heap σ)) (pools (sys_heap σ)) m = Some h) as Hhome.
    { unfold home. rewrite (view_lookup _ _ _ Hmc). unfold ident. by rewrite Hkey. }
    destruct (inv_no_leak _ _ Hinv c Ho) as [(i & x & Hx & Hd)|(m' & Ho' & Hlive)].
    { by destruct (inv_direct_owned _ _ Hinv i x m c Hx Hd). }
    rewrite <-(st_disjoint _ (inv_store _ _ Hinv) m m' c Hown Ho') in Hlive.
    apply elem_of_app. destruct Hlive as [(h' & p' & Hp' & Hm')|(i & x & Hx & Hm')].
    - left. pose proof (inv_idle _ _ Hinv _ _ _ Hp' Hm') as Hh'. congruence.
    - right. apply list_elem_of_omap. exists (i, x). split; [|done]. apply elem_of_map_to_list.
      apply map_lookup_filter_Some. split; [done|]. simpl. unfold uses_at.
      destruct (inv_connector _ _ Hinv i x Hx) as [Hpc _ _ _]. destruct (slot x) as [h'|] eqn:Hs.
      + exfalso. unfold slot in Hs. unfold pc_ok in Hpc. unfold managed in Hm'.
        destruct (x.2); simplify_eq; [destruct Hpc as [[[_ (_ & ? & _)] _] _]|destruct Hpc as [(_ & _ & ? & _) _]]; congruence.
      + rewrite Hm'. done. }
  apply (NoDup_subset_length _ _ Hnd) in Hsub. rewrite length_app in Hsub.
  assert (length (omap (λ ix : nat * connector_state, managed ix.2) users) ≤ length users) as Hle.
  { generalize users. clear. intros l. induction l as [|[j y] l IH]; [done|].
    cbn in *. destruct (managed y); cbn; lia. }
  assert (length users = counted (view (sys_heap σ)) (pools (sys_heap σ)) h (connectors σ)) as Hu.
  { unfold users. by rewrite length_map_to_list. }
  rewrite (inv_count _ _ Hinv _ _ Hp). lia.
Qed.

(** C11: connectors that share a pool never share a connection, whatever the
    interleaving of their calls, the scrubber and the failures of the network: a
    connection used by a connector is open, is used by no other, and is not idle in
    the pool, whose idle connections are open as well.  No open connection is lost:
    each is used by a connector (as its client or its bastion), or belongs to an
    object that is idle in the pool or held by a connector. *)
Theorem pool_connections_exclusive es n σ :
  EShutdown ∉ es → fire_all cfg es (initial n) = Some σ →
  let s := sys_heap σ in let cs := connectors σ in
  (∀ i x c, cs !! i = Some x → client x.1 = Some c → c ∈ opened (network s))
  ∧ (∀ i j x y c, cs !! i = Some x → cs !! j = Some y → client x.1 = Some c → client y.1 = Some c → i = j)
  ∧ (∀ key m, m ∈ idle_of σ key → open_conn_of s key m
       ∧ ∀ i x c, cs !! i = Some x → conn_has s m c → client x.1 ≠ Some c ∧ managedConn x.1 ≠ Some m)
  ∧ (∀ c, c ∈ opened (network s) →
       (∃ i x, cs !! i = Some x ∧ (client x.1 = Some c ∨ bastionClient x.1 = Some c))
       ∨ ∃ m, conn_has s m c ∧ ((∃ key, m ∈ idle_of σ key) ∨ ∃ i x, cs !! i = Some x ∧ managedConn x.1 = Some m)).
Proof.
  intros Hes Hf s cs. assert (inv cfg σ) as Hinv by by eapply reachable_inv. split_and!.
  - intros i x c Hx Hc. by eapply client_cases.
  - intros i j x y c. by apply client_once with (cfg := cfg).
  - intros key m Hm. destruct (idle_of_spec _ _ _ _ Hinv Hm) as (Hi & c & b & Hv & Ho & Hown). split.
    + unfold view in Hv. rewrite lookup_fmap in Hv. apply fmap_Some in Hv as (mc & ? & [= ???]). by exists mc, c.
    + intros i x c' Hx Hhas%conn_has_owned. split; [|intros Hmx; by apply (inv_held_idle _ _ Hinv i m); [exists x|]].
      intros Hc. destruct (client_cases _ _ _ _ _ Hinv Hx Hc) as [_ [Hd|(m' & Hm' & Ho')]].
      * by apply (inv_direct_owned _ _ Hinv i x m c').
      * apply (inv_held_idle _ _ Hinv i m'); [done|].
        by rewrite <-(st_disjoint _ (inv_store _ _ Hinv) m m' c').
  - intros c Hc. destruct (inv_no_leak _ _ Hinv c Hc) as [(i & x & Hx & Hd)|(m & Ho & Hlive)].
    + left. exists i, x. split; [done|]. unfold direct in Hd. destruct (isFromPool x.1); [set_solver|].
      unfold clients in Hd. simpl in Hd. destruct (client x.1), (bastionClient x.1); set_solver.
    + right. exists m. split; [by apply conn_has_owned|].
      destruct Hlive as [(h & p & Hp & Hm)|(i & x & Hx & Hm)]; [left|right; by exists i, x].
      pose proof (inv_idle _ _ Hinv _ _ _ Hp Hm) as Hh. unfold home in Hh. subst s.
      destruct (view (sys_heap σ) !! m) as [[q key]|]; [|done]. exists key. unfold idle_of. by rewrite Hh, Hp.
Qed.

(** C12: until [Shutdown] is called the pool keeps to its limits: of the connections
    it manages (a connector that finds it full dials one of its own, which is none of
    them) at no time are more than [MaxPerKey] of a key open, idle or in use, nor more
    than [MaxIdlePerKey] idle; and its counter of a key is exact: the idle connections, those in use and the places
    reserved for dials in progress (so it never is negative, and the code that resets
    a negative counter never runs). *)
Theorem pool_limits es n σ key h p :
  EShutdown ∉ es → fire_all cfg es (initial n) = Some σ →
  pools (sys_heap σ) !! key = Some h → hcps (sys_heap σ) !! h = Some p →
  (∀ l, NoDup l → Forall (open_conn_of (sys_heap σ) key) l →
     (Z.of_nat (length l) <= numActive p <= Z.max 0 (MaxPerKey cfg))%Z)
  ∧ (Z.of_nat (length (idle p)) <= Z.max 0 (MaxIdlePerKey cfg))%Z
  ∧ numActive p = (Z.of_nat (length (idle p))
      + Z.of_nat (counted (view (sys_heap σ)) (pools (sys_heap σ)) h (connectors σ)))%Z.
Proof.
  intros Hes Hf Hk Hp. assert (inv cfg σ) as Hinv by by eapply reachable_inv.
  destruct (inv_max _ _ Hinv _ _ Hp) as [Hmax Hidle]. split_and!; [|done|by apply (inv_count _ _ Hinv)].
  intros l Hnd Hl. split; [|done]. by eapply open_conns_counted.
Qed.

(** A call of a connector has few sections: from any state the process can reach
    without a shutdown, at most six of the call are left, and none panics.  A section
    is atomic here: the locks that make it so are not modelled. *)
Theorem pool_calls_return es n σ i s p :
  EShutdown ∉ es → fire_all cfg es (initial n) = Some σ → connectors σ !! i = Some (s, p) →
  ∃ k σ' s' r e, k ≤ 6 ∧ fire_all cfg (replicate k (EAdvance i)) σ = Some σ'
    ∧ connectors σ' !! i = Some (s', Ready r e).
Proof.
  intros Hes Hf Hx. eapply finish; [by eapply reachable_inv|done|]. destruct p; simpl; lia.
Qed.

(** ** Passwords *)

Definition with_password (c : ConnectionCfg) (pw : string) : ConnectionCfg :=
  MkCfg (Cfg_Host c) (Cfg_Port c) (Cfg_User c) pw (Cfg_PrivateKey c) (Cfg_PrivateKeyPath c)
    (Cfg_Timeout c) (Cfg_Bastion c) (Cfg_HostKeyCallback c).

Lemma generatePoolKey_password c pw : Cfg_Password c ≠ "" → pw ≠ "" →
  generatePoolKey (with_password c pw) = generatePoolKey c.
Proof.
  intros Hc Hpw. unfold generatePoolKey, key_parts. simpl. by rewrite (decide_True (P := pw ≠ "")), (decide_True (P := Cfg_Password c ≠ "")).
Qed.

Lemma elapsed_false limit t s : (∀ k, now k <= t + limit)%Z →
  ∃ s', elapsed limit t s = (Ok false, s') ∧ quiet s s'.
Proof.
  intros Hnow. unfold elapsed. case_decide; [|by exists s; split; [|apply quiet_refl]].
  eexists. unfold mbind, M_bind, on_net. simpl.
  rewrite (proj2 (Z.ltb_ge _ _) (Hnow _)). split; [reflexivity|by apply tick_quiet].
Qed.

(** C25: the pool does not look at passwords: while a connection opened with one
    password is idle, fresh and alive, [Get] with any other password for the same
    user and host returns it, without dialing. *)
Theorem pool_ignores_password c pw s h m mc l n cl :
  Cfg_Password c ≠ "" → pw ≠ "" →
  pools s !! generatePoolKey c = Some h → hcps s !! h = Some (MkHostPool (m :: l) n) →
  mcs s !! m = Some mc → mc_client mc = Some cl → cl ∈ opened (network s) → (∀ k, KeepAlive k cl = true) →
  (∀ k, now k <= mc_lastUsed mc + IdleTimeout cfg)%Z → (∀ k, now k <= mc_createdAt mc + MaxConnectionAge cfg)%Z →
  ∃ s', Get cfg (with_password c pw) s = (Ok m, s')
    ∧ next_conn (network s') = next_conn (network s) ∧ opened (network s') = opened (network s).
Proof.
  intros Hc Hpw Hk Hh Hm Hcl Ho Halive Hidle Hage. unfold Get. rewrite generatePoolKey_password by done. cbn zeta.
  assert (getOrCreateHostPool (E:=conn_error) (generatePoolKey c) s = (Ok h, s)) as Hr0.
  { unfold getOrCreateHostPool, lookup_pool, mbind, M_bind, get. simpl. by rewrite Hk. }
  rewrite (bind_run _ _ _ _ _ Hr0).
  set (s0 := set_hcp h (MkHostPool l n) s).
  assert (mcs s0 !! m = Some mc) as Hm0 by done.
  destruct (elapsed_false (IdleTimeout cfg) (mc_lastUsed mc) s0 Hidle) as (s1 & Hr1 & Hq1).
  destruct (elapsed_false (MaxConnectionAge cfg) (mc_createdAt mc) s1 Hage) as (s2 & Hr2 & Hq2).
  assert (quiet s0 s2) as Hq by eauto with kubexm.
  apply quiet_facts in Hq as (Ho2 & Hn2 & _ & Hh2 & _ & _ & Hm2).
  set (s3 := set_network (MkNet (S (ticks (network s2))) (opened (network s2)) (next_conn (network s2))) s2).
  assert (IsHealthy m s2 = (Ok true, s3)) as Hr3.
  { unfold IsHealthy. rewrite (bind_run _ _ _ _ _ (load_mc_run (E:=conn_error) s2 m mc ltac:(by rewrite Hm2))), Hcl.
    unfold on_net, keepalive, mbind, M_bind, tick, get. simpl.
    rewrite Halive, bool_decide_true by (by rewrite Ho2). done. }
  assert (mcs s3 !! m = Some mc) as Hm3 by (simpl; by rewrite Hm2).
  destruct (touch_run m mc s3 Hm3) as (s4 & Hr4 & Hc4 & Hh4).
  assert (is_stale cfg mc s0 = (Ok false, s2)) as Hr12 by
    (unfold is_stale; by rewrite (bind_run _ _ _ _ _ Hr1)).
  assert (get_idle cfg h (m :: l) s = (Ok (Some m), s4)) as Hget.
  { cbn [get_idle]. rewrite (bind_run _ _ _ _ _ (store_idle_run _ _ _ l Hh)). cbn [numActive]. fold s0.
    rewrite (bind_run _ _ _ _ _ (load_mc_run _ _ _ Hm0)), (bind_run _ _ _ _ _ Hr12).
    rewrite (bind_run _ _ _ _ _ Hr3). by rewrite (bind_run _ _ _ _ _ Hr4). }
  assert (Get_locked cfg (generatePoolKey c) h s = (Ok (Some m), s4)) as Hlock.
  { unfold Get_locked. rewrite (bind_run _ _ _ _ _ (load_hcp_run _ _ _ Hh)). cbn [idle].
    by rewrite (bind_run _ _ _ _ _ Hget). }
  exists s4. split.
  - by rewrite (bind_run _ _ _ _ _ Hlock).
  - rewrite (closes_next _ _ _ Hc4), (closes_opened _ _ _ Hc4). simpl. rewrite Hn2, Ho2.
    split; [done|]. simpl. set_solver.
Qed.
End safety.

(** ** After a shutdown *)

(** A network where everything succeeds. *)
Definition calm : Ssh :=
  Build_Ssh (λ _, 0%Z) (λ _ _, inr [1%Z]) (λ k, inr k) (λ _ _ _, None) (λ _ _ _, None) (λ _ _ _ _, None)
    (λ _ _, true) (λ _ _, None) (λ _ _, None).

Definition one_per_key : PoolConfig := pool_config (MkPoolConfig 1 0 0 0 0 0).

Definition lab : ConnectionCfg := MkCfg "10.0.0.7" 22 "root" "secret" [] "" 0 None None.

(** Three connectors of one pool: the first keeps its connection over the shutdown,
    gives it back, and the two others connect. *)
Definition over_shutdown : list event :=
  EConnect 0 lab :: replicate 4 (EAdvance 0) ++ [EShutdown; EClose 0] ++ replicate 3 (EAdvance 0)
  ++ EConnect 1 lab :: replicate 2 (EAdvance 1) ++ EConnect 2 lab :: replicate 3 (EAdvance 2).

(** After [Shutdown] the pool no longer keeps to its limits: a connection that is
    given back later is idle in a new host pool that does not count it. *)
Theorem shutdown_exceeds_limit :
  let _ := calm in let _ := dialSSH_dialer in let _ := range_forward in
  ∃ σ c1 c2 x1 x2, fire_all one_per_key over_shutdown (initial (gset_to_gmap true {[0; 1; 2]})) = Some σ
    ∧ connectors σ !! 1 = Some (x1, returned) ∧ connectors σ !! 2 = Some (x2, returned)
    ∧ isFromPool x1 = true ∧ isFromPool x2 = true
    ∧ client x1 = Some c1 ∧ client x2 = Some c2 ∧ c1 ≠ c2
    ∧ c1 ∈ opened (network (sys_heap σ)) ∧ c2 ∈ opened (network (sys_heap σ)).
Proof.
  cbn zeta. eexists. do 4 eexists. split; [vm_compute; reflexivity|].
  split; [vm_compute; reflexivity|]. split; [vm_compute; reflexivity|]. do 4 (split; [reflexivity|]).
  split; [done|]. split; (eapply bool_decide_eq_true_1; vm_compute; reflexivity).
Qed.

#[local] Existing Instance calm.
#[local] Existing Instance dialSSH_dialer.
#[local] Existing Instance range_forward.

(** Two connectors share the pool; the first connects and gives its connection back,
    the second takes it while the first dials anew. *)
Definition sharing : list event :=
  EConnect 0 lab :: replicate 4 (EAdvance 0) ++ [EClose 0] ++ replicate 2 (EAdvance 0)
  ++ [EScrub (generatePoolKey lab); EConnect 1 lab] ++ replicate 2 (EAdvance 1)
  ++ [EConnect 0 lab; EAdvance 0].

Definition two : gmap nat bool := gset_to_gmap true {[0; 1]}.

Definition shared : system :=
  Eval vm_compute in default (initial two) (fire_all DefaultPoolConfig sharing (initial two)).

Definition lab_key : string := Eval vm_compute in generatePoolKey lab.

Lemma sharing_runs : fire_all DefaultPoolConfig sharing (initial two) = Some shared.
Proof. vm_compute. reflexivity. Qed.

Lemma no_shutdown : EShutdown ∉ sharing.
Proof.
  cbn. repeat (apply not_elem_of_cons; split; [discriminate|]). apply not_elem_of_nil.
Qed.

Lemma pool_connections_exclusive_witness :
  ¬ ∃ x y c, connectors shared !! 0 = Some x ∧ connectors shared !! 1 = Some y
    ∧ client x.1 = Some c ∧ client y.1 = Some c.
Proof.
  intros (x & y & c & Hx & Hy & Hcx & Hcy).
  pose proof (proj1 (proj2 (pool_connections_exclusive DefaultPoolConfig sharing two shared no_shutdown sharing_runs))
                0 1 x y c Hx Hy Hcx Hcy) as H.
  discriminate H.
Defined.

Lemma pool_limits_witness : ∃ h p, pools (sys_heap shared) !! lab_key = Some h
  ∧ hcps (sys_heap shared) !! h = Some p ∧ (Z.of_nat (length (idle p)) <= 5)%Z.
Proof.
  eexists _, _. split; [vm_compute; reflexivity|]. split; [vm_compute; reflexivity|].
  refine (proj1 (proj2 (pool_limits DefaultPoolConfig sharing two shared lab_key _ _ no_shutdown sharing_runs _ _)));
    vm_compute; reflexivity.
Defined.

Lemma pool_calls_return_witness : ∃ k σ' s' r e, k ≤ 6
  ∧ fire_all DefaultPoolConfig (replicate k (EAdvance 0)) shared = Some σ' ∧ connectors σ' !! 0 = Some (s', Ready r e).
Proof.
  eapply (pool_calls_return DefaultPoolConfig sharing two shared 0 _ _ no_shutdown sharing_runs).
  vm_compute. reflexivity.
Defined.

(** The connection of [lab] is idle; [Get] with another password. *)
Definition returned_heap : heap :=
  Eval vm_compute in sys_heap (default (initial two)
    (fire_all DefaultPoolConfig (take 8 sharing) (initial two))).

Lemma pool_ignores_password_witness : ∃ m s',
  Get DefaultPoolConfig (with_password lab "wrong") returned_heap = (Ok m, s').
Proof.
  edestruct (pool_ignores_password DefaultPoolConfig lab "wrong" returned_heap) as (s' & Hget & _);
    [done|done|vm_compute; reflexivity..| | |eexists _, s'; exact Hget].
  all: try (eapply bool_decide_eq_true_1; vm_compute; reflexivity).
  all: intros k; vm_compute; discriminate.
Defined.
