(* ===== verification/Cache.v ===== *)
(** The caches of pipelines, modules, tasks and steps, [cache/generic_cache.go]:
    entries with a time to live over a [sync.Map], a parent that is asked for what is
    missing, and a janitor.  The operations are programs over the atomic operations
    of [sync.Map], so that they can be run one at a time or interleaved. *)
From S2P Require Import Prelude.
From S2P Require Import Values.
Local Open Scope Z_scope.

(** ** Programs over concurrent maps *)

(** [Expiration] is a time in nanoseconds as an [int64]; zero means never. *)
Record item : Type := MkItem { item_Value : any; item_Expiration : Z }.

Global Instance item_eq_dec : EqDecision item.
Proof. solve_decision. Defined.

(** A goroutine: what it does next to the maps, one atomic operation at a time, and
    how it goes on.  [KeysOf] is the order in which a [Range] visits the keys. *)
Inductive prog (A : Type) : Type :=
| Ret (a : A)
| Now (k : Z → prog A)
| Load (c : nat) (key : string) (k : option item → prog A)
| Store (c : nat) (key : string) (i : item) (k : prog A)
| Remove (c : nat) (key : string) (k : prog A)
| LoadOrStore (c : nat) (key : string) (i : item) (k : item * bool → prog A)
| CompareAndSwap (c : nat) (key : string) (old new : item) (k : bool → prog A)
| KeysOf (c : nat) (k : list string → prog A)
| Renew (c : nat) (k : prog A).
Arguments Ret {A} a.
Arguments Now {A} k.
Arguments Load {A} c key k.
Arguments Store {A} c key i k.
Arguments Remove {A} c key k.
Arguments LoadOrStore {A} c key i k.
Arguments CompareAndSwap {A} c key old new k.
Arguments KeysOf {A} c k.
Arguments Renew {A} c k.

Fixpoint prog_bind {A B} (f : A → prog B) (p : prog A) : prog B :=
  match p with
  | Ret a => f a
  | Now k => Now (λ t, prog_bind f (k t))
  | Load c key k => Load c key (λ o, prog_bind f (k o))
  | Store c key i k => Store c key i (prog_bind f k)
  | Remove c key k => Remove c key (prog_bind f k)
  | LoadOrStore c key i k => LoadOrStore c key i (λ r, prog_bind f (k r))
  | CompareAndSwap c key old new k => CompareAndSwap c key old new (λ b, prog_bind f (k b))
  | KeysOf c k => KeysOf c (λ l, prog_bind f (k l))
  | Renew c k => Renew c (prog_bind f k)
  end.

Global Instance prog_ret : MRet prog := @Ret.
Global Instance prog_mbind : MBind prog := @prog_bind.

(** ** Caches *)

(** A cache: the name of its map, the time to live of its entries, its parent. *)
#[warnings="-register-all"]
Inductive cache : Type := MkCache (id : nat) (defaultTTL : Z) (parent : option cache).

Definition cache_id (c : cache) : nat := let 'MkCache id _ _ := c in id.
Definition cache_ttl (c : cache) : Z := let 'MkCache _ ttl _ := c in ttl.
Definition cache_parent (c : cache) : option cache := let 'MkCache _ _ p := c in p.

Definition NoExpiration : Z := -1.
Definition DefaultExpiration : Z := 0.

(** The caches a run builds; their maps have different names. *)
Definition Minute : Z := 60 * 10^9.
Definition Hour : Z := 60 * Minute.
Definition NewPipelineCache (id : nat) : cache := MkCache id (24 * Hour) None.
Definition NewModuleCache (id : nat) (parent : cache) : cache := MkCache id (1 * Hour) (Some parent).
Definition NewTaskCache (id : nat) (parent : cache) : cache := MkCache id (30 * Minute) (Some parent).
Definition NewStepCache (id : nat) (parent : cache) : cache := MkCache id (5 * Minute) (Some parent).

(** [time.Now().UnixNano()] *)
Definition UnixNano : prog Z := Now (λ t, Ret (wrap64 t)).

Definition Expired (i : item) : prog bool :=
  if decide (item_Expiration i = 0) then Ret false
  else t ← UnixNano ; Ret (item_Expiration i <? t).

(** ** Reading *)

Fixpoint Get (c : cache) (key : string) : prog (any * bool) :=
  let 'MkCache id _ parent := c in
  let ask := match parent with Some p => Get p key | None => Ret (ANil, false) end in
  Load id key (λ o,
    match o with
    | Some i => e ← Expired i ; if (e : bool) then Remove id key ask else Ret (item_Value i, true)
    | None => ask
    end).

Definition Has (c : cache) (key : string) : prog bool := r ← Get c key ; Ret r.2.

(** The getters that assert a type. *)
Definition Get_as {A} (zero : A) (assert : any → A * bool) (c : cache) (key : string) : prog (A * bool) :=
  '(v, ok) ← Get c key ; Ret (if (ok : bool) then assert v else (zero, false)).

Definition GetString : cache → string → prog (string * bool) := Get_as "" as_string.
Definition GetInt : cache → string → prog (Z * bool) := Get_as 0 as_int.
Definition GetBool : cache → string → prog (bool * bool) := Get_as false as_bool.
Definition GetFloat64 : cache → string → prog (Z * bool) := Get_as 0 (λ v, match v with AFloat64 z => (z, true) | _ => (0, false) end).

Definition or_default {A} (r : prog (A * bool)) (d : A) : prog A := '(x, ok) ← r ; Ret (if (ok : bool) then x else d).

Definition GetStringOrDefault (c : cache) (key d : string) : prog string := or_default (GetString c key) d.
Definition GetIntOrDefault (c : cache) (key : string) (d : Z) : prog Z := or_default (GetInt c key) d.
Definition GetBoolOrDefault (c : cache) (key : string) (d : bool) : prog bool := or_default (GetBool c key) d.

(** The entries a [Range] visits that have not expired, in its order; a key may be
    gone when its turn comes. *)
Fixpoint live_entries (id : nat) (keys : list string) : prog (list (string * any)) :=
  match keys with
  | [] => Ret []
  | key :: keys =>
      Load id key (λ o,
        match o with
        | None => live_entries id keys
        | Some i =>
            e ← Expired i ;
            if (e : bool) then live_entries id keys
            else l ← live_entries id keys ; Ret ((key, item_Value i) :: l)
        end)
  end.

Definition Keys (c : cache) : prog (list string) :=
  KeysOf (cache_id c) (λ keys, l ← live_entries (cache_id c) keys ; Ret l.*1).

Definition Count (c : cache) : prog Z :=
  KeysOf (cache_id c) (λ keys, l ← live_entries (cache_id c) keys ; Ret (Z.of_nat (length l))).

(** [Range] hands the live entries to [f] until it returns false. *)
Fixpoint range_until {S} (f : string → any → S → bool * S) (id : nat) (keys : list string) (s : S) : prog S :=
  match keys with
  | [] => Ret s
  | key :: keys =>
      Load id key (λ o,
        match o with
        | None => range_until f id keys s
        | Some i =>
            e ← Expired i ;
            if (e : bool) then range_until f id keys s
            else let '(b, s) := f key (item_Value i) s in
                 if b then range_until f id keys s else Ret s
        end)
  end.

Definition Range {S} (c : cache) (f : string → any → S → bool * S) (s : S) : prog S :=
  KeysOf (cache_id c) (λ keys, range_until f (cache_id c) keys s).

(** ** Writing *)

(** [time.Now().Add(ttl).UnixNano()] *)
Definition deadline (ttl : Z) : prog Z :=
  if decide (ttl > 0) then Now (λ t, Ret (wrap64 (t + ttl))) else Ret 0.

Definition SetWithTTL (c : cache) (key : string) (v : any) (ttl : Z) : prog unit :=
  let ttl := if decide (ttl = DefaultExpiration) then cache_ttl c else ttl in
  e ← deadline ttl ; Store (cache_id c) key (MkItem v e) (Ret tt).

Definition Set_ (c : cache) (key : string) (v : any) : prog unit := SetWithTTL c key v DefaultExpiration.

Definition Delete (c : cache) (key : string) : prog unit := Remove (cache_id c) key (Ret tt).

Definition Flush (c : cache) : prog unit := Renew (cache_id c) (Ret tt).

Definition GetOrSet (c : cache) (key : string) (v : any) : prog (any * bool) :=
  let id := cache_id c in
  let store := e ← deadline (cache_ttl c) ; LoadOrStore id key (MkItem v e) (λ r, Ret (item_Value r.1, r.2)) in
  Load id key (λ o,
    match o with
    | Some i => e ← Expired i ; if (e : bool) then store else Ret (item_Value i, true)
    | None => store
    end).

(** The loop of [numberOperation]; [None] when the turns are used up.  An entry that
    is not there is put in place without expiration. *)
Fixpoint numberOperation (turns : nat) (c : cache) (key : string) (n : Z) : prog (option (string + Z)) :=
  match turns with
  | O => Ret None
  | S turns =>
      let id := cache_id c in
      let swap i :=
        match item_Value i with
        | AInt z =>
            let z' := wrap64 (z + n) in
            CompareAndSwap id key i (MkItem (AInt z') (item_Expiration i)) (λ b,
              if b then Ret (Some (inr z')) else numberOperation turns c key n)
        | _ => Ret (Some (inl ("cache: value for key '" +:+ key +:+ "' is not of type int")))
        end in
      Load id key (λ o,
        match o with
        | Some i => swap i
        | None => LoadOrStore id key (MkItem (AInt n) 0) (λ r, if (r.2 : bool) then swap r.1 else Ret (Some (inr n)))
        end)
  end.

Definition IncrementInt (turns : nat) (c : cache) (key : string) (n : Z) := numberOperation turns c key n.
Definition DecrementInt (turns : nat) (c : cache) (key : string) (n : Z) := numberOperation turns c key (wrap64 (- n)).

(** ** The janitor *)

Fixpoint delete_expired (id : nat) (keys : list string) : prog unit :=
  match keys with
  | [] => Ret tt
  | key :: keys =>
      Load id key (λ o,
        match o with
        | None => delete_expired id keys
        | Some i => e ← Expired i ; if (e : bool) then Remove id key (delete_expired id keys) else delete_expired id keys
        end)
  end.

Definition deleteExpired (c : cache) : prog unit :=
  KeysOf (cache_id c) (λ keys, delete_expired (cache_id c) keys).

(** ** Running programs *)

(** The maps of the caches and the clock. *)
Record world : Type := MkWorld { clock : Z; stores : gmap nat (gmap string item) }.

Definition store_of (w : world) (c : nat) : gmap string item := default ∅ (stores w !! c).
Definition set_store (c : nat) (m : gmap string item) (w : world) : world :=
  MkWorld (clock w) (<[c := m]> (stores w)).

Section run.
Context `{GoRange}.

(** One atomic operation. *)
Definition step {A} (p : prog A) (w : world) : option (prog A * world) :=
  match p with
  | Ret _ => None
  | Now k => Some (k (clock w), w)
  | Load c key k => Some (k (store_of w c !! key), w)
  | Store c key i k => Some (k, set_store c (<[key := i]> (store_of w c)) w)
  | Remove c key k => Some (k, set_store c (delete key (store_of w c)) w)
  | LoadOrStore c key i k =>
      match store_of w c !! key with
      | Some j => Some (k (j, true), w)
      | None => Some (k (i, false), set_store c (<[key := i]> (store_of w c)) w)
      end
  | CompareAndSwap c key old new k =>
      if decide (store_of w c !! key = Some old) then Some (k true, set_store c (<[key := new]> (store_of w c)) w)
      else Some (k false, w)
  | KeysOf c k => Some (k (range 64 (store_of w c)).*1, w)
  | Renew c k => Some (k, set_store c ∅ w)
  end.

(** A program that runs alone to its end, while the clock stands still. *)
Fixpoint exec {A} (p : prog A) (w : world) : A * world :=
  match p with
  | Ret a => (a, w)
  | Now k => exec (k (clock w)) w
  | Load c key k => exec (k (store_of w c !! key)) w
  | Store c key i k => exec k (set_store c (<[key := i]> (store_of w c)) w)
  | Remove c key k => exec k (set_store c (delete key (store_of w c)) w)
  | LoadOrStore c key i k =>
      match store_of w c !! key with
      | Some j => exec (k (j, true)) w
      | None => exec (k (i, false)) (set_store c (<[key := i]> (store_of w c)) w)
      end
  | CompareAndSwap c key old new k =>
      if decide (store_of w c !! key = Some old) then exec (k true) (set_store c (<[key := new]> (store_of w c)) w)
      else exec (k false) w
  | KeysOf c k => exec (k (range 64 (store_of w c)).*1) w
  | Renew c k => exec k (set_store c ∅ w)
  end.

(** Goroutines side by side: goroutine [i] runs its next operation, or time passes. *)
Inductive move : Type :=
| Go (i : nat)
| Tick (d : Z).

Definition interleave {A} (m : move) (s : list (prog A) * world) : option (list (prog A) * world) :=
  match m with
  | Go i => p ← s.1 !! i ; r ← step p s.2 ; Some (<[i := r.1]> s.1, r.2)
  | Tick d => if decide (0 <= d) then Some (s.1, MkWorld (clock s.2 + d) (stores s.2)) else None
  end.

Fixpoint interleave_all {A} (ms : list move) (s : list (prog A) * world) : option (list (prog A) * world) :=
  match ms with
  | [] => Some s
  | m :: ms => interleave m s ≫= interleave_all ms
  end.
End run.
