(* ===== verification/CacheSpec.v ===== *)
(** The caches refine a map that remembers every write with its deadline: neither the
    janitor nor the lazy deletions can be seen.  Increments by several goroutines are
    all counted; a read may undo a concurrent write.

    Goroutines that share a cache: increments of one counter are all counted, each
    within as many turns as there are goroutines; a read may undo a write.

    Concrete runs of the caches: a chain of two caches through writes, expiry and the
    janitor, two goroutines that count, and a read that undoes a write. *)
From S2P Require Import Prelude.
From S2P Require Import Values.
From S2P Require Import Cache.
Local Open Scope Z_scope.

Section spec.
Context `{GoRange}.

(** ** Running programs in sequence *)

Lemma exec_bind {A B} (f : A → prog B) (p : prog A) w :
  exec (p ≫= f) w = let '(a, w') := exec p w in exec (f a) w'.
Proof.
  unfold mbind, prog_mbind. revert w.
  induction p as [a|k IH|c key k IH|c key i k IH|c key k IH|c key i k IH|c key old new k IH|c k IH|c k IH];
    intros w; simpl; try done; try apply IH.
  - destruct (store_of w c !! key); apply IH.
  - case_decide; apply IH.
Qed.

(** A program that runs alone takes the steps an interleaving would let it take. *)
Lemma exec_step {A} (p p' : prog A) w w' : step p w = Some (p', w') → exec p w = exec p' w'.
Proof.
  destruct p; simpl; intros Hs; simplify_eq; try done.
  - destruct (store_of w c !! key); by simplify_eq.
  - case_decide; by simplify_eq.
Qed.

(** ** Expiry *)

Definition expired_at (t : Z) (i : item) : bool :=
  negb (bool_decide (item_Expiration i = 0)) && (item_Expiration i <? wrap64 t).

Lemma exec_Expired {A} i w (k : bool → prog A) : exec (Expired i ≫= k) w = exec (k (expired_at (clock w) i)) w.
Proof. unfold Expired, expired_at. case_decide; [by rewrite bool_decide_true|by rewrite bool_decide_false]. Qed.

(** The entry of a key that has not expired. *)
Definition live (w : world) (c : nat) (key : string) : option item :=
  match store_of w c !! key with
  | Some i => if expired_at (clock w) i then None else Some i
  | None => None
  end.

Lemma expired_later t u i : 0 <= t → t <= u → u < 2^63 → expired_at t i = true → expired_at u i = true.
Proof.
  intros Ht Hu Hlt. unfold expired_at. rewrite !wrap64_id by lia. rewrite !andb_true_iff, !Z.ltb_lt.
  intros [? ?]. split; [done|lia].
Qed.

(** ** The abstract cache: every write is remembered with its deadline *)

Fixpoint spec_Get (w : world) (c : cache) (key : string) : any * bool :=
  let 'MkCache id _ parent := c in
  match live w id key with
  | Some i => (item_Value i, true)
  | None => match parent with Some p => spec_Get w p key | None => (ANil, false) end
  end.

Definition visible (w : world) (c : nat) : gmap string item :=
  filter (λ ki, expired_at (clock w) ki.2 = false) (store_of w c).

Inductive op : Type :=
| OGet (key : string)
| OHas (key : string)
| OKeys
| OCount
| OSet (key : string) (v : any) (ttl : Z)
| ODelete (key : string)
| OFlush
| OJanitor
| OTick (d : Z).

Inductive result : Type :=
| RNone
| RValue (r : any * bool)
| RBool (b : bool)
| RKeys (l : gset string)
| RCount (n : Z).

Definition tick (d : Z) (w : world) : world := MkWorld (clock w + d) (stores w).

Definition spec_op (c : cache) (o : op) (w : world) : result * world :=
  let id := cache_id c in
  match o with
  | OGet key => (RValue (spec_Get w c key), w)
  | OHas key => (RBool (spec_Get w c key).2, w)
  | OKeys => (RKeys (dom (visible w id)), w)
  | OCount => (RCount (Z.of_nat (size (visible w id))), w)
  | OSet key v ttl =>
      let ttl := if decide (ttl = 0) then cache_ttl c else ttl in
      let e := if decide (ttl > 0) then wrap64 (clock w + ttl) else 0 in
      (RNone, set_store id (<[key := MkItem v e]> (store_of w id)) w)
  | ODelete key => (RNone, set_store id (delete key (store_of w id)) w)
  | OFlush => (RNone, set_store id ∅ w)
  | OJanitor => (RNone, w)
  | OTick d => (RNone, tick d w)
  end.

(** The same operations on the cache. *)
Definition run_op (c : cache) (o : op) (w : world) : result * world :=
  let run {A} (p : prog A) (f : A → result) := let '(a, w) := exec p w in (f a, w) in
  match o with
  | OGet key => run (Get c key) RValue
  | OHas key => run (Has c key) RBool
  | OKeys => run (Keys c) (λ l, RKeys (list_to_set l))
  | OCount => run (Count c) RCount
  | OSet key v ttl => run (SetWithTTL c key v ttl) (λ _, RNone)
  | ODelete key => run (Delete c key) (λ _, RNone)
  | OFlush => run (Flush c) (λ _, RNone)
  | OJanitor => run (deleteExpired c) (λ _, RNone)
  | OTick d => (RNone, tick d w)
  end.

Fixpoint run_ops (f : cache → op → world → result * world) (os : list (cache * op)) (w : world) : list result :=
  match os with
  | [] => []
  | (c, o) :: os => let '(r, w) := f c o w in r :: run_ops f os w
  end.

Definition duration (o : op) : Z := match o with OTick d => d | _ => 0 end.

Definition total (os : list (cache * op)) : Z := foldr (λ o n, duration o.2 + n) 0 os.

(** ** The relation between the two *)

(** They agree on every entry that has not expired. *)
Record same (w a : world) : Prop := {
  same_clock : clock w = clock a;
  same_live : ∀ c key, live w c key = live a c key;
}.

Lemma same_refl w : same w w.
Proof. by split. Qed.

Lemma store_of_set w c m d : store_of (set_store c m w) d = if decide (d = c) then m else store_of w d.
Proof.
  unfold store_of, set_store. simpl. case_decide as Hd; [subst; by rewrite lookup_insert_eq|].
  by rewrite lookup_insert_ne.
Qed.

Lemma live_set w c m d key : live (set_store c m w) d key =
  if decide (d = c) then match m !! key with Some i => if expired_at (clock w) i then None else Some i | None => None end
  else live w d key.
Proof. unfold live. rewrite store_of_set. simpl. by case_decide. Qed.

Lemma same_set w a c m m' : same w a →
  (∀ key, match m !! key with Some i => if expired_at (clock w) i then None else Some i | None => None end
        = match m' !! key with Some i => if expired_at (clock a) i then None else Some i | None => None end) →
  same (set_store c m w) (set_store c m' a).
Proof. intros [Hc Hl] Hm. split; [done|]. intros d key. rewrite !live_set. case_decide; [apply Hm|apply Hl]. Qed.

Lemma same_insert w a c key i : same w a →
  same (set_store c (<[key := i]> (store_of w c)) w) (set_store c (<[key := i]> (store_of a c)) a).
Proof.
  intros Hs. apply same_set; [done|]. intros key'. destruct Hs as [Hc Hl].
  destruct (decide (key = key')) as [<-|]; [by rewrite !lookup_insert_eq, Hc|].
  rewrite !lookup_insert_ne by done. apply (Hl c key').
Qed.

Lemma same_delete w a c key : same w a →
  same (set_store c (delete key (store_of w c)) w) (set_store c (delete key (store_of a c)) a).
Proof.
  intros Hs. apply same_set; [done|]. intros key'. destruct Hs as [Hc Hl].
  destruct (decide (key = key')) as [<-|]; [by rewrite !lookup_delete_eq|].
  rewrite !lookup_delete_ne by done. apply (Hl c key').
Qed.

(** Deleting an expired entry cannot be seen. *)
Lemma same_drop w a c key : same w a → live w c key = None →
  same (set_store c (delete key (store_of w c)) w) a.
Proof.
  intros [Hc Hl] Hnone. split; [done|]. intros d key'. rewrite live_set, <-Hl.
  destruct (decide (d = c)) as [->|]; [|done].
  destruct (decide (key = key')) as [<-|]; [by rewrite lookup_delete_eq|]. by rewrite lookup_delete_ne.
Qed.

Lemma same_tick w a d : 0 <= clock w → 0 <= d → clock w + d < 2^63 → same w a → same (tick d w) (tick d a).
Proof.
  intros H0 Hd Hlt [Hc Hl]. split; [by simpl; rewrite Hc|]. intros c key. specialize (Hl c key).
  unfold live, tick, store_of in *. simpl. rewrite <-Hc in *.
  destruct (default ∅ (stores w !! c) !! key) as [i|], (default ∅ (stores a !! c) !! key) as [j|]; try done.
  - destruct (expired_at (clock w) i) eqn:Hi, (expired_at (clock w) j) eqn:Hj; simplify_eq; [|done].
    by rewrite !(expired_later (clock w) (clock w + d)) by (done || lia).
  - destruct (expired_at (clock w) i) eqn:Hi; [|done].
    by rewrite (expired_later (clock w) (clock w + d)) by (done || lia).
  - destruct (expired_at (clock w) j) eqn:Hj; [|done].
    by rewrite (expired_later (clock w) (clock w + d)) by (done || lia).
Qed.

Lemma same_visible w a c : same w a → visible w c = visible a c.
Proof.
  intros [Hc Hl]. apply map_eq. intros key. apply option_eq. intros i. unfold visible.
  rewrite !map_lookup_filter_Some. specialize (Hl c key). unfold live in Hl. simpl. rewrite <-Hc in *.
  destruct (store_of w c !! key) as [x|], (store_of a c !! key) as [y|].
  - destruct (expired_at (clock w) x) eqn:Hx, (expired_at (clock w) y) eqn:Hy; naive_solver congruence.
  - destruct (expired_at (clock w) x) eqn:Hx; naive_solver congruence.
  - destruct (expired_at (clock w) y) eqn:Hy; naive_solver congruence.
  - naive_solver.
Qed.

Lemma spec_Get_same w a c key : same w a → spec_Get w c key = spec_Get a c key.
Proof.
  intros [_ Hl]. revert c. fix IH 1. intros [id ttl parent]. simpl. rewrite Hl.
  destruct (live a id key); [done|]. destruct parent as [p|]; [apply IH|done].
Qed.

(** ** Each operation *)

Lemma Get_run c key w : ∃ w', exec (Get c key) w = (spec_Get w c key, w') ∧ same w' w.
Proof.
  revert c w. fix IH 1. intros [id ttl parent] w. simpl.
  assert (∀ w1, same w1 w → live w id key = None → ∃ w',
    exec (match parent with Some p => Get p key | None => Ret (ANil, false) end) w1
    = (match live w id key with
       | Some i => (item_Value i, true)
       | None => match parent with Some p => spec_Get w p key | None => (ANil, false) end
       end, w') ∧ same w' w) as Hask.
  { intros w1 Hs ->. destruct parent as [p|]; [|by exists w1]. destruct (IH p w1) as (w' & -> & Hs').
    exists w'. split; [by rewrite (spec_Get_same _ _ _ _ Hs)|].
    destruct Hs as [Hc Hl], Hs' as [Hc' Hl']. split; [congruence|]. intros. by rewrite Hl', Hl. }
  unfold live in *. destruct (store_of w id !! key) as [i|] eqn:Hi; [|apply Hask; [apply same_refl|done]].
  rewrite exec_Expired. destruct (expired_at (clock w) i) eqn:He; [|exists w; split; [done|apply same_refl]].
  simpl. apply Hask; [|done]. apply same_drop; [apply same_refl|]. unfold live. by rewrite Hi, He.
Qed.

Lemma live_entries_run id keys w : exec (live_entries id keys) w
  = (omap (λ key, match live w id key with Some i => Some (key, item_Value i) | None => None end) keys, w).
Proof.
  induction keys as [|key keys IH]; [done|]. simpl. unfold live at 1.
  destruct (store_of w id !! key) as [i|] eqn:Hi; [|apply IH].
  rewrite exec_Expired. destruct (expired_at (clock w) i) eqn:He; [apply IH|].
  rewrite exec_bind, IH. done.
Qed.

(** The keys a [Range] finds are those of the entries that have not expired, each
    once. *)
Lemma live_keys w id :
  let l := (omap (λ key, match live w id key with Some i => Some (key, item_Value i) | None => None end)
              (range 64 (store_of w id)).*1).*1 in
  NoDup l ∧ list_to_set l = dom (visible w id) ∧ length l = size (visible w id).
Proof.
  intros l. assert (l = filter (λ key, is_Some (live w id key)) (range 64 (store_of w id)).*1) as Hl.
  { unfold l. generalize ((range 64 (store_of w id)).*1). intros keys. induction keys as [|key keys IH]; [done|].
    rewrite filter_cons. cbn. case_decide as Hlive.
    - destruct Hlive as [i Hi]. rewrite Hi. cbn. f_equal. apply IH.
    - destruct (live w id key); [by destruct Hlive|]. apply IH. }
  assert (NoDup l) as Hnd by (rewrite Hl; apply NoDup_filter, NoDup_range_keys).
  assert (∀ key, key ∈ l ↔ key ∈ dom (visible w id)) as Hin.
  { intros key. rewrite Hl, list_elem_of_filter, elem_of_range_keys, elem_of_dom. unfold visible.
    unfold is_Some. setoid_rewrite map_lookup_filter_Some. unfold live. simpl.
    destruct (store_of w id !! key) as [i|]; [|naive_solver].
    destruct (expired_at (clock w) i) eqn:He; naive_solver congruence. }
  split_and!; [done| |].
  - apply set_eq. intros key. by rewrite elem_of_list_to_set.
  - rewrite <-size_dom. rewrite <-(size_list_to_set (C := gset string) l Hnd). f_equal.
    apply set_eq. intros key. by rewrite elem_of_list_to_set.
Qed.

(** The janitor, over the keys it visits. *)
Lemma delete_expired_run id keys w : ∃ w', exec (delete_expired id keys) w = (tt, w') ∧ same w' w
  ∧ ∀ key, store_of w' id !! key = if decide (key ∈ keys) then live w id key else store_of w id !! key.
Proof.
  revert w. induction keys as [|key keys IH]; intros w.
  { exists w. split; [done|]. split; [apply same_refl|]. intros key. rewrite decide_False; [done|]. apply not_elem_of_nil. }
  simpl. assert (∀ key', store_of w id !! key' = None → live w id key' = None) as Hgone.
  { intros key' Hk. unfold live. by rewrite Hk. }
  destruct (store_of w id !! key) as [i|] eqn:Hi.
  - rewrite exec_Expired. destruct (expired_at (clock w) i) eqn:He; simpl.
    + set (w1 := set_store id _ w). assert (live w id key = None) as Hdead by (unfold live; by rewrite Hi, He).
      assert (same w1 w) as Hs1 by (apply same_drop; [apply same_refl|done]).
      destruct (IH w1) as (w' & -> & Hs & Hst). exists w'. split; [done|]. split.
      { destruct Hs as [Hc Hl], Hs1 as [Hc1 Hl1]. split; [congruence|]. intros. by rewrite Hl, Hl1. }
      intros key'. rewrite Hst. rewrite (same_live _ _ Hs1). unfold w1. rewrite store_of_set, (decide_True (P := id = id)) by done.
      destruct (decide (key' = key)) as [->|Hne].
      * rewrite lookup_delete_eq, Hdead. rewrite (decide_True (P := key ∈ key :: keys)) by set_solver. by case_decide.
      * rewrite lookup_delete_ne by done. do 2 case_decide; set_solver.
    + destruct (IH w) as (w' & -> & Hs & Hst). exists w'. split; [done|]. split; [done|].
      intros key'. rewrite Hst. destruct (decide (key' = key)) as [->|Hne].
      * rewrite (decide_True (P := key ∈ key :: keys)) by set_solver. unfold live. rewrite Hi, He. by case_decide.
      * do 2 case_decide; set_solver.
  - destruct (IH w) as (w' & -> & Hs & Hst). exists w'. split; [done|]. split; [done|].
    intros key'. rewrite Hst. destruct (decide (key' = key)) as [->|Hne].
    + rewrite (decide_True (P := key ∈ key :: keys)) by set_solver. rewrite Hi, Hgone by done. by case_decide.
    + do 2 case_decide; set_solver.
Qed.

(** After the janitor has run only entries that have not expired are left. *)
Lemma deleteExpired_run c w : ∃ w', exec (deleteExpired c) w = (tt, w') ∧ same w' w
  ∧ store_of w' (cache_id c) = visible w (cache_id c).
Proof.
  unfold deleteExpired. simpl. destruct (delete_expired_run (cache_id c) (range 64 (store_of w (cache_id c))).*1 w)
    as (w' & Hr & Hs & Hst). exists w'. split; [done|]. split; [done|].
  apply map_eq. intros key. rewrite Hst. apply option_eq. intros i. unfold visible.
  rewrite map_lookup_filter_Some. simpl. unfold live.
  destruct (store_of w (cache_id c) !! key) as [j|] eqn:Hj.
  - rewrite decide_True by (apply elem_of_range_keys; eauto).
    destruct (expired_at (clock w) j) eqn:He; naive_solver congruence.
  - case_decide; naive_solver.
Qed.

Lemma deadline_run ttl w : exec (deadline ttl) w = (if decide (ttl > 0) then wrap64 (clock w + ttl) else 0, w).
Proof. unfold deadline. by case_decide. Qed.

Lemma run_op_spec c o w a : same w a → 0 <= clock w → 0 <= duration o → clock w + duration o < 2^63 →
  (run_op c o w).1 = (spec_op c o a).1 ∧ same (run_op c o w).2 (spec_op c o a).2
  ∧ clock (run_op c o w).2 = clock w + duration o.
Proof.
  intros Hs H0 Hd Hlt. pose proof (same_clock _ _ Hs) as Hc.
  assert (∀ w', same w' w → same w' a) as Htrans.
  { intros w' [Hc' Hl']. destruct Hs as [Hc1 Hl]. split; [congruence|]. intros. by rewrite Hl', Hl. }
  assert (∀ w', same w' w → clock w' = clock w + 0) as Hclock by (intros w' [Hc' _]; lia).
  destruct o as [key|key| | |key v ttl|key| | |d]; unfold run_op, spec_op; simpl in *.
  - destruct (Get_run c key w) as (w' & -> & Hs'). simpl. rewrite (spec_Get_same _ _ _ _ Hs). auto.
  - unfold Has. rewrite exec_bind. destruct (Get_run c key w) as (w' & -> & Hs'). simpl.
    rewrite (spec_Get_same _ _ _ _ Hs). auto.
  - rewrite exec_bind, live_entries_run. simpl. destruct (live_keys w (cache_id c)) as (_ & -> & _).
    rewrite (same_visible _ _ _ Hs). split_and!; [done..|lia].
  - rewrite exec_bind, live_entries_run. simpl. destruct (live_keys w (cache_id c)) as (_ & _ & Hlen).
    rewrite length_fmap in Hlen. rewrite Hlen, (same_visible _ _ _ Hs). split_and!; [done..|lia].
  - unfold SetWithTTL. rewrite exec_bind, deadline_run. simpl. rewrite Hc.
    split_and!; [done|by apply same_insert|lia].
  - split_and!; [done|by apply same_delete|lia].
  - split_and!; [done|by apply same_set|lia].
  - destruct (deleteExpired_run c w) as (w' & Hr & Hs' & _). unfold deleteExpired in Hr. simpl in Hr. rewrite Hr.
    simpl. auto.
  - split_and!; [done|by apply same_tick|done].
Qed.

Lemma run_ops_spec os w a : same w a → 0 <= clock w → Forall (λ o, 0 <= duration o.2) os →
  clock w + total os < 2^63 → run_ops run_op os w = run_ops spec_op os a.
Proof.
  revert w a. induction os as [|[c o] os IH]; intros w a Hs H0 Hpos Hlt; [done|].
  apply Forall_cons in Hpos as [Hd Hpos]. simpl in *.
  assert (0 <= total os) as Hrest.
  { clear -Hpos. induction Hpos; simpl in *; [done|lia]. }
  destruct (run_op_spec c o w a Hs H0 Hd) as (Hr & Hs' & Hc); [lia|].
  destruct (run_op c o w) as [r w'], (spec_op c o a) as [r' a']. simpl in *. subst r'.
  f_equal. apply IH; [done|lia|done|lia].
Qed.

(** C16: seen from outside, a cache is a map that remembers every write with its
    deadline and forgets nothing by itself: any sequence of reads, listings, writes,
    deletions and flushes on any caches, with the janitor running and time passing in
    between, gives the results of that map.  So neither the janitor nor the deletion
    of expired entries by a read can be observed, and what a cache does not have is
    what its parents have. *)
Theorem cache_refines_map os w :
  0 <= clock w → Forall (λ o, 0 <= duration o.2) os →
  clock w + total os < 2^63 →
  run_ops run_op os w = run_ops spec_op os w.
Proof. apply run_ops_spec, same_refl. Qed.

(** ** What [GetOrSet] and the counters make of an expired entry *)

(** [GetOrSet] returns the value of an expired entry, which [Get] does not see. *)
Lemma GetOrSet_returns_expired c key v i w :
  store_of w (cache_id c) !! key = Some i → expired_at (clock w) i = true →
  exec (GetOrSet c key v) w = ((item_Value i, true), w).
Proof.
  intros Hi He. unfold GetOrSet. simpl. rewrite Hi, exec_Expired, He. simpl.
  rewrite exec_bind, deadline_run. simpl. by rewrite Hi.
Qed.

Lemma GetOrSet_live c key v i w :
  store_of w (cache_id c) !! key = Some i → expired_at (clock w) i = false →
  exec (GetOrSet c key v) w = ((item_Value i, true), w).
Proof. intros Hi He. unfold GetOrSet. simpl. by rewrite Hi, exec_Expired, He. Qed.

(** An expired counter is counted on, and stays expired. *)
Lemma numberOperation_expired turns c key n z e w :
  store_of w (cache_id c) !! key = Some (MkItem (AInt z) e) → expired_at (clock w) (MkItem (AInt z) e) = true →
  let w' := set_store (cache_id c) (<[key := MkItem (AInt (wrap64 (z + n))) e]> (store_of w (cache_id c))) w in
  exec (numberOperation (S turns) c key n) w = (Some (inr (wrap64 (z + n))), w') ∧ live w' (cache_id c) key = None.
Proof.
  intros Hi He w'. split.
  - simpl. rewrite Hi. simpl. by rewrite decide_True.
  - unfold w'. rewrite live_set, decide_True, lookup_insert_eq by done. unfold expired_at in *. simpl in *. by rewrite He.
Qed.
End spec.

Local Open Scope Z_scope.

Lemma wrap64_add a b : wrap64 (wrap64 a + b) = wrap64 (a + b).
Proof.
  unfold wrap64. f_equal.
  replace ((a + 2 ^ 63) mod 2 ^ 64 - 2 ^ 63 + b + 2 ^ 63) with ((a + 2 ^ 63) mod 2 ^ 64 + b) by lia.
  rewrite Z.add_mod_idemp_l by lia. f_equal. lia.
Qed.

(** ** The flags of the goroutines that have finished *)

Definition undone (ds : list bool) : nat := length (filter (λ d, d = false) ds).

Fixpoint counted_sum (ds : list bool) (ns : list Z) : Z :=
  match ds, ns with
  | d :: ds, n :: ns => (if (d : bool) then n else 0) + counted_sum ds ns
  | _, _ => 0
  end.

Lemma undone_set ds i : ds !! i = Some false → undone ds = S (undone (<[i := true]> ds)).
Proof.
  unfold undone. revert i. induction ds as [|d ds IH]; intros [|i] Hi; simplify_eq/=; [done|].
  rewrite !filter_cons. case_decide; simpl; by rewrite (IH i).
Qed.

Lemma undone_pos ds i : ds !! i = Some false → (0 < undone ds)%nat.
Proof. intros Hi. rewrite (undone_set _ _ Hi). lia. Qed.

Lemma counted_sum_set ds ns i n : ds !! i = Some false → ns !! i = Some n →
  counted_sum (<[i := true]> ds) ns = counted_sum ds ns + n.
Proof.
  revert ds i. induction ns as [|m ns IH]; intros [|d ds] [|i] Hd Hn; simplify_eq/=; [lia|].
  rewrite (IH _ _ Hd Hn). lia.
Qed.

Lemma counted_sum_none ds ns : true ∉ ds → counted_sum ds ns = 0.
Proof.
  revert ns. induction ds as [|[] ds IH]; intros [|n ns] Hd; simpl; try done; [set_solver|].
  rewrite IH; [lia|]. set_solver.
Qed.

Lemma counted_sum_all ds ns : length ds = length ns → false ∉ ds → counted_sum ds ns = foldr Z.add 0 ns.
Proof.
  revert ns. induction ds as [|[] ds IH]; intros [|n ns] Hl Hd; simplify_eq/=; [done| |set_solver].
  rewrite IH; [done|lia|set_solver].
Qed.

Section counter.
Context `{GoRange} (c : cache) (key : string).
Local Abbreviation id := (cache_id c).
Local Abbreviation P := (prog (option (string + Z))).

(** ** Where a goroutine stands *)

Definition swap_prog (t : nat) (n : Z) (i : item) (z : Z) : P :=
  let z' := wrap64 (z + n) in
  CompareAndSwap id key i (MkItem (AInt z') (item_Expiration i)) (λ b,
    if b then Ret (Some (inr z')) else numberOperation t c key n).

Definition after_load (t : nat) (n : Z) (i : item) : P :=
  match item_Value i with
  | AInt z => swap_prog t n i z
  | _ => Ret (Some (inl ("cache: value for key '" +:+ key +:+ "' is not of type int")))
  end.

Definition create_prog (t : nat) (n : Z) : P :=
  LoadOrStore id key (MkItem (AInt n) 0) (λ r, if (r.2 : bool) then after_load t n r.1 else Ret (Some (inr n))).

(** A goroutine that has not finished, while [u] of them have not: it has turns left
    for all the others, one fewer when the entry it has read is still there. *)
Inductive busy (n : Z) (u : nat) (cur : option item) : P → Prop :=
| busy_load t : (u ≤ t)%nat → busy n u cur (numberOperation t c key n)
| busy_swap t i z : item_Value i = AInt z → (u ≤ S t)%nat → cur = Some i ∨ (u ≤ t)%nat →
    busy n u cur (swap_prog t n i z)
| busy_create t : (u ≤ S t)%nat → busy n u cur (create_prog t n).

Definition done_prog (p : P) : Prop := ∃ v, p = Ret (Some (inr v)).

(** When another goroutine finishes, one turn fewer is needed. *)
Lemma busy_finish n u cur cur' p : busy n (S u) cur p → busy n u cur' p.
Proof. destruct 1; constructor; auto; lia. Qed.

(** The entry of the counter: what was there at the start, and what has been added. *)
Definition entry (start : option (Z * Z)) (ds : list bool) (ns : list Z) : option item :=
  match start with
  | Some (z, e) => Some (MkItem (AInt (wrap64 (z + counted_sum ds ns))) e)
  | None => if decide (true ∈ ds) then Some (MkItem (AInt (wrap64 (counted_sum ds ns))) 0) else None
  end.

Record counting (start : option (Z * Z)) (ns : list Z) (ds : list bool) (ps : list P) (w : world) : Prop := {
  cn_ds : length ds = length ns;
  cn_ps : length ps = length ns;
  cn_range : Forall (λ n, - 2^63 <= n < 2^63) ns;
  cn_entry : store_of w id !! key = entry start ds ns;
  cn_done : ∀ i p, ps !! i = Some p → ds !! i = Some true → done_prog p;
  cn_busy : ∀ i p n, ps !! i = Some p → ns !! i = Some n → ds !! i = Some false →
    busy n (undone ds) (store_of w id !! key) p;
}.

Lemma entry_add start ns ds i n :
  ds !! i = Some false → ns !! i = Some n →
  ∀ z e, entry start ds ns = Some (MkItem (AInt z) e) →
    entry start (<[i := true]> ds) ns = Some (MkItem (AInt (wrap64 (z + n))) e).
Proof.
  intros Hd Hn z e. unfold entry. rewrite (counted_sum_set _ _ _ _ Hd Hn).
  assert (true ∈ <[i := true]> ds) as Hin.
  { apply list_elem_of_lookup. exists i. rewrite list_lookup_insert_eq; [done|]. by apply lookup_lt_Some in Hd. }
  destruct start as [[z0 e0]|].
  - intros [= <- <-]. by rewrite wrap64_add, Z.add_assoc.
  - rewrite (decide_True (P := true ∈ <[i := true]> ds)) by done. case_decide; [|done].
    intros [= <- <-]. by rewrite wrap64_add.
Qed.

Lemma entry_new ns ds i n :
  ds !! i = Some false → ns !! i = Some n → - 2^63 <= n < 2^63 → entry None ds ns = None →
  entry None (<[i := true]> ds) ns = Some (MkItem (AInt n) 0).
Proof.
  intros Hd Hn Hr. unfold entry. case_decide as Hno; [done|]. intros _.
  rewrite (counted_sum_set _ _ _ _ Hd Hn), counted_sum_none by done. rewrite decide_True.
  - simpl. by rewrite wrap64_id by lia.
  - apply list_elem_of_lookup. exists i. rewrite list_lookup_insert_eq; [done|]. by apply lookup_lt_Some in Hd.
Qed.

(** A goroutine moves on without writing. *)
Lemma counting_go start ns ds ps w i p p' n :
  counting start ns ds ps w → ps !! i = Some p → ns !! i = Some n → ds !! i = Some false →
  busy n (undone ds) (store_of w id !! key) p' → counting start ns ds (<[i := p']> ps) w.
Proof.
  intros [Hds Hps Hr He Hdone Hbusy] Hp Hn Hd Hb. split; try done.
  - by rewrite length_insert.
  - intros j q. rewrite list_lookup_insert_Some. intros [(<- & <- & _)|[_ Hj]]; [congruence|]. by apply Hdone.
  - intros j q m. rewrite list_lookup_insert_Some. intros [(<- & <- & _)|[_ Hj]]; [|by apply Hbusy].
    intros Hm _. by simplify_eq.
Qed.

(** A goroutine finishes by writing the entry. *)
Lemma counting_finish start ns ds ps w i p v n j :
  counting start ns ds ps w → ps !! i = Some p → ns !! i = Some n → ds !! i = Some false →
  entry start (<[i := true]> ds) ns = Some j →
  counting start ns (<[i := true]> ds) (<[i := Ret (Some (inr v))]> ps)
    (set_store id (<[key := j]> (store_of w id)) w).
Proof.
  intros [Hds Hps Hr He Hdone Hbusy] Hp Hn Hd Hj.
  assert (store_of (set_store id (<[key := j]> (store_of w id)) w) id !! key = Some j) as Hnow.
  { rewrite store_of_set, decide_True by done. apply lookup_insert_eq. }
  split; try done.
  - by rewrite length_insert.
  - by rewrite length_insert.
  - by rewrite Hnow.
  - intros k q. rewrite !list_lookup_insert_Some. intros [(<- & <- & _)|[Hne Hk]]; [by exists v|].
    intros [(? & _)|[_ Hdk]]; [done|by eapply Hdone].
  - intros k q m. rewrite !list_lookup_insert_Some. intros [(<- & <- & _)|[Hne Hk]] Hm [(? & ? & _)|[? Hdk]]; try done.
    eapply busy_finish. rewrite <-(undone_set _ _ Hd). by eapply Hbusy.
Qed.

Lemma entry_int start ns ds i : entry start ds ns = Some i → ∃ z e, i = MkItem (AInt z) e.
Proof.
  unfold entry. destruct start as [[z e]|]; [intros [= <-]; eauto|]. case_decide; [|done]. intros [= <-]. eauto.
Qed.

Lemma counting_step start ns ds ps w i p p' w' :
  counting start ns ds ps w → ps !! i = Some p → step p w = Some (p', w') →
  ∃ ds', counting start ns ds' (<[i := p']> ps) w'.
Proof.
  intros Hc Hp Hstep. pose proof (cn_ds _ _ _ _ _ Hc) as Hds. pose proof (cn_ps _ _ _ _ _ Hc) as Hps.
  destruct (lookup_lt_is_Some_2 ns i) as [n Hn]; [apply lookup_lt_Some in Hp; lia|].
  destruct (lookup_lt_is_Some_2 ds i) as [d Hd]; [apply lookup_lt_Some in Hp; lia|].
  destruct d; [by destruct (cn_done _ _ _ _ _ Hc _ _ Hp Hd) as [v ->]|].
  pose proof (cn_entry _ _ _ _ _ Hc) as He. pose proof (undone_pos _ _ Hd) as Hpos.
  destruct (cn_busy _ _ _ _ _ Hc _ _ _ Hp Hn Hd) as [t Ht|t it z Hz Ht Hfresh|t Ht].
  - destruct t as [|t]; [lia|]. simpl in Hstep. injection Hstep as <- <-. exists ds.
    eapply counting_go; [done..|]. destruct (store_of w id !! key) as [it|] eqn:Hcur.
    + destruct (entry_int _ _ _ it (eq_sym He)) as (z & e & ->).
      apply (busy_swap _ _ _ t (MkItem (AInt z) e) z); [done|lia|by left].
    + apply busy_create. lia.
  - unfold swap_prog in Hstep. simpl in Hstep. case_decide as Hcur; injection Hstep as <- <-.
    + exists (<[i := true]> ds). eapply counting_finish; [done..|].
      destruct it as [v e]. simpl in Hz. subst v. eapply entry_add; [done..|]. simpl. congruence.
    + exists ds. eapply counting_go; [done..|]. apply busy_load. destruct Hfresh; [done|lia].
  - unfold create_prog in Hstep. simpl in Hstep. destruct (store_of w id !! key) as [it|] eqn:Hcur.
    + injection Hstep as <- <-. exists ds. eapply counting_go; [done..|].
      destruct (entry_int _ _ _ it (eq_sym He)) as (z & e & ->). rewrite Hcur.
      apply (busy_swap _ _ _ t (MkItem (AInt z) e) z); [done|lia|by left].
    + injection Hstep as <- <-. exists (<[i := true]> ds). eapply counting_finish; [done..|].
      destruct start as [[z e]|]; [done|]. apply entry_new; try done.
      by apply (proj1 (Forall_lookup _ _) (cn_range _ _ _ _ _ Hc) i).
Qed.

Lemma counting_moves start ns ms ds ps w ps' w' :
  counting start ns ds ps w → interleave_all ms (ps, w) = Some (ps', w') → ∃ ds', counting start ns ds' ps' w'.
Proof.
  revert ds ps w. induction ms as [|m ms IH]; intros ds ps w Hc; simpl; [intros [= <- <-]; eauto|].
  destruct (interleave m (ps, w)) as [[ps1 w1]|] eqn:Hm; [|done]. simpl. intros Hms.
  assert (∃ ds1, counting start ns ds1 ps1 w1) as [ds1 Hc1]; [|by eapply IH].
  destruct m as [i|d]; simpl in Hm.
  - destruct (ps !! i) as [p|] eqn:Hp; [|done]. simpl in Hm.
    destruct (step p w) as [[p' w2]|] eqn:Hstep; [|done]. simpl in Hm. injection Hm as <- <-.
    by eapply counting_step.
  - case_decide; [|done]. injection Hm as <- <-. exists ds. by destruct Hc.
Qed.

(** C17: increments and decrements of one counter by any number of goroutines, in any
    interleaving and with time passing in between, are all counted: when the
    goroutines have ended, each has returned a value, and the counter holds the start
    value (zero when there was none) plus all the increments, modulo 2^64.  No
    goroutine goes through the loop more often than there are goroutines. *)
Theorem increments_all_counted ns turns start ms w ps w' :
  ns ≠ [] → (length ns ≤ turns)%nat → Forall (λ n, - 2^63 <= n < 2^63) ns →
  store_of w id !! key = match start with Some (z, e) => Some (MkItem (AInt z) e) | None => None end →
  (∀ z e, start = Some (z, e) → - 2^63 <= z < 2^63) →
  interleave_all ms ((λ n, IncrementInt turns c key n) <$> ns, w) = Some (ps, w') →
  Forall (λ p, step p w' = None) ps →
  Forall done_prog ps ∧
  store_of w' id !! key =
    Some (MkItem (AInt (wrap64 (match start with Some (z, _) => z | None => 0 end + foldr Z.add 0 ns)))
            (match start with Some (_, e) => e | None => 0 end)).
Proof.
  intros Hne Hturns Hr He Hz Hms Hend.
  set (ds := replicate (length ns) false).
  assert (counting start ns ds ((λ n, IncrementInt turns c key n) <$> ns) w) as Hc.
  { assert (true ∉ ds) as Hno by (unfold ds; rewrite elem_of_replicate; by intros [? _]).
    split; try done.
    - unfold ds. by rewrite length_replicate.
    - by rewrite length_fmap.
    - rewrite He. unfold entry. rewrite counted_sum_none by done. destruct start as [[z e]|].
      + rewrite Z.add_0_r, wrap64_id; [done|]. by eapply Hz.
      + by rewrite decide_False.
    - intros i p _ Hd. apply list_elem_of_lookup_2 in Hd. done.
    - intros i p n Hp Hn _. rewrite list_lookup_fmap, Hn in Hp. injection Hp as <-.
      apply busy_load. unfold undone. rewrite <-Hturns.
      etrans; [apply length_filter|]. unfold ds. by rewrite length_replicate. }
  destruct (counting_moves _ _ _ _ _ _ _ _ Hc Hms) as [ds' Hc']. destruct Hc' as [Hds Hps _ He' Hdone Hbusy].
  assert (false ∉ ds') as Hall.
  { intros [i Hi]%list_elem_of_lookup. pose proof (lookup_lt_Some _ _ _ Hi) as Hlt.
    destruct (lookup_lt_is_Some_2 ps i) as [p Hp]; [lia|]. destruct (lookup_lt_is_Some_2 ns i) as [n Hn]; [lia|].
    pose proof (proj1 (Forall_lookup _ _) Hend i p Hp) as Hstuck. pose proof (undone_pos _ _ Hi).
    destruct (Hbusy i p n Hp Hn Hi) as [[|t] Ht|t it z Hz' Ht Hf|t Ht]; simpl in Hstuck; try done; [lia|..].
    - by case_decide.
    - by destruct (store_of w' id !! key). }
  split.
  - apply Forall_lookup. intros i p Hp. destruct (lookup_lt_is_Some_2 ds' i) as [d Hd];
      [apply lookup_lt_Some in Hp; lia|]. destruct d; [by eapply Hdone|].
    by apply list_elem_of_lookup_2 in Hd.
  - rewrite He'. unfold entry. rewrite counted_sum_all by done. destruct start as [[z e]|]; [done|].
    rewrite decide_True; [done|]. destruct ds' as [|[] ds']; [by destruct ns| |]; set_solver.
Qed.
End counter.

(** ** A read that undoes a write *)

(** [Get] deletes an entry it has found expired, in a second step: a value that
    another goroutine sets in between is deleted, though its call has returned and it
    has not expired. *)
Theorem Get_deletes_fresh_value `{GoRange} c key v i w :
  store_of w (cache_id c) !! key = Some i → expired_at (clock w) i = true → 0 < cache_ttl c → cache_parent c = None →
  let threads := [Get c key ; Set_ c key v ;; Ret (ANil, true)] in
  let ms := [Go 0; Go 0; Go 1; Go 1; Go 0] in
  ∃ w', interleave_all ms (threads, w) = Some ([Ret (ANil, false); Ret (ANil, true)], w')
    ∧ clock w' = clock w ∧ store_of w' (cache_id c) !! key = None.
Proof.
  destruct c as [id ttl parent]. simpl. intros Hi He Httl ->. rewrite Hi.
  unfold expired_at in He. apply andb_prop in He as [Hz Hlt]. simpl.
  unfold Expired. rewrite decide_False by (intros Heq; by rewrite bool_decide_true in Hz).
  simpl. rewrite Hlt. simpl.
  unfold Set_, SetWithTTL, deadline. simpl. rewrite decide_True by lia. simpl.
  eexists. split; [done|]. split; [done|].
  rewrite store_of_set, decide_True by done. apply lookup_delete_eq.
Qed.

Local Open Scope Z_scope.

(** A step's cache, under those of its task, module and pipeline. *)
Definition w_pipeline : cache := NewPipelineCache 0.
Definition w_module : cache := NewModuleCache 2 w_pipeline.
Definition w_step : cache := NewStepCache 1 (NewTaskCache 3 w_module).

Definition w_world : world := MkWorld 100 ∅.

Definition w_ops : list (cache * op) :=
  [(w_module, OSet "arch" (AString "amd64") 0); (w_step, OSet "arch" (AString "arm64") 0);
   (w_step, OSet "token" (AInt 7) (-1)); (w_step, OGet "arch"); (w_step, OCount); (w_step, OTick (6 * Minute));
   (w_step, OGet "arch"); (w_step, OJanitor); (w_step, OKeys); (w_step, OHas "token"); (w_step, OFlush); (w_step, OHas "token")].

Lemma cache_refines_map_witness :
  @run_ops (@run_op range_forward) w_ops w_world = run_ops spec_op w_ops w_world
  ∧ run_ops spec_op w_ops w_world =
    [RNone; RNone; RNone; RValue (AString "arm64", true); RCount 2; RNone; RValue (AString "amd64", true); RNone;
     RKeys {["token"]}; RBool true; RNone; RBool false].
Proof.
  split.
  - apply (@cache_refines_map range_forward).
    + vm_compute. discriminate.
    + repeat constructor; vm_compute; discriminate.
    + vm_compute. reflexivity.
  - vm_compute. reflexivity.
Defined.

(** Both goroutines find no counter; the first puts it in place, the second adds to it. *)
Lemma increments_all_counted_witness :
  ∃ ps w', @interleave_all range_forward _ [Go 0; Go 1; Go 0; Tick 3; Go 1; Go 1]
      ((λ n, IncrementInt 2 w_step "runs" n) <$> [5; 2], w_world) = Some (ps, w')
    ∧ Forall done_prog ps ∧ store_of w' 1 !! "runs" = Some (MkItem (AInt 7) 0).
Proof.
  eexists _, _. split; [vm_compute; reflexivity|].
  eapply (@increments_all_counted range_forward w_step "runs" [5; 2] 2 None [Go 0; Go 1; Go 0; Tick 3; Go 1; Go 1] w_world).
  - discriminate.
  - simpl. lia.
  - repeat constructor; lia.
  - reflexivity.
  - discriminate.
  - vm_compute. reflexivity.
  - repeat constructor.
Defined.

Definition w_expired : world := set_store 0 {["arch" := MkItem (AString "old") 50]} w_world.

Lemma Get_deletes_fresh_value_witness :
  ∃ w', @interleave_all range_forward _ [Go 0; Go 0; Go 1; Go 1; Go 0]
      ([Get (MkCache 0 60 None) "arch"; Set_ (MkCache 0 60 None) "arch" (AString "new") ;; Ret (ANil, true)], w_expired)
    = Some ([Ret (ANil, false); Ret (ANil, true)], w') ∧ clock w' = 100 ∧ store_of w' 0 !! "arch" = None.
Proof.
  apply (@Get_deletes_fresh_value range_forward (MkCache 0 60 None) "arch" (AString "new") (MkItem (AString "old") 50) w_expired).
  - reflexivity.
  - reflexivity.
  - reflexivity.
  - reflexivity.
Defined.
