(* ===== verification/Bom.v ===== *)
(** The bills of materials of the assets a cluster needs: which image, chart or binary
    goes with a Kubernetes version ([util/images/bom.go], [util/helm/bom.go],
    [step/helpers/bom/binary/bom.go] and [metadata.go]). *)
From S2P Require Import Prelude.
From S2P Require Import GoText.
From S2P Require Import GoPath.

(** ** Versions *)

(** The library [Masterminds/semver]: parsing a version, parsing a constraint to the
    versions it admits, and the order of versions. *)
Class Semver := {
  Version : Type;
  NewVersion : string → option Version;
  NewConstraint : string → option (Version → bool);
  GreaterThan : Version → Version → bool;
}.

(** The order is transitive and no version is greater than itself. *)
Class SemverLaws (S : Semver) : Prop := {
  GreaterThan_irrefl v : GreaterThan v v = false;
  GreaterThan_trans u v w : GreaterThan u v = true → GreaterThan v w = true → GreaterThan u w = true;
}.

(** ** Texts *)

(** [strings.Replace(s, old, new, n)] for a text [old] that is not empty: the first [n]
    occurrences, from the left. *)
Fixpoint replace_n (fuel n : nat) (s old new : string) : string :=
  match fuel, n with
  | S fuel, S n' =>
      if String.prefix old s then
        new +:+ replace_n fuel n' (String.substring (String.length old) (String.length s - String.length old) s) old new
      else match s with "" => "" | String c s => String c (replace_n fuel n s old new) end
  | _, _ => s
  end.

Definition Replace (s old new : string) (n : nat) : string := replace_n (S (String.length s)) n s old new.
Definition ReplaceAll (s old new : string) : string := Replace s old new (S (String.length s)).

(** ** Images *)

Record ImageBOM : Type := MkImageBOM {
  ib_KubeVersionConstraints : string;
  ib_RepoAddr : string;
  ib_Namespace : string;
  ib_Repo : string;
  ib_Tag : string;
}.

Definition componentImageBOMs : gmap string (list ImageBOM) := list_to_map [
  ("pause", [MkImageBOM ">= 1.26.0" "registry.k8s.io" "" "pause" "3.9";
            MkImageBOM "== 1.25.x" "registry.k8s.io" "" "pause" "3.8";
            MkImageBOM "== 1.24.x" "registry.k8s.io" "" "pause" "3.7";
            MkImageBOM "< 1.24.0" "registry.k8s.io" "" "pause" "3.6"]);
  ("etcd", [MkImageBOM ">= 1.29.0" "registry.k8s.io" "" "etcd" "3.5.10-0";
           MkImageBOM "< 1.29.0" "registry.k8s.io" "" "etcd" "3.5.9-0"]);
  ("coredns", [MkImageBOM ">= 1.28.0" "registry.k8s.io" "coredns" "coredns" "v1.10.1";
              MkImageBOM "< 1.28.0" "registry.k8s.io" "coredns" "coredns" "v1.9.3"]);
  ("k8s-dns-node-cache", [MkImageBOM ">= 1.22.0" "registry.k8s.io" "" "k8s-dns-node-cache" "1.22.20"]);
  ("conformance", [MkImageBOM ">= 1.29.0" "registry.k8s.io" "" "conformance" "v1.29.0"]);
  ("tigera-operator", [MkImageBOM ">= 1.28.0" "quay.io" "tigera" "operator" "v1.32.7"]);
  ("calico-cni", [MkImageBOM ">= 1.28.0" "quay.io" "calico" "cni" "v3.28.0"]);
  ("calico-node", [MkImageBOM ">= 1.28.0" "quay.io" "calico" "node" "v3.28.0"]);
  ("calico-kube-controllers", [MkImageBOM ">= 1.28.0" "quay.io" "calico" "kube-controllers" "v3.28.0"]);
  ("calico-apiserver", [MkImageBOM ">= 1.28.0" "quay.io" "calico" "apiserver" "v3.28.0"]);
  ("calico-typha", [MkImageBOM ">= 1.28.0" "quay.io" "calico" "typha" "v3.28.0"]);
  ("calico-flexvol", [MkImageBOM ">= 1.28.0" "quay.io" "calico" "pod2daemon-flexvol" "v3.28.0"]);
  ("calico-key-cert-provisioner", [MkImageBOM ">= 1.28.0" "quay.io" "calico" "key-cert-provisioner" "v3.28.0"]);
  ("calico-dikastes", [MkImageBOM ">= 1.28.0" "quay.io" "calico" "dikastes" "v3.28.0"]);
  ("calico-envoy-gateway", [MkImageBOM ">= 1.28.0" "quay.io" "calico" "envoy" "v3.28.0-envoy"]);
  ("calico-envoy-proxy", [MkImageBOM ">= 1.28.0" "quay.io" "calico" "envoy" "v3.28.0-envoy"]);
  ("calico-envoy-ratelimit", [MkImageBOM ">= 1.28.0" "quay.io" "calico" "ratelimit" "v3.28.0-ratelimit"]);
  ("calico-goldmane", [MkImageBOM ">= 1.28.0" "quay.io" "calico" "goldmane" "v3.28.0"]);
  ("calico-whisker", [MkImageBOM ">= 1.28.0" "quay.io" "calico" "whisker" "v3.28.0"]);
  ("calico-whisker-backend", [MkImageBOM ">= 1.28.0" "quay.io" "calico" "whisker-backend" "v3.28.0"]);
  ("flannel", [MkImageBOM ">= 1.22.0" "quay.io" "flannel" "flannel" "v0.25.5"]);
  ("flannel-cni-plugin", [MkImageBOM ">= 1.24.0" "quay.io" "flannel" "flannel-cni-plugin" "v1.4.1"]);
  ("cilium", [MkImageBOM ">= 1.27.0" "quay.io" "cilium" "cilium" "v1.15.7"]);
  ("cilium-operator-generic", [MkImageBOM ">= 1.27.0" "quay.io" "cilium" "operator-generic" "v1.15.7"]);
  ("kubeovn", [MkImageBOM ">= 1.26.0" "ghcr.io" "kubeovn" "kube-ovn" "v1.13.1"]);
  ("hybridnet", [MkImageBOM ">= 1.23.0" "ghcr.io" "alibaba" "hybridnet" "v0.8.4"]);
  ("multus", [MkImageBOM ">= 1.22.0" "ghcr.io" "k8snetworkplumbingwg" "multus-cni" "v5.0.1"]);
  ("provisioner-localpv", [MkImageBOM ">= 1.23.0" "quay.io" "openebs" "provisioner-localpv" "4.0.1"]);
  ("linux-utils", [MkImageBOM ">= 1.23.0" "quay.io" "openebs" "linux-utils" "4.0.1"]);
  ("nfs-plugin", [MkImageBOM ">= 1.22.0" "registry.k8s.io" "sig-storage" "nfs-subdir-external-provisioner" "v4.0.2"]);
  ("csi-provisioner", [MkImageBOM ">= 1.25.0" "registry.k8s.io" "sig-storage" "csi-provisioner" "v4.0.1"]);
  ("csi-node-driver-registrar", [MkImageBOM ">= 1.25.0" "registry.k8s.io" "sig-storage" "csi-node-driver-registrar" "v2.10.1"]);
  ("csi-resizer", [MkImageBOM ">= 1.25.0" "registry.k8s.io" "sig-storage" "csi-resizer" "v1.10.1"]);
  ("csi-snapshotter", [MkImageBOM ">= 1.25.0" "registry.k8s.io" "sig-storage" "csi-snapshotter" "v7.0.2"]);
  ("haproxy", [MkImageBOM ">= 0.0.0" "docker.io" "library" "haproxy" "2.9.7-alpine"]);
  ("nginx", [MkImageBOM ">= 0.0.0" "docker.io" "library" "nginx" "1.25.5-alpine"]);
  ("kubevip", [MkImageBOM ">= 0.0.0" "ghcr.io" "kube-vip" "kube-vip" "v0.8.0"]);
  ("kata-deploy", [MkImageBOM ">= 1.24.0" "quay.io" "kata-containers" "kata-deploy" "stable"]);
  ("node-feature-discovery", [MkImageBOM ">= 1.24.0" "registry.k8s.io" "nfd" "node-feature-discovery" "v0.15.2"])].

Definition k8s_images : list string := ["kube-apiserver"; "kube-controller-manager"; "kube-scheduler"; "kube-proxy"].

Section bom.
Context `{Semver}.

(** The entries whose constraint the version meets; a constraint that does not parse
    is skipped. *)
Definition candidates {A} (constraint : A → string) (v : Version) (l : list A) : list A :=
  filter (λ e, match NewConstraint (constraint e) with Some holds => holds v | None => false end = true) l.

(** The loop that keeps the entry of the greatest version; [None] stands for a version
    that does not parse. *)
Fixpoint best_loop {A} (version : A → string) (bestVersion : option Version) (best : A) (l : list A) : A :=
  match l with
  | [] => best
  | e :: l =>
      match NewVersion (version e) with
      | None => best_loop version bestVersion best l
      | Some v =>
          if match bestVersion with None => true | Some b => GreaterThan v b end
          then best_loop version (Some v) e l else best_loop version bestVersion best l
      end
  end.

Definition best_of {A} (version : A → string) (l : list A) : option A :=
  match l with [] => None | e :: l => Some (best_loop version (NewVersion (version e)) e l) end.

Definition getImageBOM (componentName kubeVersionStr : string) : option ImageBOM :=
  if bool_decide (componentName = "") || bool_decide (kubeVersionStr = "") then None else
  let kubeVersionStr := if HasPrefix kubeVersionStr "v" then kubeVersionStr else "v" +:+ kubeVersionStr in
  match NewVersion kubeVersionStr with
  | None => None
  | Some k8sVersion =>
      match componentImageBOMs !! componentName with
      | None =>
          if bool_decide (componentName ∈ k8s_images)
          then Some (MkImageBOM kubeVersionStr "registry.k8s.io" "" componentName kubeVersionStr) else None
      | Some bomList =>
          best_of ib_Tag (candidates (λ e, ReplaceAll (ib_KubeVersionConstraints e) ".x" ".*") k8sVersion bomList)
      end
  end.
End bom.

(** The reference of an entry, without its tag. *)
Definition bom_ref (bom : ImageBOM) : string :=
  if decide (ib_Namespace bom = "") then filepath_Join [ib_RepoAddr bom; ib_Repo bom]
  else filepath_Join [ib_RepoAddr bom; ib_Namespace bom; ib_Repo bom].

(** [init]: the first component met in the order of the map keeps a reference. *)
Definition index_entry (componentName : string) (index : gmap string string) (bom : ImageBOM) : gmap string string :=
  if decide (is_Some (index !! bom_ref bom)) then index else <[bom_ref bom := componentName]> index.

Definition refToComponentIndex `{GoRange} : gmap string string :=
  let index := foldl (λ index '(componentName, bomList), foldl (index_entry componentName) index bomList) ∅
                 (range 65 componentImageBOMs) in
  foldl (λ index name, <[filepath_Join ["registry.k8s.io"; name] := name]> index) index k8s_images.

Definition GetComponentNameByRef `{GoRange} (ref : string) : string := default "" (refToComponentIndex !! ref).

(** ** Charts *)

Record ChartInfo : Type := MkChartInfo { ch_Name : string; ch_Repo : string; ch_Version : string }.
Record ComponentChartBOM : Type := MkChartBOM { cb_KubeVersionConstraints : string; cb_Chart : ChartInfo }.

Definition componentBOMs : gmap string (list ComponentChartBOM) := list_to_map [
  ("calico", [MkChartBOM ">= 1.31.0, < 1.34.0" (MkChartInfo "tigera-operator" "https://projectcalico.docs.tigera.io/charts" "v3.30.0");
             MkChartBOM ">= 1.29.0, < 1.33.0" (MkChartInfo "tigera-operator" "https://projectcalico.docs.tigera.io/charts" "v3.29.0");
             MkChartBOM ">= 1.27.0, < 1.31.0" (MkChartInfo "tigera-operator" "https://projectcalico.docs.tigera.io/charts" "v3.28.0");
             MkChartBOM ">= 1.27.0, < 1.30.0" (MkChartInfo "tigera-operator" "https://projectcalico.docs.tigera.io/charts" "v3.27.3");
             MkChartBOM ">= 1.24.0, < 1.29.0" (MkChartInfo "tigera-operator" "https://projectcalico.docs.tigera.io/charts" "v3.26.4");
             MkChartBOM "< 1.24.0" (MkChartInfo "tigera-operator" "https://projectcalico.docs.tigera.io/charts" "v3.25.1")]);
  ("flannel", [MkChartBOM ">= 1.22.0" (MkChartInfo "flannel" "https://flannel-io.github.io/flannel/" "v0.26.2")]);
  ("cilium", [MkChartBOM ">= 1.27.0, < 1.32.0" (MkChartInfo "cilium" "https://helm.cilium.io/" "1.15.7")]);
  ("kube-ovn", [MkChartBOM ">= 1.29.0" (MkChartInfo "kube-ovn" "https://kubeovn.github.io/kube-ovn/" "v1.15.0");
               MkChartBOM ">= 1.23.0, < 1.29.0" (MkChartInfo "kube-ovn" "https://kubeovn.github.io/kube-ovn/" "v1.12.0");
               MkChartBOM ">= 1.20.0, < 1.23.0" (MkChartInfo "kube-ovn" "https://kubeovn.github.io/kube-ovn/" "v1.10.0")]);
  ("hybridnet", [MkChartBOM ">= 1.23.0" (MkChartInfo "hybridnet" "https://alibaba.github.io/hybridnet/" "v0.8.1");
                MkChartBOM "< 1.23.0, >= 1.21.0" (MkChartInfo "hybridnet" "https://alibaba.github.io/hybridnet/" "v0.6.1")]);
  ("multus", [MkChartBOM ">= 1.20.0" (MkChartInfo "multus" "https://k8s-at-home.com/charts/" "5.0.1")]);
  ("ingress-nginx", [MkChartBOM ">= 1.29.0, < 1.34.0" (MkChartInfo "ingress-nginx" "https://kubernetes.github.io/ingress-nginx/" "4.13.0");
                    MkChartBOM ">= 1.28.0, < 1.33.0" (MkChartInfo "ingress-nginx" "https://kubernetes.github.io/ingress-nginx/" "4.12.4");
                    MkChartBOM ">= 1.26.0, < 1.31.0" (MkChartInfo "ingress-nginx" "https://kubernetes.github.io/ingress-nginx/" "4.11.8");
                    MkChartBOM ">= 1.26.0, < 1.31.0" (MkChartInfo "ingress-nginx" "https://kubernetes.github.io/ingress-nginx/" "4.10.6");
                    MkChartBOM ">= 1.25.0, < 1.30.0" (MkChartInfo "ingress-nginx" "https://kubernetes.github.io/ingress-nginx/" "4.9.1")]);
  ("longhorn", [MkChartBOM ">= 1.25.0" (MkChartInfo "longhorn" "https://charts.longhorn.io" "1.9.0");
               MkChartBOM ">= 1.25.0" (MkChartInfo "longhorn" "https://charts.longhorn.io" "1.8.2");
               MkChartBOM ">= 1.21.0, < 1.25.0" (MkChartInfo "longhorn" "https://charts.longhorn.io" "1.7.3")]);
  ("openebs", [MkChartBOM ">= 1.25.0" (MkChartInfo "openebs" "https://openebs.github.io/charts" "3.3.0")]);
  ("nfs-subdir-external-provisioner", [MkChartBOM ">= 1.25.0" (MkChartInfo "nfs-subdir-external-provisioner" "https://kubernetes-sigs.github.io/nfs-subdir-external-provisioner/" "4.0.18")]);
  ("csi-driver-nfs", [MkChartBOM ">= 1.25.0" (MkChartInfo "csi-driver-nfs" "https://raw.githubusercontent.com/kubernetes-csi/csi-driver-nfs/master/charts" "4.11.0")]);
  ("argocd", [MkChartBOM ">= 1.24.0" (MkChartInfo "argo-cd" "https://argoproj.github.io/argo-helm" "6.11.1")])].

Definition GetChartInfo `{Semver} (componentName kubeVersionStr : string) : option ChartInfo :=
  if bool_decide (componentName = "") || bool_decide (kubeVersionStr = "") then None else
  k8sVersion ← NewVersion kubeVersionStr ;
  componentBOMList ← componentBOMs !! componentName ;
  cb_Chart <$> best_of (λ e, ch_Version (cb_Chart e)) (candidates cb_KubeVersionConstraints k8sVersion componentBOMList).

(** ** Binaries *)

Definition ComponentEtcd : string := "etcd".
Definition ComponentKubeadm : string := "kubeadm".
Definition ComponentKubelet : string := "kubelet".
Definition ComponentKubectl : string := "kubectl".
Definition ComponentKubeProxy : string := "kube-proxy".
Definition ComponentKubeScheduler : string := "kube-scheduler".
Definition ComponentKubeControllerManager : string := "kube-controller-manager".
Definition ComponentKubeApiServer : string := "kube-apiserver".
Definition ComponentKubeCNI : string := "kubecni".
Definition ComponentHelm : string := "helm".
Definition ComponentDocker : string := "docker".
Definition ComponentCriDockerd : string := "cri-dockerd".
Definition ComponentCrio : string := "crio".
Definition ComponentIsulad : string := "isulad".
Definition ComponentCriCtl : string := "crictl".
Definition ComponentK3s : string := "k3s".
Definition ComponentK8e : string := "k8e".
Definition ComponentRegistry : string := "registry".
Definition ComponentHarbor : string := "harbor".
Definition ComponentCompose : string := "compose".
Definition ComponentContainerd : string := "containerd".
Definition ComponentRunc : string := "runc".
Definition ComponentCalicoCtl : string := "calicoctl".
Definition ComponentBuildx : string := "buildx".
Definition ComponentJq : string := "jq".
Definition ComponentYq : string := "yq".

Inductive BinaryType : Type :=
| ETCD
| KUBE
| CNI
| HELM
| DOCKER
| CRIDOCKERD
| CRICTL
| K3S
| K8E
| REGISTRY
| BUILD
| CONTAINERD
| RUNC
| CALICOCTL
| CRIO
| TOOLS
| UNKNOWN.

Definition BinaryType_string (t : BinaryType) : string :=
  match t with
  | ETCD => "etcd"
  | KUBE => "kubernetes"
  | CNI => "cni"
  | HELM => "helm"
  | DOCKER => "docker"
  | CRIDOCKERD => "cri-dockerd"
  | CRICTL => "crictl"
  | K3S => "k3s"
  | K8E => "k8e"
  | REGISTRY => "registry"
  | BUILD => "build"
  | CONTAINERD => "containerd"
  | RUNC => "runc"
  | CALICOCTL => "calicoctl"
  | CRIO => "crio"
  | TOOLS => "tools"
  | UNKNOWN => "unknown"
  end.

Record ComponentBinaryBOM : Type := MkBinaryBOM {
  bb_KubeVersionConstraints : string;
  bb_Version : string;
  bb_Checksums : list (string * string);
}.

Definition componentBinaryBOMs : gmap string (list ComponentBinaryBOM) := list_to_map [
  (ComponentEtcd, [MkBinaryBOM ">= 1.29.0" "v3.5.10-0" [("amd64", "9b3c4853a19e5590916a815a5195b05a76953f938f30997b6a6556e40d0469b8"); ("arm64", "422e54143a41198642a8a5e3a804e8d3809618059048a946e537c093a127a518")];
                  MkBinaryBOM ">= 1.28.0, < 1.29.0" "v3.5.9-0" [];
                  MkBinaryBOM "< 1.28.0" "v3.5.7-0" []]);
  (ComponentContainerd, [MkBinaryBOM ">= 1.26.0" "1.7.13" [];
                        MkBinaryBOM "< 1.26.0" "1.6.28" []]);
  (ComponentKubeCNI, [MkBinaryBOM ">= 1.24.0" "v1.4.0" [];
                     MkBinaryBOM "< 1.24.0" "v1.2.0" []]);
  (ComponentRunc, [MkBinaryBOM ">= 1.26.0" "v1.1.12" [];
                  MkBinaryBOM "< 1.26.0" "v1.1.9" []]);
  (ComponentCriCtl, [MkBinaryBOM ">= 1.29.0" "v1.29.0" [];
                    MkBinaryBOM "< 1.29.0" "v1.28.0" []]);
  (ComponentCalicoCtl, [MkBinaryBOM ">= 1.28.0, < 1.31.0" "v3.28.0" [];
                       MkBinaryBOM "< 1.28.0" "v3.27.3" []]);
  (ComponentDocker, [MkBinaryBOM ">= 1.27.0" "26.1.1" [];
                    MkBinaryBOM "< 1.27.0" "25.0.5" []]);
  (ComponentCriDockerd, [MkBinaryBOM ">= 1.27.0" "0.3.10" [];
                        MkBinaryBOM "< 1.27.0, >= 1.24.0" "0.3.1" []]);
  (ComponentCrio, [MkBinaryBOM ">= 1.29.0" "1.29.0" [];
                  MkBinaryBOM ">= 1.28.0, < 1.29.0" "1.28.7" [("amd64", "9e71027150a0f8373b3c3e8085b306443c6835a64319803859d57a414995f590"); ("arm64", "c86e06b9b1e9415516a7821650b86c4f8d229e3dd4846f4146a80479989803a6")];
                  MkBinaryBOM ">= 1.27.0, < 1.28.0" "1.27.4" []]);
  (ComponentHelm, [MkBinaryBOM ">= 0.0.0" "v3.14.4" []]);
  (ComponentRegistry, [MkBinaryBOM ">= 0.0.0" "2.8.3" []]);
  (ComponentHarbor, [MkBinaryBOM ">= 0.0.0" "v2.11.0" []]);
  (ComponentCompose, [MkBinaryBOM ">= 0.0.0" "v2.27.0" []]);
  (ComponentBuildx, [MkBinaryBOM ">= 0.0.0" "v0.14.0" []]);
  (ComponentJq, [MkBinaryBOM ">= 0.0.0" "1.7.1" []]);
  (ComponentYq, [MkBinaryBOM ">= 0.0.0" "v4.44.1" []])].

(** [Checksums[arch]], empty when there is none. *)
Definition checksum_of (arch : string) (e : ComponentBinaryBOM) : string :=
  default "" ((list_to_map (bb_Checksums e) : gmap string string) !! arch).

(** The first entry whose constraint the version meets. *)
Definition GetBinaryVersionFromBOM `{Semver} (componentName kubeVersionStr : string) : string :=
  if decide (componentName = "") then "" else
  let kubeVersionStr := if decide (kubeVersionStr = "") then "0.0.0" else kubeVersionStr in
  let entries := default [] (componentBinaryBOMs !! componentName) in
  match NewVersion kubeVersionStr with
  | None => default "" (bb_Version <$> head (filter (λ e, bb_KubeVersionConstraints e = ">= 0.0.0") entries))
  | Some v => default "" (bb_Version <$> head (candidates bb_KubeVersionConstraints v entries))
  end.

Definition getBinaryBOMEntry `{Semver} (componentName kubeVersionStr : string) : option ComponentBinaryBOM :=
  if decide (componentName = "") then None else
  let kubeVersionStr := if decide (kubeVersionStr = "") then "0.0.0" else kubeVersionStr in
  k8sVersion ← NewVersion kubeVersionStr ;
  componentBOMList ← componentBinaryBOMs !! componentName ;
  head (candidates bb_KubeVersionConstraints k8sVersion componentBOMList).

Record BinaryDetailSpec : Type := MkDetail {
  bd_BinaryType : BinaryType;
  bd_URLTemplate : string;
  bd_CNURLTemplate : string;
  bd_FileNameTemplate : string;
  bd_IsArchive : bool;
  bd_DefaultOS : string;
  bd_ComponentNameForDir : string;
}.

Definition defaultKnownBinaryDetails : gmap string BinaryDetailSpec := list_to_map [
  (ComponentEtcd, MkDetail ETCD "https://github.com/coreos/etcd/releases/download/{{.Version}}/etcd-{{.Version}}-{{.OS}}-{{.Arch}}.tar.gz"
    "https://kubernetes-release.pek3b.qingstor.com/etcd/release/download/{{.Version}}/etcd-{{.Version}}-{{.OS}}-{{.Arch}}.tar.gz"
    "etcd-{{.Version}}-{{.OS}}-{{.Arch}}.tar.gz" true "linux" "");
  (ComponentKubeadm, MkDetail KUBE "https://dl.k8s.io/release/{{.Version}}/bin/{{.OS}}/{{.Arch}}/kubeadm"
    "https://kubernetes-release.pek3b.qingstor.com/release/{{.Version}}/bin/{{.OS}}/{{.Arch}}/kubeadm"
    "kubeadm" false "linux" "");
  (ComponentKubelet, MkDetail KUBE "https://dl.k8s.io/release/{{.Version}}/bin/{{.OS}}/{{.Arch}}/kubelet"
    "https://kubernetes-release.pek3b.qingstor.com/release/{{.Version}}/bin/{{.OS}}/{{.Arch}}/kubelet"
    "kubelet" false "linux" "");
  (ComponentKubectl, MkDetail KUBE "https://dl.k8s.io/release/{{.Version}}/bin/{{.OS}}/{{.Arch}}/kubectl"
    "https://kubernetes-release.pek3b.qingstor.com/release/{{.Version}}/bin/{{.OS}}/{{.Arch}}/kubectl"
    "kubectl" false "linux" "");
  (ComponentKubeProxy, MkDetail KUBE "https://dl.k8s.io/release/{{.Version}}/bin/{{.OS}}/{{.Arch}}/kube-proxy"
    "https://kubernetes-release.pek3b.qingstor.com/release/{{.Version}}/bin/{{.OS}}/{{.Arch}}/kube-proxy"
    "kube-proxy" false "linux" "");
  (ComponentKubeScheduler, MkDetail KUBE "https://dl.k8s.io/release/{{.Version}}/bin/{{.OS}}/{{.Arch}}/kube-scheduler"
    "https://kubernetes-release.pek3b.qingstor.com/release/{{.Version}}/bin/{{.OS}}/{{.Arch}}/kube-scheduler"
    "kube-scheduler" false "linux" "");
  (ComponentKubeControllerManager, MkDetail KUBE "https://dl.k8s.io/release/{{.Version}}/bin/{{.OS}}/{{.Arch}}/kube-controller-manager"
    "https://kubernetes-release.pek3b.qingstor.com/release/{{.Version}}/bin/{{.OS}}/{{.Arch}}/kube-controller-manager"
    "kube-controller-manager" false "linux" "");
  (ComponentKubeApiServer, MkDetail KUBE "https://dl.k8s.io/release/{{.Version}}/bin/{{.OS}}/{{.Arch}}/kube-apiserver"
    "https://kubernetes-release.pek3b.qingstor.com/release/{{.Version}}/bin/{{.OS}}/{{.Arch}}/kube-apiserver"
    "kube-apiserver" false "linux" "");
  (ComponentKubeCNI, MkDetail CNI "https://github.com/containernetworking/plugins/releases/download/{{.Version}}/cni-plugins-{{.OS}}-{{.Arch}}-{{.Version}}.tgz"
    "https://containernetworking.pek3b.qingstor.com/plugins/releases/download/{{.Version}}/cni-plugins-{{.OS}}-{{.Arch}}-{{.Version}}.tgz"
    "cni-plugins-{{.OS}}-{{.Arch}}-{{.Version}}.tgz" true "linux" "");
  (ComponentHelm, MkDetail HELM "https://get.helm.sh/helm-{{.Version}}-{{.OS}}-{{.Arch}}.tar.gz"
    "https://kubernetes-helm.pek3b.qingstor.com/linux-{{.Arch}}/{{.Version}}/helm-{{.Version}}-{{.OS}}-{{.Arch}}.tar.gz"
    "helm-{{.Version}}-{{.OS}}-{{.Arch}}.tar.gz" true "linux" "");
  (ComponentDocker, MkDetail DOCKER "https://download.docker.com/linux/static/stable/{{.ArchAlias}}/docker-{{.VersionNoV}}.tgz"
    "https://mirrors.aliyun.com/docker-ce/linux/static/stable/{{.ArchAlias}}/docker-{{.VersionNoV}}.tgz"
    "docker-{{.VersionNoV}}.tgz" true "linux" "docker");
  (ComponentCriDockerd, MkDetail CRIDOCKERD "https://github.com/Mirantis/cri-dockerd/releases/download/v{{.VersionNoV}}/cri-dockerd-{{.VersionNoV}}.{{.Arch}}.tgz"
    "https://kubernetes-release.pek3b.qingstor.com/cri-dockerd/releases/download/v{{.VersionNoV}}/cri-dockerd-{{.VersionNoV}}.{{.Arch}}.tgz"
    "cri-dockerd-{{.VersionNoV}}.{{.Arch}}.tgz" true "linux" "cri-dockerd");
  (ComponentCriCtl, MkDetail CRICTL "https://github.com/kubernetes-sigs/cri-tools/releases/download/{{.Version}}/crictl-{{.Version}}-{{.OS}}-{{.Arch}}.tar.gz"
    "https://kubernetes-release.pek3b.qingstor.com/cri-tools/releases/download/{{.Version}}/crictl-{{.Version}}-{{.OS}}-{{.Arch}}.tar.gz"
    "crictl-{{.Version}}-{{.OS}}-{{.Arch}}.tar.gz" true "linux" "");
  (ComponentK3s, MkDetail K3S "https://github.com/k3s-io/k3s/releases/download/{{.VersionWithPlus}}/k3s{{.ArchSuffix}}"
    "https://kubernetes-release.pek3b.qingstor.com/k3s/releases/download/{{.VersionWithPlus}}/linux/{{.Arch}}/k3s"
    "k3s{{.ArchSuffix}}" false "linux" "");
  (ComponentK8e, MkDetail K8E "https://github.com/xiaods/k8e/releases/download/{{.VersionWithPlus}}/k8e{{.ArchSuffix}}"
    "https://kubernetes-release.pek3b.qingstor.com/k8e/releases/download/{{.VersionWithPlus}}/linux/{{.Arch}}/k8e"
    "k8e{{.ArchSuffix}}" false "linux" "");
  (ComponentRegistry, MkDetail REGISTRY "https://github.com/distribution/distribution/releases/download/v{{.VersionNoV}}/registry-{{.VersionNoV}}-linux-{{.Arch}}.tar.gz"
    ""
    "registry-{{.VersionNoV}}-linux-{{.Arch}}.tar.gz" true "linux" "registry");
  (ComponentHarbor, MkDetail REGISTRY "https://github.com/goharbor/harbor/releases/download/{{.Version}}/harbor-offline-installer-{{.Version}}.tgz"
    "https://kubernetes-release.pek3b.qingstor.com/harbor/releases/download/{{.Version}}/harbor-offline-installer-{{.Version}}.tgz"
    "harbor-offline-installer-{{.Version}}.tgz" true "linux" "harbor");
  (ComponentCompose, MkDetail REGISTRY "https://github.com/docker/compose/releases/download/{{.Version}}/docker-compose-{{.OS}}-{{.ArchAlias}}"
    "https://kubernetes-release.pek3b.qingstor.com/docker/compose/releases/download/{{.Version}}/docker-compose-{{.OS}}-{{.ArchAlias}}"
    "docker-compose-{{.OS}}-{{.ArchAlias}}" false "linux" "compose");
  (ComponentContainerd, MkDetail CONTAINERD "https://github.com/containerd/containerd/releases/download/v{{.VersionNoV}}/containerd-{{.VersionNoV}}-{{.OS}}-{{.Arch}}.tar.gz"
    "https://kubernetes-release.pek3b.qingstor.com/containerd/containerd/releases/download/v{{.VersionNoV}}/containerd-{{.VersionNoV}}-{{.OS}}-{{.Arch}}.tar.gz"
    "containerd-{{.VersionNoV}}-{{.OS}}-{{.Arch}}.tar.gz" true "linux" "containerd");
  (ComponentRunc, MkDetail RUNC "https://github.com/opencontainers/runc/releases/download/{{.Version}}/runc.{{.Arch}}"
    "https://kubernetes-release.pek3b.qingstor.com/opencontainers/runc/releases/download/{{.Version}}/runc.{{.Arch}}"
    "runc.{{.Arch}}" false "linux" "runc");
  (ComponentCalicoCtl, MkDetail CALICOCTL "https://github.com/projectcalico/calico/releases/download/{{.Version}}/calicoctl-{{.OS}}-{{.Arch}}"
    "https://kubernetes-release.pek3b.qingstor.com/projectcalico/calico/releases/download/{{.Version}}/calicoctl-{{.OS}}-{{.Arch}}"
    "calicoctl-{{.OS}}-{{.Arch}}" false "linux" "");
  (ComponentBuildx, MkDetail BUILD "https://github.com/docker/buildx/releases/download/{{.Version}}/buildx-{{.Version}}.{{.OS}}-{{.Arch}}"
    "https://kubernetes-release.pek3b.qingstor.com/docker/buildx/releases/download/{{.Version}}/buildx-{{.Version}}.{{.OS}}-{{.Arch}}"
    "buildx-{{.Version}}.{{.OS}}-{{.Arch}}" false "linux" "");
  (ComponentJq, MkDetail TOOLS "https://github.com/jqlang/jq/releases/download/jq-{{.Version}}/jq-{{.OS}}-{{.Arch}}"
    ""
    "jq-{{.OS}}-{{.Arch}}" false "linux" "");
  (ComponentYq, MkDetail TOOLS "https://github.com/mikefarah/yq/releases/download/{{.Version}}/yq_{{.OS}}_{{.Arch}}"
    ""
    "yq_{{.OS}}_{{.Arch}}" false "linux" "");
  (ComponentCrio, MkDetail CRIO "https://storage.googleapis.com/cri-o/artifacts/cri-o.{{.Arch}}.v{{.VersionNoV}}.tar.gz"
    "https://download.kubexm.com/cri-o/cri-o/releases/download/v{{.VersionNoV}}/crio-v{{.VersionNoV}}-{{.OS}}-{{.Arch}}.tar.gz"
    "crio-v{{.VersionNoV}}-{{.OS}}-{{.Arch}}.tar.gz" true "linux" "crio")].

(** The tables are not unfolded by proofs. *)
Global Opaque componentImageBOMs componentBOMs componentBinaryBOMs defaultKnownBinaryDetails.
