(* ===== verification/AssetProviders.v ===== *)
(** The providers of images, charts and binaries over the bills of materials:
    [util/images/{types,provider}.go], [util/helm/{types,provider}.go] and
    [step/helpers/bom/binary/{types,provider}.go] (of which [util/binaries] is a copy). *)
From S2P Require Import Prelude.
From S2P Require Import GoText.
From S2P Require Import GoPath.
From S2P Require Import Bom.
From Stdlib Require Import Ascii.

(** ** The configuration the providers read *)

(** The version under [Docker], [Containerd] and [Crio]. *)
Record AssetRuntime : Type := MkAssetRuntime {
  ar_Type : string;
  ar_Containerd : option string;
  ar_Docker : option string;
  ar_Crio : option string;
}.

(** Pointers are options; a section that has only an [Enabled] pointer is that
    pointer. *)
Record AssetKubernetes : Type := MkAssetKubernetes {
  ak_Version : string;
  ak_KubeProxy : option (option bool);
  ak_ContainerRuntime : option AssetRuntime;
  ak_Addons : option (option (option bool) * option (option bool));
}.

Definition ak_Kata (a : option (option bool) * option (option bool)) := a.1.
Definition ak_NodeFeatureDiscovery (a : option (option bool) * option (option bool)) := a.2.

Record AssetEtcd : Type := MkAssetEtcd { ae_Type : string; ae_Version : string }.

(** [an_Multus]: the pointer to the section, to its [Installation] and to [Enabled]. *)
Record AssetNetwork : Type := MkAssetNetwork {
  an_Plugin : string;
  an_Multus : option (option (option bool));
}.

Record AssetStorage : Type := MkAssetStorage {
  as_OpenEBS : option (option bool);
  as_NFS : option (option bool);
}.

Record NamespaceRewriteRule : Type := MkRule {
  rule_Registry : string;
  rule_OldNamespace : string;
  rule_NewNamespace : string;
}.

Record NamespaceRewrite : Type := MkRewrite {
  nr_Enabled : option bool;
  nr_Rules : list NamespaceRewriteRule;
}.

Record RegistryMirroringAndRewriting : Type := MkMirroring {
  rm_PrivateRegistry : string;
  rm_NamespaceOverride : string;
  rm_NamespaceRewrite : option NamespaceRewrite;
}.

(** [ag_LocalDeployment]: its type. *)
Record AssetRegistry : Type := MkAssetRegistry {
  ag_MirroringAndRewriting : option RegistryMirroringAndRewriting;
  ag_LocalDeployment : option string;
}.

Record AssetEndpoint : Type := MkAssetEndpoint {
  ap_ExternalLoadBalancerType : string;
  ap_InternalLoadBalancerType : string;
}.

Record AssetSpec : Type := MkAssetSpec {
  aspec_Kubernetes : option AssetKubernetes;
  aspec_Etcd : option AssetEtcd;
  aspec_DNS : option (option (option bool));
  aspec_Network : option AssetNetwork;
  aspec_Storage : option AssetStorage;
  aspec_Registry : option AssetRegistry;
  aspec_ControlPlaneEndpoint : option AssetEndpoint;
}.

Record AssetCluster : Type := MkAssetCluster { ac_Name : string; ac_Spec : option AssetSpec }.

(** What the providers read of their context. *)
Record AssetContext : Type := MkAssetContext {
  actx_ClusterConfig : option AssetCluster;
  actx_GlobalWorkDir : string;
  actx_Zone : string;
}.

(** [p != nil && *p], and the same below one more pointer. *)
Definition ptr_true (p : option bool) : bool := match p with Some b => b | None => false end.
Definition section_on (p : option (option bool)) : bool := match p with Some e => ptr_true e | None => false end.

Section providers.
Context `{Semver}.
Local Abbreviation O := (outcome string).

(** The [Spec] of the configuration, which is not nil. *)
Definition spec_of (ctx : AssetContext) : O AssetSpec :=
  cfg ← deref_or_panic (actx_ClusterConfig ctx) ; deref_or_panic (ac_Spec cfg).

Definition kubernetes_of (ctx : AssetContext) : O AssetKubernetes :=
  spec ← spec_of ctx ; deref_or_panic (aspec_Kubernetes spec).

(** ** Images *)

Record Image : Type := MkImage {
  im_OriginalRepoAddr : string;
  im_OriginalNamespace : string;
  im_OriginalRepo : string;
  im_OriginalTag : string;
  im_privateRepoAddr : string;
  im_namespaceOverride : string;
  im_namespaceRewrite : option NamespaceRewrite;
}.

Definition newImage (bom : ImageBOM) (cfg : RegistryMirroringAndRewriting) : Image :=
  MkImage (ib_RepoAddr bom) (ib_Namespace bom) (ib_Repo bom) (ib_Tag bom)
    (rm_PrivateRegistry cfg) (rm_NamespaceOverride cfg) (rm_NamespaceRewrite cfg).

Definition rule_matches (i : Image) (rule : NamespaceRewriteRule) : bool :=
  (bool_decide (rule_Registry rule = "") || bool_decide (rule_Registry rule = im_OriginalRepoAddr i))
  && bool_decide (rule_OldNamespace rule = im_OriginalNamespace i).

(** The override, the first rule that matches, or the original namespace. *)
Definition finalNamespace (i : Image) : string :=
  if decide (im_namespaceOverride i ≠ "") then im_namespaceOverride i else
  match im_namespaceRewrite i with
  | Some rewrite =>
      if ptr_true (nr_Enabled rewrite) then
        match filter (λ r, rule_matches i r = true) (nr_Rules rewrite) with
        | rule :: _ => rule_NewNamespace rule
        | [] => im_OriginalNamespace i
        end
      else im_OriginalNamespace i
  | None => im_OriginalNamespace i
  end.

Definition Image_Name (i : Image) : string := im_OriginalRepo i.
Definition Image_Tag (i : Image) : string := im_OriginalTag i.
Definition Image_RegistryAddr (i : Image) : string := im_privateRepoAddr i.
Definition Image_Namespace (i : Image) : string := finalNamespace i.

Definition RegistryAddrWithNamespace (i : Image) : string :=
  if decide (finalNamespace i = "") then im_privateRepoAddr i
  else filepath_Join [im_privateRepoAddr i; finalNamespace i].

Definition repoAndTag (i : Image) : string := im_OriginalRepo i +:+ ":" +:+ im_OriginalTag i.

Definition Image_FullName (i : Image) : string :=
  if decide (finalNamespace i = "") then filepath_Join [im_privateRepoAddr i; repoAndTag i]
  else filepath_Join [im_privateRepoAddr i; finalNamespace i; repoAndTag i].

Definition FullNameWithoutTag (i : Image) : string :=
  if decide (finalNamespace i = "") then filepath_Join [im_privateRepoAddr i; im_OriginalRepo i]
  else filepath_Join [im_privateRepoAddr i; finalNamespace i; im_OriginalRepo i].

Definition OriginalFullName (i : Image) : string :=
  if decide (im_OriginalNamespace i = "") then filepath_Join [im_OriginalRepoAddr i; repoAndTag i]
  else filepath_Join [im_OriginalRepoAddr i; im_OriginalNamespace i; repoAndTag i].

Definition calico_images : list string :=
  ["tigera-operator"; "calico-cni"; "calico-node"; "calico-kube-controllers"; "calico-apiserver"; "calico-typha";
   "calico-flexvol"; "calico-key-cert-provisioner"; "calico-dikastes"; "calico-envoy-gateway"; "calico-envoy-proxy";
   "calico-envoy-ratelimit"; "calico-goldmane"; "calico-whisker"; "calico-whisker-backend"].

Definition nfs_images : list string :=
  ["nfs-plugin"; "csi-provisioner"; "csi-node-driver-registrar"; "csi-resizer"; "csi-snapshotter"].

(** [cfg.Network.Multus != nil && cfg.Network.Multus.Installation.Enabled != nil && *...]:
    a nil [Installation] panics. *)
Definition multus_on (n : AssetNetwork) : O bool :=
  match an_Multus n with
  | None => Ok false
  | Some installation => e ← deref_or_panic installation ; Ok (ptr_true e)
  end.

Definition isImageEnabled (ctx : AssetContext) (name : string) : O bool :=
  cfg ← spec_of ctx ;
  let plugin_is (p : string) := n ← deref_or_panic (aspec_Network cfg) ; Ok (EqualFold (an_Plugin n) p) in
  if decide (name = "etcd") then e ← deref_or_panic (aspec_Etcd cfg) ; Ok (EqualFold (ae_Type e) "kubeadm")
  else if decide (name = "kube-proxy") then
    k ← deref_or_panic (aspec_Kubernetes cfg) ; proxy ← deref_or_panic (ak_KubeProxy k) ;
    Ok (match proxy with Some b => b | None => true end)
  else if decide (name = "k8s-dns-node-cache") then d ← deref_or_panic (aspec_DNS cfg) ; Ok (section_on d)
  else if decide (name ∈ calico_images) then plugin_is "calico"
  else if decide (name ∈ ["flannel"; "flannel-cni-plugin"]) then plugin_is "flannel"
  else if decide (name ∈ ["cilium"; "cilium-operator-generic"]) then plugin_is "cilium"
  else if decide (name = "kubeovn") then plugin_is "kube-ovn"
  else if decide (name = "hybridnet") then plugin_is "hybridnet"
  else if decide (name = "multus") then n ← deref_or_panic (aspec_Network cfg) ; multus_on n
  else if decide (name ∈ ["provisioner-localpv"; "linux-utils"]) then
    s ← deref_or_panic (aspec_Storage cfg) ; Ok (section_on (as_OpenEBS s))
  else if decide (name ∈ nfs_images) then s ← deref_or_panic (aspec_Storage cfg) ; Ok (section_on (as_NFS s))
  else if decide (name = "haproxy") then
    e ← deref_or_panic (aspec_ControlPlaneEndpoint cfg) ; Ok (bool_decide (ap_InternalLoadBalancerType e = "haproxy"))
  else if decide (name = "nginx") then
    e ← deref_or_panic (aspec_ControlPlaneEndpoint cfg) ; Ok (bool_decide (ap_InternalLoadBalancerType e = "nginx"))
  else if decide (name = "kubevip") then
    e ← deref_or_panic (aspec_ControlPlaneEndpoint cfg) ; Ok (bool_decide (ap_ExternalLoadBalancerType e = "kube-vip"))
  else if decide (name = "kata-deploy") then
    k ← deref_or_panic (aspec_Kubernetes cfg) ; a ← deref_or_panic (ak_Addons k) ; Ok (section_on (ak_Kata a))
  else if decide (name = "node-feature-discovery") then
    k ← deref_or_panic (aspec_Kubernetes cfg) ; a ← deref_or_panic (ak_Addons k) ;
    Ok (section_on (ak_NodeFeatureDiscovery a))
  else Ok true.

Definition GetImage (ctx : AssetContext) (name : string) : O (option Image) :=
  match actx_ClusterConfig ctx with
  | None => Ok None
  | Some _ =>
      k ← kubernetes_of ctx ;
      match getImageBOM name (ak_Version k) with
      | None => Ok None
      | Some bom =>
          enabled ← isImageEnabled ctx name ;
          if (enabled : bool) then
            spec ← spec_of ctx ; registry ← deref_or_panic (aspec_Registry spec) ;
            mirroring ← deref_or_panic (ag_MirroringAndRewriting registry) ;
            Ok (Some (newImage bom mirroring))
          else Ok None
      end
  end.

(** The present values of a loop of calls that may give nil. *)
Fixpoint collect_some {A} (f : string → O (option A)) (names : list string) : O (list A) :=
  match names with
  | [] => Ok []
  | name :: names =>
      o ← f name ; l ← collect_some f names ;
      Ok (match o with Some a => a :: l | None => l end)
  end.

Definition getManagedImageNames `{GoRange} : list string := (range 66 componentImageBOMs).*1 ++ k8s_images.

Definition GetImages `{GoRange} (ctx : AssetContext) : O (list Image) := collect_some (GetImage ctx) getManagedImageNames.

(** ** Charts *)

Record HelmChart : Type := MkHelmChart {
  hc_ComponentName : string;
  hc_Version : string;
  hc_KubeVersion : string;
  hc_meta : ChartInfo;
}.

(** [strings.ToLower] of ASCII. *)
Fixpoint ToLower (s : string) : string := match s with "" => "" | String c s => String (to_lower c) (ToLower s) end.

Definition ChartName (h : HelmChart) : string := ch_Name (hc_meta h).
Definition RepoName (h : HelmChart) : string := ToLower (hc_ComponentName h).
Definition RepoURL (h : HelmChart) : string := ch_Repo (hc_meta h).
Definition HelmChart_FullName (h : HelmChart) : string := RepoName h +:+ "/" +:+ ChartName h.

Definition LocalPath (h : HelmChart) (baseDir : string) : string :=
  filepath_Join [baseDir; "helm"; hc_KubeVersion h; RepoName h; ChartName h +:+ "-" +:+ hc_Version h +:+ ".tgz"].

Definition cni_charts : list string := ["calico"; "flannel"; "cilium"; "kube-ovn"; "hybridnet"].

Definition isChartEnabled (ctx : AssetContext) (componentName : string) : O bool :=
  cfg ← spec_of ctx ;
  if decide (componentName ∈ cni_charts) then
    n ← deref_or_panic (aspec_Network cfg) ; Ok (bool_decide (an_Plugin n = componentName))
  else if decide (componentName = "multus") then n ← deref_or_panic (aspec_Network cfg) ; multus_on n
  else Ok (bool_decide (componentName ∈
    ["ingress-nginx"; "longhorn"; "openebs"; "nfs-subdir-external-provisioner"; "csi-driver-nfs"; "argocd"])).

Definition GetChart (ctx : AssetContext) (componentName : string) : O (option HelmChart) :=
  match actx_ClusterConfig ctx with
  | None => Ok None
  | Some _ =>
      k ← kubernetes_of ctx ;
      match GetChartInfo componentName (ak_Version k) with
      | None => Ok None
      | Some info =>
          enabled ← isChartEnabled ctx componentName ;
          Ok (if (enabled : bool) then Some (MkHelmChart componentName (ch_Version info) (ak_Version k) info) else None)
      end
  end.

Definition GetManagedChartNames `{GoRange} : list string := (range 67 componentBOMs).*1.

Definition GetCharts `{GoRange} (ctx : AssetContext) : O (list HelmChart) := collect_some (GetChart ctx) GetManagedChartNames.

(** ** Binaries *)

Record Binary : Type := MkBinary {
  bi_ComponentName : string;
  bi_Version : string;
  bi_Arch : string;
  bi_Zone : string;
  bi_checksum : string;
  bi_meta : BinaryDetailSpec;
  bi_workDir : string;
  bi_clusterName : string;
}.

(** [getUserSpecifiedVersion]: the section named by the type of the runtime is
    dereferenced. *)
Definition getUserSpecifiedVersion (ctx : AssetContext) (name : string) : O string :=
  cfg ← spec_of ctx ;
  let runtime (type : string) (version : AssetRuntime → option string) :=
    k ← deref_or_panic (aspec_Kubernetes cfg) ;
    match ak_ContainerRuntime k with
    | None => Ok ""
    | Some r => if decide (ar_Type r = type) then deref_or_panic (version r) else Ok ""
    end in
  if decide (name = ComponentEtcd) then Ok (match aspec_Etcd cfg with Some e => ae_Version e | None => "" end)
  else if decide (name = ComponentContainerd) then runtime "containerd" ar_Containerd
  else if decide (name = ComponentDocker) then runtime "docker" ar_Docker
  else if decide (name = ComponentCrio) then runtime "crio" ar_Crio
  else Ok "".

Definition runtime_is (k : AssetKubernetes) (type : string) : bool :=
  match ak_ContainerRuntime k with Some r => bool_decide (ar_Type r = type) | None => false end.

Definition core_binaries : list string :=
  [ComponentKubeadm; ComponentKubelet; ComponentKubectl; ComponentKubeScheduler; ComponentKubeControllerManager;
   ComponentKubeApiServer; ComponentKubeCNI].

Definition tool_binaries : list string := [ComponentHelm; ComponentCompose; ComponentBuildx; ComponentJq; ComponentYq].

Definition isBinaryEnabled (ctx : AssetContext) (name : string) : O bool :=
  cfg ← spec_of ctx ;
  let kubernetes := deref_or_panic (aspec_Kubernetes cfg) in
  let local_is (type : string) :=
    g ← deref_or_panic (aspec_Registry cfg) ;
    Ok (match ag_LocalDeployment g with Some t => bool_decide (t = type) | None => false end) in
  if decide (name ∈ core_binaries) then Ok true
  else if decide (name = ComponentEtcd) then
    match aspec_Etcd cfg with
    | None => Err "etcd configuration is missing"
    | Some e => Ok (EqualFold (ae_Type e) "kubexm")
    end
  else if decide (name = ComponentKubeProxy) then
    k ← kubernetes ; Ok (match ak_KubeProxy k with Some (Some b) => b | _ => true end)
  else if decide (name ∈ [ComponentContainerd; ComponentRunc; ComponentCriCtl]) then
    k ← kubernetes ; Ok (bool_decide (is_Some (ak_ContainerRuntime k)))
  else if decide (name = ComponentDocker) then k ← kubernetes ; Ok (runtime_is k "docker")
  else if decide (name = ComponentCriDockerd) then
    k ← kubernetes ;
    if negb (runtime_is k "docker") then Ok false else
    match NewVersion (ak_Version k) with
    | None => Err "invalid kubernetes version for cri-dockerd check"
    | Some v => match NewConstraint ">= 1.24.0" with Some holds => Ok (holds v) | None => Panic end
    end
  else if decide (name = ComponentCrio) then k ← kubernetes ; Ok (runtime_is k "crio")
  else if decide (name = ComponentCalicoCtl) then
    n ← deref_or_panic (aspec_Network cfg) ; Ok (bool_decide (an_Plugin n = "calico"))
  else if decide (name ∈ tool_binaries) then Ok true
  else if decide (name = ComponentHarbor) then local_is "harbor"
  else if decide (name = ComponentRegistry) then local_is "registry"
  else if decide (name ∈ [ComponentK3s; ComponentK8e]) then Ok false
  else Err ("enablement check for component '" +:+ name +:+ "' is not implemented").

Definition GetZone (getenv : string → string) : string := if decide (ToLower (getenv "KXZONE") = "cn") then "cn" else "".

(** The components whose version is that of Kubernetes. *)
Definition kube_versioned : list string :=
  [ComponentKubeadm; ComponentKubelet; ComponentKubectl; ComponentKubeProxy; ComponentKubeScheduler;
   ComponentKubeControllerManager; ComponentKubeApiServer; ComponentK3s; ComponentK8e].

(** The version of a component and its checksum. *)
Definition final_version (userVersion kubeVersion name arch : string) : string * string :=
  if decide (userVersion ≠ "") then (userVersion, "")
  else if decide (name ∈ kube_versioned) then (kubeVersion, "")
  else match getBinaryBOMEntry name kubeVersion with
       | Some e => (bb_Version e, checksum_of arch e)
       | None => ("", "")
       end.

(** A disabled component is [None].  The checksum that was found is only used to warn
    when it is missing: the binary is made without it. *)
Definition GetBinary (ctx : AssetContext) (name arch : string) : O (option Binary) :=
  match actx_ClusterConfig ctx with
  | None => Err "cluster config is not available in context"
  | Some cfg =>
      isEnabled ← isBinaryEnabled ctx name ;
      if negb isEnabled then Ok None else
      userVersion ← getUserSpecifiedVersion ctx name ;
      k ← kubernetes_of ctx ;
      let '(finalVersion, finalChecksum) := final_version userVersion (ak_Version k) name arch in
      if decide (finalVersion = "") then
        Err ("version for component '" +:+ name +:+ "' is not specified and could not be determined")
      else
        match defaultKnownBinaryDetails !! name with
        | None => Err ("unknown binary component in metadata details: " +:+ name)
        | Some meta =>
            Ok (Some (MkBinary name finalVersion arch (actx_Zone ctx) "" meta (actx_GlobalWorkDir ctx) (ac_Name cfg)))
        end
  end.

Definition getManagedBinaryNames `{GoRange} : list string := (range 68 defaultKnownBinaryDetails).*1.

Fixpoint get_binaries (ctx : AssetContext) (arch : string) (names : list string) : O (list Binary) :=
  match names with
  | [] => Ok []
  | name :: names =>
      o ← map_err (λ e, "failed to get binary info for " +:+ name +:+ ": " +:+ e) (GetBinary ctx name arch) ;
      l ← get_binaries ctx arch names ;
      Ok (match o with Some b => b :: l | None => l end)
  end.

Definition GetBinaries `{GoRange} (ctx : AssetContext) (arch : string) : O (list Binary) :=
  get_binaries ctx arch getManagedBinaryNames.

End providers.

(** *** Names and places *)

Definition Checksum (b : Binary) : string := bi_checksum b.
Definition IsArchive (b : Binary) : bool := bd_IsArchive (bi_meta b).
Definition Binary_Type (b : Binary) : BinaryType := bd_BinaryType (bi_meta b).

Definition ArchAlias (arch : string) : string :=
  if decide (ToLower arch = "amd64") then "x86_64" else if decide (ToLower arch = "arm64") then "aarch64" else arch.

(** The fields a template may name. *)
Definition templateData (b : Binary) : list (string * string) :=
  let k3s := bool_decide (bi_ComponentName b = ComponentK3s) || bool_decide (bi_ComponentName b = ComponentK8e) in
  [("Version", bi_Version b);
   ("VersionNoV", TrimPrefix (bi_Version b) "v");
   ("VersionWithPlus", if HasPrefix (bi_Version b) "v" && k3s then Replace (bi_Version b) "v" "v-" 1 else bi_Version b);
   ("Arch", bi_Arch b);
   ("ArchAlias", ArchAlias (bi_Arch b));
   ("ArchSuffix", if k3s && bool_decide (bi_Arch b = "arm64") then "-" +:+ bi_Arch b else "");
   ("OS", bd_DefaultOS (bi_meta b))].

(** [util.RenderTemplate] on the templates of the table, whose actions only name
    fields: an unknown field is an error. *)
Fixpoint render_n (fuel : nat) (data : gmap string string) (s : string) : option string :=
  match fuel with
  | O => None
  | S fuel =>
      if String.prefix "{{." s then
        let rest := String.substring 3 (String.length s - 3) s in
        match cut_first "}" rest with
        | Some (field, String "}" rest) => v ← data !! field ; r ← render_n fuel data rest ; Some (v +:+ r)
        | _ => None
        end
      else match s with "" => Some "" | String c s => String c <$> render_n fuel data s end
  end.

Definition RenderTemplate (s : string) (data : list (string * string)) : option string :=
  render_n (S (String.length s)) (list_to_map data) s.

Definition URL (b : Binary) : string :=
  let meta := bi_meta b in
  let urlTmpl := if bool_decide (ToLower (bi_Zone b) = "cn") && negb (bool_decide (bd_CNURLTemplate meta = ""))
                 then bd_CNURLTemplate meta else bd_URLTemplate meta in
  default "" (RenderTemplate urlTmpl (templateData b)).

Definition FileName (b : Binary) : string := default "" (RenderTemplate (bd_FileNameTemplate (bi_meta b)) (templateData b)).

(** The directory of the kind of a component; [None] for a kind without one. *)
Definition typeSpecificBaseDir (b : Binary) : option string :=
  let dir := bi_workDir b in
  match bd_BinaryType (bi_meta b) with
  | ETCD => Some (filepath_Join [dir; "etcd"])
  | KUBE | K3S | K8E => Some (filepath_Join [dir; "kubernetes"])
  | CNI | CALICOCTL => Some (filepath_Join [dir; "kubernetes"; "cni"])
  | CONTAINERD | DOCKER | RUNC | CRIDOCKERD | CRICTL => Some (filepath_Join [dir; "container_runtime"])
  | HELM | BUILD | REGISTRY => Some (filepath_Join [dir; BinaryType_string (bd_BinaryType (bi_meta b))])
  | TOOLS => Some (filepath_Join [dir; "tools"])
  | _ => None
  end.

Definition componentDir (b : Binary) : string :=
  if bool_decide (bi_workDir b = "") || bool_decide (bi_clusterName b = "") then "" else
  match typeSpecificBaseDir b with
  | None => filepath_Join [bi_workDir b; "unknown"]
  | Some base =>
      let compDirName := if decide (bd_ComponentNameForDir (bi_meta b) = "") then bi_ComponentName b
                         else bd_ComponentNameForDir (bi_meta b) in
      match bd_BinaryType (bi_meta b) with
      | ETCD | KUBE | K3S | K8E => filepath_Join [base; bi_Version b; bi_Arch b]
      | _ => filepath_Join [base; compDirName; bi_Version b; bi_Arch b]
      end
  end.

Definition FilePath (b : Binary) : string := filepath_Join [componentDir b; FileName b].
