(* ===== verification/AssetManager.v ===== *)
(** The asset manager ([asset/{cache,manager,types}.go]): the cache of downloaded assets
    with its manifest on disk, the manifest of what a cluster needs, and the download
    of a binary with the verification of its checksum. *)
From S2P Require Import Prelude.
From S2P Require Import GoText.
From S2P Require Import GoPath.
From S2P Require Import Sha256.
From S2P Require Import Bom.
From S2P Require Import AssetProviders.
Local Open Scope Z_scope.

(** ** The machine it runs on *)

Record CacheEntry : Type := MkCacheEntry {
  ce_Path : string;
  ce_SizeBytes : Z;
  ce_SHA256 : string;
  ce_CachedAt : Z;
  ce_ClusterName : string;
}.

(** [cacheManifest]; a map that is null in JSON is nil. *)
Record cacheManifest : Type := MkManifest {
  cm_Version : Z;
  cm_UpdatedAt : Z;
  cm_Entries : gomap CacheEntry;
}.

(** What a [GET] gives: no response, or a status and the bytes that arrive, with
    whether they arrive completely. *)
Inductive response : Type :=
| NoResponse (err : string)
| Response (status : Z) (body : string) (complete : bool).

(** The disk and the network: which operations fail, what a failing write leaves in
    the file, what a server answers; the encoding of the manifest; the clock. *)
Class Machine := {
  mkdir_fails : string → bool;
  create_fails : string → bool;
  write_fails : string → string → option string;
  rename_fails : string → string → bool;
  remove_fails : string → bool;
  open_fails : string → bool;
  http_Get : string → response;
  json_Marshal : cacheManifest → string;
  json_Unmarshal : string → option cacheManifest;
  time_Now : Z;
}.

Record AssetCache : Type := MkAssetCache {
  ca_baseDir : string;
  ca_assets : gomap CacheEntry;
}.

(** The files by their paths, and the cache of the manager when it has one. *)
Record world : Type := MkWorld {
  files : gmap string string;
  cache : option AssetCache;
}.

Definition set_files (f : gmap string string) (w : world) : world := MkWorld f (cache w).
Definition set_cache (c : AssetCache) (w : world) : world := MkWorld (files w) (Some c).

Section manager.
Context `{Machine}.

(** ** The cache *)

Definition cacheKey (category name version arch : string) : string :=
  if decide (arch ≠ "") then filepath_Join [category; name; version; arch] else filepath_Join [category; name; version].

Definition manifestPath (c : AssetCache) : string := filepath_Join [ca_baseDir c; "manifest.json"].

(** An entry whose file is gone is not found. *)
Definition Check_ (f : gmap string string) (c : AssetCache) (category name version arch : string) : option CacheEntry :=
  entry ← entries (ca_assets c) !! cacheKey category name version arch ;
  if decide (is_Some (f !! ce_Path entry)) then Some entry else None.

(** A write to a temporary file and a rename. *)
Definition saveManifest (c : AssetCache) (f : gmap string string) : outcome string unit * gmap string string :=
  if mkdir_fails (ca_baseDir c) then (Err "failed to create cache directory", f) else
  let data := json_Marshal (MkManifest 1 time_Now (ca_assets c)) in
  let tmpPath := manifestPath c +:+ ".tmp" in
  if create_fails tmpPath then (Err "failed to write cache manifest", f) else
  match write_fails tmpPath data with
  | Some part => (Err "failed to write cache manifest", <[tmpPath := part]> f)
  | None =>
      let f := <[tmpPath := data]> f in
      if rename_fails tmpPath (manifestPath c) then (Err "failed to rename cache manifest", f)
      else (Ok tt, <[manifestPath c := data]> (delete tmpPath f))
  end.

(** [Put] on a nil map panics. *)
Definition Put (c : AssetCache) (category name version arch : string) (entry : CacheEntry) (f : gmap string string)
    : outcome string unit * AssetCache * gmap string string :=
  match ca_assets c with
  | None => (Panic, c, f)
  | Some m =>
      let c := MkAssetCache (ca_baseDir c) (Some (<[cacheKey category name version arch := entry]> m)) in
      let '(r, f) := saveManifest c f in (r, c, f)
  end.

Definition PutForCluster (c : AssetCache) (category name version arch path clusterName : string) (sizeBytes : Z)
    (sha256 : string) (f : gmap string string) : outcome string unit * AssetCache * gmap string string :=
  Put c category name version arch (MkCacheEntry path sizeBytes sha256 time_Now clusterName) f.

Definition Remove (c : AssetCache) (category name version arch : string) (f : gmap string string)
    : outcome string unit * AssetCache * gmap string string :=
  let c := MkAssetCache (ca_baseDir c) (match ca_assets c with Some m => Some (delete (cacheKey category name version arch) m) | None => None end) in
  let '(r, f) := saveManifest c f in (r, c, f).

(** [NewAssetCache]: a manifest that is not there gives an empty cache. *)
Definition NewAssetCache (baseDir : string) (f : gmap string string) : outcome string AssetCache :=
  if decide (baseDir = "") then Err "asset cache base directory cannot be empty" else
  let empty := MkAssetCache baseDir (Some ∅) in
  match f !! manifestPath empty with
  | None => Ok empty
  | Some data =>
      if open_fails (manifestPath empty) then Err "failed to load asset cache manifest" else
      match json_Unmarshal data with
      | None => Err "failed to load asset cache manifest: failed to unmarshal cache manifest"
      | Some m => Ok (MkAssetCache baseDir (cm_Entries m))
      end
  end.

Definition List_ `{GoRange} (c : AssetCache) (category : string) : list CacheEntry :=
  snd <$> filter (λ ke, category = "" ∨ HasPrefix ke.1 (category +:+ "/") = true ∧ (String.length category < String.length ke.1)%nat)
    (range 69 (entries (ca_assets c))).

(** ** Assets *)

Record BinaryAsset : Type := MkBinaryAsset {
  ba_Name : string;
  ba_Version : string;
  ba_Arch : string;
  ba_URL : string;
  ba_SHA256 : string;
  ba_LocalPath : string;
  ba_SizeBytes : Z;
  ba_IsArchive : bool;
  ba_IsCached : bool;
  ba_Description : string;
  ba_FileName : string;
}.

Record DownloadResult : Type := MkDownloadResult { dr_Success : bool; dr_Message : string }.

Definition binaryToAsset (w : world) (b : Binary) : BinaryAsset :=
  let description := "Binary: " +:+ bi_ComponentName b +:+ " " +:+ bi_Version b +:+ " (" +:+ bi_Arch b +:+ ")" in
  let plain := MkBinaryAsset (bi_ComponentName b) (bi_Version b) (bi_Arch b) (URL b) (Checksum b) (FilePath b) 0
                 (IsArchive b) false description (FileName b) in
  match c ← cache w ; Check_ (files w) c "binary" (bi_ComponentName b) (bi_Version b) (bi_Arch b) with
  | None => plain
  | Some entry =>
      MkBinaryAsset (bi_ComponentName b) (bi_Version b) (bi_Arch b) (URL b)
        (if decide (ce_SHA256 entry = "") then Checksum b else ce_SHA256 entry) (ce_Path entry) (ce_SizeBytes entry)
        (IsArchive b) true description (FileName b)
  end.

(** The architectures of the hosts, in the order of a map. *)
Definition getRequiredArchs `{GoRange} (hosts : list string) : list string :=
  match hosts with
  | [] => ["amd64"]
  | _ => (range 70 (gset_to_gmap tt (list_to_set hosts) : gmap string unit)).*1
  end.

Fixpoint manifest_binaries `{Semver, GoRange} (ctx : AssetContext) (w : world) (archs : list string)
    : outcome string (list BinaryAsset) :=
  match archs with
  | [] => Ok []
  | arch :: archs =>
      binaries ← map_err (λ e, "failed to get binaries for arch " +:+ arch +:+ ": " +:+ e) (GetBinaries ctx arch) ;
      rest ← manifest_binaries ctx w archs ;
      Ok ((binaryToAsset w <$> binaries) ++ rest)
  end.

(** The manifest: the binaries of every architecture, the images and the charts. *)
Definition GetManifest `{Semver, GoRange} (ctx : AssetContext) (hosts : list string) (w : world)
    : outcome string (list BinaryAsset * list Image * list HelmChart) :=
  match actx_ClusterConfig ctx with
  | None => Err "cluster config is not available in context"
  | Some _ =>
      binaries ← manifest_binaries ctx w (getRequiredArchs hosts) ;
      images ← GetImages ctx ;
      charts ← GetCharts ctx ;
      Ok (binaries, images, charts)
  end.

(** ** Downloads *)

(** [computeChecksum]: [None] when the file cannot be opened. *)
Definition computeChecksum (f : gmap string string) (path : string) : option string :=
  if open_fails path then None else Sum256 <$> f !! path.

Definition verifyChecksum (f : gmap string string) (path expected : string) : option bool :=
  if decide (expected = "") then Some true else
  actual ← computeChecksum f path ; Some (bool_decide (actual = expected)).

Definition succeed (message : string) (w : world) : outcome string DownloadResult * world := (Ok (MkDownloadResult true message), w).
Definition fail_with (message : string) (w : world) : outcome string DownloadResult * world := (Ok (MkDownloadResult false message), w).

(** The answer from the cache, when it can be used. *)
Definition use_cached (asset : BinaryAsset) (w : world) : option string :=
  c ← cache w ;
  entry ← Check_ (files w) c "binary" (ba_Name asset) (ba_Version asset) (ba_Arch asset) ;
  if decide (ba_SHA256 asset = "") then Some "cached (no checksum to verify)"
  else if decide (verifyChecksum (files w) (ce_Path entry) (ba_SHA256 asset) = Some true) then Some "cached and verified"
  else None.

(** The download is recorded in the cache; errors of the cache are ignored. *)
Definition update_cache (asset : BinaryAsset) (clusterName : string) (written : Z) (w : world)
    : outcome string unit * world :=
  match cache w with
  | None => (Ok tt, w)
  | Some c =>
      let checksum := if decide (ba_SHA256 asset = "") then default "" (computeChecksum (files w) (ba_LocalPath asset))
                      else ba_SHA256 asset in
      let '(r, c, f) := PutForCluster c "binary" (ba_Name asset) (ba_Version asset) (ba_Arch asset)
                          (ba_LocalPath asset) clusterName written checksum (files w) in
      (match r with Panic => Panic | _ => Ok tt end, MkWorld f (Some c))
  end.

(** [os.Remove(path)], its error not looked at. *)
Definition remove_ignored (path : string) (f : gmap string string) : gmap string string :=
  if remove_fails path then f else delete path f.

(** The body arrives in a temporary file, which is renamed and then verified: a file
    that does not match is removed, unless the removal fails. *)
Definition store_body (asset : BinaryAsset) (clusterName body : string) (complete : bool) (w : world)
    : outcome string DownloadResult * world :=
  let path := ba_LocalPath asset in
  let tmpPath := path +:+ ".tmp" in
  if create_fails tmpPath then fail_with "failed to create temp file" w else
  if negb complete || bool_decide (is_Some (write_fails tmpPath body))
  then fail_with "failed to write file"
         (set_files (remove_ignored tmpPath (<[tmpPath := default body (write_fails tmpPath body)]> (files w))) w) else
  let w := set_files (<[tmpPath := body]> (files w)) w in
  if rename_fails tmpPath path then fail_with "failed to rename temp file" w else
  let w := set_files (<[path := body]> (delete tmpPath (files w))) w in
  let verified := if decide (ba_SHA256 asset = "") then Some true else verifyChecksum (files w) path (ba_SHA256 asset) in
  match verified with
  | None => fail_with "checksum error" (set_files (remove_ignored path (files w)) w)
  | Some false => fail_with "checksum mismatch" (set_files (remove_ignored path (files w)) w)
  | Some true =>
      let '(r, w) := update_cache asset clusterName (Z.of_nat (String.length body)) w in
      (match r with Panic => Panic | _ => Ok (MkDownloadResult true "downloaded successfully") end, w)
  end.

Definition downloadBinary (clusterName : string) (asset : BinaryAsset) (w : world) : outcome string DownloadResult * world :=
  match use_cached asset w with
  | Some message => succeed message w
  | None =>
      if mkdir_fails (filepath_Dir (ba_LocalPath asset)) then fail_with "failed to create directory" w else
      match http_Get (ba_URL asset) with
      | NoResponse err => fail_with ("HTTP GET failed: " +:+ err) w
      | Response status body complete =>
          if decide (status ≠ 200) then fail_with ("HTTP " +:+ decimal status +:+ ": " +:+ ba_URL asset) w
          else store_body asset clusterName body complete w
      end
  end.
End manager.
