(* ===== verification/AssetSpec.v ===== *)
(** What the bills of materials give: the newest entry that fits, a component for every
    reference; what is verified of a download, and what never is. *)
From S2P Require Import Prelude.
From S2P Require Import GoText.
From S2P Require Import GoPath.
From S2P Require Import Sha256.
From S2P Require Import Bom.
From S2P Require Import AssetProviders.
From S2P Require Import AssetManager.

(** ** The newest entry *)

Section best.
Context `{SemverLaws}.

(** No entry has a greater version than [e]; an entry without a version is only kept
    when none has one. *)
Definition newest {A} (version : A → string) (e : A) (l : list A) : Prop :=
  ∀ e' v', e' ∈ l → NewVersion (version e') = Some v' →
    ∃ v, NewVersion (version e) = Some v ∧ GreaterThan v' v = false.

Lemma best_loop_spec {A} (version : A → string) best l seen :
  newest version best seen → best ∈ seen →
  let e := best_loop version (NewVersion (version best)) best l in
  e ∈ seen ++ l ∧ newest version e (seen ++ l).
Proof.
  revert best seen. induction l as [|x l IH]; intros best seen Hbest Hin; cbn [best_loop].
  { rewrite app_nil_r. done. }
  assert (seen ++ x :: l = (seen ++ [x]) ++ l) as -> by (by rewrite <-app_assoc).
  assert (best ∈ seen ++ [x] ∧ x ∈ seen ++ [x]) as [Hin1 Hin2] by set_solver.
  destruct (NewVersion (version x)) as [vx|] eqn:Hx.
  - destruct (NewVersion (version best)) as [vb|] eqn:Hb.
    + destruct (GreaterThan vx vb) eqn:Hgt.
      * rewrite <-Hx. apply IH; [|done]. intros e' v' [He'|He'%list_elem_of_singleton]%elem_of_app Hv'.
        -- destruct (Hbest e' v' He' Hv') as (v & Hv & Hle). rewrite Hb in Hv. injection Hv as <-.
           exists vx. split; [done|]. destruct (GreaterThan v' vx) eqn:Hg; [|done].
           by rewrite (GreaterThan_trans v' vx vb Hg Hgt) in Hle.
        -- subst. rewrite Hx in Hv'. injection Hv' as <-. exists vx. split; [done|]. apply GreaterThan_irrefl.
      * rewrite <-Hb. apply IH; [|done]. intros e' v' [He'|He'%list_elem_of_singleton]%elem_of_app Hv'; [exact (Hbest e' v' He' Hv')|].
        subst. rewrite Hx in Hv'. injection Hv' as <-. by exists vb.
    + rewrite <-Hx. apply IH; [|done]. intros e' v' [He'|He'%list_elem_of_singleton]%elem_of_app Hv'.
      * destruct (Hbest e' v' He' Hv') as (v & Hv & _). by rewrite Hb in Hv.
      * subst. rewrite Hx in Hv'. injection Hv' as <-. exists vx. split; [done|]. apply GreaterThan_irrefl.
  - apply IH; [|done]. intros e' v' [He'|He'%list_elem_of_singleton]%elem_of_app Hv'; [exact (Hbest e' v' He' Hv')|].
    subst. by rewrite Hx in Hv'.
Qed.

Lemma best_of_spec {A} (version : A → string) l :
  match best_of version l with
  | None => l = []
  | Some e => e ∈ l ∧ newest version e l
  end.
Proof.
  destruct l as [|x l]; [done|]. cbn [best_of]. apply (best_loop_spec version x l [x]); [|set_solver].
  intros e' v' ->%list_elem_of_singleton Hv'. exists v'. split; [done|]. apply GreaterThan_irrefl.
Qed.

Lemma elem_of_candidates {A} (constraint : A → string) v l e :
  e ∈ candidates constraint v l ↔ e ∈ l ∧ ∃ holds, NewConstraint (constraint e) = Some holds ∧ holds v = true.
Proof.
  unfold candidates. rewrite list_elem_of_filter. destruct (NewConstraint (constraint e)); naive_solver.
Qed.

Definition admits (v : Version) (e : ImageBOM) : Prop :=
  ∃ holds, NewConstraint (ReplaceAll (ib_KubeVersionConstraints e) ".x" ".*") = Some holds ∧ holds v = true.

Lemma v_prefixed version : version ≠ "" →
  let version' := if HasPrefix version "v" then version else "v" +:+ version in
  HasPrefix version' "v" = true ∧ version' ≠ "".
Proof.
  intros Hne version'. assert (HasPrefix version' "v" = true) as Hv; [|split; [done|by intros Hz; rewrite Hz in Hv]].
  unfold version'. destruct (HasPrefix version "v") eqn:Hp; [done|]. by destruct version.
Qed.

(** C26: the image of a listed component for a Kubernetes version is an entry of its
    list whose constraint admits the version, and no such entry has a newer tag; there
    is none exactly when the version does not parse or no constraint admits it. *)
Theorem getImageBOM_newest name version bomList :
  componentImageBOMs !! name = Some bomList → name ≠ "" → version ≠ "" →
  let version := if HasPrefix version "v" then version else "v" +:+ version in
  match getImageBOM name version with
  | Some bom => ∃ v, NewVersion version = Some v ∧ bom ∈ bomList ∧ admits v bom
      ∧ ∀ e t, e ∈ bomList → admits v e → NewVersion (ib_Tag e) = Some t →
          ∃ t', NewVersion (ib_Tag bom) = Some t' ∧ GreaterThan t t' = false
  | None => ∀ v, NewVersion version = Some v → ∀ e, e ∈ bomList → ¬ admits v e
  end.
Proof.
  intros Hlist Hname Hversion version'. destruct (v_prefixed version Hversion) as [Hv Hne]. fold version' in Hv, Hne.
  unfold getImageBOM. rewrite (bool_decide_false (name = "")), (bool_decide_false (version' = "")) by assumption.
  cbn [orb]. rewrite Hv. destruct (NewVersion version') as [v|]; [|intros v; discriminate]. rewrite Hlist. clear Hlist.
  pose proof (best_of_spec ib_Tag (candidates (λ e, ReplaceAll (ib_KubeVersionConstraints e) ".x" ".*") v bomList)) as Hbest.
  destruct (best_of _ _) as [bom|].
  - destruct Hbest as [Hin Hnew]. apply elem_of_candidates in Hin as [Hin Hadm]. exists v.
    split; [done|]. split; [done|]. split; [done|]. intros e t He Hade Ht. apply (Hnew e t); [|done].
    by apply elem_of_candidates.
  - intros v' [= <-] e He Hadm. assert (e ∈ candidates (λ e, ReplaceAll (ib_KubeVersionConstraints e) ".x" ".*") v bomList) as Hin
      by (by apply elem_of_candidates). rewrite Hbest in Hin. set_solver.
Qed.
End best.

(** ** References of images *)

Lemma head_filter {A} (P : A → Prop) `{∀ x, Decision (P x)} l :
  match head (filter P l) with
  | Some x => x ∈ l ∧ P x
  | None => ∀ x, x ∈ l → ¬ P x
  end.
Proof.
  assert (∀ x, x ∈ filter P l ↔ P x ∧ x ∈ l) as Hin by (intros; apply list_elem_of_filter).
  destruct (filter P l) as [|x k]; simpl.
  - intros x Hx HP. by apply (not_elem_of_nil x), Hin.
  - destruct (proj1 (Hin x)) as [? ?]; [apply list_elem_of_here|done].
Qed.

Definition has_ref (ref : string) (nb : string * list ImageBOM) : Prop := ref ∈ bom_ref <$> nb.2.

Global Instance has_ref_dec ref nb : Decision (has_ref ref nb).
Proof. unfold has_ref. apply _. Defined.

Lemma index_component_lookup name boms idx ref :
  foldl (index_entry name) idx boms !! ref =
    match idx !! ref with Some n => Some n | None => if decide (ref ∈ bom_ref <$> boms) then Some name else None end.
Proof.
  revert idx. induction boms as [|b boms IH]; intros idx; cbn [foldl].
  { destruct (idx !! ref); [done|]. rewrite decide_False; [done|]. set_solver. }
  rewrite IH. unfold index_entry. rewrite fmap_cons. destruct (decide (is_Some (idx !! bom_ref b))) as [[n Hn]|Hnone].
  - destruct (idx !! ref) eqn:Hr; [done|]. apply decide_ext. rewrite elem_of_cons.
    split; [auto|]. intros [->|?]; [congruence|done].
  - destruct (decide (ref = bom_ref b)) as [->|Hne].
    + rewrite lookup_insert_eq. destruct (idx !! bom_ref b) eqn:Hr; [by destruct Hnone|].
      rewrite decide_True; [done|]. set_solver.
    + rewrite lookup_insert_ne by done. destruct (idx !! ref); [done|]. apply decide_ext. rewrite elem_of_cons. naive_solver.
Qed.

Lemma index_lookup l idx ref :
  foldl (λ index '(name, boms), foldl (index_entry name) index boms) idx l !! ref =
    match idx !! ref with Some n => Some n | None => fst <$> head (filter (has_ref ref) l) end.
Proof.
  revert idx. induction l as [|[name boms] l IH]; intros idx; cbn [foldl]; [by destruct (idx !! ref)|].
  rewrite IH, index_component_lookup. destruct (idx !! ref); [done|]. rewrite filter_cons.
  destruct (decide (ref ∈ bom_ref <$> boms)), (decide (has_ref ref (name, boms))); done.
Qed.

(** The reference two components share. *)
Definition shared_ref : string := "quay.io/calico/envoy".

Definition table_refs : list (string * string) :=
  map_to_list componentImageBOMs ≫= λ nb, (λ b, (nb.1, bom_ref b)) <$> nb.2.

Definition refs_unique : bool :=
  forallb (λ x, forallb (λ y, negb (bool_decide (x.2 = y.2)) || bool_decide (x.2 = shared_ref) || bool_decide (x.1 = y.1))
    table_refs) table_refs
  && forallb (λ x, forallb (λ name, negb (bool_decide (x.2 = filepath_Join ["registry.k8s.io"; name]))) k8s_images) table_refs.

Lemma refs_unique_true : refs_unique = true.
Proof. vm_compute. reflexivity. Qed.

Lemma elem_of_table_refs name boms bom : componentImageBOMs !! name = Some boms → bom ∈ boms →
  (name, bom_ref bom) ∈ table_refs.
Proof.
  intros Hn Hb. unfold table_refs. apply list_elem_of_bind. exists (name, boms). split.
  - by apply list_elem_of_fmap_2 with (f := λ b, (name, bom_ref b)).
  - by apply elem_of_map_to_list.
Qed.

Lemma table_ref_unique name boms bom name' boms' bom' :
  componentImageBOMs !! name = Some boms → bom ∈ boms → componentImageBOMs !! name' = Some boms' → bom' ∈ boms' →
  bom_ref bom = bom_ref bom' → bom_ref bom ≠ shared_ref → name = name'.
Proof.
  intros H1 Hb1 H2 Hb2 Heq Hne. pose proof refs_unique_true as Hu. unfold refs_unique in Hu.
  apply andb_prop in Hu as [Hu _]. rewrite forallb_forall in Hu.
  specialize (Hu _ (proj1 (list_elem_of_In _ _) (elem_of_table_refs _ _ _ H1 Hb1))). rewrite forallb_forall in Hu.
  specialize (Hu _ (proj1 (list_elem_of_In _ _) (elem_of_table_refs _ _ _ H2 Hb2))). cbn [fst snd] in Hu.
  rewrite (bool_decide_true (bom_ref bom = _)) in Hu by done. rewrite (bool_decide_false (bom_ref bom = shared_ref)) in Hu by done.
  by apply bool_decide_eq_true in Hu.
Qed.

Lemma table_ref_not_core name boms bom core : componentImageBOMs !! name = Some boms → bom ∈ boms → core ∈ k8s_images →
  bom_ref bom ≠ filepath_Join ["registry.k8s.io"; core].
Proof.
  intros H1 Hb1 Hc. pose proof refs_unique_true as Hu. unfold refs_unique in Hu. apply andb_prop in Hu as [_ Hu].
  rewrite forallb_forall in Hu. specialize (Hu _ (proj1 (list_elem_of_In _ _) (elem_of_table_refs _ _ _ H1 Hb1))).
  rewrite forallb_forall in Hu. specialize (Hu core (proj1 (list_elem_of_In _ _) Hc)). cbn [snd] in Hu.
  intros Heq. by rewrite bool_decide_true in Hu.
Qed.

Lemma core_lookup (idx : gmap string string) ref cores : (∀ core, core ∈ cores → ref ≠ filepath_Join ["registry.k8s.io"; core]) →
  foldl (λ index name, <[filepath_Join ["registry.k8s.io"; name] := name]> index) idx cores !! ref = idx !! ref.
Proof.
  revert idx. induction cores as [|core cores IH]; intros idx Hne; [done|]. cbn [foldl].
  rewrite IH.
  - apply lookup_insert_ne. intros Heq. apply (Hne core); [apply list_elem_of_here|congruence].
  - intros c Hc. by apply Hne, list_elem_of_further.
Qed.

(** The component of an image is found by its reference, whatever the order in which
    Go visits the table, unless two components have the reference. *)
Theorem GetComponentNameByRef_finds `{GoRange} name boms bom :
  componentImageBOMs !! name = Some boms → bom ∈ boms → bom_ref bom ≠ shared_ref →
  GetComponentNameByRef (bom_ref bom) = name.
Proof.
  intros Hn Hb Hne. unfold GetComponentNameByRef, refToComponentIndex.
  rewrite core_lookup by (intros core; by eapply table_ref_not_core). rewrite index_lookup, lookup_empty.
  pose proof (head_filter (has_ref (bom_ref bom)) (range 65 componentImageBOMs)) as Hhead.
  destruct (head _) as [[name' boms']|].
  - destruct Hhead as [Hin Href]. apply elem_of_range in Hin. apply list_elem_of_fmap in Href as (bom' & Href & Hb').
    symmetry. exact (table_ref_unique name boms bom name' boms' bom' Hn Hb Hin Hb' Href Hne).
  - exfalso. apply (Hhead (name, boms)); [by apply elem_of_range|]. by apply list_elem_of_fmap_2.
Qed.

(** Two components of Calico are the same image: which of them the index names depends
    on the order in which Go visits the table. *)
Lemma GetComponentNameByRef_order :
  @GetComponentNameByRef range_forward shared_ref ≠ @GetComponentNameByRef range_backward shared_ref.
Proof. vm_compute. discriminate. Qed.
