(* ===== verification/AssetDownload.v ===== *)
(** Downloads: a download with a checksum succeeds only when it matches; but no binary of
    the bill of materials has one when it is first downloaded.

    A concrete order of versions and a concrete machine at which the theorems on the
    bills of materials and on downloads apply. *)
From S2P Require Import Prelude.
From S2P Require Import GoPath.
From S2P Require Import GoText.
From S2P Require Import Sha256.
From S2P Require Import Bom.
From S2P Require Import AssetProviders.
From S2P Require Import AssetManager.
From S2P Require Import AssetSpec.
From Stdlib Require Import Ascii.

Section download.
Context `{Machine}.

Lemma append_ne (s t : string) : t ≠ "" → s +:+ t ≠ s.
Proof.
  intros Ht Heq. apply (f_equal String.length) in Heq. rewrite str_length_app in Heq.
  destruct t; [done|simpl in Heq; lia].
Qed.

(** A path that the manifest of a cache does not use. *)
Definition apart (c : AssetCache) (path : string) : Prop :=
  path ≠ manifestPath c ∧ path ≠ manifestPath c +:+ ".tmp".

Lemma saveManifest_other c f path : apart c path → (saveManifest c f).2 !! path = f !! path.
Proof.
  intros [H1 H2]. unfold saveManifest. destruct (mkdir_fails _); [done|]. destruct (create_fails _); [done|].
  destruct (write_fails _ _); simpl; [by rewrite lookup_insert_ne|]. destruct (rename_fails _ _); simpl.
  - by rewrite lookup_insert_ne.
  - by rewrite lookup_insert_ne, lookup_delete_ne, lookup_insert_ne.
Qed.

Lemma saveManifest_returns c f : (saveManifest c f).1 ≠ Panic.
Proof.
  unfold saveManifest. destruct (mkdir_fails _); [done|]. destruct (create_fails _); [done|].
  destruct (write_fails _ _); [done|]. by destruct (rename_fails _ _).
Qed.

Lemma update_cache_other asset cluster n w path :
  (∀ c, cache w = Some c → apart c path) → files (update_cache asset cluster n w).2 !! path = files w !! path.
Proof.
  intros Hc. unfold update_cache. destruct (cache w) as [c|]; [|done]. specialize (Hc c eq_refl).
  unfold PutForCluster, Put. destruct (ca_assets c) as [m|]; [|done].
  match goal with |- context [saveManifest ?c' ?f] => pose proof (saveManifest_other c' f path Hc) as Hs;
    destruct (saveManifest c' f) as [r f'] end.
  simpl in *. by rewrite Hs.
Qed.

Lemma update_cache_returns asset cluster n w :
  (∀ c, cache w = Some c → ca_assets c ≠ None) → (update_cache asset cluster n w).1 = Ok tt.
Proof.
  intros Hc. unfold update_cache. destruct (cache w) as [c|]; [|done]. specialize (Hc c eq_refl).
  unfold PutForCluster, Put. destruct (ca_assets c) as [m|]; [|done].
  match goal with |- context [saveManifest ?c' ?f] => pose proof (saveManifest_returns c' f);
    destruct (saveManifest c' f) as [[] f'] end; done.
Qed.

Lemma verifyChecksum_true f path h : h ≠ "" → verifyChecksum f path h = Some true →
  ∃ body, f !! path = Some body ∧ Sum256 body = h.
Proof.
  intros Hh. unfold verifyChecksum, computeChecksum. rewrite decide_False by done.
  destruct (open_fails path); [done|]. destruct (f !! path) as [body|]; [|done]. simpl.
  intros [= Hb%bool_decide_eq_true]. by exists body.
Qed.

Lemma verifyChecksum_false f path h : h ≠ "" → verifyChecksum f path h = Some false →
  match f !! path with Some body => Sum256 body ≠ h | None => False end.
Proof.
  intros Hh. unfold verifyChecksum, computeChecksum. rewrite decide_False by done.
  destruct (open_fails path); [done|]. destruct (f !! path) as [body|]; [|done]. simpl.
  by intros [= Hb%bool_decide_eq_false].
Qed.

Lemma verifyChecksum_none f path h : h ≠ "" → verifyChecksum f path h = None → open_fails path = true ∨ f !! path = None.
Proof.
  intros Hh. unfold verifyChecksum, computeChecksum. rewrite decide_False by done.
  destruct (open_fails path); [by left|]. by destruct (f !! path) as [body|]; [|right].
Qed.

(** What a failed download leaves at its place: what was there, nothing, or, when the
    file can neither be verified nor removed, all of what the server sent. *)
Definition left_over (asset : BinaryAsset) (body : string) (complete : bool) (w w' : world) : Prop :=
  let path := ba_LocalPath asset in
  files w' !! path = files w !! path ∨ files w' !! path = None ∨
  remove_fails path = true ∧ complete = true ∧ files w' !! path = Some body ∧ (open_fails path = true ∨ Sum256 body ≠ ba_SHA256 asset).

(** What a download leaves at the place of the binary. *)
Lemma store_body_spec asset cluster body complete w res w' :
  ba_SHA256 asset ≠ "" → (∀ c, cache w = Some c → apart c (ba_LocalPath asset)) →
  store_body asset cluster body complete w = (Ok res, w') →
  if dr_Success res then files w' !! ba_LocalPath asset = Some body ∧ Sum256 body = ba_SHA256 asset
  else left_over asset body complete w w'.
Proof.
  intros Hh Hc. unfold store_body, left_over. set (path := ba_LocalPath asset) in *.
  assert (path +:+ ".tmp" ≠ path) as Htmp by (by apply append_ne).
  destruct (create_fails _); [intros [= <- <-]; by left|].
  destruct (_ || _) eqn:Hw.
  { intros [= <- <-]. left. simpl. unfold remove_ignored.
    destruct (remove_fails _); [by rewrite lookup_insert_ne|by rewrite lookup_delete_ne, lookup_insert_ne]. }
  assert (complete = true) as -> by (destruct complete; [done|discriminate Hw]).
  destruct (rename_fails _ _); [intros [= <- <-]; left; simpl; by rewrite lookup_insert_ne|].
  rewrite decide_False by done. set (w1 := set_files _ (set_files _ w)).
  destruct (verifyChecksum (files w1) path (ba_SHA256 asset)) as [[]|] eqn:Hv.
  - destruct (verifyChecksum_true _ _ _ Hh Hv) as (b & Hb & Hsum). unfold w1 in Hb. simpl in Hb.
    rewrite lookup_insert_eq in Hb. injection Hb as <-.
    pose proof (update_cache_other asset cluster (Z.of_nat (String.length body)) w1 path Hc) as Hother.
    destruct (update_cache _ _ _ w1) as [[[]| |] w2]; (intros [= <- <-] || discriminate);
      (simpl in *; rewrite Hother; unfold w1; simpl; by rewrite lookup_insert_eq).
  - apply verifyChecksum_false in Hv; [|done..]. intros [= <- <-]. right. unfold w1, remove_ignored. simpl.
    destruct (remove_fails path); [right|left; by rewrite lookup_delete_eq].
    unfold w1 in Hv. simpl in Hv. rewrite lookup_insert_eq in Hv. rewrite lookup_insert_eq. by split_and!; [..|right].
  - apply verifyChecksum_none in Hv; [|done..]. intros [= <- <-]. right. unfold w1, remove_ignored. simpl.
    destruct (remove_fails path); [right|left; by rewrite lookup_delete_eq].
    rewrite lookup_insert_eq. split_and!; [done..|left]. destruct Hv as [?|Hv]; [done|]. unfold w1 in Hv. simpl in Hv.
    by rewrite lookup_insert_eq in Hv.
Qed.

(** C14: when a binary has a checksum, and its place is not that of the manifest of the
    cache or of its temporary file: a successful download, or the use of a cached file, leaves a file with that
    SHA-256 sum where the asset says or the cache has it.  A failed one leaves at its
    place what was there, or nothing, except when removing the file fails, an error
    that is ignored: then what the server sent stays although its sum is another or
    could not be computed.  It never leaves a part of what was sent there. *)
Theorem download_verified cluster asset w res w' :
  ba_SHA256 asset ≠ "" → (∀ c, cache w = Some c → apart c (ba_LocalPath asset)) →
  downloadBinary cluster asset w = (Ok res, w') →
  if dr_Success res then
    ∃ path body, files w' !! path = Some body ∧ Sum256 body = ba_SHA256 asset
      ∧ (path = ba_LocalPath asset
         ∨ w' = w ∧ ∃ c entry, cache w = Some c ∧ path = ce_Path entry
             ∧ Check_ (files w) c "binary" (ba_Name asset) (ba_Version asset) (ba_Arch asset) = Some entry)
  else files w' !! ba_LocalPath asset = files w !! ba_LocalPath asset ∨ files w' !! ba_LocalPath asset = None
    ∨ remove_fails (ba_LocalPath asset) = true ∧ ∃ body, http_Get (ba_URL asset) = Response 200 body true
        ∧ files w' !! ba_LocalPath asset = Some body
        ∧ (open_fails (ba_LocalPath asset) = true ∨ Sum256 body ≠ ba_SHA256 asset).
Proof.
  intros Hh Hc. unfold downloadBinary. destruct (use_cached asset w) as [message|] eqn:Hu.
  - intros [= <- <-]. simpl. unfold use_cached in Hu. destruct (cache w) as [c|] eqn:Hcache; [|done]. simpl in Hu.
    destruct (Check_ _ _ _ _ _ _) as [entry|] eqn:He; [|done]. simpl in Hu. rewrite decide_False in Hu by done.
    case_decide as Hv; [|done]. apply verifyChecksum_true in Hv as (body & Hb & Hsum); [|done].
    exists (ce_Path entry), body. split; [done|]. split; [done|]. right. split; [done|]. by exists c, entry.
  - destruct (mkdir_fails _); [intros [= <- <-]; by left|].
    destruct (http_Get _) as [err|status body complete] eqn:Hget; [intros [= <- <-]; by left|].
    case_decide as Hst; [intros [= <- <-]; by left|]. intros Hs. pose proof (store_body_spec _ _ _ _ _ _ _ Hh Hc Hs) as Hspec.
    destruct (dr_Success res) eqn:Hok; [destruct Hspec; exists (ba_LocalPath asset), body; auto|].
    destruct Hspec as [?|[?|(Hrm & -> & Hbody & Hbad)]]; [by left|by right; left|right; right]. split; [done|]. exists body.
    subst status. by split_and!.
Qed.

(** C15: the checksums of the bill of materials are never used: whatever the
    configuration, the component and its entry, a binary that is not in the cache is
    downloaded and reported as a success with any content the server sends. *)
Theorem binaries_never_verified `{Semver} ctx name arch b cluster w body :
  GetBinary ctx name arch = Ok (Some b) →
  (∀ c, cache w = Some c → ca_assets c ≠ None ∧ apart c (FilePath b)
        ∧ Check_ (files w) c "binary" (bi_ComponentName b) (bi_Version b) (bi_Arch b) = None) →
  mkdir_fails (filepath_Dir (FilePath b)) = false → create_fails (FilePath b +:+ ".tmp") = false →
  write_fails (FilePath b +:+ ".tmp") body = None → rename_fails (FilePath b +:+ ".tmp") (FilePath b) = false →
  http_Get (URL b) = Response 200 body true →
  ∃ w', downloadBinary cluster (binaryToAsset w b) w = (Ok (MkDownloadResult true "downloaded successfully"), w')
    ∧ files w' !! FilePath b = Some body.
Proof.
  intros Hb Hc Hm Hcr Hw Hr Hg.
  assert (Checksum b = "") as Hsum.
  { unfold GetBinary in Hb. destruct (actx_ClusterConfig ctx) as [cfg|]; [|done].
    destruct (isBinaryEnabled ctx name) as [[]| |]; simpl in Hb; try done.
    destruct (getUserSpecifiedVersion ctx name) as [u| |]; simpl in Hb; try done.
    destruct (kubernetes_of ctx) as [k| |]; simpl in Hb; try done.
    destruct (final_version _ _ _ _) as [v ck]. case_decide; [done|].
    destruct (defaultKnownBinaryDetails !! name); [|done]. by injection Hb as <-. }
  assert ((c ← cache w ; Check_ (files w) c "binary" (bi_ComponentName b) (bi_Version b) (bi_Arch b)) = None) as Hnone.
  { destruct (cache w) as [c|]; [|done]. by apply (Hc c). }
  set (asset := binaryToAsset w b). assert (ba_LocalPath asset = FilePath b ∧ ba_URL asset = URL b ∧ ba_SHA256 asset = ""
    ∧ use_cached asset w = None) as (Hpath & Hurl & Hsha & Huse).
  { unfold asset, binaryToAsset, use_cached. rewrite Hnone. simpl. destruct (cache w) as [c|]; [|done]. simpl in *. by rewrite Hnone. }
  unfold downloadBinary. rewrite Huse, Hpath, Hm, Hurl, Hg. rewrite decide_False by (intros Hx; by apply Hx).
  unfold store_body. rewrite Hpath, Hcr, Hw, Hr, Hsha. cbn [negb orb]. rewrite bool_decide_false by (by intros []).
  rewrite decide_True by done. set (w1 := set_files _ (set_files _ w)).
  pose proof (update_cache_returns asset cluster (Z.of_nat (String.length body)) w1 (λ c Hcw, proj1 (Hc c Hcw))) as Hret.
  pose proof (update_cache_other asset cluster (Z.of_nat (String.length body)) w1 (FilePath b)
    (λ c Hcw, proj1 (proj2 (Hc c Hcw)))) as Hother.
  destruct (update_cache _ _ _ w1) as [r w2]. simpl in Hret, Hother. subst r. exists w2. split; [done|].
  rewrite Hother. unfold w1. simpl. apply lookup_insert_eq.
Qed.
End download.

(** ** Versions of two or three numbers *)

Definition parse_version (s : string) : option (Z * Z * Z) :=
  match mapM Atoi (Split "."%char (TrimPrefix s "v")) with
  | Some [a; b; c] => Some (a, b, c)
  | Some [a; b] => Some (a, b, 0%Z)
  | _ => None
  end.

Definition greater (u v : Z * Z * Z) : bool :=
  let '(a, b, c) := u in let '(x, y, z) := v in
  (x <? a)%Z || ((x =? a)%Z && ((y <? b)%Z || ((y =? b)%Z && (z <? c)%Z))).

(** [>= v] and [< v]. *)
Definition parse_bound (s : string) : option (Z * Z * Z → bool) :=
  let s := TrimSpace s in
  if HasPrefix s ">= " then (λ b v, negb (greater b v)) <$> parse_version (TrimPrefix s ">= ")
  else if HasPrefix s "< " then (λ b v, greater b v) <$> parse_version (TrimPrefix s "< ")
  else None.

Definition parse_constraint (s : string) : option (Z * Z * Z → bool) :=
  (λ bounds v, forallb (λ b : Z * Z * Z → bool, b v) bounds) <$> mapM parse_bound (Split ","%char s).

#[local] Instance numbers : Semver := {|
  Version := Z * Z * Z;
  NewVersion := parse_version;
  NewConstraint := parse_constraint;
  GreaterThan := greater;
|}.

Lemma greater_true a b c x y z :
  greater (a, b, c) (x, y, z) = true ↔ (x < a ∨ x = a ∧ (y < b ∨ y = b ∧ z < c))%Z.
Proof. unfold greater. rewrite orb_true_iff, andb_true_iff, orb_true_iff, andb_true_iff, !Z.ltb_lt, !Z.eqb_eq. done. Qed.

#[local] Instance numbers_laws : SemverLaws numbers.
Proof.
  split.
  - intros [[a b] c]. apply not_true_iff_false. rewrite (greater_true a b c). lia.
  - intros [[a b] c] [[d e] f] [[x y] z]. cbn [GreaterThan numbers]. rewrite !greater_true. lia.
Defined.

Definition w_pause : list ImageBOM := Eval vm_compute in default [] (componentImageBOMs !! "pause").
Definition w_pause_bom : ImageBOM := MkImageBOM ">= 1.26.0" "registry.k8s.io" "" "pause" "3.9".

Lemma w_pause_listed : componentImageBOMs !! "pause" = Some w_pause.
Proof. vm_compute. reflexivity. Qed.

Lemma w_pause_run : getImageBOM "pause" "v1.29.4" = Some w_pause_bom ∧ getImageBOM "pause" "v1.25.3" = None.
Proof. split; vm_compute; reflexivity. Qed.

(** The constraint of the entry for version 1.25 starts with [==]. *)
Lemma getImageBOM_newest_witness :
  (∃ v, w_pause_bom ∈ w_pause ∧ admits v w_pause_bom)
  ∧ ∀ v, NewVersion "v1.25.3" = Some v → ∀ e, e ∈ w_pause → ¬ admits v e.
Proof.
  split.
  - pose proof (getImageBOM_newest "pause" "v1.29.4" w_pause w_pause_listed ltac:(discriminate) ltac:(discriminate)) as Hnew.
    cbv zeta in Hnew. change (HasPrefix "v1.29.4" "v") with true in Hnew. cbn iota in Hnew. rewrite (proj1 w_pause_run) in Hnew.
    destruct Hnew as (v & _ & Hin & Hadm & _). exists v. split; [exact Hin|exact Hadm].
  - pose proof (getImageBOM_newest "pause" "v1.25.3" w_pause w_pause_listed ltac:(discriminate) ltac:(discriminate)) as Hnew.
    cbv zeta in Hnew. change (HasPrefix "v1.25.3" "v") with true in Hnew. cbn iota in Hnew. rewrite (proj2 w_pause_run) in Hnew. exact Hnew.
Defined.

(** ** A machine on which nothing fails and every address serves the same text *)

Definition served : string := "#!/bin/sh".

#[local] Instance w_machine : Machine := {|
  mkdir_fails _ := false;
  create_fails _ := false;
  write_fails _ _ := None;
  rename_fails _ _ := false;
  remove_fails _ := false;
  open_fails _ := false;
  http_Get _ := Response 200 served true;
  json_Marshal _ := "{}";
  json_Unmarshal _ := None;
  time_Now := 0%Z;
|}.

Definition w_cluster : AssetCluster :=
  MkAssetCluster "lab" (Some (MkAssetSpec
    (Some (MkAssetKubernetes "1.29.0" None None None)) (Some (MkAssetEtcd "kubexm" "")) None None None None None)).

Definition w_ctx : AssetContext := MkAssetContext (Some w_cluster) "/work" "".

Definition w_etcd : option Binary := Eval vm_compute in
  match GetBinary w_ctx ComponentEtcd "amd64" with Ok o => o | _ => None end.

(** The entry of this etcd lists a checksum. *)
Lemma w_etcd_listed : checksum_of "amd64" <$> getBinaryBOMEntry ComponentEtcd "1.29.0"
  = Some "9b3c4853a19e5590916a815a5195b05a76953f938f30997b6a6556e40d0469b8".
Proof. vm_compute. reflexivity. Qed.

Definition w_start : world := MkWorld ∅ (Some (MkAssetCache "/work/cache" (Some ∅))).

Lemma binaries_never_verified_witness :
  ∃ b w', w_etcd = Some b
    ∧ downloadBinary "lab" (binaryToAsset w_start b) w_start = (Ok (MkDownloadResult true "downloaded successfully"), w')
    ∧ files w' !! "/work/etcd/v3.5.10-0/amd64/etcd-v3.5.10-0-linux-amd64.tar.gz" = Some served.
Proof.
  destruct w_etcd as [b|] eqn:Hb; [|discriminate].
  assert (FilePath b = "/work/etcd/v3.5.10-0/amd64/etcd-v3.5.10-0-linux-amd64.tar.gz") as Hpath
    by (injection Hb as <-; vm_compute; reflexivity).
  destruct (binaries_never_verified w_ctx ComponentEtcd "amd64" b "lab" w_start served) as (w' & Hd & Hf).
  - rewrite <-Hb. vm_compute. reflexivity.
  - intros c [= <-]. rewrite Hpath. split; [discriminate|]. split; [split; vm_compute; discriminate|].
    injection Hb as <-. vm_compute. reflexivity.
  - reflexivity.
  - reflexivity.
  - reflexivity.
  - reflexivity.
  - reflexivity.
  - exists b, w'. rewrite <-Hpath. by split.
Defined.

(** The same file with its checksum, and one with another. *)
Definition w_asset (sum : string) : BinaryAsset :=
  MkBinaryAsset "tool" "v1" "amd64" "https://example.org/tool" sum "/work/tool" 0 false false "" "tool".

Definition served_sum : string := Eval vm_compute in Sum256 served.

Definition w_after : world := Eval vm_compute in (downloadBinary "lab" (w_asset served_sum) w_start).2.

Lemma w_after_run : downloadBinary "lab" (w_asset served_sum) w_start = (Ok (MkDownloadResult true "downloaded successfully"), w_after).
Proof. vm_compute. reflexivity. Qed.

Lemma w_mismatch_run : downloadBinary "lab" (w_asset "00") w_start = (Ok (MkDownloadResult false "checksum mismatch"), w_start).
Proof. vm_compute. reflexivity. Qed.

Lemma w_apart sum c : cache w_start = Some c → apart c (ba_LocalPath (w_asset sum)).
Proof. intros [= <-]. split; vm_compute; discriminate. Qed.

Lemma download_verified_witness :
  (∃ path body, files w_after !! path = Some body ∧ Sum256 body = served_sum)
  ∧ (files w_start !! "/work/tool" = files w_start !! "/work/tool" ∨ files w_start !! "/work/tool" = None
     ∨ remove_fails "/work/tool" = true ∧ ∃ body, http_Get "https://example.org/tool" = Response 200 body true
         ∧ files w_start !! "/work/tool" = Some body
         ∧ (open_fails "/work/tool" = true ∨ Sum256 body ≠ "00")).
Proof.
  split.
  - pose proof (download_verified "lab" (w_asset served_sum) w_start _ w_after ltac:(discriminate) (w_apart _) w_after_run) as Hv.
    cbn [dr_Success] in Hv. destruct Hv as (path & body & Hb & Hs & _). exists path, body. split; [exact Hb|exact Hs].
  - pose proof (download_verified "lab" (w_asset "00") w_start _ w_start ltac:(discriminate) (w_apart _) w_mismatch_run) as Hv.
    cbn [dr_Success] in Hv. exact Hv.
Defined.
