(* ===== verification/Slices.v ===== *)
(** Slices and strings, [util/slice.go], [util/strings.go] and [util/helpers.go]: what
    the searches find, what the functions that remove duplicates keep. *)
From S2P Require Import Prelude.
From S2P Require Import GoText.

(** ** The binary search of [sort] *)

(** The loop of [sort.Search] and [sort.Find] between [i] and [j]: [f] says that the
    index looked for is not after this one.  Each turn halves the distance. *)
Fixpoint search_loop (fuel : nat) (f : nat → bool) (i j : nat) : nat :=
  match fuel with
  | O => i
  | S fuel =>
      if j <=? i then i else
      let h := (i + j) / 2 in
      if f h then search_loop fuel f i h else search_loop fuel f (S h) j
  end.

Definition Search_ (n : nat) (f : nat → bool) : nat := search_loop n f 0 n.

(** [sort.Find(n, cmp)]: the index, and whether [cmp] is zero there. *)
Definition Find (n : nat) (cmp : nat → Z) : nat * bool :=
  let i := Search_ n (λ h, (cmp h <=? 0)%Z) in (i, (i <? n) && (cmp i =? 0)%Z).

(** ** Comparisons *)

(** [cmp.Compare] on a type with an order. *)
Class Ordered (E : Type) := Compare : E → E → Z.

Class OrderedLaws (E : Type) `{Ordered E} : Prop := {
  Compare_eq x y : (Compare x y = 0)%Z ↔ x = y;
  Compare_flip x y : (Compare x y < 0)%Z ↔ (0 < Compare y x)%Z;
  Compare_trans x y z : (Compare x y < 0)%Z → (Compare y z < 0)%Z → (Compare x z < 0)%Z;
}.

Global Instance Z_ordered : Ordered Z := λ x y, if (x <? y)%Z then (-1)%Z else if (x =? y)%Z then 0%Z else 1%Z.

Global Instance Z_ordered_laws : OrderedLaws Z.
Proof.
  split; unfold Compare, Z_ordered; intros.
  - destruct (Z.ltb_spec x y), (Z.eqb_spec x y); lia.
  - destruct (Z.ltb_spec x y), (Z.eqb_spec x y), (Z.ltb_spec y x), (Z.eqb_spec y x); lia.
  - destruct (Z.ltb_spec x y), (Z.eqb_spec x y), (Z.ltb_spec y z), (Z.eqb_spec y z), (Z.ltb_spec x z), (Z.eqb_spec x z); lia.
Qed.

(** ** [util/slice.go] *)

Section slices.
Context {E : Type} `{EqDecision E}.

Fixpoint IsInSlice (slice : list E) (x : E) : bool :=
  match slice with [] => false | item :: slice => bool_decide (item = x) || IsInSlice slice x end.

(** [sort.SearchStrings] and the comparison at the index it gives. *)
Definition IsInSortedSlice `{Ordered E} (sortedSlice : list E) (x : E) : bool :=
  let i := Search_ (length sortedSlice) (λ h, match sortedSlice !! h with Some y => (0 <=? Compare y x)%Z | None => true end) in
  bool_decide (sortedSlice !! i = Some x).

Definition BinarySearch `{Ordered E} (sortedSlice : list E) (v : E) : bool :=
  let '(idx, found) := Find (length sortedSlice) (λ i, match sortedSlice !! i with Some y => Compare y v | None => 0%Z end) in
  found && bool_decide (sortedSlice !! idx = Some v).

(** The swaps of [Reverse], from the ends to the middle. *)
Fixpoint reverse_loop (fuel i j : nat) (s : list E) : list E :=
  match fuel with
  | O => s
  | S fuel =>
      if j <=? i then s else
      match s !! i, s !! j with
      | Some x, Some y => reverse_loop fuel (S i) (j - 1) (<[j := x]> (<[i := y]> s))
      | _, _ => s
      end
  end.

Definition Reverse (s : list E) : list E := reverse_loop (length s) 0 (length s - 1) s.

Definition Map_ {T} (s : list E) (f : E → T) : list T := f <$> s.

Fixpoint Filter (s : list E) (f : E → bool) : list E :=
  match s with [] => [] | v :: s => if f v then v :: Filter s f else Filter s f end.

(** The loop of [Unique], [RemoveDuplicates] and [UniqueStrings] with what it has seen. *)
Fixpoint unique_loop (seen : list E) (s : list E) : list E :=
  match s with
  | [] => []
  | v :: s => if decide (v ∈ seen) then unique_loop seen s else v :: unique_loop (v :: seen) s
  end.

Definition Unique (s : list E) : list E := if length s <? 2 then s else unique_loop [] s.
Definition UniqueStrings (s : list E) : list E := unique_loop [] s.

(** [DifferenceBy] with the keys of [b] in a map. *)
Definition DifferenceBy {T} (keyFunc : T → E) (a b : list T) : list T :=
  filter (λ x, keyFunc x ∉ keyFunc <$> b) a.
End slices.

(** ** [util/strings.go] *)

Fixpoint FirstNonEmpty (ss : list string) : string :=
  match ss with [] => "" | s :: ss => if decide (s ≠ "") then s else FirstNonEmpty ss end.

(** Lengths are in bytes. *)
Definition Truncate (s : string) (n : Z) : string :=
  if (n <=? 0)%Z then ""
  else if (Z.of_nat (String.length s) <=? n)%Z then s
  else if (n <=? 3)%Z then String.substring 0 (Z.to_nat n) s
  else String.substring 0 (Z.to_nat (n - 3)) s +:+ "...".

(** ** What they do *)

Lemma IsInSlice_iff {E} `{EqDecision E} (s : list E) x : IsInSlice s x = true ↔ x ∈ s.
Proof.
  induction s as [|y s IH]; simpl; [set_solver|].
  rewrite orb_true_iff, bool_decide_eq_true, IH, elem_of_cons. naive_solver.
Qed.

Lemma search_loop_spec fuel f i j : j - i <= fuel →
  let r := search_loop fuel f i j in
  i <= r ∧ (i <= j → r <= j) ∧ (i < r → f (r - 1) = false) ∧ (r < j → f r = true).
Proof.
  revert i j. induction fuel as [|fuel IH]; intros i j Hf; cbn [search_loop].
  { split_and!; [lia|lia|intros; lia|intros; lia]. }
  destruct (Nat.leb_spec j i) as [Hle|Hlt]; [split_and!; [lia|lia|intros; lia|intros; lia]|].
  pose proof (Nat.div_mod (i + j) 2 ltac:(lia)) as Hdm. pose proof (Nat.mod_upper_bound (i + j) 2 ltac:(lia)).
  set (h := (i + j) / 2) in *. destruct (f h) eqn:Hh.
  - destruct (IH i h) as (H1 & H2 & H3 & H4); [lia|]. cbv zeta in *. split_and!; [lia|lia|done|].
    intros Hr. destruct (decide (search_loop fuel f i h = h)) as [->|Hne]; [done|]. apply H4. lia.
  - destruct (IH (S h) j) as (H1 & H2 & H3 & H4); [lia|]. cbv zeta in *. split_and!; [lia|lia| |done].
    intros Hr. destruct (decide (search_loop fuel f (S h) j = S h)) as [->|Hne]; [by replace (S h - 1) with h by lia|].
    apply H3. lia.
Qed.

Section sorted.
Context {E : Type} `{EqDecision E, OrderedLaws E}.

Definition increasing (s : list E) : Prop := ∀ i j x y, s !! i = Some x → s !! j = Some y → i < j → (Compare x y < 0)%Z.

Lemma Compare_self x : Compare x x = 0%Z.
Proof. by apply Compare_eq. Qed.

(** The search for strings decides membership in a slice that is sorted. *)
Lemma IsInSortedSlice_iff (s : list E) x : increasing s → IsInSortedSlice s x = true ↔ x ∈ s.
Proof.
  intros Hs. unfold IsInSortedSlice, Search_. set (f := λ h, _). rewrite bool_decide_eq_true. split.
  { intros Hi. by eapply list_elem_of_lookup_2. }
  intros [k Hk]%list_elem_of_lookup. pose proof (lookup_lt_Some _ _ _ Hk) as Hlt.
  destruct (search_loop_spec (length s) f 0 (length s)) as (_ & Hr & Hbefore & Hat); [lia|]. cbv zeta in *.
  set (r := search_loop (length s) f 0 (length s)) in *.
  destruct (lt_eq_lt_dec r k) as [[Hrk|Hrk]|Hrk].
  - exfalso. destruct (lookup_lt_is_Some_2 s r) as [y Hy]; [lia|]. specialize (Hat ltac:(lia)). unfold f in Hat.
    rewrite Hy in Hat. pose proof (Hs _ _ _ _ Hy Hk Hrk). apply Z.leb_le in Hat. lia.
  - by rewrite Hrk.
  - exfalso. specialize (Hbefore ltac:(lia)). destruct (lookup_lt_is_Some_2 s (r - 1)) as [y Hy]; [lia|].
    unfold f in Hbefore. rewrite Hy in Hbefore. apply Z.leb_gt in Hbefore. destruct (decide (k = r - 1)) as [->|Hne].
    + rewrite Hk in Hy. injection Hy as <-. rewrite Compare_self in Hbefore. lia.
    + pose proof (Hs _ _ _ _ Hk Hy ltac:(lia)) as Hcmp. apply Compare_flip in Hcmp. lia.
Qed.

(** [BinarySearch] hands [sort.Find] the comparison the wrong way round: in a
    strictly increasing slice of two or more elements it never finds anything, while
    the other search decides membership. *)
Theorem BinarySearch_finds_nothing (s : list E) v : increasing s → 2 <= length s →
  BinarySearch s v = false ∧ (IsInSortedSlice s v = true ↔ v ∈ s).
Proof.
  intros Hs Hlen. split; [|by apply IsInSortedSlice_iff]. unfold BinarySearch, Find. set (f := λ h : nat, (_ <=? 0)%Z).
  destruct (bool_decide (s !! Search_ (length s) f = Some v)) eqn:Hfound; [|by rewrite andb_false_r].
  apply bool_decide_eq_true in Hfound. exfalso. pose proof (lookup_lt_Some _ _ _ Hfound) as Hlt.
  unfold Search_ in *. destruct (search_loop_spec (length s) f 0 (length s)) as (_ & _ & Hbefore & Hat); [lia|]. cbv zeta in *.
  assert (search_loop (length s) f 0 (length s) = 0) as Hzero.
  { set (r := search_loop (length s) f 0 (length s)) in *. destruct (decide (r = 0)) as [|Hr]; [done|]. exfalso.
    specialize (Hbefore ltac:(lia)). destruct (lookup_lt_is_Some_2 s (r - 1)) as [y Hy]; [lia|].
    unfold f in Hbefore. rewrite Hy in Hbefore. apply Z.leb_gt in Hbefore.
    pose proof (Hs _ _ _ _ Hy Hfound ltac:(lia)). lia. }
  rewrite Hzero in Hfound. destruct (length s) as [|n] eqn:Hl; [lia|]. cbn [search_loop] in Hzero.
  destruct (Nat.leb_spec (S n) 0); [lia|]. pose proof (Nat.div_mod (S n) 2 ltac:(lia)). pose proof (Nat.mod_upper_bound (S n) 2 ltac:(lia)).
  rewrite Nat.add_0_l in Hzero. set (h := S n / 2) in *. destruct (lookup_lt_is_Some_2 s h) as [y Hy]; [lia|].
  pose proof (Hs _ _ _ _ Hfound Hy ltac:(lia)) as Hcmp. destruct (f h) eqn:Hh.
  - unfold f in Hh. rewrite Hy in Hh. apply Z.leb_le in Hh. apply Compare_flip in Hcmp. lia.
  - destruct (search_loop_spec n f (S h) (S n)) as (Hge & _); [lia|]. cbv zeta in Hge. lia.
Qed.
End sorted.

Lemma BinarySearch_finds_nothing_witness :
  (BinarySearch [1; 2; 3]%Z 2%Z = false ∧ (IsInSortedSlice [1; 2; 3]%Z 2%Z = true ↔ 2%Z ∈ [1; 2; 3]%Z))
  ∧ IsInSortedSlice [1; 2; 3]%Z 2%Z = true.
Proof.
  split; [|reflexivity]. apply (BinarySearch_finds_nothing [1; 2; 3]%Z 2%Z); [|simpl; lia].
  intros [|[|[|i]]] [|[|[|j]]] x y Hx Hy Hij; simpl in *; try lia; try done; injection Hx as <-; injection Hy as <-; reflexivity.
Defined.

(** ** Duplicates, ends *)

Section more.
Context {E : Type} `{EqDecision E}.

Lemma unique_loop_spec (s seen : list E) :
  NoDup (unique_loop seen s) ∧ ∀ x, x ∈ unique_loop seen s ↔ x ∈ s ∧ x ∉ seen.
Proof.
  revert seen. induction s as [|v s IH]; intros seen; simpl; [split; [constructor|set_solver]|]. case_decide as Hv.
  - destruct (IH seen) as [Hnd Hin]. split; [done|]. intros x. rewrite Hin, elem_of_cons. naive_solver.
  - destruct (IH (v :: seen)) as [Hnd Hin]. split.
    + apply NoDup_cons. split; [|done]. rewrite Hin. set_solver.
    + intros x. rewrite !elem_of_cons, Hin, elem_of_cons. destruct (decide (x = v)) as [->|]; naive_solver.
Qed.

(** Every element once, in the order of the first occurrences. *)
Lemma Unique_spec (s : list E) : NoDup (Unique s) ∧ (∀ x, x ∈ Unique s ↔ x ∈ s) ∧ Unique s = UniqueStrings s.
Proof.
  unfold UniqueStrings. destruct (unique_loop_spec s []) as [Hnd Hin].
  assert (Unique s = unique_loop [] s) as ->; [|split_and!; [done| |done]; intros x; rewrite Hin; set_solver].
  unfold Unique. destruct s as [|x [|y s]]; [done| |done]. cbn [length unique_loop]. by rewrite decide_False by set_solver.
Qed.

(** The swaps of the ends reverse what is between them. *)
Lemma reverse_loop_spec fuel (a m b : list E) : length m <= fuel →
  reverse_loop fuel (length a) (length a + length m - 1) (a ++ m ++ b) = a ++ reverse m ++ b.
Proof.
  revert a m b. induction fuel as [|fuel IH]; intros a m b Hf; cbn [reverse_loop]; [by destruct m; [|simpl in Hf; lia]|].
  destruct m as [|x m].
  { simpl. destruct (Nat.leb_spec (length a + 0 - 1) (length a)); [done|lia]. }
  destruct m as [|y m _] using rev_ind.
  { simpl. destruct (Nat.leb_spec (length a + 1 - 1) (length a)); [done|lia]. }
  cbn [length]. rewrite length_app. cbn [length].
  destruct (Nat.leb_spec (length a + S (length m + 1) - 1) (length a)); [lia|].
  assert (a ++ (x :: m ++ [y]) ++ b = a ++ x :: (m ++ y :: b)) as Heq by (simpl; by rewrite <-app_assoc). rewrite Heq.
  rewrite (list_lookup_middle a _ x (length a)) by done.
  assert (a ++ x :: m ++ y :: b = (a ++ x :: m) ++ y :: b) as Hy by (by rewrite <-app_assoc).
  assert ((a ++ x :: m ++ y :: b) !! (length a + S (length m + 1) - 1) = Some y) as ->.
  { rewrite Hy. apply list_lookup_middle. rewrite length_app. simpl. lia. }
  assert (<[length a + S (length m + 1) - 1 := x]> (<[length a := y]> (a ++ x :: m ++ y :: b)) = (a ++ [y]) ++ m ++ ([x] ++ b)) as ->.
  { rewrite insert_app_r_alt, Nat.sub_diag by lia. cbn [insert list_insert].
    assert (a ++ y :: m ++ y :: b = (a ++ y :: m) ++ y :: b) as -> by (by rewrite <-app_assoc).
    rewrite insert_app_r_alt by (rewrite length_app; simpl; lia). rewrite length_app. cbn [length].
    replace (length a + S (length m + 1) - 1 - (length a + S (length m))) with 0 by lia. cbn [insert list_insert].
    by rewrite <-!app_assoc. }
  replace (S (length a)) with (length (a ++ [y])) by (rewrite length_app; simpl; lia).
  replace (length a + S (length m + 1) - 1 - 1) with (length (a ++ [y]) + length m - 1) by (rewrite length_app; simpl; lia).
  rewrite IH by (cbn [length] in Hf; rewrite length_app in Hf; simpl in Hf; lia).
  rewrite reverse_cons, reverse_app. simpl. by rewrite <-!app_assoc.
Qed.

Lemma Reverse_spec (s : list E) : Reverse s = reverse s.
Proof.
  unfold Reverse. pose proof (reverse_loop_spec (length s) [] s [] (le_n _)) as Hr. simpl in Hr.
  by rewrite !app_nil_r in Hr.
Qed.
End more.
