(* ===== verification/TaskScheduler.v ===== *)
(** The scheduler of tasks with dependencies, [task/scheduler.go], and the wrapper
    that gives a task a retry policy, [task/extended.go]: which tasks are planned, in
    which order, and when it reports a deadlock. *)
From S2P Require Import Prelude.

(** ** Tasks *)

Inductive schedule_error : Type :=
| PlanFailed (task err : string)
| Deadlock (unresolved : list string)
| UnresolvedDependency (task dep : string).

Section scheduler.
Context {St F : Type}.

(** What the scheduler uses of a task: its name, the names it depends on ([None] when it
    is no [ExtendedTask]), and [Plan], which reads and changes the state behind the
    context. *)
Record STask : Type := MkSTask {
  st_Name : string;
  st_GetDependencies : option (list string);
  st_Plan : M St string F;
}.

Definition dependencies (t : STask) : list string := default [] (st_GetDependencies t).

(** ** [task/scheduler.go] *)

Definition AreDependenciesMet (t : STask) (executionState : gset string) : bool :=
  forallb (λ dep, bool_decide (dep ∈ executionState)) (dependencies t).

Definition plan_task (t : STask) : M St schedule_error F := wrap (PlanFailed (st_Name t)) (st_Plan t).

(** One pass over the pending tasks: what stays pending, and the state and fragments
    after the tasks whose dependencies were met, those met during the pass included. *)
Fixpoint round (pending : list STask) (executionState : gset string)
    : M St schedule_error (list STask * gset string * list F) :=
  match pending with
  | [] => mret ([], executionState, [])
  | t :: pending =>
      if AreDependenciesMet t executionState then
        fragment ← plan_task t ;
        '(rest, executionState, fragments) ← round pending ({[st_Name t]} ∪ executionState) ;
        mret (rest, executionState, fragment :: fragments)
      else
        '(rest, executionState, fragments) ← round pending executionState ;
        mret (t :: rest, executionState, fragments)
  end.

(** The rounds; [None] when they are used up. *)
Fixpoint rounds (n : nat) (pending : list STask) (executionState : gset string)
    : M St schedule_error (option (list F)) :=
  match pending, n with
  | [], _ => mret (Some [])
  | _, O => mret None
  | _, S n =>
      '(rest, executionState, fragments) ← round pending executionState ;
      match fragments with
      | [] => fail (Deadlock (st_Name <$> rest))
      | _ => more ← rounds n rest executionState ; mret (app fragments <$> more)
      end
  end.

(** A round that does not plan a task is the last, so there are never more than tasks. *)
Definition ScheduleTasks (tasks : list STask) : M St schedule_error (option (list F)) := rounds (length tasks) tasks ∅.

Definition first_missing (names : gset string) (deps : list string) : option string :=
  list_find (λ dep, dep ∉ names) deps ≫= λ x, Some x.2.

Fixpoint check_dependencies (names : gset string) (tasks : list STask) : outcome schedule_error unit :=
  match tasks with
  | [] => Ok tt
  | t :: tasks =>
      match first_missing names (dependencies t) with
      | Some dep => Err (UnresolvedDependency (st_Name t) dep)
      | None => check_dependencies names tasks
      end
  end.

Definition ValidateTaskDependencies (tasks : list STask) : outcome schedule_error unit :=
  check_dependencies (list_to_set (st_Name <$> tasks)) tasks.

(** ** The order *)

(** The same passes on the names alone. *)
Fixpoint pass (pending : list STask) (met : gset string) : list STask * list STask * gset string :=
  match pending with
  | [] => ([], [], met)
  | t :: pending =>
      if AreDependenciesMet t met then
        let '(run, rest, met) := pass pending ({[st_Name t]} ∪ met) in (t :: run, rest, met)
      else
        let '(run, rest, met) := pass pending met in (run, t :: rest, met)
  end.

Fixpoint passes (n : nat) (pending : list STask) (met : gset string) : list STask * list STask :=
  match n with
  | O => ([], pending)
  | S n =>
      let '(run, rest, met) := pass pending met in
      match run with
      | [] => ([], pending)
      | _ => let '(run', rest) := passes n rest met in (run ++ run', rest)
      end
  end.

(** The tasks in the order they are planned, and those that never are. *)
Definition order (tasks : list STask) : list STask * list STask := passes (length tasks) tasks ∅.

(** The names that can be planned: a task with the name depends only on such names. *)
Inductive resolvable (tasks : list STask) : string → Prop :=
| resolve t : t ∈ tasks → (∀ dep, dep ∈ dependencies t → resolvable tasks dep) → resolvable tasks (st_Name t).

(** ** Lemmas *)

Lemma AreDependenciesMet_true t met : AreDependenciesMet t met = true ↔ ∀ dep, dep ∈ dependencies t → dep ∈ met.
Proof.
  unfold AreDependenciesMet. rewrite forallb_forall. setoid_rewrite bool_decide_eq_true.
  setoid_rewrite <-list_elem_of_In. done.
Qed.

Lemma collect_app {E A B C} (l k : list A) (f : A → M St E B) (g : list B → M St E C) s :
  (fs ← collect (l ++ k) f ; g fs) s = (a ← collect l f ; b ← collect k f ; g (a ++ b)) s.
Proof.
  unfold mbind, M_bind, mret, M_ret. revert g s. induction l as [|x l IH]; intros g s; [done|]. simpl.
  unfold mbind, M_bind, mret, M_ret in *. destruct (f x s) as [[y| |] s1]; [|done..].
  specialize (IH (λ ys, g (y :: ys)) s1).
  destruct (collect (l ++ k) f s1) as [[ys| |] s2], (collect l f s1) as [[zs| |] s3]; done.
Qed.

Lemma round_pass pending met s :
  round pending met s =
    let '(run, rest, met') := pass pending met in (fs ← collect run plan_task ; mret (rest, met', fs)) s.
Proof.
  revert met s. induction pending as [|t pending IH]; intros met s; [done|]. cbn [round pass].
  destruct (AreDependenciesMet t met).
  - destruct (pass pending _) as [[run rest] met'] eqn:Hp. cbn [collect].
    unfold mbind, M_bind, mret, M_ret in *. destruct (plan_task t s) as [[f| |] s1]; [|done..].
    rewrite IH, Hp. by destruct (collect run plan_task s1) as [[] ?].
  - destruct (pass pending met) as [[run rest] met'] eqn:Hp. unfold mbind, M_bind, mret, M_ret in *.
    rewrite IH, Hp. by destruct (collect run plan_task s) as [[] ?].
Qed.

(** What one pass does. *)
Lemma pass_spec pending met run rest met' : pass pending met = (run, rest, met') →
  run ++ rest ≡ₚ pending
  ∧ met' = list_to_set (st_Name <$> run) ∪ met
  ∧ (∀ l1 t l2 dep, run = l1 ++ t :: l2 → dep ∈ dependencies t → dep ∈ (list_to_set (st_Name <$> l1) ∪ met : gset string))
  ∧ (run = [] → rest = pending ∧ ∀ t, t ∈ rest → AreDependenciesMet t met = false).
Proof.
  revert met run rest met'. induction pending as [|t pending IH]; intros met run rest met'; cbn [pass].
  { intros [= <- <- <-]. split_and!; [done|set_solver|by intros []|set_solver]. }
  destruct (AreDependenciesMet t met) eqn:Ht.
  - destruct (pass pending _) as [[run1 rest1] met1] eqn:Hp. intros [= <- <- <-].
    destruct (IH _ _ _ _ Hp) as (Hperm & -> & Htop & _). split_and!.
    + simpl. by rewrite Hperm.
    + simpl. set_solver.
    + intros [|u l1] v l2 dep [= <- Hrun] Hdep.
      * apply elem_of_union_r. by eapply AreDependenciesMet_true.
      * specialize (Htop _ _ _ _ Hrun Hdep). simpl. set_solver.
    + done.
  - destruct (pass pending met) as [[run1 rest1] met1] eqn:Hp. intros [= <- <- <-].
    destruct (IH _ _ _ _ Hp) as (Hperm & -> & Htop & Hnone). split_and!; [|done|done|].
    + by rewrite <-Hperm, Permutation_middle.
    + intros Hrun. destruct (Hnone Hrun) as [-> Hfalse]. split; [done|].
      intros u [->|Hu]%elem_of_cons; [done|]. by apply Hfalse.
Qed.

Lemma passes_spec n pending met run rest : passes n pending met = (run, rest) → length pending <= n →
  run ++ rest ≡ₚ pending
  ∧ (∀ l1 t l2 dep, run = l1 ++ t :: l2 → dep ∈ dependencies t → dep ∈ (list_to_set (st_Name <$> l1) ∪ met : gset string))
  ∧ (∀ t, t ∈ rest → ∃ dep, dep ∈ dependencies t ∧ dep ∉ (list_to_set (st_Name <$> run) ∪ met : gset string)).
Proof.
  revert pending met run rest. induction n as [|n IH]; intros pending met run rest; cbn [passes].
  { intros [= <- <-] Hn. destruct pending; [|simpl in Hn; lia]. split_and!; [done|by intros []|set_solver]. }
  destruct (pass pending met) as [[run1 rest1] met1] eqn:Hp. apply pass_spec in Hp as (Hperm & -> & Htop & Hnone).
  destruct run1 as [|t1 run1].
  { intros [= <- <-] _. destruct (Hnone eq_refl) as [-> Hfalse]. split_and!; [done|by intros []|].
    intros t Ht. apply Hfalse in Ht. unfold AreDependenciesMet in Ht. apply not_true_iff_false in Ht.
    rewrite forallb_forall in Ht. setoid_rewrite bool_decide_eq_true in Ht. setoid_rewrite <-list_elem_of_In in Ht.
    destruct (decide (Exists (λ dep, dep ∉ met) (dependencies t))) as [Hex|Hall].
    - apply Exists_exists in Hex as (dep & ? & ?). exists dep. simpl. set_solver.
    - rewrite <-Forall_Exists_neg in Hall. destruct Ht. intros dep Hdep.
      apply dec_stable. rewrite Forall_forall in Hall. by apply Hall. }
  destruct (passes n rest1 _) as [run2 rest2] eqn:Hps. intros [= <- <-] Hn.
  apply IH in Hps as (Hperm2 & Htop2 & Hrest2).
  2: { apply Permutation_length in Hperm. rewrite length_app in Hperm. simpl in Hperm. lia. }
  split_and!.
  - rewrite <-Hperm, <-Hperm2. simpl. by rewrite <-app_assoc.
  - intros l1 t l2 dep Hrun Hdep. change ((t1 :: run1) ++ run2 = l1 ++ t :: l2) in Hrun. apply app_eq_inv in Hrun as [(k & Hl & Hk)|(k & Hl & Hk)].
    + destruct k as [|u k].
      * simpl in Hk. rewrite app_nil_r in Hl. specialize (Htop2 [] t l2 dep (eq_sym Hk) Hdep). rewrite Hl in Htop2.
        simpl in Htop2. set_solver.
      * injection Hk as -> ->. by eapply Htop.
    + specialize (Htop2 _ _ _ _ Hk Hdep). rewrite Hl, fmap_app, list_to_set_app. set_solver.
  - intros t Ht. destruct (Hrest2 t Ht) as (dep & ? & ?). exists dep. split; [done|].
    change (t1 :: run1 ++ run2) with ((t1 :: run1) ++ run2). rewrite fmap_app, list_to_set_app. set_solver.
Qed.

Lemma rounds_passes n pending met s : length pending <= n →
  rounds n pending met s =
    let '(run, rest) := passes n pending met in
    (fs ← collect run plan_task ;
     match rest with [] => mret (Some fs) | _ => fail (Deadlock (st_Name <$> rest)) end) s.
Proof.
  revert pending met s. induction n as [|n IH]; intros pending met s Hn.
  { destruct pending; [done|simpl in Hn; lia]. }
  destruct pending as [|t pending]; [done|]. cbn [rounds passes].
  destruct (pass (t :: pending) met) as [[run1 rest1] met1] eqn:Hp. pose proof (pass_spec _ _ _ _ _ Hp) as (Hperm & _ & _ & Hnone).
  unfold mbind at 1, M_bind at 1. rewrite round_pass, Hp. destruct run1 as [|t1 run1].
  { destruct (Hnone eq_refl) as [-> _]. done. }
  destruct (passes n rest1 met1) as [run2 rest2] eqn:Hps.
  assert (length rest1 <= n) as Hlen.
  { apply Permutation_length in Hperm. rewrite length_app in Hperm. simpl in Hperm, Hn. lia. }
  specialize (IH rest1 met1). rewrite Hps in IH.
  rewrite (collect_app (t1 :: run1) run2).
  assert (∀ s fs s', collect (t1 :: run1) plan_task s = (Ok fs, s') → fs ≠ []) as Hne.
  { intros s0 fs s'. cbn [collect]. unfold mbind, M_bind, mret, M_ret. destruct (plan_task t1 s0) as [[]?]; try done.
    destruct (collect run1 plan_task _) as [[]?]; try done. by intros [= <- _]. }
  unfold mbind, M_bind, mret, M_ret in *. destruct (collect (t1 :: run1) plan_task s) as [[fs| |] s1] eqn:Hc; [|done..].
  pose proof (Hne _ _ _ Hc) as Hfs. destruct fs as [|f fs]; [done|]. rewrite IH by done.
  destruct (collect run2 plan_task s1) as [[fs2| |] s2]; [|done..]. by destruct rest2.
Qed.

(** [ScheduleTasks] returns, after planning each task at most once and each after
    tasks with the names it depends on.  It plans every task whose dependencies can be
    met at all, directly or through others, and then reports a deadlock that names
    exactly the others, when there are any; an error of [Plan] ends it at once. *)
Theorem ScheduleTasks_order tasks s :
  let '(run, rest) := order tasks in
  ScheduleTasks tasks s =
    (fs ← collect run plan_task ;
     match rest with [] => mret (Some fs) | _ => fail (Deadlock (st_Name <$> rest)) end) s
  ∧ run ++ rest ≡ₚ tasks
  ∧ (∀ l1 t l2 dep, run = l1 ++ t :: l2 → dep ∈ dependencies t → dep ∈ st_Name <$> l1)
  ∧ (∀ t, t ∈ run → ∀ dep, dep ∈ dependencies t → resolvable tasks dep)
  ∧ (∀ t, t ∈ rest → ∃ dep, dep ∈ dependencies t ∧ ¬ resolvable tasks dep).
Proof.
  destruct (order tasks) as [run rest] eqn:Ho. unfold order in Ho.
  pose proof (rounds_passes (length tasks) tasks ∅ s (le_n _)) as Hr. rewrite Ho in Hr.
  destruct (passes_spec _ _ _ _ _ Ho (le_n _)) as (Hperm & Htop & Hrest).
  assert (∀ l (x : string), x ∈ (list_to_set (st_Name <$> l) ∪ ∅ : gset string) ↔ x ∈ st_Name <$> l) as Hnames.
  { intros l x. rewrite elem_of_union, elem_of_list_to_set. set_solver. }
  setoid_rewrite Hnames in Htop. setoid_rewrite Hnames in Hrest.
  assert (∀ t, t ∈ run → t ∈ tasks) as Hin by (intros t Ht; rewrite <-Hperm; set_solver).
  split_and!; [done|done|done| |].
  - assert (∀ l1 l2, run = l1 ++ l2 → ∀ t, t ∈ l1 → (∀ dep, dep ∈ dependencies t → resolvable tasks dep)) as Hl.
    { induction l1 as [|u l1 IH] using rev_ind; intros l2 Hrun t Ht dep Hdep; [set_solver|].
      rewrite <-app_assoc in Hrun. apply elem_of_app in Ht as [Ht|Ht%list_elem_of_singleton]; [by eapply IH|subst t].
      pose proof (Htop _ _ _ _ Hrun Hdep) as (v & -> & Hv)%list_elem_of_fmap.
      constructor; [apply Hin; rewrite Hrun; set_solver|]. by eapply IH. }
    intros t Ht. eapply (Hl run []); [by rewrite app_nil_r|done].
  - intros t Ht. destruct (Hrest t Ht) as (dep & Hdep & Hno). exists dep. split; [done|]. intros Hres. apply Hno.
    clear t Ht Hdep Hno. induction Hres as [t Ht _ IH]. rewrite <-Hperm in Ht. apply elem_of_app in Ht as [Ht|Ht].
    + apply list_elem_of_fmap. by exists t.
    + destruct (Hrest t Ht) as (dep & Hdep & Hno). by destruct Hno; apply IH.
Qed.
End scheduler.
