(* ===== verification/Network.v ===== *)
(** Arithmetic of networks and addresses, [util/network.go], over the addresses and
    masks of Go's [net]; the overlap of networks of
    [apis/kubexms/v1alpha1/helpers/strings.go]. *)
From S2P Require Import Prelude.
From S2P Require Import GoText.
From S2P Require Import GoNet.
From Stdlib Require Import Ascii.
Local Open Scope Z_scope.

(** ** Masks and networks of [net] *)

(** [net.IPNet]; a mask is its bytes, four or sixteen. *)
Record IPNet : Type := MkIPNet { net_IP : IP; net_Mask : list Z }.

(** [net.CIDRMask] fills [n] bytes from the left with [ones] bits. *)
Fixpoint mask_bytes (n : nat) (ones : Z) : list Z :=
  match n with
  | O => []
  | S n => if 8 <=? ones then 0xFF :: mask_bytes n (ones - 8)
           else Z.land (Z.lnot (Z.shiftr 0xFF ones)) 0xFF :: mask_bytes n 0
  end.

Definition CIDRMask (ones bits : Z) : list Z :=
  if (bits =? 32) || (bits =? 128) then
    if (0 <=? ones) && (ones <=? bits) then mask_bytes (Z.to_nat (bits / 8)) ones else []
  else [].

(** The leading ones of a byte, and what is left of it. *)
Fixpoint leading_ones (n : nat) (v : Z) : Z * Z :=
  match n with
  | O => (0, v)
  | S n => if Z.testbit v 7 then let '(k, r) := leading_ones n (Z.land (Z.shiftl v 1) 0xFF) in (k + 1, r) else (0, v)
  end.

(** The number of leading ones of a mask; [None] when a one follows a zero. *)
Fixpoint simpleMaskLength (mask : list Z) : option Z :=
  match mask with
  | [] => Some 0
  | v :: mask =>
      if v =? 0xFF then (λ n, n + 8) <$> simpleMaskLength mask
      else let '(n, rest) := leading_ones 8 v in
           if bool_decide (rest = 0) && forallb (Z.eqb 0) mask then Some n else None
  end.

(** [mask.Size()]: the ones and the bits, both zero for a mask that is not a prefix. *)
Definition Size (mask : list Z) : Z * Z :=
  match simpleMaskLength mask with
  | Some ones => (ones, 8 * Z.of_nat (length mask))
  | None => (0, 0)
  end.

(** The number of a network and its mask, both of four or of sixteen bytes. *)
Definition networkNumberAndMask (n : IPNet) : option (IP * list Z) :=
  let ip := default (net_IP n) (To4 (net_IP n)) in
  if negb ((length ip =? 4) || (length ip =? 16))%nat then None else
  let m := net_Mask n in
  if (length m =? 4)%nat then if (length ip =? 4)%nat then Some (ip, m) else None
  else if (length m =? 16)%nat then
    if (length ip =? 4)%nat then Some (ip, drop 12 m) else Some (ip, m)
  else None.

(** [n.Contains(ip)] *)
Definition net_Contains (n : IPNet) (ip : IP) : bool :=
  let x := default ip (To4 ip) in
  match networkNumberAndMask n with
  | None => false
  | Some (nn, m) =>
      (length x =? length nn)%nat
      && bool_decide (zip_with Z.land nn m = zip_with Z.land x m)
  end.

(** [net.ParseCIDR]: an address and the number of its leading bits; [None] is the
    error, whose text is [CIDR_error].  An address in the notation of version 6 has
    128 bits even when it stands for one of version 4. *)
Definition is_v4_text (addr : string) : bool := bool_decide (first_mark addr = Some "."%char).

Definition ParseCIDR (s : string) : option IPNet :=
  match cut_first "/" s with
  | None => None
  | Some (addr, mask) =>
      match ParseIP addr with
      | None => None
      | Some ip =>
          let bits := if is_v4_text addr then 32 else 128 in
          if bool_decide (mask = "") || negb (all_digits mask) || (bits <? digits_value mask) then None
          else
            let m := CIDRMask (digits_value mask) bits in
            let ip := if is_v4_text addr then default [] (To4 ip) else ip in
            Some (MkIPNet (zip_with Z.land ip m) m)
      end
  end.

Definition CIDR_error (s : string) : string := "invalid CIDR address: " +:+ s.

(** [helpers.IsValidCIDR] *)
Definition IsValidCIDR (cidr : string) : bool := bool_decide (is_Some (ParseCIDR cidr)).

(** [bytes.Compare(a, b) <= 0] *)
Fixpoint bytes_le (a b : list Z) : bool :=
  match a, b with
  | [], _ => true
  | _ :: _, [] => false
  | x :: a, y :: b => (x <? y) || (x =? y) && bytes_le a b
  end.

(** ** [util/network.go] *)

Definition MaxExpandSize : Z := 4096.

Inductive net_error : Type :=
| NotIPv4 (ip : IP)
| CannotSplit (ones : Z)
| CIDRTooLarge (numAddresses : Z)
| InvalidIPRange (ipRange : string)
| InvalidStart (s : string)
| InvalidEnd (s : string)
| StartAfterEnd (startIP endIP : IP)
| IPRangeTooLarge
| InvalidPortRange (part : string)
| InvalidNumberInRange (part : string)
| InvalidPortsInRange (part : string)
| InvalidPort (part : string)
| InvalidPortNumber (port : Z).

(** A mask shorter than the address is indexed out of range. *)
Fixpoint last_bytes (ip mask : list Z) : option (list Z) :=
  match ip, mask with
  | [], _ => Some []
  | _ :: _, [] => None
  | b :: ip, m :: mask => r ← last_bytes ip mask ; Some (Z.lor b (Z.land (Z.lnot m) 0xFF) :: r)
  end.

Definition LastIP (n : IPNet) : outcome net_error IP := deref_or_panic (last_bytes (net_IP n) (net_Mask n)).

(** A nil network is [None]. *)
Definition NetworksOverlap (n1 n2 : option IPNet) : outcome net_error bool :=
  match n1, n2 with
  | Some n1, Some n2 =>
      n1_last ← LastIP n1 ;
      n2_last ← LastIP n2 ;
      Ok (bytes_le (net_IP n1) n2_last && bytes_le (net_IP n2) n1_last)
  | _, _ => Ok false
  end.

Definition IsSubnet (n1 n2 : option IPNet) : outcome net_error bool :=
  match n1, n2 with
  | Some n1, Some n2 =>
      if net_Contains n1 (net_IP n2) then last ← LastIP n2 ; Ok (net_Contains n1 last) else Ok false
  | _, _ => Ok false
  end.

(** The loop from the last byte to the first; a nil result is [None]. *)
Fixpoint next_loop (i : nat) (ip : list Z) : option (list Z) :=
  match i with
  | O => None
  | S i =>
      let b := (ip !!! i + 1) mod 256 in
      let ip := <[i := b]> ip in
      if 0 <? b then Some ip else next_loop i ip
  end.

Definition NextIP (ip : IP) : option IP := next_loop (length ip) ip.

Definition IPToUint32 (ip : IP) : outcome net_error Z :=
  match To4 ip with
  | None => Err (NotIPv4 ip)
  | Some v4 => Ok (foldl (λ acc b, 256 * acc + b) 0 v4)
  end.

Definition CIDRToIPRange (cidr : IPNet) : outcome net_error (IP * IP) :=
  last ← LastIP cidr ; Ok (net_IP cidr, last).

Definition SplitCIDR (n : IPNet) : outcome net_error (list IPNet) :=
  let '(ones, bits) := Size (net_Mask n) in
  if ones =? bits then Err (CannotSplit ones) else
  let newPrefixLen := ones + 1 in
  let mask := CIDRMask newPrefixLen bits in
  let byteIndex := if newPrefixLen mod 8 =? 0 then newPrefixLen / 8 - 1 else newPrefixLen / 8 in
  let bitIndex := 7 - (newPrefixLen - 1) mod 8 in
  b ← deref_or_panic (net_IP n !! Z.to_nat byteIndex) ;
  let ip2 := <[Z.to_nat byteIndex := Z.lor b (Z.shiftl 1 bitIndex)]> (net_IP n) in
  Ok [MkIPNet (net_IP n) mask; MkIPNet ip2 mask].

Fixpoint expand_loop (k : nat) (currentIP : IP) : list IP :=
  match k with
  | O => []
  | S k => currentIP :: match NextIP currentIP with None => [] | Some next => expand_loop k next end
  end.

(** The number of addresses is an [int]; a negative capacity of [make] panics. *)
Definition ExpandCIDR (cidr : IPNet) : outcome net_error (list IP) :=
  let '(ones, bits) := Size (net_Mask cidr) in
  let numAddresses := wrap64 (Z.shiftl 1 (bits - ones)) in
  if MaxExpandSize <? numAddresses then Err (CIDRTooLarge numAddresses)
  else if numAddresses <? 0 then Panic
  else Ok (expand_loop (Z.to_nat numAddresses) (net_IP cidr)).

(** [turns] addresses are left below the limit. *)
Fixpoint range_ips (turns : nat) (currentIP endIP : IP) : outcome net_error (list IP) :=
  match turns with
  | O => Err IPRangeTooLarge
  | S turns =>
      if decide (currentIP = endIP) then Ok [currentIP] else
      match NextIP currentIP with
      | None => Ok [currentIP]
      | Some next => l ← range_ips turns next endIP ; Ok (currentIP :: l)
      end
  end.

Definition ExpandIPRange (ipRange : string) : outcome net_error (list IP) :=
  match Split "-"%char ipRange with
  | [s; e] =>
      match ParseIP (TrimSpace s) with
      | None => Err (InvalidStart s)
      | Some startIP =>
          match ParseIP (TrimSpace e) with
          | None => Err (InvalidEnd e)
          | Some endIP =>
              if negb (bytes_le startIP endIP) then Err (StartAfterEnd startIP endIP)
              else range_ips (Z.to_nat MaxExpandSize) startIP endIP
          end
      end
  | _ => Err (InvalidIPRange ipRange)
  end.

(** ** Port ranges *)

(** The ports a part of the list adds to the set. *)
Definition port_part (part : string) (portSet : gset Z) : outcome net_error (gset Z) :=
  let part := TrimSpace part in
  if decide (part = "") then Ok portSet
  else if Contains part "-" then
    match Split "-"%char part with
    | [a; b] =>
        match Atoi (TrimSpace a), Atoi (TrimSpace b) with
        | Some s, Some e =>
            if (s <? 1) || (65535 <? e) || (e <? s) then Err (InvalidPortsInRange part)
            else Ok (portSet ∪ list_to_set (seqZ s (e - s + 1)))
        | _, _ => Err (InvalidNumberInRange part)
        end
    | _ => Err (InvalidPortRange part)
    end
  else
    match Atoi part with
    | None => Err (InvalidPort part)
    | Some port => if (port <? 1) || (65535 <? port) then Err (InvalidPortNumber port) else Ok ({[port]} ∪ portSet)
    end.

Fixpoint port_parts (parts : list string) (portSet : gset Z) : outcome net_error (gset Z) :=
  match parts with
  | [] => Ok portSet
  | part :: parts => portSet ← port_part part portSet ; port_parts parts portSet
  end.

(** The ports in increasing order, whatever order the map of Go gives them in. *)
Definition ParsePortRange (portRange : string) : outcome net_error (list Z) :=
  if decide (portRange = "") then Ok [] else
  portSet ← port_parts (Split ","%char portRange) ∅ ;
  Ok (merge_sort Z.le (elements portSet)).

(** ** The copy of [apis/kubexms/v1alpha1/helpers] *)

Module Helpers.
(** An empty mask is nil. *)
Definition NetworksOverlap (n1 n2 : option IPNet) : bool :=
  match n1, n2 with
  | Some n1, Some n2 =>
      net_Contains n1 (net_IP n2) && negb (bool_decide (net_Mask n2 = []))
      || net_Contains n2 (net_IP n1) && negb (bool_decide (net_Mask n1 = []))
  | _, _ => false
  end.
End Helpers.

Example next_1 : NextIP [10; 0; 255; 255] = Some [10; 1; 0; 0]. Proof. reflexivity. Qed.
Example next_2 : NextIP [255; 255; 255; 255] = None. Proof. reflexivity. Qed.
Example halve_1 : SplitCIDR (MkIPNet [10; 0; 0; 0] (CIDRMask 8 32)) =
  Ok [MkIPNet [10; 0; 0; 0] (CIDRMask 9 32); MkIPNet [10; 128; 0; 0] (CIDRMask 9 32)].
Proof. reflexivity. Qed.
Example expand_1 : ExpandCIDR (MkIPNet [10; 0; 0; 254] (CIDRMask 31 32)) = Ok [[10; 0; 0; 254]; [10; 0; 0; 255]].
Proof. reflexivity. Qed.
Example expand_2 : ExpandCIDR (MkIPNet (replicate 16 0) (CIDRMask 64 128)) = Ok []. Proof. reflexivity. Qed.
Example expand_3 : ExpandCIDR (MkIPNet (replicate 16 0) (CIDRMask 65 128)) = Panic. Proof. reflexivity. Qed.
Example range_1 : ExpandIPRange "10.0.0.254 - 10.0.1.0" =
  Ok ((app v4_prefix) <$> [[10; 0; 0; 254]; [10; 0; 0; 255]; [10; 0; 1; 0]]).
Proof. vm_compute. reflexivity. Qed.
Example port_1 : ParsePortRange "443, 80-82,81" = Ok [80; 81; 82; 443]. Proof. vm_compute. reflexivity. Qed.
Example cidr_1 : ParseCIDR "10.96.7.0/12" = Some (MkIPNet [10; 96; 0; 0] [255; 240; 0; 0]). Proof. vm_compute. reflexivity. Qed.
Example cidr_2 : ParseCIDR "10.0.0.0/33" = None. Proof. vm_compute. reflexivity. Qed.
Example cidr_3 : net_IP <$> ParseCIDR "fd00::1/64" = Some (253 :: replicate 15 0). Proof. vm_compute. reflexivity. Qed.
Example size_1 : Size (CIDRMask 29 32) = (29, 32). Proof. reflexivity. Qed.
Example size_2 : Size [255; 0; 255; 0] = (0, 0). Proof. reflexivity. Qed.
