(* ===== verification/NetworkSpec.v ===== *)
(** What the arithmetic on addresses computes, in terms of the numbers addresses
    write: successors, last addresses, membership, overlap, halves, expansions. *)
From S2P Require Import Prelude.
From S2P Require Import GoNet.
From S2P Require Import Network.
Local Open Scope Z_scope.

(** ** Addresses as numbers *)

Definition is_byte (b : Z) : Prop := 0 <= b < 256.
Definition is_bytes (l : list Z) : Prop := Forall is_byte l.

(** The number of an address, its first byte the most significant. *)
Fixpoint value (l : list Z) : Z :=
  match l with [] => 0 | b :: l => b * 256 ^ Z.of_nat (length l) + value l end.

(** The address of [n] bytes that writes a number. *)
Fixpoint encode (n : nat) (v : Z) : list Z :=
  match n with O => [] | S n => v / 256 ^ Z.of_nat n mod 256 :: encode n (v mod 256 ^ Z.of_nat n) end.

Lemma pow256_pos n : 0 < 256 ^ Z.of_nat n.
Proof. apply Z.pow_pos_nonneg; lia. Qed.
Local Hint Resolve pow256_pos : core.

Lemma pow256_S n : 256 ^ Z.of_nat (S n) = 256 * 256 ^ Z.of_nat n.
Proof. rewrite Nat2Z.inj_succ, Z.pow_succ_r; lia. Qed.

Lemma pow256_2 n : 256 ^ Z.of_nat n = 2 ^ (8 * Z.of_nat n).
Proof. change 256 with (2 ^ 8). rewrite <-Z.pow_mul_r; lia. Qed.

Lemma value_bound l : is_bytes l → 0 <= value l < 256 ^ Z.of_nat (length l).
Proof.
  induction 1 as [|b l Hb _ IH]; [done|]. cbn [value length]. rewrite pow256_S. unfold is_byte in Hb.
  generalize dependent (256 ^ Z.of_nat (length l)). intros. nia.
Qed.

Lemma value_snoc l b : value (l ++ [b]) = 256 * value l + b.
Proof.
  induction l as [|x l IH]; [cbn; lia|]. cbn [value app]. rewrite IH, length_app, Nat.add_1_r, pow256_S. lia.
Qed.

Lemma value_app l k : value (l ++ k) = value l * 256 ^ Z.of_nat (length k) + value k.
Proof.
  induction l as [|x l IH]; [cbn; lia|]. cbn [value app]. rewrite IH, length_app, Nat2Z.inj_add, Z.pow_add_r by lia. lia.
Qed.

Lemma length_encode n v : length (encode n v) = n.
Proof. revert v. induction n; intros; simpl; auto. Qed.

Lemma encode_bytes n v : is_bytes (encode n v).
Proof. revert v. induction n as [|n IH]; intros v; constructor; [|apply IH]. apply Z.mod_pos_bound. lia. Qed.

Lemma value_encode n v : 0 <= v < 256 ^ Z.of_nat n → value (encode n v) = v.
Proof.
  revert v. induction n as [|n IH]; intros v Hv; [simpl in *; lia|].
  rewrite pow256_S in Hv. pose proof (pow256_pos n) as Hp. cbn [encode value]. rewrite length_encode.
  rewrite IH by (apply Z.mod_pos_bound; lia). rewrite Z.mod_small.
  - pose proof (Z.div_mod v (256 ^ Z.of_nat n)). lia.
  - split; [apply Z.div_pos; lia|]. apply Z.div_lt_upper_bound; lia.
Qed.

Lemma value_inj l k : is_bytes l → is_bytes k → length l = length k → value l = value k → l = k.
Proof.
  intros Hl. revert k. induction Hl as [|b l Hb Hl IH]; intros [|c k] Hk Hlen Hv; try done.
  apply Forall_cons in Hk as [Hc Hk]. injection Hlen as Hlen. cbn [value] in Hv. rewrite Hlen in Hv.
  pose proof (value_bound l Hl) as Bl. pose proof (value_bound k Hk) as Bk. rewrite Hlen in Bl.
  assert (b = c) as -> by nia. f_equal. apply IH; [done..|lia].
Qed.

Lemma encode_value l : is_bytes l → encode (length l) (value l) = l.
Proof.
  intros Hl. apply value_inj; [apply encode_bytes|done|apply length_encode|].
  apply value_encode, value_bound, Hl.
Qed.

(** [bytes.Compare] of addresses of one length compares the numbers. *)
Lemma bytes_le_value l k : is_bytes l → is_bytes k → length l = length k →
  bytes_le l k = (value l <=? value k).
Proof.
  intros Hl. revert k. induction Hl as [|b l Hb Hl IH]; intros [|c k] Hk Hlen; try done.
  apply Forall_cons in Hk as [Hc Hk]. injection Hlen as Hlen. cbn [bytes_le value]. rewrite IH by done.
  pose proof (value_bound l Hl) as Bl. pose proof (value_bound k Hk) as Bk. rewrite Hlen in *.
  apply eq_bool_prop_intro. rewrite Is_true_true, Is_true_true, orb_true_iff, andb_true_iff, Z.ltb_lt, Z.eqb_eq, !Z.leb_le.
  generalize dependent (256 ^ Z.of_nat (length k)). intros. nia.
Qed.

(** ** Successors *)

Lemma next_loop_value l s : is_bytes l →
  next_loop (length l) (l ++ s)
  = if value l + 1 <? 256 ^ Z.of_nat (length l) then Some (encode (length l) (value l + 1) ++ s) else None.
Proof.
  intros Hl. revert s. induction l as [|b l IH] using rev_ind; intros s; [done|].
  apply Forall_app in Hl as [Hl Hb]. rewrite Forall_singleton in Hb. unfold is_byte in Hb.
  pose proof (value_bound l Hl) as Bl. pose proof (pow256_pos (length l)) as Hp.
  rewrite length_app. cbn [length]. rewrite Nat.add_1_r. cbn [next_loop].
  rewrite <-app_assoc. cbn [app].
  assert ((l ++ b :: s) !!! length l = b) as -> by (by apply list_lookup_total_middle).
  rewrite insert_app_r_alt, Nat.sub_diag by lia. cbn [insert list_insert].
  rewrite value_snoc, pow256_S.
  destruct (decide (b = 255)) as [->|Hne].
  - change ((255 + 1) mod 256) with 0. change (0 <? 0) with false. cbn iota. rewrite IH by done.
    destruct (Z.ltb_spec (value l + 1) (256 ^ Z.of_nat (length l))) as [Hlt|Hge].
    + rewrite (proj2 (Z.ltb_lt _ _)) by lia. f_equal.
      replace (256 * value l + 255 + 1) with (value (encode (length l) (value l + 1) ++ [0]))
        by (rewrite value_snoc, value_encode; lia).
      replace (S (length l)) with (length (encode (length l) (value l + 1) ++ [0]))
        by (rewrite length_app, length_encode; simpl; lia).
      rewrite encode_value; [by rewrite <-app_assoc|].
      apply Forall_app. split; [apply encode_bytes|]. by apply Forall_singleton.
    + rewrite (proj2 (Z.ltb_ge _ _)) by lia. done.
  - rewrite Z.mod_small by lia. rewrite !(proj2 (Z.ltb_lt _ _)) by lia. f_equal.
    replace (256 * value l + b + 1) with (value (l ++ [b + 1])) by (rewrite value_snoc; lia).
    replace (S (length l)) with (length (l ++ [b + 1])) by (rewrite length_app; simpl; lia).
    rewrite encode_value; [by rewrite <-app_assoc|].
    apply Forall_app. split; [done|]. apply Forall_singleton. unfold is_byte. lia.
Qed.

Lemma NextIP_value ip : is_bytes ip →
  NextIP ip = if value ip + 1 <? 256 ^ Z.of_nat (length ip) then Some (encode (length ip) (value ip + 1)) else None.
Proof.
  intros Hip. pose proof (next_loop_value ip [] Hip) as Hn. rewrite !app_nil_r in Hn. exact Hn.
Qed.

(** ** Masks *)

(** A check over all bytes. *)
Lemma byte_check (P : Z → bool) b : forallb P (seqZ 0 256) = true → is_byte b → P b = true.
Proof.
  intros Hall Hb. rewrite forallb_forall in Hall. apply Hall, list_elem_of_In. apply elem_of_seqZ.
  unfold is_byte in Hb. lia.
Qed.

Lemma byte_check2 (P : Z → Z → bool) b k : forallb (λ b, forallb (P b) (seqZ 0 8)) (seqZ 0 256) = true →
  is_byte b → 0 <= k < 8 → P b k = true.
Proof.
  intros Hall Hb Hk. apply (byte_check _ b) in Hall; [|done]. rewrite forallb_forall in Hall.
  apply Hall, list_elem_of_In, elem_of_seqZ. lia.
Qed.

(** Dropping the lowest [h] bits. *)
Definition floor2 (h v : Z) : Z := v / 2 ^ h * 2 ^ h.

(** The byte of a mask with [k] ones. *)
Definition mask_byte (k : Z) : Z := Z.land (Z.lnot (Z.shiftr 0xFF k)) 0xFF.

Lemma land_mask_byte b k : is_byte b → 0 <= k < 8 → Z.land b (mask_byte k) = b / 2 ^ (8 - k) * 2 ^ (8 - k).
Proof.
  intros Hb Hk. apply Z.eqb_eq. revert Hb Hk.
  apply (byte_check2 (λ b k, Z.land b (mask_byte k) =? b / 2 ^ (8 - k) * 2 ^ (8 - k))). vm_compute. reflexivity.
Qed.

Lemma last_mask_byte b k : is_byte b → 0 <= k < 8 →
  Z.lor b (Z.land (Z.lnot (mask_byte k)) 0xFF) = b / 2 ^ (8 - k) * 2 ^ (8 - k) + 2 ^ (8 - k) - 1.
Proof.
  intros Hb Hk. apply Z.eqb_eq. revert Hb Hk.
  apply (byte_check2 (λ b k, Z.lor b (Z.land (Z.lnot (mask_byte k)) 0xFF) =? b / 2 ^ (8 - k) * 2 ^ (8 - k) + 2 ^ (8 - k) - 1)).
  vm_compute. reflexivity.
Qed.

Lemma last_partial_byte b k : is_byte b → 0 <= k < 8 → is_byte (floor2 (8 - k) b + 2 ^ (8 - k) - 1).
Proof.
  intros Hb Hk. set (P := λ b k, (0 <=? floor2 (8 - k) b + 2 ^ (8 - k) - 1) && (floor2 (8 - k) b + 2 ^ (8 - k) - 1 <? 256)).
  assert (P b k = true) as HP by (apply byte_check2; [vm_compute; reflexivity|done|done]).
  unfold P in HP. unfold is_byte. lia.
Qed.

Lemma last_full_byte b : is_byte b → Z.lor b (Z.land (Z.lnot 0xFF) 0xFF) = b.
Proof.
  intros Hb. apply Z.eqb_eq. revert Hb.
  apply (byte_check (λ b, Z.lor b (Z.land (Z.lnot 0xFF) 0xFF) =? b)). vm_compute. reflexivity.
Qed.

Lemma land_full_byte b : is_byte b → Z.land b 0xFF = b.
Proof. intros Hb. apply Z.eqb_eq. revert Hb. apply (byte_check (λ b, Z.land b 0xFF =? b)). vm_compute. reflexivity. Qed.

Lemma length_mask_bytes n p : length (mask_bytes n p) = n.
Proof. revert p. induction n; intros; simpl; [done|]. case_match; simpl; auto. Qed.

Lemma floor2_high b n v h : 0 <= h <= 8 * Z.of_nat n →
  floor2 h (b * 256 ^ Z.of_nat n + v) = b * 256 ^ Z.of_nat n + floor2 h v.
Proof.
  intros Hh. unfold floor2. rewrite pow256_2.
  replace (2 ^ (8 * Z.of_nat n)) with (2 ^ (8 * Z.of_nat n - h) * 2 ^ h) by (rewrite <-Z.pow_add_r; [f_equal|..]; lia).
  rewrite Z.mul_assoc, Z.div_add_l by (apply Z.pow_nonzero; lia). lia.
Qed.

Lemma floor2_low b n v j : 0 <= v < 256 ^ Z.of_nat n → 0 <= j →
  floor2 (8 * Z.of_nat n + j) (b * 256 ^ Z.of_nat n + v) = floor2 j b * 256 ^ Z.of_nat n.
Proof.
  intros Hv Hj. unfold floor2. pose proof (pow256_pos n) as Hp.
  rewrite Z.pow_add_r, <-pow256_2 by lia. rewrite <-Z.div_div by (try apply Z.pow_pos_nonneg; lia).
  rewrite Z.div_add_l, (Z.div_small v) by lia. rewrite Z.add_0_r. lia.
Qed.

Lemma floor2_all n v : 0 <= v < 256 ^ Z.of_nat n → floor2 (8 * Z.of_nat n) v = 0.
Proof. intros Hv. unfold floor2. rewrite <-pow256_2, Z.div_small by done. done. Qed.

Lemma mask_value l p : is_bytes l → 0 <= p <= 8 * Z.of_nat (length l) →
  value (zip_with Z.land l (mask_bytes (length l) p)) = floor2 (8 * Z.of_nat (length l) - p) (value l).
Proof.
  intros Hl. revert p. induction Hl as [|b l Hb Hl IH]; intros p Hp.
  { simpl in *. by replace p with 0 by lia. }
  pose proof (value_bound l Hl) as Bl. cbn [length] in *. rewrite Nat2Z.inj_succ in *. cbn [mask_bytes].
  destruct (Z.leb_spec 8 p) as [H8|H8]; cbn [zip_with value]; rewrite length_zip_with, length_mask_bytes, Nat.min_id, IH by lia.
  - rewrite land_full_byte, floor2_high by (done || lia). do 2 f_equal. lia.
  - fold (mask_byte p). rewrite land_mask_byte by (done || lia). fold (floor2 (8 - p) b).
    rewrite Z.sub_0_r, floor2_all by done.
    replace (8 * Z.succ (Z.of_nat (length l)) - p) with (8 * Z.of_nat (length l) + (8 - p)) by lia.
    rewrite floor2_low by lia. lia.
Qed.

Lemma last_value l p : is_bytes l → 0 <= p <= 8 * Z.of_nat (length l) →
  let h := 8 * Z.of_nat (length l) - p in
  ∃ r, last_bytes l (mask_bytes (length l) p) = Some r ∧ is_bytes r ∧ length r = length l
    ∧ value r = floor2 h (value l) + 2 ^ h - 1.
Proof.
  intros Hl. revert p. induction Hl as [|b l Hb Hl IH]; intros p Hp h.
  { exists []. split; [done|]. split; [constructor|]. split; [done|]. unfold h. simpl in *. by replace p with 0 by lia. }
  pose proof (value_bound l Hl) as Bl. subst h. cbn [length] in *. rewrite Nat2Z.inj_succ in *. cbn [mask_bytes].
  destruct (Z.leb_spec 8 p) as [H8|H8]; cbn [last_bytes].
  - destruct (IH (p - 8)) as (r & -> & Hr & Hlen & Hv); [lia|]. eexists. split; [reflexivity|]. cbn [length value].
    rewrite Hlen, Hv, last_full_byte, floor2_high by (done || lia). split; [by constructor|]. split; [done|].
    replace (8 * Z.of_nat (length l) - (p - 8)) with (8 * Z.succ (Z.of_nat (length l)) - p) by lia. lia.
  - destruct (IH 0) as (r & -> & Hr & Hlen & Hv); [lia|]. eexists. split; [reflexivity|]. cbn [length value].
    fold (mask_byte p). rewrite Hlen, Hv, last_mask_byte by (done || lia). fold (floor2 (8 - p) b).
    split; [constructor; [apply last_partial_byte; [done|lia]|done]|]. split; [done|].
    rewrite Z.sub_0_r, floor2_all by done.
    replace (8 * Z.succ (Z.of_nat (length l)) - p) with (8 * Z.of_nat (length l) + (8 - p)) by lia.
    rewrite floor2_low by lia. rewrite Z.pow_add_r, <-pow256_2 by lia. lia.
Qed.

Lemma floor2_le h v : 0 <= h → 0 <= v → 0 <= floor2 h v <= v.
Proof.
  intros Hh Hv. unfold floor2. pose proof (Z.pow_pos_nonneg 2 h). pose proof (Z.div_pos v (2 ^ h)).
  pose proof (Z.mul_div_le v (2 ^ h)). lia.
Qed.

Lemma masked_bytes l p : is_bytes l → 0 <= p → is_bytes (zip_with Z.land l (mask_bytes (length l) p)).
Proof.
  intros Hl. revert p. induction Hl as [|b l Hb Hl IH]; intros p Hp; [constructor|]. cbn [length mask_bytes].
  destruct (Z.leb_spec 8 p); simpl; constructor; try (apply IH; lia).
  - by rewrite land_full_byte.
  - fold (mask_byte p). rewrite land_mask_byte by (done || lia). fold (floor2 (8 - p) b). unfold is_byte in *.
    pose proof (floor2_le (8 - p) b). lia.
Qed.

Lemma zero_mask n p : p <= 0 → 0 <= p → forallb (Z.eqb 0) (mask_bytes n p) = true.
Proof. intros. replace p with 0 by lia. by induction n. Qed.

Lemma leading_ones_mask p : 0 <= p < 8 → leading_ones 8 (mask_byte p) = (p, 0) ∧ mask_byte p ≠ 255.
Proof.
  intros Hp. set (P := λ (_ k : Z), bool_decide (leading_ones 8 (mask_byte k) = (k, 0)) && negb (mask_byte k =? 255)).
  assert (P 0 p = true) as H by (apply byte_check2; [vm_compute; reflexivity|done|done]).
  unfold P in H. apply andb_prop in H as [H1%bool_decide_eq_true H2]. split; [done|].
  intros Heq. by rewrite Heq in H2.
Qed.

Lemma simpleMaskLength_mask n p : 0 <= p <= 8 * Z.of_nat n → simpleMaskLength (mask_bytes n p) = Some p.
Proof.
  revert p. induction n as [|n IH]; intros p Hp; [simpl in *; f_equal; lia|]. cbn [mask_bytes].
  destruct (Z.leb_spec 8 p) as [H8|H8]; cbn [simpleMaskLength].
  - change (255 =? 255) with true. cbn iota. rewrite IH by lia. simpl. f_equal. lia.
  - fold (mask_byte p). destruct (leading_ones_mask p) as [Hl Hne]; [lia|].
    rewrite (proj2 (Z.eqb_neq _ _)) by done. rewrite Hl, zero_mask by lia. done.
Qed.

Lemma Size_mask n p : 0 <= p <= 8 * Z.of_nat n → Size (mask_bytes n p) = (p, 8 * Z.of_nat n).
Proof. intros Hp. unfold Size. by rewrite simpleMaskLength_mask, length_mask_bytes. Qed.

(** ** Networks *)

(** A network as [net.ParseCIDR] makes it: an address of four or sixteen bytes whose
    bits behind the prefix are zero, and the mask of the prefix. *)
Record is_net (n : IPNet) (p : Z) : Prop := {
  net_length : length (net_IP n) = 4%nat ∨ length (net_IP n) = 16%nat;
  net_bytes : is_bytes (net_IP n);
  net_prefix : 0 <= p <= 8 * Z.of_nat (length (net_IP n));
  net_mask : net_Mask n = CIDRMask p (8 * Z.of_nat (length (net_IP n)));
  net_base : floor2 (8 * Z.of_nat (length (net_IP n)) - p) (value (net_IP n)) = value (net_IP n);
}.

Definition host_bits (n : IPNet) (p : Z) : Z := 8 * Z.of_nat (length (net_IP n)) - p.

(** The addresses of a network: those from its first to its last. *)
Definition in_net (n : IPNet) (p : Z) (ip : IP) : Prop :=
  length ip = length (net_IP n) ∧ is_bytes ip
  ∧ value (net_IP n) <= value ip < value (net_IP n) + 2 ^ host_bits n p.

(** An address [To4] shortens when it has sixteen bytes. *)
Definition unmapped (ip : IP) : Prop := length ip = 16%nat → To4 ip = None.

Lemma CIDRMask_bytes n p : n = 4%nat ∨ n = 16%nat → 0 <= p <= 8 * Z.of_nat n → CIDRMask p (8 * Z.of_nat n) = mask_bytes n p.
Proof.
  intros Hn Hp. unfold CIDRMask. rewrite (proj2 (Z.leb_le 0 p)) by lia. rewrite (proj2 (Z.leb_le p _)) by lia.
  by destruct Hn as [-> | ->].
Qed.

Section net.
Context (n : IPNet) (p : Z) (Hnet : is_net n p).

Lemma net_mask_bytes : net_Mask n = mask_bytes (length (net_IP n)) p.
Proof. destruct Hnet as [Hl Hb Hp Hm _]. by rewrite Hm, CIDRMask_bytes. Qed.

Lemma host_bits_nonneg : 0 <= host_bits n p.
Proof. destruct Hnet. unfold host_bits. lia. Qed.

Lemma host_bits_pos : 0 < 2 ^ host_bits n p.
Proof. apply Z.pow_pos_nonneg; [lia|]. apply host_bits_nonneg. Qed.

Lemma Size_net : Size (net_Mask n) = (p, 8 * Z.of_nat (length (net_IP n))).
Proof. rewrite net_mask_bytes, Size_mask; [done|]. apply Hnet. Qed.

Lemma LastIP_net : ∃ r, LastIP n = Ok r ∧ is_bytes r ∧ length r = length (net_IP n)
  ∧ value r = value (net_IP n) + 2 ^ host_bits n p - 1.
Proof.
  destruct Hnet as [_ Hb Hp _ Hz]. destruct (last_value _ p Hb Hp) as (r & Hr & Hrb & Hlen & Hv).
  exists r. split; [unfold LastIP; by rewrite net_mask_bytes, Hr|]. split; [done|]. split; [done|].
  rewrite Hv, Hz. done.
Qed.

Lemma net_last_bound : value (net_IP n) + 2 ^ host_bits n p <= 256 ^ Z.of_nat (length (net_IP n)).
Proof.
  destruct LastIP_net as (r & _ & Hb & Hlen & Hv). pose proof (value_bound r Hb). rewrite Hlen in *. lia.
Qed.

Lemma floor2_net v : 0 <= v → floor2 (host_bits n p) v = value (net_IP n)
  ↔ value (net_IP n) <= v < value (net_IP n) + 2 ^ host_bits n p.
Proof.
  intros Hv. pose proof (net_base _ _ Hnet) as Hb. fold (host_bits n p) in Hb. unfold floor2 in *.
  pose proof host_bits_pos as Hpos. set (k := 2 ^ host_bits n p) in *.
  pose proof (Z.div_mod v k). pose proof (Z.mod_pos_bound v k). split; [intros; lia|]. intros Hin.
  assert (v / k = value (net_IP n) / k) as ->; [|done].
  symmetry. apply (Z.div_unique _ _ _ (v - value (net_IP n))); [lia|]. lia.
Qed.

Lemma net_Contains_value ip : unmapped (net_IP n) → unmapped ip → length ip = length (net_IP n) → is_bytes ip →
  net_Contains n ip = true ↔ in_net n p ip.
Proof.
  intros Hun Hui Hlen Hip. unfold in_net. rewrite <-floor2_net by (apply value_bound; done).
  assert (∀ a : IP, length a = 4%nat ∨ length a = 16%nat → unmapped a → default a (To4 a) = a) as H4.
  { intros a [Ha|Ha] Hu; [|by rewrite Hu]. unfold To4. by rewrite decide_True. }
  pose proof (net_length _ _ Hnet) as Hlens.
  unfold net_Contains, networkNumberAndMask. rewrite !H4 by (rewrite ?Hlen; done).
  assert (net_Mask n = mask_bytes (length (net_IP n)) p) as Hm by apply net_mask_bytes.
  assert (zip_with Z.land (net_IP n) (net_Mask n) = zip_with Z.land ip (net_Mask n)
    ↔ floor2 (host_bits n p) (value ip) = value (net_IP n)) as Heq.
  { pose proof (net_prefix _ _ Hnet). pose proof (net_base _ _ Hnet) as Hb. pose proof (net_bytes _ _ Hnet).
    rewrite Hm. split; intros He.
    - apply (f_equal value) in He. rewrite mask_value in He by done. rewrite <-Hlen, mask_value in He by (rewrite ?Hlen; done).
      unfold host_bits. rewrite Hlen in *. congruence.
    - apply value_inj; [apply masked_bytes; [done|lia]|rewrite <-Hlen; apply masked_bytes; [done|lia]| |].
      + rewrite !length_zip_with. congruence.
      + rewrite mask_value by done. rewrite <-Hlen, mask_value by (rewrite ?Hlen; done). unfold host_bits in He.
        rewrite Hlen in *. congruence. }
  rewrite Hlen. assert (length (net_Mask n) = length (net_IP n)) as Hml by (by rewrite Hm, length_mask_bytes).
  rewrite Hml. destruct Hlens as [Hl | Hl]; rewrite Hl in *; simpl; rewrite ?Hml; simpl; rewrite ?Hl, ?Hlen; simpl;
    rewrite bool_decide_eq_true, Heq; tauto.
Qed.
End net.

Lemma encode_in_net n p k : is_net n p → 0 <= k < 2 ^ host_bits n p →
  in_net n p (encode (length (net_IP n)) (value (net_IP n) + k)).
Proof.
  intros Hn Hk. pose proof (net_last_bound n p Hn). pose proof (value_bound _ (net_bytes _ _ Hn)).
  split; [apply length_encode|]. split; [apply encode_bytes|]. rewrite value_encode; lia.
Qed.

Lemma in_net_base n p : is_net n p → in_net n p (net_IP n).
Proof. intros Hn. split; [done|]. split; [apply Hn|]. pose proof (host_bits_pos n p Hn). lia. Qed.

(** Two networks meet when each begins before the other ends. *)
Lemma nets_meet n1 p1 n2 p2 : is_net n1 p1 → is_net n2 p2 → length (net_IP n1) = length (net_IP n2) →
  (∃ ip, in_net n1 p1 ip ∧ in_net n2 p2 ip) ↔
  value (net_IP n1) < value (net_IP n2) + 2 ^ host_bits n2 p2 ∧ value (net_IP n2) < value (net_IP n1) + 2 ^ host_bits n1 p1.
Proof.
  intros H1 H2 Hlen. split.
  - intros (ip & (_ & _ & ?) & (_ & _ & ?)). lia.
  - intros [Ha Hb]. pose proof (host_bits_pos _ _ H1). pose proof (host_bits_pos _ _ H2).
    destruct (Z.le_ge_cases (value (net_IP n1)) (value (net_IP n2))).
    + exists (net_IP n2). split; [|by apply in_net_base]. split; [done|]. split; [apply H2|lia].
    + exists (net_IP n1). split; [by apply in_net_base|]. split; [done|]. split; [apply H1|lia].
Qed.

(** C27: the overlap of networks is computed twice in the code, by comparing the first
    address of each with the last of the other, and by asking whether one contains
    the first address of the other; for networks of one family, neither of them in the
    block of IPv4 addresses mapped to IPv6, the two agree, and are true exactly when an
    address lies in both networks.  (They differ on [::/0] and [::ffff:1.2.3.4/128],
    see [overlap_mapped].) *)
Theorem networks_overlap_agree n1 p1 n2 p2 :
  is_net n1 p1 → is_net n2 p2 → length (net_IP n1) = length (net_IP n2) →
  unmapped (net_IP n1) → unmapped (net_IP n2) →
  ∃ b, NetworksOverlap (Some n1) (Some n2) = Ok b ∧ Helpers.NetworksOverlap (Some n1) (Some n2) = b
    ∧ (b = true ↔ ∃ ip, in_net n1 p1 ip ∧ in_net n2 p2 ip).
Proof.
  intros H1 H2 Hlen Hu1 Hu2. pose proof (nets_meet _ _ _ _ H1 H2 Hlen) as Hmeet.
  destruct (LastIP_net _ _ H1) as (l1 & Hl1 & Hb1 & Hlen1 & Hv1).
  destruct (LastIP_net _ _ H2) as (l2 & Hl2 & Hb2 & Hlen2 & Hv2).
  eexists. split; [simpl; rewrite Hl1; simpl; rewrite Hl2; reflexivity|].
  pose proof (net_bytes _ _ H1). pose proof (net_bytes _ _ H2).
  rewrite !bytes_le_value by congruence. rewrite Hv1, Hv2.
  pose proof (host_bits_pos _ _ H1). pose proof (host_bits_pos _ _ H2).
  assert (∀ n p, is_net n p → bool_decide (net_Mask n = []) = false) as Hmask.
  { intros n p Hn. apply bool_decide_false. rewrite (net_mask_bytes n p Hn). intros Hm.
    apply (f_equal length) in Hm. rewrite length_mask_bytes in Hm. destruct (net_length _ _ Hn) as [Hl|Hl]; by rewrite Hl in Hm. }
  rewrite Hmeet. clear Hmeet. split.
  - cbn [Helpers.NetworksOverlap]. rewrite (Hmask _ _ H1), (Hmask _ _ H2), !andb_true_r.
    apply eq_bool_prop_intro. rewrite !Is_true_true, orb_true_iff, andb_true_iff, !Z.leb_le.
    rewrite (net_Contains_value n1 p1), (net_Contains_value n2 p2) by (done || congruence).
    unfold in_net. rewrite Hlen. split; [intros [(_ & _ & ?)|(_ & _ & ?)]; lia|].
    intros [? ?]. destruct (Z.le_ge_cases (value (net_IP n1)) (value (net_IP n2))); [left|right];
      (split; [done|]; split; [done|lia]).
  - rewrite andb_true_iff, !Z.leb_le. lia.
Qed.

Lemma bytes_le_zeros k r : is_bytes r → (k <= length r)%nat → bytes_le (replicate k 0) r = true.
Proof.
  intros Hr. revert k. induction Hr as [|b r Hb Hr IH]; intros [|k] Hk; simpl in *; try done; [lia|].
  rewrite IH by lia. unfold is_byte in Hb. destruct (Z.ltb_spec 0 b); [done|]. by replace b with 0 by lia.
Qed.

(** The comparison of bytes does not see the family of a network: an IPv6 network
    overlaps [0.0.0.0/0], unless it begins with [ffff:ffff]; the helper says no. *)
Lemma NetworksOverlap_families n p : is_net n p → length (net_IP n) = 16%nat →
  NetworksOverlap (Some n) (Some (MkIPNet [0; 0; 0; 0] (CIDRMask 0 32))) = Ok (bytes_le (net_IP n) [255; 255; 255; 255]).
Proof.
  intros Hn Hlen. destruct (LastIP_net _ _ Hn) as (r & Hr & Hb & Hl & _). unfold NetworksOverlap.
  assert (LastIP (MkIPNet [0; 0; 0; 0] (CIDRMask 0 32)) = Ok [255; 255; 255; 255]) as -> by done.
  rewrite Hr. cbn [mbind outcome_bind net_IP].
  change [0; 0; 0; 0] with (replicate 4 0). rewrite bytes_le_zeros by (done || lia). by rewrite andb_true_r.
Qed.

(** [IsSubnet] decides inclusion of IPv4 networks. *)
Lemma IsSubnet_v4 n1 p1 n2 p2 : is_net n1 p1 → is_net n2 p2 →
  length (net_IP n1) = 4%nat → length (net_IP n2) = 4%nat →
  ∃ b, IsSubnet (Some n1) (Some n2) = Ok b ∧ (b = true ↔ ∀ ip, in_net n2 p2 ip → in_net n1 p1 ip).
Proof.
  intros H1 H2 Hl1 Hl2. destruct (LastIP_net _ _ H2) as (r & Hr & Hb & Hlen & Hv).
  assert (∀ ip : IP, length ip = 4%nat → unmapped ip) as Hu by (intros ip H4 H16; congruence).
  pose proof (host_bits_pos _ _ H2).
  assert (∀ ip, length ip = 4%nat → is_bytes ip → net_Contains n1 ip = true ↔ in_net n1 p1 ip) as Hc.
  { intros ip Hip Hbs. apply net_Contains_value; auto. congruence. }
  simpl. destruct (net_Contains n1 (net_IP n2)) eqn:Hfirst.
  - rewrite Hr. eexists. split; [reflexivity|]. rewrite Hc in * by (apply H2 || congruence).
    destruct Hfirst as (_ & _ & Hf). split.
    + intros (_ & _ & Hlast) ip (Hip & Hips & Hin). split; [congruence|]. split; [done|lia].
    + intros Hsub. apply Hsub. split; [done|]. split; [done|]. lia.
  - exists false. split; [done|]. split; [done|]. intros Hsub.
    assert (net_Contains n1 (net_IP n2) = true); [|congruence]. apply Hc; [done|apply H2|].
    apply Hsub. by apply in_net_base.
Qed.

(** ** Halves *)

Lemma value_split l i b : l !! i = Some b →
  value l = (value (take i l) * 256 + b) * 256 ^ Z.of_nat (length l - S i) + value (drop (S i) l).
Proof.
  intros Hi. rewrite <-(take_drop_middle l i b Hi) at 1. rewrite value_app. cbn [value length].
  rewrite length_drop, pow256_S. lia.
Qed.

Lemma value_insert l i b c : l !! i = Some b →
  value (<[i := c]> l) = value l + (c - b) * 256 ^ Z.of_nat (length l - S i).
Proof.
  intros Hi. pose proof (lookup_lt_Some _ _ _ Hi) as Hlt.
  rewrite (value_split l i b Hi), (value_split (<[i := c]> l) i c) by (by apply list_lookup_insert_eq).
  rewrite length_insert, take_insert_ge, drop_insert_lt by lia. lia.
Qed.

Lemma lor_bit b k : is_byte b → 0 <= k < 8 → floor2 (k + 1) b = b → Z.lor b (Z.shiftl 1 k) = b + 2 ^ k ∧ is_byte (b + 2 ^ k).
Proof.
  intros Hb Hk Hz.
  set (P := λ b k, negb (floor2 (k + 1) b =? b) || ((Z.lor b (Z.shiftl 1 k) =? b + 2 ^ k) && (0 <=? b + 2 ^ k) && (b + 2 ^ k <? 256))).
  assert (P b k = true) as HP by (apply byte_check2; [vm_compute; reflexivity|done|done]).
  unfold P in HP. rewrite Hz, Z.eqb_refl in HP. unfold is_byte. simpl in HP. lia.
Qed.

(** The bit behind the prefix is zero. *)
Lemma byte_behind n p b : is_net n p → p < 8 * Z.of_nat (length (net_IP n)) →
  net_IP n !! Z.to_nat (p / 8) = Some b → floor2 (8 - p mod 8) b = b.
Proof.
  intros Hn Hp Hb. pose proof (net_base _ _ Hn) as Hz. pose proof (net_prefix _ _ Hn) as Hpre.
  pose proof (value_split _ _ _ Hb) as Hv. set (l := net_IP n) in *. set (i := Z.to_nat (p / 8)) in *.
  pose proof (lookup_lt_Some _ _ _ Hb) as Hlt. set (m := (length l - S i)%nat) in *.
  pose proof (Z.div_mod p 8). pose proof (Z.mod_pos_bound p 8).
  assert (8 * Z.of_nat (length l) - p = 8 * Z.of_nat m + (8 - p mod 8)) as Hh by lia. rewrite Hh in Hz.
  assert (0 <= value (drop (S i) l) < 256 ^ Z.of_nat m) as HD.
  { pose proof (value_bound (drop (S i) l)) as HB. rewrite length_drop in HB. apply HB, Forall_drop, Hn. }
  rewrite Hv, floor2_low in Hz by lia. pose proof (pow256_pos m).
  assert (floor2 (8 - p mod 8) (value (take i l) * 256 + b) = value (take i l) * 256 + b) as Hf by nia.
  pose proof (floor2_high (value (take i l)) 1 b (8 - p mod 8)) as Hhigh. change (256 ^ Z.of_nat 1) with 256 in Hhigh.
  rewrite Hhigh in Hf by lia. lia.
Qed.

(** C28: [SplitCIDR] splits a network into halves: both are networks with a prefix one
    longer, an address lies in the network exactly when it lies in one of them, and
    never in both; only a network of one address has no halves. *)
Theorem SplitCIDR_halves n p : is_net n p →
  if decide (p = 8 * Z.of_nat (length (net_IP n))) then SplitCIDR n = Err (CannotSplit p)
  else ∃ s1 s2, SplitCIDR n = Ok [s1; s2] ∧ is_net s1 (p + 1) ∧ is_net s2 (p + 1)
    ∧ (∀ ip, in_net n p ip ↔ in_net s1 (p + 1) ip ∨ in_net s2 (p + 1) ip)
    ∧ (∀ ip, ¬ (in_net s1 (p + 1) ip ∧ in_net s2 (p + 1) ip)).
Proof.
  intros Hn. unfold SplitCIDR. rewrite (Size_net n p) by done. case_decide as Hp; [by rewrite (proj2 (Z.eqb_eq _ _))|].
  rewrite (proj2 (Z.eqb_neq _ _)) by done. pose proof (net_prefix _ _ Hn) as Hpre.
  set (l := net_IP n) in *. pose proof (Z.div_mod p 8). pose proof (Z.mod_pos_bound p 8).
  assert ((if (p + 1) mod 8 =? 0 then (p + 1) / 8 - 1 else (p + 1) / 8) = p / 8) as ->.
  { destruct (Z.eqb_spec ((p + 1) mod 8) 0); pose proof (Z.div_mod (p + 1) 8); pose proof (Z.mod_pos_bound (p + 1) 8); lia. }
  replace (p + 1 - 1) with p by lia. set (i := Z.to_nat (p / 8)) in *. set (k := 7 - p mod 8) in *.
  destruct (lookup_lt_is_Some_2 l i) as [b Hb]; [unfold i; lia|]. rewrite Hb. simpl.
  pose proof (byte_behind n p b Hn) as Hz. fold l i in Hz. specialize (Hz ltac:(lia) Hb).
  assert (is_byte b) as Hbb by (by eapply (Forall_lookup_1 is_byte l); [apply Hn|]).
  destruct (lor_bit b k) as [Hor Hbyte]; [done|unfold k; lia|by replace (k + 1) with (8 - p mod 8) by (unfold k; lia)|].
  rewrite Hor. set (l2 := <[i := b + 2 ^ k]> l).
  assert (0 <= host_bits n p - 1) as Hh by (unfold host_bits; fold l; lia).
  assert (value l2 = value l + 2 ^ (host_bits n p - 1)) as Hv2.
  { unfold l2. rewrite (value_insert l i b _ Hb), pow256_2.
    replace (b + 2 ^ k - b) with (2 ^ k) by lia. rewrite <-Z.pow_add_r by (unfold k; lia). do 2 f_equal.
    unfold host_bits. fold l. unfold k, i. lia. }
  assert (length l2 = length l) as Hl2 by apply length_insert.
  assert (2 ^ host_bits n p = 2 * 2 ^ (host_bits n p - 1)) as Hpow.
  { rewrite <-Z.pow_succ_r by lia. f_equal. lia. }
  pose proof (net_base _ _ Hn) as Hbase. fold (host_bits n p) in Hbase. fold l in Hbase. unfold floor2 in Hbase.
  set (K := 2 ^ (host_bits n p - 1)) in *. assert (0 < K) as HK by (apply Z.pow_pos_nonneg; lia).
  set (mask := CIDRMask (p + 1) (8 * Z.of_nat (length l))).
  assert (is_net (MkIPNet l mask) (p + 1) ∧ is_net (MkIPNet l2 mask) (p + 1)) as [Hs1 Hs2].
  { split; split; simpl; rewrite ?Hl2; try done; try apply Hn; try lia.
    - unfold floor2. replace (8 * Z.of_nat (length l) - (p + 1)) with (host_bits n p - 1) by (unfold host_bits; fold l; lia).
      fold K. rewrite <-Hbase, Hpow. rewrite Z.mul_assoc, Z.div_mul by lia. lia.
    - apply Forall_insert; [apply Hn|done].
    - unfold floor2. replace (8 * Z.of_nat (length l) - (p + 1)) with (host_bits n p - 1) by (unfold host_bits; fold l; lia).
      fold K. rewrite Hv2, <-Hbase, Hpow.
      replace (value l / (2 * K) * (2 * K) + K) with ((value l / (2 * K) * 2 + 1) * K) by lia.
      rewrite Z.div_mul by lia. done. }
  exists (MkIPNet l mask), (MkIPNet l2 mask). split; [done|]. split; [done|]. split; [done|].
  assert (host_bits (MkIPNet l mask) (p + 1) = host_bits n p - 1) as Hh1 by (unfold host_bits; simpl; fold l; lia).
  assert (host_bits (MkIPNet l2 mask) (p + 1) = host_bits n p - 1) as Hh2 by (unfold host_bits; simpl; rewrite Hl2; fold l; lia).
  unfold in_net. rewrite Hh1, Hh2. simpl. rewrite Hl2, Hv2, Hpow. fold l K. split; intros ip.
  - split; [|intros [?|?]; intuition lia]. intros (? & ? & ?).
    destruct (Z.lt_ge_cases (value ip) (value l + K)); [left|right]; (split; [done|]; split; [done|lia]).
  - intros [(_ & _ & ?) (_ & _ & ?)]. lia.
Qed.

(** ** Expansions *)

(** The address [k] after a given one. *)
Definition nth_address (ip : IP) (k : Z) : IP := encode (length ip) (value ip + k).

Lemma addresses_cons ip k : is_bytes ip → 0 <= k → value ip + 1 < 256 ^ Z.of_nat (length ip) →
  nth_address ip <$> seqZ 0 (k + 1) = ip :: (nth_address (encode (length ip) (value ip + 1)) <$> seqZ 0 k).
Proof.
  intros Hip Hk Hlt. pose proof (value_bound ip Hip). rewrite seqZ_cons by lia. simpl. f_equal.
  { unfold nth_address. by rewrite Z.add_0_r, encode_value. }
  replace (Z.pred (k + 1)) with k by lia. change (Z.succ 0) with (1 + 0).
  rewrite <-fmap_add_seqZ, <-list_fmap_compose. apply list_fmap_ext. intros i j _. unfold nth_address. simpl.
  rewrite length_encode, value_encode by lia. f_equal. lia.
Qed.

Lemma expand_loop_value k ip : is_bytes ip → value ip + Z.of_nat k <= 256 ^ Z.of_nat (length ip) →
  expand_loop k ip = nth_address ip <$> seqZ 0 (Z.of_nat k).
Proof.
  revert ip. induction k as [|k IH]; intros ip Hip Hk; [done|]. cbn [expand_loop].
  rewrite NextIP_value by done. destruct k as [|k].
  { simpl. unfold nth_address. rewrite Z.add_0_r, encode_value by done. by destruct (_ <? _). }
  rewrite (proj2 (Z.ltb_lt _ _)) by lia. pose proof (value_bound ip Hip).
  rewrite IH by (rewrite ?length_encode, ?value_encode; try apply encode_bytes; lia).
  replace (Z.of_nat (S (S k))) with (Z.of_nat (S k) + 1) by lia. symmetry. apply addresses_cons; [done|lia..].
Qed.

(** C29: [ExpandCIDR] lists the addresses of a network, each once and in order, when
    they are at most 4096, and reports larger ones; but the number of addresses is
    computed in 64 bits: a network with exactly 63 bits for hosts panics, and one with
    more gives an empty list and no error. *)
Theorem ExpandCIDR_cases n p : is_net n p →
  let h := host_bits n p in
  if h <=? 12 then ∃ l, ExpandCIDR n = Ok l ∧ l = nth_address (net_IP n) <$> seqZ 0 (2 ^ h)
                     ∧ NoDup l ∧ ∀ ip, ip ∈ l ↔ in_net n p ip
  else if h <=? 62 then ExpandCIDR n = Err (CIDRTooLarge (2 ^ h))
  else if h =? 63 then ExpandCIDR n = Panic
  else ExpandCIDR n = Ok [].
Proof.
  intros Hn h. pose proof (host_bits_pos n p Hn) as Hpos. pose proof (host_bits_nonneg n p Hn) as Hnn. fold h in Hpos, Hnn.
  unfold ExpandCIDR. rewrite (Size_net n p) by done. change (8 * Z.of_nat (length (net_IP n)) - p) with h.
  rewrite Z.shiftl_1_l.
  destruct (Z.leb_spec h 12) as [H12|H12].
  { assert (2 ^ h <= 2 ^ 12) by (apply Z.pow_le_mono_r; lia). rewrite wrap64_id by lia.
    unfold MaxExpandSize. rewrite !(proj2 (Z.ltb_ge _ _)) by lia.
    pose proof (net_last_bound n p Hn) as Hlast. fold h in Hlast. pose proof (value_bound _ (net_bytes _ _ Hn)) as HB.
    rewrite expand_loop_value by (rewrite ?Z2Nat.id by lia; done || apply Hn). rewrite Z2Nat.id by lia.
    eexists. split; [done|]. split; [done|]. split.
    - apply NoDup_fmap_2_strong; [|apply NoDup_seqZ]. intros x y Hx%elem_of_seqZ Hy%elem_of_seqZ Heq.
      apply (f_equal value) in Heq. unfold nth_address in Heq. rewrite !value_encode in Heq by lia. lia.
    - intros ip. rewrite list_elem_of_fmap. split.
      + intros (k & -> & Hk%elem_of_seqZ). apply encode_in_net; [done|]. fold h. lia.
      + intros (Hlen & Hip & Hin). exists (value ip - value (net_IP n)). rewrite elem_of_seqZ. split; [|fold h in Hin; lia].
        unfold nth_address. rewrite <-Hlen, Zplus_minus, encode_value; done. }
  destruct (Z.leb_spec h 62) as [H62|H62].
  { assert (2 ^ 13 <= 2 ^ h <= 2 ^ 62) by (split; apply Z.pow_le_mono_r; lia). rewrite wrap64_id by lia.
    unfold MaxExpandSize. by rewrite (proj2 (Z.ltb_lt _ _)) by lia. }
  destruct (Z.eqb_spec h 63) as [->|H63]; [done|].
  assert (wrap64 (2 ^ h) = 0) as ->; [|done].
  unfold wrap64. replace (2 ^ h) with (2 ^ (h - 64) * 2 ^ 64) by (rewrite <-Z.pow_add_r; [f_equal|..]; lia).
  rewrite Z.add_comm, Z_mod_plus_full. done.
Qed.

Lemma range_ips_value turns ip last : is_bytes ip → is_bytes last → length ip = length last → value ip <= value last →
  range_ips turns ip last =
    if value last - value ip <? Z.of_nat turns then Ok (nth_address ip <$> seqZ 0 (value last - value ip + 1))
    else Err IPRangeTooLarge.
Proof.
  intros Hip Hlast. revert ip Hip. induction turns as [|turns IH]; intros ip Hip Hlen Hle; cbn [range_ips].
  { by rewrite (proj2 (Z.ltb_ge _ _)) by lia. }
  case_decide as Heq.
  { subst. rewrite Z.sub_diag, (proj2 (Z.ltb_lt _ _)) by lia. simpl. unfold nth_address. by rewrite Z.add_0_r, encode_value. }
  assert (value ip ≠ value last) as Hne by (intros Hv; by apply Heq, value_inj).
  pose proof (value_bound last Hlast) as HB. pose proof (value_bound ip Hip). rewrite <-Hlen in HB.
  rewrite NextIP_value by done. rewrite (proj2 (Z.ltb_lt (value ip + 1) _)) by lia.
  rewrite IH by (rewrite ?length_encode, ?value_encode; try apply encode_bytes; done || lia).
  rewrite value_encode by lia.
  assert ((value last - (value ip + 1) <? Z.of_nat turns) = (value last - value ip <? Z.of_nat (S turns))) as ->
    by (apply eq_bool_prop_intro; rewrite !Is_true_true, !Z.ltb_lt; lia).
  destruct (_ <? _); [|done]. simpl. f_equal.
  rewrite <-addresses_cons by (done || lia). do 2 f_equal. lia.
Qed.
