(* ===== verification/NetworkText.v ===== *)
(** Ranges of addresses and of ports in texts: what parsing them gives.

    Concrete networks at which the theorems on network arithmetic apply. *)
From S2P Require Import Prelude.
From S2P Require Import GoText.
From S2P Require Import GoNet.
From S2P Require Import Network.
From S2P Require Import NetworkSpec.
From Stdlib Require Import Ascii.
Local Open Scope Z_scope.

(** ** Parsed addresses have sixteen bytes *)

Lemma ipv4_field_byte s v : ipv4_field s = Some v → is_byte v.
Proof.
  unfold ipv4_field. destruct (bool_decide _); [done|]. destruct (all_digits s) eqn:Hs; [|done].
  destruct (_ && _); [done|]. simpl. destruct (Z.ltb_spec 255 (digits_value s)); [done|].
  intros [= <-]. pose proof (digits_value_nonneg s Hs). unfold is_byte. lia.
Qed.

Lemma parseIPv4_bytes s ip : parseIPv4 s = Some ip → is_bytes ip ∧ length ip = 4%nat.
Proof.
  unfold parseIPv4. destruct (mapM ipv4_field (Split "."%char s)) as [l|] eqn:Hl; [|done].
  apply mapM_Some in Hl. assert (is_bytes l) as Hb.
  { clear -Hl. induction Hl as [|x y l k Hx _ IH]; constructor; [|done]. by eapply ipv4_field_byte. }
  destruct l as [|a [|b [|c [|d [|e l]]]]]; intros [= <-]. done.
Qed.

Lemma hex_value_bound c v : hex_value c = Some v → 0 <= v < 16.
Proof.
  unfold hex_value. destruct (is_digit c) eqn:Hd.
  { intros [= <-]. pose proof (is_digit_value c Hd). lia. }
  unfold byte_in. change (byte "a") with 97. change (byte "f") with 102. change (byte "A") with 65. change (byte "F") with 70.
  destruct (_ && _) eqn:H1; [intros [= <-]; lia|]. destruct ((65 <=? _) && _) eqn:H2; [intros [= <-]; lia|done].
Qed.

Lemma hex_group_bound acc off s v n rest : hex_group acc off s = (v, n, rest) →
  0 <= acc < 16 ^ Z.of_nat off → 0 <= v < 16 ^ Z.of_nat n.
Proof.
  revert acc off. induction s as [|c s IH]; intros acc off; simpl; [by intros [= -> -> _]|].
  destruct (hex_value c) as [x|] eqn:Hx; [|by intros [= -> -> _]]. intros Hg Hacc.
  apply hex_value_bound in Hx. eapply IH; [exact Hg|]. rewrite Nat2Z.inj_succ, Z.pow_succ_r by lia. lia.
Qed.

Lemma ipv6_loop_bytes n ip ell s ip' ell' rest : ipv6_loop n ip ell s = Some (ip', ell', rest) →
  is_bytes ip → (length ip + 2 * n <= 16)%nat → (∀ e, ell = Some e → (e <= length ip)%nat) →
  is_bytes ip' ∧ (length ip' <= 16)%nat ∧ (∀ e, ell' = Some e → (e <= length ip')%nat).
Proof.
  revert ip ell s. induction n as [|n IH]; intros ip ell s; simpl; [intros [= <- <- _] ? ? ?; split_and!; [done|lia|done]|].
  destruct (hex_group 0 0 s) as [[v off] s'] eqn:Hg. destruct (_ || _) eqn:Hoff; [done|].
  apply orb_false_iff in Hoff as [Hoff1 Hoff2]. apply Nat.ltb_ge in Hoff2.
  assert (is_byte (v / 256) ∧ is_byte (v mod 256)) as [Hb1 Hb2].
  { apply hex_group_bound in Hg; [|done]. assert (16 ^ Z.of_nat off <= 16 ^ 4) by (apply Z.pow_le_mono_r; lia).
    unfold is_byte. pose proof (Z.mod_pos_bound v 256). split; [|lia]. split; [apply Z.div_pos; lia|].
    apply Z.div_lt_upper_bound; lia. }
  set (ip2 := ip ++ [v / 256; v mod 256]).
  assert (length ip2 = (length ip + 2)%nat) as Hl2 by (unfold ip2; rewrite length_app; done).
  assert (∀ e : option nat, (∀ x, e = Some x → (x <= length ip)%nat) → ∀ x, e = Some x → (x <= length ip2)%nat) as Hell.
  { intros e He x Hx. specialize (He x Hx). rewrite Hl2. lia. }
  assert (is_bytes ip → is_bytes ip2) as Hip2.
  { intros. unfold ip2. apply Forall_app_2; [done|]. constructor; [done|]. constructor; [done|constructor]. }
  destruct s' as [|c s'].
  { intros [= <- <- <-] ? ? ?. split_and!; [auto|rewrite Hl2; lia|by apply Hell]. }
  destruct (decide (c = "."%char)) as [->|Hdot].
  { destruct (_ && _); [done|]. destruct (16 <? length ip + 4)%nat eqn:H16; [done|]. apply Nat.ltb_ge in H16.
    destruct (parseIPv4 s) as [v4|] eqn:Hv4; [|done]. apply parseIPv4_bytes in Hv4 as [Hv4 Hl4].
    intros [= <- <- <-] ? ? He. split_and!; [by apply Forall_app_2|rewrite length_app; lia|].
    intros e ->. rewrite length_app. specialize (He e eq_refl). lia. }
  intros Hrun.
  assert (match String c s' with
          | String ":" "" => None
          | String ":" (String ":" s'') =>
              if bool_decide (is_Some ell) then None
              else if decide (s'' = "") then Some (ip2, Some (length ip2), "")
              else ipv6_loop n ip2 (Some (length ip2)) s''
          | String ":" s'' => ipv6_loop n ip2 ell s''
          | _ => None
          end = Some (ip', ell', rest)) as Hrun'.
  { destruct c as [[] [] [] [] [] [] [] []]; done. }
  clear Hrun. intros Hip Hlen He.
  destruct (decide (c = ":"%char)) as [->|Hcol]; [|by destruct c as [[] [] [] [] [] [] [] []]].
  destruct s' as [|c s']; [done|]. destruct (decide (c = ":"%char)) as [->|Hcol].
  - destruct (bool_decide _); [done|]. case_decide.
    + injection Hrun' as <- <- <-. split_and!; [auto|rewrite Hl2; lia|]. by intros e [= <-].
    + eapply IH; [exact Hrun'|auto|rewrite Hl2; lia|]. by intros e [= <-].
  - eapply IH; [|auto|rewrite Hl2; lia|by apply Hell].
    destruct c as [[] [] [] [] [] [] [] []]; (exact Hrun' || done).
Qed.

Lemma parseIPv6_bytes s ip : parseIPv6 s = Some ip → is_bytes ip ∧ length ip = 16%nat.
Proof.
  unfold parseIPv6.
  assert (∀ (o : option (IP * option nat * string)) a,
    (∀ ip' ell' rest, o = Some (ip', ell', rest) →
      is_bytes ip' ∧ (length ip' <= 16)%nat ∧ (∀ e, ell' = Some e → (e <= length ip')%nat)) →
    match o with
    | Some (ip, ellipsis, "") =>
        if (length ip <? 16)%nat then
          match ellipsis with
          | None => None
          | Some e => Some (take e ip ++ replicate (16 - length ip) 0 ++ drop e ip)
          end
        else if bool_decide (is_Some ellipsis) then None else Some ip
    | _ => None
    end = Some a → is_bytes a ∧ length a = 16%nat) as Hend.
  { intros [[[ip' ell] rest]|] a Ho; [|done]. destruct (Ho _ _ _ eq_refl) as (Hb & Hl & He).
    destruct rest; [|done]. destruct (length ip' <? 16)%nat eqn:Hlt.
    - destruct ell as [e|]; [|done]. intros [= <-]. specialize (He e eq_refl). split.
      + apply Forall_app_2; [by apply Forall_take|]. apply Forall_app_2; [|by apply Forall_drop].
        by apply Forall_replicate.
      + rewrite !length_app, length_take, length_replicate, length_drop. lia.
    - apply Nat.ltb_ge in Hlt. destruct (bool_decide _); [done|]. intros [= <-]. split; [done|lia]. }
  apply Hend. intros ip' ell' rest. destruct (String.prefix "::" s).
  - case_decide.
    + intros [= <- <- _]. split; [constructor|]. split; [simpl; lia|]. by intros e [= <-].
    + intros Hr. eapply ipv6_loop_bytes; [exact Hr|constructor|simpl; lia|]. by intros e [= <-].
  - intros Hr. eapply ipv6_loop_bytes; [exact Hr|constructor|simpl; lia|done].
Qed.

Lemma ParseIP_bytes s ip : ParseIP s = Some ip → is_bytes ip ∧ length ip = 16%nat.
Proof.
  unfold ParseIP. destruct (first_mark s) as [c|]; [|done].
  destruct (decide (c = "."%char)) as [->|Hdot].
  { destruct (parseIPv4 s) as [v4|] eqn:Hv4; [|done]. apply parseIPv4_bytes in Hv4 as [Hb Hl].
    intros Heq. apply (inj Some) in Heq as <-. split; [|rewrite length_app, Hl; done]. apply Forall_app_2; [|done].
    apply Forall_app_2; [by apply Forall_replicate|]. by repeat constructor. }
  destruct (decide (c = ":"%char)) as [->|Hcol].
  { destruct (has_byte "%" s); [done|]. apply parseIPv6_bytes. }
  destruct c as [[] [] [] [] [] [] [] []]; done.
Qed.

(** ** Ranges of addresses *)

(** [ExpandIPRange] on two addresses joined by a dash gives the addresses from the
    first to the second in order, when they are at most 4096; it reports a first
    address after the second and longer ranges.  It always returns. *)
Lemma ExpandIPRange_lists s e a b :
  has_byte "-" s = false → has_byte "-" e = false →
  ParseIP (TrimSpace s) = Some a → ParseIP (TrimSpace e) = Some b →
  ExpandIPRange (s +:+ "-" +:+ e) =
    if value b <? value a then Err (StartAfterEnd a b)
    else if value b - value a <? MaxExpandSize then Ok (nth_address a <$> seqZ 0 (value b - value a + 1))
    else Err IPRangeTooLarge.
Proof.
  intros Hs He Ha Hb. unfold ExpandIPRange. change ("-" +:+ e) with (String "-" e).
  rewrite Split_app, Split_none, Ha, Hb by done.
  destruct (ParseIP_bytes _ _ Ha) as [Hab Hal]. destruct (ParseIP_bytes _ _ Hb) as [Hbb Hbl].
  rewrite bytes_le_value by congruence.
  destruct (Z.leb_spec (value a) (value b)).
  - rewrite (proj2 (Z.ltb_ge _ _)) by done. apply range_ips_value; congruence.
  - by rewrite (proj2 (Z.ltb_lt _ _)).
Qed.

(** ** Port ranges *)

(** What is written between the commas: a port or a range of ports. *)
Inductive ports : Type := OnePort (p : Z) | PortRange (a b : Z).

Definition render (it : ports) : string :=
  match it with OnePort p => decimal p | PortRange a b => decimal a +:+ "-" +:+ decimal b end.

Definition covers (it : ports) (p : Z) : Prop :=
  match it with OnePort q => p = q | PortRange a b => a <= p <= b end.

Definition valid_ports (it : ports) : Prop :=
  match it with OnePort p => 1 <= p <= 65535 | PortRange a b => 1 <= a ∧ a <= b ∧ b <= 65535 end.

Lemma render_graphic it : valid_ports it → all_graphic (render it).
Proof.
  destruct it as [p|a b]; simpl; intros Hv.
  - apply digits_graphic, decimal_digits. lia.
  - apply all_graphic_app. split; [apply digits_graphic, decimal_digits; lia|]. split; [by compute|].
    apply digits_graphic, decimal_digits. lia.
Qed.

Lemma render_no_comma it : valid_ports it → has_byte "," (render it) = false.
Proof.
  destruct it as [p|a b]; simpl; intros Hv.
  - apply digits_no_byte; [done|]. apply decimal_digits. lia.
  - rewrite has_byte_app. simpl. rewrite !digits_no_byte; try done; apply decimal_digits; lia.
Qed.

Lemma render_nonempty it : valid_ports it → render it ≠ "".
Proof.
  destruct it as [p|a b]; simpl; intros Hv; [apply decimal_positive; lia|].
  pose proof (decimal_positive a ltac:(lia)). by destruct (decimal a).
Qed.

Lemma port_part_render it S : valid_ports it →
  ∃ S', port_part (render it) S = Ok S' ∧ ∀ p, p ∈ S' ↔ covers it p ∨ p ∈ S.
Proof.
  intros Hv. unfold port_part. rewrite TrimSpace_graphic by (by apply render_graphic).
  rewrite decide_False by (by apply render_nonempty).
  rewrite Contains_byte. destruct it as [p|a b]; simpl in *.
  - rewrite digits_no_byte by (done || apply decimal_digits; lia).
    rewrite Atoi_decimal by (unfold max_int; lia). rewrite !(proj2 (Z.ltb_ge _ _)) by lia. simpl.
    eexists. split; [done|]. set_solver.
  - rewrite has_byte_app. simpl. rewrite orb_true_r.
    change ("-" +:+ decimal b) with (String "-" (decimal b)).
    rewrite Split_app, Split_none by (apply digits_no_byte; [done|]; apply decimal_digits; lia).
    rewrite !TrimSpace_graphic by (apply digits_graphic, decimal_digits; lia).
    rewrite !Atoi_decimal by (unfold max_int; lia). rewrite !(proj2 (Z.ltb_ge _ _)) by lia. simpl.
    eexists. split; [done|]. intros p. rewrite elem_of_union, elem_of_list_to_set, elem_of_seqZ.
    assert (a <= p < a + (b - a + 1) ↔ a <= p <= b) as -> by lia. tauto.
Qed.

Lemma port_parts_render its S : Forall valid_ports its →
  ∃ S', port_parts (render <$> its) S = Ok S' ∧ ∀ p, p ∈ S' ↔ (∃ it, it ∈ its ∧ covers it p) ∨ p ∈ S.
Proof.
  intros Hv. revert S. induction Hv as [|it its Hit _ IH]; intros S.
  { exists S. split; [done|]. set_solver. }
  destruct (port_part_render it S Hit) as (S1 & Hr & H1). destruct (IH S1) as (S2 & Hr2 & H2).
  exists S2. split; [simpl; by rewrite Hr|]. intros p. rewrite H2, H1. setoid_rewrite elem_of_cons. naive_solver.
Qed.

Lemma Split_Join c (l : list string) : l ≠ [] → Forall (λ x, has_byte c x = false) l →
  Split c (Join l (String c "")) = l.
Proof.
  intros Hne Hl. induction Hl as [|x l Hx Hl IH]; [done|]. destruct l as [|y l].
  { simpl. by apply Split_none. }
  change (Join (x :: y :: l) (String c "")) with (x +:+ String c (Join (y :: l) (String c ""))).
  rewrite Split_app by done. by rewrite IH.
Qed.

(** [ParsePortRange] reads a list of ports and ranges of ports back: it gives the
    ports that are listed or lie in a listed range, each once and in increasing order,
    whatever order Go's map gives them in. *)
Theorem ParsePortRange_reads its : Forall valid_ports its →
  ∃ l, ParsePortRange (Join (render <$> its) ",") = Ok l ∧ StronglySorted Z.lt l
    ∧ ∀ p, p ∈ l ↔ ∃ it, it ∈ its ∧ covers it p.
Proof.
  intros Hv. unfold ParsePortRange. case_decide as Hempty.
  { exists []. split; [done|]. split; [constructor|]. destruct its as [|it its]; [set_solver|]. exfalso.
    apply Forall_cons in Hv as [Hit _]. pose proof (render_nonempty it Hit). destruct its; [done|].
    simpl in Hempty. by destruct (render it). }
  assert (its ≠ []) as Hne by (by intros ->).
  rewrite Split_Join; [|by destruct its|].
  - destruct (port_parts_render its ∅ Hv) as (S & -> & HS). simpl. eexists. split; [done|].
    pose proof (merge_sort_Permutation Z.le (elements S)) as Hperm. split.
    + assert (NoDup (merge_sort Z.le (elements S))) as Hnd by (rewrite Hperm; apply NoDup_elements).
      assert (StronglySorted Z.le (merge_sort Z.le (elements S))) as Hs by (apply StronglySorted_merge_sort; apply _).
      revert Hnd Hs. generalize (merge_sort Z.le (elements S)). intros l Hnd Hs.
      induction Hs as [|x l Hs IH Hx]; [constructor|]. apply NoDup_cons in Hnd as [Hnin Hnd]. constructor; [auto|].
      rewrite Forall_forall in *. intros y Hy. specialize (Hx y Hy). assert (x ≠ y) by (by intros ->). lia.
    + intros p. rewrite Hperm, elem_of_elements, HS. set_solver.
  - rewrite Forall_fmap. eapply Forall_impl; [exact Hv|]. apply render_no_comma.
Qed.

Local Open Scope Z_scope.

(** The pods, [10.244.0.0/16], the services, [10.96.0.0/12], and a part of the pods. *)
Definition w_pods : IPNet := MkIPNet [10; 244; 0; 0] (CIDRMask 16 32).
Definition w_services : IPNet := MkIPNet [10; 96; 0; 0] (CIDRMask 12 32).
Definition w_node : IPNet := MkIPNet [10; 244; 3; 0] (CIDRMask 24 32).
Definition w_lan : IPNet := MkIPNet ([0xfd; 0x00] ++ replicate 14 0) (CIDRMask 65 128).

Ltac network := split; [simpl; auto|repeat constructor; discriminate|simpl; lia|reflexivity|reflexivity].

Lemma w_pods_net : is_net w_pods 16. Proof. network. Defined.
Lemma w_services_net : is_net w_services 12. Proof. network. Defined.
Lemma w_node_net : is_net w_node 24. Proof. network. Defined.
Lemma w_lan_net : is_net w_lan 65. Proof. network. Defined.

Lemma networks_overlap_agree_witness :
  (∃ b, NetworksOverlap (Some w_pods) (Some w_services) = Ok b ∧ Helpers.NetworksOverlap (Some w_pods) (Some w_services) = b
    ∧ (b = true ↔ ∃ ip, in_net w_pods 16 ip ∧ in_net w_services 12 ip))
  ∧ (∃ b, NetworksOverlap (Some w_pods) (Some w_node) = Ok b ∧ Helpers.NetworksOverlap (Some w_pods) (Some w_node) = b
    ∧ (b = true ↔ ∃ ip, in_net w_pods 16 ip ∧ in_net w_node 24 ip))
  ∧ NetworksOverlap (Some w_pods) (Some w_services) = Ok false ∧ NetworksOverlap (Some w_pods) (Some w_node) = Ok true.
Proof.
  split; [|split; [|split; vm_compute; reflexivity]].
  - apply (networks_overlap_agree w_pods 16 w_services 12 w_pods_net w_services_net eq_refl); discriminate.
  - apply (networks_overlap_agree w_pods 16 w_node 24 w_pods_net w_node_net eq_refl); discriminate.
Defined.

Lemma SplitCIDR_halves_witness :
  ∃ s1 s2, SplitCIDR w_node = Ok [s1; s2] ∧ is_net s1 25 ∧ is_net s2 25
    ∧ (∀ ip, in_net w_node 24 ip ↔ in_net s1 25 ip ∨ in_net s2 25 ip)
    ∧ (∀ ip, ¬ (in_net s1 25 ip ∧ in_net s2 25 ip)).
Proof. exact (SplitCIDR_halves w_node 24 w_node_net). Defined.

Lemma ExpandCIDR_cases_witness :
  (∃ l, ExpandCIDR w_node = Ok l ∧ l = nth_address [10; 244; 3; 0] <$> seqZ 0 256
    ∧ NoDup l ∧ ∀ ip, ip ∈ l ↔ in_net w_node 24 ip)
  ∧ ExpandCIDR w_pods = Err (CIDRTooLarge 65536) ∧ ExpandCIDR w_lan = Panic.
Proof.
  split; [|split].
  - exact (ExpandCIDR_cases w_node 24 w_node_net).
  - exact (ExpandCIDR_cases w_pods 16 w_pods_net).
  - exact (ExpandCIDR_cases w_lan 65 w_lan_net).
Defined.

Lemma ParsePortRange_reads_witness :
  ∃ l, ParsePortRange "443,80-82,81" = Ok l ∧ StronglySorted Z.lt l
    ∧ ∀ p, p ∈ l ↔ ∃ it, it ∈ [OnePort 443; PortRange 80 82; OnePort 81] ∧ covers it p.
Proof.
  apply (ParsePortRange_reads [OnePort 443; PortRange 80 82; OnePort 81]).
  repeat constructor; simpl; lia.
Defined.

(** All of IPv6, and an address of IPv4 mapped to it: the two computations differ. *)
Definition w_all6 : IPNet := MkIPNet (replicate 16 0) (replicate 16 0).
Definition w_mapped : IPNet := MkIPNet (replicate 10 0 ++ [255; 255; 1; 2; 3; 4]) (replicate 16 255).

Example overlap_mapped :
  NetworksOverlap (Some w_all6) (Some w_mapped) = Ok true ∧ Helpers.NetworksOverlap (Some w_all6) (Some w_mapped) = false.
Proof. split; vm_compute; reflexivity. Qed.
