(* ===== verification/Validators.v ===== *)
(** The predicates on texts of [apis/kubexms/v1alpha1/helpers/validation.go] and
    [util/validation.go].

    What the predicates on names accept, said without regular expressions, and how
    the two packages that hold a copy compare.

    Regular expressions of Go's [regexp] that are anchored at both ends: their
    language, and a matcher by derivatives proved to decide it. *)
From S2P Require Import Prelude.
From S2P Require Import GoText.
From S2P Require Import GoNet.
From Stdlib Require Import Ascii.

(** [Class f]: one byte of a class; no class of the code holds a byte outside
    ASCII, so matching bytes is matching runes. *)
Inductive regex : Type :=
| Void
| Eps
| Class (f : ascii → bool)
| Cat (r s : regex)
| Alt (r s : regex)
| Star (r : regex).

(** ** The language *)

Inductive matches : regex → string → Prop :=
| matches_eps : matches Eps ""
| matches_class f c : f c = true → matches (Class f) (String c "")
| matches_cat r s x y : matches r x → matches s y → matches (Cat r s) (x +:+ y)
| matches_alt_l r s x : matches r x → matches (Alt r s) x
| matches_alt_r r s x : matches s x → matches (Alt r s) x
| matches_star_nil r : matches (Star r) ""
| matches_star_cons r x y : matches r x → matches (Star r) y → matches (Star r) (x +:+ y).

(** ** The matcher *)

Fixpoint nullable (r : regex) : bool :=
  match r with
  | Void | Class _ => false
  | Eps | Star _ => true
  | Cat r s => nullable r && nullable s
  | Alt r s => nullable r || nullable s
  end.

(** Constructors that drop what cannot match, to keep derivatives small. *)
Definition cat (r s : regex) : regex :=
  match r, s with
  | Void, _ | _, Void => Void
  | Eps, s => s
  | r, Eps => r
  | r, s => Cat r s
  end.

Definition alt (r s : regex) : regex :=
  match r, s with Void, s => s | r, Void => r | r, s => Alt r s end.

Fixpoint deriv (c : ascii) (r : regex) : regex :=
  match r with
  | Void | Eps => Void
  | Class f => if f c then Eps else Void
  | Cat r s => if nullable r then alt (cat (deriv c r) s) (deriv c s) else cat (deriv c r) s
  | Alt r s => alt (deriv c r) (deriv c s)
  | Star r => cat (deriv c r) (Star r)
  end.

(** [re.MatchString(s)] *)
Fixpoint MatchString (r : regex) (s : string) : bool :=
  match s with "" => nullable r | String c s => MatchString (deriv c r) s end.

(** ** Abbreviations of the syntax *)

Definition chr (c : ascii) : regex := Class (λ d, bool_decide (d = c)).
Definition plus (r : regex) : regex := Cat r (Star r).
Definition opt (r : regex) : regex := Alt r Eps.

Fixpoint times (n : nat) (r : regex) : regex :=
  match n with 0 => Eps | S n => Cat r (times n r) end.

Fixpoint at_most (n : nat) (r : regex) : regex :=
  match n with 0 => Eps | S n => opt (Cat r (at_most n r)) end.

Definition between (m n : nat) (r : regex) : regex := Cat (times m r) (at_most (n - m) r).

Fixpoint text (s : string) : regex :=
  match s with "" => Eps | String c s => Cat (chr c) (text s) end.

(** Classes of characters. *)
Definition lower (c : ascii) : bool := byte_in "a" "z" c.
Definition upper (c : ascii) : bool := byte_in "A" "Z" c.
Definition one_of (l : list ascii) (c : ascii) : bool := bool_decide (c ∈ l).

(** ** Correctness *)

#[export] Hint Constructors matches : kubexm.

Lemma matches_void_inv x : ¬ matches Void x.
Proof. inversion 1. Qed.

Lemma matches_cat_inv r s x : matches (Cat r s) x → ∃ y z, x = y +:+ z ∧ matches r y ∧ matches s z.
Proof. inversion 1; subst; eauto. Qed.

Lemma matches_alt_iff r s x : matches (Alt r s) x ↔ matches r x ∨ matches s x.
Proof. split; [inversion 1; subst; eauto|intros [|]; eauto with kubexm]. Qed.

Lemma cat_spec r s x : matches (cat r s) x ↔ matches (Cat r s) x.
Proof.
  assert (∀ t, matches (Cat Eps t) x ↔ matches t x) as Hl.
  { intros t. split.
    - intros (y & z & -> & Hy & Hz)%matches_cat_inv. inversion Hy; subst. exact Hz.
    - intros Ht. change x with ("" +:+ x). eauto with kubexm. }
  assert (∀ t, matches (Cat t Eps) x ↔ matches t x) as Hr.
  { intros t. split.
    - intros (y & z & -> & Hy & Hz)%matches_cat_inv. inversion Hz; subst. by rewrite str_app_nil_r.
    - intros Ht. rewrite <-(str_app_nil_r x). eauto with kubexm. }
  assert (∀ t, ¬ matches (Cat Void t) x ∧ ¬ matches (Cat t Void) x) as Hv.
  { intros t. split; intros (y & z & _ & Hy & Hz)%matches_cat_inv;
      [by apply matches_void_inv in Hy|by apply matches_void_inv in Hz]. }
  destruct r; destruct s; simpl; rewrite ?Hl, ?Hr; try done;
    (split; [by intros []%matches_void_inv|by intros Hc; exfalso; revert Hc; apply Hv]).
Qed.

Lemma alt_spec r s x : matches (alt r s) x ↔ matches r x ∨ matches s x.
Proof.
  pose proof (matches_void_inv x). rewrite <-matches_alt_iff.
  destruct r; destruct s; simpl; rewrite ?matches_alt_iff; tauto.
Qed.

Lemma nullable_spec r : nullable r = true ↔ matches r "".
Proof.
  induction r as [| |f|r IHr s IHs|r IHr s IHs|r IH]; simpl.
  - split; [done|by intros ?%matches_void_inv].
  - split; eauto with kubexm.
  - split; [done|inversion 1].
  - rewrite andb_true_iff, IHr, IHs. split.
    + intros [Hr Hs]. change "" with ("" +:+ ""). eauto with kubexm.
    + intros (y & z & Heq & Hy & Hz)%matches_cat_inv. by destruct y, z.
  - by rewrite orb_true_iff, IHr, IHs, matches_alt_iff.
  - split; eauto with kubexm.
Qed.

(** A non-empty repetition starts with a non-empty match. *)
Lemma matches_star_head r c x :
  matches (Star r) (String c x) →
  ∃ y z, x = y +:+ z ∧ matches r (String c y) ∧ matches (Star r) z.
Proof.
  remember (Star r) as q eqn:Hq. remember (String c x) as w eqn:Hw.
  intros Hm. revert Hq x Hw. induction Hm as [| | | | | |r' y z Hy IHy Hz IHz]; intros Hq u Hw; try done.
  injection Hq as ->. destruct y as [|d y].
  - by apply IHz.
  - rewrite str_app_cons in Hw. injection Hw as -> <-. eauto.
Qed.

Lemma deriv_spec c r x : matches (deriv c r) x ↔ matches r (String c x).
Proof.
  revert x. induction r as [| |f|r IHr s IHs|r IHr s IHs|r IH]; intros x; simpl.
  - split; by intros ?%matches_void_inv.
  - split; [by intros ?%matches_void_inv|inversion 1].
  - destruct (f c) eqn:Hf; split.
    + inversion 1. eauto with kubexm.
    + inversion 1; subst. eauto with kubexm.
    + by intros ?%matches_void_inv.
    + inversion 1; congruence.
  - assert (matches (Cat r s) (String c x) ↔
      matches (cat (deriv c r) s) x ∨ nullable r = true ∧ matches (deriv c s) x) as ->.
    { rewrite cat_spec, IHs, nullable_spec. split.
      - intros (y & z & Heq & Hy & Hz)%matches_cat_inv. destruct y as [|d y].
        + right. rewrite str_app_nil_l in Heq. by subst.
        + left. rewrite str_app_cons in Heq. injection Heq as <- ->. constructor; [by apply IHr|done].
      - intros [(y & z & -> & Hy%IHr & Hz)%matches_cat_inv|[Hr Hs]].
        + rewrite <-str_app_cons. eauto with kubexm.
        + change (String c x) with ("" +:+ String c x). eauto with kubexm. }
    destruct (nullable r); [rewrite alt_spec|]; naive_solver.
  - by rewrite alt_spec, matches_alt_iff, IHr, IHs.
  - rewrite cat_spec. split.
    + intros (y & z & -> & Hy%IH & Hz)%matches_cat_inv. rewrite <-str_app_cons. eauto with kubexm.
    + intros (y & z & -> & Hy & Hz)%matches_star_head. constructor; [by apply IH|done].
Qed.

(** The matcher decides the language. *)
Lemma MatchString_spec r x : MatchString r x = true ↔ matches r x.
Proof.
  revert r. induction x as [|c x IH]; intros r; simpl; [by apply nullable_spec|].
  by rewrite IH, deriv_spec.
Qed.

(** ** The regular expressions, the same in both packages *)

Section regexes.
Let digit : regex := Class is_digit.
Let alnum (c : ascii) : bool := lower c || upper c || is_digit c.
Let lower_num (c : ascii) : bool := lower c || is_digit c.
Let dot : regex := chr ".".

(** [a-zA-Z0-9]([a-zA-Z0-9-]{0,61}[a-zA-Z0-9])? *)
Let label : regex :=
  Cat (Class alnum)
    (opt (Cat (between 0 61 (Class (λ c, alnum c || one_of ["-"%char] c))) (Class alnum))).

(** [a-z0-9]([-a-z0-9]*[a-z0-9])? *)
Let dns_label : regex :=
  Cat (Class lower_num)
    (opt (Cat (Star (Class (λ c, lower_num c || one_of ["-"%char] c))) (Class lower_num))).

Definition k8sNameRegexStr : regex := Cat dns_label (Star (Cat dot dns_label)).

Definition validHostnameRegex : regex := Cat label (Star (Cat dot label)).

Definition validDomainNameRegex : regex :=
  let part := Alt label (Class alnum) in
  Cat part (Cat (Star (Cat dot part)) (opt dot)).

Definition validChartVersionRegex : regex :=
  Cat (opt (chr "v")) (Cat (plus digit) (at_most 2 (Cat dot (plus digit)))).

Definition validSemanticVersionRegex : regex :=
  let ident := plus (Class (λ c, alnum c || one_of ["-"%char] c)) in
  let idents := Cat ident (Star (Cat dot ident)) in
  Cat (opt (chr "v")) (Cat (plus digit) (Cat dot (Cat (plus digit) (Cat dot (Cat (plus digit)
    (Cat (opt (Cat (chr "-") idents)) (opt (Cat (chr "+") idents)))))))).

Definition usernameRegex : regex :=
  Cat (Class (λ c, lower c || one_of ["_"%char] c))
    (between 0 31 (Class (λ c, lower_num c || one_of ["_"; "-"]%char c))).

Definition k8sNameRegex : regex := dns_label.

Definition k8sLabelRegex : regex :=
  Cat (Class alnum)
    (opt (Cat (Star (Class (λ c, alnum c || one_of ["-"; "_"; "."]%char c))) (Class alnum))).

Definition emailRegex : regex :=
  Cat (plus (Class (λ c, alnum c || one_of ["."; "_"; "%"; "+"; "-"]%char c)))
    (Cat (chr "@") (Cat (plus (Class (λ c, alnum c || one_of ["."; "-"]%char c)))
      (Cat dot (Cat (times 2 (Class (λ c, lower c || upper c))) (Star (Class (λ c, lower c || upper c))))))).

Let word_part : regex := Cat (Class alnum) (Star (Class (λ c, alnum c || one_of ["_"; "."; "-"]%char c))).

(** An image's tag or digest. *)
Let image_version : regex :=
  opt (Alt
    (Cat (chr ":") (Cat (Class (λ c, alnum c || one_of ["_"%char] c))
      (Star (Class (λ c, alnum c || one_of ["_"; "."; "-"]%char c)))))
    (Cat (text "@sha256:") (times 64 (Class (λ c, byte_in "a" "f" c || byte_in "A" "F" c || is_digit c))))).

Definition imageReferenceRegex : regex :=
  Alt (Cat word_part image_version)
    (Cat (opt (Cat (plus (Class (λ c, alnum c || one_of ["."; "-"]%char c)))
                (Cat (opt (Cat (chr ":") (plus digit))) (chr "/"))))
      (Cat (Star (Cat word_part (chr "/"))) (Cat word_part image_version))).

(** The segments of a version that are neither numbers nor empty. *)
Definition isAlphanumericHyphenSegment (s : string) : bool :=
  negb (bool_decide (s = "")) && negb (String.prefix "-" s)
  && negb (bool_decide (last_byte s = Some "-"%char)) && negb (Contains s "--")
  && MatchString (Star (Class (λ c, alnum c || one_of ["-"%char] c))) s.
End regexes.

Definition isNumericSegment (s : string) : bool := bool_decide (s ≠ "") && bool_decide (is_Some (Atoi s)).

(** [strings.HasSuffix] with a dot, a leading dot, or two dots in a row. *)
Definition bad_dots (s : string) : bool :=
  bool_decide (last_byte s = Some "."%char) || String.prefix "." s || Contains s "..".

Definition valid_prerelease (seg : string) : bool :=
  negb (bool_decide (seg = "")) &&
  match Atoi seg with
  | Some _ => negb ((1 <? String.length seg)%nat && String.prefix "0" seg)
  | None => isAlphanumericHyphenSegment seg
  end.

Definition valid_build (seg : string) : bool :=
  negb (bool_decide (seg = "")) && (isAlphanumericHyphenSegment seg || isNumericSegment seg).

(** The port of a [host:port] pair, when there is one. *)
Definition valid_port_text (port : string) : bool :=
  if decide (port = "") then true else
  match Atoi port with
  | None => false
  | Some n => ((1 <=? n) && (n <=? 65535))%Z
  end.

Definition is_ip (s : string) : bool := bool_decide (is_Some (ParseIP s)).

(** [net.SplitHostPort] with the whole text as the host when it fails. *)
Definition host_and_port (hostport : string) : string * string :=
  match SplitHostPort hostport with Ok hp => hp | _ => (hostport, "") end.

(** ** [apis/kubexms/v1alpha1/helpers] *)

Module Helpers.
Definition IsValidK8sName (name : string) : bool :=
  if decide (name = "") then false
  else if (253 <? String.length name)%nat then false
  else MatchString k8sNameRegexStr name.

Definition IsValidIP (ipStr : string) : bool := is_ip ipStr.

Definition IsValidIPv4 (ipStr : string) : bool :=
  match ParseIP ipStr with
  | Some ip => bool_decide (is_Some (To4 ip)) && negb (Contains ipStr ":")
  | None => false
  end.

Definition IsValidIPv6 (ipStr : string) : bool :=
  match ParseIP ipStr with Some ip => bool_decide (To4 ip = None) | None => false end.

Definition IsValidPort (port : Z) : bool := ((1 <=? port) && (port <=? 65535))%Z.

Definition IsValidPortString (portStr : string) : bool :=
  match Atoi portStr with None => false | Some port => IsValidPort port end.

Definition IsValidDomainName (domain : string) : bool :=
  if bool_decide (domain = "") || (253 <? String.length domain)%nat then false
  else if is_ip domain then false
  else if negb (MatchString validDomainNameRegex domain) then false
  else
    let parts := Split "." (TrimRight "." domain) in
    if decide (length parts = 1 ∧ domain = "localhost") then true
    else if decide (1 < length parts) then negb (bool_decide (is_Some (Atoi (default "" (last parts)))))
    else true.

Definition IsValidHostname (hostname : string) : bool := IsValidDomainName hostname.
Definition IsValidFQDN (fqdn : string) : bool := IsValidDomainName fqdn.

Definition IsValidHostPort (hostport : string) : bool :=
  if decide (hostport = "") then false else
  let '(host, port) := host_and_port hostport in
  if negb (is_ip host) && negb (IsValidDomainName host) then false
  else valid_port_text port.

Definition ValidateHostPortStrict (hostport : string) : bool :=
  match
    match SplitHostPort hostport with
    | Ok hp => Some hp
    | Err MissingPort => Some (hostport, "")
    | _ => None
    end
  with
  | None => false
  | Some (host, port) =>
      if negb (is_ip host) && negb (MatchString validHostnameRegex host) then false
      else valid_port_text port
  end.

Definition ValidateHostPortString (hp : string) : bool :=
  let hp := TrimSpace hp in
  if decide (hp = "") then false else
  match SplitHostPort hp with
  | Ok (host, port) => (IsValidIP host || IsValidDomainName host) && IsValidPortString port
  | _ =>
      if String.prefix "[" hp && bool_decide (last_byte hp = Some "]"%char)
      then IsValidIP (String.substring 1 (String.length hp - 2) hp)
      else IsValidIP hp || IsValidDomainName hp
  end.

(** [strings.SplitN(v, sep, 2)] when [sep] occurs. *)
Definition split_at (c : ascii) (v : string) : string * string := default (v, "") (cut_first c v).

Definition IsValidRuntimeVersion (version : string) : bool :=
  if decide (TrimSpace version = "") then false else
  let v := TrimPrefix version "v" in
  if decide (v = "") then false else
  let '(mainPart, buildMetaPart) := split_at "+" v in
  let '(mainPart, preReleasePart) := split_at "-" mainPart in
  if decide (mainPart = "") then false else
  let segments := Split "." mainPart in
  if (3 <? length segments)%nat || (length segments =? 0)%nat then false
  else if negb (forallb isNumericSegment segments) then false
  else if negb (bool_decide (preReleasePart = ""))
          && (bad_dots preReleasePart || negb (forallb valid_prerelease (Split "." preReleasePart)))
       then false
  else if negb (bool_decide (buildMetaPart = ""))
          && (bad_dots buildMetaPart || negb (forallb valid_build (Split "." buildMetaPart)))
       then false
  else true.

Definition IsValidChartVersion (version : string) : bool :=
  bool_decide (version = "latest" ∨ version = "stable") || MatchString validChartVersionRegex version.

Definition IsValidSemanticVersion (version : string) : bool := MatchString validSemanticVersionRegex version.
Definition IsValidUsername (username : string) : bool := MatchString usernameRegex username.
Definition IsValidEmail (email : string) : bool := MatchString emailRegex email.

Definition IsValidImageReference (ref : string) : bool :=
  if decide (ref = "") then false else MatchString imageReferenceRegex ref.

Definition IsValidKubernetesName (name : string) : bool :=
  (String.length name <=? 253)%nat && MatchString k8sNameRegex name.

Definition IsValidKubernetesLabel (label : string) : bool :=
  if decide (label = "") then true
  else (String.length label <=? 63)%nat && MatchString k8sLabelRegex label.

Definition IsValidNonEmptyString (s : string) : bool := bool_decide (TrimSpace s ≠ "").
End Helpers.

(** ** [util] *)

Module Util.
Definition IsValidK8sName (name : string) : bool :=
  if decide (name = "") then false
  else if (253 <? String.length name)%nat then false
  else MatchString k8sNameRegexStr name.

Definition IsValidDomainName (domain : string) : bool :=
  if decide (domain = "") then false
  else if (253 <? String.length domain)%nat then false
  else MatchString validDomainNameRegex domain.

Definition IsValidHostPort (hostport : string) : bool :=
  if decide (hostport = "") then false else
  let '(host, port) := host_and_port hostport in
  if negb (is_ip host) && negb (IsValidDomainName host) then false
  else valid_port_text port.

Definition ValidateHostPortString (hostport : string) : bool :=
  if decide (hostport = "") then false else
  let '(host, port) := host_and_port hostport in
  if negb (is_ip host) && negb (IsValidDomainName host) then false
  else valid_port_text port.

Definition IsValidIPv4 (ipStr : string) : bool :=
  match ParseIP ipStr with Some ip => bool_decide (is_Some (To4 ip)) | None => false end.

Definition IsValidPort (port : Z) : bool := ((0 <? port) && (port <=? 65535))%Z.

Definition IsValidPortStr (portStr : string) : bool :=
  match Atoi portStr with None => false | Some port => IsValidPort port end.

Definition IsValidUsername (username : string) : bool :=
  if decide (username = "") then false else MatchString usernameRegex username.

Definition IsValidK8sLabel (label : string) : bool :=
  if decide (label = "") then false
  else if (63 <? String.length label)%nat then false
  else MatchString k8sLabelRegex label.

Definition IsValidImageReference (imageRef : string) : bool :=
  if decide (imageRef = "") then false else MatchString imageReferenceRegex imageRef.

Definition IsValidChartVersion (version : string) : bool := MatchString validChartVersionRegex version.

Definition IsValidK8sFinalizer (finalizer : string) : bool :=
  if (316 <? String.length finalizer)%nat then false else
  match Split "/" finalizer with
  | [domain; name] => IsValidDomainName domain && IsValidK8sName name
  | _ => false
  end.

Definition IsValidK8sFieldSelector (selector : string) : bool :=
  forallb (λ pair,
    match cut_first "=" pair with
    | None => false
    | Some (key, value) => bool_decide (TrimSpace key ≠ "") && bool_decide (TrimSpace value ≠ "")
    end) (Split "," selector).
End Util.

Example k8s_1 : Helpers.IsValidK8sName "kube-system.v1" = true. Proof. vm_compute. reflexivity. Qed.
Example k8s_2 : Helpers.IsValidK8sName "Kube" = false. Proof. vm_compute. reflexivity. Qed.
Example k8s_3 : Helpers.IsValidK8sName "a-.b" = false. Proof. vm_compute. reflexivity. Qed.
Example dom_1 : Helpers.IsValidDomainName "lb.kubexm.internal" = true. Proof. vm_compute. reflexivity. Qed.
Example dom_2 : Helpers.IsValidDomainName "10.0.0.1" = false. Proof. vm_compute. reflexivity. Qed.
Example dom_3 : Util.IsValidDomainName "10.0.0.1" = true. Proof. vm_compute. reflexivity. Qed.
Example dom_4 : Helpers.IsValidDomainName "node.1" = false. Proof. vm_compute. reflexivity. Qed.
Example hpt_1 : Helpers.IsValidHostPort "[::1]:6443" = true. Proof. vm_compute. reflexivity. Qed.
Example hpt_2 : Helpers.IsValidHostPort "node-1:70000" = false. Proof. vm_compute. reflexivity. Qed.
Example ver_1 : Helpers.IsValidRuntimeVersion "v1.28.0-rc.1+build5" = true. Proof. vm_compute. reflexivity. Qed.
Example ver_2 : Helpers.IsValidRuntimeVersion "1.28.0-01" = false. Proof. vm_compute. reflexivity. Qed.
Example ver_3 : Helpers.IsValidRuntimeVersion "1.-2.+3" = false. Proof. vm_compute. reflexivity. Qed.
Example ver_4 : Helpers.IsValidRuntimeVersion "1.+2" = false. Proof. vm_compute. reflexivity. Qed.
Example img_1 : Helpers.IsValidImageReference "registry.k8s.io:5000/pause:3.9" = true.
Proof. vm_compute. reflexivity. Qed.
Example img_2 : Helpers.IsValidImageReference "-pause" = false. Proof. vm_compute. reflexivity. Qed.

(** ** Texts matched piece by piece *)

Section pieces.
Context (r : regex) (c : ascii).
Hypothesis Hr : ∀ x, matches r x → has_byte c x = false.

Lemma matches_chr d x : matches (chr d) x ↔ x = String d "".
Proof.
  split.
  - inversion 1 as [|f e Hf| | | | |]; subst. by apply bool_decide_eq_true in Hf as ->.
  - intros ->. constructor. by apply bool_decide_eq_true.
Qed.

(** A piece, then any number of separators each followed by a piece: the pieces of
    the split text all match. *)
Lemma matches_pieces s :
  matches (Cat r (Star (Cat (chr c) r))) s ↔ Forall (matches r) (Split c s).
Proof using Hr.
  split.
  - intros (x & y & -> & Hx & Hy)%matches_cat_inv. revert x Hx.
    remember (Star (Cat (chr c) r)) as q eqn:Hq.
    induction Hy as [| | | | |r'|r' y z Hy IHy Hz IHz]; try done; intros x Hx.
    + rewrite str_app_nil_r, Split_none by auto. by constructor.
    + injection Hq as ->. apply matches_cat_inv in Hy as (sep & y' & -> & ->%matches_chr & Hy').
      rewrite str_app_assoc, str_app_cons, str_app_nil_l, Split_app by auto. constructor; [done|].
      by apply IHz.
  - remember (Split c s) as l eqn:Hl. revert s Hl. induction l as [|x l IH]; intros s Hl.
    { destruct (Split_cons c s) as (? & ? & Heq & _). congruence. }
    intros [Hx Hrest]%Forall_cons. destruct (Split_cons c s) as (x' & rest & Heq & _ & Hs).
    rewrite <-Hl in Heq. simplify_eq. destruct Hs as [[-> ->]|(s' & -> & ->)].
    + rewrite <-(str_app_nil_r x'). constructor; [done|constructor].
    + specialize (IH s' eq_refl Hrest). constructor; [done|].
      apply matches_cat_inv in IH as (y & z & -> & Hy & Hz).
      change (String c (y +:+ z)) with ((String c "" +:+ y) +:+ z). constructor; [|done].
      constructor; [by apply matches_chr|done].
Qed.
End pieces.

(** ** Kubernetes names *)

Fixpoint all_bytes (f : ascii → bool) (s : string) : bool :=
  match s with "" => true | String c s => f c && all_bytes f s end.

Lemma matches_star_class f s : matches (Star (Class f)) s ↔ all_bytes f s = true.
Proof.
  split.
  - remember (Star (Class f)) as q eqn:Hq.
    induction 1 as [| | | | |r'|r' y z Hy IHy Hz IHz]; try done. injection Hq as ->.
    inversion Hy; subst. rewrite str_app_cons, str_app_nil_l. simpl. rewrite IHz by done. by apply andb_true_iff.
  - induction s as [|c s IH]; simpl; [constructor|]. intros [Hc Hs]%andb_true_iff.
    change (String c s) with (String c "" +:+ s). constructor; [by constructor|auto].
Qed.

Lemma all_bytes_app f s t : all_bytes f (s +:+ t) = all_bytes f s && all_bytes f t.
Proof. induction s as [|c s IH]; [done|]. rewrite str_app_cons. simpl. by rewrite IH, andb_assoc. Qed.

(** A label of a DNS name: small letters, digits and hyphens, at least one, with no
    hyphen at either end. *)
Definition label_byte (c : ascii) : bool := lower c || is_digit c || bool_decide (c = "-"%char).

Definition dns_label (s : string) : Prop :=
  s ≠ "" ∧ all_bytes label_byte s = true ∧ String.get 0 s ≠ Some "-"%char ∧ last_byte s ≠ Some "-"%char.

Lemma last_byte_app s c : last_byte (s +:+ String c "") = Some c.
Proof.
  induction s as [|d s IH]; [done|]. rewrite str_app_cons.
  destruct s as [|e s]; [done|]. exact IH.
Qed.

Lemma last_byte_split s : s ≠ "" → ∃ t c, s = t +:+ String c "" ∧ last_byte s = Some c.
Proof.
  induction s as [|d s IH]; [done|]. intros _. destruct s as [|e s]; [by exists "", d|].
  destruct IH as (t & c & Heq & Hl); [done|]. exists (String d t), c. split; [by rewrite Heq|exact Hl].
Qed.

Lemma label_byte_num c : label_byte c = true → c ≠ "-"%char → lower c || is_digit c = true.
Proof. unfold label_byte. intros [?|Hc%bool_decide_eq_true]%orb_true_iff; [done|by intros []]. Qed.

Definition dns_label_regex : regex :=
  Cat (Class (λ c, lower c || is_digit c))
    (opt (Cat (Star (Class (λ c, (lower c || is_digit c) || one_of ["-"%char] c)))
      (Class (λ c, lower c || is_digit c)))).

Lemma one_of_hyphen c : one_of ["-"%char] c = bool_decide (c = "-"%char).
Proof. unfold one_of. apply bool_decide_ext. set_solver. Qed.

Lemma all_bytes_ext f g s : (∀ c, f c = g c) → all_bytes f s = all_bytes g s.
Proof. intros Hfg. induction s as [|c s IH]; simpl; [done|]. by rewrite Hfg, IH. Qed.

Lemma num_not_hyphen c : lower c || is_digit c = true → c ≠ "-"%char.
Proof. by intros Hc ->. Qed.

Lemma matches_dns_label s : matches dns_label_regex s ↔ dns_label s.
Proof.
  assert (∀ x, all_bytes (λ c, (lower c || is_digit c) || one_of ["-"%char] c) x = all_bytes label_byte x) as Hab.
  { intros x. apply all_bytes_ext. intros c. by rewrite one_of_hyphen. }
  assert (∀ c, lower c || is_digit c = true → label_byte c = true) as Hnum.
  { intros c Hc. unfold label_byte. by rewrite Hc. }
  unfold dns_label_regex. split.
  - intros (x & y & -> & Hx & Hy)%matches_cat_inv. inversion Hx as [|f c Hc| | | | |]; subst. clear Hx.
    rewrite str_app_cons, str_app_nil_l.
    apply matches_alt_iff in Hy as [(m & z & -> & Hm%matches_star_class & Hz)%matches_cat_inv|Hy].
    + inversion Hz as [|f d Hd| | | | |]; subst. rewrite Hab in Hm. split_and!; [done| | |].
      * simpl. rewrite all_bytes_app, Hm, Hnum by done. simpl. by rewrite Hnum.
      * simpl. intros [= ->]. by apply num_not_hyphen in Hc.
      * rewrite <-str_app_cons, last_byte_app. intros [= ->]. by apply num_not_hyphen in Hd.
    + inversion Hy; subst. split_and!; [done|simpl; by rewrite Hnum| |]; simpl; intros [= ->];
        by apply num_not_hyphen in Hc.
  - intros (Hne & Hall & Hfirst & Hlast). destruct s as [|c s]; [done|]. simpl in Hall, Hfirst.
    apply andb_true_iff in Hall as [Hc Hall].
    assert (lower c || is_digit c = true) as Hcn by (apply label_byte_num; [done|]; intros ->; by apply Hfirst).
    change (String c s) with (String c "" +:+ s). constructor; [by constructor|].
    apply matches_alt_iff. destruct (decide (s = "")) as [->|Hs]; [right; constructor|left].
    destruct (last_byte_split s Hs) as (t & d & -> & Hd). rewrite all_bytes_app in Hall.
    apply andb_true_iff in Hall as [Ht Hd']. simpl in Hd'. rewrite andb_true_r in Hd'.
    constructor; [apply matches_star_class; by rewrite Hab|]. constructor. apply label_byte_num; [done|].
    intros ->. apply Hlast. rewrite <-str_app_cons. apply last_byte_app.
Qed.

Lemma dns_label_no_dot s : dns_label s → has_byte "." s = false.
Proof.
  intros (_ & Hall & _). induction s as [|c s IH]; [done|]. simpl in *.
  apply andb_true_iff in Hall as [Hc Hall]. rewrite IH by done. rewrite orb_false_r.
  apply bool_decide_false. by intros <-.
Qed.

(** A name is valid in Kubernetes' sense just when it has at most 253 bytes and
    the parts between its dots are DNS labels: not empty, of small letters, digits
    and hyphens, without a hyphen at either end.  The copy in [util] accepts the
    same names. *)
Theorem IsValidK8sName_labels name :
  (Helpers.IsValidK8sName name = true ↔
    String.length name ≤ 253 ∧ Forall dns_label (Split "." name))
  ∧ Util.IsValidK8sName name = Helpers.IsValidK8sName name.
Proof.
  split; [|done]. unfold Helpers.IsValidK8sName. case_decide as Hne.
  - subst. split; [done|]. intros [_ [[] _]%Forall_cons]. done.
  - assert (MatchString k8sNameRegexStr name = true ↔ Forall dns_label (Split "." name)) as Hm.
    { rewrite MatchString_spec. change k8sNameRegexStr with
        (Cat dns_label_regex (Star (Cat (chr ".") dns_label_regex))).
      rewrite matches_pieces by (by intros x ?%matches_dns_label%dns_label_no_dot).
      apply Forall_iff, matches_dns_label. }
    destruct (Nat.ltb_spec 253 (String.length name)); [split; [done|lia]|rewrite Hm; naive_solver].
Qed.

(** The stricter of the two readings of a domain name. *)
Theorem IsValidDomainName_copies domain :
  Helpers.IsValidDomainName domain = true → Util.IsValidDomainName domain = true.
Proof.
  unfold Helpers.IsValidDomainName, Util.IsValidDomainName.
  destruct (decide (domain = "")) as [->|Hne]; [done|].
  rewrite (bool_decide_false (domain = "")) by done. cbn [orb]. destruct (253 <? String.length domain)%nat; [done|].
  destruct (is_ip domain); [done|]. by destruct (MatchString validDomainNameRegex domain).
Qed.
