(* ===== verification/HostRange.v ===== *)
(** Host ranges such as [node[01:12].lab]: [config/helpers.go], [util/host.go] and
    [apis/kubexms/v1alpha1/helpers/], which each hold a copy.

    What expanding a host range gives: the range that is found, the names, their
    number and order, when the loop ends, and that the copies of the code agree. *)
From S2P Require Import Prelude.
From S2P Require Import GoText.
From Stdlib Require Import Ascii.

(** ** The pattern of a range *)

(** A bracketed range at the head of a string: the two numbers, and the suffix
    after the bracket. *)
Definition range_here (s : string) : option (string * string * string) :=
  match s with
  | String "[" s =>
      let '(a, s) := take_digits s in
      if decide (a = "") then None else
      match s with
      | String ":" s =>
          let '(b, s) := take_digits s in
          if decide (b = "") then None else
          match s with String "]" q => Some (a, b, q) | _ => None end
      | _ => None
      end
  | _ => None
  end.

(** The expression starts with a greedy group: the last range of the string is
    the one found. *)
Fixpoint last_range (s : string) : option (string * string * string * string) :=
  match s with
  | "" => None
  | String c s' =>
      match last_range s' with
      | Some (p, a, b, q) => Some (String c p, a, b, q)
      | None =>
          match range_here s with Some (a, b, q) => Some ("", a, b, q) | None => None end
      end
  end.

(** [re.FindStringSubmatch(pattern)]: the prefix, the two numbers, the suffix.
    The dot of the expression does not match a newline. *)
Definition FindStringSubmatch (s : string) : option (string * string * string * string) :=
  if has_byte newline s then None else last_range s.

(** ** Expansion *)

Inductive range_error : Type :=
| EmptyPattern
| InvalidStart (pattern : string)
| InvalidEnd (pattern : string)
| StartAfterEnd (pattern : string)
| StartAfterEndAt (first last : Z) (pattern : string)
| ZeroHostnames (pattern : string)
| ExpandingRange (pattern : string) (e : range_error)
| ExpandingPattern (pattern : string) (e : range_error).

(** [for i := start; i <= end; i++ { names = append(names, name i) }]: 64-bit
    integers wrap around; [None] is a loop that has not ended after [fuel] turns. *)
Fixpoint range_loop (fuel : nat) (name : Z → string) (i last : Z) : option (list string) :=
  match fuel with
  | 0 => None
  | S fuel =>
      if (i <=? last)%Z
      then cons (name i) <$> range_loop fuel name (wrap64 (i + 1)) last
      else Some []
  end.

(** The name of host [i]: padded when the first number starts with a zero. *)
Definition range_name (p a q : string) (i : Z) : string :=
  p +:+ (if (1 <? String.length a)%nat && String.prefix "0" a
         then padded (String.length a) i else decimal i) +:+ q.

(** The loop over the patterns of a role group. *)
Fixpoint expand_all (expand : string → option (outcome range_error (list string)))
    (wrapping : string → range_error → range_error) (hosts : list string)
    : option (outcome range_error (list string)) :=
  match hosts with
  | [] => Some (Ok [])
  | h :: hosts =>
      match expand h with
      | None => None
      | Some (Err e) => Some (Err (wrapping h e))
      | Some Panic => Some Panic
      | Some (Ok names) =>
          match expand_all expand wrapping hosts with
          | Some (Ok rest) => Some (Ok (names ++ rest))
          | r => r
          end
      end
  end.

(** [config/helpers.go], and word for word
    [apis/kubexms/v1alpha1/helpers/strings.go] and [host.go]. *)
Module Config.
Definition ExpandHostRange (fuel : nat) (pattern : string) : option (outcome range_error (list string)) :=
  match FindStringSubmatch pattern with
  | None => Some (if decide (TrimSpace pattern = "") then Err EmptyPattern else Ok [pattern])
  | Some (p, a, b, q) =>
      match Atoi a with
      | None => Some (Err (InvalidStart pattern))
      | Some first =>
          match Atoi b with
          | None => Some (Err (InvalidEnd pattern))
          | Some last =>
              if (last <? first)%Z then Some (Err (StartAfterEnd pattern)) else
              match range_loop fuel (range_name p a q) first last with
              | None => None
              | Some names =>
                  Some (if decide (names = []) then Err (ZeroHostnames pattern) else Ok names)
              end
          end
      end
  end.

Definition ExpandRoleGroupHosts (fuel : nat) (hosts : list string) : option (outcome range_error (list string)) :=
  expand_all (ExpandHostRange fuel) ExpandingRange hosts.
End Config.

(** [util/host.go]: the slice is allocated first, which panics beyond the largest
    capacity [max_cap] the run-time system grants. *)
Module Util.
Section util.
Variable max_cap : Z.

Definition ExpandHostRange (fuel : nat) (pattern : string) : option (outcome range_error (list string)) :=
  if decide (TrimSpace pattern = "") then Some (Err EmptyPattern) else
  match FindStringSubmatch pattern with
  | None => Some (Ok [pattern])
  | Some (p, a, b, q) =>
      match Atoi a with
      | None => Some (Err (InvalidStart pattern))
      | Some first =>
          match Atoi b with
          | None => Some (Err (InvalidEnd pattern))
          | Some last =>
              if (last <? first)%Z then Some (Err (StartAfterEndAt first last pattern)) else
              let count := wrap64 (last - first + 1) in
              if (count <? 0)%Z || (max_cap <? count)%Z then Some Panic else
              Ok <$> range_loop fuel (range_name p a q) first last
          end
      end
  end.

Definition ExpandRoleGroupHosts (fuel : nat) (hosts : list string) : option (outcome range_error (list string)) :=
  if decide (hosts = []) then Some (Ok []) else
  expand_all (ExpandHostRange fuel) ExpandingPattern hosts.
End util.
End Util.

(** ** Finding the range *)

(** [s] is a prefix, a range in brackets and a suffix. *)
Definition is_range (s p a b q : string) : Prop :=
  s = p +:+ "[" +:+ a +:+ ":" +:+ b +:+ "]" +:+ q
  ∧ a ≠ "" ∧ b ≠ "" ∧ all_digits a = true ∧ all_digits b = true.

Lemma range_here_spec s a b q : range_here s = Some (a, b, q) ↔ is_range s "" a b q.
Proof.
  unfold is_range. rewrite str_app_nil_l. split.
  - unfold range_here. destruct s as [|c s]; [done|].
    destruct (decide (c = "["%char)) as [->|Hc];
      [|destruct c as [[] [] [] [] [] [] [] []]; done].
    destruct (take_digits s) as [a' s1] eqn:Ha. apply take_digits_sound in Ha as [-> Ha].
    case_decide as Hne; [done|]. destruct s1 as [|c s1]; [done|].
    destruct (decide (c = ":"%char)) as [->|Hc];
      [|destruct c as [[] [] [] [] [] [] [] []]; done].
    destruct (take_digits s1) as [b' s2] eqn:Hb. apply take_digits_sound in Hb as [-> Hb].
    case_decide as Hne'; [done|]. destruct s2 as [|c s2]; [done|].
    destruct (decide (c = "]"%char)) as [->|Hc];
      [|destruct c as [[] [] [] [] [] [] [] []]; done].
    by intros [= -> -> ->].
  - intros (-> & Hane & Hbne & Ha & Hb). rewrite !str_app_cons, !str_app_nil_l. simpl.
    erewrite (take_digits_app a) by done. rewrite decide_False by done.
    erewrite (take_digits_app b) by done. by rewrite decide_False by done.
Qed.

#[local] Arguments range_here : simpl never.

Lemma is_range_cons c s p a b q : is_range s p a b q → is_range (String c s) (String c p) a b q.
Proof. intros (-> & H). split; [done|exact H]. Qed.

Lemma is_range_cons_inv c s p a b q :
  is_range (String c s) p a b q →
  is_range (String c s) "" a b q ∧ p = "" ∨ ∃ p', p = String c p' ∧ is_range s p' a b q.
Proof.
  intros (Heq & H). destruct p as [|d p].
  - left. split; [|done]. by split.
  - right. rewrite str_app_cons in Heq. injection Heq as <- ->. exists p. split; [done|]. by split.
Qed.

Lemma last_range_sound s p a b q : last_range s = Some (p, a, b, q) → is_range s p a b q.
Proof.
  revert p. induction s as [|c s IH]; intros p; simpl; [done|].
  destruct (last_range s) as [[[[p' a'] b'] q']|].
  - intros [= <- <- <- <-]. by apply is_range_cons, IH.
  - destruct (range_here (String c s)) as [[[a' b'] q']|] eqn:Hh; [|done].
    intros [= <- <- <- <-]. by apply range_here_spec.
Qed.

(** A range that ends further left is not preferred. *)
Lemma last_range_complete s p a b q : is_range s p a b q →
  ∃ p' a' b' q', last_range s = Some (p', a', b', q') ∧ String.length p ≤ String.length p'.
Proof.
  revert p. induction s as [|c s IH]; intros p Hr.
  { destruct Hr as (Heq & _). apply (f_equal String.length) in Heq.
    rewrite !str_length_app in Heq. simpl in Heq. lia. }
  simpl. apply is_range_cons_inv in Hr as [[Hr ->]|(p1 & -> & Hr)].
  - destruct (last_range s) as [[[[p' a'] b'] q']|].
    + eexists _, _, _, _. split; [done|]. simpl. lia.
    + apply range_here_spec in Hr. rewrite Hr. eexists _, _, _, _. split; [done|]. simpl. lia.
  - destruct (IH _ Hr) as (p' & a' & b' & q' & -> & Hle).
    eexists _, _, _, _. split; [done|]. simpl. lia.
Qed.

Lemma is_range_same_prefix s p a b q p' a' b' q' :
  is_range s p a b q → is_range s p' a' b' q' → String.length p = String.length p' →
  (p, a, b, q) = (p', a', b', q').
Proof.
  revert p p'. induction s as [|c s IH]; intros p p' Hr Hr' Hlen.
  { destruct Hr as (Heq & _). apply (f_equal String.length) in Heq.
    rewrite !str_length_app in Heq. simpl in Heq. lia. }
  apply is_range_cons_inv in Hr as [[Hr ->]|(p1 & -> & Hr)];
    apply is_range_cons_inv in Hr' as [[Hr' ->]|(p2 & -> & Hr')]; simpl in Hlen; try lia.
  - apply range_here_spec in Hr, Hr'. congruence.
  - specialize (IH p1 p2 Hr Hr' ltac:(lia)). congruence.
Qed.

Lemma FindStringSubmatch_spec s p a b q :
  FindStringSubmatch s = Some (p, a, b, q) ↔
  has_byte newline s = false ∧ is_range s p a b q
  ∧ ∀ p' a' b' q', is_range s p' a' b' q' → String.length p' ≤ String.length p.
Proof.
  unfold FindStringSubmatch. destruct (has_byte newline s); [naive_solver|]. split.
  - intros Hl. split_and!; [done|by apply last_range_sound|].
    intros p' a' b' q' Hr. apply last_range_complete in Hr as (? & ? & ? & ? & Heq & ?).
    congruence.
  - intros (_ & Hr & Hmax). destruct (last_range_complete _ _ _ _ _ Hr)
      as (p' & a' & b' & q' & Heq & Hle). rewrite Heq.
    apply last_range_sound in Heq. pose proof (Hmax _ _ _ _ Heq).
    f_equal. eapply is_range_same_prefix; [done..|lia].
Qed.

Lemma FindStringSubmatch_None s :
  FindStringSubmatch s = None ↔
  has_byte newline s = true ∨ ∀ p a b q, ¬ is_range s p a b q.
Proof.
  unfold FindStringSubmatch. destruct (has_byte newline s) eqn:Hn; [naive_solver|]. split.
  - intros Hl. right. intros p a b q Hr.
    apply last_range_complete in Hr as (? & ? & ? & ? & Heq & _). congruence.
  - intros [?|Hno]; [done|]. destruct (last_range s) as [[[[p a] b] q]|] eqn:Hl; [|done].
    by apply last_range_sound, Hno in Hl.
Qed.

(** ** The loop *)

Lemma range_loop_done fuel name i last : (last < i)%Z → range_loop (S fuel) name i last = Some [].
Proof. intros. simpl. by rewrite (proj2 (Z.leb_gt _ _)) by lia. Qed.

Lemma range_loop_step fuel name i last : (i <= last)%Z →
  range_loop (S fuel) name i last = cons (name i) <$> range_loop fuel name (wrap64 (i + 1)) last.
Proof. intros. simpl. by rewrite (proj2 (Z.leb_le _ _)) by lia. Qed.

Lemma range_loop_total fuel name i last :
  (min_int <= i)%Z → (last < max_int)%Z → Z.to_nat (last + 1 - i) < fuel →
  range_loop fuel name i last = Some (name <$> seqZ i (last + 1 - i)).
Proof.
  remember (Z.to_nat (last + 1 - i)) as n eqn:Hn. revert fuel i Hn.
  induction n as [|n IH]; intros fuel i Hn Hmin Hlast Hf; destruct fuel as [|fuel]; [lia| |lia|].
  - rewrite range_loop_done by lia. by rewrite seqZ_nil by lia.
  - rewrite range_loop_step by lia.
    assert (wrap64 (i + 1) = i + 1)%Z as -> by (apply wrap64_id; unfold min_int, max_int in *; lia).
    rewrite IH by lia. rewrite (seqZ_cons i) by lia.
    replace (last + 1 - (i + 1))%Z with (Z.pred (last + 1 - i)) by lia. done.
Qed.

(** With the largest integer as its bound the loop has no way to end: the counter
    wraps around below it. *)
Lemma range_loop_diverges fuel name i :
  (min_int <= i <= max_int)%Z → range_loop fuel name i max_int = None.
Proof.
  revert i. induction fuel as [|fuel IH]; intros i Hi; [done|].
  rewrite range_loop_step by lia. rewrite IH; [done|].
  pose proof (wrap64_range (i + 1)). unfold min_int, max_int in *. lia.
Qed.

(** ** The names *)

Definition range_core (a : string) (i : Z) : string :=
  if (1 <? String.length a)%nat && String.prefix "0" a
  then padded (String.length a) i else decimal i.

Lemma range_core_digits a i :
  (0 <= i)%Z → all_digits (range_core a i) = true ∧ digits_value (range_core a i) = i.
Proof.
  intros. unfold range_core. destruct (_ && _); [by apply padded_digits|by apply decimal_digits].
Qed.

Lemma range_name_inj p a q i j :
  (0 <= i)%Z → (0 <= j)%Z → range_name p a q i = range_name p a q j → i = j.
Proof.
  intros Hi Hj Heq. apply (inj (String.append p)), str_app_inj_r in Heq.
  change (range_core a i = range_core a j) in Heq.
  destruct (range_core_digits a i Hi) as [_ <-]. destruct (range_core_digits a j Hj) as [_ <-].
  by rewrite Heq.
Qed.

Lemma range_names_NoDup p a q i n : (0 <= i)%Z → NoDup (range_name p a q <$> seqZ i n).
Proof.
  intros Hi. apply NoDup_fmap_2_strong; [|apply NoDup_seqZ].
  intros x y Hx%elem_of_seqZ Hy%elem_of_seqZ. apply range_name_inj; lia.
Qed.

(** ** Expanding a range *)

Section range.
Context {s p a b q : string}.
Context (Hfind : FindStringSubmatch s = Some (p, a, b, q)).

Lemma found_numbers :
  (∀ v, Atoi a = Some v ↔ v = digits_value a ∧ (v <= max_int)%Z)
  ∧ (∀ v, Atoi b = Some v ↔ v = digits_value b ∧ (v <= max_int)%Z)
  ∧ (0 <= digits_value a)%Z ∧ (0 <= digits_value b)%Z.
Proof using Hfind.
  apply FindStringSubmatch_spec in Hfind as (_ & (_ & Ha & Hb & Hda & Hdb) & _).
  split_and!; [intros; by apply Atoi_digits..|by apply digits_value_nonneg|by apply digits_value_nonneg].
Qed.

Lemma expand_found fuel :
  (digits_value a <= digits_value b <= max_int)%Z →
  Config.ExpandHostRange fuel s =
    match range_loop fuel (range_name p a q) (digits_value a) (digits_value b) with
    | None => None
    | Some names => Some (if decide (names = []) then Err (ZeroHostnames s) else Ok names)
    end.
Proof using Hfind.
  intros Hle. destruct found_numbers as (Ha & Hb & _). unfold Config.ExpandHostRange. rewrite Hfind.
  rewrite (proj2 (Ha (digits_value a))), (proj2 (Hb (digits_value b))) by (split; [done|lia]).
  by rewrite (proj2 (Z.ltb_ge _ _)) by lia.
Qed.

(** What is not a range of numbers is an error. *)
Lemma expand_bad_range fuel :
  (max_int < digits_value a ∨ max_int < digits_value b ∨ digits_value b < digits_value a)%Z →
  ∃ e, Config.ExpandHostRange fuel s = Some (Err e).
Proof using Hfind.
  intros Hbad. destruct found_numbers as (Ha & Hb & _). unfold Config.ExpandHostRange. rewrite Hfind.
  destruct (Atoi a) as [x|]; [|eauto]. destruct (Atoi b) as [y|]; [|eauto].
  destruct (proj1 (Ha x) eq_refl) as [-> ?]. destruct (proj1 (Hb y) eq_refl) as [-> ?].
  rewrite (proj2 (Z.ltb_lt _ _)) by lia. eauto.
Qed.
End range.

(** C35: a pattern with a range and no newline, its first number at most the last and
    that below the largest integer, expands, given enough turns of the loop, to one
    name for each number from the first to the last, in that order: the prefix,
    the number (padded with zeros to the width of the first number when that one
    starts with a zero), the suffix.  The names are pairwise distinct.  When there
    are several ranges it is the last that is expanded. *)
Theorem ExpandHostRange_names s p a b q :
  is_range s p a b q → has_byte newline s = false →
  (∀ p' a' b' q', is_range s p' a' b' q' → String.length p' ≤ String.length p) →
  (digits_value a <= digits_value b < max_int)%Z →
  let names := range_name p a q <$> seqZ (digits_value a) (digits_value b + 1 - digits_value a) in
  NoDup names ∧ length names = Z.to_nat (digits_value b + 1 - digits_value a)
  ∧ ∀ fuel, Z.to_nat (digits_value b + 1 - digits_value a) < fuel →
      Config.ExpandHostRange fuel s = Some (Ok names).
Proof.
  intros Hr Hn Hlast Hle names.
  assert (FindStringSubmatch s = Some (p, a, b, q)) as Hfind by (by apply FindStringSubmatch_spec).
  destruct (found_numbers Hfind) as (_ & _ & Hpos & _).
  assert (length names = Z.to_nat (digits_value b + 1 - digits_value a)) as Hlen
    by (unfold names; by rewrite length_fmap, length_seqZ).
  split_and!; [by apply range_names_NoDup|done|].
  intros fuel Hf. rewrite (expand_found Hfind) by lia.
  rewrite range_loop_total by (unfold min_int; lia).
  rewrite decide_False; [done|]. intros Hnil. fold names in Hnil. rewrite Hnil in Hlen. simpl in Hlen. lia.
Qed.

(** C36: expanding a pattern ends, whatever the pattern, except for a range whose
    last number is the largest integer: then the counter of the loop wraps around
    below its bound, and no number of turns is enough. *)
Theorem ExpandHostRange_terminates s :
  (∃ fuel, is_Some (Config.ExpandHostRange fuel s)) ↔
  ¬ ∃ p a b q, FindStringSubmatch s = Some (p, a, b, q)
      ∧ digits_value b = max_int ∧ (digits_value a <= max_int)%Z.
Proof.
  split.
  - intros [fuel [r Hr]] (p & a & b & q & Hfind & Hb & Ha).
    rewrite (expand_found Hfind), Hb, range_loop_diverges in Hr; [done| |lia].
    destruct (found_numbers Hfind) as (_ & _ & ? & _). unfold min_int. lia.
  - intros Hno. destruct (FindStringSubmatch s) as [[[[p a] b] q]|] eqn:Hfind.
    2: { exists 0. unfold Config.ExpandHostRange. by rewrite Hfind. }
    destruct (found_numbers Hfind) as (_ & _ & Ha & Hb).
    destruct (decide (max_int < digits_value a ∨ max_int < digits_value b ∨ digits_value b < digits_value a)%Z)
      as [Hbad|Hok].
    { destruct (expand_bad_range Hfind 0 Hbad) as [e He]. exists 0. by rewrite He. }
    assert (digits_value b ≠ max_int) by naive_solver lia.
    exists (S (Z.to_nat (digits_value b + 1 - digits_value a))).
    rewrite (expand_found Hfind) by lia.
    rewrite range_loop_total by (unfold min_int; lia). done.
Qed.

(** ** The copies of the code *)

(** A result up to the text of its error. *)
Definition up_to_error {A} (r : option (outcome range_error A)) : option (outcome unit A) :=
  map_err (λ _, ()) <$> r.

(** The slice [util.ExpandHostRange] allocates for a range is too large. *)
Definition too_large (max_cap : Z) (s : string) : Prop :=
  ∃ p a b q, FindStringSubmatch s = Some (p, a, b, q)
    ∧ (digits_value a <= digits_value b <= max_int)%Z
    ∧ (max_cap < digits_value b - digits_value a + 1 ∨ digits_value b - digits_value a = max_int)%Z.

Lemma range_is_not_blank s p a b q : is_range s p a b q → TrimSpace s ≠ "".
Proof.
  intros (-> & _). apply (graphic_not_blank "["); [done|].
  by rewrite !has_byte_app, orb_true_r.
Qed.

(** The copy in [util] gives the names the one of [config] gives, and fails on
    the same patterns; except that it panics, before the loop, where a range is too
    large for the slice it allocates. *)
Theorem ExpandHostRange_copies max_cap fuel s :
  match Util.ExpandHostRange max_cap fuel s with
  | Some Panic => too_large max_cap s
  | r => ¬ too_large max_cap s ∧ up_to_error r = up_to_error (Config.ExpandHostRange fuel s)
  end.
Proof.
  unfold Util.ExpandHostRange. destruct (FindStringSubmatch s) as [[[[p a] b] q]|] eqn:Hfind.
  2: { assert (¬ too_large max_cap s) by (intros (? & ? & ? & ? & ? & _); congruence).
       unfold Config.ExpandHostRange. rewrite Hfind. by case_decide. }
  destruct (found_numbers Hfind) as (Ha & Hb & Hpa & Hpb).
  pose proof Hfind as Hr. apply FindStringSubmatch_spec in Hr as (_ & Hr & _).
  rewrite decide_False by (by eapply range_is_not_blank).
  assert (∀ r, (max_int < digits_value a ∨ max_int < digits_value b ∨ digits_value b < digits_value a)%Z →
    up_to_error (Some (Err r)) = up_to_error (Config.ExpandHostRange fuel s) ∧ ¬ too_large max_cap s) as Hbad.
  { intros r Hb'. destruct (expand_bad_range Hfind fuel Hb') as [e ->]. split; [done|].
    intros (? & ? & ? & ? & Hf & ? & _). rewrite Hfind in Hf. simplify_eq. lia. }
  destruct (Atoi a) as [x|] eqn:Hx.
  2: { apply and_comm, Hbad. left. apply Z.nle_gt. intros Hle. by specialize (proj2 (Ha _) (conj eq_refl Hle)). }
  destruct (proj1 (Ha x) eq_refl) as [-> Hxm].
  destruct (Atoi b) as [y|] eqn:Hy.
  2: { apply and_comm, Hbad. right. left. apply Z.nle_gt. intros Hle. by specialize (proj2 (Hb _) (conj eq_refl Hle)). }
  destruct (proj1 (Hb y) eq_refl) as [-> Hym].
  destruct (Z.ltb_spec (digits_value b) (digits_value a)) as [Hlt|Hle].
  { apply and_comm, Hbad. lia. }
  assert (too_large max_cap s ↔
    (max_cap < digits_value b - digits_value a + 1 ∨ digits_value b - digits_value a = max_int)%Z) as Hlarge.
  { split; [|intros; by exists p, a, b, q]. intros (? & ? & ? & ? & Hf & ?). rewrite Hfind in Hf.
    simplify_eq. naive_solver. }
  destruct (decide (digits_value b - digits_value a = max_int)%Z) as [Hmax|Hmax].
  { rewrite Hmax. simpl. naive_solver. }
  rewrite wrap64_id by (unfold max_int in *; lia).
  rewrite (proj2 (Z.ltb_ge _ 0)) by lia. cbn [orb].
  destruct (Z.ltb_spec max_cap (digits_value b - digits_value a + 1)); [naive_solver|].
  rewrite (expand_found Hfind) by lia.
  assert (¬ too_large max_cap s) by (rewrite Hlarge; lia).
  destruct (range_loop fuel _ _ _) as [names|] eqn:Hloop; [|done]. simpl. split; [done|].
  rewrite decide_False; [done|]. intros ->.
  destruct fuel as [|fuel]; [done|]. rewrite range_loop_step in Hloop by lia.
  by destruct (range_loop fuel _ _ _).
Qed.
