(* ===== verification/ValidationErrors.v ===== *)
(** The errors a validation collects: [errors/validation]. *)
From S2P Require Import Prelude.
From S2P Require Import GoText.
From S2P Require Import GoPath.

(** The messages so far, in order. *)
Definition ValidationErrors : Type := list string.

(** A validation appends messages; it may panic, it has no error of its own. *)
Definition V (A : Type) : Type := M ValidationErrors Empty_set A.

(** [v.Add(format)]: the format is printed without operands. *)
Definition Add (format : string) : V unit := λ v, (Ok tt, v ++ [Sprintf0 format]).

(** [v.Add(format, args...)] where [text] is what the format and its operands print. *)
Definition Addf (text : string) : V unit := λ v, (Ok tt, v ++ [text]).

Definition HasErrors (v : ValidationErrors) : bool := negb (bool_decide (v = [])).
Definition IsEmpty (v : ValidationErrors) : bool := bool_decide (v = []).
Definition GetErrors (v : ValidationErrors) : list string := v.

(** [v.Error()] *)
Definition Error (v : ValidationErrors) : string := Join v (String newline "").

(** [if b { body }] *)
Definition vif (b : bool) (body : V unit) : V unit := if b then body else mret tt.

(** [for i, x := range l { body i x }] *)
Fixpoint vfor_from {A} (i : nat) (l : list A) (body : nat → A → V unit) : V unit :=
  match l with
  | [] => mret tt
  | x :: l => body i x ≫= λ _, vfor_from (S i) l body
  end.

Definition vfor {A} (l : list A) (body : nat → A → V unit) : V unit := vfor_from 0 l body.

(** [fmt.Sprintf("%d", n)] of an index, and ["%v"] of a slice of strings. *)
Definition index (i : nat) : string := "[" +:+ pretty i +:+ "]".
Definition show_slice (l : list string) : string := "[" +:+ Join l " " +:+ "]".

(** [path.Join], which agrees with [filepath.Join] on Unix. *)
Definition path_Join : list string → string := filepath_Join.

(** [strings.TrimSpace(s) == ""] *)
Definition blank (s : string) : bool := bool_decide (TrimSpace s = "").

(** ** Validations only append *)

(** Whatever happens, the messages collected before are kept. *)
Definition grows {A} (m : V A) : Prop := ∀ v o v', m v = (o, v') → v `prefix_of` v'.

(** [m] returns without a message. *)
Definition silent (m : V unit) (v : ValidationErrors) : Prop := m v = (Ok tt, v).

(** If [m] returns, it has added the message. *)
Definition says (m : V unit) (msg : string) : Prop := ∀ v v', m v = (Ok tt, v') → msg ∈ v'.

Section grows.
Context {A B : Type}.

Lemma grows_ret (x : A) : grows (mret x : V A).
Proof. by intros v o v' [= <- <-]. Qed.

Lemma grows_bind (m : V A) (k : A → V B) : grows m → (∀ x, grows (k x)) → grows (m ≫= k).
Proof.
  intros Hm Hk v o v'. unfold mbind, M_bind. destruct (m v) as [[x|[]|] v1] eqn:Hv.
  - intros Hk'. etrans; [by eapply Hm|by eapply Hk].
  - intros [= <- <-]. by eapply Hm.
Qed.
End grows.

Lemma grows_Add f : grows (Add f).
Proof. intros v o v' [= <- <-]. by apply prefix_app_r. Qed.

Lemma grows_Addf t : grows (Addf t).
Proof. intros v o v' [= <- <-]. by apply prefix_app_r. Qed.

Lemma grows_panic {A} : grows (panic : V A).
Proof. by intros v o v' [= <- <-]. Qed.

Lemma grows_deref {A} (p : option A) : grows (deref p : V A).
Proof. intros v o v' Hd. destruct p; simpl in Hd; by simplify_eq. Qed.

Lemma grows_vif b m : grows m → grows (vif b m).
Proof. destruct b; [done|intros _; apply grows_ret]. Qed.

Lemma grows_vfor_from {A} i (l : list A) body : (∀ i x, grows (body i x)) → grows (vfor_from i l body).
Proof.
  intros Hb. revert i. induction l as [|x l IH]; intros i; simpl; [apply grows_ret|].
  by apply grows_bind.
Qed.

Lemma grows_vfor {A} (l : list A) body : (∀ i x, grows (body i x)) → grows (vfor l body).
Proof. apply grows_vfor_from. Qed.

#[export] Hint Resolve grows_ret grows_Add grows_Addf grows_panic : kubexm.

(** ** Silence *)

Lemma silent_ret v : silent (mret tt) v.
Proof. done. Qed.

Lemma silent_Add f v : ¬ silent (Add f) v.
Proof. intros [= H%(f_equal length)]. rewrite length_app in H. simpl in H. lia. Qed.

Lemma silent_Addf t v : ¬ silent (Addf t) v.
Proof. intros [= H%(f_equal length)]. rewrite length_app in H. simpl in H. lia. Qed.

(** A result without a message, of any type. *)
Lemma silent_bind_ok {A B} (m : V A) (k : A → V B) b v : grows m → (∀ x, grows (k x)) →
  (m ≫= k) v = (Ok b, v) ↔ ∃ a, m v = (Ok a, v) ∧ k a v = (Ok b, v).
Proof.
  intros Hm Hk. unfold mbind, M_bind. split; [|by intros (a & -> & ?)].
  destruct (m v) as [[a|[]|] v1] eqn:Hv; [|done]. intros Hk1. exists a.
  assert (v1 = v) as ->; [|done].
  apply (anti_symm prefix); [by eapply Hk|by eapply Hm].
Qed.

Lemma silent_bind m k v : grows m → grows (k tt) → silent (m ≫= k) v ↔ silent m v ∧ silent (k tt) v.
Proof.
  intros Hm Hk. unfold silent. rewrite silent_bind_ok by (done || by intros []). split.
  - by intros ([] & ? & ?).
  - intros [? ?]. by exists tt.
Qed.

Lemma silent_vif b m v : silent (vif b m) v ↔ (b = true → silent m v).
Proof. destruct b; simpl; [naive_solver|]. split; [done|intros _; apply silent_ret]. Qed.

Lemma silent_vfor_from {A} i (l : list A) body v : (∀ i x, grows (body i x)) →
  silent (vfor_from i l body) v ↔ ∀ j x, l !! j = Some x → silent (body (i + j) x) v.
Proof.
  intros Hb. revert i. induction l as [|x l IH]; intros i; simpl; [done|].
  rewrite silent_bind by (done || by apply grows_vfor_from). rewrite IH. split.
  - intros [Hx Hl] [|j] y Hy; [simplify_eq/=; by rewrite Nat.add_0_r|].
    rewrite <-Nat.add_succ_comm. by apply Hl.
  - intros H. split; [rewrite <-(Nat.add_0_r i); by apply (H 0)|].
    intros j y Hy. rewrite Nat.add_succ_comm. by apply (H (S j)).
Qed.

Lemma silent_vfor {A} (l : list A) body v : (∀ i x, grows (body i x)) →
  silent (vfor l body) v ↔ ∀ i x, l !! i = Some x → silent (body i x) v.
Proof. intros. by apply (silent_vfor_from 0). Qed.

(** ** Messages *)

Lemma says_Add f msg : Sprintf0 f = msg → says (Add f) msg.
Proof. intros <- v v' [= <-]. set_solver. Qed.

Lemma says_bind_l m k msg : says m msg → grows (k tt) → says (m ≫= k) msg.
Proof.
  intros Hm Hk v v'. unfold mbind, M_bind. destruct (m v) as [[[]|[]|] v1] eqn:Hv; [|done].
  intros Hk'. eapply elem_of_prefix; [by eapply Hm|by eapply Hk].
Qed.

Lemma says_bind_r m k msg : says (k tt) msg → says (m ≫= k) msg.
Proof.
  intros Hk v v'. unfold mbind, M_bind. destruct (m v) as [[[]|[]|] v1] eqn:Hv; [|done]. apply Hk.
Qed.

Lemma says_vfor_from {A} i (l : list A) body msg j x : (∀ i x, grows (body i x)) →
  l !! j = Some x → says (body (i + j) x) msg → says (vfor_from i l body) msg.
Proof.
  intros Hb. revert i j. induction l as [|y l IH]; intros i j Hj Hs; [done|]. simpl.
  destruct j as [|j]; simplify_eq/=.
  - rewrite Nat.add_0_r in Hs. apply says_bind_l; [done|by apply grows_vfor_from].
  - apply says_bind_r. eapply IH; [done|]. by rewrite Nat.add_succ_comm.
Qed.

Lemma says_vfor {A} (l : list A) body msg i x : (∀ i x, grows (body i x)) →
  l !! i = Some x → says (body i x) msg → says (vfor l body) msg.
Proof. apply (says_vfor_from 0). Qed.

(** ** Panics *)

(** [m] does not return: with no error of its own, it panics. *)
Definition panics {A} (m : V A) : Prop := ∀ v, (m v).1 = Panic.

Lemma panics_bind_r {A B} (m : V A) (k : A → V B) : (∀ a, panics (k a)) → panics (m ≫= k).
Proof.
  intros Hk v. unfold mbind, M_bind. destruct (m v) as [[a|[]|] v1]; [apply Hk|done].
Qed.

Lemma panics_bind_l {A B} (m : V A) (k : A → V B) : panics m → panics (m ≫= k).
Proof.
  intros Hm v. unfold mbind, M_bind. specialize (Hm v). by destruct (m v) as [[a|[]|] v1].
Qed.
