(* ===== verification/GoUrl.v ===== *)
(** The parts of Go's [net/url] and [encoding/base64] the configuration uses: what
    [url.Parse] accepts, with the scheme and the host it finds (as of Go 1.23, the
    version of [go.mod]), and the decoding of padded base64. *)
From S2P Require Import Prelude.
From S2P Require Import GoText.
From S2P Require Import GoNet.
From S2P Require Import Validators.
From Stdlib Require Import Ascii.

(** ** Percent escapes *)

(** The parts of a URL whose escapes are decoded differently; paths, fragments and
    user names are alike as far as errors go. *)
Inductive encoding : Type := encodePath | encodeHost | encodeZone.

Definition alphanumeric (c : ascii) : bool := lower c || upper c || is_digit c.

(** [shouldEscape] for hosts and zones. *)
Definition shouldEscape (c : ascii) : bool :=
  negb (alphanumeric c || one_of
    ["!"; "$"; "&"; "'"; "("; ")"; "*"; "+"; ","; ";"; "="; ":"; "["; "]"; "<"; ">"; "034";
     "-"; "_"; "."; "~"]%char c).

(** An escape [%ab], given the values of its digits, and what it stands for. *)
Definition escape_ok (mode : encoding) (a b : Z) : bool :=
  let v := (16 * a + b)%Z in
  match mode with
  | encodePath => true
  | encodeHost => negb (a <? 8)%Z || (v =? 37)%Z
  | encodeZone => (v =? 37)%Z || (v =? 32)%Z || negb (shouldEscape (ascii_of_N (Z.to_N v)))
  end.

Definition plain_ok (mode : encoding) (c : ascii) : bool :=
  match mode with
  | encodePath => true
  | encodeHost | encodeZone => (128 <=? byte c)%Z || negb (shouldEscape c)
  end.

(** [unescape]; an error is [None]. *)
Fixpoint unescape (mode : encoding) (s : string) : option string :=
  match s with
  | "" => Some ""
  | String "%" s =>
      match s with
      | String a (String b s) =>
          match hex_value a, hex_value b with
          | Some x, Some y =>
              if escape_ok mode x y then String (ascii_of_N (Z.to_N (16 * x + y))) <$> unescape mode s else None
          | _, _ => None
          end
      | _ => None
      end
  | String c s => if plain_ok mode c then String c <$> unescape mode s else None
  end.

(** ** Authorities *)

(** [strings.Cut(s, sep)] at the first [%25]. *)
Fixpoint cut_zone (s : string) : option (string * string) :=
  match s with
  | "" => None
  | String c s' =>
      if HasPrefix s "%25" then Some ("", s)
      else match cut_zone s' with Some (a, b) => Some (String c a, b) | None => None end
  end.

(** [validOptionalPort] *)
Definition validOptionalPort (port : string) : bool :=
  match port with "" => true | String c s => bool_decide (c = ":"%char) && all_digits s end.

Definition parseHost (host : string) : option string :=
  if HasPrefix host "[" then
    match cut_last "]" host with
    | None => None
    | Some (inside, colonPort) =>
        if negb (validOptionalPort colonPort) then None else
        match cut_zone inside with
        | Some (addr, zone) =>
            h1 ← unescape encodeHost addr ; h2 ← unescape encodeZone zone ;
            h3 ← unescape encodeHost ("]" +:+ colonPort) ; Some (h1 +:+ h2 +:+ h3)
        | None => unescape encodeHost host
        end
    end
  else
    match cut_last ":" host with
    | Some (_, port) => if validOptionalPort (":" +:+ port) then unescape encodeHost host else None
    | None => unescape encodeHost host
    end.

Fixpoint validUserinfo (s : string) : bool :=
  match s with
  | "" => true
  | String c s =>
      (alphanumeric c || one_of
        ["-"; "."; "_"; ":"; "~"; "!"; "$"; "&"; "'"; "("; ")"; "*"; "+"; ","; ";"; "="; "%"; "@"]%char c)
      && validUserinfo s
  end.

(** [parseAuthority]: the host; the user is checked and dropped. *)
Definition parseAuthority (authority : string) : option string :=
  match cut_last "@" authority with
  | None => parseHost authority
  | Some (userinfo, host) =>
      host ← parseHost host ;
      if negb (validUserinfo userinfo) then None else
      let '(username, password) := default (userinfo, "") (cut_first ":" userinfo) in
      _ ← unescape encodePath username ; _ ← unescape encodePath password ; Some host
  end.

(** ** URLs *)

Record URL : Type := MkURL { Scheme : string; Host : string }.

Definition ctl_byte (c : ascii) : bool := (byte c <? 32)%Z || (byte c =? 127)%Z.

Fixpoint stringContainsCTLByte (s : string) : bool :=
  match s with "" => false | String c s => ctl_byte c || stringContainsCTLByte s end.

Fixpoint lower_text (s : string) : string :=
  match s with "" => "" | String c s => String (to_lower c) (lower_text s) end.

(** The loop of [getScheme]: [before] is what stands before [s].  Without a scheme
    the whole text is left over. *)
Fixpoint scheme_loop (rawURL before s : string) : option (string * string) :=
  match s with
  | "" => Some ("", rawURL)
  | String c s =>
      if lower c || upper c then scheme_loop rawURL (before +:+ String c "") s
      else if is_digit c || one_of ["+"; "-"; "."]%char c then
        if decide (before = "") then Some ("", rawURL) else scheme_loop rawURL (before +:+ String c "") s
      else if decide (c = ":"%char) then
        if decide (before = "") then None else Some (before, s)
      else Some ("", rawURL)
  end.

Definition getScheme (rawURL : string) : option (string * string) := scheme_loop rawURL "" rawURL.

Definition before (c : ascii) (s : string) : string := match cut_first c s with Some (a, _) => a | None => s end.

(** The end of [parse]: the authority and the path. *)
Definition parse_rest (scheme rest : string) (viaRequest : bool) : option URL :=
  if (bool_decide (scheme ≠ "") || negb viaRequest && negb (HasPrefix rest "///")) && HasPrefix rest "//" then
    let authority := TrimPrefix rest "//" in
    let '(authority, path) := match cut_first "/" authority with Some (a, p) => (a, "/" +:+ p) | None => (authority, "") end in
    host ← parseAuthority authority ; _ ← unescape encodePath path ; Some (MkURL scheme host)
  else _ ← unescape encodePath rest ; Some (MkURL scheme "").

Definition parse (rawURL : string) (viaRequest : bool) : option URL :=
  if stringContainsCTLByte rawURL then None
  else if bool_decide (rawURL = "") && viaRequest then None
  else if decide (rawURL = "*") then Some (MkURL "" "")
  else
    match getScheme rawURL with
    | None => None
    | Some (scheme, rest) =>
        let scheme := lower_text scheme in
        let rest := before "?" rest in
        if HasPrefix rest "/" then parse_rest scheme rest viaRequest
        else if decide (scheme ≠ "") then Some (MkURL scheme "")
        else if viaRequest then None
        else if has_byte ":" (before "/" rest) then None
        else parse_rest scheme rest viaRequest
    end.

(** [url.Parse]: the fragment is parsed last. *)
Definition url_Parse (rawURL : string) : option URL :=
  match cut_first "#" rawURL with
  | None => parse rawURL false
  | Some (u, frag) => url ← parse u false ; _ ← unescape encodePath frag ; Some url
  end.

Definition url_ParseRequestURI (rawURL : string) : option URL := parse rawURL true.

(** [helpers.IsValidURL] *)
Definition IsValidURL (rawURL : string) : bool :=
  let trimmedURL := TrimSpace rawURL in
  if decide (trimmedURL = "") then false
  else match url_Parse trimmedURL with
       | None => false
       | Some u => bool_decide (Scheme u ≠ "") && bool_decide (Host u ≠ "")
       end.

(** A URI with the scheme [http] or [https], as the container runtimes ask for. *)
Definition is_http_uri (s : string) : bool :=
  match url_ParseRequestURI s with
  | None => false
  | Some u => bool_decide (Scheme u = "http" ∨ Scheme u = "https")
  end.

(** ** base64 *)

(** The value of a letter of the standard alphabet. *)
Definition base64_value (c : ascii) : option Z :=
  if upper c then Some (byte c - 65)%Z
  else if lower c then Some (byte c - 71)%Z
  else if is_digit c then Some (byte c + 4)%Z
  else if decide (c = "+"%char) then Some 62%Z
  else if decide (c = "/"%char) then Some 63%Z
  else None.

Definition char_of (v : Z) : ascii := ascii_of_N (Z.to_N v).

(** The bytes of a quantum: three for four letters, one fewer for a letter less. *)
Definition quantum (a b c d : Z) : string :=
  String (char_of (4 * a + b / 16)) (String (char_of (16 * (b mod 16) + c / 4)) (String (char_of (64 * (c mod 4) + d)) "")).

Definition last_quantum (buf : list Z) : string :=
  match buf with
  | [a; b] => String (char_of (4 * a + b / 16)) ""
  | [a; b; c] => String (char_of (4 * a + b / 16)) (String (char_of (16 * (b mod 16) + c / 4)) "")
  | _ => ""
  end.

Definition line_break (c : ascii) : bool := one_of ["010"; "013"]%char c.

(** What is left after line breaks, and its position. *)
Fixpoint skip_breaks (si : Z) (s : string) : Z * string :=
  match s with
  | String c s' => if line_break c then skip_breaks (si + 1) s' else (si, s)
  | "" => (si, "")
  end.

(** After the padding nothing but line breaks may follow. *)
Definition base64_end (si : Z) (buf : list Z) (s : string) : Z + string :=
  let '(si, rest) := skip_breaks si s in
  if decide (rest = "") then inr (last_quantum buf) else inl si.

(** A padding character at position [si], after the letters [buf] of its quantum. *)
Definition base64_padding (si : Z) (buf : list Z) (s : string) : Z + string :=
  match length buf with
  | 0 | 1 => inl si
  | 2 =>
      match skip_breaks (si + 1) s with
      | (p, "") => inl p
      | (p, String c s) => if decide (c = "="%char) then base64_end (p + 1) buf s else inl (p - 1)%Z
      end
  | _ => base64_end (si + 1) buf s
  end.

(** [base64.StdEncoding.DecodeString] from position [si]: the text, or the position
    that is corrupt. *)
Fixpoint base64_from (si : Z) (buf : list Z) (s : string) : Z + string :=
  match s with
  | "" => if decide (buf = []) then inr "" else inl (si - Z.of_nat (length buf))%Z
  | String c s =>
      match base64_value c with
      | Some v =>
          match buf with
          | [x; y; z] =>
              match base64_from (si + 1) [] s with inr t => inr (quantum x y z v +:+ t) | inl e => inl e end
          | _ => base64_from (si + 1) (buf ++ [v]) s
          end
      | None =>
          if line_break c then base64_from (si + 1) buf s
          else if decide (c = "="%char) then base64_padding si buf s
          else inl si
      end
  end.

Definition base64_DecodeString (s : string) : Z + string := base64_from 0 [] s.

(** [CorruptInputError.Error()] *)
Definition CorruptInputError (si : Z) : string := "illegal base64 data at input byte " +:+ decimal si.

Example url_1 : url_Parse "https://user:pw@Mirror.io:5000/v2?x=1#f" = Some (MkURL "https" "Mirror.io:5000"). Proof. reflexivity. Qed.
Example url_2 : url_Parse "mirror.io:5000/v2" = Some (MkURL "mirror.io" ""). Proof. reflexivity. Qed.
Example url_3 : url_Parse "10.0.0.1:5000" = None. Proof. reflexivity. Qed.
Example url_4 : url_Parse "http://[fe80::1%25en0]:80/" = Some (MkURL "http" "[fe80::1%en0]:80"). Proof. reflexivity. Qed.
Example url_5 : url_Parse "http://a b/" = None. Proof. reflexivity. Qed.
Example url_6 : url_Parse "http://h:8x/" = None. Proof. reflexivity. Qed.
Example uri_1 : is_http_uri "HTTP:opaque" = true. Proof. reflexivity. Qed.
Example uri_2 : is_http_uri "mirror.io/v2" = false. Proof. reflexivity. Qed.
Example base64_1 : base64_DecodeString "YWRtaW46cHc=" = inr "admin:pw". Proof. vm_compute. reflexivity. Qed.
Example base64_2 : base64_DecodeString "YW" = inl 0%Z. Proof. vm_compute. reflexivity. Qed.
Example base64_3 : base64_DecodeString "YWRtYQ=" = inl 7%Z. Proof. vm_compute. reflexivity. Qed.
Example base64_4 : base64_DecodeString "YWR!" = inl 3%Z. Proof. vm_compute. reflexivity. Qed.
