(* ===== verification/LoadBalancerTypes.v ===== *)
(** The load balancer sections of a cluster configuration and their defaults:
    [apis/kubexms/v1alpha1/keepalived_types.go], [haproxy_types.go],
    [nginx_lb_types.go], [kubevip_types.go], [ha_types.go].  Slices are lists: a
    nil slice and an empty one are the same.

    The etcd section of a cluster configuration, its defaults and its validation:
    [apis/kubexms/v1alpha1/etcd_types.go]. *)
From S2P Require Import Prelude.
From S2P Require Import GoText.
From S2P Require Import ValidationErrors.

(** [if p == nil { p = &d }] *)
Definition or_ptr {A} (p : option A) (d : A) : option A := Some (default d p).

(** [if s == "" { s = d }] and [if n == 0 { n = d }] *)
Definition or_text (s d : string) : string := if decide (s = "") then d else s.
Definition or_int (n d : Z) : Z := if decide (n = 0%Z) then d else n.

(** ** keepalived *)

Record GlobalDefinitions : Type := MkGlobalDefinitions {
  RouterID : string; NotificationEmail : list string; SkipCheckAdvAddr : option bool;
  GarpInterval : option Z; GnaInterval : option Z;
}.

Record VRRPScript : Type := MkVRRPScript {
  VRRPScript_Name : string; Script : string; Interval : option Z; VRRPScript_Weight : option Z;
  Fall : option Z; Rise : option Z;
}.

Record Authentication : Type := MkAuthentication { AuthType : string; AuthPass : string }.

Record VRRPInstance : Type := MkVRRPInstance {
  VRRPInstance_Name : string; VRRPInstance_State : string; Interface : string; VirtualRouterID : Z;
  Priority : Z; AdvertInt : option Z; Preempt : option bool; Auth : option Authentication;
  VirtualIPs : list string; UnicastSrcIP : option string; UnicastPeers : list string;
  TrackScripts : list string;
}.

Record HTTPCheck : Type := MkHTTPCheck { Path : string; Digest : string; StatusCode : option Z }.
Record TCPCheck : Type := MkTCPCheck { ConnectPort : option Z }.

Record HealthCheck : Type := MkHealthCheck {
  ConnectTimeout : option Z; NbGetRetry : option Z; DelayBeforeRetry : option Z;
  HealthCheck_TCPCheck : option TCPCheck; HealthCheck_HTTPCheck : option HTTPCheck;
}.

Record RealServer : Type := MkRealServer {
  RealServer_Address : string; RealServer_Weight : option Z; RealServer_HealthCheck : option HealthCheck;
}.

Record VirtualServer : Type := MkVirtualServer {
  VirtualAddress : string; DelayLoop : option Z; LBAlgo : string; LBKind : string; Protocol : string;
  RealServers : list RealServer;
}.

Record KeepalivedConfig : Type := MkKeepalivedConfig {
  GlobalDefs : option GlobalDefinitions; VRRPScripts : list VRRPScript;
  VRRPInstances : list VRRPInstance; VirtualServers : list VirtualServer;
}.

Definition SetDefaults_GlobalDefinitions (c : GlobalDefinitions) : GlobalDefinitions :=
  MkGlobalDefinitions (or_text (RouterID c) "LVS_DEVEL") (NotificationEmail c)
    (or_ptr (SkipCheckAdvAddr c) true) (or_ptr (GarpInterval c) 0%Z) (or_ptr (GnaInterval c) 0%Z).

Definition SetDefaults_VRRPScript (s : VRRPScript) : VRRPScript :=
  MkVRRPScript (VRRPScript_Name s) (Script s) (or_ptr (Interval s) 5%Z) (VRRPScript_Weight s)
    (or_ptr (Fall s) 2%Z) (or_ptr (Rise s) 2%Z).

Definition SetDefaults_VRRPInstance (i : VRRPInstance) : VRRPInstance :=
  MkVRRPInstance (VRRPInstance_Name i) (VRRPInstance_State i) (Interface i) (VirtualRouterID i)
    (Priority i) (or_ptr (AdvertInt i) 1%Z) (or_ptr (Preempt i) true)
    (or_ptr (Auth i) (MkAuthentication "PASS" "kxm_pass"))
    (VirtualIPs i) (UnicastSrcIP i) (UnicastPeers i) (TrackScripts i).

Definition SetDefaults_HealthCheck (h : HealthCheck) : HealthCheck :=
  MkHealthCheck (or_ptr (ConnectTimeout h) 3%Z) (or_ptr (NbGetRetry h) 3%Z)
    (or_ptr (DelayBeforeRetry h) 3%Z) (HealthCheck_TCPCheck h)
    (match HealthCheck_HTTPCheck h with
     | Some c => Some (MkHTTPCheck (Path c) (Digest c) (or_ptr (StatusCode c) 200%Z))
     | None => None
     end).

Definition SetDefaults_RealServer (r : RealServer) : RealServer :=
  MkRealServer (RealServer_Address r) (or_ptr (RealServer_Weight r) 1%Z)
    (SetDefaults_HealthCheck <$> RealServer_HealthCheck r).

Definition SetDefaults_VirtualServer (v : VirtualServer) : VirtualServer :=
  MkVirtualServer (VirtualAddress v) (or_ptr (DelayLoop v) 5%Z) (or_text (LBAlgo v) "rr")
    (or_text (LBKind v) "DR") (or_text (Protocol v) "TCP") (SetDefaults_RealServer <$> RealServers v).

Definition SetDefaults_KeepalivedConfig (c : KeepalivedConfig) : KeepalivedConfig :=
  MkKeepalivedConfig
    (Some (SetDefaults_GlobalDefinitions (default (MkGlobalDefinitions "" [] None None None) (GlobalDefs c))))
    (SetDefaults_VRRPScript <$> VRRPScripts c)
    (SetDefaults_VRRPInstance <$> VRRPInstances c)
    (SetDefaults_VirtualServer <$> VirtualServers c).

(** ** HAProxy *)

Record HAProxyHealthCheck : Type := MkHAProxyHealthCheck {
  HAProxyHealthCheck_Enabled : option bool; HAProxyHealthCheck_Interval : option string;
  HAProxyHealthCheck_Rise : option Z; HAProxyHealthCheck_Fall : option Z;
}.

Record HAProxyBackendServer : Type := MkHAProxyBackendServer {
  HAProxyBackendServer_Name : string; HAProxyBackendServer_Address : string; HAProxyBackendServer_Port : Z;
  HAProxyBackendServer_Weight : option Z; HAProxyBackendServer_HealthCheck : option HAProxyHealthCheck;
}.

Record HAProxyConfig : Type := MkHAProxyConfig {
  FrontendBindAddress : option string; FrontendPort : option Z; HAProxy_Mode : option string;
  HAProxy_BalanceAlgorithm : option string; BackendServers : list HAProxyBackendServer;
  ExtraGlobalConfig : list string; ExtraDefaultsConfig : list string; ExtraFrontendConfig : list string;
  ExtraBackendConfig : list string; HAProxy_SkipInstall : option bool;
}.

Definition SetDefaults_HAProxyHealthCheck (c : HAProxyHealthCheck) : HAProxyHealthCheck :=
  MkHAProxyHealthCheck (or_ptr (HAProxyHealthCheck_Enabled c) true)
    (or_ptr (HAProxyHealthCheck_Interval c) "2s") (or_ptr (HAProxyHealthCheck_Rise c) 2%Z)
    (or_ptr (HAProxyHealthCheck_Fall c) 3%Z).

Definition SetDefaults_HAProxyBackendServer (s : HAProxyBackendServer) : HAProxyBackendServer :=
  MkHAProxyBackendServer (HAProxyBackendServer_Name s) (HAProxyBackendServer_Address s)
    (HAProxyBackendServer_Port s) (or_ptr (HAProxyBackendServer_Weight s) 1%Z)
    (Some (SetDefaults_HAProxyHealthCheck
      (default (MkHAProxyHealthCheck None None None None) (HAProxyBackendServer_HealthCheck s)))).

Definition SetDefaults_HAProxyConfig (c : HAProxyConfig) : HAProxyConfig :=
  MkHAProxyConfig (or_ptr (FrontendBindAddress c) "0.0.0.0") (or_ptr (FrontendPort c) 6443%Z)
    (or_ptr (HAProxy_Mode c) "tcp") (or_ptr (HAProxy_BalanceAlgorithm c) "roundrobin")
    (SetDefaults_HAProxyBackendServer <$> BackendServers c)
    (ExtraGlobalConfig c) (ExtraDefaultsConfig c) (ExtraFrontendConfig c) (ExtraBackendConfig c)
    (or_ptr (HAProxy_SkipInstall c) false).

(** ** nginx *)

Record NginxHealthCheck : Type := MkNginxHealthCheck {
  MaxFails : option Z; FailTimeout : option string;
}.

Record NginxLBUpstreamServer : Type := MkNginxLBUpstreamServer {
  Upstream_Address : string; Upstream_Weight : option Z; Upstream_HealthCheck : option NginxHealthCheck;
}.

Record NginxLBConfig : Type := MkNginxLBConfig {
  ListenAddress : option string; ListenPort : option Z; Nginx_Mode : option string;
  Nginx_BalanceAlgorithm : option string; UpstreamServers : list NginxLBUpstreamServer;
  ExtraHTTPConfig : list string; ExtraStreamConfig : list string; ExtraServerConfig : list string;
  ConfigFilePath : option string; Nginx_SkipInstall : option bool;
}.

Definition SetDefaults_NginxHealthCheck (c : NginxHealthCheck) : NginxHealthCheck :=
  MkNginxHealthCheck (or_ptr (MaxFails c) 2%Z) (or_ptr (FailTimeout c) "10s").

Definition SetDefaults_NginxLBUpstreamServer (s : NginxLBUpstreamServer) : NginxLBUpstreamServer :=
  MkNginxLBUpstreamServer (Upstream_Address s) (or_ptr (Upstream_Weight s) 1%Z)
    (Some (SetDefaults_NginxHealthCheck (default (MkNginxHealthCheck None None) (Upstream_HealthCheck s)))).

Definition SetDefaults_NginxLBConfig (c : NginxLBConfig) : NginxLBConfig :=
  MkNginxLBConfig (or_ptr (ListenAddress c) "0.0.0.0") (or_ptr (ListenPort c) 6443%Z)
    (or_ptr (Nginx_Mode c) "tcp") (or_ptr (Nginx_BalanceAlgorithm c) "round_robin")
    (SetDefaults_NginxLBUpstreamServer <$> UpstreamServers c)
    (ExtraHTTPConfig c) (ExtraStreamConfig c) (ExtraServerConfig c)
    (or_ptr (ConfigFilePath c) "/etc/nginx/nginx.conf") (or_ptr (Nginx_SkipInstall c) false).

(** ** kube-vip *)

Record KubeVIPBGPConfig : Type := MkKubeVIPBGPConfig {
  BGP_RouterID : string; PeerAddress : string; PeerASN : Z; ASN : Z; SourceAddress : string;
}.

Record KubeVIPConfig : Type := MkKubeVIPConfig {
  KubeVIP_Mode : option string; VIP : option string; KubeVIP_Interface : option string;
  EnableControlPlaneLB : option bool; EnableServicesLB : option bool; Image : option string;
  KubeVIP_ExtraArgs : list string; BGPConfig : option KubeVIPBGPConfig;
}.

Definition SetDefaults_KubeVIPConfig (c : KubeVIPConfig) : KubeVIPConfig :=
  let mode := default "ARP" (KubeVIP_Mode c) in
  MkKubeVIPConfig (Some mode) (VIP c) (KubeVIP_Interface c)
    (or_ptr (EnableControlPlaneLB c) true) (or_ptr (EnableServicesLB c) false)
    (Some (or_text (default "" (Image c)) "ghcr.io/kube-vip/kube-vip:v0.7.0"))
    (KubeVIP_ExtraArgs c)
    (if decide (mode = "BGP") then or_ptr (BGPConfig c) (MkKubeVIPBGPConfig "" "" 0 0 "") else BGPConfig c).

(** ** High availability: [ha_types.go] *)

Definition ExternalLBTypeKubeVIP : string := "kube-vip".
Definition ExternalLBTypeKubexmKH : string := "kubexm-kh".
Definition ExternalLBTypeKubexmKN : string := "kubexm-kn".
Definition ExternalLBTypeExternal : string := "external".
Definition InternalLBTypeHAProxy : string := "haproxy".
Definition InternalLBTypeNginx : string := "nginx".
Definition InternalLBTypeKubeVIP : string := "kube-vip".

Record ExternalLoadBalancerConfig : Type := MkExternalLB {
  External_Enabled : option bool; External_Type : string; External_Keepalived : option KeepalivedConfig;
  External_HAProxy : option HAProxyConfig; External_NginxLB : option NginxLBConfig;
  External_KubeVIP : option KubeVIPConfig; LoadBalancerHostGroupName : option string;
}.

Record InternalLoadBalancerConfig : Type := MkInternalLB {
  Internal_Enabled : option bool; Internal_Type : string;
  WorkerNodeHAProxy : option HAProxyConfig; WorkerNodeNginxLB : option NginxLBConfig;
}.

Record HighAvailability : Type := MkHighAvailability {
  HA_Enabled : option bool; External : option ExternalLoadBalancerConfig;
  Internal : option InternalLoadBalancerConfig;
}.

Definition empty_Keepalived : KeepalivedConfig := MkKeepalivedConfig None [] [] [].
Definition empty_HAProxy : HAProxyConfig := MkHAProxyConfig None None None None [] [] [] [] [] None.
Definition empty_NginxLB : NginxLBConfig := MkNginxLBConfig None None None None [] [] [] [] None None.
Definition empty_KubeVIP : KubeVIPConfig := MkKubeVIPConfig None None None None None None [] None.
Definition empty_ExternalLB : ExternalLoadBalancerConfig := MkExternalLB None "" None None None None None.
Definition empty_InternalLB : InternalLoadBalancerConfig := MkInternalLB None "" None None.
Definition empty_HA : HighAvailability := MkHighAvailability None None None.

Definition SetDefaults_ExternalLoadBalancerConfig (c : ExternalLoadBalancerConfig) : ExternalLoadBalancerConfig :=
  let '(MkExternalLB en ty ka ha ng kv gr) := c in
  let enabled := default (bool_decide (ty ≠ "")) en in
  let keepalived := Some (SetDefaults_KeepalivedConfig (default empty_Keepalived ka)) in
  let haproxy := Some (SetDefaults_HAProxyConfig (default empty_HAProxy ha)) in
  let nginx := Some (SetDefaults_NginxLBConfig (default empty_NginxLB ng)) in
  let kubevip := Some (SetDefaults_KubeVIPConfig (default empty_KubeVIP kv)) in
  if negb enabled then MkExternalLB (Some enabled) ty ka ha ng kv gr
  else if decide (ty = ExternalLBTypeKubexmKH) then MkExternalLB (Some enabled) ty keepalived haproxy ng kv gr
  else if decide (ty = ExternalLBTypeKubexmKN) then MkExternalLB (Some enabled) ty keepalived ha nginx kv gr
  else if decide (ty = ExternalLBTypeKubeVIP) then MkExternalLB (Some enabled) ty ka ha ng kubevip gr
  else MkExternalLB (Some enabled) ty ka ha ng kv gr.

Definition SetDefaults_InternalLoadBalancerConfig (c : InternalLoadBalancerConfig) : InternalLoadBalancerConfig :=
  let '(MkInternalLB en ty ha ng) := c in
  let enabled := default (bool_decide (ty ≠ "")) en in
  if negb enabled then MkInternalLB (Some enabled) ty ha ng
  else if decide (ty = InternalLBTypeHAProxy) then
    MkInternalLB (Some enabled) ty (Some (SetDefaults_HAProxyConfig (default empty_HAProxy ha))) ng
  else if decide (ty = InternalLBTypeNginx) then
    MkInternalLB (Some enabled) ty ha (Some (SetDefaults_NginxLBConfig (default empty_NginxLB ng)))
  else MkInternalLB (Some enabled) ty ha ng.

Definition with_External_Enabled (b : bool) (c : ExternalLoadBalancerConfig) : ExternalLoadBalancerConfig :=
  let '(MkExternalLB _ ty ka ha ng kv gr) := c in MkExternalLB (Some b) ty ka ha ng kv gr.

Definition with_Internal_Enabled (b : bool) (c : InternalLoadBalancerConfig) : InternalLoadBalancerConfig :=
  let '(MkInternalLB _ ty ha ng) := c in MkInternalLB (Some b) ty ha ng.

(** When both load balancers are enabled the external one is switched off. *)
Definition SetDefaults_HighAvailabilityConfig (c : HighAvailability) : HighAvailability :=
  let '(MkHighAvailability en ext int) := c in
  let enabled := default false en in
  let ext := if enabled then SetDefaults_ExternalLoadBalancerConfig <$> ext else ext in
  let int := if enabled then SetDefaults_InternalLoadBalancerConfig <$> int else int in
  match ext, int with
  | Some e, Some i =>
      if bool_decide (External_Enabled e = Some true) && bool_decide (Internal_Enabled i = Some true)
      then MkHighAvailability (Some enabled) (Some (with_External_Enabled false e)) (Some (with_Internal_Enabled true i))
      else MkHighAvailability (Some enabled) ext int
  | _, _ => MkHighAvailability (Some enabled) ext int
  end.

Definition EtcdDeploymentTypeKubeadm : string := "kubeadm".
Definition EtcdDeploymentTypeKubexm : string := "kubexm".
Definition EtcdDeploymentTypeExternal : string := "external".

Definition SupportedEtcdDeploymentTypes : list string :=
  [EtcdDeploymentTypeKubeadm; EtcdDeploymentTypeKubexm; EtcdDeploymentTypeExternal].

Definition ValidEtcdMetricsLevels : list string := ["basic"; "extensive"].
Definition ValidEtcdLogLevels : list string := ["debug"; "info"; "warn"; "error"; "panic"; "fatal"].

Record ExternalEtcdConfig : Type := MkExternalEtcd {
  Endpoints : list string; CAFile : string; CertFile : string; KeyFile : string;
}.

Record EtcdClusterConfig : Type := MkEtcdCluster {
  ClientPort : option Z; PeerPort : option Z; DataDir : option string; ClusterToken : string;
  ExtraArgs : gomap string;
}.

Record EtcdBackupConfig : Type := MkEtcdBackup {
  BackupDir : option string; PeriodHours : option Z; KeepNumber : option Z; ScriptPath : option string;
}.

Record EtcdPerformanceTuning : Type := MkEtcdPerformance {
  HeartbeatIntervalMillis : option Z; ElectionTimeoutMillis : option Z; SnapshotCount : option Z;
  AutoCompactionRetention : option Z; QuotaBackendBytes : option Z; MaxRequestBytes : option Z;
  MaxSnapshots : option Z; MaxWALs : option Z; Metrics : option string; LogLevel : option string;
}.

Record Etcd : Type := MkEtcd {
  Etcd_Type : string; Etcd_Version : string; Etcd_External : option ExternalEtcdConfig;
  ClusterConfig : option EtcdClusterConfig; BackupConfig : option EtcdBackupConfig;
  PerformanceTuning : option EtcdPerformanceTuning;
}.

Definition empty_Etcd : Etcd := MkEtcd "" "" None None None None.

Definition SetDefaults_EtcdClusterConfig (c : EtcdClusterConfig) : EtcdClusterConfig :=
  MkEtcdCluster (or_ptr (ClientPort c) 2379%Z) (or_ptr (PeerPort c) 2380%Z)
    (or_ptr (DataDir c) "/var/lib/etcd") (or_text (ClusterToken c) "kubexm-etcd-default-token") (ExtraArgs c).

Definition SetDefaults_EtcdBackupConfig (c : EtcdBackupConfig) : EtcdBackupConfig :=
  MkEtcdBackup (or_ptr (BackupDir c) "/var/backups/etcd") (or_ptr (PeriodHours c) 24%Z)
    (or_ptr (KeepNumber c) 7%Z) (or_ptr (ScriptPath c) "/usr/local/kubexm/bin/etcd.sh").

Definition SetDefaults_EtcdPerformanceTuning (c : EtcdPerformanceTuning) : EtcdPerformanceTuning :=
  MkEtcdPerformance (or_ptr (HeartbeatIntervalMillis c) 250%Z) (or_ptr (ElectionTimeoutMillis c) 5000%Z)
    (or_ptr (SnapshotCount c) 10000%Z) (or_ptr (AutoCompactionRetention c) 8%Z)
    (or_ptr (QuotaBackendBytes c) 2147483648%Z) (or_ptr (MaxRequestBytes c) 1572864%Z)
    (or_ptr (MaxSnapshots c) 5%Z) (or_ptr (MaxWALs c) 5%Z) (or_ptr (Metrics c) "basic")
    (or_ptr (LogLevel c) "info").

Definition SetDefaults_Etcd (c : Etcd) : Etcd :=
  let '(MkEtcd ty ver ext cl bk pf) := c in
  let ty := or_text ty EtcdDeploymentTypeKubexm in
  if decide (ty = EtcdDeploymentTypeKubexm) then
    MkEtcd ty ver ext
      (Some (SetDefaults_EtcdClusterConfig (default (MkEtcdCluster None None None "" None) cl)))
      (Some (SetDefaults_EtcdBackupConfig (default (MkEtcdBackup None None None None) bk)))
      (Some (SetDefaults_EtcdPerformanceTuning
        (default (MkEtcdPerformance None None None None None None None None None None) pf)))
  else if decide (ty = EtcdDeploymentTypeExternal) then
    MkEtcd ty ver (or_ptr ext (MkExternalEtcd [] "" "" "")) cl bk pf
  else MkEtcd ty ver ext cl bk pf.

(** A pointer to an integer that is set and satisfies [p]. *)
Definition int_is (p : Z → bool) (n : option Z) : bool := match n with Some n => p n | None => false end.
Definition show_int (n : option Z) : string := decimal (default 0%Z n).

(** A port outside 1-65535. *)
Definition bad_port (n : Z) : bool := ((n <=? 0) || (65535 <? n))%Z.

Definition Validate_ExternalEtcdConfig (c : ExternalEtcdConfig) (p : string) : V unit :=
  vif (bool_decide (Endpoints c = [])) (Add (p +:+ ".endpoints: must contain at least one endpoint")) ;;
  vfor (Endpoints c) (λ i ep,
    vif (blank ep) (Add (p +:+ ".endpoints" +:+ index i +:+ ": endpoint cannot be empty"))) ;;
  vif (xorb (bool_decide (CertFile c = "")) (bool_decide (KeyFile c = "")))
    (Add (p +:+ ": certFile and keyFile must be specified together for mTLS")) ;;
  vif (bool_decide (CAFile c = "") && bool_decide (CertFile c ≠ ""))
    (Add (p +:+ ": caFile must be specified when using mTLS (certFile and keyFile)")) ;;
  vfor [CAFile c; CertFile c; KeyFile c] (λ _ cert,
    vif (bool_decide (cert ≠ "") && blank cert)
      (Add (p +:+ ": certificate path cannot contain only whitespace"))).

Definition Validate_EtcdClusterConfig (c : EtcdClusterConfig) (p : string) : V unit :=
  vif (int_is bad_port (ClientPort c))
    (Add (p +:+ ".clientPort: invalid port " +:+ show_int (ClientPort c) +:+ ", must be between 1-65535")) ;;
  vif (int_is bad_port (PeerPort c))
    (Add (p +:+ ".peerPort: invalid port " +:+ show_int (PeerPort c) +:+ ", must be between 1-65535")) ;;
  vif (match DataDir c with Some d => blank d | None => false end)
    (Add (p +:+ ".dataDir: cannot be empty if specified")) ;;
  vif (blank (ClusterToken c)) (Add (p +:+ ".clusterToken: cannot be empty")).

Definition Validate_EtcdBackupConfig (c : EtcdBackupConfig) (p : string) : V unit :=
  vif (int_is (λ n, n <? 0)%Z (PeriodHours c))
    (Add (p +:+ ".periodHours: cannot be negative, got " +:+ show_int (PeriodHours c))) ;;
  vif (int_is (λ n, n <? 0)%Z (KeepNumber c))
    (Add (p +:+ ".keepNumber: cannot be negative, got " +:+ show_int (KeepNumber c))).

Definition Validate_EtcdPerformanceTuning (c : EtcdPerformanceTuning) (p : string) : V unit :=
  let int field bad n msg :=
    vif (int_is bad n) (Add (p +:+ "." +:+ field +:+ ": " +:+ msg +:+ show_int n)) in
  let level field t valid :=
    match t with
    | Some t => vif (bool_decide (t ≠ "") && negb (slice_contains valid t))
        (Add (p +:+ "." +:+ field +:+ ": invalid value '" +:+ t +:+ "', must be one of " +:+ show_slice valid))
    | None => mret tt
    end in
  int "heartbeatIntervalMillis" (λ n, n <=? 0)%Z (HeartbeatIntervalMillis c) "must be positive, got " ;;
  int "electionTimeoutMillis" (λ n, n <=? 0)%Z (ElectionTimeoutMillis c) "must be positive, got " ;;
  int "snapshotCount" (λ n, n =? 0)%Z (SnapshotCount c) "must be a positive value if set, got " ;;
  int "autoCompactionRetention" (λ n, n <? 0)%Z (AutoCompactionRetention c) "cannot be negative, got " ;;
  int "quotaBackendBytes" (λ n, n <? 0)%Z (QuotaBackendBytes c) "cannot be negative, got " ;;
  int "maxRequestBytes" (λ n, n =? 0)%Z (MaxRequestBytes c) "must be positive if set, got " ;;
  int "maxSnapshots" (λ n, n =? 0)%Z (MaxSnapshots c) "must be positive if set, got " ;;
  int "maxWals" (λ n, n =? 0)%Z (MaxWALs c) "must be positive if set, got " ;;
  level "metrics" (Metrics c) ValidEtcdMetricsLevels ;;
  level "logLevel" (LogLevel c) ValidEtcdLogLevels.

Definition Validate_Etcd (c : Etcd) (pathPrefix : string) : V unit :=
  let p := path_Join [pathPrefix] in
  let sub s := path_Join [p; s] in
  vif (negb (slice_contains SupportedEtcdDeploymentTypes (Etcd_Type c)))
    (Add (p +:+ ".type: invalid type '" +:+ Etcd_Type c +:+ "', must be one of "
          +:+ show_slice SupportedEtcdDeploymentTypes)) ;;
  if decide (Etcd_Type c = EtcdDeploymentTypeExternal) then
    match Etcd_External c with
    | None => Add (sub "external" +:+ ": must be defined if etcd.type is 'external'")
    | Some e => Validate_ExternalEtcdConfig e (sub "external")
    end ;;
    vif (bool_decide (is_Some (ClusterConfig c)))
      (Add (sub "cluster" +:+ ": cannot be set when etcd.type is 'external'")) ;;
    vif (bool_decide (is_Some (BackupConfig c)))
      (Add (sub "backup" +:+ ": cannot be set when etcd.type is 'external'")) ;;
    vif (bool_decide (is_Some (PerformanceTuning c)))
      (Add (sub "performance" +:+ ": cannot be set when etcd.type is 'external'"))
  else if decide (Etcd_Type c = EtcdDeploymentTypeKubexm) then
    vif (bool_decide (is_Some (Etcd_External c)))
      (Add (sub "external" +:+ ": cannot be set when etcd.type is not 'external'")) ;;
    match ClusterConfig c with Some x => Validate_EtcdClusterConfig x (sub "cluster") | None => mret tt end ;;
    match BackupConfig c with Some x => Validate_EtcdBackupConfig x (sub "backup") | None => mret tt end ;;
    match PerformanceTuning c with
    | Some x => Validate_EtcdPerformanceTuning x (sub "performance")
    | None => mret tt
    end
  else mret tt.
