(* ===== verification/EndpointTypes.v ===== *)
(** The control plane endpoint of a cluster configuration, its defaults and its
    validation: [apis/kubexms/v1alpha1/endpoint_types.go]. *)
From S2P Require Import Prelude.
From S2P Require Import GoText.
From S2P Require Import Validators.
From S2P Require Import ValidationErrors.
From S2P Require Import LoadBalancerTypes.

Definition ExternalLBTypeNone : string := "".

Definition SupportedInternalLoadBalancerTypes : list string :=
  [InternalLBTypeHAProxy; InternalLBTypeNginx; InternalLBTypeKubeVIP].

Definition SupportedExternalLoadBalancerTypes : list string :=
  [ExternalLBTypeKubeVIP; ExternalLBTypeKubexmKH; ExternalLBTypeKubexmKN; ExternalLBTypeExternal;
   ExternalLBTypeNone].

Record ControlPlaneEndpointSpec : Type := MkEndpoint {
  Domain : string; Address : string; Port : Z; ExternalDNS : option bool;
  ExternalLoadBalancerType : string; InternalLoadBalancerType : string;
  Endpoint_HighAvailability : option HighAvailability;
}.

Definition empty_Endpoint : ControlPlaneEndpointSpec := MkEndpoint "" "" 0 None "" "" None.

(** [k.VRRPInstances[0].VirtualIPs[0] = address], when there is such an element. *)
Definition set_first_vip (address : string) (k : KeepalivedConfig) : KeepalivedConfig :=
  match VRRPInstances k with
  | MkVRRPInstance n st itf id pr ad pre au (_ :: vips) src peers scripts :: rest =>
      MkKeepalivedConfig (GlobalDefs k) (VRRPScripts k)
        (MkVRRPInstance n st itf id pr ad pre au (address :: vips) src peers scripts :: rest)
        (VirtualServers k)
  | _ => k
  end.

(** What an address together with an external load balancer type switches on. *)
Definition enable_external (address ty : string) (ha : option HighAvailability) : HighAvailability :=
  let '(MkHighAvailability _ ext int) := default empty_HA ha in
  let '(MkExternalLB _ _ ka hp ng kv gr) := default empty_ExternalLB ext in
  MkHighAvailability (Some true)
    (Some (MkExternalLB (Some true) ty (set_first_vip address <$> ka) hp ng kv gr)) int.

Definition enable_internal (ty : string) (ha : option HighAvailability) : HighAvailability :=
  let '(MkHighAvailability _ ext int) := default empty_HA ha in
  let '(MkInternalLB _ _ hp ng) := default empty_InternalLB int in
  MkHighAvailability (Some true) ext (Some (MkInternalLB (Some true) ty hp ng)).

Definition SetDefaults_ControlPlaneEndpointSpec (c : ControlPlaneEndpointSpec) : ControlPlaneEndpointSpec :=
  let '(MkEndpoint dom addr port dns ext int ha) := c in
  let port := or_int port 6443 in
  let int := if bool_decide (ext = "") && bool_decide (int = "") then InternalLBTypeHAProxy else int in
  let dom := or_text dom "local.kubexm.io" in
  let dns := or_ptr dns false in
  let ha := if bool_decide (addr ≠ "") && Helpers.IsValidIP addr && bool_decide (ext ≠ "")
            then Some (enable_external addr ext ha) else ha in
  let '(ha, addr) :=
    if decide (int ≠ "") then
      (Some (enable_internal int ha),
       if bool_decide (ext = "") && bool_decide (addr = "") && bool_decide (int ≠ InternalLBTypeKubeVIP)
       then "127.0.0.1" else addr)
    else (ha, addr) in
  MkEndpoint dom addr port dns ext int (SetDefaults_HighAvailabilityConfig <$> ha).

(** [*cfg.HighAvailability.Enabled && *cfg.HighAvailability.External.Enabled]:
    four pointers, none of which is tested for nil. *)
Definition external_ha_enabled (c : ControlPlaneEndpointSpec) : V bool :=
  ha ← deref (Endpoint_HighAvailability c) ;
  en ← deref (HA_Enabled ha) ;
  if (en : bool) then
    ext ← deref (External ha) ;
    deref (External_Enabled ext)
  else mret false.

(** The test of [ExternalDNS] compares a pointer with that of a fresh variable: it
    is never true. *)
Definition Validate_ControlPlaneEndpointSpec (c : ControlPlaneEndpointSpec) (p : string) : V unit :=
  let ext := ExternalLoadBalancerType c in
  let int := InternalLoadBalancerType c in
  vif (blank (Domain c)) (Add (p +:+ ": domain must be specified")) ;;
  vif (bool_decide (ext ≠ "") && blank (Address c))
    (Add (p +:+ ": address must be specified when external-loadbalancer is enabled")) ;;
  vif (bool_decide (ext = "") && bool_decide (int = "") && negb (blank (Address c)))
    (Add (p +:+ ": address must be empty when no loadbalancer is enabled")) ;;
  vif (bool_decide (int = InternalLBTypeKubeVIP) && blank (Address c))
    (Add (p +:+ ": address must be specified when kube-vip internal loadbalancer is enabled")) ;;
  vif (bool_decide (ext ≠ "") && bool_decide (int ≠ ""))
    (Add (p +:+ ": internal-loadbalancer must be empty when external-loadbalancer is enabled")) ;;
  vif (bool_decide (Domain c ≠ "") && negb (Helpers.IsValidDomainName (Domain c)))
    (Add (p +:+ ".domain: '" +:+ Domain c +:+ "' is not a valid domain name")) ;;
  vif (bool_decide (Address c ≠ "") && negb (Helpers.IsValidIP (Address c)))
    (Add (p +:+ ".address (lb_address): invalid IP address format for '" +:+ Address c +:+ "'")) ;;
  vif (bool_decide (Port c ≠ 0%Z) && ((Port c <=? 0) || (65535 <? Port c))%Z)
    (Add (p +:+ ".port: invalid port " +:+ decimal (Port c) +:+ ", must be between 1-65535")) ;;
  vif (bool_decide (ext ≠ "") && negb (slice_contains SupportedExternalLoadBalancerTypes ext))
    (Add (p +:+ ".externalLoadBalancerType: invalid type '" +:+ ext +:+ "', must be one of "
          +:+ show_slice SupportedExternalLoadBalancerTypes +:+ " or empty")) ;;
  vif (bool_decide (int ≠ "") && negb (slice_contains SupportedInternalLoadBalancerTypes int))
    (Add (p +:+ ".internalLoadBalancerType (internalLoadbalancer): invalid type '" +:+ int
          +:+ "', must be one of " +:+ show_slice SupportedInternalLoadBalancerTypes +:+ " or empty")) ;;
  enabled ← external_ha_enabled c ;
  vif (enabled && bool_decide (Address c = ""))
    (Add (p +:+ ".highAvailability.external.enabled and address cannot be empty")).
