(* ===== verification/ClusterTypes.v ===== *)
(** The cluster configuration as the loader fills it in and validates it:
    [apis/kubexms/v1alpha1/cluster_types.go], with [helpers/helper.go] for the
    working directories.  The sections about Kubernetes, network, DNS, storage,
    registry, addons, preflight and extras are behind the class [Sections]. *)
From S2P Require Import Prelude.
From S2P Require Import GoPath.
From S2P Require Import GoText.
From S2P Require Import GoNet.
From S2P Require Import Validators.
From S2P Require Import ValidationErrors.
From S2P Require Import LoadBalancerTypes.
From S2P Require Import EndpointTypes.
From Stdlib Require Import Ascii.

(** ** The machine the loader runs on *)

Inductive stat_result : Type := IsDirectory | NotDirectory | NotExist | StatError.

(** The operating system: file status, [os.MkdirAll], and the directory of the
    program, [filepath.Abs(filepath.Dir(os.Args[0]))]. *)
Class OS : Type := {
  disk : Type;
  os_Stat : string → disk → stat_result;
  os_MkdirAll : string → M disk unit unit;
  program_dir : option string;
}.

Section workdirs.
Context `{OS}.

(** [helpers.CreateDir] *)
Definition CreateDir (path : string) : M disk unit unit := λ d,
  match os_Stat path d with
  | IsDirectory => (Ok tt, d)
  | NotDirectory => (Err tt, d)
  | NotExist => os_MkdirAll path d
  | StatError => (Err tt, d)
  end.

(** [helpers.GenerateWorkDir]; on an error it returns the empty text. *)
Definition GenerateWorkDir : M disk unit string :=
  match program_dir with
  | None => fail tt
  | Some dir =>
      let rootPath := filepath_Join [dir; ".kubexm"] in
      CreateDir rootPath ≫= λ _, mret rootPath
  end.

Definition GenerateHostWorkDir (clusterName workdir hostName : string) : M disk unit string :=
  let hostWorkDir := filepath_Join [workdir; clusterName; hostName] in
  let logDir := filepath_Join [workdir; clusterName; "logs"] in
  CreateDir hostWorkDir ≫= λ _, CreateDir logDir ≫= λ _, mret hostWorkDir.

(** [x, _ := call()]: the error is dropped, the result is then [zero]. *)
Definition ignore_error {A} (zero : A) (m : M disk unit A) : M disk Empty_set A := λ d,
  match m d with
  | (Ok a, d') => (Ok a, d')
  | (Err _, d') => (Ok zero, d')
  | (Panic, d') => (Panic, d')
  end.
End workdirs.

(** ** Data *)

Record TaintSpec : Type := MkTaint { Taint_Key : string; Taint_Value : string; Taint_Effect : string }.

Record HostSpec : Type := MkHost {
  Host_Name : string; Host_Address : string; InternalAddress : string; Host_Port : Z; Host_User : string;
  Host_Password : string; Host_PrivateKey : string; Host_PrivateKeyPath : string;
  Labels : gomap string; Taints : list TaintSpec; Host_Type : string; Arch : string; Timeout : Z;
  Roles : list string; RoleTable : gomap bool;
}.

Record RoleGroupsSpec : Type := MkRoleGroups {
  Master : list string; Worker : list string; RG_Etcd : list string; LoadBalancer : list string;
  RG_Storage : list string; RG_Registry : list string;
}.

Record SystemSpec : Type := MkSystem {
  NTPServers : list string; Timezone : string; RPMs : list string; Debs : list string;
  PackageManager : string; PreInstallScripts : list string; PostInstallScripts : list string;
  SkipConfigureOS : bool; Modules : list string; SysctlParams : gomap string;
}.

Record GlobalSpec : Type := MkGlobal {
  Global_User : string; Global_Port : Z; Global_Password : string; Global_PrivateKey : string;
  Global_PrivateKeyPath : string; ConnectionTimeout : Z; WorkDir : string; HostWorkDir : string;
  Verbose : bool; IgnoreErr : bool; SkipPreflight : bool; OfflineMode : bool;
}.

Record IngressNginxSpec : Type := MkIngressNginx { IngressNginx_Enabled : option bool }.
Record GatewaySpec : Type := MkGateway { IngressNginx : option IngressNginxSpec }.
Record CertSpec : Type := MkCertSpec { CADuration : string; CertDuration : string }.

(** What the other files of the package promise: defaults for a section, and a
    validation that only appends messages.  Either may panic. *)
Class Sections : Type := {
  Kubernetes : Type; Network : Type; DNS : Type; Storage : Type; Registry : Type;
  HelmRepo : Type; Addon : Type; Preflight : Type; Extra : Type;
  empty_Kubernetes : Kubernetes; empty_Network : Network; empty_DNS : DNS; empty_Storage : Storage;
  empty_Registry : Registry; empty_Preflight : Preflight;
  SetDefaults_Kubernetes : Kubernetes → outcome Empty_set Kubernetes;
  SetDefaults_Network : Network → outcome Empty_set Network;
  SetDefaults_DNS : DNS → outcome Empty_set DNS;
  SetDefaults_Storage : Storage → outcome Empty_set Storage;
  SetDefaults_Registry : Registry → outcome Empty_set Registry;
  SetDefaults_Preflight : Preflight → outcome Empty_set Preflight;
  Validate_Kubernetes : Kubernetes → string → V unit;
  Validate_Network : Network → string → V unit;
  Validate_DNS : DNS → string → V unit;
  Validate_Storage : Storage → string → V unit;
  Validate_Registry : Registry → string → V unit;
  Validate_Addon : Addon → string → V unit;
  Validate_Preflight : Preflight → string → V unit;
  Validate_Extra : Extra → string → V unit;
  grows_Kubernetes x p : grows (Validate_Kubernetes x p);
  grows_Network x p : grows (Validate_Network x p);
  grows_DNS x p : grows (Validate_DNS x p);
  grows_Storage x p : grows (Validate_Storage x p);
  grows_Registry x p : grows (Validate_Registry x p);
  grows_Addon x p : grows (Validate_Addon x p);
  grows_Preflight x p : grows (Validate_Preflight x p);
  grows_Extra x p : grows (Validate_Extra x p);
}.

Record ClusterSpec `{Sections} : Type := MkClusterSpec {
  Hosts : list HostSpec; RoleGroups : option RoleGroupsSpec; Global : option GlobalSpec;
  System : option SystemSpec; Spec_Kubernetes : option Kubernetes; Spec_Etcd : option Etcd;
  Spec_DNS : option DNS; Spec_Network : option Network;
  ControlPlaneEndpoint : option ControlPlaneEndpointSpec; Spec_Storage : option Storage;
  Spec_Registry : option Registry; Gateway : option GatewaySpec; Spec_HelmRepo : option HelmRepo;
  Addons : list Addon; Spec_Preflight : option Preflight; Spec_Extra : option Extra;
  Certs : option CertSpec;
}.

(** The metadata is reduced to the name, the only field the loader reads. *)
Record Cluster `{Sections} : Type := MkCluster {
  APIVersion : string; Kind : string; Name : string; Spec : option ClusterSpec;
}.

(** ** Defaults *)

Definition empty_Global : GlobalSpec := MkGlobal "" 0 "" "" "" 0 "" "" false false false false.
Definition empty_System : SystemSpec := MkSystem [] "" [] [] "" [] [] false [] None.

Definition SetDefault_Gateway (g : GatewaySpec) : GatewaySpec :=
  MkGateway (or_ptr (IngressNginx g) (MkIngressNginx (Some false))).

Definition SetDefaults_SystemSpec (s : SystemSpec) : SystemSpec :=
  MkSystem (NTPServers s) (or_text (Timezone s) "UTC") (RPMs s) (Debs s) (PackageManager s)
    (PreInstallScripts s) (PostInstallScripts s) (SkipConfigureOS s) (Modules s) (SysctlParams s).

Section defaults.
Context `{OS} `{Sections}.

Definition SetDefaults_GlobalSpec (g : GlobalSpec) : M disk Empty_set GlobalSpec :=
  workDir ← (if decide (WorkDir g = "") then ignore_error "" GenerateWorkDir else mret (WorkDir g)) ;
  mret (MkGlobal (or_text (Global_User g) "root") (or_int (Global_Port g) 22) (Global_Password g)
    (Global_PrivateKey g) (Global_PrivateKeyPath g) (or_int (ConnectionTimeout g) 10000000000) workDir
    (HostWorkDir g) (Verbose g) (IgnoreErr g) (SkipPreflight g) (OfflineMode g)).

(** A host inherits the credentials of the global section one by one. *)
Definition SetDefaults_HostSpec (h : HostSpec) (clusterName : string) (global : option GlobalSpec)
    : M disk Empty_set HostSpec :=
  g ← deref global ;
  _ ← ignore_error "" (GenerateHostWorkDir clusterName (WorkDir g) (Host_Name h)) ;
  mret (MkHost (Host_Name h) (Host_Address h) (InternalAddress h)
    (if decide (Host_Port h = 0%Z) then or_int (Global_Port g) 22 else Host_Port h)
    (or_text (Host_User h) (Global_User g)) (or_text (Host_Password h) (Global_Password g))
    (or_text (Host_PrivateKey h) (Global_PrivateKey g))
    (or_text (Host_PrivateKeyPath h) (Global_PrivateKeyPath g))
    (Labels h) (Taints h) (Host_Type h) (or_text (Arch h) "amd64") (Timeout h) (Roles h) (RoleTable h)).

Definition SetDefaults_ClusterSpec (name : string) (s : ClusterSpec) : M disk Empty_set ClusterSpec :=
  global ← SetDefaults_GlobalSpec (default empty_Global (Global s)) ;
  hosts ← collect (Hosts s) (λ h, SetDefaults_HostSpec h name (Some global)) ;
  k ← lift (SetDefaults_Kubernetes (default empty_Kubernetes (Spec_Kubernetes s))) ;
  n ← lift (SetDefaults_Network (default empty_Network (Spec_Network s))) ;
  st ← lift (SetDefaults_Storage (default empty_Storage (Spec_Storage s))) ;
  r ← lift (SetDefaults_Registry (default empty_Registry (Spec_Registry s))) ;
  d ← lift (SetDefaults_DNS (default empty_DNS (Spec_DNS s))) ;
  p ← lift (SetDefaults_Preflight (default empty_Preflight (Spec_Preflight s))) ;
  mret (MkClusterSpec _ hosts (RoleGroups s) (Some global)
    (Some (SetDefaults_SystemSpec (default empty_System (System s))))
    (Some k) (Some (SetDefaults_Etcd (default empty_Etcd (Spec_Etcd s)))) (Some d) (Some n)
    (Some (SetDefaults_ControlPlaneEndpointSpec (default empty_Endpoint (ControlPlaneEndpoint s))))
    (Some st) (Some r) (Some (SetDefault_Gateway (default (MkGateway None) (Gateway s))))
    (Spec_HelmRepo s) (Addons s) (Some p) (Spec_Extra s) (Certs s)).

Definition SetDefaults_Cluster (c : Cluster) : M disk Empty_set Cluster :=
  spec ← match Spec c with
         | None => mret None
         | Some s => SetDefaults_ClusterSpec (Name c) s ≫= λ s, mret (Some s)
         end ;
  mret (MkCluster _ (or_text (APIVersion c) "kubexm.io/v1alpha1") (or_text (Kind c) "Cluster") (Name c) spec).
End defaults.

(** ** Validation *)

Definition validEffects : list string := ["NoSchedule"; "PreferNoSchedule"; "NoExecute"].

Definition Validate_TaintSpec (t : TaintSpec) (p : string) : V unit :=
  vif (bool_decide (Taint_Key t = "")) (Add (p +:+ ".key: cannot be empty")) ;;
  vif (negb (slice_contains validEffects (Taint_Effect t)))
    (Add (p +:+ ".effect: invalid effect '" +:+ Taint_Effect t +:+ "', must be one of ["
          +:+ Join validEffects ", " +:+ "]")).

Definition is_localhost (addr : string) : bool := EqualFold addr "localhost" || bool_decide (addr = "127.0.0.1").

(** One address of the comma-separated internal addresses. *)
Definition Validate_internal_address (p : string) (i : nat) (raw : string) : V unit :=
  let addr := TrimSpace raw in
  if decide (addr = "") then Add (p +:+ ".internalAddress: address at index " +:+ pretty i +:+ " is empty")
  else if is_localhost addr then Add (p +:+ ".internalAddress: localhost/127.0.0.1 is not allowed")
  else match ParseIP addr with
       | None => Add (p +:+ ".internalAddress: invalid IP address format for '" +:+ addr +:+ "'")
       | Some ip => vif (IsLoopback ip)
           (Add (p +:+ ".internalAddress: loopback address '" +:+ addr +:+ "' is not allowed"))
       end.

(** How many of the three credentials are set. *)
Definition authMethods (password key keyPath : string) : nat :=
  length (filter (λ s, s ≠ "") [password; key; keyPath]).

Definition host_authMethods (h : HostSpec) : nat :=
  authMethods (Host_Password h) (Host_PrivateKey h) (Host_PrivateKeyPath h).

Definition Validate_HostSpec (h : HostSpec) (p : string) : V unit :=
  vif (bool_decide (Host_Name h = "")) (Add (p +:+ ".name: is a required field")) ;;
  (if decide (Host_Address h = "") then Add (p +:+ ".address: is a required field")
   else
     let addr := TrimSpace (Host_Address h) in
     if is_localhost addr then Add (p +:+ ".address: localhost/127.0.0.1 is not allowed")
     else match ParseIP addr with
          | None => Add (p +:+ ".address: invalid IP address format for '" +:+ Host_Address h +:+ "'")
          | Some ip => vif (IsLoopback ip)
              (Add (p +:+ ".address: loopback address '" +:+ Host_Address h +:+ "' is not allowed"))
          end) ;;
  vif (negb (blank (InternalAddress h)))
    (vfor (Split "," (InternalAddress h)) (Validate_internal_address p)) ;;
  vif (1 <? host_authMethods h)%nat
    (Add (p +:+ ": only one of password, privateKey, or privateKeyPath can be set")) ;;
  vif (host_authMethods h =? 0)%nat
    (Add (p +:+ ": one of password, privateKey, or privateKeyPath is required for SSH authentication")) ;;
  vfor (Taints h) (λ i t, Validate_TaintSpec t (p +:+ ".taints" +:+ index i)).

Definition Validate_GlobalSpec (g : GlobalSpec) (pathPrefix : string) : V unit :=
  let p := path_Join [pathPrefix] in
  vif (blank (Global_User g)) (Add (p +:+ ".user: cannot be empty")) ;;
  vif ((Global_Port g <=? 0) || (65535 <? Global_Port g))%Z
    (Add (p +:+ ".port: invalid port " +:+ decimal (Global_Port g) +:+ ", must be between 1-65535")) ;;
  vif (1 <? authMethods (Global_Password g) (Global_PrivateKey g) (Global_PrivateKeyPath g))%nat
    (Add (p +:+ ": only one of password, privateKey, or privateKeyPath can be set at the global level")) ;;
  vif (ConnectionTimeout g <=? 0)%Z
    (Add (p +:+ ".connectionTimeout: must be a positive duration, got "
          +:+ Duration_String (ConnectionTimeout g))) ;;
  (if blank (WorkDir g) then Add (p +:+ ".workDir: cannot be empty")
   else vif (negb (rooted (WorkDir g)))
     (Add (p +:+ ".workDir: must be an absolute path, got '" +:+ WorkDir g +:+ "'"))).

Definition ValidPMs : list string := ["yum"; "dnf"; "apt"].

(** [^[a-z0-9\._-]+$] *)
Definition sysctlKeyRegex : regex :=
  plus (Class (λ c, lower c || is_digit c || one_of ["."; "_"; "-"]%char c)).

Definition Validate_SystemSpec `{GoRange} (s : SystemSpec) (pathPrefix : string) : V unit :=
  let p := path_Join [pathPrefix] in
  let hasRPMs := bool_decide (RPMs s ≠ []) in
  let hasDebs := bool_decide (Debs s ≠ []) in
  let pm := PackageManager s in
  vfor (NTPServers s) (λ i server,
    if blank server then Add (p +:+ ".ntpServers" +:+ index i +:+ ": cannot be empty")
    else vif (negb (Helpers.IsValidHostPort server) && negb (Helpers.IsValidDomainName server))
      (Add (p +:+ ".ntpServers" +:+ index i +:+ ": invalid format for '" +:+ server
            +:+ "', must be a valid IP or hostname"))) ;;
  vif (bool_decide (Timezone s ≠ "") && blank (Timezone s))
    (Add (p +:+ ".timezone: cannot be only whitespace if specified")) ;;
  (if decide (pm ≠ "") then
     vif (negb (slice_contains ValidPMs pm))
       (Add (p +:+ ".packageManager: invalid manager '" +:+ pm +:+ "', must be one of " +:+ show_slice ValidPMs)) ;;
     vif (bool_decide (pm = "yum" ∨ pm = "dnf") && hasDebs)
       (Add (p +:+ ": debs list cannot be used with packageManager '" +:+ pm +:+ "'")) ;;
     vif (bool_decide (pm = "apt") && hasRPMs)
       (Add (p +:+ ": rpms list cannot be used with packageManager 'apt'"))
   else
     vif (hasRPMs && hasDebs)
       (Add (p +:+ ": cannot specify both rpms and debs lists without a specific packageManager"))) ;;
  vfor (range 60 (entries (SysctlParams s))) (λ _ '(key, value),
    vif (negb (MatchString sysctlKeyRegex key))
      (Add (p +:+ ".sysctlParams: invalid key format for '" +:+ key +:+ "'")) ;;
    vif (blank value) (Add (p +:+ ".sysctlParams['" +:+ key +:+ "']: value cannot be empty"))).

(** The loop over the hosts, with the names and the addresses seen so far; the
    names are the result. *)
Fixpoint Validate_hosts (p : string) (i : nat) (names addresses : gmap string bool) (hosts : list HostSpec)
    : V (gmap string bool) :=
  match hosts with
  | [] => mret names
  | h :: hosts =>
      let hostPath := p +:+ ".hosts" +:+ index i in
      Validate_HostSpec h hostPath ;;
      vif (bool_decide (Host_Name h ≠ "") && bool_decide (names !! Host_Name h = Some true))
        (Add (hostPath +:+ ".name: duplicate host name '" +:+ Host_Name h +:+ "'")) ;;
      vif (bool_decide (Host_Address h ≠ "") && bool_decide (addresses !! Host_Address h = Some true))
        (Add (hostPath +:+ ".address: duplicate host address '" +:+ Host_Address h +:+ "'")) ;;
      Validate_hosts p (S i)
        (if decide (Host_Name h = "") then names else <[Host_Name h := true]> names)
        (if decide (Host_Address h = "") then addresses else <[Host_Address h := true]> addresses) hosts
  end.

(** The members of a role group must be hosts, by name. *)
Definition validateRoleGroup (path : string) (names : gmap string bool) (role : string) (members : list string)
    : V unit :=
  vfor members (λ _ name,
    vif (negb (bool_decide (names !! name = Some true)))
      (Add (path +:+ "." +:+ role +:+ ": host '" +:+ name +:+ "' is not defined in the hosts list"))).

(** The six groups in the order they are validated, with their names. *)
Definition role_groups (g : RoleGroupsSpec) : list (string * list string) :=
  [("master", Master g); ("worker", Worker g); ("etcd", RG_Etcd g); ("registry", RG_Registry g);
   ("loadbalancer", LoadBalancer g); ("storage", RG_Storage g)].

Definition all_members (g : RoleGroupsSpec) : list string := mjoin (role_groups g).*2.

Definition Validate_role_groups `{GoRange} (p : string) (names : gmap string bool) (g : RoleGroupsSpec) : V unit :=
  let path := path_Join [p; "roleGroups"] in
  vfor (role_groups g) (λ _ '(role, members), validateRoleGroup path names role members) ;;
  vfor (range 61 names).*1 (λ _ name,
    vif (negb (slice_contains (all_members g) name))
      (Add (p +:+ ": host '" +:+ name +:+ "' is defined but not assigned to any role in roleGroups"))) ;;
  vif (bool_decide (Master g = [])) (Add (path +:+ ".master: at least one master host is required")).

Section validation.
Context `{GoRange} `{Sections}.

(** A section that may be absent. *)
Definition vopt {A} (x : option A) (body : A → V unit) (absent : V unit) : V unit :=
  match x with Some x => body x | None => absent end.

Definition Validate_ClusterSpec (spec : option ClusterSpec) (pathPrefix : string) : V unit :=
  match spec with
  | None => Add (pathPrefix +:+ ": spec section cannot be nil")
  | Some s =>
      let p := path_Join [pathPrefix] in
      let sub name := path_Join [p; name] in
      let required name := Add (p +:+ "." +:+ name +:+ ": is a required section") in
      vif (bool_decide (Hosts s = [])) (Add (p +:+ ".hosts: at least one host must be defined")) ;;
      names ← Validate_hosts p 0 ∅ ∅ (Hosts s) ;
      vopt (RoleGroups s) (Validate_role_groups p names) (required "roleGroups") ;;
      vopt (Global s) (λ x, Validate_GlobalSpec x (sub "global")) (mret tt) ;;
      vopt (Spec_Kubernetes s) (λ x, Validate_Kubernetes x (sub "kubernetes")) (required "kubernetes") ;;
      vopt (Spec_Etcd s) (λ x, Validate_Etcd x (sub "etcd")) (required "etcd") ;;
      vopt (Spec_Network s) (λ x, Validate_Network x (sub "network")) (required "network") ;;
      vopt (ControlPlaneEndpoint s)
        (λ x, Validate_ControlPlaneEndpointSpec x (sub "controlPlaneEndpoint"))
        (vif (match RoleGroups s with Some g => bool_decide (1 < length (Master g)) | None => false end)
          (Add (p +:+ ".controlPlaneEndpoint: is a required section for multi-master setup"))) ;;
      vopt (System s) (λ x, Validate_SystemSpec x (sub "system")) (mret tt) ;;
      vopt (Spec_DNS s) (λ x, Validate_DNS x (sub "dns")) (mret tt) ;;
      vopt (Spec_Storage s) (λ x, Validate_Storage x (sub "storage")) (mret tt) ;;
      vopt (Spec_Registry s) (λ x, Validate_Registry x (sub "registry")) (mret tt) ;;
      vfor (Addons s) (λ i a, Validate_Addon a (p +:+ ".addons" +:+ index i)) ;;
      vopt (Spec_Preflight s) (λ x, Validate_Preflight x (sub "preflight")) (mret tt) ;;
      vopt (Spec_Extra s) (λ x, Validate_Extra x (sub "extra")) (mret tt)
  end.

(** [verrs.Add("kind: must be %s", ...)] is the one call with an operand. *)
Definition Validate_Cluster (c : Cluster) : V unit :=
  vif (bool_decide (APIVersion c ≠ "kubexm.io/v1alpha1")) (Add "apiVersion: must be 'kubexm.io/v1alpha1'") ;;
  vif (bool_decide (Kind c ≠ "Cluster")) (Addf "kind: must be Cluster") ;;
  vif (bool_decide (Name c = "")) (Add "metadata.name: cannot be empty") ;;
  Validate_ClusterSpec (Spec c) "spec".
End validation.
