(* ===== verification/ConfigLoad.v ===== *)
(** Loading a cluster configuration: [config/config.go], [config/helpers.go],
    [netutil/ip.go].  Reading and decoding the file is I/O behind the class
    [Files]; what is done with the decoded structure is modelled in full. *)
From S2P Require Import Prelude.
From S2P Require Import GoText.
From S2P Require Import GoNet.
From S2P Require Import HostRange.
From S2P Require Import ValidationErrors.
From S2P Require Import LoadBalancerTypes.
From S2P Require Import EndpointTypes.
From S2P Require Import ClusterTypes.
From Stdlib Require Import Ascii.

(** ** [netutil] *)

(** An address of a network interface: [*net.IPNet] and [*net.IPAddr] carry an IP,
    other kinds do not. *)
Inductive Addr : Type := IPNet (ip : option IP) | IPAddr (ip : option IP) | OtherAddr.

Record Interface : Type := MkInterface {
  FlagUp : bool; FlagLoopback : bool; Addrs : option (list Addr);
}.

Definition addrIP (a : Addr) : option IP :=
  match a with IPNet ip | IPAddr ip => ip | OtherAddr => None end.

(** An address that is usable from other machines: its four bytes. *)
Definition primary_ip (a : Addr) : option string :=
  match addrIP a with
  | None => None
  | Some ip =>
      if IsLoopback ip || IsLinkLocalUnicast ip || IsMulticast ip || IsUnspecified ip then None
      else ipv4_String <$> To4 ip
  end.

(** [DetectPrimaryIP] on the interfaces the system lists, [None] when it cannot. *)
Definition DetectPrimaryIP (ifaces : option (list Interface)) : option string :=
  match ifaces with
  | None => None
  | Some ifaces =>
      head (omap primary_ip (mjoin (omap (λ i : Interface,
        if negb (FlagUp i) || FlagLoopback i then None else Addrs i) ifaces)))
  end.

(** ** [config/helpers.go] *)

Definition RoleMaster : string := "master".
Definition RoleWorker : string := "worker".
Definition RoleEtcd : string := "etcd".
Definition RoleLoadBalancer : string := "loadbalancer".
Definition RoleStorage : string := "storage".
Definition RoleRegistry : string := "registry".

(** The groups in the order their roles are given out. *)
Definition groups (g : RoleGroupsSpec) : list (string * list string) :=
  [(RoleMaster, Master g); (RoleWorker, Worker g); (RoleEtcd, RG_Etcd g);
   (RoleLoadBalancer, LoadBalancer g); (RoleStorage, RG_Storage g); (RoleRegistry, RG_Registry g)].

(** [appendRoles] *)
Definition appendRoles (m : gmap string (list string)) (group : string * list string)
    : gmap string (list string) :=
  foldl (λ m name, <[name := default [] (m !! name) ++ [group.1]]> m) m group.2.

Definition uniqueRoles_step (unique : list string) (role : string) : list string :=
  if decide (role = "") then unique
  else if decide (role ∈ unique) then unique
  else unique ++ [role].

Definition uniqueRoles (roles : list string) : list string := foldl uniqueRoles_step [] roles.

Definition with_roles (roles : list string) (h : HostSpec) : HostSpec :=
  MkHost (Host_Name h) (Host_Address h) (InternalAddress h) (Host_Port h) (Host_User h) (Host_Password h)
    (Host_PrivateKey h) (Host_PrivateKeyPath h) (Labels h) (Taints h) (Host_Type h) (Arch h) (Timeout h)
    roles (Some (foldl (λ m role, <[role := true]> m) ∅ roles)).

Definition ApplyRoleGroupsToHosts (g : option RoleGroupsSpec) (hosts : list HostSpec) : list HostSpec :=
  match g with
  | None => hosts
  | Some g =>
      let roleMap := foldl appendRoles ∅ (groups g) in
      (λ h, match default [] (roleMap !! Host_Name h) with
            | [] => h
            | roles => with_roles (uniqueRoles roles) h
            end) <$> hosts
  end.

(** [ValidateRoleGroupHosts]: the first member that is not a host. *)
Definition allHosts (g : RoleGroupsSpec) : list string := mjoin (groups g).*2.

Definition ValidateRoleGroupHosts (g : RoleGroupsSpec) (hosts : list HostSpec) : option string :=
  head (filter (λ name, name ∉ Host_Name <$> hosts) (allHosts g)).

Definition filterHostValidationErrors (verrs : ValidationErrors) : ValidationErrors :=
  if IsEmpty verrs then verrs
  else filter (λ msg, negb (Contains msg ".hosts" || Contains msg ".roleGroups") = true) verrs.

(** [if EqualFold(s, pat) { s = t }] *)
Definition rename (pat t s : string) : string := if EqualFold s pat then t else s.

Definition rename_lb (s : string) : string :=
  rename "kubexm_kn" ExternalLBTypeKubexmKN (rename "kubexm_kh" ExternalLBTypeKubexmKH
    (rename "exists" ExternalLBTypeExternal s)).

Definition normalize_endpoint (c : ControlPlaneEndpointSpec) : ControlPlaneEndpointSpec :=
  let '(MkEndpoint dom addr port dns ext int ha) := c in
  MkEndpoint dom addr port dns (rename_lb ext) int
    ((λ '(MkHighAvailability en e i),
       MkHighAvailability en
         ((λ '(MkExternalLB een ty ka hp ng kv gr), MkExternalLB een (rename_lb ty) ka hp ng kv gr) <$> e) i) <$> ha).

Definition normalize_etcd (e : Etcd) : Etcd :=
  let '(MkEtcd ty ver ext cl bk pf) := e in
  MkEtcd (rename "exists" EtcdDeploymentTypeExternal ty) ver ext cl bk pf.

(** What loading can report. *)
Inductive load_error : Type :=
| EmptyPath
| ReadFailed (path : string)
| UnmarshalFailed (path : string)
| ProcessFailed (path : string) (e : load_error)
| EnsureLocalHostFailed
| ValidationFailed (verrs : ValidationErrors)
| ExpansionFailed (role : string) (e : range_error)
| RoleGroupValidationFailed (host : string).

Section load.
Context `{GoRange} `{OS} `{Sections}.

Definition with_hosts (hosts : list HostSpec) (g : option RoleGroupsSpec) (s : ClusterSpec) : ClusterSpec :=
  MkClusterSpec _ hosts g (Global s) (System s) (Spec_Kubernetes s) (Spec_Etcd s) (Spec_DNS s) (Spec_Network s)
    (ControlPlaneEndpoint s) (Spec_Storage s) (Spec_Registry s) (Gateway s) (Spec_HelmRepo s) (Addons s)
    (Spec_Preflight s) (Spec_Extra s) (Certs s).

Definition with_spec (c : Cluster) (s : ClusterSpec) : Cluster :=
  MkCluster _ (APIVersion c) (Kind c) (Name c) (Some s).

Definition normalizeDeploymentTypes (c : Cluster) : Cluster :=
  match Spec c with
  | None => c
  | Some s =>
      with_spec c (MkClusterSpec _ (Hosts s) (RoleGroups s) (Global s) (System s) (Spec_Kubernetes s)
        (normalize_etcd <$> Spec_Etcd s) (Spec_DNS s) (Spec_Network s)
        (normalize_endpoint <$> ControlPlaneEndpoint s) (Spec_Storage s) (Spec_Registry s) (Gateway s)
        (Spec_HelmRepo s) (Addons s) (Spec_Preflight s) (Spec_Extra s) (Certs s))
  end.

Definition local_host (ip : string) : HostSpec :=
  MkHost "local-1" ip "" 0 "" "" "" "" None [] "" "" 0 [] None.

(** An error keeps the configuration as it was. *)
Definition ensureLocalHostIfEmpty (ifaces : option (list Interface)) (c : Cluster) : M disk load_error Cluster :=
  match Spec c with
  | None => mret c
  | Some s =>
      if decide (Hosts s = []) then
        match DetectPrimaryIP ifaces with
        | None => fail EnsureLocalHostFailed
        | Some ip =>
            h ← wrap (λ e : Empty_set, match e with end) (SetDefaults_HostSpec (local_host ip) (Name c) (Global s)) ;
            let g := default (MkRoleGroups [] [] [] [] [] []) (RoleGroups s) in
            mret (with_spec c (with_hosts [h]
              (Some (MkRoleGroups ["local-1"] ["local-1"] ["local-1"] (LoadBalancer g) (RG_Storage g) (RG_Registry g))) s))
        end
      else mret c
  end.

(** ** [config/config.go] *)

(** The six expansions, in order; [None] when one of them does not end. *)
Definition expand_groups (fuel : nat) (g : RoleGroupsSpec) : option (outcome load_error RoleGroupsSpec) :=
  let expand role names (k : list string → option (outcome load_error RoleGroupsSpec)) :=
    match Config.ExpandRoleGroupHosts fuel names with
    | None => None
    | Some (Ok names) => k names
    | Some (Err e) => Some (Err (ExpansionFailed role e))
    | Some Panic => Some Panic
    end in
  expand "master" (Master g) (λ master,
  expand "worker" (Worker g) (λ worker,
  expand "etcd" (RG_Etcd g) (λ etcd,
  expand "loadbalancer" (LoadBalancer g) (λ loadbalancer,
  expand "storage" (RG_Storage g) (λ storage,
  expand "registry" (RG_Registry g) (λ registry,
  Some (Ok (MkRoleGroups master worker etcd loadbalancer storage registry)))))))).

(** The end of [processClusterConfig]: expansion, the check of the members, and
    the roles of the hosts. *)
Definition assign_roles (fuel : nat) (skip : bool) (s : ClusterSpec) : option (outcome load_error ClusterSpec) :=
  match RoleGroups s with
  | None => Some (Ok (with_hosts (ApplyRoleGroupsToHosts None (Hosts s)) None s))
  | Some g =>
      match expand_groups fuel g with
      | None => None
      | Some (Err e) => Some (Err e)
      | Some Panic => Some Panic
      | Some (Ok g) =>
          match (if skip then None else ValidateRoleGroupHosts g (Hosts s)) with
          | Some host => Some (Err (RoleGroupValidationFailed host))
          | None => Some (Ok (with_hosts (ApplyRoleGroupsToHosts (Some g) (Hosts s)) (Some g) s))
          end
      end
  end.

(** Defaults, names of deployment types, the local host; then validation. *)
Definition prepare (ifaces : option (list Interface)) (c : Cluster) : M disk load_error Cluster :=
  c ← wrap (λ e : Empty_set, match e with end) (SetDefaults_Cluster c) ;
  ensureLocalHostIfEmpty ifaces (normalizeDeploymentTypes c).

Definition validate (skip : bool) (c : Cluster) : outcome load_error unit :=
  match (Validate_Cluster c []) with
  | (Ok _, verrs) =>
      let verrs := if skip then filterHostValidationErrors verrs else verrs in
      if HasErrors verrs then Err (ValidationFailed verrs) else Ok tt
  | (Err e, _) => match e with end
  | (Panic, _) => Panic
  end.

(** [processClusterConfig]: the outcome and the disk; [None] when an expansion
    does not end within [fuel] turns of a loop. *)
Definition processClusterConfig (fuel : nat) (ifaces : option (list Interface)) (skip : bool) (c : Cluster) (d : disk)
    : option (outcome load_error Cluster * disk) :=
  match prepare ifaces c d with
  | (Err e, d) => Some (Err e, d)
  | (Panic, d) => Some (Panic, d)
  | (Ok c, d) =>
      match validate skip c with
      | Err e => Some (Err e, d)
      | Panic => Some (Panic, d)
      | Ok _ =>
          match Spec c with
          | None => Some (Panic, d)
          | Some s =>
              match assign_roles fuel skip s with
              | None => None
              | Some o => Some (o ≫= λ s, mret (with_spec c s), d)
              end
          end
      end
  end.

(** The file system and the two decoders: [None] is an error. *)
Class Files : Type := {
  os_ReadFile : string → option string;
  yaml_Unmarshal : string → option Cluster;
  json_Unmarshal : string → option Cluster;
}.

(** [strings.ToLower(filepath.Ext(path))]: the text from the last dot of the last
    element on.  No capital letter beyond ASCII has its small letter in [.json]. *)
Definition last_element (path : string) : string :=
  match cut_last "/" path with Some (_, x) => x | None => path end.

Fixpoint map_string (f : ascii → ascii) (s : string) : string :=
  match s with "" => "" | String c s => String (f c) (map_string f s) end.

Definition lower_ext (path : string) : string :=
  match cut_last "." (last_element path) with
  | Some (_, x) => "." +:+ map_string to_lower x
  | None => ""
  end.

Context `{Files}.

Definition parse_with (decode : string → option Cluster) (fuel : nat) (ifaces : option (list Interface))
    (skip : bool) (path : string) (d : disk) : option (outcome load_error Cluster * disk) :=
  match os_ReadFile path with
  | None => Some (Err (ReadFailed path), d)
  | Some data =>
      match decode data with
      | None => Some (Err (UnmarshalFailed path), d)
      | Some c =>
          match processClusterConfig fuel ifaces skip c d with
          | None => None
          | Some (o, d) => Some (map_err (ProcessFailed path) o, d)
          end
      end
  end.

Definition ParseYAMLWithOptions := parse_with yaml_Unmarshal.
Definition ParseJSONWithOptions := parse_with json_Unmarshal.

Definition ParseFromFileWithOptions (fuel : nat) (ifaces : option (list Interface)) (skip : bool) (path : string)
    (d : disk) : option (outcome load_error Cluster * disk) :=
  if blank path then Some (Err EmptyPath, d)
  else if decide (lower_ext path = ".json") then ParseJSONWithOptions fuel ifaces skip path d
  else ParseYAMLWithOptions fuel ifaces skip path d.
End load.
