(* ===== verification/ConfigLoadSpec.v ===== *)
(** What loading a configuration guarantees: the roles the hosts get, what an
    accepted configuration looks like, and which ones never load. *)
From S2P Require Import Prelude.
From S2P Require Import GoText.
From S2P Require Import GoNet.
From S2P Require Import HostRange.
From S2P Require Import ValidationErrors.
From S2P Require Import LoadBalancerTypes.
From S2P Require Import EndpointTypes.
From S2P Require Import ClusterTypes.
From S2P Require Import ConfigLoad.
From Stdlib Require Import Ascii.

(** ** Roles *)

(** The roles a host has by its name: those of the groups that list it, in the
    order of the groups. *)
Definition roles_of (g : RoleGroupsSpec) (name : string) : list string :=
  (filter (λ group, name ∈ group.2) (groups g)).*1.

Lemma foldl_set_lookup (roles : list string) (m : gmap string bool) r :
  foldl (λ m role, <[role := true]> m) m roles !! r = Some true ↔ r ∈ roles ∨ m !! r = Some true.
Proof.
  revert m. induction roles as [|role roles IH]; intros m; simpl; [set_solver|].
  rewrite IH, elem_of_cons. destruct (decide (role = r)) as [->|Hne].
  - rewrite lookup_insert_eq. naive_solver.
  - rewrite lookup_insert_ne by done. naive_solver.
Qed.

Lemma appendRoles_lookup m role members n :
  default [] (appendRoles m (role, members) !! n) = default [] (m !! n) ++ replicate (occ n members) role.
Proof.
  unfold appendRoles. simpl. revert m. induction members as [|x l IH]; intros m; simpl; [by rewrite app_nil_r|].
  rewrite IH. case_decide as Hx.
  - subst. rewrite lookup_insert_eq. simpl. by rewrite <-app_assoc.
  - rewrite lookup_insert_ne by done. done.
Qed.

Lemma roleMap_lookup gs m n :
  default [] (foldl appendRoles m gs !! n)
  = default [] (m !! n) ++ mjoin ((λ group, replicate (occ n group.2) group.1) <$> gs).
Proof.
  revert m. induction gs as [|[role members] gs IH]; intros m; simpl; [by rewrite app_nil_r|].
  by rewrite IH, appendRoles_lookup, <-app_assoc.
Qed.

Lemma uniqueRoles_repeat unique role k :
  role ∈ unique → foldl uniqueRoles_step unique (replicate k role) = unique.
Proof.
  intros Hin. induction k as [|k IH]; simpl; [done|]. unfold uniqueRoles_step at 2.
  by repeat case_decide.
Qed.

(** Repetitions of a role go away, the order stays. *)
Lemma uniqueRoles_groups gs unique n :
  NoDup gs.*1 → "" ∉ gs.*1 → (∀ r, r ∈ gs.*1 → r ∉ unique) →
  foldl uniqueRoles_step unique (mjoin ((λ group, replicate (occ n group.2) group.1) <$> gs))
  = unique ++ (filter (λ group : string * list string, n ∈ group.2) gs).*1.
Proof.
  revert unique. induction gs as [|[role members] gs IH]; intros unique; simpl; [by rewrite app_nil_r|].
  intros [Hrole Hnd]%NoDup_cons Hne Hfresh. rewrite foldl_app, filter_cons. simpl.
  destruct (decide (n ∈ members)) as [Hin|Hout].
  - rewrite <-occ_pos in Hin. destruct (occ n members) as [|k]; [lia|]. simpl.
    assert (uniqueRoles_step unique role = unique ++ [role]) as ->.
    { unfold uniqueRoles_step. rewrite !decide_False by set_solver. done. }
    rewrite uniqueRoles_repeat by set_solver. rewrite IH, <-app_assoc by set_solver. done.
  - apply occ_zero in Hout. rewrite Hout. simpl. apply IH; set_solver.
Qed.

Lemma roleMap_nil g n :
  default [] (foldl appendRoles ∅ (groups g) !! n) = [] ↔ roles_of g n = [].
Proof.
  unfold roles_of. generalize (groups g). intros gs. rewrite roleMap_lookup, lookup_empty. simpl.
  induction gs as [|[role members] gs IH]; [by split|].
  simpl. rewrite filter_cons. simpl. case_decide as Hin.
  - rewrite <-occ_pos in Hin. destruct (occ n members); [lia|]. split; discriminate.
  - apply occ_zero in Hin. rewrite Hin. simpl. exact IH.
Qed.

Lemma group_roles_NoDup g : NoDup (groups g).*1 ∧ "" ∉ (groups g).*1.
Proof. unfold groups. split; [by repeat constructor; set_solver|set_solver]. Qed.

(** Each host gets the roles of the groups that list its name; a host in no group
    is left as it is. *)
Lemma ApplyRoleGroupsToHosts_roles g hosts :
  ApplyRoleGroupsToHosts (Some g) hosts =
  (λ h, if decide (roles_of g (Host_Name h) = []) then h
        else with_roles (roles_of g (Host_Name h)) h) <$> hosts.
Proof.
  unfold ApplyRoleGroupsToHosts. apply list_fmap_ext. intros i h _.
  pose proof (roleMap_nil g (Host_Name h)) as Hnil.
  destruct (default [] _) as [|r roles] eqn:Hr; case_decide as Hd; [done|tauto|naive_solver|].
  f_equal. destruct (group_roles_NoDup g). unfold uniqueRoles, roles_of in *.
  rewrite <-Hr, roleMap_lookup, lookup_empty.
  change (default [] None) with (@nil string). rewrite app_nil_l. by rewrite uniqueRoles_groups by set_solver.
Qed.

(** Names, addresses and credentials of hosts are not touched. *)
Lemma ApplyRoleGroupsToHosts_keeps {A} (f : HostSpec → A) g hosts :
  (∀ roles h, f (with_roles roles h) = f h) → f <$> ApplyRoleGroupsToHosts g hosts = f <$> hosts.
Proof.
  intros Hf. destruct g as [g|]; [|done]. rewrite ApplyRoleGroupsToHosts_roles, <-list_fmap_compose.
  apply list_fmap_ext. intros i h _. simpl. case_decide; [done|apply Hf].
Qed.

(** The roles the six groups can give. *)
Lemma roles_of_subset g n r :
  r ∈ roles_of g n → r ∈ ["master"; "worker"; "etcd"; "loadbalancer"; "storage"; "registry"].
Proof.
  intros (group & -> & [_ Hin]%list_elem_of_filter)%list_elem_of_fmap.
  apply (list_elem_of_fmap_2 fst) in Hin. exact Hin.
Qed.

(** ** Validations only append *)

Lemma grows_vopt {A} (x : option A) body absent :
  (∀ x, grows (body x)) → grows absent → grows (vopt x body absent).
Proof. by destruct x; simpl. Qed.

Ltac grow :=
  repeat lazymatch goal with
  | |- ∀ _, _ => intro
  | |- grows (_ ≫= _) => apply grows_bind
  | |- grows (vif _ _) => apply grows_vif
  | |- grows (vfor _ _) => apply grows_vfor
  | |- grows (Add _) => apply grows_Add
  | |- grows (Addf _) => apply grows_Addf
  | |- grows (mret _) => apply grows_ret
  | |- grows (vopt _ _ _) => apply grows_vopt
  | |- grows (match _ with _ => _ end) => case_match
  | |- grows (let _ := _ in _) => cbv zeta
  | |- grows _ => solve [auto with kubexm]
  end.

Lemma grows_Etcd c p : grows (Validate_Etcd c p).
Proof.
  unfold Validate_Etcd, Validate_ExternalEtcdConfig, Validate_EtcdClusterConfig, Validate_EtcdBackupConfig,
    Validate_EtcdPerformanceTuning. grow.
Qed.

Lemma grows_Endpoint c p : grows (Validate_ControlPlaneEndpointSpec c p).
Proof.
  unfold Validate_ControlPlaneEndpointSpec, external_ha_enabled.
  pose proof (@grows_deref). grow.
Qed.

Lemma grows_internal_address p i raw : grows (Validate_internal_address p i raw).
Proof. unfold Validate_internal_address. grow. Qed.

Lemma grows_TaintSpec t p : grows (Validate_TaintSpec t p).
Proof. unfold Validate_TaintSpec. grow. Qed.

#[export] Hint Resolve grows_internal_address grows_TaintSpec : kubexm.

Lemma grows_HostSpec h p : grows (Validate_HostSpec h p).
Proof. unfold Validate_HostSpec. grow. Qed.

Lemma grows_GlobalSpec g p : grows (Validate_GlobalSpec g p).
Proof. unfold Validate_GlobalSpec. grow. Qed.

Lemma grows_SystemSpec `{GoRange} s p : grows (Validate_SystemSpec s p).
Proof. unfold Validate_SystemSpec. grow. Qed.

#[export] Hint Resolve grows_deref grows_HostSpec : kubexm.

Lemma grows_hosts p i names addrs hosts : grows (Validate_hosts p i names addrs hosts).
Proof.
  revert i names addrs. induction hosts as [|h hosts IH]; intros i names addrs; simpl; [apply grows_ret|].
  grow.
Qed.

Lemma grows_role_groups `{GoRange} p names g : grows (Validate_role_groups p names g).
Proof. unfold Validate_role_groups, validateRoleGroup. grow. Qed.

#[export] Hint Resolve grows_Etcd grows_Endpoint grows_GlobalSpec grows_SystemSpec
  grows_hosts grows_role_groups grows_Kubernetes grows_Network grows_DNS grows_Storage
  grows_Registry grows_Addon grows_Preflight grows_Extra : kubexm.

(** ** An endpoint without an external load balancer *)

(** The endpoint asks for no external load balancer, and has no section for one. *)
Definition no_external (e : ControlPlaneEndpointSpec) : Prop :=
  ExternalLoadBalancerType e = ""
  ∧ match Endpoint_HighAvailability e with Some ha => External ha = None | None => True end.

Lemma no_external_defaults e : no_external e →
  ∃ ha, Endpoint_HighAvailability (SetDefaults_ControlPlaneEndpointSpec e) = Some ha
    ∧ HA_Enabled ha = Some true ∧ External ha = None.
Proof.
  intros [Hext Hha]. destruct e as [dom addr port dns ext int ha]; simpl in *. subst ext.
  assert (∃ int', (if bool_decide ("" = "") && bool_decide (int = "") then InternalLBTypeHAProxy else int) = int'
    ∧ int' ≠ "") as (int' & Hint & Hne).
  { eexists. split; [done|]. rewrite bool_decide_true by done. simpl. by case_bool_decide. }
  rewrite Hint. rewrite (bool_decide_false ("" ≠ "")) by naive_solver. rewrite !andb_false_r.
  rewrite decide_True by done. simpl. unfold enable_internal.
  destruct ha as [[en ext int2]|]; simpl in Hha; subst; simpl.
  - destruct (default empty_InternalLB int2). by eexists.
  - by eexists.
Qed.

Lemma no_external_normalize e ha :
  Endpoint_HighAvailability e = Some ha → External ha = None →
  ∃ ha', Endpoint_HighAvailability (normalize_endpoint e) = Some ha'
    ∧ HA_Enabled ha' = HA_Enabled ha ∧ External ha' = None.
Proof.
  intros He Hx. destruct e as [dom addr port dns ext int [[en e i]|]]; simplify_eq/=. by eexists.
Qed.

(** Then the validation follows a nil pointer. *)
Lemma endpoint_panics e p ha :
  Endpoint_HighAvailability e = Some ha → HA_Enabled ha = Some true → External ha = None →
  panics (Validate_ControlPlaneEndpointSpec e p).
Proof.
  intros He Hen Hext. unfold Validate_ControlPlaneEndpointSpec.
  do 10 (apply panics_bind_r; intros _). apply panics_bind_l.
  intros v. unfold external_ha_enabled. rewrite He. unfold mbind, M_bind, deref. by rewrite Hen, Hext.
Qed.

(** ** The validation of hosts *)

(** A host the validation accepts: it has a name, its address is the text of an IP
    address outside the loopback range, and it has exactly one credential. *)
Definition host_ok (h : HostSpec) : Prop :=
  Host_Name h ≠ ""
  ∧ (∃ ip, ParseIP (TrimSpace (Host_Address h)) = Some ip ∧ IsLoopback ip = false)
  ∧ host_authMethods h = 1.

Ltac silence := repeat first
  [ rewrite silent_bind; [| solve [grow] .. ]
  | rewrite silent_vif ].

Lemma silent_HostSpec h p v : silent (Validate_HostSpec h p) v → host_ok h.
Proof.
  unfold Validate_HostSpec. silence. intros (Hname & Haddr & _ & Hmany & Hnone & _).
  split_and!.
  - intros Hn. eapply silent_Add, Hname. by case_bool_decide.
  - case_decide; [by apply silent_Add in Haddr|].
    destruct (is_localhost _); [by apply silent_Add in Haddr|].
    destruct (ParseIP _) as [ip|]; [|by apply silent_Add in Haddr]. exists ip. split; [done|].
    apply not_true_is_false. intros Hl. rewrite Hl in Haddr. by apply silent_Add in Haddr.
  - assert (¬ (1 < host_authMethods h) ∧ host_authMethods h ≠ 0); [|lia]. split.
    + intros Hlt. eapply silent_Add, Hmany. by apply Nat.ltb_lt.
    + intros Hz. eapply silent_Add, Hnone. by apply Nat.eqb_eq.
Qed.

(** The names the loop over the hosts collects, whatever it reports. *)
Lemma Validate_hosts_names p i names addrs hosts v names' v' :
  Validate_hosts p i names addrs hosts v = (Ok names', v') →
  ∀ n, names' !! n = Some true ↔ names !! n = Some true ∨ n ≠ "" ∧ n ∈ Host_Name <$> hosts.
Proof.
  revert i names addrs v. induction hosts as [|h hosts IH]; intros i names addrs v.
  - intros [= <- <-] n. set_solver.
  - cbn [Validate_hosts]. intros Hrun n.
    inv_bind Hrun. inv_bind Hrun. inv_bind Hrun. apply IH with (n := n) in Hrun. rewrite Hrun.
    rewrite ?fmap_cons, elem_of_cons. case_decide as Hh; [naive_solver congruence|].
    destruct (decide (Host_Name h = n)) as [<-|Hne].
    + rewrite lookup_insert_eq. naive_solver.
    + rewrite lookup_insert_ne by done. naive_solver.
Qed.

Lemma Validate_hosts_silent p i names addrs hosts v names' :
  Validate_hosts p i names addrs hosts v = (Ok names', v) →
  Forall host_ok hosts ∧ NoDup (Host_Name <$> hosts) ∧ NoDup (Host_Address <$> hosts)
  ∧ (∀ h, h ∈ hosts → names !! Host_Name h ≠ Some true ∧ addrs !! Host_Address h ≠ Some true).
Proof.
  revert i names addrs. induction hosts as [|h hosts IH]; intros i names addrs.
  - intros _. split_and!; [constructor..|set_solver].
  - cbn [Validate_hosts].
    intros ([] & Hhost & Hrun)%silent_bind_ok; [|grow..].
    apply silent_bind_ok in Hrun as ([] & Hdup & Hrun); [|grow..].
    apply silent_bind_ok in Hrun as ([] & Hdup' & Hrest); [|grow..].
    apply silent_HostSpec in Hhost. pose proof Hhost as (Hname & (ip & Hip & _) & _).
    assert (Host_Address h ≠ "") as Haddr by (intros Ha; by rewrite Ha in Hip).
    apply IH in Hrest as (Hok & Hn & Ha & Hfresh). rewrite decide_False in Hfresh by done.
    rewrite decide_False in Hfresh by done. split_and!.
    + by constructor.
    + rewrite fmap_cons. apply NoDup_cons. split; [|done].
      intros (h' & Heq & Hin)%list_elem_of_fmap. destruct (Hfresh h' Hin) as [Hf _].
      rewrite <-Heq, lookup_insert_eq in Hf. done.
    + rewrite fmap_cons. apply NoDup_cons. split; [|done].
      intros (h' & Heq & Hin)%list_elem_of_fmap. destruct (Hfresh h' Hin) as [_ Hf].
      rewrite <-Heq, lookup_insert_eq in Hf. done.
    + intros h' [->|Hin]%elem_of_cons.
      * split; intros Hb.
        -- eapply silent_Add. eapply silent_vif; [exact Hdup|]. rewrite !bool_decide_true by done. done.
        -- eapply silent_Add. eapply silent_vif; [exact Hdup'|]. rewrite !bool_decide_true by done. done.
      * destruct (Hfresh h' Hin) as [Hf1 Hf2]. split; intros Hb.
        -- apply Hf1. destruct (decide (Host_Name h = Host_Name h')) as [->|];
             [by rewrite lookup_insert_eq|by rewrite lookup_insert_ne].
        -- apply Hf2. destruct (decide (Host_Address h = Host_Address h')) as [->|];
             [by rewrite lookup_insert_eq|by rewrite lookup_insert_ne].
Qed.

(** ** The validation of a cluster *)

Section cluster.
Context `{GoRange} `{OS} `{Sections}.

Lemma grows_ClusterSpec spec p : grows (Validate_ClusterSpec spec p).
Proof.
  unfold Validate_ClusterSpec. grow.
Qed.
#[local] Hint Resolve grows_ClusterSpec : kubexm.

(** The message about a member of a role group that is not a host. *)
Definition missing_message (role name : string) : string :=
  "spec/roleGroups." +:+ role +:+ ": host '" +:+ name +:+ "' is not defined in the hosts list".

(** What a cluster the validation accepts looks like, as far as hosts and role
    groups are concerned. *)
Definition spec_ok (s : ClusterSpec) (g : RoleGroupsSpec) : Prop :=
  RoleGroups s = Some g ∧ Hosts s ≠ [] ∧ Forall host_ok (Hosts s)
  ∧ NoDup (Host_Name <$> Hosts s) ∧ NoDup (Host_Address <$> Hosts s)
  ∧ (∀ n, n ∈ all_members g ↔ n ∈ Host_Name <$> Hosts s) ∧ Master g ≠ [].

Lemma elem_of_all_members g n :
  n ∈ all_members g ↔ ∃ role members, (role, members) ∈ role_groups g ∧ n ∈ members.
Proof.
  unfold all_members. rewrite list_elem_of_join. split.
  - intros (members & Hn & ([role ms] & -> & Hin)%list_elem_of_fmap). eauto.
  - intros (role & members & Hin & Hn). exists members. split; [done|].
    by apply (list_elem_of_fmap_2 snd) in Hin.
Qed.

Lemma silent_role_groups names g v :
  silent (Validate_role_groups "spec" names g) v →
  (∀ n, n ∈ all_members g → names !! n = Some true)
  ∧ (∀ n, is_Some (names !! n) → n ∈ all_members g) ∧ Master g ≠ [].
Proof.
  unfold Validate_role_groups, validateRoleGroup. silence. rewrite !silent_vfor by grow.
  intros (Hm & Hu & Hmaster). split_and!.
  - intros n (role & members & (i & Hi)%list_elem_of_lookup & (j & Hj)%list_elem_of_lookup)%elem_of_all_members.
    specialize (Hm _ _ Hi). simpl in Hm. rewrite silent_vfor in Hm by grow. specialize (Hm _ _ Hj).
    rewrite silent_vif in Hm. destruct (decide (names !! n = Some true)) as [|Hn]; [done|].
    exfalso. eapply silent_Add, Hm. by rewrite bool_decide_false.
  - intros n [b Hb]. apply (proj2 (elem_of_range 61 names n b)), (list_elem_of_fmap_2 fst) in Hb.
    apply list_elem_of_lookup in Hb as [i Hi]. specialize (Hu _ _ Hi). simpl in Hu. rewrite silent_vif in Hu.
    destruct (decide (n ∈ all_members g)) as [|Hn]; [done|].
    exfalso. eapply silent_Add, Hu. unfold slice_contains. by rewrite bool_decide_false.
  - intros Hnil. eapply silent_Add, Hmaster. by rewrite bool_decide_true.
Qed.

Lemma silent_Cluster c v : silent (Validate_Cluster c) v → ∃ s g, Spec c = Some s ∧ spec_ok s g.
Proof.
  unfold Validate_Cluster. silence. intros (_ & _ & _ & Hspec). unfold Validate_ClusterSpec in Hspec.
  destruct (Spec c) as [s|]; [|by apply silent_Add in Hspec]. exists s.
  apply silent_bind in Hspec as [Hhosts Hspec]; [|grow..].
  apply silent_bind_ok in Hspec as (names & Hnames & Hspec); [|grow..].
  apply silent_bind in Hspec as [Hgroups _]; [|grow..].
  destruct (RoleGroups s) as [g|] eqn:Hg; [|by apply silent_Add in Hgroups]. exists g. split; [done|].
  pose proof (Validate_hosts_names _ _ _ _ _ _ _ _ Hnames) as Hn.
  apply Validate_hosts_silent in Hnames as (Hok & Hnd & Hnda & _).
  simpl in Hgroups. apply silent_role_groups in Hgroups as (Hmem & Hall & Hmaster).
  split_and!; try done.
  - intros Hnil. apply silent_vif in Hhosts; [by apply silent_Add in Hhosts|]. by rewrite bool_decide_true.
  - intros n. split.
    + intros [Hbad|[_ Hin]]%Hmem%Hn; [by rewrite lookup_empty in Hbad|done].
    + intros Hin. apply Hall. exists true. apply Hn. right. split; [|done].
      apply list_elem_of_fmap in Hin as (h & -> & Hin).
      rewrite Forall_forall in Hok. by destruct (Hok _ Hin).
Qed.

(** The loop over the groups reports the member. *)
Lemma says_missing names g role members name :
  (role, members) ∈ role_groups g → name ∈ members → names !! name ≠ Some true →
  says (Validate_role_groups "spec" names g) (Sprintf0 (missing_message role name)).
Proof.
  intros [i Hi]%list_elem_of_lookup [j Hj]%list_elem_of_lookup Hn. unfold Validate_role_groups, validateRoleGroup.
  apply says_bind_l; [|grow]. eapply says_vfor; [grow|exact Hi|]. simpl.
  eapply says_vfor; [grow|exact Hj|]. rewrite bool_decide_false by done. by apply says_Add.
Qed.

(** ** Running the loader *)

Lemma collect_keeps {A B S C} (f : A → C) (f' : B → C) (body : A → M S Empty_set B) l s ys s' :
  (∀ x s y s', body x s = (Ok y, s') → f' y = f x) →
  collect l body s = (Ok ys, s') → f' <$> ys = f <$> l.
Proof.
  intros Hbody. revert s ys s'. induction l as [|x l IH]; intros s ys s' Hrun; simpl in Hrun.
  - by injection Hrun as <- <-.
  - inv_bind Hrun. inv_bind Hrun. injection Hrun as <- <-. simpl. f_equal; eauto.
Qed.

Lemma collect_elem {A B S} (body : A → M S Empty_set B) l s ys s' x :
  collect l body s = (Ok ys, s') → x ∈ l → ∃ y s1 s2, y ∈ ys ∧ body x s1 = (Ok y, s2).
Proof.
  revert s ys s'. induction l as [|z l IH]; intros s ys s' Hrun Hx; [by apply elem_of_nil in Hx|].
  simpl in Hrun. inv_bind Hrun. inv_bind Hrun. injection Hrun as <- <-.
  apply elem_of_cons in Hx as [->|Hx]; [eexists _, _, _; split; [|done]; set_solver|].
  edestruct IH as (y & ? & ? & ? & ?); [done..|]. eexists y, _, _. split; [set_solver|done].
Qed.

Lemma SetDefaults_HostSpec_name h name global d h' d' :
  SetDefaults_HostSpec h name global d = (Ok h', d') → Host_Name h' = Host_Name h.
Proof.
  unfold SetDefaults_HostSpec. intros Hrun. inv_bind Hrun. inv_bind Hrun. by injection Hrun as <- <-.
Qed.

(** A host takes over each credential it does not set itself. *)
Lemma SetDefaults_HostSpec_auth h name g d h' d' :
  SetDefaults_HostSpec h name (Some g) d = (Ok h', d') →
  host_authMethods h' = authMethods (or_text (Host_Password h) (Global_Password g))
    (or_text (Host_PrivateKey h) (Global_PrivateKey g)) (or_text (Host_PrivateKeyPath h) (Global_PrivateKeyPath g)).
Proof.
  unfold SetDefaults_HostSpec. intros Hrun. inv_bind Hrun. inv_bind Hrun. by injection Hrun as <- <-.
Qed.

(** What the defaults keep of hosts and groups, and give the endpoint. *)
Lemma SetDefaults_Cluster_spec c s d c1 d1 :
  SetDefaults_Cluster c d = (Ok c1, d1) → Spec c = Some s →
  ∃ s1, Spec c1 = Some s1 ∧ RoleGroups s1 = RoleGroups s ∧ Host_Name <$> Hosts s1 = Host_Name <$> Hosts s
    ∧ ControlPlaneEndpoint s1
      = Some (SetDefaults_ControlPlaneEndpointSpec (default empty_Endpoint (ControlPlaneEndpoint s)))
    ∧ ∃ g d2 d3, SetDefaults_GlobalSpec (default empty_Global (Global s)) d2 = (Ok g, d3)
      ∧ ∀ h, h ∈ Hosts s → ∃ h1 d4 d5, h1 ∈ Hosts s1 ∧ SetDefaults_HostSpec h (Name c) (Some g) d4 = (Ok h1, d5).
Proof.
  intros Hrun Hs. unfold SetDefaults_Cluster in Hrun. rewrite Hs in Hrun. inv_bind Hrun. injection Hrun as <- <-.
  inv_bind E. injection E as <- <-. rename E0 into Hspec. unfold SetDefaults_ClusterSpec in Hspec.
  repeat inv_bind Hspec. repeat case_match; try discriminate. injection Hspec as <- <-. eexists. split; [done|]. simpl. split_and!; [done| |done|].
  2: { eexists _, _, _. split; [done|]. intros h Hh. by eapply collect_elem in E0. }
  eapply (collect_keeps Host_Name Host_Name); [|done]. intros h ? h' ? Hh.
  exact (SetDefaults_HostSpec_name h _ _ _ _ _ Hh).
Qed.

(** Preparing a configuration that has hosts. *)
Lemma prepare_spec ifaces c s d c1 d1 :
  prepare ifaces c d = (Ok c1, d1) → Spec c = Some s →
  ∃ s1, Spec c1 = Some s1
    ∧ ControlPlaneEndpoint s1 = Some (normalize_endpoint
        (SetDefaults_ControlPlaneEndpointSpec (default empty_Endpoint (ControlPlaneEndpoint s))))
    ∧ (Hosts s ≠ [] → RoleGroups s1 = RoleGroups s ∧ Host_Name <$> Hosts s1 = Host_Name <$> Hosts s
        ∧ ∃ g d2 d3, SetDefaults_GlobalSpec (default empty_Global (Global s)) d2 = (Ok g, d3)
          ∧ ∀ h, h ∈ Hosts s → ∃ h1 d4 d5, h1 ∈ Hosts s1 ∧ SetDefaults_HostSpec h (Name c) (Some g) d4 = (Ok h1, d5)).
Proof.
  intros Hrun Hs. unfold prepare in Hrun. inv_bind Hrun.
  unfold wrap in E. destruct (SetDefaults_Cluster c d) as [[a0|[]|] d2] eqn:Hdef; simplify_eq.
  destruct (SetDefaults_Cluster_spec _ _ _ _ _ Hdef Hs) as (s2 & Hs2 & Hg & Hn & He & Hh).
  unfold ensureLocalHostIfEmpty, normalizeDeploymentTypes in Hrun. rewrite Hs2 in Hrun. simpl in Hrun.
  case_decide as Hnil.
  - destruct (DetectPrimaryIP ifaces) as [ip|]; [|done]. inv_bind Hrun. injection Hrun as <- <-.
    eexists. split; [done|]. simpl. rewrite He. split; [done|]. intros Hne. destruct Hne.
    rewrite Hnil in Hn. by destruct (Hosts s).
  - injection Hrun as <- <-. eexists. split; [done|]. simpl. rewrite He. done.
Qed.

Lemma prepare_error ifaces c d e d1 : prepare ifaces c d = (Err e, d1) → e = EnsureLocalHostFailed.
Proof.
  unfold prepare, ensureLocalHostIfEmpty, wrap, mbind, M_bind, fail. intros Hrun.
  repeat case_match; simplify_eq; try done; match goal with x : Empty_set |- _ => destruct x end.
Qed.

Lemma process_inv fuel ifaces skip c d c' d' :
  processClusterConfig fuel ifaces skip c d = Some (Ok c', d') →
  ∃ c1 s1 s', prepare ifaces c d = (Ok c1, d') ∧ validate skip c1 = Ok tt ∧ Spec c1 = Some s1
    ∧ assign_roles fuel skip s1 = Some (Ok s') ∧ c' = with_spec c1 s'.
Proof.
  unfold processClusterConfig. destruct (prepare ifaces c d) as [[c1|e|] d1] eqn:Hp; try done.
  destruct (validate skip c1) as [[]|e|] eqn:Hv; try done.
  destruct (Spec c1) as [s1|] eqn:Hs; [|done].
  destruct (assign_roles fuel skip s1) as [[s'|e|]|] eqn:Ha; try done.
  intros [= <- <-]. eauto 10.
Qed.

Lemma validate_silent c : validate false c = Ok tt → silent (Validate_Cluster c) [].
Proof.
  unfold validate, silent. destruct (Validate_Cluster c []) as [[[]|[]|] v]; [|done].
  unfold HasErrors. by case_bool_decide; subst.
Qed.

(** ** Assigning roles *)

Lemma expand_one_nonempty fuel pattern names :
  Config.ExpandHostRange fuel pattern = Some (Ok names) → names ≠ [].
Proof. unfold Config.ExpandHostRange. by repeat case_match; intros; simplify_eq. Qed.

Lemma expand_all_nonempty fuel patterns names :
  Config.ExpandRoleGroupHosts fuel patterns = Some (Ok names) → patterns ≠ [] → names ≠ [].
Proof.
  destruct patterns as [|x patterns]; [done|]. unfold Config.ExpandRoleGroupHosts. simpl.
  destruct (Config.ExpandHostRange fuel x) as [[l|e|]|] eqn:Hx; try done.
  apply expand_one_nonempty in Hx. repeat case_match; intros; simplify_eq. by destruct l.
Qed.

Lemma expand_groups_master fuel g g' :
  expand_groups fuel g = Some (Ok g') → Master g ≠ [] → Master g' ≠ [].
Proof.
  unfold expand_groups. intros Hexp Hne.
  destruct (Config.ExpandRoleGroupHosts fuel (Master g)) as [[l|e|]|] eqn:Hm; try done.
  apply expand_all_nonempty in Hm; [|done]. repeat case_match; by simplify_eq/=.
Qed.

Lemma ValidateRoleGroupHosts_None g hosts :
  ValidateRoleGroupHosts g hosts = None → ∀ n, n ∈ allHosts g → n ∈ Host_Name <$> hosts.
Proof.
  unfold ValidateRoleGroupHosts. intros Hnone n Hn. destruct (decide (n ∈ Host_Name <$> hosts)) as [|Hout]; [done|].
  assert (n ∈ filter (λ name, name ∉ Host_Name <$> hosts) (allHosts g)) as Hin by (by apply list_elem_of_filter).
  destruct (filter _ _); [by apply elem_of_nil in Hin|done].
Qed.

Lemma assign_roles_inv fuel skip s s' : assign_roles fuel skip s = Some (Ok s') →
  match RoleGroups s with
  | None => s' = with_hosts (Hosts s) None s
  | Some g => ∃ g', expand_groups fuel g = Some (Ok g')
      ∧ s' = with_hosts (ApplyRoleGroupsToHosts (Some g') (Hosts s)) (Some g') s
      ∧ (skip = false → ∀ n, n ∈ allHosts g' → n ∈ Host_Name <$> Hosts s)
  end.
Proof.
  unfold assign_roles. destruct (RoleGroups s) as [g|]; [|by intros [= <-]].
  destruct (expand_groups fuel g) as [[g'|e|]|] eqn:He; try done. intros Hrun. exists g'. split; [done|].
  destruct skip; simpl in Hrun; [by simplify_eq|].
  destruct (ValidateRoleGroupHosts g' (Hosts s)) eqn:Hv; [done|]. simplify_eq.
  split; [done|]. intros _. by apply ValidateRoleGroupHosts_None.
Qed.
(** ** Messages that reject *)

Lemma says_bind_names {A} (m : V A) (k : A → V unit) msg : (∀ a, says (k a) msg) → says (m ≫= k) msg.
Proof.
  intros Hk v v'. unfold mbind, M_bind. destruct (m v) as [[a|[]|] v1]; [apply Hk|done].
Qed.

(** A validation that lets a configuration through reports nothing but messages the
    filter drops. *)
Definition kept (skip : bool) (msg : string) : Prop :=
  skip = true → ¬ Contains msg ".hosts" ∧ ¬ Contains msg ".roleGroups".

Lemma reported_rejects skip c msg :
  says (Validate_Cluster c) msg → kept skip msg → validate skip c ≠ Ok tt.
Proof.
  intros Hsays Hskip Hv. unfold validate in Hv. destruct (Validate_Cluster c []) as [[[]|[]|] v] eqn:Hrun; [|done].
  apply Hsays in Hrun. unfold HasErrors in Hv. destruct skip.
  - destruct (Hskip eq_refl) as [Hh Hr]. unfold filterHostValidationErrors, IsEmpty in Hv.
    rewrite (bool_decide_false (v = [])) in Hv by (intros ->; by apply elem_of_nil in Hrun).
    case_bool_decide as Hf; [|done]. apply elem_of_nil with (x := msg).
    rewrite <-Hf. apply list_elem_of_filter. split; [|done].
    destruct (Contains _ ".hosts"); [by destruct Hh|]. by destruct (Contains _ ".roleGroups"); [destruct Hr|].
  - case_bool_decide as Hnil; [|done]. subst. by apply elem_of_nil in Hrun.
Qed.

End cluster.

(** ** What loading guarantees *)

Section loading.
Context `{GoRange} `{OS} `{Sections}.

(** C20: a configuration that loads with the validation of hosts on ([SkipHostValidation]
    unset) has hosts; each has a name, the text of a
    non-loopback IP address and exactly one credential; names and addresses are
    distinct; there is a master, and every member of a role group, ranges being
    expanded, is one of the hosts. *)
Theorem loaded_configuration_well_formed fuel ifaces c d c' d' :
  processClusterConfig fuel ifaces false c d = Some (Ok c', d') →
  ∃ s g, Spec c' = Some s ∧ RoleGroups s = Some g ∧ Hosts s ≠ [] ∧ Forall host_ok (Hosts s)
    ∧ NoDup (Host_Name <$> Hosts s) ∧ NoDup (Host_Address <$> Hosts s)
    ∧ Master g ≠ [] ∧ ∀ n, n ∈ allHosts g → n ∈ Host_Name <$> Hosts s.
Proof.
  intros (c1 & s1 & s' & _ & Hv & Hs1 & Ha & ->)%process_inv.
  apply validate_silent, silent_Cluster in Hv as (s & g & Hs & Hg & Hne & Hok & Hn & Had & _ & Hm).
  rewrite Hs in Hs1. simplify_eq. apply assign_roles_inv in Ha. rewrite Hg in Ha.
  destruct Ha as (g' & Hexp & -> & Hmem). eexists _, g'. split; [done|]. cbn [Hosts RoleGroups with_hosts].
  pose proof (λ A f, @ApplyRoleGroupsToHosts_keeps A f (Some g') (Hosts s1)) as Hkeep.
  rewrite !Hkeep by done. split_and!; try done.
  - intros Hnil. apply Hne. apply (f_equal (fmap Host_Name)) in Hnil. rewrite Hkeep in Hnil by done.
    by destruct (Hosts s1).
  - rewrite ApplyRoleGroupsToHosts_roles. apply Forall_fmap. eapply Forall_impl; [exact Hok|].
    intros h Hh. simpl. by case_decide.
  - by eapply expand_groups_master.
  - by apply Hmem.
Qed.

(** After loading, with or without the validation of hosts, a host that some
    role group lists has the roles of exactly those groups, once each and in the
    order of the groups, and its role table agrees. *)
Theorem loaded_roles fuel ifaces skip c d c' d' s g h :
  processClusterConfig fuel ifaces skip c d = Some (Ok c', d') →
  Spec c' = Some s → RoleGroups s = Some g → h ∈ Hosts s → roles_of g (Host_Name h) ≠ [] →
  Roles h = roles_of g (Host_Name h)
  ∧ ∀ r, entries (RoleTable h) !! r = Some true ↔ r ∈ Roles h.
Proof.
  intros (c1 & s1 & s' & _ & _ & _ & Ha & ->)%process_inv [= ->] Hg Hin Hne.
  apply assign_roles_inv in Ha. destruct (RoleGroups s1) as [g0|]; [|by subst].
  destruct Ha as (g' & _ & -> & _). cbn [Hosts RoleGroups with_hosts] in *. injection Hg as ->.
  rewrite ApplyRoleGroupsToHosts_roles in Hin. apply list_elem_of_fmap in Hin as (h0 & -> & _).
  case_decide as Hd; [done|]. simpl in *. split; [done|]. intros r. unfold entries. simpl.
  rewrite foldl_set_lookup, lookup_empty. naive_solver.
Qed.

(** C19: a configuration that lists hosts, with a role group member that is not
    literally the name of one of them, never loads.  (Without a list of hosts the local
    one is put in, and the role groups are made anew.)  The check precedes the expansion of host ranges, so a
    group that uses a range such as [node[1:3]] is rejected; and without the
    validation of hosts as well, unless the text of the message happens to contain
    [.hosts] or [.roleGroups] (it starts with [spec/roleGroups]). *)
Theorem unlisted_member_never_loads fuel ifaces skip c d s g role members name :
  Spec c = Some s → Hosts s ≠ [] → RoleGroups s = Some g →
  (role, members) ∈ role_groups g → name ∈ members → name ∉ Host_Name <$> Hosts s →
  (skip = true → ¬ Contains (Sprintf0 (missing_message role name)) ".hosts"
               ∧ ¬ Contains (Sprintf0 (missing_message role name)) ".roleGroups") →
  ¬ ∃ c' d', processClusterConfig fuel ifaces skip c d = Some (Ok c', d').
Proof.
  intros Hs Hne Hg Hrole Hname Hout Hskip (c' & d' & (c1 & s1 & s' & Hp & Hv & Hs1 & _)%process_inv).
  destruct (prepare_spec _ _ _ _ _ _ Hp Hs) as (s2 & Hs2 & _ & Hkeep). rewrite Hs1 in Hs2. simplify_eq.
  destruct (Hkeep Hne) as (Hg2 & Hn2 & _). rewrite Hg in Hg2.
  assert (says (Validate_Cluster c1) (Sprintf0 (missing_message role name))) as Hsays.
  { unfold Validate_Cluster, Validate_ClusterSpec. do 3 apply says_bind_r. rewrite Hs1. apply says_bind_r.
    intros v v'. unfold mbind at 1, M_bind at 1.
    destruct (Validate_hosts _ _ _ _ _ _) as [[names|[]|] v1] eqn:Hnames; [|done].
    pose proof (Validate_hosts_names _ _ _ _ _ _ _ _ Hnames name) as Hn. revert v1 v' Hnames.
    intros v1 v' _. revert v1 v'. apply says_bind_l; [|grow; auto with kubexm].
    rewrite Hg2. simpl. eapply says_missing; [done..|].
    rewrite Hn, lookup_empty, Hn2. naive_solver. }
  by apply (reported_rejects _ _ _ Hsays Hskip).
Qed.

(** A host that sets a credential of another kind than the global section does not
    load: it inherits the global one beside its own, and two are too many. *)
Theorem global_password_excludes_host_key fuel ifaces c d s g h :
  Spec c = Some s → Global s = Some g → Global_Password g ≠ "" → h ∈ Hosts s → Host_PrivateKey h ≠ "" →
  ¬ ∃ c' d', processClusterConfig fuel ifaces false c d = Some (Ok c', d').
Proof.
  intros Hs Hg Hpw Hin Hkey (c' & d' & (c1 & s1 & s' & Hp & Hv & Hs1 & _)%process_inv).
  destruct (prepare_spec _ _ _ _ _ _ Hp Hs) as (s2 & Hs2 & _ & Hkeep). rewrite Hs1 in Hs2. simplify_eq.
  destruct Hkeep as (_ & _ & g' & ? & ? & Hglobal & Hhosts); [by intros Hnil; rewrite Hnil in Hin; apply elem_of_nil in Hin|].
  destruct (Hhosts h Hin) as (h1 & ? & ? & Hin1 & Hh1). apply SetDefaults_HostSpec_auth in Hh1.
  apply validate_silent, silent_Cluster in Hv as (s3 & g3 & Hs3 & _ & _ & Hok & _).
  rewrite Hs1 in Hs3. simplify_eq. rewrite Forall_forall in Hok.
  destruct (Hok _ Hin1) as (_ & _ & Hone). rewrite Hh1 in Hone.
  rewrite Hg in Hglobal. simpl in Hglobal. unfold SetDefaults_GlobalSpec in Hglobal. inv_bind Hglobal.
  injection Hglobal as <- _. simpl in Hone. unfold or_text at 1 2 in Hone. rewrite (decide_False (P := Host_PrivateKey h = "")) in Hone by done.
  revert Hone. unfold authMethods. rewrite !filter_cons. repeat case_decide; simpl; try done; lia.
Qed.

(** A configuration without an external load balancer never loads: the
    defaults then switch on the internal one and leave no external section, and the
    validation of the endpoint follows the nil pointer.  The loader panics, unless
    it has failed before to find an address for the local host. *)
Theorem internal_load_balancer_panics fuel ifaces skip c d s :
  Spec c = Some s → no_external (default empty_Endpoint (ControlPlaneEndpoint s)) →
  ∃ o d', processClusterConfig fuel ifaces skip c d = Some (o, d')
    ∧ (o = Panic ∨ o = Err EnsureLocalHostFailed).
Proof.
  intros Hs Hno. unfold processClusterConfig.
  destruct (prepare ifaces c d) as [[c1|e|] d1] eqn:Hp; [|apply prepare_error in Hp as ->; eauto|eauto].
  destruct (prepare_spec _ _ _ _ _ _ Hp Hs) as (s1 & Hs1 & Hcpe & _).
  apply no_external_defaults in Hno as (ha & Hha & Hen & Hext).
  destruct (no_external_normalize _ _ Hha Hext) as (ha' & Hha' & Hen' & Hext').
  rewrite Hen in Hen'.
  assert (panics (Validate_Cluster c1)) as Hpanic.
  { unfold Validate_Cluster, Validate_ClusterSpec. do 3 (apply panics_bind_r; intros _). rewrite Hs1.
    do 7 (apply panics_bind_r; intros ?). apply panics_bind_l. rewrite Hcpe. simpl.
    by eapply endpoint_panics. }
  specialize (Hpanic []). unfold validate. destruct (Validate_Cluster c1 []) as [o v]. simpl in Hpanic. subst.
  eauto.
Qed.
End loading.
