(* ===== verification/ConfigWitnesses.v ===== *)
(** Concrete configurations: ranges that expand, a configuration that loads, and
    ones that do not. *)
From S2P Require Import Prelude.
From S2P Require Import GoText.
From S2P Require Import HostRange.
From S2P Require Import ValidationErrors.
From S2P Require Import LoadBalancerTypes.
From S2P Require Import EndpointTypes.
From S2P Require Import ClusterTypes.
From S2P Require Import ConfigLoad.
From S2P Require Import ConfigLoadSpec.

(** ** Ranges *)

Example range_padded : Config.ExpandHostRange 9 "node[08:10].lab" = Some (Ok ["node08.lab"; "node09.lab"; "node10.lab"]).
Proof. vm_compute. reflexivity. Qed.

Example range_plain : Config.ExpandHostRange 9 "n[9:10]" = Some (Ok ["n9"; "n10"]).
Proof. vm_compute. reflexivity. Qed.

Example range_last : Config.ExpandHostRange 9 "r[1:2]n[3:4]" = Some (Ok ["r[1:2]n3"; "r[1:2]n4"]).
Proof. vm_compute. reflexivity. Qed.

Example range_backwards : Config.ExpandHostRange 9 "n[4:3]" = Some (Err (StartAfterEnd "n[4:3]")).
Proof. vm_compute. reflexivity. Qed.

Example range_overflow : Config.ExpandHostRange 9 "n[1:9223372036854775808]"
  = Some (Err (InvalidEnd "n[1:9223372036854775808]")).
Proof. vm_compute. reflexivity. Qed.

Lemma ExpandHostRange_names_witness :
  let names := range_name "node" "08" ".lab" <$> seqZ 8 3 in
  NoDup names ∧ length names = 3
  ∧ ∀ fuel, 3 < fuel → Config.ExpandHostRange fuel "node[08:10].lab" = Some (Ok names).
Proof.
  assert (FindStringSubmatch "node[08:10].lab" = Some ("node", "08", "10", ".lab")) as Hfind by reflexivity.
  apply FindStringSubmatch_spec in Hfind as (Hn & Hr & Hlast).
  apply (ExpandHostRange_names "node[08:10].lab" "node" "08" "10" ".lab" Hr Hn Hlast).
  split; [done|]. vm_compute. done.
Defined.

(** ** A machine and the other sections *)

#[local] Instance example_range : GoRange := range_forward.

#[local] Instance example_os : OS := {|
  disk := unit; os_Stat _ _ := IsDirectory; os_MkdirAll _ d := (Ok tt, d); program_dir := Some "/opt/kubexm";
|}.

#[local] Instance example_sections : Sections.
Proof.
  refine {|
    Kubernetes := unit; Network := unit; DNS := unit; Storage := unit; Registry := unit; HelmRepo := unit;
    Addon := unit; Preflight := unit; Extra := unit;
    empty_Kubernetes := tt; empty_Network := tt; empty_DNS := tt; empty_Storage := tt; empty_Registry := tt;
    empty_Preflight := tt;
    SetDefaults_Kubernetes x := Ok x; SetDefaults_Network x := Ok x; SetDefaults_DNS x := Ok x;
    SetDefaults_Storage x := Ok x; SetDefaults_Registry x := Ok x; SetDefaults_Preflight x := Ok x;
    Validate_Kubernetes _ _ := mret tt; Validate_Network _ _ := mret tt; Validate_DNS _ _ := mret tt;
    Validate_Storage _ _ := mret tt; Validate_Registry _ _ := mret tt; Validate_Addon _ _ := mret tt;
    Validate_Preflight _ _ := mret tt; Validate_Extra _ _ := mret tt;
  |}; intros; apply grows_ret.
Defined.

Definition example_host (name address : string) : HostSpec :=
  MkHost name address "" 0 "" "" "" "" None [] "" "" 0 [] None.

Definition example_global : GlobalSpec := MkGlobal "" 0 "secret" "" "" 0 "" "" false false false false.

Definition example_spec (hosts : list HostSpec) (g : RoleGroupsSpec) (e : option ControlPlaneEndpointSpec) : ClusterSpec :=
  MkClusterSpec _ hosts (Some g) (Some example_global) None None None None None e None None None None [] None None None.

Definition example_cluster (s : ClusterSpec) : Cluster := MkCluster _ "" "" "demo" (Some s).

(** Two hosts behind keepalived and HAProxy at 10.0.0.100. *)
Definition external_endpoint : ControlPlaneEndpointSpec := MkEndpoint "" "10.0.0.100" 0 None "kubexm-kh" "" None.

Definition good_spec : ClusterSpec :=
  example_spec [example_host "m1" "10.0.0.1"; example_host "w1" "10.0.0.2"]
    (MkRoleGroups ["m1"] ["m1"; "w1"] ["m1"] [] [] []) (Some external_endpoint).

Definition example_disk : @disk example_os := tt.

Definition load (s : ClusterSpec) : option (outcome load_error Cluster * disk) :=
  processClusterConfig 9 None false (example_cluster s) example_disk.

Definition loaded (s : ClusterSpec) : Cluster :=
  match load s with Some (Ok c, _) => c | _ => example_cluster s end.

Definition loaded_spec (s : ClusterSpec) : ClusterSpec := default s (Spec (loaded s)).

Lemma good_loads : load good_spec = Some (Ok (loaded good_spec), example_disk).
Proof. vm_compute. reflexivity. Qed.

Example good_roles : Roles <$> Hosts (loaded_spec good_spec) = [["master"; "worker"; "etcd"]; ["worker"]].
Proof. vm_compute. reflexivity. Qed.

Example good_endpoint :
  match ControlPlaneEndpoint (loaded_spec good_spec) with
  | Some e => (Domain e, Port e, ExternalLoadBalancerType e, InternalLoadBalancerType e)
  | None => ("", 0%Z, "", "")
  end = ("local.kubexm.io", 6443%Z, "kubexm-kh", "").
Proof. vm_compute. reflexivity. Qed.

Lemma loaded_configuration_well_formed_witness :
  load good_spec = Some (Ok (loaded good_spec), example_disk)
  ∧ ∃ s g, Spec (loaded good_spec) = Some s ∧ RoleGroups s = Some g ∧ Hosts s ≠ [] ∧ Forall host_ok (Hosts s)
    ∧ NoDup (Host_Name <$> Hosts s) ∧ NoDup (Host_Address <$> Hosts s)
    ∧ Master g ≠ [] ∧ ∀ n, n ∈ allHosts g → n ∈ Host_Name <$> Hosts s.
Proof.
  split; [exact good_loads|].
  exact (loaded_configuration_well_formed 9 None (example_cluster good_spec) example_disk (loaded good_spec) example_disk good_loads).
Defined.

Lemma loaded_roles_witness :
  ∃ g h, RoleGroups (loaded_spec good_spec) = Some g ∧ h ∈ Hosts (loaded_spec good_spec) ∧ Host_Name h = "m1"
  ∧ roles_of g (Host_Name h) = ["master"; "worker"; "etcd"]
  ∧ Roles h = roles_of g (Host_Name h) ∧ ∀ r, entries (RoleTable h) !! r = Some true ↔ r ∈ Roles h.
Proof.
  eexists (MkRoleGroups ["m1"] ["m1"; "w1"] ["m1"] [] [] []), _. split; [vm_compute; reflexivity|].
  split; [apply (list_elem_of_lookup_2 _ 0); vm_compute; reflexivity|].
  split; [reflexivity|]. split; [vm_compute; reflexivity|].
  apply (loaded_roles 9 None false (example_cluster good_spec) example_disk (loaded good_spec) example_disk (loaded_spec good_spec)).
  - exact good_loads.
  - vm_compute. reflexivity.
  - vm_compute. reflexivity.
  - apply (list_elem_of_lookup_2 _ 0). vm_compute. reflexivity.
  - vm_compute. discriminate.
Defined.

(** ** A range in a role group *)

Definition range_spec : ClusterSpec :=
  example_spec [example_host "node1" "10.0.0.1"; example_host "node2" "10.0.0.2"]
    (MkRoleGroups ["node1"] ["node[1:2]"] ["node1"] [] [] []) (Some external_endpoint).

Example range_rejected : load range_spec = Some (Err (ValidationFailed
  ["spec/roleGroups.worker: host 'node[1:2]' is not defined in the hosts list";
   "spec: host 'node2' is defined but not assigned to any role in roleGroups"]), example_disk).
Proof. vm_compute. reflexivity. Qed.

Lemma unlisted_member_never_loads_witness :
  ¬ ∃ c' d', processClusterConfig 9 None true (example_cluster range_spec) example_disk = Some (Ok c', d').
Proof.
  apply (unlisted_member_never_loads 9 None true (example_cluster range_spec) example_disk range_spec
    (MkRoleGroups ["node1"] ["node[1:2]"] ["node1"] [] [] []) "worker" ["node[1:2]"] "node[1:2]").
  - reflexivity.
  - discriminate.
  - reflexivity.
  - apply (list_elem_of_lookup_2 _ 1). reflexivity.
  - apply (list_elem_of_lookup_2 _ 0). reflexivity.
  - intros Hin. apply (bool_decide_unpack _). by apply (bool_decide_eq_true_2 _) in Hin.
  - intros _. split; intros Hc; vm_compute in Hc; exact Hc.
Defined.

(** ** No external load balancer *)

Definition internal_spec : ClusterSpec :=
  example_spec [example_host "m1" "10.0.0.1"] (MkRoleGroups ["m1"] ["m1"] ["m1"] [] [] []) None.

Lemma internal_load_balancer_panics_witness :
  load internal_spec = Some (Panic, example_disk)
  ∧ ∃ o d', load internal_spec = Some (o, d') ∧ (o = Panic ∨ o = Err EnsureLocalHostFailed).
Proof.
  split; [vm_compute; reflexivity|].
  apply (internal_load_balancer_panics 9 None false (example_cluster internal_spec) example_disk internal_spec).
  - reflexivity.
  - split; [reflexivity|exact I].
Defined.

(** The same cluster with a key for its host, beside the global password. *)
Definition key_spec : ClusterSpec :=
  example_spec [MkHost "m1" "10.0.0.1" "" 0 "" "" "KEY" "" None [] "" "" 0 [] None]
    (MkRoleGroups ["m1"] ["m1"] ["m1"] [] [] []) (Some external_endpoint).

Example key_rejected : load key_spec = Some (Err (ValidationFailed
  ["spec.hosts[0]: only one of password, privateKey, or privateKeyPath can be set"]), example_disk).
Proof. vm_compute. reflexivity. Qed.
