(* ===== verification/SectionBase.v ===== *)
(** What the sections of the configuration share: messages added with an operand,
    texts of messages, tests on optional values.  Slices whose nil value the code
    tells from an empty one are [option]s, the others lists.

    Addons and their sources: [apis/kubexms/v1alpha1/addon_types.go].  The defaults
    of an addon, which nothing calls, are left out. *)
From S2P Require Import Prelude.
From S2P Require Import GoText.
From S2P Require Import Network.
From S2P Require Import Validators.
From S2P Require Import ValidationErrors.
From S2P Require Import GoUrl.
From S2P Require Import LoadBalancerTypes.
From Stdlib Require Import Ascii.

(** [fmt.Sprintf(format, arg)] with one text as operand: a format without a verb is
    followed by a remark about the operand; formats with verbs are left open. *)
Class Fmt : Type := {
  Sprintf1 : string → string → string;
  Sprintf1_extra format arg : has_byte "%" format = false →
    Sprintf1 format arg = format +:+ "%!(EXTRA string=" +:+ arg +:+ ")";
}.

(** [v.Add(format, arg)] *)
Definition AddArg `{Fmt} (format arg : string) : V unit := λ v, (Ok tt, v ++ [Sprintf1 format arg]).

Lemma grows_AddArg `{Fmt} f a : grows (AddArg f a).
Proof. intros v o v' [= <- <-]. by apply prefix_app_r. Qed.

Lemma silent_AddArg `{Fmt} f a v : ¬ silent (AddArg f a) v.
Proof. intros [= H1%(f_equal length)]. rewrite length_app in H1. simpl in H1. lia. Qed.

#[export] Hint Resolve grows_AddArg : kubexm.

(** A formatter that prints every operand as left over. *)
Definition plain_fmt : Fmt :=
  Build_Fmt (λ format arg, format +:+ "%!(EXTRA string=" +:+ arg +:+ ")") (λ _ _ _, eq_refl).

(** [helpers.ContainsStringWithEmpty] *)
Definition ContainsStringWithEmpty (slice : list string) (s : string) : bool :=
  bool_decide (s = "") || slice_contains slice s.

(** [fmt.Sprintf("%s.field: invalid kind '%s', must be one of [%s]", ...)] *)
Definition not_one_of (field kind value : string) (valid : list string) (tail : string) : string :=
  field +:+ ": invalid " +:+ kind +:+ " '" +:+ value +:+ "', must be one of [" +:+ Join valid ", " +:+ "]" +:+ tail.

(** A value out of the supported ones; empty when it is to be defaulted. *)
Definition check_mode (field kind value : string) (valid : list string) : V unit :=
  vif (negb (ContainsStringWithEmpty valid value)) (Add (not_one_of field kind value valid " or empty")).

(** [p != nil && *p] and [p != nil && strings.TrimSpace( *p) == ""] *)
Definition is_true (p : option bool) : bool := bool_decide (p = Some true).
Definition blank_ptr (p : option string) : bool := match p with Some s => blank s | None => false end.

(** A text that must be a network. *)
Definition check_CIDR (field value : string) : V unit :=
  vif (bool_decide (ParseCIDR value = None))
    (Add (field +:+ ": invalid CIDR format for '" +:+ value +:+ "': " +:+ CIDR_error value)).

(** [if p != nil { body }] *)
Definition vwith {A} (x : option A) (body : A → V unit) : V unit :=
  match x with Some x => body x | None => mret tt end.

Lemma grows_vwith {A} (x : option A) body : (∀ x, grows (body x)) → grows (vwith x body).
Proof. destruct x; simpl; auto with kubexm. Qed.

Lemma silent_vwith {A} (x : option A) body v : silent (vwith x body) v ↔ ∀ y, x = Some y → silent (body y) v.
Proof. destruct x; simpl; [naive_solver|]. split; [done|intros _; apply silent_ret]. Qed.

(** ** Growth, by the shape of the validation *)

Create HintDb validation.

Ltac growing :=
  repeat first
    [ progress (intros; cbn zeta)
    | solve [auto with validation]
    | apply grows_ret | apply grows_Add | apply grows_Addf | apply grows_AddArg | apply grows_panic | apply grows_deref
    | apply grows_vif | apply grows_vfor | apply grows_vwith
    | apply grows_bind
    | match goal with
      | |- grows (match ?x with _ => _ end) => destruct x
      end ].

(** ** Validations that return *)

(** [m] returns: it neither panics nor fails. *)
Definition returns (m : V unit) : Prop := ∀ v, ∃ v', m v = (Ok tt, v').

Lemma returns_ret : returns (mret tt).
Proof. intros v. by exists v. Qed.
Lemma returns_Add f : returns (Add f).
Proof. intros v. by eexists. Qed.
Lemma returns_Addf t : returns (Addf t).
Proof. intros v. by eexists. Qed.
Lemma returns_AddArg `{Fmt} f a : returns (AddArg f a).
Proof. intros v. by eexists. Qed.

Lemma returns_bind m k : returns m → returns (k tt) → returns (m ≫= k).
Proof.
  intros Hm Hk v. destruct (Hm v) as [v1 Hv]. destruct (Hk v1) as [v2 Hv2]. exists v2.
  unfold mbind, M_bind. by rewrite Hv.
Qed.

Lemma returns_vif b m : returns m → returns (vif b m).
Proof. destruct b; [done|intros _; apply returns_ret]. Qed.

Lemma returns_vfor_from {A} i (l : list A) body : (∀ i x, returns (body i x)) → returns (vfor_from i l body).
Proof.
  intros Hb. revert i. induction l as [|x l IH]; intros i; simpl; [apply returns_ret|]. by apply returns_bind.
Qed.

Lemma returns_vfor {A} (l : list A) body : (∀ i x, returns (body i x)) → returns (vfor l body).
Proof. apply returns_vfor_from. Qed.

Lemma returns_vwith {A} (x : option A) body : (∀ y, x = Some y → returns (body y)) → returns (vwith x body).
Proof. destruct x; simpl; [auto|intros _; apply returns_ret]. Qed.

(** A dereference of a pointer that is set. *)
Lemma returns_deref {A} (x : A) (k : A → V unit) : returns (k x) → returns (deref (Some x) ≫= k).
Proof. done. Qed.

Ltac return_ :=
  repeat first
    [ progress (intros; cbn zeta)
    | solve [auto with validation]
    | apply returns_ret | apply returns_Add | apply returns_Addf | apply returns_AddArg
    | apply returns_vif | apply returns_vfor | apply returns_vwith
    | apply returns_bind
    | match goal with
      | |- returns (match ?x with _ => _ end) => destruct x
      end ].

Record ChartSource : Type := MkChart {
  Chart_Name : string; Chart_Repo : string; Chart_Path : string; Chart_Version : string;
  ValuesFile : string; Values : list string; Wait : option bool;
}.

Record YamlSource : Type := MkYaml { Yaml_Version : string; Yaml_Path : list string }.

Record AddonSource : Type := MkSource {
  Source_Namespace : string; Source_Chart : option ChartSource; Source_Yaml : option YamlSource;
}.

Definition empty_Source : AddonSource := MkSource "" None None.

Record Addon : Type := MkAddon {
  Addon_Name : string; Addon_Enabled : option bool; Retries : option Z; Delay : option Z;
  Sources : list AddonSource; PreInstall : list string; PostInstall : list string; TimeoutSeconds : option Z;
}.

Definition Validate_ChartSource (c : ChartSource) (p : string) : V unit :=
  let hasPath := negb (blank (Chart_Path c)) in
  let hasName := negb (blank (Chart_Name c)) in
  let hasRepo := negb (blank (Chart_Repo c)) in
  vif (hasPath && (hasName || hasRepo)) (Add (p +:+ ": 'path' is mutually exclusive with 'name' and 'repo'")) ;;
  vif (negb hasPath && negb hasName) (Add (p +:+ ": either 'name' (with 'repo') or 'path' must be specified")) ;;
  vif (hasName && negb hasRepo && negb hasPath)
    (Add (path_Join [p; "repo"] +:+ ": must be specified when 'name' is set and 'path' is not")) ;;
  vif (hasRepo && negb hasName) (Add (path_Join [p; "name"] +:+ ": must be specified when 'repo' is set")) ;;
  vif (hasRepo && negb (IsValidURL (Chart_Repo c)))
    (Add (p +:+ ".repo: invalid URL format for '" +:+ Chart_Repo c +:+ "'")) ;;
  vif (bool_decide (Chart_Version c ≠ "") && negb (Helpers.IsValidChartVersion (Chart_Version c)))
    (Add (p +:+ ".version: invalid chart version format for '" +:+ Chart_Version c +:+ "'")) ;;
  vfor (Values c) (λ i val, vif (negb (has_byte "=" val))
    (Add (p +:+ ".values" +:+ index i +:+ ": invalid format '" +:+ val +:+ "', expected key=value"))).

Definition Validate_YamlSource (c : YamlSource) (p : string) : V unit :=
  vif (bool_decide (Yaml_Path c = [])) (Add (p +:+ ".path: must contain at least one YAML path or URL")) ;;
  vfor (Yaml_Path c) (λ i x, vif (blank x) (Add (p +:+ ".path" +:+ index i +:+ ": path/URL cannot be empty"))).

Definition Validate_AddonSource (c : AddonSource) (p : string) : V unit :=
  (if blank (Source_Namespace c) then Add (p +:+ ".namespace: cannot be empty")
   else vif (negb (Helpers.IsValidK8sName (Source_Namespace c)))
     (Add (p +:+ ".namespace: '" +:+ Source_Namespace c +:+ "' is not a valid Kubernetes namespace name"))) ;;
  match Source_Chart c, Source_Yaml c with
  | None, None => Add (p +:+ ": each source must have either a 'chart' or a 'yaml' definition")
  | Some _, Some _ => Add (p +:+ ": cannot define both 'chart' and 'yaml' in a single source element")
  | Some c, None => Validate_ChartSource c (path_Join [p; "chart"])
  | None, Some y => Validate_YamlSource y (path_Join [p; "yaml"])
  end.

Definition Validate_Addon (c : Addon) (pathPrefix : string) : V unit :=
  let p := path_Join [pathPrefix] in
  let sourcesPath := path_Join [p; "sources"] in
  (if blank (Addon_Name c) then Add (p +:+ ".name: cannot be empty")
   else vif (negb (Helpers.IsValidK8sName (Addon_Name c)))
     (Add (p +:+ ".name: '" +:+ Addon_Name c +:+ "' is not a valid Kubernetes name (DNS-1123 compliant)"))) ;;
  vif (int_is (λ n, n <? 0)%Z (Retries c)) (Add (p +:+ ".retries: cannot be negative")) ;;
  vif (int_is (λ n, n <? 0)%Z (Delay c)) (Add (p +:+ ".delay: cannot be negative")) ;;
  vif (int_is (λ n, n <=? 0)%Z (TimeoutSeconds c)) (Add (p +:+ ".timeoutSeconds: must be positive")) ;;
  vif (is_true (Addon_Enabled c) && bool_decide (Sources c = []))
    (Add (sourcesPath +:+ ": must contain at least one source when addon is enabled")) ;;
  vfor (Sources c) (λ i s, Validate_AddonSource s (sourcesPath +:+ index i)).

Lemma grows_Addon c p : grows (Validate_Addon c p).
Proof. unfold Validate_Addon, Validate_AddonSource, Validate_ChartSource, Validate_YamlSource. growing. Qed.

Lemma returns_Addon c p : returns (Validate_Addon c p).
Proof. unfold Validate_Addon, Validate_AddonSource, Validate_ChartSource, Validate_YamlSource. return_. Qed.
