(* ===== verification/NetworkTypes.v ===== *)
(** The network section of a cluster configuration and its plugins:
    [apis/kubexms/v1alpha1/network_types.go], [calico_types.go], [cilium_types.go],
    [flannel_types.go], [kubeovn_types.go], [hybridnet_types.go], [multus_types.go],
    with the constants of [common/]. *)
From S2P Require Import Prelude.
From S2P Require Import GoText.
From S2P Require Import GoNet.
From S2P Require Import ValidationErrors.
From S2P Require Import LoadBalancerTypes.
From S2P Require Import Network.
From S2P Require Import SectionBase.

(** ** Calico *)

Definition ValidCalicoEncapsulationModes : list string := ["Always"; "CrossSubnet"; "Never"].
Definition ValidCalicoIPPoolEncapsulationModes : list string :=
  ["IPIP"; "IPIPCrossSubnet"; "VXLAN"; "VXLANCrossSubnet"; "None"].
Definition ValidCalicoLogSeverities : list string := ["Debug"; "Info"; "Warning"; "Error"; "Fatal"].

Record CalicoBGPConfiguration : Type := MkCalicoBGP { CalicoBGP_Enabled : option bool }.

Record CalicoNetworking : Type := MkCalicoNetworking {
  IPIPMode : string; VXLANMode : string; VethMTU : option Z; BGPConfiguration : option CalicoBGPConfiguration;
}.

Record CalicoTyphaDeployment : Type := MkCalicoTypha {
  Typha_Enabled : option bool; Replicas : option Z; NodeSelector : gomap string;
}.

Record CalicoIPPool : Type := MkCalicoIPPool {
  Pool_Name : string; Pool_CIDR : string; Encapsulation : string; NatOutgoing : option bool;
  BlockSize : option Z; Pool_Disabled : option bool;
}.

Record CalicoIPAM : Type := MkCalicoIPAM { Pools : list CalicoIPPool; AutoCreatePools : option bool }.

Record CalicoFelixConfiguration : Type := MkCalicoFelix { LogSeverityScreen : string }.

Record CalicoConfig : Type := MkCalico {
  Calico_Source : AddonSource; Calico_Networking : option CalicoNetworking;
  TyphaDeployment : option CalicoTyphaDeployment; IPAM : option CalicoIPAM;
  FelixConfiguration : option CalicoFelixConfiguration;
}.

Definition empty_Calico : CalicoConfig := MkCalico empty_Source None None None None.

Definition calico_pool_defaults (p : CalicoIPPool) : CalicoIPPool :=
  MkCalicoIPPool (Pool_Name p) (Pool_CIDR p) (Encapsulation p) (or_ptr (NatOutgoing p) true)
    (or_ptr (BlockSize p) 26%Z) (or_ptr (Pool_Disabled p) false).

Definition SetDefaults_CalicoConfig (c : CalicoConfig) : CalicoConfig :=
  let net := default (MkCalicoNetworking "" "" None None) (Calico_Networking c) in
  let bgp := default (MkCalicoBGP None) (BGPConfiguration net) in
  let typha := default (MkCalicoTypha None None None) (TyphaDeployment c) in
  let ipam := default (MkCalicoIPAM [] None) (IPAM c) in
  let felix := default (MkCalicoFelix "") (FelixConfiguration c) in
  MkCalico (Calico_Source c)
    (Some (MkCalicoNetworking (or_text (IPIPMode net) "Always") (or_text (VXLANMode net) "Never") (VethMTU net)
      (Some (MkCalicoBGP (or_ptr (CalicoBGP_Enabled bgp) false)))))
    (Some (MkCalicoTypha (or_ptr (Typha_Enabled typha) true) (or_ptr (Replicas typha) 2%Z) (NodeSelector typha)))
    (Some (MkCalicoIPAM (calico_pool_defaults <$> Pools ipam) (or_ptr (AutoCreatePools ipam) true)))
    (Some (MkCalicoFelix (or_text (LogSeverityScreen felix) "Info"))).

Definition Validate_calico_pool (poolPath : string) (pool : CalicoIPPool) : V unit :=
  (if decide (Pool_CIDR pool = "") then Add (poolPath +:+ ".cidr: is a required field")
   else check_CIDR (poolPath +:+ ".cidr") (Pool_CIDR pool)) ;;
  vif (bool_decide (Encapsulation pool ≠ "")
       && negb (slice_contains ValidCalicoIPPoolEncapsulationModes (Encapsulation pool)))
    (Add (not_one_of (poolPath +:+ ".encapsulation") "mode" (Encapsulation pool) ValidCalicoIPPoolEncapsulationModes "")) ;;
  vif (int_is (λ n, (n <? 20) || (32 <? n))%Z (BlockSize pool))
    (Add (poolPath +:+ ".blockSize: invalid size " +:+ show_int (BlockSize pool) +:+ ", must be between 20 and 32")).

Definition Validate_CalicoConfig (c : CalicoConfig) (pathPrefix : string) : V unit :=
  vwith (Calico_Networking c) (λ n,
    let p := path_Join [pathPrefix; "networking"] in
    check_mode (p +:+ ".ipipMode") "mode" (IPIPMode n) ValidCalicoEncapsulationModes ;;
    check_mode (p +:+ ".vxlanMode") "mode" (VXLANMode n) ValidCalicoEncapsulationModes ;;
    vif (int_is (λ n, (n <? 60) || (65535 <? n))%Z (VethMTU n))
      (Add (p +:+ ".vethMTU: invalid MTU " +:+ show_int (VethMTU n) +:+ ", must be between 60 and 65535"))) ;;
  vwith (TyphaDeployment c) (λ t,
    vif (int_is (λ n, n <? 0)%Z (Replicas t))
      (Add (path_Join [pathPrefix; "typha"] +:+ ".replicas: cannot be negative, got " +:+ show_int (Replicas t)))) ;;
  vwith (IPAM c) (λ i,
    let p := path_Join [pathPrefix; "ipam"; "pools"] in
    vfor (Pools i) (λ i pool, Validate_calico_pool (p +:+ index i) pool)) ;;
  vwith (FelixConfiguration c) (λ f,
    check_mode (path_Join [pathPrefix; "felix"] +:+ ".logSeverityScreen") "level" (LogSeverityScreen f)
      ValidCalicoLogSeverities).

(** ** Cilium *)

Definition ValidCiliumTunnelModes : list string := ["vxlan"; "geneve"; "disabled"].
Definition ValidCiliumIPAMModes : list string := ["cluster-pool"; "kubernetes"].
Definition ValidCiliumKPRModes : list string := ["probe"; "strict"; "disabled"].
Definition ValidCiliumIdentModes : list string := ["crd"; "kvstore"].

Record CiliumNetworkConfig : Type := MkCiliumNetwork {
  TunnelingMode : string; IPAMMode : string; EnableBGPControlPlane : option bool;
}.
Record CiliumKubeProxyConfig : Type := MkCiliumKubeProxy {
  ReplacementMode : string; EnableBPFMasquerade : option bool;
}.
Record CiliumHubbleConfig : Type := MkCiliumHubble { Hubble_Enable : bool; EnableUI : bool }.
Record CiliumSecurityConfig : Type := MkCiliumSecurity {
  IdentityAllocationMode : string; EnableEncryption : option bool;
}.
Record CiliumPerformanceConfig : Type := MkCiliumPerformance { EnableBandwidthManager : option bool }.

Record CiliumConfig : Type := MkCilium {
  Cilium_Source : AddonSource; Cilium_Network : option CiliumNetworkConfig;
  Cilium_KubeProxy : option CiliumKubeProxyConfig; Hubble : option CiliumHubbleConfig;
  Security : option CiliumSecurityConfig; Performance : option CiliumPerformanceConfig;
}.

Definition empty_Cilium : CiliumConfig := MkCilium empty_Source None None None None None.

Definition SetDefaults_CiliumConfig (c : CiliumConfig) : CiliumConfig :=
  let n := default (MkCiliumNetwork "" "" None) (Cilium_Network c) in
  let k := default (MkCiliumKubeProxy "" None) (Cilium_KubeProxy c) in
  let h := default (MkCiliumHubble false false) (Hubble c) in
  let s := default (MkCiliumSecurity "" None) (Security c) in
  let f := default (MkCiliumPerformance None) (Performance c) in
  MkCilium (Cilium_Source c)
    (Some (MkCiliumNetwork (or_text (TunnelingMode n) "vxlan") (or_text (IPAMMode n) "cluster-pool")
      (or_ptr (EnableBGPControlPlane n) false)))
    (Some (MkCiliumKubeProxy (or_text (ReplacementMode k) "strict") (or_ptr (EnableBPFMasquerade k) true)))
    (Some (MkCiliumHubble (if EnableUI h && negb (Hubble_Enable h) then true else Hubble_Enable h) (EnableUI h)))
    (Some (MkCiliumSecurity (or_text (IdentityAllocationMode s) "crd") (or_ptr (EnableEncryption s) false)))
    (Some (MkCiliumPerformance (or_ptr (EnableBandwidthManager f) false))).

Definition Validate_CiliumConfig (c : CiliumConfig) (pathPrefix : string) : V unit :=
  vwith (Cilium_Network c) (λ n,
    let p := path_Join [pathPrefix; "network"] in
    check_mode (p +:+ ".tunnelingMode") "mode" (TunnelingMode n) ValidCiliumTunnelModes ;;
    check_mode (p +:+ ".ipamMode") "mode" (IPAMMode n) ValidCiliumIPAMModes) ;;
  vwith (Cilium_KubeProxy c) (λ k,
    check_mode (path_Join [pathPrefix; "kubeProxy"] +:+ ".replacement") "mode" (ReplacementMode k) ValidCiliumKPRModes) ;;
  vwith (Hubble c) (λ h,
    vif (EnableUI h && negb (Hubble_Enable h))
      (Add (pathPrefix +:+ ".hubble.enableUI: cannot be true if hubble.enable is false"))) ;;
  vwith (Security c) (λ s,
    check_mode (path_Join [pathPrefix; "security"] +:+ ".identityAllocationMode") "mode" (IdentityAllocationMode s)
      ValidCiliumIdentModes).

(** ** Flannel *)

Definition ValidFlannelBackendTypes : list string := ["vxlan"; "host-gw"; "udp"; "ipsec"].

Record FlannelVXLANConfig : Type := MkFlannelVXLAN {
  VNI : option Z; VXLAN_Port : option Z; VXLAN_DirectRouting : option bool;
}.
Record FlannelHostGWConfig : Type := MkFlannelHostGW { HostGW_DirectRouting : option bool }.
Record FlannelIPsecConfig : Type := MkFlannelIPsec { PSKSecretName : string }.

Record FlannelBackendConfig : Type := MkFlannelBackend {
  Backend_Type : string; Backend_VXLAN : option FlannelVXLANConfig; Backend_HostGW : option FlannelHostGWConfig;
  Backend_IPsec : option FlannelIPsecConfig;
}.

Record FlannelConfig : Type := MkFlannel { Flannel_Source : AddonSource; Backend : option FlannelBackendConfig }.

Definition empty_Flannel : FlannelConfig := MkFlannel empty_Source None.

Definition SetDefaults_FlannelConfig (c : FlannelConfig) : FlannelConfig :=
  let b := default (MkFlannelBackend "" None None None) (Backend c) in
  let ty := or_text (Backend_Type b) "vxlan" in
  let x := default (MkFlannelVXLAN None None None) (Backend_VXLAN b) in
  MkFlannel (Flannel_Source c)
    (Some (MkFlannelBackend ty
      (if decide (ty = "vxlan") then
         Some (MkFlannelVXLAN (or_ptr (VNI x) 1%Z) (or_ptr (VXLAN_Port x) 8472%Z) (or_ptr (VXLAN_DirectRouting x) false))
       else Backend_VXLAN b)
      (Backend_HostGW b) (Backend_IPsec b))).

Definition Validate_FlannelConfig (c : FlannelConfig) (pathPrefix : string) : V unit :=
  vwith (Backend c) (λ b,
    let p := path_Join [pathPrefix; "backend"] in
    let only ty := vif (bool_decide (Backend_Type b ≠ ty))
      (Add (p +:+ "." +:+ ty +:+ ": can only be set when backend type is '" +:+ ty +:+ "'")) in
    check_mode (p +:+ ".type") "type" (Backend_Type b) ValidFlannelBackendTypes ;;
    vwith (Backend_VXLAN b) (λ _, only "vxlan") ;;
    vwith (Backend_HostGW b) (λ _, only "host-gw") ;;
    vwith (Backend_IPsec b) (λ _, only "ipsec") ;;
    vwith (Backend_VXLAN b) (λ x,
      vif (int_is bad_port (VXLAN_Port x))
        (Add (path_Join [p; "vxlan"] +:+ ".port: invalid port " +:+ show_int (VXLAN_Port x)
              +:+ ", must be between 1-65535")))).

(** ** kube-ovn *)

Definition ValidKubeOvnTunnelTypes : list string := ["geneve"; "vxlan"].

Record KubeOvnNetworking : Type := MkKubeOvnNetworking { TunnelType : string; PodGateway : string; MTU : option Z }.
Record KubeOvnControllerConfig : Type := MkKubeOvnController {
  JoinCIDR : string; NodeSwitchCIDR : string; PodDefaultSubnetCIDR : string;
}.
Record KubeOvnAdvancedFeatures : Type := MkKubeOvnFeatures {
  EnableSSL : option bool; EnableVPCNATGateway : option bool; EnableSubnetQoS : option bool;
}.
Record KubeOvnConfig : Type := MkKubeOvn {
  KubeOvn_Source : AddonSource; KubeOvn_Networking : option KubeOvnNetworking;
  KubeOvn_Controller : option KubeOvnControllerConfig; AdvancedFeatures : option KubeOvnAdvancedFeatures;
}.

Definition empty_KubeOvn : KubeOvnConfig := MkKubeOvn empty_Source None None None.

Definition SetDefaults_KubeOvnConfig (c : KubeOvnConfig) : KubeOvnConfig :=
  let n := default (MkKubeOvnNetworking "" "" None) (KubeOvn_Networking c) in
  let f := default (MkKubeOvnFeatures None None None) (AdvancedFeatures c) in
  MkKubeOvn (KubeOvn_Source c)
    (Some (MkKubeOvnNetworking (or_text (TunnelType n) "geneve") (PodGateway n) (or_ptr (MTU n) 1500%Z)))
    (or_ptr (KubeOvn_Controller c) (MkKubeOvnController "" "" ""))
    (Some (MkKubeOvnFeatures (or_ptr (EnableSSL f) true) (or_ptr (EnableVPCNATGateway f) false)
      (or_ptr (EnableSubnetQoS f) false))).

(** A network that has to be given. *)
Definition required_CIDR (field value : string) : V unit :=
  if decide (value ≠ "") then check_CIDR field value else Add (field +:+ ": is a required field").

Definition Validate_KubeOvnConfig (c : KubeOvnConfig) (pathPrefix : string) : V unit :=
  vwith (KubeOvn_Networking c) (λ n,
    let p := path_Join [pathPrefix; "networking"] in
    check_mode (p +:+ ".tunnelType") "type" (TunnelType n) ValidKubeOvnTunnelTypes ;;
    vif (bool_decide (PodGateway n ≠ "") && bool_decide (ParseIP (PodGateway n) = None))
      (Add (p +:+ ".podGateway: invalid IP address format for '" +:+ PodGateway n +:+ "'"))) ;;
  match KubeOvn_Controller c with
  | Some k =>
      let p := path_Join [pathPrefix; "controller"] in
      required_CIDR (p +:+ ".joinCIDR") (JoinCIDR k) ;;
      required_CIDR (p +:+ ".nodeSwitchCIDR") (NodeSwitchCIDR k) ;;
      required_CIDR (p +:+ ".podDefaultSubnetCIDR") (PodDefaultSubnetCIDR k)
  | None => Add (pathPrefix +:+ ".controller: is a required section")
  end.

(** ** Hybridnet *)

Definition ValidHybridnetNetworkTypes : list string := ["Underlay"; "Overlay"].

Record HybridnetInstallationConfig : Type := MkHybridnetInstallation {
  Hybridnet_Enabled : option bool; ImageRegistry : string;
}.
Record HybridnetDefaultNetworkConfig : Type := MkHybridnetDefaultNetwork {
  CreateOnInit : option bool; Hybridnet_Type : string; DefaultUnderlaySubnetName : string;
  DefaultOverlaySubnetCIDR : string;
}.
Record HybridnetFeaturesConfig : Type := MkHybridnetFeatures {
  EnableNetworkPolicy : option bool; EnableMultiCluster : option bool;
}.
Record HybridnetConfig : Type := MkHybridnet {
  Hybridnet_Source : AddonSource; Hybridnet_Installation : option HybridnetInstallationConfig;
  DefaultNetwork : option HybridnetDefaultNetworkConfig; Features : option HybridnetFeaturesConfig;
}.

Definition empty_Hybridnet : HybridnetConfig := MkHybridnet empty_Source None None None.

Definition SetDefaults_HybridnetConfig (c : HybridnetConfig) : HybridnetConfig :=
  let i := default (MkHybridnetInstallation None "") (Hybridnet_Installation c) in
  let n := default (MkHybridnetDefaultNetwork None "" "" "") (DefaultNetwork c) in
  let f := default (MkHybridnetFeatures None None) (Features c) in
  MkHybridnet (Hybridnet_Source c)
    (Some (MkHybridnetInstallation (or_ptr (Hybridnet_Enabled i) false) (ImageRegistry i)))
    (Some (MkHybridnetDefaultNetwork (or_ptr (CreateOnInit n) true) (or_text (Hybridnet_Type n) "Overlay")
      (DefaultUnderlaySubnetName n) (DefaultOverlaySubnetCIDR n)))
    (Some (MkHybridnetFeatures (or_ptr (EnableNetworkPolicy f) true) (or_ptr (EnableMultiCluster f) false))).

Definition Validate_HybridnetConfig (c : HybridnetConfig) (pathPrefix : string) : V unit :=
  let disabled := match Hybridnet_Installation c with
                  | Some i => bool_decide (Hybridnet_Enabled i = Some false)
                  | None => false
                  end in
  if disabled then mret tt else
  match DefaultNetwork c with
  | None => Add (pathPrefix +:+ ".defaultNetwork: configuration is required when hybridnet is enabled")
  | Some n =>
      let p := path_Join [pathPrefix; "defaultNetwork"] in
      let cidr := DefaultOverlaySubnetCIDR n in
      check_mode (p +:+ ".type") "type" (Hybridnet_Type n) ValidHybridnetNetworkTypes ;;
      vif (bool_decide (Hybridnet_Type n = "Overlay"))
        (if decide (cidr = "") then Add (p +:+ ".defaultOverlaySubnetCIDR: is required when type is 'Overlay'")
         else vif (bool_decide (ParseCIDR cidr = None))
           (Add (p +:+ ".defaultOverlaySubnetCIDR: invalid CIDR format '" +:+ cidr +:+ "': " +:+ CIDR_error cidr))) ;;
      vif (bool_decide (Hybridnet_Type n = "Underlay") && bool_decide (DefaultUnderlaySubnetName n = ""))
        (Add (p +:+ ".defaultUnderlaySubnetName: is required when type is 'Underlay'"))
  end.

(** ** Multus *)

Record MultusInstallationConfig : Type := MkMultusInstallation {
  Multus_Enabled : option bool; Multus_Namespace : string; Multus_Image : string;
}.
Record MultusConfig : Type := MkMultus {
  Multus_Source : AddonSource; Multus_Installation : option MultusInstallationConfig;
}.

Definition empty_Multus : MultusConfig := MkMultus empty_Source None.

Definition SetDefaults_MultusConfig (c : MultusConfig) : MultusConfig :=
  let i := default (MkMultusInstallation None "" "") (Multus_Installation c) in
  MkMultus (Multus_Source c)
    (Some (MkMultusInstallation (or_ptr (Multus_Enabled i) false) (or_text (Multus_Namespace i) "kube-system")
      (or_text (Multus_Image i) "ghcr.io/k8snetworkplumbingwg/multus-cni:v4.0.2"))).

Definition Validate_MultusConfig (c : MultusConfig) (pathPrefix : string) : V unit := mret tt.

(** ** The section *)

Definition CNITypeCalico : string := "calico".
Definition CNITypeFlannel : string := "flannel".
Definition CNITypeCilium : string := "cilium".
Definition CNITypeKubeOvn : string := "kube-ovn".
Definition CNITypeHybridnet : string := "hybridnet".

Definition SupportedCNIPlugins : list string :=
  [CNITypeCalico; CNITypeFlannel; CNITypeCilium; CNITypeKubeOvn; CNITypeHybridnet].

Record NetworkSection : Type := MkNetwork {
  Plugin : string; KubePodsCIDR : string; KubeServiceCIDR : string; Calico : option CalicoConfig;
  Cilium : option CiliumConfig; Flannel : option FlannelConfig; KubeOvn : option KubeOvnConfig;
  Hybridnet : option HybridnetConfig; Multus : option MultusConfig;
}.

Definition empty_Network : NetworkSection := MkNetwork "" "" "" None None None None None None.

(** The section of the chosen plugin gets defaults, and those of Multus, kube-ovn
    and Hybridnet whatever the plugin. *)
Definition SetDefaults_Network (c : NetworkSection) : NetworkSection :=
  let plugin := or_text (Plugin c) CNITypeCalico in
  let chosen {A} name (x : option A) (defaulted : option A) := if decide (plugin = name) then defaulted else x in
  MkNetwork plugin (KubePodsCIDR c) (KubeServiceCIDR c)
    (chosen CNITypeCalico (Calico c) (Some (SetDefaults_CalicoConfig (default empty_Calico (Calico c)))))
    (chosen CNITypeCilium (Cilium c) (Some (SetDefaults_CiliumConfig (default empty_Cilium (Cilium c)))))
    (chosen CNITypeFlannel (Flannel c) (Some (SetDefaults_FlannelConfig (default empty_Flannel (Flannel c)))))
    (Some (SetDefaults_KubeOvnConfig (default empty_KubeOvn (KubeOvn c))))
    (Some (SetDefaults_HybridnetConfig (default empty_Hybridnet (Hybridnet c))))
    (Some (SetDefaults_MultusConfig (default empty_Multus (Multus c)))).

Definition valid_CIDR_field (field value : string) : V unit :=
  if blank value then Add (field +:+ ": cannot be empty")
  else vif (negb (IsValidCIDR value)) (Add (field +:+ ": invalid CIDR format '" +:+ value +:+ "'")).

(** The networks of pods and services must not contain each other's first address. *)
Definition check_overlap (p pods services : string) : V unit :=
  match ParseCIDR pods, ParseCIDR services with
  | Some podsNet, Some serviceNet =>
      vif (net_Contains podsNet (net_IP serviceNet) || net_Contains serviceNet (net_IP podsNet))
        (Add (p +:+ ": kubePodsCIDR (" +:+ pods +:+ ") and kubeServiceCIDR (" +:+ services +:+ ") must not overlap"))
  | _, _ => mret tt
  end.

(** The section of the chosen plugin, which must be there. *)
Definition Validate_plugin (c : NetworkSection) (p : string) : V unit :=
  let missing section := Add (p +:+ "." +:+ section +:+ ": config section cannot be empty if plugin is '" +:+ Plugin c +:+ "'") in
  let chosen {A} section (x : option A) (validate : A → string → V unit) :=
    match x with None => missing section | Some x => validate x (path_Join [p; section]) end in
  if decide (Plugin c = CNITypeCalico) then chosen "calico" (Calico c) Validate_CalicoConfig
  else if decide (Plugin c = CNITypeCilium) then chosen "cilium" (Cilium c) Validate_CiliumConfig
  else if decide (Plugin c = CNITypeFlannel) then chosen "flannel" (Flannel c) Validate_FlannelConfig
  else if decide (Plugin c = CNITypeKubeOvn) then chosen "kubeovn" (KubeOvn c) Validate_KubeOvnConfig
  else if decide (Plugin c = CNITypeHybridnet) then chosen "hybridnet" (Hybridnet c) Validate_HybridnetConfig
  else mret tt.

Definition Validate_Network (c : NetworkSection) (pathPrefix : string) : V unit :=
  let p := path_Join [pathPrefix] in
  valid_CIDR_field (p +:+ ".kubePodsCIDR") (KubePodsCIDR c) ;;
  valid_CIDR_field (p +:+ ".kubeServiceCIDR") (KubeServiceCIDR c) ;;
  vif (negb (ContainsStringWithEmpty SupportedCNIPlugins (Plugin c)))
    (Add (not_one_of (p +:+ ".plugin") "plugin" (Plugin c) SupportedCNIPlugins " or empty for default")) ;;
  check_overlap p (KubePodsCIDR c) (KubeServiceCIDR c) ;;
  Validate_plugin c p ;;
  vwith (Multus c) (λ x, Validate_MultusConfig x (path_Join [p; "multus"])) ;;
  vif (bool_decide (Plugin c ≠ CNITypeKubeOvn))
    (vwith (KubeOvn c) (λ x, Validate_KubeOvnConfig x (path_Join [p; "kubeovn"]))) ;;
  vif (bool_decide (Plugin c ≠ CNITypeHybridnet))
    (vwith (Hybridnet c) (λ x, Validate_HybridnetConfig x (path_Join [p; "hybridnet"]))).

(** ** Growth and return *)

Lemma grows_Network c p : grows (Validate_Network c p).
Proof.
  unfold Validate_Network, Validate_plugin, Validate_CalicoConfig, Validate_calico_pool, Validate_CiliumConfig,
    Validate_FlannelConfig, Validate_KubeOvnConfig, Validate_HybridnetConfig, Validate_MultusConfig, check_overlap,
    valid_CIDR_field, required_CIDR, check_CIDR, check_mode.
  growing.
Qed.

Lemma returns_Network c p : returns (Validate_Network c p).
Proof.
  unfold Validate_Network, Validate_plugin, Validate_CalicoConfig, Validate_calico_pool, Validate_CiliumConfig,
    Validate_FlannelConfig, Validate_KubeOvnConfig, Validate_HybridnetConfig, Validate_MultusConfig, check_overlap,
    valid_CIDR_field, required_CIDR, check_CIDR, check_mode.
  return_.
Qed.
