(* ===== verification/RuntimeTypes.v ===== *)
(** The container runtime section of a cluster configuration:
    [apis/kubexms/v1alpha1/container_runtime_types.go], [containerd_types.go],
    [docker_types.go], [crio_types.go], [isulad_types.go].  A raw extension is its
    bytes.

    The registry section of a cluster configuration:
    [apis/kubexms/v1alpha1/registry_types.go]. *)
From S2P Require Import Prelude.
From S2P Require Import GoText.
From S2P Require Import Network.
From S2P Require Import Validators.
From S2P Require Import ValidationErrors.
From S2P Require Import GoUrl.
From S2P Require Import LoadBalancerTypes.
From S2P Require Import SectionBase.
From Stdlib Require Import Ascii.

Definition ValidRegistryTypes : list string := ["harbor"; "docker-registry"; "registry"].

Record NamespaceRewriteRule : Type := MkRewriteRule {
  Rule_Registry : string; OldNamespace : string; NewNamespace : string;
}.
Record NamespaceRewriteSpec : Type := MkNamespaceRewrite {
  Rewrite_Enabled : option bool; Rules : list NamespaceRewriteRule;
}.
Record RegistryMirroringAndRewriting : Type := MkMirroring {
  PrivateRegistry : string; NamespaceOverride : string; NamespaceRewrite : option NamespaceRewriteSpec;
}.
Record LocalRegistryDeployment : Type := MkLocalRegistry {
  LocalRegistry_Type : string; DeleteDataOnClean : bool; LocalRegistry_DataRoot : string;
}.
Record RegistryAuth : Type := MkRegistryAuth {
  Auth_Username : string; Auth_Password : string; Auth_Auth : string; SkipTLSVerify : option bool;
  PlainHTTP : option bool; CertsPath : string;
}.
Record RegistrySection : Type := MkRegistry {
  MirroringAndRewriting : option RegistryMirroringAndRewriting; Registry_Auths : gomap RegistryAuth;
  LocalDeployment : option LocalRegistryDeployment;
}.

Definition empty_Registry : RegistrySection := MkRegistry None None None.

Definition SetDefaults_RegistryMirroringAndRewriting (c : RegistryMirroringAndRewriting) : RegistryMirroringAndRewriting :=
  let r := default (MkNamespaceRewrite None []) (NamespaceRewrite c) in
  MkMirroring (PrivateRegistry c) (or_text (NamespaceOverride c) "kubexmio")
    (Some (MkNamespaceRewrite (or_ptr (Rewrite_Enabled r) false) (Rules r))).

Definition SetDefaults_RegistryAuth (c : RegistryAuth) : RegistryAuth :=
  MkRegistryAuth (Auth_Username c) (Auth_Password c) (Auth_Auth c) (or_ptr (SkipTLSVerify c) true)
    (or_ptr (PlainHTTP c) false) (CertsPath c).

Definition SetDefaults_LocalRegistryDeployment (c : LocalRegistryDeployment) : LocalRegistryDeployment :=
  MkLocalRegistry (or_text (LocalRegistry_Type c) "harbor") (DeleteDataOnClean c)
    (or_text (LocalRegistry_DataRoot c) "/opt/harbor").

(** The loop writes back the entry it visits, in any order. *)
Definition SetDefaults_Registry (c : RegistrySection) : RegistrySection :=
  MkRegistry
    (Some (SetDefaults_RegistryMirroringAndRewriting (default (MkMirroring "" "" None) (MirroringAndRewriting c))))
    (Some (SetDefaults_RegistryAuth <$> entries (Registry_Auths c)))
    (Some (SetDefaults_LocalRegistryDeployment (default (MkLocalRegistry "" false "") (LocalDeployment c)))).

(** ["[%q]"] of a key without characters to escape. *)
Definition quoted (s : string) : string := String "034" (s +:+ String "034" "").
Definition key_index (s : string) : string := "[" +:+ quoted s +:+ "]".

(** A decoded [auth] text: [username:password]. *)
Definition decoded_pair (auth : string) : Z + bool :=
  match base64_DecodeString auth with inl e => inl e | inr t => inr (has_byte ":" t) end.

Definition Validate_RegistryAuth (c : RegistryAuth) (p : string) : V unit :=
  let hasUserPass := bool_decide (Auth_Username c ≠ "") && bool_decide (Auth_Password c ≠ "") in
  let hasAuthStr := bool_decide (Auth_Auth c ≠ "") in
  vif (negb hasUserPass && negb hasAuthStr) (Add (p +:+ ": either username/password or auth string must be provided")) ;;
  vif (hasUserPass && hasAuthStr)
    (Add (p +:+ ": cannot provide both username/password and auth string simultaneously")) ;;
  vif hasAuthStr
    match decoded_pair (Auth_Auth c) with
    | inl e => Add (p +:+ ".auth: failed to decode base64 auth string: " +:+ CorruptInputError e)
    | inr colon => vif (negb colon) (Add (p +:+ ".auth: decoded auth string must be in 'username:password' format"))
    end.

Definition Validate_LocalRegistryDeployment (c : LocalRegistryDeployment) (p : string) : V unit :=
  if decide (LocalRegistry_Type c = "") then Add (p +:+ ".type: is required for local deployment")
  else
    vif (negb (slice_contains ValidRegistryTypes (LocalRegistry_Type c)))
      (Add (p +:+ ".type: invalid type '" +:+ LocalRegistry_Type c +:+ "', must be one of "
            +:+ show_slice ValidRegistryTypes)) ;;
    vif (blank (LocalRegistry_DataRoot c)) (Add (p +:+ ".dataRoot: is required for local deployment")).

Definition Validate_rewrite_rule (rulePath : string) (rule : NamespaceRewriteRule) : V unit :=
  vif (blank (OldNamespace rule)) (Add (rulePath +:+ ".oldNamespace: cannot be empty")) ;;
  vif (blank (NewNamespace rule)) (Add (rulePath +:+ ".newNamespace: cannot be empty")) ;;
  vif (bool_decide (Rule_Registry rule ≠ "") && negb (Helpers.IsValidHostPort (Rule_Registry rule)))
    (Add (rulePath +:+ ".registry: invalid format '" +:+ Rule_Registry rule +:+ "'")).

Definition Validate_RegistryMirroringAndRewriting (c : RegistryMirroringAndRewriting) (p : string) : V unit :=
  vif (bool_decide (PrivateRegistry c ≠ "") && negb (Helpers.IsValidHostPort (PrivateRegistry c)))
    (Add (p +:+ ".privateRegistry: invalid format '" +:+ PrivateRegistry c +:+ "'")) ;;
  vwith (NamespaceRewrite c) (λ r,
    let rewritePath := path_Join [p; "namespaceRewrite"] in
    vif (is_true (Rewrite_Enabled r))
      (vif (bool_decide (Rules r = []))
         (Add (rewritePath +:+ ".rules: must contain at least one rule if rewrite is enabled")) ;;
       vfor (Rules r) (λ i rule, Validate_rewrite_rule (rewritePath +:+ ".rules" +:+ index i) rule))).

Section validation.
Context `{GoRange}.

Definition Validate_Registry (c : RegistrySection) (pathPrefix : string) : V unit :=
  let p := path_Join [pathPrefix] in
  vwith (MirroringAndRewriting c) (λ m, Validate_RegistryMirroringAndRewriting m (path_Join [p; "mirroring"])) ;;
  vfor (range 110 (entries (Registry_Auths c))) (λ _ '(regAddr, auth),
    if blank regAddr then Add (p +:+ ".auths: registry address key cannot be empty")
    else
      vif (negb (Helpers.IsValidHostPort regAddr))
        (Add (p +:+ ".auths: registry address key '" +:+ regAddr +:+ "' is not a valid format")) ;;
      Validate_RegistryAuth auth (p +:+ ".auths" +:+ key_index regAddr)) ;;
  vwith (LocalDeployment c) (λ l, Validate_LocalRegistryDeployment l (path_Join [p; "local"])).

Lemma grows_Registry c p : grows (Validate_Registry c p).
Proof.
  unfold Validate_Registry, Validate_RegistryMirroringAndRewriting, Validate_RegistryAuth,
    Validate_LocalRegistryDeployment, Validate_rewrite_rule. growing.
Qed.

Lemma returns_Registry c p : returns (Validate_Registry c p).
Proof.
  unfold Validate_Registry, Validate_RegistryMirroringAndRewriting, Validate_RegistryAuth,
    Validate_LocalRegistryDeployment, Validate_rewrite_rule. return_.
Qed.
End validation.

Definition CgroupDriverSystemd : string := "systemd".
Definition CgroupDriverCgroupfs : string := "cgroupfs".
Definition DefaultPauseImage : string := "registry.k8s.io/pause:3.9".
Definition DefaultCNIBinDirTarget : string := "/opt/cni/bin".

Section checks.
Context `{Fmt}.

(** The checks that the runtimes share. *)
Definition check_not_blank (field : string) (s : option string) : V unit :=
  vif (blank_ptr s) (AddArg field "cannot be empty if specified").

Definition check_cgroup (field : string) (driver : option string) : V unit :=
  vwith driver (λ d, vif (bool_decide (d ≠ CgroupDriverSystemd ∧ d ≠ CgroupDriverCgroupfs))
    (AddArg field "must be 'systemd' or 'cgroupfs'")).

Definition check_pause (pausePath pause : string) : V unit :=
  vif (bool_decide (pause ≠ ""))
    (if blank pause then AddArg pausePath "cannot be only whitespace if specified"
     else vif (negb (Helpers.IsValidImageReference pause))
       (AddArg pausePath ("invalid image reference format: '" +:+ pause +:+ "'"))).

(** A host that is no name and no [host:port]. *)
Definition bad_host (s : string) : bool := negb (Helpers.ValidateHostPortString s) && negb (Helpers.IsValidDomainName s).

(** The credentials of a registry, with the text added for one that does not decode. *)
Definition check_credentials (path : string) (hasUserPass : bool) (auth : string) (corrupt : Z → V unit) : V unit :=
  let hasAuthStr := bool_decide (auth ≠ "") in
  vif (negb hasUserPass && negb hasAuthStr) (AddArg path "either username/password or auth string must be provided") ;;
  vif hasAuthStr
    match decoded_pair auth with
    | inl e => corrupt e
    | inr colon => vif (negb colon) (AddArg (path +:+ ".auth") "decoded auth string must be in 'username:password' format")
    end.

Definition corrupt_auth (path : string) (e : Z) : V unit :=
  Add (path +:+ ".auth: failed to decode base64 auth string: " +:+ CorruptInputError e).
End checks.

(** ** containerd *)

Record ContainerdRegistryAuth : Type := MkContainerdAuth {
  CAuth_Username : string; CAuth_Password : string; CAuth_Auth : string; IdentityToken : string;
}.
Record TLSConfig : Type := MkTLS {
  InsecureSkipVerify : bool; TLS_CAFile : string; TLS_CertFile : string; TLS_KeyFile : string;
}.
Record AuthConfig : Type := MkAuthConfig { AuthConfig_Auth : option ContainerdRegistryAuth; AuthConfig_TLS : option TLSConfig }.
Record MirrorConfig : Type := MkMirror { Mirror_Endpoints : list string }.
Record ContainerdRegistry : Type := MkContainerdRegistry { Mirrors : gomap MirrorConfig; Configs : gomap AuthConfig }.

Record Containerd : Type := MkContainerd {
  Containerd_Endpoint : string; Containerd_Version : string; Containerd_Registry : option ContainerdRegistry;
  Containerd_CgroupDriver : option string; Containerd_ExtraTomlConfig : string; ConfigPath : option string;
  DisabledPlugins : list string; RequiredPlugins : option (list string); Imports : list string;
  Containerd_Root : option string; Containerd_State : option string; Containerd_Pause : string;
}.

Definition empty_Containerd : Containerd := MkContainerd "" "" None None "" None [] None [] None None "".

Definition SetDefaults_ContainerdConfig (c : Containerd) : Containerd :=
  let r := default (MkContainerdRegistry None None) (Containerd_Registry c) in
  MkContainerd (or_text (Containerd_Endpoint c) "unix:///run/containerd/containerd.sock")
    (or_text (Containerd_Version c) "2.1.3")
    (Some (MkContainerdRegistry (Some (entries (Mirrors r))) (Some (entries (Configs r)))))
    (or_ptr (Containerd_CgroupDriver c) CgroupDriverSystemd) (Containerd_ExtraTomlConfig c)
    (or_ptr (ConfigPath c) "/etc/containerd/config.toml") (DisabledPlugins c)
    (or_ptr (RequiredPlugins c) ["io.containerd.grpc.v1.cri"]) (Imports c)
    (or_ptr (Containerd_Root c) "/var/lib/containerd") (or_ptr (Containerd_State c) "/run/containerd")
    (or_text (Containerd_Pause c) DefaultPauseImage).

Section containerd.
Context `{GoRange} `{Fmt}.

Definition Validate_mirror (mirrorMapPath reg : string) (mirror : MirrorConfig) : V unit :=
  let entryPath := mirrorMapPath +:+ key_index reg in
  (if blank reg then AddArg mirrorMapPath "registry host key cannot be empty"
   else vif (bad_host reg) (AddArg entryPath ("registry key '" +:+ reg +:+ "' is not a valid hostname or host:port"))) ;;
  vif (bool_decide (Mirror_Endpoints mirror = [])) (AddArg entryPath "must contain at least one endpoint URL") ;;
  vfor (Mirror_Endpoints mirror) (λ i endpointURL, vif (negb (is_http_uri endpointURL))
    (AddArg (entryPath +:+ ".endpoints" +:+ index i)
      ("invalid URL format for endpoint '" +:+ endpointURL +:+ "' (must be http or https)"))).

Definition Validate_registry_config (configMapPath reg : string) (config : AuthConfig) : V unit :=
  let entryPath := configMapPath +:+ key_index reg in
  (if blank reg then AddArg configMapPath "registry host key cannot be empty"
   else vif (bad_host reg) (AddArg entryPath ("registry key '" +:+ reg +:+ "' is not a valid hostname or host:port"))) ;;
  vwith (AuthConfig_Auth config) (λ auth,
    let authPath := entryPath +:+ ".auth" in
    let hasUserPass := bool_decide (CAuth_Username auth ≠ "") && bool_decide (CAuth_Password auth ≠ "") in
    let hasAuthStr := bool_decide (CAuth_Auth auth ≠ "") in
    vif (negb hasUserPass && negb hasAuthStr && bool_decide (IdentityToken auth = ""))
      (AddArg authPath "one of username/password, auth string, or identityToken must be provided") ;;
    vif hasAuthStr
      match decoded_pair (CAuth_Auth auth) with
      | inl _ => AddArg (authPath +:+ ".auth") "failed to decode base64 auth string"
      | inr colon => vif (negb colon)
          (AddArg (authPath +:+ ".auth") "decoded auth string must be in 'username:password' format")
      end).

Definition Validate_ContainerdConfig (c : Containerd) (p : string) : V unit :=
  vif (bool_decide (Containerd_Version c ≠ ""))
    (if blank (Containerd_Version c) then AddArg (p +:+ ".version") "cannot be only whitespace if specified"
     else vif (negb (Helpers.IsValidRuntimeVersion (Containerd_Version c)))
       (Add (p +:+ ".version: '" +:+ Containerd_Version c +:+ "' is not a recognized version format"))) ;;
  vwith (Containerd_Registry c) (λ r,
    vfor (range 111 (entries (Mirrors r))) (λ _ '(reg, m), Validate_mirror (p +:+ ".registry.mirrors") reg m) ;;
    vfor (range 112 (entries (Configs r))) (λ _ '(reg, a), Validate_registry_config (p +:+ ".registry.configs") reg a)) ;;
  check_not_blank (p +:+ ".configPath") (ConfigPath c) ;;
  vfor (DisabledPlugins c) (λ i plug,
    vif (blank plug) (Add (p +:+ ".disabledPlugins" +:+ index i +:+ ": plugin name cannot be empty"))) ;;
  vfor (default [] (RequiredPlugins c)) (λ i plug,
    vif (blank plug) (Add (p +:+ ".requiredPlugins" +:+ index i +:+ ": plugin name cannot be empty")) ;;
    vif (slice_contains (DisabledPlugins c) plug)
      (AddArg p ("plugin '" +:+ plug +:+ "' cannot be in both requiredPlugins and disabledPlugins"))) ;;
  check_not_blank (p +:+ ".root") (Containerd_Root c) ;;
  check_not_blank (p +:+ ".state") (Containerd_State c) ;;
  check_pause (p +:+ ".pause") (Containerd_Pause c) ;;
  vfor (Imports c) (λ i imp,
    vif (blank imp) (Add (p +:+ ".imports" +:+ index i +:+ ": import path cannot be empty"))).
End containerd.

(** ** Docker *)

Record DockerAddressPool : Type := MkAddressPool { Base : string; Size_ : Z }.
Record DockerRegistryAuth : Type := MkDockerAuth { DAuth_Username : string; DAuth_Password : string; DAuth_Auth : string }.
Record DockerRuntime : Type := MkDockerRuntime { Runtime_Path : string; RuntimeArgs : list string }.

Record Docker : Type := MkDocker {
  Docker_Endpoint : string; Docker_Version : string; RegistryMirrors : list string; InsecureRegistries : list string;
  DataRoot : option string; ExecOpts : list string; LogDriver : option string; LogOpts : gomap string;
  BIP : option string; FixedCIDR : option string; DefaultAddressPools : list DockerAddressPool;
  Experimental : option bool; IPTables : option bool; IPMasq : option bool; StorageDriver : option string;
  StorageOpts : list string; DefaultRuntime : option string; Runtimes : gomap DockerRuntime;
  MaxConcurrentDownloads : option Z; MaxConcurrentUploads : option Z; Bridge : option string;
  Docker_CgroupDriver : option string; LiveRestore : option bool; InstallCRIDockerd : option bool;
  CRIDockerdVersion : option string; ExtraJSONConfig : option string; Docker_Auths : gomap DockerRegistryAuth;
  Docker_Pause : string;
}.

Definition empty_Docker : Docker :=
  MkDocker "" "" [] [] None [] None None None None [] None None None None [] None None None None None None None
    None None None None "".

(** Without a choice about cri-dockerd its version is set too. *)
Definition SetDefaults_DockerConfig (c : Docker) : Docker :=
  MkDocker (or_text (Docker_Endpoint c) "unix:///var/run/docker.sock") (or_text (Docker_Version c) "24.0.0")
    (RegistryMirrors c) (InsecureRegistries c) (or_ptr (DataRoot c) "/var/lib/docker") (ExecOpts c)
    (or_ptr (LogDriver c) "json-file")
    (or_ptr (LogOpts c) {["max-size" := "100m"; "max-file" := "5"]})
    (BIP c) (FixedCIDR c) (DefaultAddressPools c) (or_ptr (Experimental c) false) (or_ptr (IPTables c) true)
    (or_ptr (IPMasq c) true) (StorageDriver c) (StorageOpts c) (DefaultRuntime c) (or_ptr (Runtimes c) ∅)
    (or_ptr (MaxConcurrentDownloads c) 3%Z) (or_ptr (MaxConcurrentUploads c) 5%Z) (or_ptr (Bridge c) "docker0")
    (or_ptr (Docker_CgroupDriver c) CgroupDriverSystemd) (or_ptr (LiveRestore c) true)
    (or_ptr (InstallCRIDockerd c) true)
    (match InstallCRIDockerd c with None => Some "v0.3.4" | Some _ => CRIDockerdVersion c end)
    (ExtraJSONConfig c) (or_ptr (Docker_Auths c) ∅) (or_text (Docker_Pause c) DefaultPauseImage).

Definition validLogDrivers : list string := ["json-file"; "journald"; "syslog"; "fluentd"; "none"; ""].

Section docker.
Context `{GoRange} `{Fmt}.

(** One entry of the registries with credentials, for Docker and CRI-O. *)
Definition Validate_auth_entry (authMapPath regAddr username password auth : string) : V unit :=
  let entryPath := authMapPath +:+ key_index regAddr in
  (if blank regAddr then AddArg authMapPath "registry address key cannot be empty"
   else vif (bad_host regAddr)
     (Add (entryPath +:+ ": registry key '" +:+ regAddr +:+ "' is not a valid hostname or host:port"))) ;;
  check_credentials entryPath (bool_decide (username ≠ "") && bool_decide (password ≠ "")) auth (corrupt_auth entryPath).

Definition Validate_dataRoot (p : string) (dataRoot : string) : V unit :=
  let trimmed := TrimSpace dataRoot in
  if decide (trimmed = "") then AddArg (p +:+ ".dataRoot") "cannot be empty if specified"
  else vif (bool_decide (trimmed = "/tmp" ∨ trimmed = "/var/tmp"))
    (Add (p +:+ ".dataRoot: path '" +:+ trimmed +:+ "' is not recommended for Docker data root")).

Definition Validate_docker_registries (c : Docker) (p : string) : V unit :=
  vfor (RegistryMirrors c) (λ i mirror,
    let mirrorPath := p +:+ ".registryMirrors" +:+ index i in
    if blank mirror then AddArg mirrorPath "mirror URL cannot be empty"
    else vif (negb (is_http_uri mirror))
      (Add (mirrorPath +:+ ": invalid URL format for mirror '" +:+ mirror
            +:+ "' (must be http or https and valid URI)"))) ;;
  vfor (InsecureRegistries c) (λ i reg,
    let regPath := p +:+ ".insecureRegistries" +:+ index i in
    if blank reg then AddArg regPath "registry host cannot be empty"
    else vif (bad_host reg)
      (Add (regPath +:+ ": invalid host:port or domain name format for insecure registry '" +:+ reg +:+ "'"))).

Definition Validate_address_pool (poolPath : string) (pool : DockerAddressPool) : V unit :=
  vif (negb (IsValidCIDR (Base pool))) (Add (poolPath +:+ ".base: invalid CIDR format '" +:+ Base pool +:+ "'")) ;;
  vif ((Size_ pool <=? 0) || (32 <? Size_ pool))%Z
    (Add (poolPath +:+ ".size: invalid subnet size " +:+ decimal (Size_ pool) +:+ ", must be > 0 and <= 32")).

Definition Validate_docker_network (c : Docker) (p : string) : V unit :=
  let cidr field s := vwith s (λ s, vif (negb (IsValidCIDR s))
    (Add (p +:+ "." +:+ field +:+ ": invalid CIDR format '" +:+ s +:+ "'"))) in
  cidr "bip" (BIP c) ;;
  cidr "fixedCIDR" (FixedCIDR c) ;;
  vfor (DefaultAddressPools c) (λ i pool, Validate_address_pool (p +:+ ".defaultAddressPools" +:+ index i) pool).

Definition Validate_DockerConfig (c : Docker) (p : string) : V unit :=
  Validate_docker_registries c p ;;
  vwith (DataRoot c) (Validate_dataRoot p) ;;
  vwith (LogDriver c) (λ d, vif (negb (slice_contains validLogDrivers d))
    (Add (p +:+ ".logDriver: invalid log driver '" +:+ d +:+ "', must be one of " +:+ show_slice validLogDrivers
          +:+ " or empty for default"))) ;;
  Validate_docker_network c p ;;
  check_not_blank (p +:+ ".storageDriver") (StorageDriver c) ;;
  vif (int_is (λ n, n <=? 0)%Z (MaxConcurrentDownloads c))
    (AddArg (p +:+ ".maxConcurrentDownloads") "must be positive if specified") ;;
  vif (int_is (λ n, n <=? 0)%Z (MaxConcurrentUploads c))
    (AddArg (p +:+ ".maxConcurrentUploads") "must be positive if specified") ;;
  vfor (range 113 (entries (Runtimes c))) (λ _ '(name, rt),
    vif (blank name) (AddArg (p +:+ ".runtimes") "runtime name key cannot be empty") ;;
    vif (blank (Runtime_Path rt)) (AddArg (p +:+ ".runtimes['" +:+ name +:+ "'].path") "path cannot be empty")) ;;
  vif (blank_ptr (Bridge c)) (AddArg (p +:+ ".bridge") "name cannot be empty if specified") ;;
  vwith (CRIDockerdVersion c) (λ version,
    if blank version then AddArg (p +:+ ".criDockerdVersion") "cannot be only whitespace if specified"
    else vif (negb (Helpers.IsValidRuntimeVersion version))
      (Add (p +:+ ".criDockerdVersion: '" +:+ version +:+ "' is not a recognized version format"))) ;;
  vif (bool_decide (ExtraJSONConfig c = Some ""))
    (AddArg (p +:+ ".extraJsonConfig") "raw data cannot be empty if section is present") ;;
  vfor (range 114 (entries (Docker_Auths c))) (λ _ '(regAddr, a),
    Validate_auth_entry (p +:+ ".auths") regAddr (DAuth_Username a) (DAuth_Password a) (DAuth_Auth a)) ;;
  check_cgroup (p +:+ ".cgroupDriver") (Docker_CgroupDriver c) ;;
  check_pause (p +:+ ".pause") (Docker_Pause c).
End docker.

(** ** CRI-O *)

Record CrioRuntime : Type := MkCrioRuntime { RuntimePath : string; RuntimeType : string; RuntimeRoot : string }.
Record RegistryMirror : Type := MkRegistryMirror {
  Prefix : string; Location : string; Insecure : option bool; Blocked : option bool;
}.
Record CrioRegistry : Type := MkCrioRegistry {
  UnqualifiedSearchRegistries : option (list string); Registries : list RegistryMirror;
}.
Record Crio : Type := MkCrio {
  Crio_Endpoint : string; Crio_Version : string; Conmon : option string; Crio_CgroupDriver : option string;
  Crio_StorageDriver : option string; StorageOption : list string; Crio_LogLevel : option string; LogFilter : string;
  ManageNetwork : option bool; NetworkDir : option string; PluginDirs : option (list string);
  Crio_Runtimes : gomap CrioRuntime; Crio_Registry : option CrioRegistry; Crio_ExtraTomlConfig : string;
  Crio_Root : option string; Runroot : option string; Crio_Auths : gomap RegistryAuth; Crio_Pause : string;
}.

Definition empty_Crio : Crio :=
  MkCrio "" "" None None None [] None "" None None None None None "" None None None "".

Definition SetDefaults_CrioConfig (c : Crio) : Crio :=
  let r := default (MkCrioRegistry None []) (Crio_Registry c) in
  MkCrio (or_text (Crio_Endpoint c) "unix:///var/run/crio/crio.sock") (or_text (Crio_Version c) "1.28.2") (Conmon c)
    (or_ptr (Crio_CgroupDriver c) CgroupDriverSystemd) (Crio_StorageDriver c) (StorageOption c)
    (or_ptr (Crio_LogLevel c) "warn") (LogFilter c) (or_ptr (ManageNetwork c) false)
    (or_ptr (NetworkDir c) DefaultCNIBinDirTarget) (or_ptr (PluginDirs c) [DefaultCNIBinDirTarget])
    (or_ptr (Crio_Runtimes c) {["runc" := MkCrioRuntime "/usr/local/bin/runc" "oci" "/run/runc"]})
    (Some (MkCrioRegistry (or_ptr (UnqualifiedSearchRegistries r) ["docker.io"; "quay.io"]) (Registries r)))
    (Crio_ExtraTomlConfig c) (or_ptr (Crio_Root c) "/var/lib/containers/storage")
    (or_ptr (Runroot c) "/var/run/containers/storage") (or_ptr (Crio_Auths c) ∅) (or_text (Crio_Pause c) DefaultPauseImage).

Definition crioLogLevels : list string := ["fatal"; "panic"; "error"; "warn"; "info"; "debug"].

Section crio.
Context `{GoRange} `{Fmt}.

Definition Validate_crio_registry (registryPath : string) (r : CrioRegistry) : V unit :=
  vfor (default [] (UnqualifiedSearchRegistries r)) (λ i reg, vif (blank reg)
    (AddArg (registryPath +:+ ".unqualifiedSearchRegistries" +:+ index i) "registry name cannot be empty")) ;;
  vfor (Registries r) (λ i mirror, vif (bool_decide (Prefix mirror = "") && bool_decide (Location mirror = ""))
    (AddArg (registryPath +:+ ".registries" +:+ index i) "either prefix or location must be specified")).

Definition Validate_CrioConfig (c : Crio) (p : string) : V unit :=
  vif (bool_decide (Crio_Version c ≠ "") && negb (Helpers.IsValidRuntimeVersion (Crio_Version c)))
    (AddArg (p +:+ ".version") "invalid version format") ;;
  check_cgroup (p +:+ ".cgroupManager") (Crio_CgroupDriver c) ;;
  vwith (Crio_LogLevel c) (λ l, vif (negb (slice_contains crioLogLevels l)) (AddArg (p +:+ ".logLevel") "invalid log level")) ;;
  vfor (range 115 (entries (Crio_Runtimes c))) (λ _ '(name, rt),
    vif (blank name) (AddArg (p +:+ ".runtimes") "runtime name cannot be empty") ;;
    vif (bool_decide (RuntimePath rt = ""))
      (AddArg (p +:+ ".runtimes['" +:+ name +:+ "'].runtime_path") "runtime_path cannot be empty")) ;;
  vwith (Crio_Registry c) (Validate_crio_registry (p +:+ ".registry")) ;;
  check_not_blank (p +:+ ".root") (Crio_Root c) ;;
  check_not_blank (p +:+ ".runroot") (Runroot c) ;;
  check_pause (p +:+ ".pause") (Crio_Pause c) ;;
  vfor (range 116 (entries (Crio_Auths c))) (λ _ '(regAddr, a),
    Validate_auth_entry (p +:+ ".auths") regAddr (Auth_Username a) (Auth_Password a) (Auth_Auth a)).
End crio.

(** ** iSulad *)

Record Isulad : Type := MkIsulad {
  Isulad_Version : string; Isulad_Endpoint : string; Isulad_DataRoot : option string;
  Isulad_StorageDriver : option string; Isulad_StorageOpts : list string; Isulad_RegistryMirrors : list string;
  Isulad_InsecureRegistries : list string; Isulad_Auths : gomap RegistryAuth; CgroupParent : option string;
  Isulad_CgroupDriver : option string; Isulad_LogLevel : option string; Isulad_LogDriver : option string;
  Isulad_LogOpts : gomap string; NetworkPlugin : option string; CniConfDir : option string; CniBinDir : option string;
  PidFile : option string; HooksDir : option string; Isulad_ExtraJSONConfig : option string; Isulad_Pause : string;
}.

Definition empty_Isulad : Isulad :=
  MkIsulad "" "" None None [] [] [] None None None None None None None None None None None None "".

Definition SetDefaults_IsuladConfig (c : Isulad) : Isulad :=
  MkIsulad (or_text (Isulad_Version c) "2.1.3") (or_text (Isulad_Endpoint c) "unix:///var/run/isulad.sock")
    (or_ptr (Isulad_DataRoot c) "/var/lib/isulad") (Isulad_StorageDriver c) (Isulad_StorageOpts c)
    (Isulad_RegistryMirrors c) (Isulad_InsecureRegistries c) (or_ptr (Isulad_Auths c) ∅) (CgroupParent c)
    (or_ptr (Isulad_CgroupDriver c) CgroupDriverSystemd) (or_ptr (Isulad_LogLevel c) "info")
    (or_ptr (Isulad_LogDriver c) "json-file") (or_ptr (Isulad_LogOpts c) {["max-size" := "100m"; "max-file" := "5"]})
    (NetworkPlugin c) (or_ptr (CniConfDir c) "/etc/cni/net.d") (or_ptr (CniBinDir c) DefaultCNIBinDirTarget)
    (or_ptr (PidFile c) "/var/run/isulad.pid") (HooksDir c) (Isulad_ExtraJSONConfig c)
    (or_text (Isulad_Pause c) DefaultPauseImage).

Definition isuladLogLevels : list string := ["debug"; "info"; "warn"; "error"; "fatal"].

Section isulad.
Context `{GoRange} `{Fmt}.

Definition Validate_RegistryAuths (auths : gomap RegistryAuth) (p : string) : V unit :=
  vfor (range 117 (entries auths)) (λ _ '(regAddr, a),
    if blank regAddr then AddArg p "registry address key cannot be empty"
    else
      let entryPath := p +:+ key_index regAddr in
      vif (bad_host regAddr)
        (AddArg entryPath (": registry key '" +:+ regAddr +:+ "' is not a valid hostname or host:port")) ;;
      check_credentials entryPath (bool_decide (Auth_Username a ≠ "") && bool_decide (Auth_Password a ≠ "")) (Auth_Auth a)
        (corrupt_auth entryPath)).

Definition Validate_IsuladConfig (c : Isulad) (p : string) : V unit :=
  vif (bool_decide (Isulad_Version c ≠ "") && negb (Helpers.IsValidRuntimeVersion (Isulad_Version c)))
    (AddArg (p +:+ ".version") "invalid version format") ;;
  check_cgroup (p +:+ ".cgroupManager") (Isulad_CgroupDriver c) ;;
  vwith (Isulad_LogLevel c) (λ l, vif (negb (slice_contains isuladLogLevels l))
    (AddArg (p +:+ ".logLevel") ("invalid log level, must be one of " +:+ show_slice isuladLogLevels))) ;;
  vfor (Isulad_RegistryMirrors c) (λ i mirror, vif (negb (IsValidURL mirror))
    (AddArg (p +:+ ".registryMirrors" +:+ index i) "invalid URL format")) ;;
  vfor (Isulad_InsecureRegistries c) (λ i reg, vif (bad_host reg)
    (AddArg (p +:+ ".insecureRegistries" +:+ index i)
      (": invalid host:port or domain name format for insecure registry '" +:+ reg +:+ "'"))) ;;
  check_pause (p +:+ ".pause") (Isulad_Pause c) ;;
  check_not_blank (p +:+ ".data-root") (Isulad_DataRoot c) ;;
  Validate_RegistryAuths (Isulad_Auths c) (p +:+ ".auths").
End isulad.

(** ** The section *)

Definition RuntimeTypeContainerd : string := "containerd".
Definition RuntimeTypeDocker : string := "docker".
Definition RuntimeTypeCRIO : string := "cri-o".
Definition RuntimeTypeIsula : string := "isula".

Definition ValidContainerRuntimeTypes : list string :=
  [RuntimeTypeContainerd; RuntimeTypeDocker; RuntimeTypeCRIO; RuntimeTypeIsula].

Record ContainerRuntime : Type := MkContainerRuntime {
  Runtime_Type : string; Runtime_Version : string; Runtime_Docker : option Docker;
  Runtime_Containerd : option Containerd; Runtime_Crio : option Crio; Runtime_Isulad : option Isulad;
}.

Definition empty_ContainerRuntime : ContainerRuntime := MkContainerRuntime "" "" None None None None.

(** Only the section of the chosen runtime gets defaults. *)
Definition SetDefaults_ContainerRuntimeConfig (c : ContainerRuntime) : ContainerRuntime :=
  let ty := or_text (Runtime_Type c) RuntimeTypeContainerd in
  let chosen {A} name (x : option A) (defaulted : A) := if decide (ty = name) then Some defaulted else x in
  MkContainerRuntime ty (Runtime_Version c)
    (chosen RuntimeTypeDocker (Runtime_Docker c) (SetDefaults_DockerConfig (default empty_Docker (Runtime_Docker c))))
    (chosen RuntimeTypeContainerd (Runtime_Containerd c)
      (SetDefaults_ContainerdConfig (default empty_Containerd (Runtime_Containerd c))))
    (chosen RuntimeTypeCRIO (Runtime_Crio c) (SetDefaults_CrioConfig (default empty_Crio (Runtime_Crio c))))
    (chosen RuntimeTypeIsula (Runtime_Isulad c) (SetDefaults_IsuladConfig (default empty_Isulad (Runtime_Isulad c)))).

Section runtime.
Context `{GoRange} `{Fmt}.

(** The chosen section must be there, the others must not; [name] is the type as
    the messages have it. *)
Definition chosen_section {A} (p name field : string) (x : option A) (validate : A → string → V unit) : V unit :=
  match x with
  | None => AddArg (p +:+ "." +:+ field) ("must be configured when type is '" +:+ name +:+ "'")
  | Some x => validate x (p +:+ "." +:+ field)
  end.

Definition other_section {A} (p name field : string) (x : option A) : V unit :=
  vif (bool_decide (is_Some x)) (AddArg (p +:+ "." +:+ field) ("must not be set when type is '" +:+ name +:+ "'")).

Definition Validate_runtime_sections (c : ContainerRuntime) (p : string) : V unit :=
  let docker name := other_section p name "docker" (Runtime_Docker c) in
  let containerd name := other_section p name "containerd" (Runtime_Containerd c) in
  let crio name := other_section p name "crio" (Runtime_Crio c) in
  let isulad name := other_section p name "isulad" (Runtime_Isulad c) in
  if decide (Runtime_Type c = RuntimeTypeDocker) then
    chosen_section p "docker" "docker" (Runtime_Docker c) Validate_DockerConfig ;;
    containerd "docker" ;; crio "docker" ;; isulad "docker"
  else if decide (Runtime_Type c = RuntimeTypeContainerd) then
    chosen_section p "containerd" "containerd" (Runtime_Containerd c) Validate_ContainerdConfig ;;
    docker "containerd" ;; crio "containerd" ;; isulad "containerd"
  else if decide (Runtime_Type c = RuntimeTypeCRIO) then
    chosen_section p "crio" "crio" (Runtime_Crio c) Validate_CrioConfig ;;
    docker "crio" ;; containerd "crio" ;; isulad "crio"
  else if decide (Runtime_Type c = RuntimeTypeIsula) then
    chosen_section p "isula" "isulad" (Runtime_Isulad c) Validate_IsuladConfig ;;
    docker "isula" ;; containerd "isula" ;; crio "isula"
  else mret tt.

Definition Validate_ContainerRuntimeConfig (c : ContainerRuntime) (p : string) : V unit :=
  if negb (slice_contains ValidContainerRuntimeTypes (Runtime_Type c)) then
    AddArg (p +:+ ".type") ("invalid container runtime type '" +:+ Runtime_Type c +:+ "', must be one of "
                            +:+ show_slice ValidContainerRuntimeTypes)
  else
    vif (bool_decide (Runtime_Version c ≠ "") && negb (Helpers.IsValidNonEmptyString (Runtime_Version c)))
      (AddArg (p +:+ ".version") "version cannot be only whitespace if specified") ;;
    vif (bool_decide (Runtime_Version c ≠ "") && negb (Helpers.IsValidSemanticVersion (Runtime_Version c)))
      (AddArg (p +:+ ".version") "invalid version format") ;;
    Validate_runtime_sections c p.

(** ** Growth and return *)

Lemma grows_Containerd c p : grows (Validate_ContainerdConfig c p).
Proof. unfold Validate_ContainerdConfig, Validate_mirror, Validate_registry_config, check_not_blank, check_pause. growing. Qed.

Lemma grows_auth_entry p r u w a : grows (Validate_auth_entry p r u w a).
Proof. unfold Validate_auth_entry, check_credentials, corrupt_auth. growing. Qed.

Lemma returns_Containerd c p : returns (Validate_ContainerdConfig c p).
Proof. unfold Validate_ContainerdConfig, Validate_mirror, Validate_registry_config, check_not_blank, check_pause. return_. Qed.

Lemma returns_auth_entry p r u w a : returns (Validate_auth_entry p r u w a).
Proof. unfold Validate_auth_entry, check_credentials, corrupt_auth. return_. Qed.

#[local] Hint Resolve grows_Containerd grows_auth_entry returns_Containerd returns_auth_entry : validation.

Lemma grows_Docker c p : grows (Validate_DockerConfig c p).
Proof.
  unfold Validate_DockerConfig, Validate_docker_registries, Validate_dataRoot, Validate_docker_network,
    Validate_address_pool, check_not_blank, check_pause, check_cgroup. growing.
Qed.

Lemma returns_Docker c p : returns (Validate_DockerConfig c p).
Proof.
  unfold Validate_DockerConfig, Validate_docker_registries, Validate_dataRoot, Validate_docker_network,
    Validate_address_pool, check_not_blank, check_pause, check_cgroup. return_.
Qed.

Lemma grows_Crio c p : grows (Validate_CrioConfig c p).
Proof. unfold Validate_CrioConfig, Validate_crio_registry, check_not_blank, check_pause, check_cgroup. growing. Qed.

Lemma returns_Crio c p : returns (Validate_CrioConfig c p).
Proof. unfold Validate_CrioConfig, Validate_crio_registry, check_not_blank, check_pause, check_cgroup. return_. Qed.

Lemma grows_Isulad c p : grows (Validate_IsuladConfig c p).
Proof.
  unfold Validate_IsuladConfig, Validate_RegistryAuths, check_credentials, corrupt_auth, check_not_blank, check_pause,
    check_cgroup. growing.
Qed.

Lemma returns_Isulad c p : returns (Validate_IsuladConfig c p).
Proof.
  unfold Validate_IsuladConfig, Validate_RegistryAuths, check_credentials, corrupt_auth, check_not_blank, check_pause,
    check_cgroup. return_.
Qed.

#[local] Hint Resolve grows_Docker grows_Crio grows_Isulad returns_Docker returns_Crio returns_Isulad : validation.

Lemma grows_ContainerRuntime c p : grows (Validate_ContainerRuntimeConfig c p).
Proof. unfold Validate_ContainerRuntimeConfig, Validate_runtime_sections, chosen_section, other_section. growing. Qed.

Lemma returns_ContainerRuntime c p : returns (Validate_ContainerRuntimeConfig c p).
Proof. unfold Validate_ContainerRuntimeConfig, Validate_runtime_sections, chosen_section, other_section. return_. Qed.
End runtime.

#[export] Hint Resolve grows_ContainerRuntime returns_ContainerRuntime : validation.
