(* ===== verification/KubernetesTypes.v ===== *)
(** The Kubernetes section of a cluster configuration:
    [apis/kubexms/v1alpha1/kubernetes_types.go].  A raw extension is its bytes. *)
From S2P Require Import Prelude.
From S2P Require Import GoText.
From S2P Require Import GoPath.
From S2P Require Import GoNet.
From S2P Require Import Validators.
From S2P Require Import ValidationErrors.
From S2P Require Import LoadBalancerTypes.
From S2P Require Import EndpointTypes.
From S2P Require Import SectionBase.
From S2P Require Import RuntimeTypes.
From Stdlib Require Import Ascii.

Definition ValidKubeProxyModes : list string := ["iptables"; "ipvs"].
Definition ValidCgroupDrivers : list string := [CgroupDriverSystemd; CgroupDriverCgroupfs].
Definition SupportedKubernetesDeploymentTypes : list string := ["kubeadm"; "kubexm"].
Definition DefaultLocalDNS : string := "169.254.25.10".

Record AuditConfig : Type := MkAudit {
  Audit_Enabled : option bool; PolicyFileContent : string; LogPath : string; PolicyFile : string;
  MaxAge : option Z; MaxBackups : option Z; MaxSize : option Z;
}.

Record APIServerConfig : Type := MkAPIServer {
  CertExtraSans : list string; ServiceNodePortRange : string; Audit : option AuditConfig;
  AutoRenewCerts : option bool; APIServer_FeatureGates : gomap bool; APIServer_ExtraArgs : gomap string;
  AuthorizationModes : list string; AdmissionPlugins : list string; BindAddress : string;
  AllowPrivileged : option bool; EtcdPrefix : string; TlsCipherSuites : list string;
}.

Record ControllerManagerConfig : Type := MkControllerManager {
  NodeCidrMaskSize : option Z; NodeCidrMaskSizeIPv6 : option Z; PodEvictionTimeout : string;
  NodeMonitorGracePeriod : string; CM_FeatureGates : gomap bool; CM_ExtraArgs : gomap string;
}.

Record SchedulerConfig : Type := MkScheduler {
  Scheduler_FeatureGates : gomap bool; Scheduler_ExtraArgs : gomap string;
}.

Record KubeletConfig : Type := MkKubelet {
  MaxPods : option Z; Kubelet_CgroupDriver : string; EvictionHard : gomap string; Kubelet_FeatureGates : gomap bool;
  Kubelet_ExtraArgs : gomap string; Kubelet_Configuration : option string; CpuManagerPolicy : string;
  KubeReserved : gomap string; SystemReserved : gomap string; EvictionSoft : gomap string;
  EvictionSoftGracePeriod : gomap string; EvictionMaxPodGracePeriod : option Z;
  EvictionPressureTransitionPeriod : string; PodPidsLimit : option Z; HairpinMode : string;
  ContainerLogMaxSize : string; ContainerLogMaxFiles : option Z;
}.

Record KubeProxyConfig : Type := MkKubeProxy {
  Enable : option bool; KubeProxy_Mode : string; MasqueradeAll : option bool; KubeProxy_FeatureGates : gomap bool;
  KubeProxy_ExtraArgs : gomap string; KubeProxy_Configuration : option string;
}.

Record NodelocaldnsConfig : Type := MkNodelocaldns { Nodelocaldns_Enabled : option bool; Nodelocaldns_IP : string }.
Record SwitchConfig : Type := MkSwitch { Switch_Enabled : option bool }.

(** [NodeFeatureDiscoveryConfig], [KataConfig] and [NvidiaRuntimeConfig] are alike:
    a switch. *)
Record KubernetesAddons : Type := MkKubernetesAddons {
  Nodelocaldns : option NodelocaldnsConfig; NodeFeatureDiscovery : option SwitchConfig;
  Kata : option SwitchConfig; NvidiaRuntime : option SwitchConfig;
}.

Record KubernetesSection : Type := MkKubernetes {
  K8s_Type : string; K8s_Version : string; ClusterName : string; DNSDomain : string;
  K8s_ContainerRuntime : option ContainerRuntime; APIServer : option APIServerConfig;
  ControllerManager : option ControllerManagerConfig; K8s_Scheduler : option SchedulerConfig;
  Kubelet : option KubeletConfig; KubeProxy : option KubeProxyConfig; K8s_Addons : option KubernetesAddons;
}.

Definition empty_Kubernetes : KubernetesSection :=
  MkKubernetes "" "" "" "" None None None None None None None.

(** ** Defaults *)

Definition or_slice {A} (l d : list A) : list A := match l with [] => d | _ => l end.

(** [if len(m) == 0 { m = d }] *)
Definition or_map {A} (m : gomap A) (d : gmap string A) : gomap A :=
  if decide (entries m = ∅) then Some d else m.

Definition SetDefaults_AuditConfig (c : AuditConfig) : AuditConfig :=
  let enabled := default true (Audit_Enabled c) in
  if enabled then
    MkAudit (Some enabled) (PolicyFileContent c) (or_text (LogPath c) "/var/log/kubernetes/audit.log")
      (or_text (PolicyFile c) "/etc/kubernetes/audit-policy.yaml") (or_ptr (MaxAge c) 30%Z) (or_ptr (MaxBackups c) 10%Z)
      (or_ptr (MaxSize c) 100%Z)
  else MkAudit (Some enabled) (PolicyFileContent c) (LogPath c) (PolicyFile c) (MaxAge c) (MaxBackups c) (MaxSize c).

(** A pointer to a fresh [false] equals no other pointer, so only a missing choice
    is replaced. *)
Definition audit_defaults (c : AuditConfig) : AuditConfig :=
  match Audit_Enabled c with
  | None => MkAudit (Some false) (PolicyFileContent c) (LogPath c) (PolicyFile c) (MaxAge c) (MaxBackups c) (MaxSize c)
  | Some _ => SetDefaults_AuditConfig c
  end.

Definition SetDefaults_APIServerConfig (c : APIServerConfig) : APIServerConfig :=
  MkAPIServer (CertExtraSans c) (or_text (ServiceNodePortRange c) "30000-32767")
    (Some (audit_defaults (default (MkAudit None "" "" "" None None None) (Audit c))))
    (or_ptr (AutoRenewCerts c) true) (APIServer_FeatureGates c) (APIServer_ExtraArgs c)
    (or_slice (AuthorizationModes c) ["Node"; "RBAC"]) (or_slice (AdmissionPlugins c) ["NodeRestriction"])
    (or_text (BindAddress c) "0.0.0.0") (or_ptr (AllowPrivileged c) true) (or_text (EtcdPrefix c) "/registry")
    (TlsCipherSuites c).

Definition SetDefaults_ControllerManagerConfig (c : ControllerManagerConfig) : ControllerManagerConfig :=
  MkControllerManager (or_ptr (NodeCidrMaskSize c) 24%Z) (NodeCidrMaskSizeIPv6 c) (PodEvictionTimeout c)
    (NodeMonitorGracePeriod c) (CM_FeatureGates c) (CM_ExtraArgs c).

Definition reserved_defaults : gmap string string := {["cpu" := "200m"; "memory" := "250Mi"]}.
Definition eviction_defaults : gmap string string := {["memory.available" := "5%"; "pid.available" := "10%"]}.

(** The rotation of the server certificate is switched on unless the gates say. *)
Definition rotate_gate : string := "RotateKubeletServerCertificate".
Definition gate_defaults (gates : gmap string bool) : gmap string bool :=
  if decide (is_Some (gates !! rotate_gate)) then gates else <[rotate_gate := true]> gates.

Definition SetDefaults_KubeletConfig (c : KubeletConfig) : KubeletConfig :=
  MkKubelet (or_ptr (MaxPods c) 110%Z) (or_text (Kubelet_CgroupDriver c) CgroupDriverSystemd)
    (or_map (EvictionHard c) eviction_defaults)
    (Some (gate_defaults (entries (Kubelet_FeatureGates c))))
    (Kubelet_ExtraArgs c) (Kubelet_Configuration c) (or_text (CpuManagerPolicy c) "none")
    (or_map (KubeReserved c) reserved_defaults) (or_map (SystemReserved c) reserved_defaults) (EvictionSoft c)
    (EvictionSoftGracePeriod c) (or_ptr (EvictionMaxPodGracePeriod c) 120%Z)
    (or_text (EvictionPressureTransitionPeriod c) "30s") (or_ptr (PodPidsLimit c) 10000%Z)
    (or_text (HairpinMode c) "promiscuous-bridge") (or_text (ContainerLogMaxSize c) "5Mi")
    (or_ptr (ContainerLogMaxFiles c) 3%Z).

Definition SetDefaults_KubeProxyConfig (c : KubeProxyConfig) : KubeProxyConfig :=
  MkKubeProxy (or_ptr (Enable c) true) (or_text (KubeProxy_Mode c) "ipvs") (or_ptr (MasqueradeAll c) false)
    (KubeProxy_FeatureGates c) (KubeProxy_ExtraArgs c) (KubeProxy_Configuration c).

Definition SetDefaults_NodelocaldnsConfig (c : NodelocaldnsConfig) : NodelocaldnsConfig :=
  let enabled := default false (Nodelocaldns_Enabled c) in
  MkNodelocaldns (Some enabled)
    (if enabled then or_text (Nodelocaldns_IP c) DefaultLocalDNS else Nodelocaldns_IP c).

Definition switch_defaults (c : option SwitchConfig) : option SwitchConfig :=
  Some (MkSwitch (or_ptr (Switch_Enabled (default (MkSwitch None) c)) false)).

Definition SetDefaults_addons (c : KubernetesAddons) : KubernetesAddons :=
  MkKubernetesAddons
    (Some (SetDefaults_NodelocaldnsConfig (default (MkNodelocaldns None "") (Nodelocaldns c))))
    (switch_defaults (NodeFeatureDiscovery c)) (switch_defaults (Kata c)) (switch_defaults (NvidiaRuntime c)).

Definition empty_APIServer : APIServerConfig := MkAPIServer [] "" None None None None [] [] "" None "" [].
Definition empty_ControllerManager : ControllerManagerConfig := MkControllerManager None None "" "" None None.
Definition empty_Kubelet : KubeletConfig :=
  MkKubelet None "" None None None None "" None None None None None "" None "" "" None.
Definition empty_KubeProxy : KubeProxyConfig := MkKubeProxy None "" None None None None.

Definition SetDefaults_Kubernetes (c : KubernetesSection) : KubernetesSection :=
  MkKubernetes (or_text (K8s_Type c) "kubeadm") (K8s_Version c) (ClusterName c) (or_text (DNSDomain c) "cluster.local")
    (Some (SetDefaults_ContainerRuntimeConfig (default empty_ContainerRuntime (K8s_ContainerRuntime c))))
    (Some (SetDefaults_APIServerConfig (default empty_APIServer (APIServer c))))
    (Some (SetDefaults_ControllerManagerConfig (default empty_ControllerManager (ControllerManager c))))
    (K8s_Scheduler c)
    (Some (SetDefaults_KubeletConfig (default empty_Kubelet (Kubelet c))))
    (Some (SetDefaults_KubeProxyConfig (default empty_KubeProxy (KubeProxy c))))
    (Some (SetDefaults_addons (default (MkKubernetesAddons None None None None) (K8s_Addons c)))).

(** ** Validation *)

Definition valid_port (n : Z) : bool := ((1 <=? n) && (n <=? 65535))%Z.

Definition Validate_port_range (p r : string) : V unit :=
  let field := p +:+ ".serviceNodePortRange: " in
  match Split "-" r with
  | [s; e] =>
      match Atoi s, Atoi e with
      | Some startPort, Some endPort =>
          vif (negb (valid_port startPort))
            (Add (field +:+ "start port " +:+ decimal startPort +:+ " is out of valid range (1-65535)")) ;;
          vif (negb (valid_port endPort))
            (Add (field +:+ "end port " +:+ decimal endPort +:+ " is out of valid range (1-65535)")) ;;
          vif (valid_port startPort && valid_port endPort && (endPort <=? startPort)%Z)
            (Add (field +:+ "start port " +:+ decimal startPort +:+ " must be less than end port " +:+ decimal endPort))
      | _, _ => Add (field +:+ "invalid port number in range '" +:+ r +:+ "'")
      end
  | _ => Add (field +:+ "invalid format '" +:+ r +:+ "', must be 'start-end'")
  end.

(** A path that must be given and absolute. *)
Definition audit_path (field value : string) : V unit :=
  if decide (value = "") then Add (field +:+ ": cannot be empty when audit is enabled")
  else vif (negb (rooted value)) (Add (field +:+ ": must be an absolute path, got '" +:+ value +:+ "'")).

(** The branch for a content that is given and empty at once never runs. *)
Definition Validate_AuditConfig (c : AuditConfig) (p : string) : V unit :=
  let negative field n := vif (int_is (λ n, n <? 0)%Z n)
    (Add (p +:+ "." +:+ field +:+ ": cannot be negative, got " +:+ show_int n)) in
  vif (is_true (Audit_Enabled c))
    (audit_path (p +:+ ".logPath") (LogPath c) ;;
     audit_path (p +:+ ".policyFile") (PolicyFile c) ;;
     (if bool_decide (PolicyFileContent c ≠ "") && bool_decide (PolicyFile c ≠ "") then
        vif (bool_decide (PolicyFileContent c = ""))
          (Add (p +:+ ".policyFileContent: cannot be empty when audit is enabled and policy file is managed by kubexm"))
      else vif (bool_decide (PolicyFileContent c = ""))
        (Add (p +:+ ".policyFileContent: is required when audit is enabled"))) ;;
     negative "maxAge" (MaxAge c) ;; negative "maxBackups" (MaxBackups c) ;; negative "maxSize" (MaxSize c)).

Definition Validate_APIServerConfig (c : APIServerConfig) (p : string) : V unit :=
  vif (bool_decide (ServiceNodePortRange c ≠ "")) (Validate_port_range p (ServiceNodePortRange c)) ;;
  vwith (Audit c) (λ a, Validate_AuditConfig a (path_Join [p; "audit"])).

Definition Validate_ControllerManagerConfig (c : ControllerManagerConfig) (p : string) : V unit :=
  vif (int_is (λ n, (n <? 16) || (28 <? n))%Z (NodeCidrMaskSize c))
    (Add (p +:+ ".nodeCidrMaskSize: must be between 16 and 28, got " +:+ show_int (NodeCidrMaskSize c))) ;;
  vif (int_is (λ n, (n <? 64) || (124 <? n))%Z (NodeCidrMaskSizeIPv6 c))
    (Add (p +:+ ".nodeCidrMaskSizeIPv6: must be between 64 and 124, got " +:+ show_int (NodeCidrMaskSizeIPv6 c))).

(** [^([0-9]{1,2}|100)%$] *)
Definition percentRegex : regex :=
  Cat (Alt (between 1 2 (Class is_digit)) (text "100")) (chr "%").

Definition validCPUPolicies : list string := ["none"; "static"].
Definition validHairpinModes : list string := ["promiscuous-bridge"; "hairpin-veth"; "none"].

Section validation.
Context `{GoRange} `{Fmt}.

Definition validateResourceMap (p : string) (m : gomap string) (fieldName : string) : V unit :=
  vfor (range 120 (entries m)) (λ _ '(k, v),
    vif (blank v) (Add (p +:+ "." +:+ fieldName +:+ "['" +:+ k +:+ "']: value cannot be empty"))).

Definition validateEvictionMap (p : string) (m : gomap string) (fieldName : string) : V unit :=
  vfor (range 121 (entries m)) (λ _ '(k, v),
    vif (bool_decide (last_byte v = Some "%"%char) && negb (MatchString percentRegex v))
      (Add (p +:+ "." +:+ fieldName +:+ "['" +:+ k +:+ "']: invalid percentage format for '" +:+ v +:+ "'"))).

Definition Validate_KubeletConfig (c : KubeletConfig) (pathPrefix : string) : V unit :=
  let p := path_Join [pathPrefix] in
  check_mode (p +:+ ".cgroupDriver") "driver" (Kubelet_CgroupDriver c) ValidCgroupDrivers ;;
  vif (bool_decide (CpuManagerPolicy c ≠ "") && negb (slice_contains validCPUPolicies (CpuManagerPolicy c)))
    (Add (not_one_of (p +:+ ".cpuManagerPolicy") "policy" (CpuManagerPolicy c) validCPUPolicies "")) ;;
  vif (bool_decide (HairpinMode c ≠ "") && negb (slice_contains validHairpinModes (HairpinMode c)))
    (Add (not_one_of (p +:+ ".hairpinMode") "mode" (HairpinMode c) validHairpinModes "")) ;;
  validateResourceMap p (KubeReserved c) "kubeReserved" ;;
  validateResourceMap p (SystemReserved c) "systemReserved" ;;
  vif (int_is (λ n, n <? -1)%Z (PodPidsLimit c))
    (Add (p +:+ ".podPidsLimit: must be -1 (unlimited) or a positive integer, got " +:+ show_int (PodPidsLimit c))) ;;
  vif (int_is (λ n, n <? 1)%Z (ContainerLogMaxFiles c))
    (Add (p +:+ ".containerLogMaxFiles: must be at least 1, got " +:+ show_int (ContainerLogMaxFiles c))) ;;
  validateEvictionMap p (EvictionHard c) "evictionHard" ;;
  validateEvictionMap p (EvictionSoft c) "evictionSoft".

(** Without a choice the dereference panics; defaults make one. *)
Definition Validate_KubeProxyConfig (c : KubeProxyConfig) (p : string) : V unit :=
  enable ← deref (Enable c) ;
  if (enable : bool) then
    vif (negb (slice_contains ValidKubeProxyModes (KubeProxy_Mode c)))
      (Add (not_one_of (p +:+ ".mode") "mode" (KubeProxy_Mode c) ValidKubeProxyModes ""))
  else vif (bool_decide (KubeProxy_Mode c ≠ ""))
    (Add (p +:+ ".mode: should be ' ' or empty when kube-proxy is disabled")).

Definition Validate_NodelocaldnsConfig (c : NodelocaldnsConfig) (p : string) : V unit :=
  enabled ← deref (Nodelocaldns_Enabled c) ;
  vif enabled
    (if decide (Nodelocaldns_IP c = "") then Add (p +:+ ".ip: cannot be empty when nodelocaldns is enabled")
     else vif (bool_decide (ParseIP (Nodelocaldns_IP c) = None))
       (Add (p +:+ ".ip: invalid IP address format for '" +:+ Nodelocaldns_IP c +:+ "'"))).

Definition Validate_Kubernetes (c : KubernetesSection) (pathPrefix : string) : V unit :=
  let p := path_Join [pathPrefix] in
  (if decide (K8s_Type c = "") then Add (p +:+ ".type: is a required field")
   else vif (negb (slice_contains SupportedKubernetesDeploymentTypes (K8s_Type c)))
     (Add (p +:+ ".type: invalid type '" +:+ K8s_Type c +:+ "', must be one of "
           +:+ show_slice SupportedKubernetesDeploymentTypes))) ;;
  (if decide (K8s_Version c = "") then Add (p +:+ ".version: is a required field")
   else vif (negb (Helpers.IsValidSemanticVersion (K8s_Version c)))
     (Add (p +:+ ".version: invalid semantic version format for '" +:+ K8s_Version c +:+ "'"))) ;;
  vif (bool_decide (ClusterName c = "")) (Add (p +:+ ".clusterName: is a required field")) ;;
  vif (bool_decide (DNSDomain c ≠ "") && negb (Helpers.IsValidDomainName (DNSDomain c)))
    (Add (p +:+ ".domain: invalid domain format for '" +:+ DNSDomain c +:+ "'")) ;;
  vwith (K8s_ContainerRuntime c) (λ x, Validate_ContainerRuntimeConfig x (path_Join [p; "containerRuntime"])) ;;
  vwith (APIServer c) (λ x, Validate_APIServerConfig x (path_Join [p; "apiServer"])) ;;
  vwith (ControllerManager c) (λ x, Validate_ControllerManagerConfig x (path_Join [p; "controllerManager"])) ;;
  vwith (Kubelet c) (λ x, Validate_KubeletConfig x (path_Join [p; "kubelet"])) ;;
  vwith (KubeProxy c) (λ x, Validate_KubeProxyConfig x (path_Join [p; "kubeProxy"])) ;;
  vwith (K8s_Addons c) (λ a, vwith (Nodelocaldns a) (λ x,
    Validate_NodelocaldnsConfig x (path_Join [path_Join [p; "addons"]; "nodelocaldns"]))).

(** ** Growth, and return once defaults are set *)

Lemma grows_KubeProxy c p : grows (Validate_KubeProxyConfig c p).
Proof. unfold Validate_KubeProxyConfig. growing. Qed.

Lemma grows_Nodelocaldns c p : grows (Validate_NodelocaldnsConfig c p).
Proof. unfold Validate_NodelocaldnsConfig. growing. Qed.

Lemma grows_APIServer c p : grows (Validate_APIServerConfig c p).
Proof. unfold Validate_APIServerConfig, Validate_port_range, Validate_AuditConfig, audit_path. growing. Qed.

Lemma grows_Kubelet c p : grows (Validate_KubeletConfig c p).
Proof. unfold Validate_KubeletConfig, validateResourceMap, validateEvictionMap, check_mode. growing. Qed.

#[local] Hint Resolve grows_KubeProxy grows_Nodelocaldns grows_APIServer grows_Kubelet : validation.

Lemma grows_Kubernetes c p : grows (Validate_Kubernetes c p).
Proof. unfold Validate_Kubernetes, Validate_ControllerManagerConfig. growing. Qed.

Lemma returns_KubeProxy c p : returns (Validate_KubeProxyConfig (SetDefaults_KubeProxyConfig c) p).
Proof. unfold Validate_KubeProxyConfig. apply returns_deref. return_. Qed.

Lemma returns_Nodelocaldns c p : returns (Validate_NodelocaldnsConfig (SetDefaults_NodelocaldnsConfig c) p).
Proof. unfold Validate_NodelocaldnsConfig. apply returns_deref. return_. Qed.

Lemma returns_APIServer c p : returns (Validate_APIServerConfig c p).
Proof. unfold Validate_APIServerConfig, Validate_port_range, Validate_AuditConfig, audit_path. return_. Qed.

Lemma returns_Kubelet c p : returns (Validate_KubeletConfig c p).
Proof. unfold Validate_KubeletConfig, validateResourceMap, validateEvictionMap, check_mode. return_. Qed.

#[local] Hint Resolve returns_APIServer returns_Kubelet : validation.

Lemma returns_Kubernetes c p : returns (Validate_Kubernetes (SetDefaults_Kubernetes c) p).
Proof.
  unfold Validate_Kubernetes, Validate_ControllerManagerConfig. return_;
    simplify_eq/=; first [apply returns_KubeProxy | apply returns_Nodelocaldns].
Qed.
End validation.

#[export] Hint Resolve grows_Kubernetes : validation.
