(* ===== verification/ServiceTypes.v ===== *)
(** The sections on name service, preflight checks and extra settings of a cluster
    configuration: [apis/kubexms/v1alpha1/dns_types.go], [preflight_types.go],
    [extra_types.go].

    The storage section of a cluster configuration:
    [apis/kubexms/v1alpha1/storage_types.go]. *)
From S2P Require Import Prelude.
From S2P Require Import GoText.
From S2P Require Import GoNet.
From S2P Require Import Validators.
From S2P Require Import ValidationErrors.
From S2P Require Import LoadBalancerTypes.
From S2P Require Import SectionBase.
From S2P Require Import KubernetesTypes.

(** ** Name service *)

Definition ValidUpstreamPolicies : list string := ["random"; "round_robin"; "sequential"].

Record RewriteRule : Type := MkRewrite { FromPattern : string; ToTemplate : string }.
Record ExternalZone : Type := MkZone {
  Zones : list string; Zone_Nameservers : list string; Zone_Cache : Z; Rewrite : list RewriteRule;
}.
Record UpstreamForwardingConfig : Type := MkUpstream {
  StaticServers : list string; UseNodeResolvConf : option bool; Policy : string; MaxConcurrent : option Z;
}.
Record CoreDNSConfig : Type := MkCoreDNS {
  AdditionalConfigs : string; RewriteBlock : string; UpstreamForwarding : option UpstreamForwardingConfig;
  CoreDNS_ExternalZones : list ExternalZone;
}.
Record NodeLocalDNSConfig : Type := MkNodeLocalDNS {
  NodeLocalDNS_Enabled : option bool; NodeLocalDNS_IP : string; NodeLocalDNS_ExternalZones : list ExternalZone;
}.
Record DNSSection : Type := MkDNS {
  DNS_Source : AddonSource; DNSEtcHosts : string; NodeEtcHosts : string; CoreDNS : option CoreDNSConfig;
  NodeLocalDNS : option NodeLocalDNSConfig;
}.

Definition empty_DNS : DNSSection := MkDNS empty_Source "" "" None None.

Definition SetDefaults_ExternalZone (z : ExternalZone) : ExternalZone :=
  MkZone (Zones z) (Zone_Nameservers z) (or_int (Zone_Cache z) 30) (Rewrite z).

Definition SetDefaults_UpstreamForwardingConfig (c : UpstreamForwardingConfig) : UpstreamForwardingConfig :=
  let use := default true (UseNodeResolvConf c) in
  MkUpstream
    (if bool_decide (StaticServers c = []) && negb use then ["8.8.8.8"; "1.1.1.1"] else StaticServers c)
    (Some use) (or_text (Policy c) "random") (or_ptr (MaxConcurrent c) 1000%Z).

Definition SetDefaults_CoreDNS (c : CoreDNSConfig) : CoreDNSConfig :=
  MkCoreDNS (AdditionalConfigs c) (RewriteBlock c)
    (Some (SetDefaults_UpstreamForwardingConfig (default (MkUpstream [] None "" None) (UpstreamForwarding c))))
    (SetDefaults_ExternalZone <$> CoreDNS_ExternalZones c).

Definition SetDefaults_NodeLocalDNS (c : NodeLocalDNSConfig) : NodeLocalDNSConfig :=
  let enabled := default true (NodeLocalDNS_Enabled c) in
  MkNodeLocalDNS (Some enabled)
    (if enabled then or_text (NodeLocalDNS_IP c) DefaultLocalDNS else NodeLocalDNS_IP c)
    (SetDefaults_ExternalZone <$> NodeLocalDNS_ExternalZones c).

Definition SetDefaults_DNS (c : DNSSection) : DNSSection :=
  MkDNS (DNS_Source c) (DNSEtcHosts c) (NodeEtcHosts c)
    (Some (SetDefaults_CoreDNS (default (MkCoreDNS "" "" None []) (CoreDNS c))))
    (Some (SetDefaults_NodeLocalDNS (default (MkNodeLocalDNS None "" []) (NodeLocalDNS c)))).

(** A list of names that must be domains. *)
Definition check_domains (p field blank_msg bad_msg : string) (l : list string) : V unit :=
  vfor l (λ i x,
    if blank x then Add (p +:+ "." +:+ field +:+ index i +:+ blank_msg)
    else vif (negb (Helpers.IsValidDomainName x))
      (Add (p +:+ "." +:+ field +:+ index i +:+ bad_msg +:+ x +:+ "'"))).

Definition check_IPs (p field : string) (l : list string) : V unit :=
  vfor l (λ i x, vif (negb (Helpers.IsValidIP x))
    (Add (p +:+ "." +:+ field +:+ index i +:+ ": invalid IP address '" +:+ x +:+ "'"))).

Definition Validate_ExternalZone (z : ExternalZone) (pathPrefix : string) : V unit :=
  let p := path_Join [pathPrefix] in
  vif (bool_decide (Zones z = [])) (Add (p +:+ ".zones: must specify at least one zone")) ;;
  check_domains p "zones" ": zone name cannot be empty" ": invalid domain name format for zone '" (Zones z) ;;
  vif (bool_decide (Zone_Nameservers z = [])) (Add (p +:+ ".nameservers: must specify at least one nameserver")) ;;
  check_IPs p "nameservers" (Zone_Nameservers z) ;;
  vif (Zone_Cache z <? 0)%Z (Add (p +:+ ".cache: cannot be negative, got " +:+ decimal (Zone_Cache z))) ;;
  vfor (Rewrite z) (λ i rule,
    let rulePath := p +:+ ".rewrite" +:+ index i in
    vif (blank (FromPattern rule)) (Add (rulePath +:+ ".fromPattern: cannot be empty")) ;;
    vif (blank (ToTemplate rule)) (Add (rulePath +:+ ".toTemplate: cannot be empty"))).

Definition Validate_UpstreamForwardingConfig (c : UpstreamForwardingConfig) (pathPrefix : string) : V unit :=
  let p := path_Join [pathPrefix] in
  vif (bool_decide (StaticServers c = []) && negb (is_true (UseNodeResolvConf c)))
    (Add (p +:+ ": at least one static server or 'useNodeResolvConf: true' must be specified")) ;;
  check_IPs p "staticServers" (StaticServers c) ;;
  vif (bool_decide (Policy c ≠ "") && negb (ContainsStringWithEmpty ValidUpstreamPolicies (Policy c)))
    (Add (p +:+ ".policy: invalid policy '" +:+ Policy c +:+ "', must be one of "
          +:+ show_slice ValidUpstreamPolicies +:+ " or empty")) ;;
  vif (int_is (λ n, n <? 0)%Z (MaxConcurrent c))
    (Add (p +:+ ".maxConcurrent: cannot be negative, got " +:+ show_int (MaxConcurrent c))).

Definition Validate_zones (p : string) (zones : list ExternalZone) : V unit :=
  vfor zones (λ i z, Validate_ExternalZone z (p +:+ ".externalZones" +:+ index i)).

Definition Validate_CoreDNS (c : CoreDNSConfig) (pathPrefix : string) : V unit :=
  let p := path_Join [pathPrefix] in
  vwith (UpstreamForwarding c) (λ u, Validate_UpstreamForwardingConfig u (path_Join [p; "upstream"])) ;;
  Validate_zones p (CoreDNS_ExternalZones c).

Definition Validate_NodeLocalDNS (c : NodeLocalDNSConfig) (pathPrefix : string) : V unit :=
  let p := path_Join [pathPrefix] in
  vif (is_true (NodeLocalDNS_Enabled c)) (Validate_zones p (NodeLocalDNS_ExternalZones c)).

Definition Validate_DNS (c : DNSSection) (pathPrefix : string) : V unit :=
  let p := path_Join [pathPrefix] in
  vif (bool_decide (DNSEtcHosts c ≠ "") && blank (DNSEtcHosts c))
    (Add (p +:+ ".dnsEtcHosts: cannot be only whitespace if specified")) ;;
  vif (bool_decide (NodeEtcHosts c ≠ "") && blank (NodeEtcHosts c))
    (Add (p +:+ ".nodeEtcHosts: cannot be only whitespace if specified")) ;;
  vwith (CoreDNS c) (λ x, Validate_CoreDNS x (path_Join [p; "coredns"])) ;;
  vwith (NodeLocalDNS c) (λ x, Validate_NodeLocalDNS x (path_Join [p; "nodelocaldns"])).

(** ** Preflight checks *)

Definition SupportedChecks : list string := ["cpu"; "memory"; "swap"; "firewalld"; "selinux"].

Record PreflightSection : Type := MkPreflight {
  MinCPUCores : option Z; MinMemoryMB : option Z; DisableSwap : option bool; DisableFirewalld : option bool;
  DisableSelinux : option bool; SkipChecks : list string;
}.

Definition empty_Preflight : PreflightSection := MkPreflight None None None None None [].

Definition SetDefaults_Preflight (c : PreflightSection) : PreflightSection :=
  MkPreflight (or_ptr (MinCPUCores c) 2%Z) (or_ptr (MinMemoryMB c) 2048%Z) (or_ptr (DisableSwap c) true)
    (or_ptr (DisableFirewalld c) true) (or_ptr (DisableSelinux c) true) (SkipChecks c).

Definition Validate_Preflight (c : PreflightSection) (p : string) : V unit :=
  vif (int_is (λ n, n <=? 0)%Z (MinCPUCores c))
    (Add (p +:+ ".minCPUCores: must be positive if specified, got " +:+ show_int (MinCPUCores c))) ;;
  vif (int_is (λ n, n <=? 0)%Z (MinMemoryMB c))
    (Add (p +:+ ".minMemoryMB: must be positive if specified, got " +:+ show_int (MinMemoryMB c))) ;;
  vfor (SkipChecks c) (λ i check, vif (negb (slice_contains SupportedChecks check))
    (Add (p +:+ ".skipChecks" +:+ index i +:+ ": unsupported check '" +:+ check +:+ "', must be one of "
          +:+ show_slice SupportedChecks))).

(** ** Extra settings; their defaults only replace nil slices *)

Record EtcHostEntry : Type := MkEtcHost { EtcHost_IP : string; Hostnames : list string }.
Record ResolvConfConfig : Type := MkResolvConf {
  Nameservers : list string; Searches : list string; Options : list string;
}.
Record ExtraSection : Type := MkExtra { EtcHosts : list EtcHostEntry; ResolvConf : option ResolvConfConfig }.

(** An address that must be given. *)
Definition check_address (field blank_msg value : string) : V unit :=
  if blank value then Add (field +:+ blank_msg)
  else vif (bool_decide (ParseIP value = None))
    (Add (field +:+ ": invalid IP address format for '" +:+ value +:+ "'")).

Definition Validate_EtcHostEntry (c : EtcHostEntry) (p : string) : V unit :=
  check_address (p +:+ ".ip") ": cannot be empty" (EtcHost_IP c) ;;
  vif (bool_decide (Hostnames c = [])) (Add (p +:+ ".hostnames: must contain at least one hostname")) ;;
  vfor (Hostnames c) (λ i h,
    vif (blank h) (Add (p +:+ ".hostnames" +:+ index i +:+ ": hostname cannot be empty"))).

Definition Validate_ResolvConfConfig (c : ResolvConfConfig) (p : string) : V unit :=
  vfor (Nameservers c) (λ i ns,
    check_address (p +:+ ".nameservers" +:+ index i) ": nameserver cannot be empty" ns) ;;
  check_domains p "searches" ": search domain cannot be empty" ": invalid domain name format for '" (Searches c).

Definition Validate_Extra (c : ExtraSection) (pathPrefix : string) : V unit :=
  let p := path_Join [pathPrefix] in
  vfor (EtcHosts c) (λ i e, Validate_EtcHostEntry e (p +:+ ".etcHosts" +:+ index i)) ;;
  vwith (ResolvConf c) (λ r, Validate_ResolvConfConfig r (path_Join [p; "resolvConf"])).

(** ** Growth and return *)

Lemma grows_DNS c p : grows (Validate_DNS c p).
Proof.
  unfold Validate_DNS, Validate_CoreDNS, Validate_NodeLocalDNS, Validate_zones, Validate_UpstreamForwardingConfig,
    Validate_ExternalZone, check_domains, check_IPs. growing.
Qed.

Lemma returns_DNS c p : returns (Validate_DNS c p).
Proof.
  unfold Validate_DNS, Validate_CoreDNS, Validate_NodeLocalDNS, Validate_zones, Validate_UpstreamForwardingConfig,
    Validate_ExternalZone, check_domains, check_IPs. return_.
Qed.

Lemma grows_Preflight c p : grows (Validate_Preflight c p).
Proof. unfold Validate_Preflight. growing. Qed.

Lemma returns_Preflight c p : returns (Validate_Preflight c p).
Proof. unfold Validate_Preflight. return_. Qed.

Lemma grows_Extra c p : grows (Validate_Extra c p).
Proof.
  unfold Validate_Extra, Validate_EtcHostEntry, Validate_ResolvConfConfig, check_address, check_domains. growing.
Qed.

Lemma returns_Extra c p : returns (Validate_Extra c p).
Proof.
  unfold Validate_Extra, Validate_EtcHostEntry, Validate_ResolvConfConfig, check_address, check_domains. return_.
Qed.

Definition StorageComponentOpenEBS : string := "openebs".
Definition StorageComponentNFS : string := "nfs".
Definition StorageComponentRookCeph : string := "rook-ceph".
Definition StorageComponentLonghorn : string := "longhorn".

(** [MayastorEngineConfig], [JivaEngineConfig] and [CStorEngineConfig]. *)
Record EngineConfig : Type := MkEngine { Engine_Enabled : option bool }.
Record LocalHostpathEngineConfig : Type := MkLocalHostpath {
  LocalHostpath_Enabled : option bool; BasePath : option string;
}.
Record OpenEBSEngineConfig : Type := MkOpenEBSEngines {
  Mayastor : option EngineConfig; Jiva : option EngineConfig; CStor : option EngineConfig;
  LocalHostpath : option LocalHostpathEngineConfig;
}.
Record OpenEBSConfig : Type := MkOpenEBS {
  OpenEBS_Source : AddonSource; OpenEBS_Enabled : option bool; OpenEBS_Version : string;
  Engines : option OpenEBSEngineConfig;
}.
Record NFSConfig : Type := MkNFS {
  NFS_Source : AddonSource; NFS_Enabled : option bool; NFS_Server : string; NFS_Path : string;
  StorageClassName : option string;
}.
Record RookCephConfig : Type := MkRookCeph {
  RookCeph_Source : AddonSource; RookCeph_Enabled : option bool; RookCeph_Version : string; Devices : list string;
  UseAllDevices : option bool; CreateBlockPool : option bool; CreateFilesystem : option bool;
}.
Record LonghornConfig : Type := MkLonghorn {
  Longhorn_Source : AddonSource; Longhorn_Enabled : option bool; Longhorn_Version : string;
  DefaultDataPath : option string; PurgeDataOnUninstall : option bool;
}.
Record StorageSection : Type := MkStorage {
  DefaultStorageClass : option string; OpenEBS : option OpenEBSConfig; NFS : option NFSConfig;
  RookCeph : option RookCephConfig; Longhorn : option LonghornConfig;
}.

Definition empty_Storage : StorageSection := MkStorage None None None None None.

(** Without a choice about the local engine its path is set too. *)
Definition SetDefaults_OpenEBS (c : OpenEBSConfig) : OpenEBSConfig :=
  let enabled := default true (OpenEBS_Enabled c) in
  if enabled then
    let e := default (MkOpenEBSEngines None None None None) (Engines c) in
    let l := default (MkLocalHostpath None None) (LocalHostpath e) in
    let l := match LocalHostpath_Enabled l with
             | None => MkLocalHostpath (Some true) (Some "/var/openebs/local")
             | Some _ => l
             end in
    MkOpenEBS (OpenEBS_Source c) (Some enabled) (or_text (OpenEBS_Version c) "2.8")
      (Some (MkOpenEBSEngines (Mayastor e) (Jiva e) (CStor e) (Some l)))
  else MkOpenEBS (OpenEBS_Source c) (Some enabled) (OpenEBS_Version c) (Engines c).

Definition SetDefaults_NFS (c : NFSConfig) : NFSConfig :=
  let enabled := default false (NFS_Enabled c) in
  MkNFS (NFS_Source c) (Some enabled) (NFS_Server c) (NFS_Path c)
    (if enabled then or_ptr (StorageClassName c) "nfs-client" else StorageClassName c).

Definition SetDefaults_RookCeph (c : RookCephConfig) : RookCephConfig :=
  let enabled := default false (RookCeph_Enabled c) in
  if enabled then
    MkRookCeph (RookCeph_Source c) (Some enabled) (or_text (RookCeph_Version c) "2.9") (Devices c)
      (or_ptr (UseAllDevices c) true) (or_ptr (CreateBlockPool c) true) (or_ptr (CreateFilesystem c) true)
  else MkRookCeph (RookCeph_Source c) (Some enabled) (RookCeph_Version c) (Devices c) (UseAllDevices c)
         (CreateBlockPool c) (CreateFilesystem c).

Definition SetDefaults_Longhorn (c : LonghornConfig) : LonghornConfig :=
  let enabled := default false (Longhorn_Enabled c) in
  MkLonghorn (Longhorn_Source c) (Some enabled) (or_text (Longhorn_Version c) "v2.7.2")
    (if enabled then or_ptr (DefaultDataPath c) "/var/lib/longhorn" else DefaultDataPath c) (PurgeDataOnUninstall c).

Definition SetDefaults_Storage (c : StorageSection) : StorageSection :=
  MkStorage (or_ptr (DefaultStorageClass c) "openebs-loal")
    (Some (SetDefaults_OpenEBS (default (MkOpenEBS empty_Source None "" None) (OpenEBS c))))
    (Some (SetDefaults_NFS (default (MkNFS empty_Source None "" "" None) (NFS c))))
    (Some (SetDefaults_RookCeph (default (MkRookCeph empty_Source None "" [] None None None) (RookCeph c))))
    (Some (SetDefaults_Longhorn (default (MkLonghorn empty_Source None "" None None) (Longhorn c)))).

(** An engine that is configured and enabled. *)
Definition engine_on (e : option EngineConfig) : bool :=
  match e with Some e => is_true (Engine_Enabled e) | None => false end.

Definition Validate_OpenEBS (c : OpenEBSConfig) (p : string) : V unit :=
  match Engines c with
  | None => Add (p +:+ ".engines: must be defined when openebs is enabled")
  | Some e =>
      let local := match LocalHostpath e with Some l => is_true (LocalHostpath_Enabled l) | None => false end in
      vwith (LocalHostpath e) (λ l, vif (local && blank_ptr (BasePath l))
        (Add (path_Join [p; "engines"; "localHostpath"] +:+ ".basePath: cannot be empty if specified"))) ;;
      vif (negb (engine_on (Mayastor e) || engine_on (Jiva e) || engine_on (CStor e) || local))
        (Add (p +:+ ".engines: at least one storage engine must be enabled"))
  end.

Definition Validate_NFS (c : NFSConfig) (p : string) : V unit :=
  vif (blank (NFS_Server c)) (Add (p +:+ ".server: is required when nfs is enabled")) ;;
  vif (blank (NFS_Path c)) (Add (p +:+ ".path: is required when nfs is enabled")) ;;
  vif (blank_ptr (StorageClassName c)) (Add (p +:+ ".storageClassName: cannot be empty if specified")).

Definition Validate_RookCeph (c : RookCephConfig) (p : string) : V unit :=
  let useAll := is_true (UseAllDevices c) in
  let useList := bool_decide (Devices c ≠ []) in
  vif (negb useAll && negb useList)
    (Add (p +:+ ": either 'useAllDevices' must be true or at least one device must be specified in 'devices'")) ;;
  vif (useAll && useList) (Add (p +:+ ": 'devices' list cannot be set when 'useAllDevices' is true")).

Definition Validate_Longhorn (c : LonghornConfig) (p : string) : V unit :=
  vif (blank_ptr (DefaultDataPath c)) (Add (p +:+ ".defaultDataPath: cannot be empty if specified")).

(** [x != nil && x.Enabled != nil && *x.Enabled] *)
Definition provider_on {A} (enabled : A → option bool) (x : option A) : bool :=
  match x with Some x => is_true (enabled x) | None => false end.

Definition Validate_Storage (c : StorageSection) (pathPrefix : string) : V unit :=
  let p := path_Join [pathPrefix] in
  let check {A} (enabled : A → option bool) (x : option A) name (validate : A → string → V unit) :=
    vwith x (λ y, vif (provider_on enabled x) (validate y (path_Join [p; name]))) in
  check OpenEBS_Enabled (OpenEBS c) StorageComponentOpenEBS Validate_OpenEBS ;;
  check NFS_Enabled (NFS c) StorageComponentNFS Validate_NFS ;;
  check RookCeph_Enabled (RookCeph c) StorageComponentRookCeph Validate_RookCeph ;;
  check Longhorn_Enabled (Longhorn c) StorageComponentLonghorn Validate_Longhorn ;;
  vif (match DefaultStorageClass c with Some s => bool_decide (s ≠ "") | None => false end)
    (vif (negb (provider_on OpenEBS_Enabled (OpenEBS c) || provider_on NFS_Enabled (NFS c)
                || provider_on RookCeph_Enabled (RookCeph c) || provider_on Longhorn_Enabled (Longhorn c)))
      (Add (p +:+ ".defaultStorageClass: cannot be set when no storage provider is enabled"))).

Lemma grows_Storage c p : grows (Validate_Storage c p).
Proof. unfold Validate_Storage, Validate_OpenEBS, Validate_NFS, Validate_RookCeph, Validate_Longhorn. growing. Qed.

Lemma returns_Storage c p : returns (Validate_Storage c p).
Proof. unfold Validate_Storage, Validate_OpenEBS, Validate_NFS, Validate_RookCeph, Validate_Longhorn. return_. Qed.
