(* ===== verification/ApiSections.v ===== *)
(** The sections of the configuration as the loader sees them: the instance of the
    class [Sections] made of the modelled sections.

    Setting defaults twice is setting them once, section by section and for the
    whole configuration. *)
From S2P Require Import Prelude.
From S2P Require Import GoPath.
From S2P Require Import Validators.
From S2P Require Import ValidationErrors.
From S2P Require Import LoadBalancerTypes.
From S2P Require Import EndpointTypes.
From S2P Require Import ClusterTypes.
From S2P Require Import SectionBase.
From S2P Require Import NetworkTypes.
From S2P Require Import RuntimeTypes.
From S2P Require Import KubernetesTypes.
From S2P Require Import ServiceTypes.

(** [helm_types.go] *)
Record HelmRepoSection : Type := MkHelmRepo { HelmRepo_Name : string; HelmRepo_Repo : string }.

Section api.
Context `{GoRange} `{Fmt}.

Definition ApiSections : Sections := {|
  ClusterTypes.Kubernetes := KubernetesSection; ClusterTypes.Network := NetworkSection;
  ClusterTypes.DNS := DNSSection; ClusterTypes.Storage := StorageSection; ClusterTypes.Registry := RegistrySection;
  ClusterTypes.HelmRepo := HelmRepoSection; ClusterTypes.Addon := SectionBase.Addon;
  ClusterTypes.Preflight := PreflightSection; ClusterTypes.Extra := ExtraSection;
  ClusterTypes.empty_Kubernetes := KubernetesTypes.empty_Kubernetes;
  ClusterTypes.empty_Network := NetworkTypes.empty_Network;
  ClusterTypes.empty_DNS := ServiceTypes.empty_DNS;
  ClusterTypes.empty_Storage := ServiceTypes.empty_Storage;
  ClusterTypes.empty_Registry := RuntimeTypes.empty_Registry;
  ClusterTypes.empty_Preflight := ServiceTypes.empty_Preflight;
  ClusterTypes.SetDefaults_Kubernetes c := Ok (KubernetesTypes.SetDefaults_Kubernetes c);
  ClusterTypes.SetDefaults_Network c := Ok (NetworkTypes.SetDefaults_Network c);
  ClusterTypes.SetDefaults_DNS c := Ok (ServiceTypes.SetDefaults_DNS c);
  ClusterTypes.SetDefaults_Storage c := Ok (ServiceTypes.SetDefaults_Storage c);
  ClusterTypes.SetDefaults_Registry c := Ok (RuntimeTypes.SetDefaults_Registry c);
  ClusterTypes.SetDefaults_Preflight c := Ok (ServiceTypes.SetDefaults_Preflight c);
  ClusterTypes.Validate_Kubernetes := KubernetesTypes.Validate_Kubernetes;
  ClusterTypes.Validate_Network := NetworkTypes.Validate_Network;
  ClusterTypes.Validate_DNS := ServiceTypes.Validate_DNS;
  ClusterTypes.Validate_Storage := ServiceTypes.Validate_Storage;
  ClusterTypes.Validate_Registry := RuntimeTypes.Validate_Registry;
  ClusterTypes.Validate_Addon := SectionBase.Validate_Addon;
  ClusterTypes.Validate_Preflight := ServiceTypes.Validate_Preflight;
  ClusterTypes.Validate_Extra := ServiceTypes.Validate_Extra;
  ClusterTypes.grows_Kubernetes := KubernetesTypes.grows_Kubernetes;
  ClusterTypes.grows_Network := NetworkTypes.grows_Network;
  ClusterTypes.grows_DNS := ServiceTypes.grows_DNS;
  ClusterTypes.grows_Storage := ServiceTypes.grows_Storage;
  ClusterTypes.grows_Registry := RuntimeTypes.grows_Registry;
  ClusterTypes.grows_Addon := SectionBase.grows_Addon;
  ClusterTypes.grows_Preflight := ServiceTypes.grows_Preflight;
  ClusterTypes.grows_Extra := ServiceTypes.grows_Extra;
|}.
End api.

(** ** The ways to set a default *)

Lemma or_text_idem s d : or_text (or_text s d) d = or_text s d.
Proof. unfold or_text. by repeat case_decide. Qed.

Lemma or_int_idem n d : or_int (or_int n d) d = or_int n d.
Proof. unfold or_int. by repeat case_decide. Qed.

Lemma or_ptr_idem {A} (p : option A) d d' : or_ptr (or_ptr p d) d' = or_ptr p d.
Proof. done. Qed.

Lemma or_slice_idem {A} (l d : list A) : or_slice (or_slice l d) d = or_slice l d.
Proof. destruct l; [|done]. by destruct d. Qed.

Lemma or_map_idem {A} (m : gomap A) d : or_map (or_map m d) d = or_map m d.
Proof. unfold or_map. repeat case_decide; by simplify_eq/=. Qed.

Lemma default_or_ptr {A} (p : option A) d d' : default d' (or_ptr p d) = default d p.
Proof. done. Qed.

Create Rewrite HintDb defaults.
#[export] Hint Rewrite or_text_idem or_int_idem @or_ptr_idem @or_slice_idem @or_map_idem : defaults.

Ltac idem := autorewrite with defaults; try done.

(** ** Sections *)

Lemma calico_pool_idem p : calico_pool_defaults (calico_pool_defaults p) = calico_pool_defaults p.
Proof. done. Qed.

Lemma fmap_idem {A} (f : A → A) (l : list A) : (∀ x, f (f x) = f x) → f <$> (f <$> l) = f <$> l.
Proof. intros Hf. rewrite <-list_fmap_compose. apply list_fmap_ext. intros ? x _. apply Hf. Qed.

Lemma map_fmap_idem {A} (f : A → A) (m : gmap string A) : (∀ x, f (f x) = f x) → f <$> (f <$> m) = f <$> m.
Proof. intros Hf. rewrite <-map_fmap_compose. apply map_fmap_ext. intros ? x _. apply Hf. Qed.

Lemma Calico_idem c : SetDefaults_CalicoConfig (SetDefaults_CalicoConfig c) = SetDefaults_CalicoConfig c.
Proof. unfold SetDefaults_CalicoConfig; simpl. idem. by rewrite (fmap_idem _ _ calico_pool_idem). Qed.

Lemma Cilium_idem c : SetDefaults_CiliumConfig (SetDefaults_CiliumConfig c) = SetDefaults_CiliumConfig c.
Proof.
  unfold SetDefaults_CiliumConfig; simpl. idem. destruct (default _ (Hubble c)) as [en ui]. simpl. by destruct en, ui.
Qed.

Lemma Flannel_idem c : SetDefaults_FlannelConfig (SetDefaults_FlannelConfig c) = SetDefaults_FlannelConfig c.
Proof. unfold SetDefaults_FlannelConfig; simpl. idem. case_decide; simpl; idem. Qed.

Lemma KubeOvn_idem c : SetDefaults_KubeOvnConfig (SetDefaults_KubeOvnConfig c) = SetDefaults_KubeOvnConfig c.
Proof. unfold SetDefaults_KubeOvnConfig; simpl. idem. Qed.

Lemma Hybridnet_idem c : SetDefaults_HybridnetConfig (SetDefaults_HybridnetConfig c) = SetDefaults_HybridnetConfig c.
Proof. unfold SetDefaults_HybridnetConfig; simpl. idem. Qed.

Lemma Multus_idem c : SetDefaults_MultusConfig (SetDefaults_MultusConfig c) = SetDefaults_MultusConfig c.
Proof. unfold SetDefaults_MultusConfig; simpl. idem. Qed.

#[export] Hint Rewrite Calico_idem Cilium_idem Flannel_idem KubeOvn_idem Hybridnet_idem Multus_idem : defaults.

Lemma Network_idem c : SetDefaults_Network (SetDefaults_Network c) = SetDefaults_Network c.
Proof.
  unfold SetDefaults_Network; simpl. idem. f_equal; case_decide; simpl; idem.
Qed.

Lemma Registry_idem c : SetDefaults_Registry (SetDefaults_Registry c) = SetDefaults_Registry c.
Proof.
  unfold SetDefaults_Registry, SetDefaults_RegistryMirroringAndRewriting, SetDefaults_LocalRegistryDeployment; simpl. idem.
  unfold entries at 1; simpl. by rewrite map_fmap_idem.
Qed.

Lemma Containerd_idem c : SetDefaults_ContainerdConfig (SetDefaults_ContainerdConfig c) = SetDefaults_ContainerdConfig c.
Proof. unfold SetDefaults_ContainerdConfig; simpl. idem. Qed.

Lemma Docker_idem c : SetDefaults_DockerConfig (SetDefaults_DockerConfig c) = SetDefaults_DockerConfig c.
Proof. unfold SetDefaults_DockerConfig; simpl. idem. Qed.

Lemma Crio_idem c : SetDefaults_CrioConfig (SetDefaults_CrioConfig c) = SetDefaults_CrioConfig c.
Proof. unfold SetDefaults_CrioConfig; simpl. idem. Qed.

Lemma Isulad_idem c : SetDefaults_IsuladConfig (SetDefaults_IsuladConfig c) = SetDefaults_IsuladConfig c.
Proof. unfold SetDefaults_IsuladConfig; simpl. idem. Qed.

#[export] Hint Rewrite Containerd_idem Docker_idem Crio_idem Isulad_idem : defaults.

Lemma ContainerRuntime_idem c :
  SetDefaults_ContainerRuntimeConfig (SetDefaults_ContainerRuntimeConfig c) = SetDefaults_ContainerRuntimeConfig c.
Proof. unfold SetDefaults_ContainerRuntimeConfig; simpl. idem. f_equal; case_decide; simpl; idem. Qed.

Lemma Audit_idem c : audit_defaults (audit_defaults c) = audit_defaults c.
Proof.
  unfold audit_defaults, SetDefaults_AuditConfig. destruct c as [[[]|] content log policy ? ? ?]; simpl; idem.
Qed.

Lemma gate_idem gates : gate_defaults (gate_defaults gates) = gate_defaults gates.
Proof.
  unfold gate_defaults at 2 3. case_decide as Hg; unfold gate_defaults; [by rewrite decide_True|].
  rewrite decide_True; [done|]. rewrite lookup_insert_eq. by eexists.
Qed.

Lemma Kubelet_idem c : SetDefaults_KubeletConfig (SetDefaults_KubeletConfig c) = SetDefaults_KubeletConfig c.
Proof.
  unfold SetDefaults_KubeletConfig; cbn -[or_map or_text or_ptr gate_defaults]. idem. unfold entries at 1. simpl.
  by rewrite gate_idem.
Qed.

#[export] Hint Rewrite ContainerRuntime_idem Audit_idem Kubelet_idem : defaults.

Lemma Nodelocaldns_idem c :
  SetDefaults_NodelocaldnsConfig (SetDefaults_NodelocaldnsConfig c) = SetDefaults_NodelocaldnsConfig c.
Proof.
  unfold SetDefaults_NodelocaldnsConfig. simpl. destruct (default false (Nodelocaldns_Enabled c)); simpl; idem.
Qed.

#[export] Hint Rewrite Nodelocaldns_idem : defaults.

Lemma Kubernetes_idem c : SetDefaults_Kubernetes (SetDefaults_Kubernetes c) = SetDefaults_Kubernetes c.
Proof.
  unfold SetDefaults_Kubernetes, SetDefaults_APIServerConfig, SetDefaults_ControllerManagerConfig,
    SetDefaults_KubeProxyConfig, SetDefaults_addons, switch_defaults;
    cbn -[or_text or_ptr SetDefaults_KubeletConfig SetDefaults_ContainerRuntimeConfig SetDefaults_NodelocaldnsConfig
      audit_defaults].
  idem.
Qed.

Lemma OpenEBS_idem c : SetDefaults_OpenEBS (SetDefaults_OpenEBS c) = SetDefaults_OpenEBS c.
Proof.
  destruct c as [src [[]|] ver [[m j k [[[b|] base]|]]|]]; unfold SetDefaults_OpenEBS; simpl; idem.
Qed.

Lemma NFS_idem c : SetDefaults_NFS (SetDefaults_NFS c) = SetDefaults_NFS c.
Proof. by destruct c as [? [[]|] ? ? ?]. Qed.

Lemma RookCeph_idem c : SetDefaults_RookCeph (SetDefaults_RookCeph c) = SetDefaults_RookCeph c.
Proof. unfold SetDefaults_RookCeph. destruct (default false (RookCeph_Enabled c)); simpl; idem. Qed.

Lemma Longhorn_idem c : SetDefaults_Longhorn (SetDefaults_Longhorn c) = SetDefaults_Longhorn c.
Proof. destruct c as [? [[]|] ? ? ?]; unfold SetDefaults_Longhorn; simpl; idem. Qed.

#[export] Hint Rewrite OpenEBS_idem NFS_idem RookCeph_idem Longhorn_idem : defaults.

Lemma Storage_idem c : SetDefaults_Storage (SetDefaults_Storage c) = SetDefaults_Storage c.
Proof.
  unfold SetDefaults_Storage;
    cbn -[or_ptr SetDefaults_OpenEBS SetDefaults_NFS SetDefaults_RookCeph SetDefaults_Longhorn]. idem.
Qed.

Lemma zone_idem z : SetDefaults_ExternalZone (SetDefaults_ExternalZone z) = SetDefaults_ExternalZone z.
Proof. unfold SetDefaults_ExternalZone; simpl. idem. Qed.

Lemma Upstream_idem c :
  SetDefaults_UpstreamForwardingConfig (SetDefaults_UpstreamForwardingConfig c) = SetDefaults_UpstreamForwardingConfig c.
Proof.
  destruct c as [[|s l] [[]|] ? ?]; unfold SetDefaults_UpstreamForwardingConfig; simpl; idem.
Qed.

Lemma DNS_idem c : SetDefaults_DNS (SetDefaults_DNS c) = SetDefaults_DNS c.
Proof.
  unfold SetDefaults_DNS, SetDefaults_CoreDNS, SetDefaults_NodeLocalDNS;
    cbn -[or_text SetDefaults_UpstreamForwardingConfig].
  rewrite !(fmap_idem _ _ zone_idem), Upstream_idem.
  destruct (default true (NodeLocalDNS_Enabled _)); simpl; idem.
Qed.

Lemma Preflight_idem c : SetDefaults_Preflight (SetDefaults_Preflight c) = SetDefaults_Preflight c.
Proof. done. Qed.

(** ** Etcd and the endpoint *)

Lemma EtcdCluster_idem c : SetDefaults_EtcdClusterConfig (SetDefaults_EtcdClusterConfig c) = SetDefaults_EtcdClusterConfig c.
Proof. unfold SetDefaults_EtcdClusterConfig; simpl. idem. Qed.

Lemma Etcd_idem c : SetDefaults_Etcd (SetDefaults_Etcd c) = SetDefaults_Etcd c.
Proof.
  destruct c as [ty ver ext cl bk pf]. unfold SetDefaults_Etcd. pose proof (or_text_idem ty EtcdDeploymentTypeKubexm) as Hid.
  revert Hid. generalize (or_text ty EtcdDeploymentTypeKubexm) as t. intros t Ht.
  destruct (decide (t = EtcdDeploymentTypeKubexm)) as [Hk|Hk]; [|destruct (decide (t = EtcdDeploymentTypeExternal)) as [He|He]];
    cbv beta iota; rewrite Ht; repeat case_decide; try congruence; [|done].
  simpl. by rewrite EtcdCluster_idem.
Qed.

Lemma GlobalDefinitions_idem c : SetDefaults_GlobalDefinitions (SetDefaults_GlobalDefinitions c) = SetDefaults_GlobalDefinitions c.
Proof. unfold SetDefaults_GlobalDefinitions; simpl. idem. Qed.

Lemma HealthCheck_idem h : SetDefaults_HealthCheck (SetDefaults_HealthCheck h) = SetDefaults_HealthCheck h.
Proof. by destruct h as [? ? ? ? []]. Qed.

Lemma RealServer_idem r : SetDefaults_RealServer (SetDefaults_RealServer r) = SetDefaults_RealServer r.
Proof. destruct r as [? ? [h|]]; [|done]. unfold SetDefaults_RealServer; simpl. by rewrite HealthCheck_idem. Qed.

Lemma VirtualServer_idem v : SetDefaults_VirtualServer (SetDefaults_VirtualServer v) = SetDefaults_VirtualServer v.
Proof. unfold SetDefaults_VirtualServer; simpl. rewrite (fmap_idem _ _ RealServer_idem). idem. Qed.

Lemma Keepalived_idem c : SetDefaults_KeepalivedConfig (SetDefaults_KeepalivedConfig c) = SetDefaults_KeepalivedConfig c.
Proof.
  unfold SetDefaults_KeepalivedConfig; cbn -[SetDefaults_GlobalDefinitions].
  rewrite GlobalDefinitions_idem, (fmap_idem _ _ VirtualServer_idem), !fmap_idem; done.
Qed.

Lemma HAProxy_idem c : SetDefaults_HAProxyConfig (SetDefaults_HAProxyConfig c) = SetDefaults_HAProxyConfig c.
Proof. unfold SetDefaults_HAProxyConfig; simpl. by rewrite fmap_idem. Qed.

Lemma NginxLB_idem c : SetDefaults_NginxLBConfig (SetDefaults_NginxLBConfig c) = SetDefaults_NginxLBConfig c.
Proof. unfold SetDefaults_NginxLBConfig; simpl. by rewrite fmap_idem. Qed.

Lemma KubeVIP_idem c : SetDefaults_KubeVIPConfig (SetDefaults_KubeVIPConfig c) = SetDefaults_KubeVIPConfig c.
Proof. unfold SetDefaults_KubeVIPConfig; simpl. idem. case_decide; simpl; idem. Qed.

#[export] Hint Rewrite Keepalived_idem HAProxy_idem NginxLB_idem KubeVIP_idem : defaults.

(** A load balancer section keeps its switch, and its defaults are set once. *)
Lemma ExternalLB_idem c :
  SetDefaults_ExternalLoadBalancerConfig (SetDefaults_ExternalLoadBalancerConfig c) = SetDefaults_ExternalLoadBalancerConfig c.
Proof.
  destruct c as [en ty ka ha ng kv gr]. unfold SetDefaults_ExternalLoadBalancerConfig.
  destruct (default (bool_decide (ty ≠ "")) en) eqn:Hen; cbn -[decide SetDefaults_KeepalivedConfig SetDefaults_HAProxyConfig
    SetDefaults_NginxLBConfig SetDefaults_KubeVIPConfig]; [|done].
  repeat case_decide; cbn -[SetDefaults_KeepalivedConfig SetDefaults_HAProxyConfig SetDefaults_NginxLBConfig
    SetDefaults_KubeVIPConfig]; idem.
Qed.

Lemma InternalLB_idem c :
  SetDefaults_InternalLoadBalancerConfig (SetDefaults_InternalLoadBalancerConfig c) = SetDefaults_InternalLoadBalancerConfig c.
Proof.
  destruct c as [en ty ha ng]. unfold SetDefaults_InternalLoadBalancerConfig.
  destruct (default (bool_decide (ty ≠ "")) en) eqn:Hen;
    cbn -[decide SetDefaults_HAProxyConfig SetDefaults_NginxLBConfig]; [|done].
  repeat case_decide; cbn -[SetDefaults_HAProxyConfig SetDefaults_NginxLBConfig]; idem.
Qed.


(** ** High availability *)

#[local] Arguments SetDefaults_HighAvailabilityConfig : simpl never.
#[local] Arguments SetDefaults_ExternalLoadBalancerConfig : simpl never.
#[local] Arguments SetDefaults_InternalLoadBalancerConfig : simpl never.

Definition set_External (address ty : string) (c : ExternalLoadBalancerConfig) : ExternalLoadBalancerConfig :=
  let '(MkExternalLB _ _ ka hp ng kv gr) := c in MkExternalLB (Some true) ty (set_first_vip address <$> ka) hp ng kv gr.

Definition set_Internal (ty : string) (c : InternalLoadBalancerConfig) : InternalLoadBalancerConfig :=
  let '(MkInternalLB _ _ hp ng) := c in MkInternalLB (Some true) ty hp ng.

(** The external load balancer gives way to an enabled internal one. *)
Definition give_way (int : option InternalLoadBalancerConfig) (c : ExternalLoadBalancerConfig) : ExternalLoadBalancerConfig :=
  if bool_decide (External_Enabled c = Some true) && bool_decide (int ≫= Internal_Enabled = Some true)
  then with_External_Enabled false c else c.

#[local] Arguments give_way : simpl never.

Lemma enable_external_set a ty ha : enable_external a ty ha =
  let h := default empty_HA ha in
  MkHighAvailability (Some true) (Some (set_External a ty (default empty_ExternalLB (External h)))) (Internal h).
Proof. destruct ha as [[en [[]|] int]|]; done. Qed.

Lemma enable_internal_set ty ha : enable_internal ty ha =
  let h := default empty_HA ha in
  MkHighAvailability (Some true) (External h) (Some (set_Internal ty (default empty_InternalLB (Internal h)))).
Proof. destruct ha as [[en ext [[]|]]|]; done. Qed.

Lemma with_Internal_same b c : Internal_Enabled c = Some b → with_Internal_Enabled b c = c.
Proof. destruct c. simpl. by intros ->. Qed.

Lemma HA_enabled ext int : SetDefaults_HighAvailabilityConfig (MkHighAvailability (Some true) ext int) =
  let int := SetDefaults_InternalLoadBalancerConfig <$> int in
  MkHighAvailability (Some true) (give_way int ∘ SetDefaults_ExternalLoadBalancerConfig <$> ext) int.
Proof.
  unfold SetDefaults_HighAvailabilityConfig, give_way. destruct ext as [e|], int as [i|]; simpl; try done.
  - destruct (bool_decide _ && _) eqn:Hb; [|done]. apply andb_true_iff in Hb as [_ Hi%bool_decide_eq_true].
    by rewrite with_Internal_same.
  - by rewrite andb_false_r.
Qed.

Lemma vip_Keepalived a k : set_first_vip a (SetDefaults_KeepalivedConfig (set_first_vip a k))
  = SetDefaults_KeepalivedConfig (set_first_vip a k).
Proof. destruct k as [gd sc [|[? ? ? ? ? ? ? ? [|vip vips] ? ? ?] rest] vs]; done. Qed.

Lemma vip_vip a k : set_first_vip a (set_first_vip a k) = set_first_vip a k.
Proof. destruct k as [gd sc [|[? ? ? ? ? ? ? ? [|vip vips] ? ? ?] rest] vs]; done. Qed.

(** Setting address, type and switch again changes nothing that the defaults of an
    enabled load balancer have kept, even when it gave way. *)
Lemma set_External_again a ty e int :
  let d := SetDefaults_ExternalLoadBalancerConfig (set_External a ty e) in
  set_External a ty (give_way int d) = d.
Proof.
  destruct e as [en ty' ka hp ng kv gr]. cbn [set_External]. unfold SetDefaults_ExternalLoadBalancerConfig.
  simpl default. cbn [negb]. repeat case_decide; unfold give_way; simpl;
    destruct (bool_decide (int ≫= Internal_Enabled = Some true)); rewrite ?bool_decide_true by done; simpl;
    destruct ka as [k|]; simpl; rewrite ?vip_Keepalived, ?vip_vip; done.
Qed.

Lemma set_Internal_again ty i :
  let d := SetDefaults_InternalLoadBalancerConfig (set_Internal ty i) in set_Internal ty d = d.
Proof.
  destruct i as [en ty' hp ng]. cbn [set_Internal]. unfold SetDefaults_InternalLoadBalancerConfig.
  simpl default. cbn [negb]. by repeat case_decide.
Qed.

Lemma give_way_idem int e : give_way int (give_way int e) = give_way int e.
Proof.
  unfold give_way at 2 3. destruct (bool_decide _ && _) eqn:Hb.
  - unfold give_way. by destruct e.
  - unfold give_way. by rewrite Hb.
Qed.

(** A load balancer that is switched off is left alone by the defaults. *)
Lemma ExternalLB_give_way int c :
  SetDefaults_ExternalLoadBalancerConfig (give_way int (SetDefaults_ExternalLoadBalancerConfig c))
  = give_way int (SetDefaults_ExternalLoadBalancerConfig c).
Proof.
  unfold give_way. destruct (bool_decide _ && _); [|apply ExternalLB_idem].
  by destruct (SetDefaults_ExternalLoadBalancerConfig c).
Qed.

Lemma HA_enabled_idem ext int :
  let c := MkHighAvailability (Some true) ext int in
  SetDefaults_HighAvailabilityConfig (SetDefaults_HighAvailabilityConfig c) = SetDefaults_HighAvailabilityConfig c.
Proof.
  assert (SetDefaults_InternalLoadBalancerConfig <$> (SetDefaults_InternalLoadBalancerConfig <$> int)
    = SetDefaults_InternalLoadBalancerConfig <$> int) as Hint.
  { destruct int; simpl; [by rewrite InternalLB_idem|done]. }
  cbv zeta. rewrite !HA_enabled. cbv zeta. rewrite !Hint. f_equal.
  destruct ext as [e|]; [|done]. simpl. by rewrite ExternalLB_give_way, give_way_idem.
Qed.

(** A section that is not enabled is only looked at for its switches. *)
Lemma HA_idem c :
  SetDefaults_HighAvailabilityConfig (SetDefaults_HighAvailabilityConfig c) = SetDefaults_HighAvailabilityConfig c.
Proof.
  destruct c as [[[]|] ext int]; [apply HA_enabled_idem| |]; unfold SetDefaults_HighAvailabilityConfig; simpl;
    destruct ext as [[een ? ? ? ? ? ?]|], int as [[ien ? ? ?]|]; simpl; try done;
    destruct (bool_decide (een = Some true)) eqn:?, (bool_decide (ien = Some true)) eqn:?; simpl;
    by repeat match goal with H : bool_decide _ = _ |- _ => rewrite H end.
Qed.

Lemma enable_external_again a ty ha :
  let d := SetDefaults_HighAvailabilityConfig (enable_external a ty ha) in
  SetDefaults_HighAvailabilityConfig (enable_external a ty (Some d)) = d.
Proof.
  cbv zeta. rewrite !enable_external_set. simpl. rewrite !HA_enabled. simpl. rewrite set_External_again, ExternalLB_idem.
  destruct (Internal (default empty_HA ha)) as [i|]; simpl; [by rewrite InternalLB_idem|done].
Qed.

Lemma enable_internal_again ty ha :
  let d := SetDefaults_HighAvailabilityConfig (enable_internal ty ha) in
  SetDefaults_HighAvailabilityConfig (enable_internal ty (Some d)) = d.
Proof.
  cbv zeta. rewrite !enable_internal_set. simpl. rewrite HA_enabled at 1. simpl.
  rewrite !HA_enabled. simpl. rewrite set_Internal_again, InternalLB_idem.
  f_equal. destruct (External (default empty_HA ha)) as [e|]; simpl; [|done].
  by rewrite ExternalLB_give_way, give_way_idem.
Qed.

Lemma enable_both_again a ty ty' ha :
  let d := SetDefaults_HighAvailabilityConfig (enable_internal ty' (Some (enable_external a ty ha))) in
  SetDefaults_HighAvailabilityConfig (enable_internal ty' (Some (enable_external a ty (Some d)))) = d.
Proof.
  cbv zeta. rewrite !enable_internal_set, !enable_external_set. simpl. rewrite !HA_enabled. simpl.
  rewrite set_External_again, set_Internal_again, ExternalLB_idem, InternalLB_idem. done.
Qed.

(** ** The endpoint and the configuration *)

Lemma Endpoint_idem c :
  SetDefaults_ControlPlaneEndpointSpec (SetDefaults_ControlPlaneEndpointSpec c) = SetDefaults_ControlPlaneEndpointSpec c.
Proof.
  destruct c as [dom addr port dns ext int ha]. unfold SetDefaults_ControlPlaneEndpointSpec.
  destruct (decide (ext = "")) as [->|Hext].
  - rewrite !andb_false_r.
    set (int' := if bool_decide ("" = "") && bool_decide (int = "") then _ else int).
    assert (int' ≠ "") as Hne by (unfold int'; rewrite bool_decide_true by done; simpl; by case_bool_decide).
    clearbody int'. rewrite (decide_True (P := int' ≠ "")) by done.
    rewrite (bool_decide_false (int' = "")) by done. rewrite !andb_false_r.
    rewrite (decide_True (P := int' ≠ "")) by done. cbn [fmap option_fmap option_map].
    rewrite enable_internal_again, or_text_idem, or_int_idem, or_ptr_idem. f_equal.
    destruct (bool_decide _ && bool_decide (addr = "") && _) eqn:Hb; simpl; [done|]. simpl in Hb. by rewrite Hb.
  - destruct (decide (int ≠ "")) as [Hi|Hi], (bool_decide (addr ≠ "") && Helpers.IsValidIP addr) eqn:Ha;
      rewrite ?(bool_decide_false (ext = "")), ?(bool_decide_true (ext ≠ "")) by done; cbn [andb];
      rewrite ?(decide_True (P := int ≠ "")), ?(decide_False (P := int ≠ "")) by done; cbn [andb];
      rewrite ?Ha, ?(bool_decide_false (ext = "")), ?(bool_decide_true (ext ≠ "")) by done; cbn [andb];
      rewrite ?(decide_True (P := int ≠ "")), ?(decide_False (P := int ≠ "")) by done;
      cbn [andb fmap option_fmap option_map];
      rewrite ?enable_both_again, ?enable_internal_again, ?enable_external_again, or_text_idem, or_int_idem; try done.
    destruct ha as [h|]; [|done]. simpl. by rewrite HA_idem.
Qed.

Lemma Gateway_idem g : SetDefault_Gateway (SetDefault_Gateway g) = SetDefault_Gateway g.
Proof. done. Qed.

Lemma System_idem s : SetDefaults_SystemSpec (SetDefaults_SystemSpec s) = SetDefaults_SystemSpec s.
Proof. unfold SetDefaults_SystemSpec; simpl. idem. Qed.

Section configuration.
Context `{GoRange} `{Fmt} `{OS}.
#[local] Existing Instance ApiSections.

Hypothesis mkdir_returns : ∀ p d, (os_MkdirAll p d).1 ≠ Panic.

Lemma CreateDir_returns p d : (CreateDir p d).1 ≠ Panic.
Proof. unfold CreateDir. destruct (os_Stat p d); done || apply mkdir_returns. Qed.

Lemma GenerateHostWorkDir_returns c w h d : (GenerateHostWorkDir c w h d).1 ≠ Panic.
Proof.
  unfold GenerateHostWorkDir, mbind, M_bind.
  destruct (CreateDir (filepath_Join [w; c; h]) d) as [[[]|[]|] d1] eqn:E1; try done.
  - destruct (CreateDir (filepath_Join [w; c; "logs"]) d1) as [[[]|[]|] d2] eqn:E2; try done.
    pose proof (CreateDir_returns (filepath_Join [w; c; "logs"]) d1) as Hr. by rewrite E2 in Hr.
  - pose proof (CreateDir_returns (filepath_Join [w; c; h]) d) as Hr. by rewrite E1 in Hr.
Qed.

(** The global section does not change again once there is a working directory. *)
Lemma GlobalSpec_again g d g' d' : SetDefaults_GlobalSpec g d = (Ok g', d') → WorkDir g' ≠ "" →
  ∀ d, SetDefaults_GlobalSpec g' d = (Ok g', d).
Proof.
  unfold SetDefaults_GlobalSpec. intros Hrun Hw d2. inv_bind Hrun. injection Hrun as <- <-.
  simpl in *. rewrite decide_False by done. unfold mbind, M_bind, mret, M_ret. idem.
Qed.

(** What a host inherits. *)
Definition inherit (g : GlobalSpec) (h : HostSpec) : HostSpec :=
  MkHost (Host_Name h) (Host_Address h) (InternalAddress h)
    (if decide (Host_Port h = 0%Z) then or_int (Global_Port g) 22 else Host_Port h)
    (or_text (Host_User h) (Global_User g)) (or_text (Host_Password h) (Global_Password g))
    (or_text (Host_PrivateKey h) (Global_PrivateKey g))
    (or_text (Host_PrivateKeyPath h) (Global_PrivateKeyPath g))
    (Labels h) (Taints h) (Host_Type h) (or_text (Arch h) "amd64") (Timeout h) (Roles h) (RoleTable h).

Lemma inherit_idem g h : inherit g (inherit g h) = inherit g h.
Proof.
  unfold inherit, or_int; simpl. idem. f_equal. repeat case_decide; done || congruence.
Qed.

Lemma HostSpec_run h name g d : ∃ d', SetDefaults_HostSpec h name (Some g) d = (Ok (inherit g h), d').
Proof.
  unfold SetDefaults_HostSpec, ignore_error, mbind, M_bind. simpl.
  pose proof (GenerateHostWorkDir_returns name (WorkDir g) (Host_Name h) d) as Hr.
  destruct (GenerateHostWorkDir name (WorkDir g) (Host_Name h) d) as [[x|x|] d3]; simpl in Hr; [by eexists..|done].
Qed.

Lemma hosts_run hs name g d :
  ∃ d', collect hs (λ h, SetDefaults_HostSpec h name (Some g)) d = (Ok (inherit g <$> hs), d').
Proof.
  revert d. induction hs as [|h hs IH]; intros d; simpl; [by eexists|].
  destruct (HostSpec_run h name g d) as [d1 Hd]. destruct (IH d1) as [d2 Hd2].
  exists d2. unfold mbind, M_bind. by rewrite Hd, Hd2.
Qed.

(** What becomes of a specification, given its global section. *)
Definition filled (g : GlobalSpec) (s : ClusterSpec) : ClusterSpec :=
  MkClusterSpec _ (inherit g <$> Hosts s) (RoleGroups s) (Some g)
    (Some (SetDefaults_SystemSpec (default empty_System (System s))))
    (Some (KubernetesTypes.SetDefaults_Kubernetes (default KubernetesTypes.empty_Kubernetes (Spec_Kubernetes s))))
    (Some (SetDefaults_Etcd (default empty_Etcd (Spec_Etcd s))))
    (Some (ServiceTypes.SetDefaults_DNS (default ServiceTypes.empty_DNS (Spec_DNS s))))
    (Some (NetworkTypes.SetDefaults_Network (default NetworkTypes.empty_Network (Spec_Network s))))
    (Some (SetDefaults_ControlPlaneEndpointSpec (default empty_Endpoint (ControlPlaneEndpoint s))))
    (Some (ServiceTypes.SetDefaults_Storage (default ServiceTypes.empty_Storage (Spec_Storage s))))
    (Some (RuntimeTypes.SetDefaults_Registry (default RuntimeTypes.empty_Registry (Spec_Registry s))))
    (Some (SetDefault_Gateway (default (MkGateway None) (Gateway s))))
    (Spec_HelmRepo s) (Addons s)
    (Some (ServiceTypes.SetDefaults_Preflight (default ServiceTypes.empty_Preflight (Spec_Preflight s))))
    (Spec_Extra s) (Certs s).

Lemma filled_idem g s : filled g (filled g s) = filled g s.
Proof.
  unfold filled. simpl. rewrite Kubernetes_idem, Etcd_idem, DNS_idem, Network_idem, Endpoint_idem, Storage_idem,
    Registry_idem, Preflight_idem, System_idem, Gateway_idem, (fmap_idem _ _ (inherit_idem g)). done.
Qed.

Lemma ClusterSpec_run name s g d d1 : SetDefaults_GlobalSpec (default empty_Global (Global s)) d = (Ok g, d1) →
  ∃ d', SetDefaults_ClusterSpec name s d = (Ok (filled g s), d').
Proof.
  intros Hg. unfold SetDefaults_ClusterSpec, mbind, M_bind. rewrite Hg.
  destruct (hosts_run (Hosts s) name g d1) as [d2 Hh]. exists d2. by rewrite Hh.
Qed.

Lemma ClusterSpec_inv name s d s' d' : SetDefaults_ClusterSpec name s d = (Ok s', d') →
  ∃ g d1, SetDefaults_GlobalSpec (default empty_Global (Global s)) d = (Ok g, d1) ∧ s' = filled g s.
Proof.
  intros Hrun. destruct (SetDefaults_GlobalSpec (default empty_Global (Global s)) d) as [[g|[]|] d1] eqn:Hg.
  - destruct (ClusterSpec_run name s g d d1 Hg) as [d2 Hd]. rewrite Hd in Hrun. exists g, d1. by simplify_eq.
  - unfold SetDefaults_ClusterSpec, mbind, M_bind in Hrun. by rewrite Hg in Hrun.
Qed.

(** C24: setting the defaults of a configuration a second time changes nothing,
    once its working directory is known: every section, the inherited credentials
    of the hosts and the choice between the load balancers are fixed points. *)
Theorem SetDefaults_Cluster_idempotent c d c' d' :
  SetDefaults_Cluster c d = (Ok c', d') →
  (∀ s g, Spec c' = Some s → Global s = Some g → WorkDir g ≠ "") →
  ∀ d, ∃ d', SetDefaults_Cluster c' d = (Ok c', d').
Proof.
  intros Hrun Hw d2. destruct c as [av ki na [s|]]; unfold SetDefaults_Cluster in *; simpl in *.
  - destruct (SetDefaults_ClusterSpec na s d) as [[s'|[]|] d1] eqn:Hs; unfold mbind, M_bind, mret, M_ret in Hrun;
      rewrite Hs in Hrun; simplify_eq/=.
    apply ClusterSpec_inv in Hs as (g & d3 & Hg & ->).
    pose proof (GlobalSpec_again _ _ _ _ Hg (Hw _ g eq_refl eq_refl) d2) as Hg2.
    destruct (ClusterSpec_run na (filled g s) g d2 d2 Hg2) as [d4 Hd4]. exists d4.
    unfold mbind, M_bind, mret, M_ret. rewrite Hd4, filled_idem. by idem.
  - injection Hrun as <- <-. exists d2. unfold mbind, M_bind, mret, M_ret. simpl. by idem.
Qed.
End configuration.
