(* ===== verification/SectionSpec.v ===== *)
(** What loading guarantees about the sections: the networks of an accepted
    configuration are disjoint, some choices never load, and the validation panics
    exactly on an endpoint without an external load balancer to look at.

    When the validation panics: the nil pointers of the endpoint are the only ones
    that are followed, every other validation returns. *)
From S2P Require Import Prelude.
From S2P Require Import GoPath.
From S2P Require Import GoText.
From S2P Require Import GoNet.
From S2P Require Import Network.
From S2P Require Import NetworkSpec.
From S2P Require Import Validators.
From S2P Require Import ValidationErrors.
From S2P Require Import LoadBalancerTypes.
From S2P Require Import EndpointTypes.
From S2P Require Import ClusterTypes.
From S2P Require Import ConfigLoad.
From S2P Require Import ConfigLoadSpec.
From S2P Require Import SectionBase.
From S2P Require Import NetworkTypes.
From S2P Require Import RuntimeTypes.
From S2P Require Import KubernetesTypes.
From S2P Require Import ServiceTypes.
From S2P Require Import ApiSections.
From Stdlib Require Import Ascii.

(** ** Disjoint networks *)

Section masks.
Local Open Scope Z_scope.

Lemma land_partial_masks p q : 0 <= p <= q → q < 8 →
  Z.land (Z.land (Z.lnot (Z.shiftr 255 q)) 255) (Z.land (Z.lnot (Z.shiftr 255 p)) 255)
  = Z.land (Z.lnot (Z.shiftr 255 p)) 255.
Proof.
  intros Hp Hq.
  assert (p = 0 ∨ p = 1 ∨ p = 2 ∨ p = 3 ∨ p = 4 ∨ p = 5 ∨ p = 6 ∨ p = 7) as Hps by lia.
  assert (q = 0 ∨ q = 1 ∨ q = 2 ∨ q = 3 ∨ q = 4 ∨ q = 5 ∨ q = 6 ∨ q = 7) as Hqs by lia.
  destruct_or! Hps; destruct_or! Hqs; subst; done || lia.
Qed.

Lemma land_full_mask p : 0 <= p < 8 →
  Z.land 255 (Z.land (Z.lnot (Z.shiftr 255 p)) 255) = Z.land (Z.lnot (Z.shiftr 255 p)) 255.
Proof. intros Hp. rewrite (Z.land_comm 255), <-Z.land_assoc. by rewrite Z.land_diag. Qed.

(** The longer prefix keeps the shorter one. *)
Lemma land_masks k p q : 0 <= p <= q → zip_with Z.land (mask_bytes k q) (mask_bytes k p) = mask_bytes k p.
Proof.
  revert p q. induction k as [|k IH]; intros p q Hpq; [done|]. cbn [mask_bytes].
  destruct (Z.leb_spec 8 q), (Z.leb_spec 8 p); cbn [zip_with]; try lia.
  - by rewrite IH by lia.
  - by rewrite IH, land_full_mask by lia.
  - rewrite IH by lia. by rewrite land_partial_masks by lia.
Qed.

Lemma drop_mask p : 0 <= p <= 128 → ∃ q, 0 <= q ∧ drop 12 (mask_bytes 16 p) = mask_bytes 4 q.
Proof.
  intros Hp. exists (Z.max 0 (p - 96)). split; [lia|].
  assert (Forall (λ p, drop 12 (mask_bytes 16 p) = mask_bytes 4 (Z.max 0 (p - 96))) (seqZ 0 129)) as Hall
    by (apply (bool_decide_unpack _); vm_compute; exact I).
  rewrite Forall_forall in Hall. apply Hall, elem_of_seqZ. lia.
Qed.

(** The network has the mask of a prefix. *)
Definition prefixed (n : Network.IPNet) : Prop := ∃ k p, 0 <= p ∧ (k = 4%nat ∧ p <= 32 ∨ k = 16%nat ∧ p <= 128) ∧ net_Mask n = mask_bytes k p.

Lemma ParseCIDR_prefixed s n : ParseCIDR s = Some n → prefixed n.
Proof.
  unfold ParseCIDR. destruct (cut_first "/" s) as [[addr mask]|]; [|done]. destruct (ParseIP addr); [|done].
  cbv zeta. destruct (_ || _) eqn:Hbad; [done|]. intros [= <-]. unfold prefixed. simpl.
  apply orb_false_iff in Hbad as [[_ Hd%negb_false_iff]%orb_false_iff Hle%Z.ltb_ge].
  pose proof (digits_value_nonneg mask Hd) as Hpos.
  destruct (is_v4_text addr); [exists 4%nat|exists 16%nat]; exists (digits_value mask);
    (split; [done|]); (split; [lia|]); cbn [net_Mask].
  - apply (CIDRMask_bytes 4); lia.
  - apply (CIDRMask_bytes 16); lia.
Qed.

(** The number and the mask of such a network. *)
Lemma number_and_mask n nn m : prefixed n → networkNumberAndMask n = Some (nn, m) →
  nn = default (net_IP n) (To4 (net_IP n)) ∧ ∃ p, 0 <= p ∧ m = mask_bytes (length nn) p.
Proof.
  intros (k & p & Hp & Hk & Hm). unfold networkNumberAndMask. rewrite Hm, length_mask_bytes.
  set (ip := default (net_IP n) (To4 (net_IP n))).
  destruct (Nat.eqb_spec (length ip) 4) as [H4|H4]; simpl.
  - destruct Hk as [[-> _]|[-> H128]]; intros [= <- <-]; (split; [done|]); rewrite H4; [eauto|].
    destruct (drop_mask p) as (q & ? & Hq); [lia|]. exists q. by rewrite <-Hq.
  - destruct (Nat.eqb_spec (length ip) 16) as [H16|]; [|done].
    destruct Hk as [[-> _]|[-> H128]]; simpl; [done|]. intros [= <- <-]. split; [done|]. rewrite H16. eauto.
Qed.

Lemma land_zip_assoc (a b c : list Z) :
  zip_with Z.land (zip_with Z.land a b) c = zip_with Z.land a (zip_with Z.land b c).
Proof. revert b c. induction a as [|x a IH]; intros [|y b] [|z c]; simpl; try done. by rewrite IH, Z.land_assoc. Qed.

(** When neither network contains the first address of the other, no address is in
    both. *)
Lemma contains_disjoint n1 n2 ip : prefixed n1 → prefixed n2 →
  net_Contains n1 (net_IP n2) = false → net_Contains n2 (net_IP n1) = false →
  net_Contains n1 ip = true → net_Contains n2 ip = true → False.
Proof.
  intros P1 P2. unfold net_Contains.
  destruct (networkNumberAndMask n1) as [[a1 m1]|] eqn:E1; [|done].
  destruct (networkNumberAndMask n2) as [[a2 m2]|] eqn:E2; [|done].
  destruct (number_and_mask _ _ _ P1 E1) as (Ha1 & p1 & Hp1 & ->).
  destruct (number_and_mask _ _ _ P2 E2) as (Ha2 & p2 & Hp2 & ->).
  rewrite <-Ha1, <-Ha2. intros H12 H21 [Hl1%Nat.eqb_eq Hx1%bool_decide_eq_true]%andb_true_iff
    [Hl2%Nat.eqb_eq Hx2%bool_decide_eq_true]%andb_true_iff.
  set (x := default ip (To4 ip)) in *. rewrite <-Hl1 in *. rewrite <-Hl2 in *.
  rewrite Nat.eqb_refl in H12, H21. simpl in H12, H21.
  apply bool_decide_eq_false in H12. apply bool_decide_eq_false in H21.
  destruct (Z.le_ge_cases p1 p2).
  - apply H12. rewrite Hx1, <-(land_masks _ p1 p2), <-!land_zip_assoc, Hx2 by lia. done.
  - apply H21. rewrite Hx2, <-(land_masks _ p2 p1), <-!land_zip_assoc, Hx1 by lia. done.
Qed.
End masks.

(** ** The sections of the prepared configuration *)

Section sections.
Context `{GoRange} `{Fmt} `{OS}.
#[local] Existing Instance ApiSections.

(** What the defaults make of a network and of a Kubernetes section that may be absent. *)
Definition network_of (s : ClusterSpec) : NetworkSection :=
  SetDefaults_Network (default NetworkTypes.empty_Network (Spec_Network s)).
Definition kubernetes_of (s : ClusterSpec) : KubernetesSection :=
  SetDefaults_Kubernetes (default KubernetesTypes.empty_Kubernetes (Spec_Kubernetes s)).
Definition endpoint_of (s : ClusterSpec) : ControlPlaneEndpointSpec :=
  normalize_endpoint (SetDefaults_ControlPlaneEndpointSpec (default empty_Endpoint (ControlPlaneEndpoint s))).

Lemma defaulted_sections c s d c1 d1 :
  SetDefaults_Cluster c d = (Ok c1, d1) → Spec c = Some s →
  ∃ s1, Spec c1 = Some s1 ∧ Spec_Network s1 = Some (network_of s) ∧ Spec_Kubernetes s1 = Some (kubernetes_of s)
    ∧ ControlPlaneEndpoint s1
      = Some (SetDefaults_ControlPlaneEndpointSpec (default empty_Endpoint (ControlPlaneEndpoint s))).
Proof.
  intros Hrun Hs. unfold SetDefaults_Cluster in Hrun. rewrite Hs in Hrun. inv_bind Hrun. injection Hrun as <- <-.
  inv_bind E. injection E as <- <-. rename E0 into Hspec. unfold SetDefaults_ClusterSpec in Hspec.
  repeat inv_bind Hspec. repeat case_match; try discriminate. injection Hspec as <- <-. by eexists.
Qed.

Lemma prepared_sections ifaces c s d c1 d1 :
  prepare ifaces c d = (Ok c1, d1) → Spec c = Some s →
  ∃ s1, Spec c1 = Some s1 ∧ Spec_Network s1 = Some (network_of s) ∧ Spec_Kubernetes s1 = Some (kubernetes_of s)
    ∧ ControlPlaneEndpoint s1 = Some (endpoint_of s).
Proof.
  intros Hrun Hs. unfold prepare in Hrun. inv_bind Hrun.
  unfold wrap in E. destruct (SetDefaults_Cluster c d) as [[a0|[]|] d2] eqn:Hdef; simplify_eq.
  destruct (defaulted_sections _ _ _ _ _ Hdef Hs) as (s2 & Hs2 & Hn & Hk & He).
  unfold ensureLocalHostIfEmpty, normalizeDeploymentTypes in Hrun. rewrite Hs2 in Hrun. simpl in Hrun.
  case_decide.
  - destruct (DetectPrimaryIP ifaces) as [ip|]; [|done]. inv_bind Hrun. injection Hrun as <- <-.
    eexists. split; [done|]. simpl. rewrite He. done.
  - injection Hrun as <- <-. eexists. split; [done|]. simpl. rewrite He. done.
Qed.

(** A message of the network section and of the Kubernetes section. *)
Lemma says_network c s n msg : Spec c = Some s → Spec_Network s = Some n →
  says (Validate_Network n "spec/network") msg → says (Validate_Cluster c) msg.
Proof.
  intros Hs Hn Hm. unfold Validate_Cluster, Validate_ClusterSpec. do 3 apply says_bind_r. rewrite Hs.
  apply says_bind_r, says_bind_names. intros names. do 4 apply says_bind_r.
  apply says_bind_l; [by rewrite Hn|]. grow; auto with kubexm.
Qed.

Lemma says_kubernetes c s k msg : Spec c = Some s → Spec_Kubernetes s = Some k →
  says (Validate_Kubernetes k "spec/kubernetes") msg → says (Validate_Cluster c) msg.
Proof.
  intros Hs Hn Hm. unfold Validate_Cluster, Validate_ClusterSpec. do 3 apply says_bind_r. rewrite Hs.
  apply says_bind_r, says_bind_names. intros names. do 2 apply says_bind_r.
  apply says_bind_l; [by rewrite Hn|]. grow; auto with kubexm.
Qed.

(** ** Choices that never load *)

(** The networks the controller of kube-ovn needs. *)
Definition controller_of (s : ClusterSpec) : KubeOvnControllerConfig :=
  default (MkKubeOvnController "" "" "") (KubeOvn_Controller (default empty_KubeOvn
    (KubeOvn (default NetworkTypes.empty_Network (Spec_Network s))))).

Definition controller_fields (k : KubeOvnControllerConfig) : list (string * string) :=
  [("joinCIDR", JoinCIDR k); ("nodeSwitchCIDR", NodeSwitchCIDR k); ("podDefaultSubnetCIDR", PodDefaultSubnetCIDR k)].

Definition required_message (field : string) : string :=
  "spec/network/kubeovn/controller." +:+ field +:+ ": is a required field".

Lemma says_required field msg : Sprintf0 (field +:+ ": is a required field") = msg → says (required_CIDR field "") msg.
Proof. intros Hm. unfold required_CIDR. rewrite decide_False by naive_solver. by apply says_Add. Qed.

Lemma grows_required field value : grows (required_CIDR field value).
Proof. unfold required_CIDR, check_CIDR. growing. Qed.
#[local] Hint Resolve grows_required : validation.

Lemma says_controller o k field : KubeOvn_Controller o = Some k → (field, "") ∈ controller_fields k →
  says (Validate_KubeOvnConfig o "spec/network/kubeovn") (required_message field).
Proof.
  intros Hk Hf. unfold Validate_KubeOvnConfig. apply says_bind_r. rewrite Hk.
  unfold controller_fields in Hf. rewrite !elem_of_cons, elem_of_nil in Hf.
  destruct Hf as [[= -> Hv]|[[= -> Hv]|[[= -> Hv]|[]]]]; rewrite <-Hv.
  - apply says_bind_l; [by apply says_required|growing].
  - apply says_bind_r, says_bind_l; [by apply says_required|growing].
  - do 2 apply says_bind_r. by apply says_required.
Qed.

(** The section of kube-ovn is looked at whatever the plugin. *)
Lemma says_kube_ovn n o msg : KubeOvn n = Some o → says (Validate_KubeOvnConfig o "spec/network/kubeovn") msg →
  says (Validate_Network n "spec/network") msg.
Proof.
  intros Ho Hm. unfold Validate_Network. do 4 apply says_bind_r.
  destruct (decide (Plugin n = CNITypeKubeOvn)) as [Hp|Hp].
  - apply says_bind_l; [|unfold Validate_KubeOvnConfig, Validate_HybridnetConfig, Validate_MultusConfig, required_CIDR,
      check_CIDR, check_mode; growing].
    unfold Validate_plugin. rewrite Hp, Ho. exact Hm.
  - do 2 apply says_bind_r. rewrite (bool_decide_true (Plugin n ≠ CNITypeKubeOvn)) by done. rewrite Ho.
    apply says_bind_l; [exact Hm|]. unfold Validate_HybridnetConfig. growing.
Qed.

(** C22: a configuration without the three networks of the kube-ovn controller never
    loads, with or without the validation of hosts and whichever network plugin it
    chooses: the section of kube-ovn is always filled in and always validated. *)
Theorem kube_ovn_networks_required fuel ifaces skip c d s field :
  Spec c = Some s → (field, "") ∈ controller_fields (controller_of s) →
  ¬ ∃ c' d', processClusterConfig fuel ifaces skip c d = Some (Ok c', d').
Proof.
  intros Hs Hf (c' & d' & (c1 & s1 & s' & Hp & Hv & Hs1 & _)%process_inv).
  destruct (prepared_sections _ _ _ _ _ _ Hp Hs) as (s2 & Hs2 & Hn & _). rewrite Hs1 in Hs2. simplify_eq.
  eapply (reported_rejects skip c1 (required_message field)); [|..|exact Hv].
  - eapply says_network; [done..|]. eapply says_kube_ovn; [done|]. by apply (says_controller _ (controller_of s)).
  - unfold controller_fields in Hf. rewrite !elem_of_cons, elem_of_nil in Hf.
    destruct Hf as [[= -> _]|[[= -> _]|[[= -> _]|[]]]]; intros _; split; intros Hc; vm_compute in Hc; exact Hc.
Qed.

(** C23: kube-proxy cannot be switched off: the defaults choose a mode before the
    validation requires that there is none. *)
Theorem disabled_kube_proxy_never_loads fuel ifaces skip c d s k kp :
  Spec c = Some s → Spec_Kubernetes s = Some k → KubeProxy k = Some kp → Enable kp = Some false →
  ¬ ∃ c' d', processClusterConfig fuel ifaces skip c d = Some (Ok c', d').
Proof.
  intros Hs Hk Hkp Hen (c' & d' & (c1 & s1 & s' & Hp & Hv & Hs1 & _)%process_inv).
  destruct (prepared_sections _ _ _ _ _ _ Hp Hs) as (s2 & Hs2 & _ & Hk2 & _). rewrite Hs1 in Hs2. simplify_eq.
  eapply (reported_rejects skip c1
    "spec/kubernetes/kubeProxy.mode: should be ' ' or empty when kube-proxy is disabled"); [|..|exact Hv].
  - eapply says_kubernetes; [done..|]. unfold Validate_Kubernetes. do 8 apply says_bind_r.
    apply says_bind_l; [|growing]. unfold kubernetes_of. rewrite Hk. simpl. rewrite Hkp. simpl.
    unfold Validate_KubeProxyConfig. simpl. rewrite Hen. simpl.
    rewrite bool_decide_true; [by apply says_Add|]. unfold or_text. by case_decide.
  - intros _. split; intros Hc; vm_compute in Hc; exact Hc.
Qed.

(** ** The networks of an accepted configuration *)

#[local] Hint Resolve grows_ClusterSpec : kubexm.

Lemma silent_network_section c s n v : Spec c = Some s → Spec_Network s = Some n →
  silent (Validate_Cluster c) v → silent (Validate_Network n "spec/network") v.
Proof.
  intros Hs Hn. unfold Validate_Cluster. silence. intros (_ & _ & _ & Hspec). unfold Validate_ClusterSpec in Hspec.
  rewrite Hs in Hspec. apply silent_bind in Hspec as [_ Hspec]; [|grow..].
  apply silent_bind_ok in Hspec as (names & _ & Hspec); [|grow..].
  do 4 (apply silent_bind in Hspec as [_ Hspec]; [|grow..]).
  apply silent_bind in Hspec as [Hnet _]; [|grow..]. by rewrite Hn in Hnet.
Qed.

Lemma silent_CIDR_field field value v : silent (valid_CIDR_field field value) v → is_Some (ParseCIDR value).
Proof.
  unfold valid_CIDR_field. case_match; [by intros ?%silent_Add|]. rewrite silent_vif. intros Hv.
  destruct (ParseCIDR value) eqn:Hp; [by eexists|]. exfalso. eapply silent_Add, Hv. unfold IsValidCIDR.
  rewrite bool_decide_false; [done|]. rewrite Hp. by intros [? ?].
Qed.

Lemma silent_required field value v : silent (required_CIDR field value) v → is_Some (ParseCIDR value).
Proof.
  unfold required_CIDR, check_CIDR. case_decide; [|by intros ?%silent_Add]. rewrite silent_vif. intros Hv.
  destruct (ParseCIDR value) eqn:Hp; [by eexists|]. exfalso. eapply silent_Add, Hv. by rewrite bool_decide_true.
Qed.

Lemma silent_controller o p v : silent (Validate_KubeOvnConfig o p) v →
  ∃ k, KubeOvn_Controller o = Some k ∧ Forall (λ field, is_Some (ParseCIDR field.2)) (controller_fields k).
Proof.
  unfold Validate_KubeOvnConfig. rewrite silent_bind by (unfold check_mode; growing). intros [_ Hk].
  destruct (KubeOvn_Controller o) as [k|]; [|by apply silent_Add in Hk]. exists k. split; [done|].
  rewrite !silent_bind in Hk by growing. destruct Hk as (Hj & Hn & Hd).
  apply silent_required in Hj, Hn, Hd. by repeat constructor.
Qed.

(** What the validation of the network section establishes. *)
Definition network_ok (n : NetworkSection) : Prop :=
  ∃ pods services o k, ParseCIDR (KubePodsCIDR n) = Some pods ∧ ParseCIDR (KubeServiceCIDR n) = Some services
    ∧ (∀ ip, ¬ (net_Contains pods ip ∧ net_Contains services ip))
    ∧ Plugin n ∈ SupportedCNIPlugins
    ∧ KubeOvn n = Some o ∧ KubeOvn_Controller o = Some k
    ∧ Forall (λ field, is_Some (ParseCIDR field.2)) (controller_fields k).

Lemma grows_KubeOvn o p : grows (Validate_KubeOvnConfig o p).
Proof. unfold Validate_KubeOvnConfig, check_mode. growing. Qed.
Lemma grows_Hybridnet o p : grows (Validate_HybridnetConfig o p).
Proof. unfold Validate_HybridnetConfig. growing. Qed.
Lemma grows_plugin n p : grows (Validate_plugin n p).
Proof.
  unfold Validate_plugin, Validate_CalicoConfig, Validate_calico_pool, Validate_CiliumConfig, Validate_FlannelConfig, check_CIDR,
    check_mode.
  pose proof grows_KubeOvn. pose proof grows_Hybridnet. growing.
Qed.
Lemma grows_CIDR_field field value : grows (valid_CIDR_field field value).
Proof. unfold valid_CIDR_field. growing. Qed.
Lemma grows_overlap p a b : grows (check_overlap p a b).
Proof. unfold check_overlap. growing. Qed.
#[local] Hint Resolve grows_KubeOvn grows_Hybridnet grows_plugin grows_CIDR_field grows_overlap : validation.

Lemma silent_Network n v : silent (Validate_Network (SetDefaults_Network n) "spec/network") v →
  network_ok (SetDefaults_Network n).
Proof.
  unfold Validate_Network. rewrite !silent_bind by (unfold Validate_MultusConfig; growing).
  intros (Hp & Hs & Hplugin & Hover & Hchosen & _ & Hovn & _).
  apply silent_CIDR_field in Hp as [pods Hpods]. apply silent_CIDR_field in Hs as [services Hservices].
  unfold check_overlap in Hover. rewrite Hpods, Hservices in Hover. rewrite silent_vif in Hover.
  assert (silent (Validate_KubeOvnConfig (SetDefaults_KubeOvnConfig (default empty_KubeOvn (KubeOvn n)))
    "spec/network/kubeovn") v) as Hk.
  { rewrite silent_vif in Hovn. destruct (decide (Plugin (SetDefaults_Network n) = CNITypeKubeOvn)) as [Hc|Hc].
    - unfold Validate_plugin in Hchosen. rewrite Hc in Hchosen. exact Hchosen.
    - apply Hovn. by rewrite bool_decide_true. }
  apply silent_controller in Hk as (k & Hk & Hfields).
  exists pods, services, (SetDefaults_KubeOvnConfig (default empty_KubeOvn (KubeOvn n))), k.
  split_and!; try done.
  - intros ip [Hi1%Is_true_true Hi2%Is_true_true].
    destruct (net_Contains pods (net_IP services) || net_Contains services (net_IP pods)) eqn:Hb;
      [by eapply silent_Add, Hover|].
    apply orb_false_iff in Hb as [Hb1 Hb2].
    apply (contains_disjoint pods services ip); eauto using ParseCIDR_prefixed.
  - rewrite silent_vif in Hplugin. unfold ContainsStringWithEmpty in Hplugin.
    destruct (bool_decide (Plugin (SetDefaults_Network n) = "")) eqn:He.
    + apply bool_decide_eq_true in He. simpl in He. unfold or_text in He. by case_decide.
    + destruct (slice_contains SupportedCNIPlugins (Plugin (SetDefaults_Network n))) eqn:Hin.
      * unfold slice_contains in Hin. by apply bool_decide_eq_true in Hin.
      * by apply silent_Add in Hplugin.
Qed.

(** C21: the networks of a configuration that has a spec and loads with the validation of
    hosts on ([SkipHostValidation] unset, for with it a message that has [.hosts] or
    [.roleGroups] in it is dropped): pods and services have a network
    each, no address lies in both, the plugin is one of the supported ones, and the
    three networks of the kube-ovn controller are networks. *)
Theorem loaded_networks fuel ifaces c d c' d' :
  processClusterConfig fuel ifaces false c d = Some (Ok c', d') → is_Some (Spec c) →
  ∃ s n, Spec c' = Some s ∧ Spec_Network s = Some n ∧ network_ok n.
Proof.
  intros (c1 & s1 & s' & Hp & Hv & Hs1 & Ha & ->)%process_inv [s Hs].
  destruct (prepared_sections _ _ _ _ _ _ Hp Hs) as (s2 & Hs2 & Hn & _). rewrite Hs1 in Hs2. simplify_eq.
  apply validate_silent in Hv. eapply silent_network_section, silent_Network in Hv; [|done..].
  exists s', (network_of s). split; [done|]. split; [|exact Hv].
  apply assign_roles_inv in Ha. destruct (RoleGroups s2); [destruct Ha as (? & _ & -> & _)|rewrite Ha]; exact Hn.
Qed.
End sections.

(** ** Hosts, groups, global, system and etcd sections return *)

(** [m] returns a result. *)
Definition answers {A} (m : V A) : Prop := ∀ v, ∃ a v', m v = (Ok a, v').

Lemma answers_seq {A} m (k : unit → V A) : returns m → answers (k tt) → answers (m ≫= k).
Proof.
  intros Hm Hk v. destruct (Hm v) as [v1 Hv]. destruct (Hk v1) as (a & v2 & Hv2). exists a, v2.
  unfold mbind, M_bind. by rewrite Hv.
Qed.

Lemma returns_names {A} (m : V A) (k : A → V unit) : answers m → (∀ a, returns (k a)) → returns (m ≫= k).
Proof.
  intros Hm Hk v. destruct (Hm v) as (a & v1 & Hv). destruct (Hk a v1) as [v2 Hv2]. exists v2.
  unfold mbind, M_bind. by rewrite Hv.
Qed.

Lemma returns_TaintSpec t p : returns (Validate_TaintSpec t p).
Proof. unfold Validate_TaintSpec. return_. Qed.

Lemma returns_internal_address p i raw : returns (Validate_internal_address p i raw).
Proof. unfold Validate_internal_address. return_. Qed.

#[local] Hint Resolve returns_TaintSpec returns_internal_address : validation.

Lemma returns_HostSpec h p : returns (Validate_HostSpec h p).
Proof. unfold Validate_HostSpec. return_. Qed.

Lemma hosts_return p i names addrs hosts : answers (Validate_hosts p i names addrs hosts).
Proof.
  revert i names addrs. induction hosts as [|h hosts IH]; intros i names addrs; [by eexists _, _|].
  cbn [Validate_hosts]. apply answers_seq; [apply returns_HostSpec|].
  do 2 (apply answers_seq; [return_|]). apply IH.
Qed.

Lemma returns_GlobalSpec g p : returns (Validate_GlobalSpec g p).
Proof. unfold Validate_GlobalSpec. return_. Qed.

Lemma returns_SystemSpec `{GoRange} s p : returns (Validate_SystemSpec s p).
Proof. unfold Validate_SystemSpec. return_. Qed.

Lemma returns_Etcd c p : returns (Validate_Etcd c p).
Proof.
  unfold Validate_Etcd, Validate_ExternalEtcdConfig, Validate_EtcdClusterConfig, Validate_EtcdBackupConfig,
    Validate_EtcdPerformanceTuning. return_.
Qed.

Lemma returns_role_groups `{GoRange} p names g : returns (Validate_role_groups p names g).
Proof. unfold Validate_role_groups, validateRoleGroup. return_. Qed.

(** ** The endpoint *)

(** Following the pointers of the section ends at a nil pointer. *)
Definition nil_followed (ha : option HighAvailability) : bool :=
  match ha with
  | None => true
  | Some ha =>
      match HA_Enabled ha with
      | None => true
      | Some false => false
      | Some true => match External ha with Some e => bool_decide (External_Enabled e = None) | None => true end
      end
  end.

Lemma external_ha_enabled_cases e :
  if nil_followed (Endpoint_HighAvailability e) then panics (external_ha_enabled e)
  else ∃ b, ∀ v, external_ha_enabled e v = (Ok b, v).
Proof.
  unfold external_ha_enabled, nil_followed, panics.
  destruct (Endpoint_HighAvailability e) as [[[[]|] [[[en|] ? ? ? ? ? ?]|] i]|]; simpl; try done; by eexists.
Qed.

Lemma endpoint_validation e p :
  if nil_followed (Endpoint_HighAvailability e) then panics (Validate_ControlPlaneEndpointSpec e p)
  else returns (Validate_ControlPlaneEndpointSpec e p).
Proof.
  pose proof (external_ha_enabled_cases e) as He. unfold Validate_ControlPlaneEndpointSpec.
  destruct (nil_followed _).
  - do 10 (apply panics_bind_r; intros _). by apply panics_bind_l.
  - destruct He as [b Hb]. do 10 (apply returns_bind; [return_|]).
    apply returns_names; [intros v; eauto|return_].
Qed.

(** The endpoints whose validation panics, as they are written: there is no usable
    external load balancer (a type together with the text of an IP address) that would
    make a section, and the section is missing, or has no part for the external one
    while something enables it. *)
Definition no_external_section (e : ControlPlaneEndpointSpec) : Prop :=
  ¬ (Address e ≠ "" ∧ Helpers.IsValidIP (Address e) = true ∧ ExternalLoadBalancerType e ≠ "")
  ∧ match Endpoint_HighAvailability e with
    | None => True
    | Some ha => External ha = None
        ∧ (ExternalLoadBalancerType e = "" ∨ InternalLoadBalancerType e ≠ "" ∨ HA_Enabled ha = Some true)
    end.

Lemma nil_after_defaults ha : nil_followed (Some (SetDefaults_HighAvailabilityConfig ha)) = true
  ↔ HA_Enabled ha = Some true ∧ External ha = None.
Proof.
  destruct ha as [[[]|] ext int]; [rewrite HA_enabled| |];
    [|unfold SetDefaults_HighAvailabilityConfig; destruct ext as [[[[]|] ? ? ? ? ? ?]|], int as [[[[]|] ? ? ?]|]; simpl; naive_solver..].
  destruct ext as [x|]; simpl; [|naive_solver]. split; [|naive_solver]. rewrite bool_decide_eq_true.
  unfold give_way. destruct (bool_decide _ && _).
  - by destruct (SetDefaults_ExternalLoadBalancerConfig x).
  - destruct x. unfold SetDefaults_ExternalLoadBalancerConfig. by repeat case_match.
Qed.

Lemma nil_normalized e : nil_followed (Endpoint_HighAvailability (normalize_endpoint e))
  = nil_followed (Endpoint_HighAvailability e).
Proof. by destruct e as [? ? ? ? ? ? [[? [[]|] ?]|]]. Qed.

Lemma nil_external a ty ha :
  nil_followed (Some (SetDefaults_HighAvailabilityConfig (enable_external a ty ha))) = false.
Proof.
  apply not_true_is_false. intros [_ He]%nil_after_defaults. rewrite enable_external_set in He. by simpl in He.
Qed.

Lemma nil_both a ty ty' ha :
  nil_followed (Some (SetDefaults_HighAvailabilityConfig (enable_internal ty' (Some (enable_external a ty ha))))) = false.
Proof.
  apply not_true_is_false. intros [_ He]%nil_after_defaults. rewrite enable_internal_set, enable_external_set in He. by simpl in He.
Qed.

Lemma nil_internal ty ha :
  nil_followed (Some (SetDefaults_HighAvailabilityConfig (enable_internal ty ha))) = true
  ↔ match ha with None => True | Some ha => External ha = None end.
Proof. rewrite nil_after_defaults, enable_internal_set. destruct ha as [ha|]; simpl; naive_solver. Qed.

Lemma nil_endpoint e : nil_followed (Endpoint_HighAvailability (SetDefaults_ControlPlaneEndpointSpec e)) = true
  ↔ no_external_section e.
Proof.
  destruct e as [dom addr port dns ext int ha]. unfold SetDefaults_ControlPlaneEndpointSpec, no_external_section.
  cbn [Address ExternalLoadBalancerType InternalLoadBalancerType Endpoint_HighAvailability].
  assert ((addr ≠ "" ∧ Helpers.IsValidIP addr = true ∧ ext ≠ "")
    ↔ bool_decide (addr ≠ "") && Helpers.IsValidIP addr && bool_decide (ext ≠ "") = true) as Husable
    by (rewrite !andb_true_iff, !bool_decide_eq_true; tauto).
  destruct (_ && _ && bool_decide (ext ≠ "")); case_decide as Hint; cbn [fmap option_fmap option_map Endpoint_HighAvailability].
  - rewrite nil_both. naive_solver.
  - rewrite nil_external. naive_solver.
  - rewrite nil_internal. destruct ha as [ha|]; [|naive_solver].
    assert (ext = "" ∨ int ≠ "") as Heff; [|naive_solver].
    destruct (decide (ext = "")); [by left|]. rewrite (bool_decide_false (ext = "")) in Hint by done. by right.
  - destruct (decide (ext = "")) as [->|Hext].
    { destruct (decide (int = "")) as [->|]; [by rewrite !bool_decide_true in Hint|].
      rewrite (bool_decide_false (int = "")), andb_false_r in Hint by done. done. }
    rewrite (bool_decide_false (ext = "")) in Hint by done. simpl in Hint. subst.
    destruct ha as [ha|]; [|naive_solver].
    cbn [fmap option_fmap option_map Endpoint_HighAvailability]. rewrite nil_after_defaults. naive_solver.
Qed.

(** ** The configuration *)

Section panics.
Context `{GoRange} `{Fmt} `{OS}.
#[local] Existing Instance ApiSections.

Lemma returns_vopt {A} (x : option A) body absent :
  (∀ y, x = Some y → returns (body y)) → returns absent → returns (vopt x body absent).
Proof. destruct x; simpl; auto. Qed.

#[local] Hint Resolve returns_role_groups returns_GlobalSpec returns_SystemSpec returns_Etcd returns_Network
  returns_DNS returns_Storage returns_Registry returns_Addon returns_Preflight returns_Extra : validation.

(** Everything but the endpoint returns. *)
Lemma Validate_Cluster_panics c s k e :
  Spec c = Some s → Spec_Kubernetes s = Some (KubernetesTypes.SetDefaults_Kubernetes k) → ControlPlaneEndpoint s = Some e →
  if nil_followed (Endpoint_HighAvailability e) then panics (Validate_Cluster c) else returns (Validate_Cluster c).
Proof.
  intros Hs Hk He. pose proof (endpoint_validation e) as Hend. unfold Validate_Cluster, Validate_ClusterSpec.
  rewrite Hs. destruct (nil_followed _).
  - do 3 (apply panics_bind_r; intros _). do 7 (apply panics_bind_r; intros ?). apply panics_bind_l. rewrite He.
    apply Hend.
  - do 3 (apply returns_bind; [return_|]). apply returns_bind; [return_|].
    apply returns_names; [apply hosts_return|]. intros names. rewrite Hk, He.
    repeat (apply returns_bind; [first [apply Hend | apply returns_Kubernetes
      | apply returns_vopt; [intros; simpl; auto with validation|return_] | simpl; return_]|]).
    apply returns_vopt; [intros; simpl; auto with validation|return_].
Qed.

Lemma validate_Panic skip c : panics (Validate_Cluster c) → validate skip c = Panic.
Proof.
  intros Hp. specialize (Hp []). unfold validate. by destruct (Validate_Cluster c []) as [[]]; simplify_eq/=.
Qed.

Lemma validate_returns skip c : returns (Validate_Cluster c) → validate skip c ≠ Panic.
Proof.
  intros Hr. destruct (Hr []) as [v Hv]. unfold validate. rewrite Hv. by case_match.
Qed.

(** C18: the validation of a configuration follows a nil pointer exactly when its
    endpoint, as it is written, has no external load balancer to look at, and then
    loading panics; every other section is validated without a panic, whatever it
    holds. *)
Theorem validation_panics_iff fuel ifaces skip c s d c1 d1 :
  prepare ifaces c d = (Ok c1, d1) → Spec c = Some s →
  let bad := no_external_section (default empty_Endpoint (ControlPlaneEndpoint s)) in
  (validate skip c1 = Panic ↔ bad) ∧ (bad → processClusterConfig fuel ifaces skip c d = Some (Panic, d1)).
Proof.
  intros Hp Hs bad. destruct (prepared_sections _ _ _ _ _ _ Hp Hs) as (s1 & Hs1 & _ & Hk & He).
  pose proof (Validate_Cluster_panics _ _ _ _ Hs1 Hk He) as Hv.
  assert (validate skip c1 = Panic ↔ bad) as Hiff.
  { unfold bad. rewrite <-nil_endpoint, <-nil_normalized. unfold endpoint_of in Hv. destruct (nil_followed _).
    - split; [done|]. intros _. by apply validate_Panic.
    - split; [|done]. intros Hpanic. by apply validate_returns in Hpanic. }
  split; [done|]. intros Hpanic%Hiff. unfold processClusterConfig. by rewrite Hp, Hpanic.
Qed.
End panics.
