(* ===== verification/SectionWitnesses.v ===== *)
(** The theorems about the sections at concrete configurations. *)
From S2P Require Import Prelude.
From S2P Require Import GoText.
From S2P Require Import GoNet.
From S2P Require Import Network.
From S2P Require Import HostRange.
From S2P Require Import ValidationErrors.
From S2P Require Import LoadBalancerTypes.
From S2P Require Import EndpointTypes.
From S2P Require Import ClusterTypes.
From S2P Require Import ConfigLoad.
From S2P Require Import ConfigLoadSpec.
From S2P Require Import SectionBase.
From S2P Require Import NetworkTypes.
From S2P Require Import RuntimeTypes.
From S2P Require Import KubernetesTypes.
From S2P Require Import ServiceTypes.
From S2P Require Import ApiSections.
From S2P Require Import SectionSpec.

#[local] Instance section_range : GoRange := range_forward.
#[local] Instance section_fmt : Fmt := plain_fmt.
#[local] Existing Instance ApiSections.
#[local] Instance section_os : OS := {|
  disk := unit; os_Stat _ _ := IsDirectory; os_MkdirAll _ d := (Ok tt, d); program_dir := Some "/opt/kubexm";
|}.

Definition section_disk : @disk section_os := tt.

Definition section_host : HostSpec := MkHost "m1" "10.0.0.1" "" 0 "" "" "" "" None [] "" "" 0 [] None.
Definition section_global : GlobalSpec := MkGlobal "" 0 "secret" "" "" 0 "" "" false false false false.
Definition kubexm_kh_endpoint : ControlPlaneEndpointSpec := MkEndpoint "" "10.0.0.100" 0 None "kubexm-kh" "" None.

(** One machine; the sections under test are the arguments. *)
Definition section_spec (k : KubernetesSection) (n : NetworkSection) (e : option ControlPlaneEndpointSpec) : ClusterSpec :=
  MkClusterSpec _ [section_host] (Some (MkRoleGroups ["m1"] ["m1"] ["m1"] [] [] [])) (Some section_global) None
    (Some (k : ClusterTypes.Kubernetes)) None None (Some (n : ClusterTypes.Network)) e None None None None [] None None None.

Definition section_cluster k n e : Cluster := MkCluster _ "" "" "demo" (Some (section_spec k n e)).

Definition plain_kubernetes : KubernetesSection :=
  MkKubernetes "" "v1.28.2" "demo" "" None None None None None None None.
Definition no_proxy : KubeProxyConfig := MkKubeProxy (Some false) "" None None None None.
Definition no_proxy_kubernetes : KubernetesSection :=
  MkKubernetes "" "v1.28.2" "demo" "" None None None None None (Some no_proxy) None.

Definition plain_network : NetworkSection :=
  MkNetwork "" "10.244.0.0/16" "10.96.0.0/12" None None None None None None.
Definition kube_ovn_controller : KubeOvnControllerConfig :=
  MkKubeOvnController "100.64.0.0/16" "100.65.0.0/16" "10.16.0.0/16".
Definition full_network : NetworkSection :=
  MkNetwork "" "10.244.0.0/16" "10.96.0.0/12" None None None
    (Some (MkKubeOvn empty_Source None (Some kube_ovn_controller) None)) None None.

Definition section_load (c : Cluster) : option (outcome load_error Cluster * disk) :=
  processClusterConfig 9 None false c section_disk.

Definition section_loaded (c : Cluster) : Cluster := match section_load c with Some (Ok c, _) => c | _ => c end.

Definition full_cluster : Cluster := section_cluster plain_kubernetes full_network (Some kubexm_kh_endpoint).

(** The messages of a configuration that is rejected; [None] when it loads. *)
Definition section_messages (c : Cluster) : option (list string) :=
  match section_load c with Some (Err (ValidationFailed verrs), _) => Some verrs | _ => None end.

Definition loads (c : Cluster) : bool := match section_load c with Some (Ok _, _) => true | _ => false end.

Lemma loads_loaded c : loads c = true →
  processClusterConfig 9 None false c section_disk = Some (Ok (section_loaded c), section_disk).
Proof. change (processClusterConfig 9 None false c section_disk) with (section_load c). unfold loads, section_loaded. by destruct (section_load c) as [[[c'|e|] []]|]. Qed.

Lemma full_cluster_loads : loads full_cluster = true.
Proof. vm_compute. reflexivity. Qed.

Example plain_network_rejected :
  section_messages (section_cluster plain_kubernetes plain_network (Some kubexm_kh_endpoint))
  = Some (required_message <$> ["joinCIDR"; "nodeSwitchCIDR"; "podDefaultSubnetCIDR"]).
Proof. vm_compute. reflexivity. Qed.

(** The services inside the network of the pods. *)
Example overlap_rejected :
  section_messages (section_cluster plain_kubernetes
    (MkNetwork "" "10.96.0.0/12" "10.100.0.0/16" None None None
      (Some (MkKubeOvn empty_Source None (Some kube_ovn_controller) None)) None None) (Some kubexm_kh_endpoint))
  = Some ["spec/network: kubePodsCIDR (10.96.0.0/12) and kubeServiceCIDR (10.100.0.0/16) must not overlap"].
Proof. vm_compute. reflexivity. Qed.

(** The result of preparing or defaulting, which is known to be one. *)
Definition result_of {E A S} (zero : A) (r : outcome E A * S) : A := match r with (Ok a, _) => a | _ => zero end.
Definition is_ok {E A S} (r : outcome E A * S) : bool := match r with (Ok _, _) => true | _ => false end.

Lemma is_ok_result {E A} (zero : A) (r : outcome E A * @disk section_os) :
  is_ok r = true → r = (Ok (result_of zero r), section_disk).
Proof. by destruct r as [[a|e|] []]. Qed.

Lemma section_mkdir p (d : @disk section_os) : (os_MkdirAll p d).1 ≠ Panic.
Proof. discriminate. Qed.

Definition working_dir (c : Cluster) : string := default "" (WorkDir <$> (Spec c ≫= Global)).
Lemma working_dir_of c s g : Spec c = Some s → Global s = Some g → WorkDir g = working_dir c.
Proof. unfold working_dir. intros Hs Hg. rewrite Hs. simpl. by rewrite Hg. Qed.

Lemma working_dir_known c s g : working_dir c <> "" → Spec c = Some s → Global s = Some g → WorkDir g ≠ "".
Proof. intros Hd Hs Hg Hw. apply Hd. by rewrite <-(working_dir_of c s g Hs Hg). Qed.

Definition full_defaulted : Cluster := result_of full_cluster (SetDefaults_Cluster full_cluster section_disk).

Lemma full_working_dir : working_dir full_defaulted ≠ "".
Proof. vm_compute. discriminate. Qed.

Lemma SetDefaults_Cluster_idempotent_witness :
  ∃ d', SetDefaults_Cluster full_defaulted section_disk = (Ok full_defaulted, d').
Proof.
  apply (SetDefaults_Cluster_idempotent section_mkdir full_cluster section_disk full_defaulted section_disk).
  - apply is_ok_result. vm_compute. reflexivity.
  - intros s g Hs Hg. apply (working_dir_known full_defaulted s g full_working_dir Hs Hg).
Defined.

Lemma loaded_networks_witness :
  ∃ s n, Spec (section_loaded full_cluster) = Some s ∧ Spec_Network s = Some n ∧ network_ok n.
Proof.
  apply (loaded_networks 9 None full_cluster section_disk (section_loaded full_cluster) section_disk).
  - exact (loads_loaded full_cluster full_cluster_loads).
  - by eexists.
Defined.

(** Calico is chosen, and kube-ovn lacks its networks. *)
Lemma kube_ovn_networks_required_witness :
  ¬ ∃ c' d', processClusterConfig 9 None true
    (section_cluster plain_kubernetes plain_network (Some kubexm_kh_endpoint)) section_disk = Some (Ok c', d').
Proof.
  apply (kube_ovn_networks_required 9 None true _ section_disk
    (section_spec plain_kubernetes plain_network (Some kubexm_kh_endpoint)) "joinCIDR").
  - reflexivity.
  - apply (list_elem_of_lookup_2 _ 0). reflexivity.
Defined.

Lemma disabled_kube_proxy_never_loads_witness :
  ¬ ∃ c' d', processClusterConfig 9 None true
    (section_cluster no_proxy_kubernetes full_network (Some kubexm_kh_endpoint)) section_disk = Some (Ok c', d').
Proof.
  apply (disabled_kube_proxy_never_loads 9 None true _ section_disk
    (section_spec no_proxy_kubernetes full_network (Some kubexm_kh_endpoint)) no_proxy_kubernetes no_proxy); reflexivity.
Defined.

Definition internal_cluster : Cluster := section_cluster plain_kubernetes full_network None.
Definition internal_prepared : Cluster := result_of internal_cluster (prepare None internal_cluster section_disk).

Lemma internal_prepares : prepare None internal_cluster section_disk = (Ok internal_prepared, section_disk).
Proof. apply is_ok_result. vm_compute. reflexivity. Qed.

Lemma validation_panics_iff_witness :
  let bad := no_external_section empty_Endpoint in
  bad ∧ (validate false internal_prepared = Panic ↔ bad)
  ∧ (bad → processClusterConfig 9 None false internal_cluster section_disk = Some (Panic, section_disk)).
Proof.
  split; [by split; [intros (Ha & _)|]|].
  apply (validation_panics_iff 9 None false internal_cluster
    (section_spec plain_kubernetes full_network None) section_disk internal_prepared section_disk).
  - exact internal_prepares.
  - reflexivity.
Defined.

(** With an external load balancer the same configuration loads. *)
Example external_validates : ¬ no_external_section kubexm_kh_endpoint.
Proof. intros [Hno _]. apply Hno. split_and!; vm_compute; done. Qed.
