(* ===== verification/Cluster.v ===== *)
(** The cluster configuration: the part of [v1alpha1.Cluster]
    ([src/internal/apis/kubexms/v1alpha1/]) that planning reads.  A pointer field is
    an option, [None] when nil; fields no modelled code reads are left out. *)
From S2P Require Import Prelude.

(** ** Data *)

(** [ExternalLoadBalancerConfig] and [InternalLoadBalancerConfig]. *)
Record LoadBalancerConfig : Type := MkLoadBalancer {
  lb_Enabled : option bool;
  lb_Type : string;
}.

Record HighAvailability : Type := MkHighAvailability {
  ha_Enabled : option bool;
  ha_External : option LoadBalancerConfig;
  ha_Internal : option LoadBalancerConfig;
}.

Record ControlPlaneEndpointSpec : Type := MkEndpoint {
  ep_HighAvailability : option HighAvailability;
}.

Record ContainerRuntime : Type := MkContainerRuntime {
  cr_Type : string;
}.

Record Kubernetes : Type := MkKubernetes {
  k8s_Type : string;
  k8s_ContainerRuntime : option ContainerRuntime;
}.

(** [etcd_External]: whether [External] is set. *)
Record Etcd : Type := MkEtcd {
  etcd_Type : string;
  etcd_External : bool;
}.

(** [net_Multus]: [Multus], its [Installation] and the [Enabled] field in it. *)
Record Network : Type := MkNetwork {
  net_Plugin : string;
  net_Multus : option (option (option bool));
}.

(** [dns_NodeLocalDNS] is the [Enabled] field of [NodeLocalDNS]. *)
Record DNS : Type := MkDNS {
  dns_NodeLocalDNS : option (option bool);
}.

(** [gw_IngressNginx] is the [Enabled] field of [IngressNginx]. *)
Record Gateway : Type := MkGateway {
  gw_IngressNginx : option (option bool);
}.

Record System : Type := MkSystem {
  sys_NTPServers : list string;
}.

(** A storage provider is the [Enabled] field of its configuration. *)
Record Storage : Type := MkStorage {
  st_OpenEBS : option (option bool);
  st_NFS : option (option bool);
  st_RookCeph : option (option bool);
  st_Longhorn : option (option bool);
}.

Record ChartSource : Type := MkChartSource {
  chart_Name : string;
  chart_Repo : string;
  chart_Path : string;
  chart_Version : string;
  chart_ValuesFile : string;
  chart_Values : list string;
}.

(** [as_Yaml]: whether [Yaml] is set. *)
Record AddonSource : Type := MkAddonSource {
  as_Namespace : string;
  as_Chart : option ChartSource;
  as_Yaml : bool;
}.

Record Addon : Type := MkAddon {
  addon_Name : string;
  addon_Enabled : option bool;
  addon_Sources : list AddonSource;
}.

Record LocalRegistry : Type := MkLocalRegistry {
  lr_Type : string;
  lr_DeleteDataOnClean : bool;
}.

(** [reg_PrivateRegistry] is the [PrivateRegistry] of [MirroringAndRewriting]. *)
Record Registry : Type := MkRegistry {
  reg_LocalDeployment : option LocalRegistry;
  reg_PrivateRegistry : option string;
}.

Record GlobalSpec : Type := MkGlobalSpec {
  global_SkipPreflight : bool;
}.

Record Preflight : Type := MkPreflight {
  pf_SkipChecks : list string;
}.

Record ClusterSpec : Type := MkClusterSpec {
  spec_Global : option GlobalSpec;
  spec_Kubernetes : option Kubernetes;
  spec_Etcd : option Etcd;
  spec_Network : option Network;
  spec_ControlPlaneEndpoint : option ControlPlaneEndpointSpec;
  spec_Storage : option Storage;
  spec_Registry : option Registry;
  spec_Addons : list Addon;
  spec_Preflight : option Preflight;
  spec_DNS : option DNS;
  spec_Gateway : option Gateway;
  spec_System : option System;
}.

(** [cl_Name] is the name in the metadata. *)
Record Cluster : Type := MkCluster {
  cl_Name : string;
  cl_Spec : option ClusterSpec;
}.

(** ** Constants of [src/internal/common/] *)

Definition KubernetesDeploymentTypeKubeadm : string := "kubeadm".
Definition KubernetesDeploymentTypeKubexm : string := "kubexm".
Definition EtcdDeploymentTypeKubeadm : string := "kubeadm".
Definition EtcdDeploymentTypeExternal : string := "external".
Definition CNITypeCalico : string := "calico".
Definition CNITypeFlannel : string := "flannel".
Definition CNITypeCilium : string := "cilium".
Definition CNITypeKubeOvn : string := "kube-ovn".
Definition CNITypeMultus : string := "multus".
Definition CNITypeHybridnet : string := "hybridnet".
Definition ExternalLBTypeKubeVIP : string := "kube-vip".
Definition ExternalLBTypeKubexmKH : string := "kubexm-kh".
Definition ExternalLBTypeKubexmKN : string := "kubexm-kn".
Definition InternalLBTypeHAProxy : string := "haproxy".
Definition InternalLBTypeNginx : string := "nginx".
Definition InternalLBTypeKubeVIP : string := "kube-vip".

(** [x != nil && *x] *)
Definition is_true_ptr (x : option bool) : bool := match x with Some true => true | _ => false end.

(** [s.P != nil && s.P.Enabled != nil && *s.P.Enabled] *)
Definition provider_enabled (p : option (option bool)) : bool :=
  match p with Some e => is_true_ptr e | None => false end.

Definition lb_enabled (lb : option LoadBalancerConfig) : bool :=
  match lb with Some lb => is_true_ptr (lb_Enabled lb) | None => false end.

(** A nil [HighAvailability] and a nil or false [Enabled] in it are alike. *)
Definition ha_enabled (ha : option HighAvailability) : bool :=
  match ha with Some ha => is_true_ptr (ha_Enabled ha) | None => false end.
