(* ===== verification/Context.v ===== *)
(** Scoped execution state: the state bags of [src/internal/runtime/state.go] and
    the contexts of [context.go].

    Contexts are copied by value but share their state bags, so a bag is a
    location in a heap and a context holds locations; [None] is a nil bag. *)
From S2P Require Import Prelude.
From S2P Require Import Values.
From S2P Require Import Result.
From S2P Require Import Cluster.
From S2P Require Import GoPath.

(** ** State bags *)

Abbreviation loc := nat (only parsing).

Record Heap : Type := MkHeap {
  h_bags : gmap loc (gmap string any);
  h_next : loc;
}.

Definition empty_heap : Heap := MkHeap ∅ 0.

(** Every allocated location is below the next one. *)
Definition heap_ok (h : Heap) : Prop := ∀ l, is_Some (h_bags h !! l) → l < h_next h.

Definition NewStateBag (h : Heap) : loc * Heap :=
  (h_next h, MkHeap (<[h_next h := ∅]> (h_bags h)) (S (h_next h))).

Definition bag_at (l : loc) (h : Heap) : gmap string any := default ∅ (h_bags h !! l).

Definition update_bag (l : loc) (f : gmap string any → gmap string any) (h : Heap) : Heap :=
  MkHeap (<[l := f (bag_at l h)]> (h_bags h)) (h_next h).

Definition stateBag_Set (l : loc) (key : string) (value : any) (h : Heap) : Heap :=
  update_bag l (insert key value) h.

(** A missing key reads as nil and [false]. *)
Definition stateBag_Get (l : loc) (key : string) (h : Heap) : any * bool :=
  match bag_at l h !! key with Some v => (v, true) | None => (ANil, false) end.

Definition stateBag_GetString (l : loc) (key : string) (h : Heap) : string * bool :=
  let '(val, ok) := stateBag_Get l key h in if ok then as_string val else ("", false).

Definition stateBag_GetInt (l : loc) (key : string) (h : Heap) : Z * bool :=
  let '(val, ok) := stateBag_Get l key h in if ok then as_int val else (0%Z, false).

Definition stateBag_GetBool (l : loc) (key : string) (h : Heap) : bool * bool :=
  let '(val, ok) := stateBag_Get l key h in if ok then as_bool val else (false, false).

Definition stateBag_GetAll (l : loc) (h : Heap) : gmap string any := bag_at l h.

Definition stateBag_Delete (l : loc) (key : string) (h : Heap) : Heap :=
  update_bag l (delete key) h.

(** ** Contexts *)

(** A [context.Context]: a chain of derivations. *)
Inductive GoContext : Type :=
| Background
| GoWithTimeout (parent : GoContext) (d : Z)
| GoGroup (parent : GoContext).

(** [Conn] and [Facts] are handles of values of other packages. *)
Record HostRuntimeInfo : Type := MkHostInfo {
  hri_Host : option Host;
  hri_Conn : option string;
  hri_Facts : option string;
}.

(** The fields that no operation below changes. *)
Record Globals : Type := MkGlobals {
  gl_ClusterConfig : option Cluster;
  gl_GlobalWorkDir : string;
  gl_GlobalVerbose : bool;
  gl_GlobalIgnoreErr : bool;
  gl_GlobalConnectionTimeout : Z;
  gl_GlobalOfflineMode : bool;
  gl_hostInfoMap : gomap HostRuntimeInfo;
  gl_controlNode : option Host;
  gl_RunID : string;
}.

Record Scopes : Type := MkScopes {
  sc_GlobalState : option loc;
  sc_PipelineState : option loc;
  sc_ModuleState : option loc;
  sc_TaskState : option loc;
}.

Record Context : Type := MkContext {
  ctx_GoCtx : GoContext;
  ctx_cancelFn : bool;
  ctx_globals : Globals;
  ctx_currentHost : option Host;
  ctx_stepExecutionID : string;
  ctx_executionStartTime : Time;
  ctx_scopes : Scopes;
  ctx_currentPipelineName : string;
  ctx_currentModuleName : string;
  ctx_currentTaskName : string;
  ctx_stepResult : option StepResult;
}.

Definition ctx_set_scopes (s : Scopes) (c : Context) : Context :=
  MkContext (ctx_GoCtx c) (ctx_cancelFn c) (ctx_globals c) (ctx_currentHost c)
    (ctx_stepExecutionID c) (ctx_executionStartTime c) s (ctx_currentPipelineName c)
    (ctx_currentModuleName c) (ctx_currentTaskName c) (ctx_stepResult c).

Definition ctx_set_names (pipeline module task : string) (c : Context) : Context :=
  MkContext (ctx_GoCtx c) (ctx_cancelFn c) (ctx_globals c) (ctx_currentHost c)
    (ctx_stepExecutionID c) (ctx_executionStartTime c) (ctx_scopes c) pipeline module task
    (ctx_stepResult c).

Definition ctx_set_go (g : GoContext) (cancel : bool) (c : Context) : Context :=
  MkContext g cancel (ctx_globals c) (ctx_currentHost c)
    (ctx_stepExecutionID c) (ctx_executionStartTime c) (ctx_scopes c) (ctx_currentPipelineName c)
    (ctx_currentModuleName c) (ctx_currentTaskName c) (ctx_stepResult c).

(** *** Derived contexts *)

Definition ForHost (rootCtx : Context) (host : option Host) : Context :=
  MkContext (ctx_GoCtx rootCtx) (ctx_cancelFn rootCtx) (ctx_globals rootCtx) host
    "" 0 (ctx_scopes rootCtx) (ctx_currentPipelineName rootCtx)
    (ctx_currentModuleName rootCtx) (ctx_currentTaskName rootCtx) (ctx_stepResult rootCtx).

(** [if bag == nil { bag = NewStateBag() }] *)
Definition ensure_bag (o : option loc) (h : Heap) : option loc * Heap :=
  match o with
  | Some l => (Some l, h)
  | None => let '(l, h) := NewStateBag h in (Some l, h)
  end.

Definition ForPipeline (pipelineName : string) (c : Context) (h : Heap) : Context * Heap :=
  let s := ctx_scopes c in
  let '(bag, h) := ensure_bag (sc_PipelineState s) h in
  (ctx_set_scopes (MkScopes (sc_GlobalState s) bag (sc_ModuleState s) (sc_TaskState s))
     (ctx_set_names pipelineName (ctx_currentModuleName c) (ctx_currentTaskName c) c), h).

Definition ForModule (moduleName : string) (c : Context) (h : Heap) : Context * Heap :=
  let s := ctx_scopes c in
  let '(bag, h) := ensure_bag (sc_ModuleState s) h in
  (ctx_set_scopes (MkScopes (sc_GlobalState s) (sc_PipelineState s) bag (sc_TaskState s))
     (ctx_set_names (ctx_currentPipelineName c) moduleName (ctx_currentTaskName c) c), h).

Definition ForTask (taskName : string) (c : Context) (h : Heap) : Context * Heap :=
  let s := ctx_scopes c in
  let '(bag, h) := ensure_bag (sc_TaskState s) h in
  (ctx_set_scopes (MkScopes (sc_GlobalState s) (sc_PipelineState s) (sc_ModuleState s) bag)
     (ctx_set_names (ctx_currentPipelineName c) (ctx_currentModuleName c) taskName c), h).

Definition WithGoContext (goCtx : GoContext) (c : Context) : Context :=
  ctx_set_go goCtx (ctx_cancelFn c) c.

Definition WithTimeout (d : Z) (c : Context) : Context :=
  if decide (d <= 0)%Z then c
  else ctx_set_go (GoWithTimeout (ctx_GoCtx c) d) true c.

Definition Context_Cancel (c : Context) : Context :=
  if ctx_cancelFn c then ctx_set_go (ctx_GoCtx c) false c else c.

Definition GetFromRuntimeConfig (key : string) (c : Context) (h : Heap) : any * bool :=
  match sc_TaskState (ctx_scopes c) with
  | None => (ANil, false)
  | Some l => stateBag_Get l key h
  end.

(** [for k, v := range config { bag.Set(k, v) }] *)
Definition set_all (l : loc) (kvs : list (string * any)) (h : Heap) : Heap :=
  foldl (λ h '(k, v), stateBag_Set l k v h) h kvs.

Definition SetRuntimeConfig `{GoRange} (config : gmap string any) (c : Context) (h : Heap) : Context * Heap :=
  let s := ctx_scopes c in
  let '(bag, h) := ensure_bag (sc_TaskState s) h in
  (ctx_set_scopes (MkScopes (sc_GlobalState s) (sc_PipelineState s) (sc_ModuleState s) bag) c,
   match bag with Some l => set_all l (range 60 config) h | None => h end).

(** *** Export and Import *)

Inductive context_error : Type :=
| StateNotInitialized (scope : string)
| UnknownScope (scope : string)
| HostInfoMapNil
| HostNil
| NoRuntimeInfo (host : string)
| NoFacts (host : string)
| ControlNodeNil
| NoCurrentHost
| NoCurrentRuntimeInfo (host : string)
| NoConnector (host : string).

(** The bag a scope name selects; [None] for an unknown name. *)
Definition scope_bag (scope : string) (s : Scopes) : option (option loc) :=
  if decide (scope = "global") then Some (sc_GlobalState s)
  else if decide (scope = "pipeline") then Some (sc_PipelineState s)
  else if decide (scope = "module") then Some (sc_ModuleState s)
  else if decide (scope = "task") then Some (sc_TaskState s)
  else None.

Definition Export (scope key : string) (value : any) (c : Context) : M Heap context_error unit := λ h,
  match scope_bag scope (ctx_scopes c) with
  | None => (Err (UnknownScope scope), h)
  | Some None => (Err (StateNotInitialized scope), h)
  | Some (Some l) => (Ok tt, stateBag_Set l key value h)
  end.

(** The search of [Import]: the first non-nil bag that has the key. *)
Fixpoint search_bags (bags : list (option loc)) (key : string) (h : Heap) : any * bool :=
  match bags with
  | [] => (ANil, false)
  | None :: bags => search_bags bags key h
  | Some l :: bags =>
      let '(v, ok) := stateBag_Get l key h in
      if ok then (v, true) else search_bags bags key h
  end.

Definition Import (scope key : string) (c : Context) (h : Heap) : any * bool :=
  let s := ctx_scopes c in
  if decide (scope = "") then
    search_bags [sc_TaskState s; sc_ModuleState s; sc_PipelineState s; sc_GlobalState s] key h
  else
    match scope_bag scope s with
    | Some (Some l) => stateBag_Get l key h
    | _ => (ANil, false)
    end.

(** *** Hosts *)

Section hosts.
Context `{GoRange}.

(** [for _, r := range roles { if r == role { append; break } }] over the entries;
    a nil host panics in [GetRoles]. *)
Fixpoint hosts_with_role (role : string) (l : list (string * HostRuntimeInfo)) (hosts : list (option Host))
    : outcome context_error (list (option Host)) :=
  match l with
  | [] => Ok hosts
  | (_, hri) :: l =>
      match hri_Host hri with
      | None => Panic
      | Some h =>
          hosts_with_role role l
            (if existsb (λ r, bool_decide (r = role)) (host_GetRoles h)
             then hosts ++ [Some h] else hosts)
      end
  end.

(** The iteration order of the map, and with it the order of the hosts, is chosen
    anew by every call: [call] numbers the calls. *)
Definition GetHostsByRole (call : nat) (role : string) (c : Context) : outcome context_error (list (option Host)) :=
  match gl_hostInfoMap (ctx_globals c) with
  | None => Ok []
  | Some m =>
      if decide (role = "") then Ok (map (λ '(_, hri), hri_Host hri) (range call m))
      else hosts_with_role role (range call m) []
  end.
End hosts.

Definition GetHostFacts (host : option Host) (c : Context) : outcome context_error string :=
  match gl_hostInfoMap (ctx_globals c), host with
  | None, _ => Err HostInfoMapNil
  | Some _, None => Err HostNil
  | Some m, Some h =>
      match m !! host_GetName h with
      | None => Err (NoRuntimeInfo (host_GetName h))
      | Some hri =>
          match hri_Facts hri with
          | None => Err (NoFacts (host_GetName h))
          | Some f => Ok f
          end
      end
  end.

Definition GetControlNode (c : Context) : outcome context_error Host :=
  match gl_controlNode (ctx_globals c) with
  | None => Err ControlNodeNil
  | Some h => Ok h
  end.

Definition GetCurrentHostFacts (c : Context) : outcome context_error string :=
  match ctx_currentHost c with
  | None => Err NoCurrentHost
  | Some h => GetHostFacts (Some h) c
  end.

Definition GetCurrentHostConnector (c : Context) : outcome context_error string :=
  match ctx_currentHost c, gl_hostInfoMap (ctx_globals c) with
  | None, _ => Err NoCurrentHost
  | Some _, None => Err HostInfoMapNil
  | Some h, Some m =>
      match m !! host_GetName h with
      | None => Err (NoCurrentRuntimeInfo (host_GetName h))
      | Some hri =>
          match hri_Conn hri with
          | None => Err (NoConnector (host_GetName h))
          | Some conn => Ok conn
          end
      end
  end.

(** The lazily initialised fields; [uuid] and [now] are what the calls of that
    name return. *)
Definition ctx_set_execution (id : string) (start : Time) (c : Context) : Context :=
  MkContext (ctx_GoCtx c) (ctx_cancelFn c) (ctx_globals c) (ctx_currentHost c) id start
    (ctx_scopes c) (ctx_currentPipelineName c) (ctx_currentModuleName c) (ctx_currentTaskName c)
    (ctx_stepResult c).

Definition GetStepExecutionID (uuid : string) (c : Context) : string * Context :=
  let c := if decide (ctx_stepExecutionID c = "") then ctx_set_execution uuid (ctx_executionStartTime c) c else c in
  (ctx_stepExecutionID c, c).

Definition GetExecutionStartTime (now : Time) (c : Context) : Time * Context :=
  let c := if IsZero (ctx_executionStartTime c) then ctx_set_execution (ctx_stepExecutionID c) now c else c in
  (ctx_executionStartTime c, c).

Definition SetStepResult (result : option StepResult) (c : Context) : Context :=
  MkContext (ctx_GoCtx c) (ctx_cancelFn c) (ctx_globals c) (ctx_currentHost c)
    (ctx_stepExecutionID c) (ctx_executionStartTime c) (ctx_scopes c) (ctx_currentPipelineName c)
    (ctx_currentModuleName c) (ctx_currentTaskName c) result.

Definition GetStepResult (c : Context) : option StepResult := ctx_stepResult c.

(** *** Directories *)

Definition GetClusterConfig (c : Context) : option Cluster := gl_ClusterConfig (ctx_globals c).

Definition cluster_name (c : Context) : string := from_option cl_Name "" (GetClusterConfig c).

Definition GetGlobalWorkDir (c : Context) : string := gl_GlobalWorkDir (ctx_globals c).

Definition GetClusterWorkDir (c : Context) : string :=
  if decide (cluster_name c = "") then filepath_Join [GetGlobalWorkDir c; "_INVALID_CLUSTER_"]
  else filepath_Join [GetGlobalWorkDir c; cluster_name c].

(** A nil current host panics. *)
Definition GetHostWorkDir (c : Context) : option string :=
  if decide (cluster_name c = "") then Some (filepath_Join [GetGlobalWorkDir c; "_INVALID_CLUSTER_"])
  else
    match ctx_currentHost c with
    | None => None
    | Some h => Some (filepath_Join [GetGlobalWorkDir c; cluster_name c; host_GetName h])
    end.

(** [common/directory.go] and [common/registry.go]. *)
Definition DefaultTmpDirName : string := ".kubexm_tmp".
Definition DefaultCertsDir : string := "certs".
Definition DefaultKubernetesDir : string := "kubernetes".
Definition DefaultEtcdDir : string := "etcd".
Definition RegistryTypeHarbor : string := "harbor".
Definition RegistryTypeRegistry : string := "registry".

Definition GetExtractDir (c : Context) : option string :=
  (λ d, filepath_Join [d; DefaultTmpDirName; "extract"]) <$> GetHostWorkDir c.
Definition GetUploadDir (c : Context) : option string :=
  (λ d, filepath_Join [d; DefaultTmpDirName; "upload"]) <$> GetHostWorkDir c.
Definition GetKubernetesCertsDir (c : Context) : string :=
  filepath_Join [GetClusterWorkDir c; DefaultKubernetesDir; DefaultCertsDir].
Definition GetEtcdCertsDir (c : Context) : string :=
  filepath_Join [GetClusterWorkDir c; DefaultEtcdDir; DefaultCertsDir].
Definition GetHarborCertsDir (c : Context) : string :=
  filepath_Join [GetClusterWorkDir c; RegistryTypeHarbor; DefaultCertsDir].
Definition GetRegistryCertsDir (c : Context) : string :=
  filepath_Join [GetClusterWorkDir c; RegistryTypeRegistry; DefaultCertsDir].
Definition GetComponentArtifactsDir (componentTypeDir : string) (c : Context) : string :=
  filepath_Join [GetGlobalWorkDir c; componentTypeDir].
Definition GetRepositoryDir (c : Context) : string :=
  filepath_Join [GetGlobalWorkDir c; "repository"].
Definition GetFileDownloadPath (componentName version arch fileName : string) (c : Context) : string :=
  let componentDir := filepath_Join [GetGlobalWorkDir c; componentName; version; arch] in
  if decide (fileName = "") then componentDir else filepath_Join [componentDir; fileName].
Definition GetHostDir (hostname : string) (c : Context) : string :=
  filepath_Join [GetClusterWorkDir c; hostname].

(** ** Lemmas *)

Lemma bag_at_update l l' f h :
  bag_at l' (update_bag l f h) = if decide (l' = l) then f (bag_at l h) else bag_at l' h.
Proof.
  unfold bag_at, update_bag; simpl. case_decide as Hl.
  - subst. by rewrite lookup_insert_eq.
  - by rewrite lookup_insert_ne.
Qed.

Lemma Get_Set_eq l k v h : stateBag_Get l k (stateBag_Set l k v h) = (v, true).
Proof.
  unfold stateBag_Get, stateBag_Set. rewrite bag_at_update, decide_True by done.
  by rewrite lookup_insert_eq.
Qed.

Lemma Get_Set_ne l l' k k' v h :
  l ≠ l' ∨ k ≠ k' → stateBag_Get l' k' (stateBag_Set l k v h) = stateBag_Get l' k' h.
Proof.
  intros Hne. unfold stateBag_Get, stateBag_Set. rewrite bag_at_update.
  case_decide; [|done]. subst. rewrite lookup_insert_ne by naive_solver. done.
Qed.

Lemma bag_at_set_all_ne l l' kvs h : l' ≠ l → bag_at l' (set_all l kvs h) = bag_at l' h.
Proof.
  intros Hne. unfold set_all. revert h. induction kvs as [|[k v] kvs IH]; intros h; [done|].
  simpl. rewrite IH. unfold stateBag_Set. by rewrite bag_at_update, decide_False.
Qed.

(** Copying a map into a bag overlays it. *)
Lemma bag_at_set_all `{GoRange} site l (m : gmap string any) h :
  bag_at l (set_all l (range site m) h) = m ∪ bag_at l h.
Proof.
  unfold set_all.
  assert (∀ kvs h, NoDup kvs.*1 →
    bag_at l (foldl (λ h '(k, v), stateBag_Set l k v h) h kvs) = list_to_map kvs ∪ bag_at l h) as Hgen.
  { induction kvs as [|[k v] kvs IH]; intros h' Hnd; simpl.
    - by rewrite (left_id_L ∅ (∪)).
    - inversion Hnd as [|?? Hk Hnd']; subst. rewrite IH by done. unfold stateBag_Set.
      rewrite bag_at_update, decide_True by done.
      rewrite <-insert_union_r by (by apply not_elem_of_list_to_map_1).
      by rewrite <-insert_union_l. }
  rewrite Hgen by apply NoDup_range_keys.
  rewrite (list_to_map_proper (range site m) (map_to_list m)), list_to_map_to_list; [done| |].
  - apply NoDup_range_keys.
  - apply range_perm.
Qed.

Lemma NewStateBag_fresh h l h' : NewStateBag h = (l, h') → heap_ok h → h_bags h !! l = None ∧ heap_ok h'.
Proof.
  intros [= <- <-] Hok. split.
  - apply eq_None_not_Some. intros Hs%Hok. lia.
  - intros l. simpl. rewrite lookup_insert_is_Some'. intros [->|Hl%Hok]; lia.
Qed.

Lemma Get_update_eq l k h :
  stateBag_Get l k h = match bag_at l h !! k with Some v => (v, true) | None => (ANil, false) end.
Proof. done. Qed.

Lemma search_bags_found bags k h v :
  search_bags bags k h = (v, true) ↔
  ∃ i l, bags !! i = Some (Some l) ∧ bag_at l h !! k = Some v ∧
    ∀ j l', j < i → bags !! j = Some (Some l') → bag_at l' h !! k = None.
Proof.
  induction bags as [|[l|] bags IH]; simpl.
  - split; [done|]. by intros (i & l & Hi & _).
  - unfold stateBag_Get at 1. destruct (bag_at l h !! k) as [w|] eqn:Hw.
    + split.
      * intros [= ->]. exists 0, l. split_and!; [done|done|]. intros j ? ?. lia.
      * intros (i & l' & Hi & Hv & Hmin). destruct i as [|i]; simplify_eq/=; [done|].
        specialize (Hmin 0 l). simpl in Hmin. rewrite Hw in Hmin. exfalso.
        by discriminate Hmin; [lia|].
    + rewrite IH. split; intros (i & l' & Hi & Hv & Hmin).
      * exists (S i), l'. split_and!; [done|done|]. intros [|j] l'' Hj Hl; simplify_eq/=; [done|].
        apply (Hmin j); [lia|done].
      * destruct i as [|i]; simplify_eq/=. exists i, l'. split_and!; [done|done|].
        intros j l'' Hj Hl. apply (Hmin (S j)); [lia|done].
  - rewrite IH. split; intros (i & l' & Hi & Hv & Hmin).
    + exists (S i), l'. split_and!; [done|done|]. intros [|j] l'' Hj Hl; simplify_eq/=.
      apply (Hmin j); [lia|done].
    + destruct i as [|i]; simplify_eq/=. exists i, l'. split_and!; [done|done|].
      intros j l'' Hj Hl. apply (Hmin (S j)); [lia|done].
Qed.

Lemma search_bags_missing bags k h :
  (search_bags bags k h).2 = false → search_bags bags k h = (ANil, false).
Proof.
  induction bags as [|[l|] bags IH]; simpl; [done| |done].
  unfold stateBag_Get. destruct (bag_at l h !! k); [done|]. apply IH.
Qed.

Lemma search_bags_Set_ne bags l k k' v h :
  k' ≠ k → search_bags bags k' (stateBag_Set l k v h) = search_bags bags k' h.
Proof.
  intros Hne. induction bags as [|[l'|] bags IH]; simpl; [done| |done].
  rewrite Get_Set_ne by auto. by rewrite IH.
Qed.

Lemma scope_bag_nonempty scope s b : scope_bag scope s = Some b → scope ≠ "".
Proof. intros Hs ->. done. Qed.

(** The bags [Import] searches when no scope is named, innermost first. *)
Definition import_order (s : Scopes) : list (option loc) :=
  [sc_TaskState s; sc_ModuleState s; sc_PipelineState s; sc_GlobalState s].

(** A value exported to a scope is what an import from that scope reads
    back, an import of any other key from any scope is unaffected, and exporting
    fails without effect exactly when the scope is unknown or has no bag. *)
Theorem Export_Import (scope key : string) (v : any) (c : Context) (h : Heap) :
  (∀ h', Export scope key v c h = (Ok tt, h') →
     Import scope key c h' = (v, true) ∧
     ∀ scope' key', key' ≠ key → Import scope' key' c h' = Import scope' key' c h) ∧
  (∀ e h', Export scope key v c h = (Err e, h') →
     h' = h ∧ ∀ l, scope_bag scope (ctx_scopes c) ≠ Some (Some l)) ∧
  (Export scope key v c h).1 ≠ Panic.
Proof.
  unfold Export. destruct (scope_bag scope (ctx_scopes c)) as [[l|]|] eqn:Hs; simpl.
  - split_and!; [|by intros e h' [=]|done]. intros h' [= <-]. split.
    + unfold Import. rewrite decide_False by by eapply scope_bag_nonempty.
      rewrite Hs. apply Get_Set_eq.
    + intros scope' key' Hne. unfold Import. case_decide.
      * apply search_bags_Set_ne. done.
      * destruct (scope_bag scope' _) as [[l'|]|]; [|done..]. apply Get_Set_ne. auto.
  - split_and!; [by intros h' [=]| |done]. intros e h' [= <- <-]. by split.
  - split_and!; [by intros h' [=]| |done]. intros e h' [= <- <-]. by split.
Qed.

(** An import without a scope reads the innermost bag that has the key, in
    the order task, module, pipeline, global, and reports absence with a nil
    value only when no bag has it. *)
Theorem Import_innermost (key : string) (c : Context) (h : Heap) :
  (∀ v, Import "" key c h = (v, true) ↔
     ∃ i l, import_order (ctx_scopes c) !! i = Some (Some l) ∧ bag_at l h !! key = Some v ∧
       ∀ j l', j < i → import_order (ctx_scopes c) !! j = Some (Some l') → bag_at l' h !! key = None) ∧
  ((Import "" key c h).2 = false → Import "" key c h = (ANil, false)).
Proof.
  split; [intros v; apply search_bags_found|apply search_bags_missing].
Qed.

(** [SetRuntimeConfig] makes every entry of the configuration readable
    through the derived context.  When the receiver has a task bag it is the
    same bag, so the receiver and every context derived from it read the entries
    too and keep reading them; without one, a fresh bag is used and no existing
    bag changes. *)
Theorem SetRuntimeConfig_visibility `{GoRange} (config : gmap string any) (c c' : Context) (h h' : Heap) :
  heap_ok h → SetRuntimeConfig config c h = (c', h') →
  (∀ k v, config !! k = Some v → GetFromRuntimeConfig k c' h' = (v, true)) ∧
  match sc_TaskState (ctx_scopes c) with
  | Some l => sc_TaskState (ctx_scopes c') = Some l ∧ bag_at l h' = config ∪ bag_at l h ∧
                ∀ l', l' ≠ l → bag_at l' h' = bag_at l' h
  | None => (∃ l, sc_TaskState (ctx_scopes c') = Some l ∧ h_bags h !! l = None) ∧
              ∀ l', is_Some (h_bags h !! l') → bag_at l' h' = bag_at l' h
  end.
Proof.
  intros Hok. unfold SetRuntimeConfig, ensure_bag, GetFromRuntimeConfig.
  destruct (sc_TaskState (ctx_scopes c)) as [l|] eqn:Hl.
  - intros [= <- <-]. simpl. split_and!.
    + intros k v Hk. unfold stateBag_Get. rewrite bag_at_set_all.
      by erewrite lookup_union_Some_l.
    + done.
    + apply bag_at_set_all.
    + intros. by apply bag_at_set_all_ne.
  - destruct (NewStateBag h) as [l h1] eqn:Hnew. intros [= <- <-]. simpl.
    destruct (NewStateBag_fresh h l h1 Hnew Hok) as [Hfresh _].
    unfold NewStateBag in Hnew. simplify_eq. split_and!.
    + intros k v Hk. unfold stateBag_Get. rewrite bag_at_set_all.
      by erewrite lookup_union_Some_l.
    + by eexists.
    + intros l' Hl'. rewrite bag_at_set_all_ne by (intros ->; rewrite Hfresh in Hl'; by destruct Hl').
      unfold bag_at. simpl. rewrite lookup_insert_ne; [done|].
      intros <-. rewrite Hfresh in Hl'. by destruct Hl'.
Qed.

(** A host of the context with the given role. *)
Definition host_with_role (role : string) (c : Context) (h : Host) : Prop :=
  ∃ k hri, entries (gl_hostInfoMap (ctx_globals c)) !! k = Some hri ∧
    hri_Host hri = Some h ∧ (role = "" ∨ role ∈ host_GetRoles h).

Lemma hosts_with_role_spec role l hosts :
  (∀ x, x ∈ l → hri_Host x.2 ≠ None) →
  ∃ hs, hosts_with_role role l hosts = Ok hs ∧
    ∀ o, o ∈ hs ↔ o ∈ hosts ∨ ∃ x h, x ∈ l ∧ hri_Host x.2 = Some h ∧ o = Some h ∧ role ∈ host_GetRoles h.
Proof.
  revert hosts. induction l as [|[k hri] l IH]; intros hosts Hnn; simpl.
  - exists hosts. split; [done|]. intros o. split; [by left|].
    intros [?|(x & h & ?%elem_of_nil & _)]; done.
  - destruct (hri_Host hri) as [h|] eqn:Hh; [|destruct (Hnn (k, hri)); [left|done]].
    set (hosts' := if existsb _ _ then _ else _).
    destruct (IH hosts') as (hs & Hrun & Hhs); [intros; apply Hnn; by right|].
    exists hs. split; [done|]. intros o. rewrite Hhs.
    assert (o ∈ hosts' ↔ o ∈ hosts ∨ o = Some h ∧ role ∈ host_GetRoles h) as ->.
    { subst hosts'. destruct (existsb _ _) eqn:He.
      - apply existsb_exists in He as (r & Hr%list_elem_of_In & ->%bool_decide_eq_true).
        rewrite elem_of_app, list_elem_of_singleton. naive_solver.
      - split; [by left|]. intros [?|[-> Hr]]; [done|]. exfalso.
        apply not_true_iff_false in He. apply He. apply existsb_exists. exists role.
        split; [by apply list_elem_of_In|by apply bool_decide_eq_true]. }
    split.
    + intros [[?|[-> ?]]|(x & h' & Hx & ?)]; [by left| |].
      * right. exists (k, hri), h. split_and!; [left|done..].
      * right. exists x, h'. split; [by right|done].
    + intros [?|(x & h' & Hx & Hh' & -> & Hr)]; [by left; left|].
      apply elem_of_cons in Hx as [->|Hx]; simplify_eq/=.
      * left. by right.
      * right. by exists x, h'.
Qed.

(** When every known host is there, the hosts [GetHostsByRole] returns are exactly
    those with the role, all of them for the empty role. *)
Lemma GetHostsByRole_run `{GoRange} (call : nat) (role : string) (c : Context) :
  (∀ k hri, entries (gl_hostInfoMap (ctx_globals c)) !! k = Some hri → hri_Host hri ≠ None) →
  ∃ hs, GetHostsByRole call role c = Ok hs ∧
    ∀ o, o ∈ hs ↔ ∃ h, o = Some h ∧ host_with_role role c h.
Proof.
  intros Hnn. unfold GetHostsByRole, host_with_role.
  destruct (gl_hostInfoMap (ctx_globals c)) as [m|] eqn:Hm; simpl in *.
  2:{ exists []. split; [done|]. intros o. split; [by intros ?%elem_of_nil|].
      intros (h & -> & k & hri & Hk & _). by rewrite lookup_empty in Hk. }
  case_decide as Hrole.
  - eexists; split; [done|]. intros o. rewrite list_elem_of_In, in_map_iff. split.
    + intros ([k hri] & <- & Hin%list_elem_of_In%elem_of_range).
      destruct (hri_Host hri) as [h|] eqn:Hh; [|by destruct (Hnn k hri)].
      exists h. split; [done|]. exists k, hri. by split_and!; [| |left].
    + intros (h & -> & k & hri & Hk & Hh & _). exists (k, hri). split; [done|].
      apply list_elem_of_In. by apply elem_of_range.
  - destruct (hosts_with_role_spec role (range call m) []) as (hs & Hrun & Hhs).
    { intros [k hri] Hin%elem_of_range. by apply (Hnn k). }
    exists hs. split; [done|]. intros o. rewrite Hhs. split.
    + intros [?%elem_of_nil|([k hri] & h & Hin%elem_of_range & Hh & -> & Hr)]; [done|].
      exists h. split; [done|]. exists k, hri. by split_and!; [| |right].
    + intros (h & -> & k & hri & Hk & Hh & [?|Hr]); [done|]. right. exists (k, hri), h.
      split_and!; [by apply elem_of_range|done..].
Qed.

