(* ===== verification/Task.v ===== *)
(** What the tasks of [src/internal/task/] are written with: steps from their
    builders, nodes and dependencies added to the fragment of the task.

    A step is what its builder makes of the context, left open ([Steps]).  The
    context that [ForTask] and [ForHost] derive only reaches the builders, whose
    calls name the host. *)
From S2P Require Import Prelude.
From S2P Require Import Values.
From S2P Require Import Plan.
From S2P Require Import Cluster.
From S2P Require Import Context.

(** ** Data *)

(** [New<builder>StepBuilder(ctx, instance, ...).With...().Build()], with the host
    of [ctx] when it is [ForHost(ctx, host)] and the other arguments. *)
Record step_call : Type := MkCall {
  sc_builder : string;
  sc_host : option Host;
  sc_instance : string;
  sc_args : list string;
}.

(** The builders; [Timestamp] is what formatting [time.Now()] gives. *)
Class Steps := {
  Build : Context → step_call → outcome string (option StepRef);
  Timestamp : string;
}.

(** The errors of the tasks, without the wording of the messages. *)
Inductive task_error : Type :=
| StepBuildFailed (call : step_call) (err : string)
| StepIsNil (call : step_call)
| ContextFailed (err : context_error)
| NoHostsFound (task : string)
| SnapshotPathMissing
| AddNodeFailed (err : plan_error)
| FragmentFailed (err : plan_error)
| UnsupportedPlugin (plugin : string)
| UnsupportedPackageManager (type : string)
| NoSourceType (addon : string) (index : nat)
| OtherTaskError (text : string).

(** *** Roles ([common/roles_labels.go]) *)

Definition RoleMaster : string := "master".
Definition RoleControlPlane : string := "control-plane".
Definition RoleWorker : string := "worker".
Definition RoleEtcd : string := "etcd".
Definition RoleLoadBalancer : string := "loadbalancer".
Definition RoleStorage : string := "storage".
Definition RoleRegistry : string := "registry".

Section tasks.
Context `{GoRange, Steps}.
Implicit Types (c : Context) (hosts : list (option Host)).

(** ** The context *)

(** [ctx.GetClusterConfig().Spec]: a nil configuration or [Spec] panics. *)
Definition config_spec {E} c : outcome E ClusterSpec := deref_or_panic (GetClusterConfig c ≫= cl_Spec).

Definition IsOfflineMode c : bool := gl_GlobalOfflineMode (ctx_globals c).

Definition hosts_by_role (call : nat) (role : string) c : outcome task_error (list (option Host)) :=
  map_err ContextFailed (GetHostsByRole call role c).

(** [append(ctx.GetHostsByRole(r1), ctx.GetHostsByRole(r2)...)] *)
Definition hosts_by_roles (call : nat) (role1 role2 : string) c : outcome task_error (list (option Host)) :=
  hosts_by_role call role1 c ≫= λ hosts1, hosts_by_role (S call) role2 c ≫= λ hosts2, Ok (hosts1 ++ hosts2).

Definition control_node c : M ExecutionFragment task_error (option Host) :=
  lift (map_err ContextFailed (GetControlNode c) ≫= λ h, Ok (Some h)).

(** [return len(ctx.GetHostsByRole(role)) > n, nil] *)
Definition more_hosts_than (n : nat) (hosts : outcome task_error (list (option Host))) : outcome task_error bool :=
  hosts ≫= λ hosts, Ok (bool_decide (n < length hosts)).

(** [return len(hosts) > 0, nil] *)
Definition any_host (hosts : outcome task_error (list (option Host))) : outcome task_error bool :=
  hosts ≫= λ hosts, Ok (bool_decide (0 < length hosts)).

(** ** Fragments *)

Definition call (builder instance : string) : step_call := MkCall builder None instance [].
Definition call_args (builder instance : string) (args : list string) : step_call := MkCall builder None instance args.
Definition host_call (builder : string) (h : Host) (instance : string) : step_call := MkCall builder (Some h) instance [].

Definition build c (sc : step_call) : M ExecutionFragment task_error (option StepRef) :=
  lift (map_err (StepBuildFailed sc) (Build c sc)).

(** [&plan.ExecutionNode{Name: ..., Step: ..., Hosts: ...}] *)
Definition new_node (name : string) (step : option StepRef) hosts : ExecutionNode :=
  MkNode name step (Some hosts) [] "" None ∅ "" "" "" None.

(** [id, _ := fragment.AddNode(node)]: an error leaves the empty ID. *)
Definition add_node (name : string) (step : option StepRef) hosts : M ExecutionFragment task_error NodeID := λ ef,
  match ExecutionFragment_AddNode (Some (new_node name step hosts)) [] ef with
  | (Ok id, ef) => (Ok id, ef)
  | (Err _, ef) => (Ok "", ef)
  | (Panic, ef) => (Panic, ef)
  end.

(** [if _, err := fragment.AddNode(node); err != nil { return nil, err }] *)
Definition add_node_checked (name : string) (step : option StepRef) hosts : M ExecutionFragment task_error NodeID := λ ef,
  match ExecutionFragment_AddNode (Some (new_node name step hosts)) [] ef with
  | (Ok id, ef) => (Ok id, ef)
  | (Err e, ef) => (Err (AddNodeFailed e), ef)
  | (Panic, ef) => (Panic, ef)
  end.

(** [fragment.AddDependency(from, to)], its error not looked at. *)
Definition add_dep (from to : NodeID) : M ExecutionFragment task_error unit := λ ef,
  match ExecutionFragment_AddDependency from to ef with
  | (Panic, ef) => (Panic, ef)
  | (_, ef) => (Ok tt, ef)
  end.

Definition add_deps (deps : list (NodeID * NodeID)) : M ExecutionFragment task_error unit :=
  foreach deps (λ '(from, to), add_dep from to).

Definition set_entries (ids : list NodeID) : M ExecutionFragment task_error unit := λ ef,
  (Ok tt, MkFragment (ef_Nodes ef) ids (ef_ExitNodes ef) (ef_Name ef)).

(** [fragment.CalculateEntryAndExitNodes()] *)
Definition compute_ends : M ExecutionFragment task_error unit := λ ef,
  match ExecutionFragment_CalculateEntryAndExitNodes ef with
  | (Ok _, ef) => (Ok tt, ef)
  | (Err _, ef) | (Panic, ef) => (Panic, ef)
  end.

(** A [Plan] method: its fragment, or the error of its body.  An early return of
    the fragment is a body that ends early. *)
Definition plan_fragment (name : string) (body : M ExecutionFragment task_error unit)
    : outcome task_error (option ExecutionFragment) :=
  run_body body (NewExecutionFragment name) (λ _ ef, Ok (Some ef)).

(** [if len(hosts) == 0 { return fragment, nil }] *)
Definition unless_no_hosts (hosts : outcome task_error (list (option Host)))
    (body : list (option Host) → M ExecutionFragment task_error unit) : M ExecutionFragment task_error unit :=
  hosts ← lift hosts; if decide (length hosts = 0) then mret tt else body hosts.

(** [if len(hosts) == 0 { return nil, fmt.Errorf(...) }] *)
Definition require_hosts (task : string) (hosts : outcome task_error (list (option Host)))
    (body : list (option Host) → M ExecutionFragment task_error unit) : M ExecutionFragment task_error unit :=
  hosts ← lift hosts; if decide (length hosts = 0) then lift (Err (NoHostsFound task)) else body hosts.

(** The loops that collect the first node of every host as entries. *)
Definition per_host hosts (body : Host → M ExecutionFragment task_error NodeID) : M ExecutionFragment task_error unit :=
  entryNodes ← collect hosts (λ host, h ← deref host; body h);
  _ ← set_entries (UniqueNodeIDs entryNodes); compute_ends.

(** [if last != "" { fragment.AddDependency(last, id) }] *)
Definition link_after (last id : NodeID) : M ExecutionFragment task_error unit :=
  if decide (last = "") then mret tt else add_dep last id.

(** The loops that plan one host after the other: [last] is the node the next host
    waits for, and the nodes of a host end in the node it returns. *)
Fixpoint rolling (body : NodeID → Host → M ExecutionFragment task_error NodeID) (last : NodeID) hosts
    : M ExecutionFragment task_error NodeID :=
  match hosts with
  | [] => mret last
  | host :: hosts => h ← deref host; last ← body last h; rolling body last hosts
  end.

(** One node, which is the only entry. *)
Definition single_node (name : string) (step : option StepRef) hosts : M ExecutionFragment task_error unit :=
  nodeID ← add_node name step hosts; _ ← set_entries [nodeID]; compute_ends.
End tasks.
