(* ===== verification/PreflightTasks.v ===== *)
(** The tasks of the connectivity check, the preflight module and the asset
    download: [task/preflight/], [task/pre/] and [task/os/install_prerequisites.go]. *)
From S2P Require Import Prelude.
From S2P Require Import Values.
From S2P Require Import Plan.
From S2P Require Import GoPath.
From S2P Require Import Cluster.
From S2P Require Import Context.
From S2P Require Import Task.

Section tasks.
Context `{GoRange, Steps}.
Implicit Types (c : Context) (hosts : list (option Host)).

(** ** Connectivity *)

(** Whether some host has the address of [eh]; the comparisons dereference. *)
Fixpoint same_address (eh : Host) hosts : outcome task_error bool :=
  match hosts with
  | [] => Ok false
  | None :: _ => Panic
  | Some ah :: hosts =>
      if decide (host_GetAddress eh = host_GetAddress ah) then Ok true else same_address eh hosts
  end.

(** The etcd hosts whose address is not there yet. *)
Fixpoint add_etcd_hosts (etcdHosts allHosts : list (option Host)) : outcome task_error (list (option Host)) :=
  match etcdHosts with
  | [] => Ok allHosts
  | eh :: etcdHosts =>
      match eh, allHosts with
      | None, [] => add_etcd_hosts etcdHosts (allHosts ++ [None])
      | None, _ => Panic
      | Some h, _ =>
          same_address h allHosts ≫= λ found : bool,
          add_etcd_hosts etcdHosts (if found then allHosts else allHosts ++ [Some h])
      end
  end.

Definition CheckConnectivityTask_getAllHosts c : outcome task_error (list (option Host)) :=
  masters ← hosts_by_role 200 RoleMaster c;
  workers ← hosts_by_role 201 RoleWorker c;
  etcdHosts ← hosts_by_role 202 RoleEtcd c;
  allHosts ← add_etcd_hosts etcdHosts (masters ++ workers);
  lbHosts ← hosts_by_role 203 RoleLoadBalancer c;
  Ok (allHosts ++ lbHosts).

Definition CheckConnectivityTask_IsRequired c : outcome task_error bool := Ok true.

Definition CheckConnectivityTask_Plan c : outcome task_error (option ExecutionFragment) :=
  allHosts ← CheckConnectivityTask_getAllHosts c;
  if decide (length allHosts = 0) then Ok (Some (NewEmptyFragment "CheckConnectivity"))
  else plan_fragment "CheckConnectivity" (per_host allHosts (λ h,
    checkStep ← build c (host_call "CheckConnectivity" h "");
    add_node ("CheckConnectivity-" +:+ host_GetAddress h) checkStep [Some h])).

(** ** The control node *)

Definition GreetingTask_IsRequired c : outcome task_error bool := Ok true.

Definition GreetingTask_Plan c : outcome task_error (option ExecutionFragment) :=
  plan_fragment "Greeting" (
    controlNode ← control_node c;
    printLogoStep ← build c (call "PrintMessage" "PrintWelcomeLogo");
    _ ← add_node "PrintWelcomeLogo" printLogoStep [controlNode];
    compute_ends).

Definition show_bool (b : bool) : string := if b then "true" else "false".

Definition ConfirmTask_IsRequired c : outcome task_error bool := Ok true.

Definition ConfirmTask_Plan (name prompt : string) (assumeYes : bool) c : outcome task_error (option ExecutionFragment) :=
  plan_fragment name (
    controlNode ← control_node c;
    confirmStep ← build c (call_args "Confirm" "ConfirmAction" [prompt; show_bool assumeYes]);
    _ ← add_node "ConfirmActionNode" confirmStep [controlNode];
    compute_ends).

(** [filepath.Join(".", "kubexm-bundle.tar.gz")] unless a path is given. *)
Definition bundle_path (path : string) : string :=
  if decide (path = "") then filepath_Join ["."; "kubexm-bundle.tar.gz"] else path.

Definition ExtractBundleTask_IsRequired c : outcome task_error bool := Ok (IsOfflineMode c).

Definition ExtractBundleTask_Plan (path : string) c : outcome task_error (option ExecutionFragment) :=
  plan_fragment "ExtractBundle" (
    controlNode ← control_node c;
    extractStep ← build c (call_args "ExtractBundle" "ExtractBundle" [bundle_path path]);
    _ ← add_node "ExtractBundleOnControlNode" extractStep [controlNode];
    compute_ends).

Definition PackageAssetsTask_IsRequired c : outcome task_error bool := Ok true.

Definition PackageAssetsTask_Plan (outputPath : string) c : outcome task_error (option ExecutionFragment) :=
  plan_fragment "PackageAssets" (
    controlNode ← control_node c;
    compressStep ← build c (call_args "CompressBundle" "CompressBundle" [bundle_path outputPath]);
    _ ← add_node "CompressBundle" compressStep [controlNode];
    compute_ends).

(** The list of files to verify is empty in the code. *)
Definition VerifyArtifactsTask_IsRequired c : outcome task_error bool := Ok true.

Definition VerifyArtifactsTask_Plan c : outcome task_error (option ExecutionFragment) :=
  plan_fragment "VerifyArtifacts" (_ ← control_node c; mret tt).

(** *** Preparing the assets *)

Definition PrepareAssetsTask_IsRequired c : outcome task_error bool := Ok (negb (IsOfflineMode c)).

(** An enabled addon with a chart or a manifest to fetch. *)
Definition hasRemoteSource (a : Addon) : bool :=
  is_true_ptr (addon_Enabled a) && existsb (λ s, bool_decide (is_Some (as_Chart s)) || as_Yaml s) (addon_Sources a).

Definition download_addon c hosts (a : Addon) : M ExecutionFragment task_error unit :=
  if decide (addon_Name a = "") then mret tt
  else if hasRemoteSource a then
    downloadAddonStep ← build c (call "DownloadAddonArtifacts" (addon_Name a));
    match downloadAddonStep with
    | None => mret tt
    | Some _ => _ ← add_node ("DownloadAddonArtifacts-" +:+ addon_Name a) downloadAddonStep hosts; mret tt
    end
  else mret tt.

Definition PrepareAssetsTask_Plan c : outcome task_error (option ExecutionFragment) :=
  plan_fragment "PrepareAssets" (
    controlNode ← control_node c;
    downloadBinaries ← build c (call "DownloadBinaries" "DownloadBinaries");
    downloadCharts ← build c (call "DownloadHelmCharts2" "DownloadHelmCharts");
    saveImages ← build c (call "SaveImages" "SaveContainerImages");
    _ ← add_node "DownloadBinaries" downloadBinaries [controlNode];
    _ ← add_node "DownloadHelmCharts" downloadCharts [controlNode];
    _ ← add_node "SaveContainerImages" saveImages [controlNode];
    _ ← add_dep "DownloadBinaries" "DownloadHelmCharts";
    spec ← lift (config_spec c);
    _ ← foreach (spec_Addons spec) (download_addon c [controlNode]);
    compute_ends).

(** ** All hosts *)

Definition InstallPrerequisitesTask_IsRequired c : outcome task_error bool := Ok true.

Definition InstallPrerequisitesTask_Plan c : outcome task_error (option ExecutionFragment) :=
  plan_fragment "InstallPrerequisites" (
    unless_no_hosts (hosts_by_role 204 "" c) (λ allHosts,
      _ ← (if IsOfflineMode c then
             distribute ← build c (call "DistributePackages" "DistributeOfflinePackages");
             extract ← build c (call "ExtractPackages" "ExtractOfflinePackages");
             installOffline ← build c (call "InstallOfflinePackages" "InstallOfflinePackages");
             _ ← add_node "DistributeOfflinePackages" distribute allHosts;
             _ ← add_node "ExtractOfflinePackages" extract allHosts;
             _ ← add_node "InstallOfflinePackages" installOffline allHosts;
             add_deps [("DistributeOfflinePackages", "ExtractOfflinePackages");
                       ("ExtractOfflinePackages", "InstallOfflinePackages")]
           else
             installOnline ← build c (call "InstallPackages" "InstallOnlinePackages");
             _ ← add_node "InstallOnlinePackages" installOnline allHosts;
             mret tt);
      compute_ends)).

Definition InstallToolBinariesTask_IsRequired c : outcome task_error bool := Ok true.

Definition InstallToolBinariesTask_Plan c : outcome task_error (option ExecutionFragment) :=
  plan_fragment "InstallToolBinaries" (
    unless_no_hosts (hosts_by_role 205 "" c) (λ allHosts,
      installStep ← build c (call "InstallToolBinaries" "InstallToolBinaries");
      _ ← add_node "InstallToolBinaries" installStep allHosts;
      compute_ends)).

Definition PreflightChecksTask_IsRequired c : outcome task_error bool :=
  spec ← config_spec c;
  if from_option global_SkipPreflight false (spec_Global spec) then Ok false
  else Ok (negb (bool_decide ("all" ∈ from_option pf_SkipChecks [] (spec_Preflight spec)))).

Definition PreflightChecksTask_Plan c : outcome task_error (option ExecutionFragment) :=
  plan_fragment "PreflightChecks" (
    unless_no_hosts (hosts_by_role 206 "" c) (λ allHosts,
      controlNode ← control_node c;
      checkCPU ← build c (call "CheckCPU" "CheckMinCPUCores");
      checkMemory ← build c (call "CheckMemory" "CheckMinMemory");
      checkConnectivity ← build c (call "CheckHostConnectivity" "CheckHostConnectivity");
      checkDNS ← build c (call "CheckDNSConfig" "CheckDNSConfig");
      checkCommands ← build c (call "CheckRequiredCommands" "CheckRequiredCommands");
      checkTimeSync ← build c (call "CheckTimeSync" "CheckTimeSync");
      lintSpec ← build c (call "LintClusterSpec" "LintClusterSpec");
      checkVersionCompat ← build c (call "CheckVersionCompatibility" "CheckVersionCompatibility");
      _ ← add_node "CheckMinCPUCores" checkCPU allHosts;
      _ ← add_node "CheckMinMemory" checkMemory allHosts;
      _ ← add_node "CheckHostConnectivity" checkConnectivity allHosts;
      _ ← add_node "CheckDNSConfig" checkDNS allHosts;
      _ ← add_node "CheckRequiredCommands" checkCommands allHosts;
      _ ← add_node "CheckTimeSync" checkTimeSync allHosts;
      _ ← add_node "LintClusterSpec" lintSpec [controlNode];
      _ ← add_node "CheckVersionCompatibility" checkVersionCompat [controlNode];
      compute_ends)).
End tasks.
