(* ===== verification/OperationTasks.v ===== *)
(** The tasks of the backup, restore, health, reconfigure and registry modules:
    [task/backup/], [task/kubernetes/health.go], [task/reconfigure/],
    [task/registry/registry.go]. *)
From S2P Require Import Prelude.
From S2P Require Import Values.
From S2P Require Import Plan.
From S2P Require Import GoPath.
From S2P Require Import Cluster.
From S2P Require Import Context.
From S2P Require Import Task.

Section tasks.
Context `{GoRange, Steps}.
Implicit Types (c : Context) (h : Host) (hosts : list (option Host)).

(** ** Shared parts *)

(** One node for a host, named by [prefix] and the host. *)
Definition host_node c (builder instance prefix : string) h : M ExecutionFragment task_error NodeID :=
  step ← build c (host_call builder h instance);
  add_node (prefix +:+ host_GetName h) step [Some h].

(** A step whose instance is the name of the node. *)
Definition named_host_node c (builder prefix : string) h : M ExecutionFragment task_error NodeID :=
  host_node c builder (prefix +:+ host_GetName h) prefix h.

(** [host := hosts[0]] after the test for none. *)
Definition on_first hosts (body : Host → M ExecutionFragment task_error unit) : M ExecutionFragment task_error unit :=
  host ← deref (hosts !! 0); h ← deref host; body h.

(** A node that sets a component up and one that restarts it. *)
Definition configure_and_restart c (builder prefix service restart_prefix : string) h
    : M ExecutionFragment task_error NodeID :=
  configureStep ← build c (host_call builder h (prefix +:+ host_GetName h));
  configNodeID ← add_node (prefix +:+ host_GetName h) configureStep [Some h];
  restartStep ← build c (MkCall "ManageService" (Some h) (restart_prefix +:+ host_GetName h) [service; "restart"]);
  restartNodeID ← add_node (restart_prefix +:+ host_GetName h) restartStep [Some h];
  _ ← add_dep configNodeID restartNodeID;
  mret configNodeID.

(** ** Backup *)

Definition backup_dir c : outcome task_error string :=
  cfg ← deref_or_panic (GetClusterConfig c);
  Ok (GetGlobalWorkDir c +:+ "/backups/" +:+ cl_Name cfg +:+ "/" +:+ Timestamp +:+ "/pki").

(** The kubeadm path unless the cluster is deployed by kubexm. *)
Definition pki_source c : outcome task_error string :=
  spec ← config_spec c;
  Ok (match spec_Kubernetes spec with
      | Some k => if decide (k8s_Type k = KubernetesDeploymentTypeKubexm) then "/etc/kubexm/pki" else "/etc/kubernetes/pki"
      | None => "/etc/kubernetes/pki"
      end).

Definition BackupPKITask_IsRequired c : outcome task_error bool := any_host (hosts_by_role 210 RoleMaster c).

Definition BackupPKITask_Plan c : outcome task_error (option ExecutionFragment) :=
  plan_fragment "BackupPKI" (
    unless_no_hosts (hosts_by_role 211 RoleMaster c) (λ hosts, on_first hosts (λ h,
      backupDir ← lift (backup_dir c);
      pkiSourcePath ← lift (pki_source c);
      step ← build c (MkCall "BackupPKI" (Some h) "BackupPKI" [pkiSourcePath; backupDir]);
      single_node "BackupPKI" step [Some h]))).

Definition BackupEtcdTask_IsRequired c : outcome task_error bool := any_host (hosts_by_role 212 RoleMaster c).

Definition BackupEtcdTask_Plan c : outcome task_error (option ExecutionFragment) :=
  plan_fragment "BackupEtcd" (
    unless_no_hosts (hosts_by_role 213 RoleMaster c) (λ hosts, on_first hosts (λ h,
      step ← build c (host_call "BackupEtcd" h "BackupEtcd");
      single_node "BackupEtcd" step [Some h]))).

Definition BackupK8sConfigsTask_IsRequired c : outcome task_error bool := any_host (hosts_by_role 214 RoleMaster c).

Definition BackupK8sConfigsTask_Plan c : outcome task_error (option ExecutionFragment) :=
  plan_fragment "BackupK8sConfigs" (
    unless_no_hosts (hosts_by_role 215 RoleMaster c) (λ hosts,
      per_host hosts (named_host_node c "BinaryFetchConfigs" "BackupK8sConfigs-"))).

(** ** Restore *)

Definition RestorePKITask_IsRequired c : outcome task_error bool := any_host (hosts_by_role 216 RoleMaster c).

Definition RestorePKITask_Plan c : outcome task_error (option ExecutionFragment) :=
  plan_fragment "RestorePKI" (
    unless_no_hosts (hosts_by_role 217 RoleMaster c) (λ hosts,
      per_host hosts (named_host_node c "KubexmDistributeK8sPKI" "RestorePKI-"))).

Definition RestoreEtcdTask_IsRequired c : outcome task_error bool :=
  spec ← config_spec c;
  if decide (etcd_Type <$> spec_Etcd spec = Some EtcdDeploymentTypeExternal) then Ok false
  else any_host (hosts_by_role 218 RoleMaster c).

(** Stop, restore, start on one host. *)
Definition restore_etcd_host (snapshotPath : string) c h : M ExecutionFragment task_error NodeID :=
  if decide (snapshotPath = "") then lift (Err SnapshotPathMissing)
  else
    stopStep ← build c (host_call "StopEtcd" h ("StopEtcd-" +:+ host_GetName h));
    restoreStep ← build c (MkCall "RestoreEtcd" (Some h) ("RestoreEtcd-" +:+ host_GetName h) [snapshotPath]);
    startStep ← build c (host_call "StartEtcd" h ("StartEtcd-" +:+ host_GetName h));
    stopNodeID ← add_node ("StopEtcd-" +:+ host_GetName h) stopStep [Some h];
    restoreNodeID ← add_node ("RestoreEtcd-" +:+ host_GetName h) restoreStep [Some h];
    startNodeID ← add_node ("StartEtcd-" +:+ host_GetName h) startStep [Some h];
    _ ← add_dep stopNodeID restoreNodeID;
    _ ← add_dep restoreNodeID startNodeID;
    mret stopNodeID.

Definition RestoreEtcdTask_Plan (snapshotPath : string) c : outcome task_error (option ExecutionFragment) :=
  plan_fragment "RestoreEtcd" (
    unless_no_hosts (hosts_by_role 219 RoleMaster c) (λ hosts, per_host hosts (restore_etcd_host snapshotPath c))).

Definition RestoreK8sConfigsTask_IsRequired c : outcome task_error bool := any_host (hosts_by_role 220 RoleMaster c).

Definition RestoreK8sConfigsTask_Plan c : outcome task_error (option ExecutionFragment) :=
  plan_fragment "RestoreK8sConfigs" (
    unless_no_hosts (hosts_by_role 221 RoleMaster c) (λ hosts,
      per_host hosts (named_host_node c "RestoreFetchedConfigs" "RestoreK8sConfigs-"))).

(** ** Health *)

Definition CheckClusterHealthTask_IsRequired c : outcome task_error bool := any_host (hosts_by_role 222 RoleControlPlane c).

Definition CheckClusterHealthTask_Plan c : outcome task_error (option ExecutionFragment) :=
  plan_fragment "CheckClusterHealth" (
    unless_no_hosts (hosts_by_role 223 RoleControlPlane c) (λ hosts, on_first hosts (λ h,
      step ← build c (host_call "CheckClusterHealth" h "CheckClusterHealth");
      single_node "CheckClusterHealth" step [Some h]))).

Definition CheckAPIServerHealthTask_IsRequired c : outcome task_error bool := any_host (hosts_by_role 224 RoleControlPlane c).

Definition CheckAPIServerHealthTask_Plan c : outcome task_error (option ExecutionFragment) :=
  plan_fragment "CheckAPIServerHealth" (
    unless_no_hosts (hosts_by_role 225 RoleControlPlane c) (λ hosts,
      per_host hosts (host_node c "VerifyAPIServerHealth" "VerifyAPIServerHealth" "VerifyAPIServerHealth-"))).

Definition CheckSchedulerHealthTask_IsRequired c : outcome task_error bool := any_host (hosts_by_role 226 RoleControlPlane c).

Definition CheckSchedulerHealthTask_Plan c : outcome task_error (option ExecutionFragment) :=
  plan_fragment "CheckSchedulerHealth" (
    unless_no_hosts (hosts_by_role 227 RoleControlPlane c) (λ hosts,
      per_host hosts (host_node c "VerifySchedulerHealth" "VerifySchedulerHealth" "VerifySchedulerHealth-"))).

Definition CheckControllerManagerHealthTask_IsRequired c : outcome task_error bool := any_host (hosts_by_role 228 RoleControlPlane c).

Definition CheckControllerManagerHealthTask_Plan c : outcome task_error (option ExecutionFragment) :=
  plan_fragment "CheckControllerManagerHealth" (
    unless_no_hosts (hosts_by_role 229 RoleControlPlane c) (λ hosts,
      per_host hosts (host_node c "VerifyControllerManagerHealth" "VerifyControllerManagerHealth" "VerifyControllerManagerHealth-"))).

Definition CheckKubeletHealthTask_IsRequired c : outcome task_error bool := any_host (hosts_by_roles 230 RoleControlPlane RoleWorker c).

Definition CheckKubeletHealthTask_Plan c : outcome task_error (option ExecutionFragment) :=
  plan_fragment "CheckKubeletHealth" (
    unless_no_hosts (hosts_by_roles 232 RoleControlPlane RoleWorker c) (λ hosts,
      per_host hosts (host_node c "VerifyKubeletHealth" "VerifyKubeletHealth" "VerifyKubeletHealth-"))).

(** ** Reconfiguration *)

Definition ReconfigureAPIServerTask_IsRequired c : outcome task_error bool := any_host (hosts_by_role 234 RoleControlPlane c).

Definition ReconfigureAPIServerTask_Plan c : outcome task_error (option ExecutionFragment) :=
  plan_fragment "ReconfigureAPIServer" (
    unless_no_hosts (hosts_by_role 235 RoleControlPlane c) (λ hosts,
      per_host hosts (configure_and_restart c "ConfigureKubeAPIServer" "ConfigureAPIServer-" "kube-apiserver" "RestartAPIServer-"))).

Definition ReconfigureSchedulerTask_IsRequired c : outcome task_error bool := any_host (hosts_by_role 236 RoleControlPlane c).

Definition ReconfigureSchedulerTask_Plan c : outcome task_error (option ExecutionFragment) :=
  plan_fragment "ReconfigureScheduler" (
    unless_no_hosts (hosts_by_role 237 RoleControlPlane c) (λ hosts,
      per_host hosts (configure_and_restart c "ConfigureKubeScheduler" "ConfigureScheduler-" "kube-scheduler" "RestartScheduler-"))).

Definition ReconfigureControllerManagerTask_IsRequired c : outcome task_error bool := any_host (hosts_by_role 238 RoleControlPlane c).

Definition ReconfigureControllerManagerTask_Plan c : outcome task_error (option ExecutionFragment) :=
  plan_fragment "ReconfigureControllerManager" (
    unless_no_hosts (hosts_by_role 239 RoleControlPlane c) (λ hosts,
      per_host hosts (configure_and_restart c "ConfigureKubeControllerManager" "ConfigureControllerManager-" "kube-controller-manager" "RestartControllerManager-"))).

Definition ReconfigureKubeletTask_IsRequired c : outcome task_error bool :=
  any_host (hosts_by_roles 240 RoleControlPlane RoleWorker c).

Definition ReconfigureKubeletTask_Plan c : outcome task_error (option ExecutionFragment) :=
  plan_fragment "ReconfigureKubelet" (
    unless_no_hosts (hosts_by_roles 242 RoleControlPlane RoleWorker c) (λ hosts,
      per_host hosts (configure_and_restart c "CreateKubeletConfigYAML" "GenerateKubeletConfig-" "kubelet" "RestartKubelet-"))).

Definition ReconfigureProxyTask_IsRequired c : outcome task_error bool :=
  any_host (hosts_by_roles 244 RoleControlPlane RoleWorker c).

Definition ReconfigureProxyTask_Plan c : outcome task_error (option ExecutionFragment) :=
  plan_fragment "ReconfigureProxy" (
    unless_no_hosts (hosts_by_roles 246 RoleControlPlane RoleWorker c) (λ hosts,
      per_host hosts (configure_and_restart c "CreateKubeProxyConfigYAML" "GenerateProxyConfig-" "kube-proxy" "RestartProxy-"))).

(** ** Registry *)

(** Without registry hosts, a local deployment in the configuration is enough. *)
Definition InstallRegistryTask_IsRequired c : outcome task_error bool :=
  hosts ← hosts_by_role 248 RoleRegistry c;
  if decide (length hosts = 0) then
    match GetClusterConfig c with
    | None => Ok false
    | Some _ =>
        spec ← config_spec c;
        Ok (bool_decide (is_Some (spec_Registry spec ≫= reg_LocalDeployment)))
    end
  else Ok true.

Definition InstallRegistryTask_Plan c : outcome task_error (option ExecutionFragment) :=
  plan_fragment "InstallRegistry" (
    unless_no_hosts (hosts_by_role 249 RoleRegistry c) (λ hosts,
      per_host hosts (named_host_node c "InstallRegistry" "InstallRegistry-"))).

Definition GenerateRegistryConfigTask_IsRequired c : outcome task_error bool := any_host (hosts_by_role 250 RoleRegistry c).

Definition GenerateRegistryConfigTask_Plan c : outcome task_error (option ExecutionFragment) :=
  plan_fragment "GenerateRegistryConfig" (
    unless_no_hosts (hosts_by_role 251 RoleRegistry c) (λ hosts, on_first hosts (λ h,
      configStep ← build c (host_call "GenerateRegistryConfig" h "GenerateRegistryConfig");
      single_node "GenerateRegistryConfig" configStep [Some h]))).

Definition DistributeRegistryConfigTask_IsRequired c : outcome task_error bool := any_host (hosts_by_role 252 RoleRegistry c).

Definition DistributeRegistryConfigTask_Plan c : outcome task_error (option ExecutionFragment) :=
  plan_fragment "DistributeRegistryConfig" (
    unless_no_hosts (hosts_by_role 253 RoleRegistry c) (λ hosts,
      per_host hosts (named_host_node c "DistributeRegistryConfig" "DistributeRegistryConfig-"))).

Definition SetupRegistryServiceTask_IsRequired c : outcome task_error bool := any_host (hosts_by_role 254 RoleRegistry c).

Definition SetupRegistryServiceTask_Plan c : outcome task_error (option ExecutionFragment) :=
  plan_fragment "SetupRegistryService" (
    unless_no_hosts (hosts_by_role 255 RoleRegistry c) (λ hosts,
      per_host hosts (named_host_node c "SetupRegistryService" "SetupRegistryService-"))).

Definition StartRegistryServiceTask_IsRequired c : outcome task_error bool := any_host (hosts_by_role 256 RoleRegistry c).

Definition StartRegistryServiceTask_Plan c : outcome task_error (option ExecutionFragment) :=
  plan_fragment "StartRegistryService" (
    unless_no_hosts (hosts_by_role 257 RoleRegistry c) (λ hosts,
      per_host hosts (named_host_node c "EnableRegistryService" "EnableRegistryService-"))).

Definition StopRegistryServiceTask_IsRequired c : outcome task_error bool := any_host (hosts_by_role 258 RoleRegistry c).

Definition StopRegistryServiceTask_Plan c : outcome task_error (option ExecutionFragment) :=
  plan_fragment "StopRegistryService" (
    unless_no_hosts (hosts_by_role 259 RoleRegistry c) (λ hosts,
      per_host hosts (named_host_node c "StopRegistryService" "StopRegistryService-"))).

Definition DisableRegistryServiceTask_IsRequired c : outcome task_error bool := any_host (hosts_by_role 260 RoleRegistry c).

Definition DisableRegistryServiceTask_Plan c : outcome task_error (option ExecutionFragment) :=
  plan_fragment "DisableRegistryService" (
    unless_no_hosts (hosts_by_role 261 RoleRegistry c) (λ hosts,
      per_host hosts (named_host_node c "DisableRegistryService" "DisableRegistryService-"))).

Definition RemoveRegistryArtifactsTask_IsRequired c : outcome task_error bool := any_host (hosts_by_role 262 RoleRegistry c).

Definition RemoveRegistryArtifactsTask_Plan c : outcome task_error (option ExecutionFragment) :=
  plan_fragment "RemoveRegistryArtifacts" (
    unless_no_hosts (hosts_by_role 263 RoleRegistry c) (λ hosts,
      per_host hosts (named_host_node c "RemoveRegistryArtifacts" "RemoveRegistryArtifacts-"))).

Definition RemoveRegistryDataTask_IsRequired c : outcome task_error bool := any_host (hosts_by_role 264 RoleRegistry c).

Definition RemoveRegistryDataTask_Plan c : outcome task_error (option ExecutionFragment) :=
  plan_fragment "RemoveRegistryData" (
    unless_no_hosts (hosts_by_role 265 RoleRegistry c) (λ hosts,
      per_host hosts (named_host_node c "RemoveRegistryData" "RemoveRegistryData-"))).
End tasks.
