(* ===== verification/NodeTasks.v ===== *)
(** The tasks that prepare the hosts and install Kubernetes with kubeadm:
    [task/os/], [task/etcd/], [task/containerd/], [task/docker/], [task/crio/] and
    [task/kubernetes/kubeadm/]. *)
From S2P Require Import Prelude.
From S2P Require Import Values.
From S2P Require Import Plan.
From S2P Require Import Cluster.
From S2P Require Import Context.
From S2P Require Import Task.

Section tasks.
Context `{GoRange, Steps}.
Implicit Types (c : Context) (h : Host) (hosts : list (option Host)).

(** [append(ctx.GetHostsByRole(common.RoleMaster), ctx.GetHostsByRole(common.RoleWorker)...)] *)
Definition masters_and_workers (call : nat) c : outcome task_error (list (option Host)) :=
  hosts_by_roles call RoleMaster RoleWorker c.

(** A step with its node, which bear the same name. *)
Definition simple_node c (builder name : string) hosts : M ExecutionFragment task_error unit :=
  step ← build c (call builder name); _ ← add_node name step hosts; mret tt.

(** ** Operating system *)

Definition ConfigureHostTask_IsRequired c : outcome task_error bool := Ok true.

Definition set_hostname c (host : option Host) : M ExecutionFragment task_error NodeID :=
  h ← deref host;
  setHostnameStep ← build c (call_args "SetHostname" ("SetHostnameFor_" +:+ host_GetName h) [host_GetName h]);
  add_node ("SetHostnameFor_" +:+ host_GetName h +:+ "_node") setHostnameStep [host].

Definition ConfigureHostTask_Plan c : outcome task_error (option ExecutionFragment) :=
  plan_fragment "ConfigureHost" (
    unless_no_hosts (hosts_by_role 270 "" c) (λ allHosts,
      setHostnameExitNodes ← collect allHosts (set_hostname c);
      updateEtcHostsStep ← build c (call "UpdateEtcHosts" "UpdateEtcHosts");
      updateEtcHostsNodeID ← add_node "UpdateEtcHosts" updateEtcHostsStep allHosts;
      _ ← foreach setHostnameExitNodes (λ exitNodeID, add_dep exitNodeID updateEtcHostsNodeID);
      compute_ends)).

Definition DisableServicesTask_IsRequired c : outcome task_error bool := Ok true.

Definition DisableServicesTask_Plan c : outcome task_error (option ExecutionFragment) :=
  plan_fragment "DisableServices" (
    unless_no_hosts (hosts_by_role 271 "" c) (λ allHosts,
      disableSwapStep ← build c (call "DisableSwap" "DisableSwap");
      disableSelinuxStep ← build c (call "DisableSelinux" "DisableSelinux");
      disableFirewallStep ← build c (call "DisableFirewall" "DisableFirewall");
      _ ← add_node "DisableSwap" disableSwapStep allHosts;
      _ ← add_node "DisableSelinux" disableSelinuxStep allHosts;
      _ ← add_node "DisableFirewall" disableFirewallStep allHosts;
      compute_ends)).

Definition ConfigureKernelTask_IsRequired c : outcome task_error bool := Ok true.

Definition ConfigureKernelTask_Plan c : outcome task_error (option ExecutionFragment) :=
  plan_fragment "ConfigureKernel" (
    unless_no_hosts (hosts_by_role 272 "" c) (λ allHosts,
      loadModulesStep ← build c (call "LoadKernelModules" "LoadKernelModules");
      configureSysctlStep ← build c (call "ConfigureSysctl" "ConfigureSysctl");
      loadModulesNodeID ← add_node "LoadKernelModules" loadModulesStep allHosts;
      configureSysctlNodeID ← add_node "ConfigureSysctl" configureSysctlStep allHosts;
      _ ← add_dep loadModulesNodeID configureSysctlNodeID;
      compute_ends)).

(** Its entry and exit nodes are never computed. *)
Definition CleanOSNodesTask_IsRequired c : outcome task_error bool := Ok true.

Definition CleanOSNodesTask_Plan c : outcome task_error (option ExecutionFragment) :=
  plan_fragment "CleanOSNodes" (
    unless_no_hosts (hosts_by_role 273 "" c) (λ allHosts,
      enableSwap ← build c (call "EnableSwap" "EnableSwap");
      enableSelinux ← build c (call "EnableSelinux" "EnableSelinux");
      enableFirewall ← build c (call "EnableFirewall" "EnableFirewall");
      removeEtcHosts ← build c (call "RemoveEtcHosts" "RemoveEtcHosts");
      removeKernelModules ← build c (call "RemoveKernelModules" "RemoveKernelModules");
      removeSysctl ← build c (call "RemoveSysctl" "RemoveSysctl");
      removeSecurityLimits ← build c (call "RemoveSecurityLimits" "RemoveSecurityLimits");
      _ ← add_node "EnableSwap" enableSwap allHosts;
      _ ← add_node "EnableSelinux" enableSelinux allHosts;
      _ ← add_node "EnableFirewall" enableFirewall allHosts;
      _ ← add_node "RemoveEtcHosts" removeEtcHosts allHosts;
      _ ← add_node "RemoveKernelModules" removeKernelModules allHosts;
      _ ← add_node "RemoveSysctl" removeSysctl allHosts;
      _ ← add_node "RemoveSecurityLimits" removeSecurityLimits allHosts;
      add_deps [("RemoveEtcHosts", "EnableSwap"); ("RemoveEtcHosts", "EnableSelinux");
                ("RemoveEtcHosts", "EnableFirewall"); ("EnableSwap", "RemoveKernelModules");
                ("EnableSelinux", "RemoveSysctl"); ("EnableFirewall", "RemoveSecurityLimits")])).

(** ** Etcd *)

Definition EtcdDeploymentTypeKubexm : string := "kubexm".

Definition etcd_by_kubexm c : outcome task_error bool :=
  spec ← config_spec c;
  Ok (bool_decide (etcd_Type <$> spec_Etcd spec = Some EtcdDeploymentTypeKubexm)).

Definition GenerateEtcdPKITask_IsRequired c : outcome task_error bool := etcd_by_kubexm c.

Definition GenerateEtcdPKITask_Plan c : outcome task_error (option ExecutionFragment) :=
  plan_fragment "GenerateEtcdPKI" (
    controlNode ← control_node c;
    generateEtcdCA ← build c (call "GenerateEtcdCA" "GenerateEtcdCA");
    generateEtcdCerts ← build c (call "GenerateEtcdCerts" "GenerateEtcdCerts");
    _ ← add_node "GenerateEtcdCA" generateEtcdCA [controlNode];
    _ ← add_node "GenerateEtcdCerts" generateEtcdCerts [controlNode];
    _ ← add_dep "GenerateEtcdCA" "GenerateEtcdCerts";
    compute_ends).

Definition DeployEtcdClusterTask_IsRequired c : outcome task_error bool := etcd_by_kubexm c.

(** The nodes of one etcd host.  The first host waits for the preparations, every
    other one for the health check of the host before; the second part of the
    state is [lastNodeExitPoint]. *)
Definition deploy_etcd_host c (localPrepExitPoints : list NodeID) (i : nat) (last : NodeID) h
    : M ExecutionFragment task_error NodeID :=
  let hostName := host_GetName h in
  distributeCertsStep ← build c (call "DistributeEtcdCerts" ("DistributeEtcdCertsTo" +:+ hostName));
  installEtcdStep ← build c (call "InstallEtcd" ("InstallEtcdOn" +:+ hostName));
  configureEtcdStep ←
    (if decide (i = 0) then build c (call_args "ConfigureEtcd" ("ConfigureEtcdNewOn" +:+ hostName) ["new"])
     else build c (call_args "ConfigureEtcd" ("ConfigureEtcdJoinOn" +:+ hostName) ["existing"]));
  installServiceStep ← build c (call "InstallEtcdService" ("InstallEtcdServiceOn" +:+ hostName));
  startEtcdStep ← build c (call "StartEtcd" ("StartEtcdOn" +:+ hostName));
  checkHealthStep ← build c (call "CheckEtcdHealth" ("CheckEtcdHealthOn" +:+ hostName));
  distributeCertsID ← add_node ("DistributeEtcdCerts_" +:+ hostName) distributeCertsStep [Some h];
  installEtcdID ← add_node ("InstallEtcd_" +:+ hostName) installEtcdStep [Some h];
  configureEtcdID ← add_node ("ConfigureEtcd_" +:+ hostName) configureEtcdStep [Some h];
  installServiceID ← add_node ("InstallEtcdService_" +:+ hostName) installServiceStep [Some h];
  startEtcdID ← add_node ("StartEtcd_" +:+ hostName) startEtcdStep [Some h];
  checkHealthID ← add_node ("CheckEtcdHealth_" +:+ hostName) checkHealthStep [Some h];
  _ ← (if decide (i = 0) then
         foreach localPrepExitPoints (λ prepExitID,
           add_deps [(prepExitID, distributeCertsID); (prepExitID, installEtcdID)])
       else mret tt);
  _ ← add_deps [(installEtcdID, configureEtcdID); (distributeCertsID, configureEtcdID);
                (configureEtcdID, installServiceID); (installServiceID, startEtcdID);
                (startEtcdID, checkHealthID)];
  _ ← (if decide (last = "") then mret tt
       else add_deps [(last, distributeCertsID); (last, installEtcdID)]);
  mret checkHealthID.

Fixpoint deploy_etcd_hosts c (prep : list NodeID) (i : nat) (last : NodeID) hosts : M ExecutionFragment task_error unit :=
  match hosts with
  | [] => mret tt
  | host :: hosts =>
      h ← deref host;
      last ← deploy_etcd_host c prep i last h;
      deploy_etcd_hosts c prep (S i) last hosts
  end.

Definition DeployEtcdClusterTask_Plan c : outcome task_error (option ExecutionFragment) :=
  plan_fragment "DeployEtcdCluster" (
    controlNode ← control_node c;
    require_hosts "DeployEtcdCluster" (hosts_by_role 274 RoleEtcd c) (λ etcdHosts,
      generateEtcdCA ← build c (call "GenerateEtcdCA" "GenerateEtcdCA");
      generateEtcdCerts ← build c (call "GenerateEtcdCerts" "GenerateEtcdCerts");
      generateCAID ← add_node "GenerateEtcdCA" generateEtcdCA [controlNode];
      generateCertsID ← add_node "GenerateEtcdCerts" generateEtcdCerts [controlNode];
      _ ← add_dep generateCAID generateCertsID;
      extractEtcdStep ← build c (call "ExtractEtcd" "ExtractEtcd");
      extractEtcdID ← add_node "ExtractEtcd" extractEtcdStep [controlNode];
      _ ← deploy_etcd_hosts c [generateCertsID; extractEtcdID] 0 "" etcdHosts;
      compute_ends)).

Definition CleanEtcdTask_IsRequired c : outcome task_error bool := etcd_by_kubexm c.

Definition CleanEtcdTask_Plan c : outcome task_error (option ExecutionFragment) :=
  plan_fragment "CleanEtcd" (
    unless_no_hosts (hosts_by_role 275 RoleEtcd c) (λ etcdHosts,
      stopEtcd ← build c (call "StopEtcd" "StopEtcd");
      disableEtcd ← build c (call "DisableEtcd" "DisableEtcd");
      removeEtcd ← build c (call "RemoveEtcdMember" "RemoveEtcd");
      cleanEtcdFiles ← build c (call "CleanupEtcd" "CleanEtcdFiles");
      _ ← add_node "StopEtcd" stopEtcd etcdHosts;
      _ ← add_node "DisableEtcd" disableEtcd etcdHosts;
      _ ← add_node "RemoveEtcd" removeEtcd etcdHosts;
      _ ← add_node "CleanEtcdFiles" cleanEtcdFiles etcdHosts;
      _ ← add_deps [("StopEtcd", "DisableEtcd"); ("DisableEtcd", "RemoveEtcd"); ("RemoveEtcd", "CleanEtcdFiles")];
      compute_ends)).

(** ** Container runtimes *)

(** [ctx.GetClusterConfig().Spec.Kubernetes.ContainerRuntime.Type == type] *)
Definition runtime_is (type : string) c : outcome task_error bool :=
  spec ← config_spec c;
  k ← deref_or_panic (spec_Kubernetes spec);
  cr ← deref_or_panic (k8s_ContainerRuntime k);
  Ok (bool_decide (cr_Type cr = type)).

Definition DeployContainerdTask_IsRequired c : outcome task_error bool := runtime_is "containerd" c.

Definition DeployContainerdTask_Plan c : outcome task_error (option ExecutionFragment) :=
  plan_fragment "DeployContainerd" (
    controlNode ← control_node c;
    require_hosts "DeployContainerd" (masters_and_workers 276 c) (λ deployHosts,
      extractContainerd ← build c (call "ExtractContainerd" "ExtractContainerd");
      extractCNI ← build c (call "ExtractCNIPlugins" "ExtractCNI");
      installRunc ← build c (call "InstallRunc" "InstallRunc");
      installCNI ← build c (call "InstallCNIPlugins" "InstallCNI");
      installContainerd ← build c (call "InstallContainerd" "InstallContainerd");
      configureContainerd ← build c (call "ConfigureContainerd" "ConfigureContainerd");
      installService ← build c (call "InstallContainerdService" "InstallContainerdService");
      startContainerd ← build c (call "StartContainerd" "StartContainerd");
      _ ← add_node "ExtractContainerd" extractContainerd [controlNode];
      _ ← add_node "ExtractCNI" extractCNI [controlNode];
      _ ← add_node "InstallRunc" installRunc deployHosts;
      _ ← add_node "InstallCNI" installCNI deployHosts;
      _ ← add_node "InstallContainerd" installContainerd deployHosts;
      _ ← add_node "ConfigureContainerd" configureContainerd deployHosts;
      _ ← add_node "InstallContainerdService" installService deployHosts;
      _ ← add_node "StartContainerd" startContainerd deployHosts;
      _ ← add_deps [("ExtractCNI", "InstallCNI"); ("ExtractContainerd", "InstallContainerd");
                    ("InstallRunc", "ConfigureContainerd"); ("InstallCNI", "ConfigureContainerd");
                    ("InstallContainerd", "ConfigureContainerd");
                    ("ConfigureContainerd", "InstallContainerdService");
                    ("InstallContainerdService", "StartContainerd")];
      compute_ends)).

Definition CleanContainerdTask_IsRequired c : outcome task_error bool := Ok true.

Definition CleanContainerdTask_Plan c : outcome task_error (option ExecutionFragment) :=
  plan_fragment "CleanContainerd" (
    unless_no_hosts (masters_and_workers 278 c) (λ deployHosts,
      stopContainerd ← build c (call "StopContainerd" "StopContainerd");
      disableContainerd ← build c (call "DisableContainerd" "DisableContainerd");
      cleanContainerdFiles ← build c (call "CleanupContainerd" "CleanContainerdFiles");
      _ ← add_node "StopContainerd" stopContainerd deployHosts;
      _ ← add_node "DisableContainerd" disableContainerd deployHosts;
      _ ← add_node "CleanContainerdFiles" cleanContainerdFiles deployHosts;
      _ ← add_deps [("StopContainerd", "DisableContainerd"); ("DisableContainerd", "CleanContainerdFiles")];
      compute_ends)).

Definition DeployDockerTask_IsRequired c : outcome task_error bool := runtime_is "docker" c.

Definition DeployDockerTask_Plan c : outcome task_error (option ExecutionFragment) :=
  plan_fragment "DeployDocker" (
    controlNode ← control_node c;
    require_hosts "DeployDocker" (masters_and_workers 280 c) (λ deployHosts,
      extractDocker ← build c (call "ExtractDocker" "ExtractDocker");
      extractCriDockerd ← build c (call "ExtractCriDockerd" "ExtractCriDockerd");
      installDocker ← build c (call "InstallDocker" "InstallDocker");
      configureDocker ← build c (call "ConfigureDocker" "ConfigureDocker");
      installDockerSvc ← build c (call "SetupDockerService" "InstallDockerService");
      startDocker ← build c (call "StartDocker" "StartDocker");
      installCriDockerd ← build c (call "InstallCriDockerd" "InstallCriDockerd");
      installCriDockerdSvc ← build c (call "SetupCriDockerdService" "InstallCriDockerdService");
      startCriDockerd ← build c (call "StartCriDockerd" "StartCriDockerd");
      installCni ← build c (call "InstallCNIPlugins" "InstallCNIPlugins");
      _ ← add_node "ExtractDocker" extractDocker [controlNode];
      _ ← add_node "ExtractCriDockerd" extractCriDockerd [controlNode];
      _ ← add_node "InstallDocker" installDocker deployHosts;
      _ ← add_node "ConfigureDocker" configureDocker deployHosts;
      _ ← add_node "InstallDockerService" installDockerSvc deployHosts;
      _ ← add_node "StartDocker" startDocker deployHosts;
      _ ← add_node "InstallCriDockerd" installCriDockerd deployHosts;
      _ ← add_node "InstallCriDockerdService" installCriDockerdSvc deployHosts;
      _ ← add_node "StartCriDockerd" startCriDockerd deployHosts;
      _ ← add_node "InstallCNIPlugins" installCni deployHosts;
      _ ← add_deps [("ExtractDocker", "InstallDocker"); ("ExtractCriDockerd", "InstallCriDockerd");
                    ("InstallDocker", "ConfigureDocker"); ("ConfigureDocker", "InstallDockerService");
                    ("InstallDockerService", "StartDocker"); ("InstallCriDockerd", "InstallCriDockerdService");
                    ("StartDocker", "InstallCriDockerdService"); ("InstallCriDockerdService", "StartCriDockerd");
                    ("StartCriDockerd", "InstallCNIPlugins")];
      compute_ends)).

Definition CleanDockerTask_IsRequired c : outcome task_error bool := Ok true.

Definition CleanDockerTask_Plan c : outcome task_error (option ExecutionFragment) :=
  plan_fragment "CleanDocker" (
    unless_no_hosts (masters_and_workers 282 c) (λ deployHosts,
      stopCriDockerd ← build c (call "StopCriDockerd" "StopCriDockerd");
      disableCriDockerd ← build c (call "DisableCriDockerd" "DisableCriDockerd");
      removeCriDockerd ← build c (call "RemoveCriDockerd" "RemoveCriDockerd");
      stopDocker ← build c (call "StopDocker" "StopDocker");
      disableDocker ← build c (call "DisableDocker" "DisableDocker");
      removeDocker ← build c (call "RemoveDocker" "RemoveDocker");
      cleanDockerFiles ← build c (call "CleanDocker" "CleanDockerFiles");
      _ ← add_node "StopCriDockerd" stopCriDockerd deployHosts;
      _ ← add_node "DisableCriDockerd" disableCriDockerd deployHosts;
      _ ← add_node "RemoveCriDockerd" removeCriDockerd deployHosts;
      _ ← add_node "StopDocker" stopDocker deployHosts;
      _ ← add_node "DisableDocker" disableDocker deployHosts;
      _ ← add_node "RemoveDocker" removeDocker deployHosts;
      _ ← add_node "CleanDockerFiles" cleanDockerFiles deployHosts;
      _ ← add_deps [("StopCriDockerd", "StopDocker"); ("StopCriDockerd", "DisableCriDockerd");
                    ("DisableCriDockerd", "RemoveCriDockerd"); ("StopDocker", "DisableDocker");
                    ("DisableDocker", "RemoveDocker"); ("RemoveCriDockerd", "CleanDockerFiles");
                    ("RemoveDocker", "CleanDockerFiles")];
      compute_ends)).

Definition DeployCrioTask_IsRequired c : outcome task_error bool := runtime_is "cri-o" c.

(** A step that must not be nil. *)
Definition build_nonnil c (sc : step_call) : M ExecutionFragment task_error (option StepRef) :=
  step ← build c sc;
  match step with None => lift (Err (StepIsNil sc)) | Some _ => mret step end.

Definition DeployCrioTask_Plan c : outcome task_error (option ExecutionFragment) :=
  plan_fragment "DeployCrio" (
    controlNode ← control_node c;
    require_hosts "DeployCrio" (masters_and_workers 284 c) (λ deployHosts,
      extractCrio ← build_nonnil c (call "ExtractCrio" "ExtractCrio");
      installCrio ← build_nonnil c (call "InstallCrio" "InstallCrio");
      installCni ← build_nonnil c (call "InstallCni" "InstallCni");
      installCrictl ← build_nonnil c (call "InstallCrictl" "InstallCrictl");
      installPolicyJson ← build_nonnil c (call "InstallPolicyJson" "InstallPolicyJson");
      installCrioEnv ← build_nonnil c (call "InstallCrioEnv" "InstallCrioEnv");
      configureCrio ← build_nonnil c (call "ConfigureCrio" "ConfigureCrio");
      configureRegistries ← build_nonnil c (call "ConfigureRegistries" "ConfigureRegistries");
      configureAuth ← build_nonnil c (call "ConfigureAuth" "ConfigureAuth");
      installService ← build_nonnil c (call "InstallCrioService" "InstallCrioService");
      enableCrio ← build_nonnil c (call "EnableCrio" "EnableCrio");
      startCrio ← build_nonnil c (call "StartCrio" "StartCrio");
      _ ← add_node "ExtractCrio" extractCrio [controlNode];
      _ ← add_node "InstallCrio" installCrio deployHosts;
      _ ← add_node "InstallCni" installCni deployHosts;
      _ ← add_node "InstallCrictl" installCrictl deployHosts;
      _ ← add_node "InstallPolicyJson" installPolicyJson deployHosts;
      _ ← add_node "InstallCrioEnv" installCrioEnv deployHosts;
      _ ← add_node "ConfigureCrio" configureCrio deployHosts;
      _ ← add_node "ConfigureRegistries" configureRegistries deployHosts;
      _ ← add_node "ConfigureAuth" configureAuth deployHosts;
      _ ← add_node "InstallCrioService" installService deployHosts;
      _ ← add_node "EnableCrio" enableCrio deployHosts;
      _ ← add_node "StartCrio" startCrio deployHosts;
      _ ← add_deps [("ExtractCrio", "InstallCrio"); ("ExtractCrio", "InstallCni"); ("ExtractCrio", "InstallCrictl");
                    ("ExtractCrio", "InstallPolicyJson"); ("ExtractCrio", "InstallCrioEnv");
                    ("InstallCrio", "ConfigureCrio"); ("InstallCni", "ConfigureCrio");
                    ("InstallPolicyJson", "ConfigureCrio"); ("ConfigureCrio", "InstallCrioService");
                    ("ConfigureRegistries", "InstallCrioService"); ("ConfigureAuth", "InstallCrioService");
                    ("InstallCrioService", "EnableCrio"); ("EnableCrio", "StartCrio")];
      compute_ends)).

Definition CleanCrioTask_IsRequired c : outcome task_error bool := Ok true.

Definition CleanCrioTask_Plan c : outcome task_error (option ExecutionFragment) :=
  plan_fragment "CleanCrio" (
    unless_no_hosts (masters_and_workers 286 c) (λ deployHosts,
      stopCrio ← build c (call "StopCrio" "StopCrio");
      disableCrio ← build c (call "DisableCrio" "DisableCrio");
      cleanCrioFiles ← build c (call_args "CleanCrio" "CleanCrioFiles" ["false"]);
      _ ← add_node "StopCrio" stopCrio deployHosts;
      _ ← add_node "DisableCrio" disableCrio deployHosts;
      _ ← add_node "CleanCrioFiles" cleanCrioFiles deployHosts;
      _ ← add_deps [("StopCrio", "DisableCrio"); ("DisableCrio", "CleanCrioFiles")];
      compute_ends)).

(** ** Kubeadm *)

Definition InstallKubeComponentsTask_IsRequired c : outcome task_error bool := Ok true.

Definition InstallKubeComponentsTask_Plan c : outcome task_error (option ExecutionFragment) :=
  plan_fragment "InstallKubeComponents" (
    require_hosts "InstallKubeComponents" (masters_and_workers 288 c) (λ deployHosts,
      installKubelet ← build c (call "InstallKubelet" "InstallKubelet");
      installKubeletSvc ← build c (call "InstallKubeletService" "InstallKubeletService");
      installKubeletDropin ← build c (call "InstallKubeletDropIn" "InstallKubeletDropin");
      installKubeadm ← build c (call "InstallKubeadm" "InstallKubeadm");
      installKubectl ← build c (call "InstallKubectl" "InstallKubectl");
      _ ← add_node "InstallKubelet" installKubelet deployHosts;
      _ ← add_node "InstallKubeadm" installKubeadm deployHosts;
      _ ← add_node "InstallKubectl" installKubectl deployHosts;
      _ ← add_node "InstallKubeletService" installKubeletSvc deployHosts;
      _ ← add_node "InstallKubeletDropin" installKubeletDropin deployHosts;
      _ ← add_deps [("InstallKubelet", "InstallKubeletService"); ("InstallKubeletService", "InstallKubeletDropin")];
      compute_ends)).

Definition BootstrapFirstMasterTask_IsRequired c : outcome task_error bool := Ok true.

Definition BootstrapFirstMasterTask_Plan c : outcome task_error (option ExecutionFragment) :=
  plan_fragment "BootstrapFirstMaster" (
    require_hosts "BootstrapFirstMaster" (hosts_by_role 290 RoleMaster c) (λ masterHosts,
      firstMasterHost ← deref (masterHosts !! 0);
      generateInitConfig ← build c (call "GenerateInitConfig" "GenerateInitConfig");
      kubeadmInit ← build c (call "KubeadmInit" "KubeadmInit");
      checkControlPlane ← build c (call "KubeadmVerifyControlPlaneHealth" "CheckControlPlaneHealth");
      waitClusterHealthy ← build c (call "KubeadmWaitClusterHealthy" "WaitClusterHealthy");
      copyKubeconfig ← build c (call "CopyKubeconfig" "CopyAdminKubeconfig");
      _ ← add_node "GenerateInitConfig" generateInitConfig [firstMasterHost];
      _ ← add_node "KubeadmInit" kubeadmInit [firstMasterHost];
      _ ← add_node "CheckControlPlaneHealth" checkControlPlane [firstMasterHost];
      _ ← add_node "WaitClusterHealthy" waitClusterHealthy [firstMasterHost];
      _ ← add_node "CopyAdminKubeconfig" copyKubeconfig [firstMasterHost];
      _ ← add_deps [("GenerateInitConfig", "KubeadmInit"); ("KubeadmInit", "CheckControlPlaneHealth");
                    ("CheckControlPlaneHealth", "WaitClusterHealthy"); ("WaitClusterHealthy", "CopyAdminKubeconfig")];
      compute_ends)).

Definition KubeadmJoinMastersTask_IsRequired c : outcome task_error bool :=
  hosts ← hosts_by_role 291 RoleMaster c; Ok (bool_decide (1 < length hosts)).

(** [masterHosts[1:]] panics on an empty slice. *)
Definition KubeadmJoinMastersTask_Plan c : outcome task_error (option ExecutionFragment) :=
  plan_fragment "JoinMasters" (
    masterHosts ← lift (hosts_by_role 292 RoleMaster c);
    _ ← deref (masterHosts !! 0);
    let joinMasterHosts := tail masterHosts in
    if decide (length joinMasterHosts = 0) then mret tt
    else
      generateJoinConfig ← build c (call "GenerateJoinMasterConfig" "GenerateJoinMasterConfig");
      kubeadmJoin ← build c (call "KubeadmJoinMaster" "ExecuteKubeadmJoinMaster");
      _ ← add_node "GenerateJoinMasterConfig" generateJoinConfig joinMasterHosts;
      _ ← add_node "ExecuteKubeadmJoinMaster" kubeadmJoin joinMasterHosts;
      _ ← add_dep "GenerateJoinMasterConfig" "ExecuteKubeadmJoinMaster";
      compute_ends).

Definition JoinWorkersTask_IsRequired c : outcome task_error bool := any_host (hosts_by_role 293 RoleWorker c).

Definition JoinWorkersTask_Plan c : outcome task_error (option ExecutionFragment) :=
  plan_fragment "JoinWorkers" (
    unless_no_hosts (hosts_by_role 294 RoleWorker c) (λ workerHosts,
      generateJoinConfig ← build c (call "GenerateJoinWorkerConfig" "GenerateJoinWorkerConfig");
      kubeadmJoin ← build c (call "KubeadmJoinWorker" "ExecuteKubeadmJoinWorker");
      _ ← add_node "GenerateJoinWorkerConfig" generateJoinConfig workerHosts;
      _ ← add_node "ExecuteKubeadmJoinWorker" kubeadmJoin workerHosts;
      _ ← add_dep "GenerateJoinWorkerConfig" "ExecuteKubeadmJoinWorker";
      compute_ends)).

Definition DrainNodeTask_IsRequired c : outcome task_error bool := Ok true.

Definition drain_worker c (controlNode host : option Host) : M ExecutionFragment task_error unit :=
  worker ← deref host;
  drainStep ← build c (call_args "DrainNode" ("Drain" +:+ host_GetName worker) [host_GetName worker]);
  _ ← add_node ("Drain" +:+ host_GetName worker) drainStep [controlNode]; mret tt.

Definition DrainNodeTask_Plan c : outcome task_error (option ExecutionFragment) :=
  plan_fragment "DrainNode" (
    unless_no_hosts (hosts_by_role 295 RoleWorker c) (λ workerHosts,
      controlNode ← control_node c;
      _ ← foreach workerHosts (drain_worker c controlNode);
      compute_ends)).

Definition ResetNodeTask_IsRequired c : outcome task_error bool := Ok true.

Definition ResetNodeTask_Plan c : outcome task_error (option ExecutionFragment) :=
  plan_fragment "ResetNode" (
    unless_no_hosts (hosts_by_role 296 RoleWorker c) (λ workerHosts,
      _ ← simple_node c "KubeadmReset" "KubeadmReset" workerHosts; compute_ends)).

Definition CleanKubernetesTask_IsRequired c : outcome task_error bool := Ok true.

Definition CleanKubernetesTask_Plan c : outcome task_error (option ExecutionFragment) :=
  plan_fragment "CleanKubernetes" (
    unless_no_hosts (masters_and_workers 297 c) (λ allHosts,
      _ ← simple_node c "KubeadmReset" "KubeadmReset" allHosts; compute_ends)).

Definition CleanKubeComponentsTask_IsRequired c : outcome task_error bool := Ok true.

Definition CleanKubeComponentsTask_Plan c : outcome task_error (option ExecutionFragment) :=
  plan_fragment "CleanKubeComponents" (
    unless_no_hosts (masters_and_workers 299 c) (λ deployHosts,
      _ ← simple_node c "CleanKubeComponents" "CleanKubeComponents" deployHosts; compute_ends)).

Definition UpgradeControlPlaneTask_IsRequired c : outcome task_error bool := any_host (hosts_by_role 301 RoleMaster c).

Definition UpgradeControlPlaneTask_Plan c : outcome task_error (option ExecutionFragment) :=
  plan_fragment "UpgradeControlPlane" (
    unless_no_hosts (hosts_by_role 302 RoleMaster c) (λ controlPlaneNodes,
      firstMaster ← deref (controlPlaneNodes !! 0);
      let otherMasters := tail controlPlaneNodes in
      upgradeApplyStep ← build c (call "KubeadmUpgradeApply" "UpgradeApply");
      _ ← add_node "UpgradeFirstMaster" upgradeApplyStep [firstMaster];
      _ ← (if decide (0 < length otherMasters) then
             upgradeNodeStep ← build c (call "KubeadmUpgradeNode" "UpgradeNode");
             _ ← add_node "UpgradeOtherMasters" upgradeNodeStep otherMasters;
             add_dep "UpgradeFirstMaster" "UpgradeOtherMasters"
           else mret tt);
      compute_ends)).

Definition UpgradeWorkersTask_IsRequired c : outcome task_error bool := any_host (hosts_by_role 303 RoleWorker c).

Definition UpgradeWorkersTask_Plan c : outcome task_error (option ExecutionFragment) :=
  plan_fragment "UpgradeWorkers" (
    unless_no_hosts (hosts_by_role 304 RoleWorker c) (λ workerNodes,
      upgradeNodeStep ← build c (call "KubeadmUpgradeNode" "UpgradeWorkerNode");
      _ ← add_node "UpgradeWorkers" upgradeNodeStep workerNodes;
      compute_ends)).
End tasks.
