(* ===== verification/LoadBalancerTasks.v ===== *)
(** The tasks that install and remove the load balancers of the control plane:
    [task/loadbalancer/]. *)
From S2P Require Import Prelude.
From S2P Require Import Values.
From S2P Require Import Plan.
From S2P Require Import Cluster.
From S2P Require Import Context.
From S2P Require Import GoPath.
From S2P Require Import Task.

Definition KubernetesManifestsDir : string := "/etc/kubernetes/manifests".
Definition ManifestPath : string := filepath_Join [KubernetesManifestsDir; "kube-haproxy.yaml"].
Definition NginxManifestPath : string := filepath_Join [KubernetesManifestsDir; "kube-nginx.yaml"].

Section tasks.
Context `{GoRange, Steps}.
Implicit Types (c : Context) (hosts : list (option Host)).

(** ** Conditions on the configuration *)

(** [cfg.Spec.ControlPlaneEndpoint.HighAvailability]: a nil endpoint panics. *)
Definition high_availability c : outcome task_error (option HighAvailability) :=
  spec ← config_spec c; ep ← deref_or_panic (spec_ControlPlaneEndpoint spec); Ok (ep_HighAvailability ep).

(** [cfg.Spec.Kubernetes != nil && cfg.Spec.Kubernetes.Type == "kubexm"] *)
Definition by_kubexm c : outcome task_error bool :=
  spec ← config_spec c; Ok (bool_decide (k8s_Type <$> spec_Kubernetes spec = Some KubernetesDeploymentTypeKubexm)).

(** [lb != nil && lb.Type == type] *)
Definition lb_is (type : string) (lb : option LoadBalancerConfig) : bool := bool_decide (lb_Type <$> lb = Some type).

(** [lb != nil && lb.Enabled != nil && *lb.Enabled && lb.Type == type] *)
Definition enabled_lb (type : string) (lb : option LoadBalancerConfig) : bool := lb_enabled lb && lb_is type lb.

(** The external load balancers that run behind keepalived. *)
Definition keepalived_type (lb : LoadBalancerConfig) : bool :=
  bool_decide (lb_Type lb = ExternalLBTypeKubexmKH ∨ lb_Type lb = ExternalLBTypeKubexmKN).

(** More than one master, and a host of the role. *)
Definition masters_and (call : nat) (role : string) c : outcome task_error bool :=
  ha ← more_hosts_than 1 (hosts_by_role call RoleMaster c);
  if (ha : bool) then any_host (hosts_by_role (S call) role c) else Ok false.

(** ** Keepalived *)

(** A nil [Enabled] of the external load balancer panics. *)
Definition InstallKeepalivedTask_IsRequired c : outcome task_error bool :=
  ha ← high_availability c;
  match ha ≫= ha_External with
  | None => Ok false
  | Some external =>
      enabled ← deref_or_panic (lb_Enabled external);
      Ok (enabled && keepalived_type external)
  end.

Definition InstallKeepalivedTask_Plan c : outcome task_error (option ExecutionFragment) :=
  plan_fragment "InstallKeepalived" (
    unless_no_hosts (hosts_by_role 310 RoleLoadBalancer c) (λ hosts,
      installPkg ← build c (call "InstallKeepalived" "InstallKeepalivedPackage");
      generateCfg ← build c (call "GenerateKeepalivedConfig" "GenerateKeepalivedConfig");
      deployCfg ← build c (call "DeployKeepalivedConfig" "DeployKeepalivedConfig");
      enableSvc ← build c (call "EnableKeepalived" "EnableKeepalivedService");
      startSvc ← build c (call "StartKeepalived" "StartKeepalivedService");
      _ ← add_node "InstallKeepalivedPackage" installPkg hosts;
      _ ← add_node "GenerateKeepalivedConfig" generateCfg hosts;
      _ ← add_node "DeployKeepalivedConfig" deployCfg hosts;
      _ ← add_node "EnableKeepalivedService" enableSvc hosts;
      _ ← add_node "StartKeepalivedService" startSvc hosts;
      _ ← add_deps [("InstallKeepalivedPackage", "GenerateKeepalivedConfig");
                  ("GenerateKeepalivedConfig", "DeployKeepalivedConfig");
                  ("DeployKeepalivedConfig", "EnableKeepalivedService");
                  ("EnableKeepalivedService", "StartKeepalivedService")];
      compute_ends)).

Definition UninstallKeepalivedTask_IsRequired c : outcome task_error bool := InstallKeepalivedTask_IsRequired c.

Definition UninstallKeepalivedTask_Plan c : outcome task_error (option ExecutionFragment) :=
  plan_fragment "UninstallKeepalived" (
    unless_no_hosts (hosts_by_role 311 RoleLoadBalancer c) (λ hosts,
      stopSvc ← build c (call "StopKeepalived" "StopKeepalivedService");
      disableSvc ← build c (call "DisableKeepalived" "DisableKeepalivedService");
      removePkg ← build c (call "RemoveKeepalived" "RemoveKeepalivedPackage");
      removeCfg ← build c (call "RemoveKeepalivedConfig" "RemoveKeepalivedConfig");
      _ ← add_node "StopKeepalivedService" stopSvc hosts;
      _ ← add_node "DisableKeepalivedService" disableSvc hosts;
      _ ← add_node "RemoveKeepalivedPackage" removePkg hosts;
      _ ← add_node "RemoveKeepalivedConfig" removeCfg hosts;
      _ ← add_deps [("StopKeepalivedService", "DisableKeepalivedService");
                  ("DisableKeepalivedService", "RemoveKeepalivedPackage");
                  ("RemoveKeepalivedPackage", "RemoveKeepalivedConfig")];
      compute_ends)).

(** ** HAProxy: the first pair of tasks *)

(** A nil [Enabled] of high availability panics. *)
Definition InstallHAProxyAsDaemonTask_IsRequired c : outcome task_error bool :=
  ha ← high_availability c;
  match ha with
  | None => Ok false
  | Some ha =>
      enabled ← deref_or_panic (ha_Enabled ha);
      if negb enabled then Ok false
      else if lb_enabled (ha_External ha) then Ok (lb_is ExternalLBTypeKubexmKH (ha_External ha))
      else
        kubexm ← by_kubexm c;
        Ok (kubexm && lb_is InternalLBTypeHAProxy (ha_Internal ha))
  end.

Definition InstallHAProxyAsDaemonTask_Plan c : outcome task_error (option ExecutionFragment) :=
  plan_fragment "InstallHAProxyAsDaemon" (
    unless_no_hosts (hosts_by_role 312 RoleLoadBalancer c) (λ hosts,
      installHAProxy ← build c (call "InstallHAProxy" "InstallHAProxy");
      generateHAProxyConfig ← build c (call "GenerateHAProxyConfig" "GenerateHAProxyConfig");
      enableHAProxy ← build c (call "EnableHAProxy" "EnableHAProxyService");
      startHAProxy ← build c (call "StartHAProxy" "StartHAProxyService");
      _ ← add_node "InstallHAProxy" installHAProxy hosts;
      _ ← add_node "GenerateHAProxyConfig" generateHAProxyConfig hosts;
      _ ← add_node "EnableHAProxyService" enableHAProxy hosts;
      _ ← add_node "StartHAProxyService" startHAProxy hosts;
      _ ← add_deps [("InstallHAProxy", "GenerateHAProxyConfig"); ("GenerateHAProxyConfig", "EnableHAProxyService");
                  ("EnableHAProxyService", "StartHAProxyService")];
      compute_ends)).

Definition UninstallHAProxyAsDaemonTask_IsRequired c : outcome task_error bool :=
  InstallHAProxyAsDaemonTask_IsRequired c.

Definition UninstallHAProxyAsDaemonTask_Plan c : outcome task_error (option ExecutionFragment) :=
  plan_fragment "UninstallHAProxyAsDaemon" (
    unless_no_hosts (hosts_by_role 313 RoleLoadBalancer c) (λ hosts,
      stopHAProxy ← build c (call "StopHAProxy" "StopHAProxyService");
      disableHAProxy ← build c (call "DisableHAProxy" "DisableHAProxyService");
      cleanHAProxy ← build c (call "CleanHAProxy" "CleanHAProxy");
      _ ← add_node "StopHAProxyService" stopHAProxy hosts;
      _ ← add_node "DisableHAProxyService" disableHAProxy hosts;
      _ ← add_node "CleanHAProxy" cleanHAProxy hosts;
      _ ← add_deps [("StopHAProxyService", "DisableHAProxyService"); ("DisableHAProxyService", "CleanHAProxy")];
      compute_ends)).

(** ** kube-vip: the first pair of tasks *)

(** The type of an internal load balancer, enabled or not, goes before the external one. *)
Definition DeployKubeVIPTask_IsRequired c : outcome task_error bool :=
  ha ← high_availability c;
  match ha with
  | None => Ok false
  | Some ha =>
      enabled ← deref_or_panic (ha_Enabled ha);
      if negb enabled then Ok false
      else
        let lbType := if lb_enabled (ha_External ha) then from_option lb_Type "" (ha_External ha) else "" in
        let internal := from_option lb_Type "" (ha_Internal ha) in
        let lbType := if decide (internal = "") then lbType else internal in
        Ok (bool_decide (lbType = InternalLBTypeKubeVIP ∨ lbType = ExternalLBTypeKubeVIP))
  end.

Definition DeployKubeVIPTask_Plan c : outcome task_error (option ExecutionFragment) :=
  plan_fragment "DeployKubeVIP" (
    unless_no_hosts (hosts_by_role 314 RoleControlPlane c) (λ hosts,
      generateKubeVIP ← build c (call "GenerateKubeVipManifest" "GenerateKubeVIPManifest");
      _ ← add_node "GenerateKubeVIPManifest" generateKubeVIP hosts;
      compute_ends)).

Definition CleanupKubeVIPTask_IsRequired c : outcome task_error bool := DeployKubeVIPTask_IsRequired c.

Definition CleanupKubeVIPTask_Plan c : outcome task_error (option ExecutionFragment) :=
  plan_fragment "CleanupKubeVIP" (
    unless_no_hosts (hosts_by_role 315 RoleControlPlane c) (λ hosts,
      cleanKubeVIP ← build c (call "CleanKubeVipManifest" "CleanKubeVIPManifest");
      _ ← add_node "CleanKubeVIPManifest" cleanKubeVIP hosts;
      compute_ends)).

(** ** The second tasks of keepalived *)

Definition DeployKeepalivedTask_IsRequired c : outcome task_error bool :=
  ha ← high_availability c;
  let external := ha ≫= ha_External in
  if ha_enabled ha && lb_enabled external && from_option keepalived_type false external
  then masters_and 332 RoleLoadBalancer c else Ok false.

Definition DeployKeepalivedTask_Plan c : outcome task_error (option ExecutionFragment) :=
  plan_fragment "DeployKeepalived" (
    unless_no_hosts (hosts_by_role 316 RoleLoadBalancer c) (λ loadbalancerHosts,
      generateConfig ← build c (call "GenerateKeepalivedConfig" "GenerateKeepalivedConfig");
      enableService ← build c (call "EnableKeepalived" "EnableKeepalivedService");
      restartService ← build c (call "RestartKeepalived" "RestartKeepalivedService");
      _ ← add_node "GenerateKeepalivedConfig" generateConfig loadbalancerHosts;
      _ ← add_node "EnableKeepalivedService" enableService loadbalancerHosts;
      _ ← add_node "RestartKeepalivedService" restartService loadbalancerHosts;
      _ ← add_deps [("GenerateKeepalivedConfig", "EnableKeepalivedService");
                  ("EnableKeepalivedService", "RestartKeepalivedService")];
      installPackage ← build c (call "InstallKeepalived" "InstallKeepalivedPackage");
      _ ← add_node "InstallKeepalivedPackage" installPackage loadbalancerHosts;
      _ ← add_dep "InstallKeepalivedPackage" "GenerateKeepalivedConfig";
      compute_ends)).

(** A nil high availability, or an enabled one without an external load balancer, panics. *)
Definition CleanKeepalivedTask_IsRequired c : outcome task_error bool :=
  ha ← high_availability c;
  ha ← deref_or_panic ha;
  if is_true_ptr (ha_Enabled ha) then
    external ← deref_or_panic (ha_External ha);
    if is_true_ptr (lb_Enabled external) then any_host (hosts_by_role 334 RoleLoadBalancer c) else Ok false
  else Ok false.

Definition CleanKeepalivedTask_Plan c : outcome task_error (option ExecutionFragment) :=
  plan_fragment "CleanKeepalived" (
    unless_no_hosts (hosts_by_role 317 RoleLoadBalancer c) (λ loadbalancerHosts,
      stopService ← build c (call "StopKeepalived" "StopKeepalivedService");
      disableService ← build c (call "DisableKeepalived" "DisableKeepalivedService");
      cleanFilesAndPackage ← build c (call "CleanKeepalived" "CleanKeepalivedPackage");
      _ ← add_node "StopKeepalivedService" stopService loadbalancerHosts;
      _ ← add_node "DisableKeepalivedService" disableService loadbalancerHosts;
      _ ← add_node "CleanKeepalivedPackage" cleanFilesAndPackage loadbalancerHosts;
      _ ← add_deps [("StopKeepalivedService", "DisableKeepalivedService");
                  ("DisableKeepalivedService", "CleanKeepalivedPackage")];
      compute_ends)).

(** ** HAProxy

    The dependencies of the four tasks that deploy a proxy with its configuration
    are those of the code, [AddDependency(later, earlier)] for the numbered steps. *)

Definition DeployHAProxyAsDaemonTask_IsRequired c : outcome task_error bool :=
  ha ← high_availability c;
  if ha_enabled ha && enabled_lb ExternalLBTypeKubexmKH (ha ≫= ha_External)
  then masters_and 336 RoleLoadBalancer c else Ok false.

Definition DeployHAProxyAsDaemonTask_Plan c : outcome task_error (option ExecutionFragment) :=
  plan_fragment "DeployHAProxyAsDaemon" (
    unless_no_hosts (hosts_by_role 318 RoleLoadBalancer c) (λ loadbalancerHosts,
      prepareDirs ← build c (call_args "PrepareLBDirs" "PrepareHaproxyDaemonDirs" ["/etc/haproxy"]);
      renderConfig ← build c (call "RenderHAProxyConfig" "RenderHAProxyDaemonConfig");
      copyConfig ← build c (call_args "CopyFile" "CopyHAProxyDaemonConfig" ["/etc/haproxy/haproxy.cfg"; "haproxy_rendered_config"; "0644"]);
      installPackage ← build c (call "InstallHAProxy" "InstallHAProxyPackage");
      enableService ← build c (call "EnableHAProxy" "EnableHAProxyService");
      restartService ← build c (call "RestartHAProxy" "RestartHAProxyService");
      _ ← add_node "PrepareHaproxyDaemonDirs" prepareDirs loadbalancerHosts;
      _ ← add_node "RenderHAProxyDaemonConfig" renderConfig loadbalancerHosts;
      _ ← add_node "CopyHAProxyDaemonConfig" copyConfig loadbalancerHosts;
      _ ← add_node "InstallHAProxyPackage" installPackage loadbalancerHosts;
      _ ← add_node "EnableHAProxyService" enableService loadbalancerHosts;
      _ ← add_node "RestartHAProxyService" restartService loadbalancerHosts;
      _ ← add_deps [("RenderHAProxyDaemonConfig", "PrepareHaproxyDaemonDirs");
                  ("CopyHAProxyDaemonConfig", "RenderHAProxyDaemonConfig");
                  ("InstallHAProxyPackage", "CopyHAProxyDaemonConfig");
                  ("EnableHAProxyService", "InstallHAProxyPackage");
                  ("RestartHAProxyService", "EnableHAProxyService")];
      compute_ends)).

(** [Enabled] must be set, true or false. *)
Definition CleanHAProxyAsDaemonTask_IsRequired c : outcome task_error bool :=
  ha ← high_availability c;
  ha ← deref_or_panic ha;
  match ha_Enabled ha with
  | None => Ok false
  | Some _ =>
      external ← deref_or_panic (ha_External ha);
      if decide (lb_Type external = ExternalLBTypeKubexmKH)
      then more_hosts_than 1 (hosts_by_role 338 RoleMaster c) else Ok false
  end.

Definition CleanHAProxyAsDaemonTask_Plan c : outcome task_error (option ExecutionFragment) :=
  plan_fragment "CleanHAProxyAsDaemon" (
    unless_no_hosts (hosts_by_role 319 RoleLoadBalancer c) (λ loadbalancerHosts,
      stopService ← build c (call "StopHAProxy" "StopHAProxyService");
      disableService ← build c (call "DisableHAProxy" "DisableHAProxyService");
      cleanFilesAndPackage ← build c (call "CleanHAProxy" "CleanHAProxyFilesAndPackage");
      _ ← add_node "StopHAProxyService" stopService loadbalancerHosts;
      _ ← add_node "DisableHAProxyService" disableService loadbalancerHosts;
      _ ← add_node "CleanHAProxyFilesAndPackage" cleanFilesAndPackage loadbalancerHosts;
      _ ← add_deps [("StopHAProxyService", "DisableHAProxyService");
                  ("DisableHAProxyService", "CleanHAProxyFilesAndPackage")];
      compute_ends)).

Definition DeployHAProxyAsStaticPodTask_IsRequired c : outcome task_error bool :=
  ha ← high_availability c;
  if ha_enabled ha && enabled_lb InternalLBTypeHAProxy (ha ≫= ha_Internal) then
    kubexm ← by_kubexm c;
    if (kubexm : bool) then Ok false else more_hosts_than 1 (hosts_by_role 339 RoleMaster c)
  else Ok false.

Definition DeployHAProxyAsStaticPodTask_Plan c : outcome task_error (option ExecutionFragment) :=
  plan_fragment "DeployHAProxyAsStaticPod" (
    unless_no_hosts (hosts_by_role 320 RoleWorker c) (λ workerHosts,
      prepareDirs ← build c (call_args "PrepareLBDirs" "PrepareHaproxyDirs" ["/etc/haproxy"]);
      renderConfig ← build c (call "RenderHAProxyConfig" "RenderHAProxyConfig");
      copyConfig ← build c (call_args "CopyFile" "CopyHAProxyConfig" ["/etc/haproxy/haproxy.cfg"; "haproxy_rendered_config"; "0644"]);
      renderPod ← build c (call "RenderHAProxyPodManifest" "RenderHAProxyPodManifest");
      copyPod ← build c (call_args "CopyFile" "CopyHAProxyPodManifest" [ManifestPath; "haproxy_rendered_pod_manifest"; "0644"]);
      _ ← add_node "PrepareHaproxyDirs" prepareDirs workerHosts;
      _ ← add_node "RenderHAProxyConfig" renderConfig workerHosts;
      _ ← add_node "CopyHAProxyConfig" copyConfig workerHosts;
      _ ← add_node "RenderHAProxyPodManifest" renderPod workerHosts;
      _ ← add_node "CopyHAProxyPodManifest" copyPod workerHosts;
      _ ← add_deps [("RenderHAProxyConfig", "PrepareHaproxyDirs"); ("CopyHAProxyConfig", "RenderHAProxyConfig");
                  ("RenderHAProxyPodManifest", "CopyHAProxyConfig");
                  ("CopyHAProxyPodManifest", "RenderHAProxyPodManifest")];
      compute_ends)).

Definition CleanHAProxyStaticPodTask_IsRequired c : outcome task_error bool :=
  ha ← high_availability c;
  ha ← deref_or_panic ha;
  match ha_Enabled ha with
  | None => Ok false
  | Some _ =>
      internal ← deref_or_panic (ha_Internal ha);
      if decide (lb_Type internal = InternalLBTypeHAProxy)
      then more_hosts_than 1 (hosts_by_role 340 RoleMaster c) else Ok false
  end.

Definition CleanHAProxyStaticPodTask_Plan c : outcome task_error (option ExecutionFragment) :=
  plan_fragment "CleanHAProxyStaticPod" (
    unless_no_hosts (hosts_by_role 321 RoleWorker c) (λ workerHosts,
      cleanStep ← build c (call "CleanHAProxyStaticPod" "CleanHAProxyStaticPodResources");
      _ ← add_node "CleanHAProxyStaticPodResources" cleanStep workerHosts;
      compute_ends)).

Definition DeployHAProxyOnWorkersTask_IsRequired c : outcome task_error bool :=
  spec ← config_spec c;
  match spec_ControlPlaneEndpoint spec ≫= ep_HighAvailability with
  | None => Ok false
  | Some ha =>
      if is_true_ptr (ha_Enabled ha) && enabled_lb InternalLBTypeHAProxy (ha_Internal ha) then
        kubexm ← by_kubexm c;
        if (kubexm : bool) then masters_and 341 RoleWorker c else Ok false
      else Ok false
  end.

Definition DeployHAProxyOnWorkersTask_Plan c : outcome task_error (option ExecutionFragment) :=
  plan_fragment "DeployHAProxyOnWorkers" (
    unless_no_hosts (hosts_by_role 322 RoleWorker c) (λ workerHosts,
      prepareDirs ← build c (call_args "PrepareLBDirs" "PrepareHaproxyWorkerDirs" ["/etc/haproxy"]);
      renderConfig ← build c (call "RenderHAProxyConfig" "RenderHAProxyWorkerConfig");
      copyConfig ← build c (call_args "CopyFile" "CopyHAProxyWorkerConfig" ["/etc/haproxy/haproxy.cfg"; "haproxy_rendered_config"; "0644"]);
      renderService ← build c (call "RenderHAProxyService" "RenderHAProxyWorkerService");
      copyService ← build c (call_args "CopyFile" "CopyHAProxyWorkerService" ["/etc/systemd/system/haproxy.service"; "haproxy_worker_service"; "0644"]);
      enableService ← build c (call "EnableHAProxy" "EnableHAProxyWorkerService");
      restartService ← build c (call "RestartHAProxy" "RestartHAProxyWorkerService");
      _ ← add_node "PrepareHaproxyWorkerDirs" prepareDirs workerHosts;
      _ ← add_node "RenderHAProxyWorkerConfig" renderConfig workerHosts;
      _ ← add_node "CopyHAProxyWorkerConfig" copyConfig workerHosts;
      _ ← add_node "RenderHAProxyWorkerService" renderService workerHosts;
      _ ← add_node "CopyHAProxyWorkerService" copyService workerHosts;
      _ ← add_node "EnableHAProxyWorkerService" enableService workerHosts;
      _ ← add_node "RestartHAProxyWorkerService" restartService workerHosts;
      _ ← add_deps [("RenderHAProxyWorkerConfig", "PrepareHaproxyWorkerDirs");
                  ("CopyHAProxyWorkerConfig", "RenderHAProxyWorkerConfig");
                  ("RenderHAProxyWorkerService", "CopyHAProxyWorkerConfig");
                  ("CopyHAProxyWorkerService", "RenderHAProxyWorkerService");
                  ("EnableHAProxyWorkerService", "CopyHAProxyWorkerService");
                  ("RestartHAProxyWorkerService", "EnableHAProxyWorkerService")];
      compute_ends)).

Definition CleanHAProxyOnWorkersTask_IsRequired c : outcome task_error bool :=
  ha ← high_availability c;
  if ha_enabled ha then
    kubexm ← by_kubexm c;
    if kubexm && enabled_lb InternalLBTypeHAProxy (ha ≫= ha_Internal) then any_host (hosts_by_role 345 RoleWorker c) else Ok false
  else Ok false.

Definition CleanHAProxyOnWorkersTask_Plan c : outcome task_error (option ExecutionFragment) :=
  plan_fragment "CleanHAProxyOnWorkers" (
    unless_no_hosts (hosts_by_role 323 RoleWorker c) (λ workerHosts,
      stopService ← build c (call_args "StopLBService" "StopHAProxyWorkerService" ["haproxy"]);
      disableService ← build c (call_args "DisableLBService" "DisableHAProxyWorkerService" ["haproxy"]);
      removeConfig ← build c (call_args "RemoveLBFile" "RemoveHAProxyWorkerConfig" ["/etc/haproxy/haproxy.cfg"]);
      removeServiceFile ← build c (call_args "RemoveLBFile" "RemoveHAProxyWorkerServiceFile" ["/etc/systemd/system/haproxy.service"]);
      _ ← add_node "StopHAProxyWorkerService" stopService workerHosts;
      _ ← add_node "DisableHAProxyWorkerService" disableService workerHosts;
      _ ← add_node "RemoveHAProxyWorkerConfig" removeConfig workerHosts;
      _ ← add_node "RemoveHAProxyWorkerServiceFile" removeServiceFile workerHosts;
      _ ← add_deps [("StopHAProxyWorkerService", "DisableHAProxyWorkerService");
                  ("DisableHAProxyWorkerService", "RemoveHAProxyWorkerConfig");
                  ("RemoveHAProxyWorkerConfig", "RemoveHAProxyWorkerServiceFile")];
      compute_ends)).

(** ** Nginx *)

Definition DeployNginxAsDaemonTask_IsRequired c : outcome task_error bool :=
  ha ← high_availability c;
  if ha_enabled ha && enabled_lb ExternalLBTypeKubexmKN (ha ≫= ha_External)
  then masters_and 347 RoleLoadBalancer c else Ok false.

Definition DeployNginxAsDaemonTask_Plan c : outcome task_error (option ExecutionFragment) :=
  plan_fragment "DeployNginxAsDaemon" (
    unless_no_hosts (hosts_by_role 324 RoleLoadBalancer c) (λ loadbalancerHosts,
      prepareDirs ← build c (call_args "PrepareLBDirs" "PrepareNginxDaemonDirs" ["/etc/nginx"]);
      renderConfig ← build c (call "RenderNginxConfig" "RenderNginxDaemonConfig");
      copyConfig ← build c (call_args "CopyFile" "CopyNginxDaemonConfig" ["/etc/nginx/nginx.conf"; "nginx_rendered_config"; "0644"]);
      installPackage ← build c (call "InstallNginx" "InstallNginxPackage");
      enableService ← build c (call "EnableNginx" "EnableNginxService");
      restartService ← build c (call "RestartNginx" "RestartNginxService");
      _ ← add_node "PrepareNginxDaemonDirs" prepareDirs loadbalancerHosts;
      _ ← add_node "RenderNginxDaemonConfig" renderConfig loadbalancerHosts;
      _ ← add_node "CopyNginxDaemonConfig" copyConfig loadbalancerHosts;
      _ ← add_node "InstallNginxPackage" installPackage loadbalancerHosts;
      _ ← add_node "EnableNginxService" enableService loadbalancerHosts;
      _ ← add_node "RestartNginxService" restartService loadbalancerHosts;
      _ ← add_deps [("RenderNginxDaemonConfig", "PrepareNginxDaemonDirs");
                  ("CopyNginxDaemonConfig", "RenderNginxDaemonConfig");
                  ("InstallNginxPackage", "CopyNginxDaemonConfig"); ("EnableNginxService", "InstallNginxPackage");
                  ("RestartNginxService", "EnableNginxService")];
      compute_ends)).

Definition CleanNginxAsDaemonTask_IsRequired c : outcome task_error bool :=
  ha ← high_availability c;
  ha ← deref_or_panic ha;
  if is_true_ptr (ha_Enabled ha) then
    external ← deref_or_panic (ha_External ha);
    if decide (lb_Type external = ExternalLBTypeKubexmKN)
    then any_host (hosts_by_role 349 RoleLoadBalancer c) else Ok false
  else Ok false.

Definition CleanNginxAsDaemonTask_Plan c : outcome task_error (option ExecutionFragment) :=
  plan_fragment "CleanNginxAsDaemon" (
    unless_no_hosts (hosts_by_role 325 RoleLoadBalancer c) (λ loadbalancerHosts,
      stopService ← build c (call "StopNginx" "StopNginxService");
      disableService ← build c (call "DisableNginx" "DisableNginxService");
      cleanFilesAndPackage ← build c (call "CleanNginx" "CleanNginxPackage");
      _ ← add_node "StopNginxService" stopService loadbalancerHosts;
      _ ← add_node "DisableNginxService" disableService loadbalancerHosts;
      _ ← add_node "CleanNginxPackage" cleanFilesAndPackage loadbalancerHosts;
      _ ← add_deps [("StopNginxService", "DisableNginxService"); ("DisableNginxService", "CleanNginxPackage")];
      compute_ends)).

Definition DeployNginxAsStaticPodTask_IsRequired c : outcome task_error bool :=
  ha ← high_availability c;
  if ha_enabled ha && enabled_lb InternalLBTypeNginx (ha ≫= ha_Internal) then
    kubexm ← by_kubexm c;
    if (kubexm : bool) then Ok false else more_hosts_than 1 (hosts_by_role 350 RoleMaster c)
  else Ok false.

Definition DeployNginxAsStaticPodTask_Plan c : outcome task_error (option ExecutionFragment) :=
  plan_fragment "DeployNginxAsStaticPod" (
    unless_no_hosts (hosts_by_role 326 RoleWorker c) (λ workerHosts,
      prepareDirs ← build c (call_args "PrepareLBDirs" "PrepareNginxStaticPodDirs" ["/etc/nginx"]);
      renderConfig ← build c (call "RenderNginxConfig" "RenderNginxStaticPodConfig");
      copyConfig ← build c (call_args "CopyFile" "CopyNginxStaticPodConfig" ["/etc/nginx/nginx.conf"; "nginx_rendered_config"; "0644"]);
      renderPod ← build c (call "RenderNginxPodManifest" "RenderNginxStaticPodManifest");
      copyPod ← build c (call_args "CopyFile" "CopyNginxStaticPodManifest" [NginxManifestPath; "nginx_rendered_pod_manifest"; "0644"]);
      _ ← add_node "PrepareNginxStaticPodDirs" prepareDirs workerHosts;
      _ ← add_node "RenderNginxStaticPodConfig" renderConfig workerHosts;
      _ ← add_node "CopyNginxStaticPodConfig" copyConfig workerHosts;
      _ ← add_node "RenderNginxStaticPodManifest" renderPod workerHosts;
      _ ← add_node "CopyNginxStaticPodManifest" copyPod workerHosts;
      _ ← add_deps [("RenderNginxStaticPodConfig", "PrepareNginxStaticPodDirs");
                  ("CopyNginxStaticPodConfig", "RenderNginxStaticPodConfig");
                  ("RenderNginxStaticPodManifest", "CopyNginxStaticPodConfig");
                  ("CopyNginxStaticPodManifest", "RenderNginxStaticPodManifest")];
      compute_ends)).

Definition CleanNginxStaticPodTask_IsRequired c : outcome task_error bool :=
  ha ← high_availability c;
  ha ← deref_or_panic ha;
  if is_true_ptr (ha_Enabled ha) then
    internal ← deref_or_panic (ha_Internal ha);
    if decide (lb_Type internal = InternalLBTypeNginx)
    then more_hosts_than 1 (hosts_by_role 351 RoleMaster c) else Ok false
  else Ok false.

Definition CleanNginxStaticPodTask_Plan c : outcome task_error (option ExecutionFragment) :=
  plan_fragment "CleanNginxStaticPod" (
    unless_no_hosts (hosts_by_role 327 RoleWorker c) (λ workerHosts,
      cleanStep ← build c (call "CleanNginxStaticPod" "CleanNginxStaticPodResources");
      _ ← add_node "CleanNginxStaticPodResources" cleanStep workerHosts;
      compute_ends)).

Definition DeployNginxOnWorkersTask_IsRequired c : outcome task_error bool :=
  spec ← config_spec c;
  match spec_ControlPlaneEndpoint spec ≫= ep_HighAvailability with
  | None => Ok false
  | Some ha =>
      if is_true_ptr (ha_Enabled ha) && enabled_lb InternalLBTypeNginx (ha_Internal ha) then
        kubexm ← by_kubexm c;
        if (kubexm : bool) then masters_and 343 RoleWorker c else Ok false
      else Ok false
  end.

Definition DeployNginxOnWorkersTask_Plan c : outcome task_error (option ExecutionFragment) :=
  plan_fragment "DeployNginxOnWorkers" (
    unless_no_hosts (hosts_by_role 328 RoleWorker c) (λ workerHosts,
      prepareDirs ← build c (call_args "PrepareLBDirs" "PrepareNginxWorkerDirs" ["/etc/nginx"]);
      renderConfig ← build c (call "RenderNginxConfig" "RenderNginxWorkerConfig");
      copyConfig ← build c (call_args "CopyFile" "CopyNginxWorkerConfig" ["/etc/nginx/nginx.conf"; "nginx_rendered_config"; "0644"]);
      installPackage ← build c (call "InstallNginx" "InstallNginxWorkerPackage");
      enableService ← build c (call "EnableNginx" "EnableNginxWorkerService");
      restartService ← build c (call "RestartNginx" "RestartNginxWorkerService");
      _ ← add_node "PrepareNginxWorkerDirs" prepareDirs workerHosts;
      _ ← add_node "RenderNginxWorkerConfig" renderConfig workerHosts;
      _ ← add_node "CopyNginxWorkerConfig" copyConfig workerHosts;
      _ ← add_node "InstallNginxWorkerPackage" installPackage workerHosts;
      _ ← add_node "EnableNginxWorkerService" enableService workerHosts;
      _ ← add_node "RestartNginxWorkerService" restartService workerHosts;
      _ ← add_deps [("RenderNginxWorkerConfig", "PrepareNginxWorkerDirs");
                  ("CopyNginxWorkerConfig", "RenderNginxWorkerConfig");
                  ("InstallNginxWorkerPackage", "CopyNginxWorkerConfig");
                  ("EnableNginxWorkerService", "InstallNginxWorkerPackage");
                  ("RestartNginxWorkerService", "EnableNginxWorkerService")];
      compute_ends)).

Definition CleanNginxOnWorkersTask_IsRequired c : outcome task_error bool :=
  ha ← high_availability c;
  if ha_enabled ha then
    kubexm ← by_kubexm c;
    if kubexm && enabled_lb InternalLBTypeNginx (ha ≫= ha_Internal) then any_host (hosts_by_role 346 RoleWorker c) else Ok false
  else Ok false.

Definition CleanNginxOnWorkersTask_Plan c : outcome task_error (option ExecutionFragment) :=
  plan_fragment "CleanNginxOnWorkers" (
    unless_no_hosts (hosts_by_role 329 RoleWorker c) (λ workerHosts,
      stopService ← build c (call_args "StopLBService" "StopNginxWorkerService" ["nginx"]);
      disableService ← build c (call_args "DisableLBService" "DisableNginxWorkerService" ["nginx"]);
      removeConfig ← build c (call_args "RemoveLBFile" "RemoveNginxWorkerConfig" ["/etc/nginx/nginx.conf"]);
      removeServiceFile ← build c (call_args "RemoveLBFile" "RemoveNginxWorkerServiceFile" ["/etc/systemd/system/nginx.service"]);
      _ ← add_node "StopNginxWorkerService" stopService workerHosts;
      _ ← add_node "DisableNginxWorkerService" disableService workerHosts;
      _ ← add_node "RemoveNginxWorkerConfig" removeConfig workerHosts;
      _ ← add_node "RemoveNginxWorkerServiceFile" removeServiceFile workerHosts;
      _ ← add_deps [("StopNginxWorkerService", "DisableNginxWorkerService");
                  ("DisableNginxWorkerService", "RemoveNginxWorkerConfig");
                  ("RemoveNginxWorkerConfig", "RemoveNginxWorkerServiceFile")];
      compute_ends)).

(** ** kube-vip *)

Definition DeployKubeVipTask_IsRequired c : outcome task_error bool :=
  ha ← high_availability c;
  if negb (ha_enabled ha) then Ok false
  else if enabled_lb ExternalLBTypeKubeVIP (ha ≫= ha_External) then more_hosts_than 1 (hosts_by_role 352 RoleMaster c)
  else if enabled_lb InternalLBTypeKubeVIP (ha ≫= ha_Internal) then more_hosts_than 1 (hosts_by_role 353 RoleMaster c)
  else Ok false.

Definition DeployKubeVipTask_Plan c : outcome task_error (option ExecutionFragment) :=
  plan_fragment "DeployKubeVip" (
    unless_no_hosts (hosts_by_role 330 RoleMaster c) (λ masterHosts,
      generateVipManifest ← build c (call "GenerateKubeVipManifest" "GenerateKubeVipManifest");
      _ ← add_node "GenerateKubeVipManifestOnAllMasters" generateVipManifest masterHosts;
      compute_ends)).

(** The external load balancer need not be enabled. *)
Definition CleanKubeVipTask_IsRequired c : outcome task_error bool :=
  ha ← high_availability c;
  if negb (ha_enabled ha) then Ok false
  else if lb_is ExternalLBTypeKubeVIP (ha ≫= ha_External) then more_hosts_than 1 (hosts_by_role 354 RoleMaster c)
  else if enabled_lb InternalLBTypeKubeVIP (ha ≫= ha_Internal) then more_hosts_than 1 (hosts_by_role 355 RoleMaster c)
  else Ok false.

Definition CleanKubeVipTask_Plan c : outcome task_error (option ExecutionFragment) :=
  plan_fragment "CleanKubeVip" (
    unless_no_hosts (hosts_by_role 331 RoleMaster c) (λ masterHosts,
      cleanVipManifest ← build c (call "CleanKubeVipManifest" "CleanKubeVipManifest");
      _ ← add_node "CleanKubeVipManifestOnAllMasters" cleanVipManifest masterHosts;
      compute_ends)).

End tasks.
