(* ===== verification/ServiceTasks.v ===== *)
(** The tasks that install and remove what runs on a cluster: [task/network/],
    [task/storage/], [task/dns/], [task/cd/], [task/gateway/], [task/registry/harbor/],
    [task/registry/registry/] and [task/addon/]. *)
From S2P Require Import Prelude.
From S2P Require Import Values.
From S2P Require Import Plan.
From S2P Require Import Cluster.
From S2P Require Import Context.
From S2P Require Import GoPath.
From S2P Require Import GoText.
From S2P Require Import Task.

Section tasks.
Context `{GoRange, Steps}.
Implicit Types (c : Context) (hosts : list (option Host)).

(** ** Conditions on the configuration *)

Definition plugin_is (plugin : string) c : outcome task_error bool :=
  spec ← config_spec c; Ok (bool_decide (net_Plugin <$> spec_Network spec = Some plugin)).

(** A nil network section panics. *)
Definition network_plugin c : outcome task_error string :=
  spec ← config_spec c; network ← deref_or_panic (spec_Network spec); Ok (net_Plugin network).

(** A nil network section panics. *)
Definition multus_enabled c : outcome task_error bool :=
  spec ← config_spec c; network ← deref_or_panic (spec_Network spec); Ok (default false (mjoin (mjoin (net_Multus network)))).

Definition storage_enabled (provider : Storage → option (option bool)) c : outcome task_error bool :=
  spec ← config_spec c; Ok (default false (mjoin (spec_Storage spec ≫= provider))).

(** A nil [Enabled] panics. *)
Definition node_local_dns c : outcome task_error bool :=
  spec ← config_spec c;
  match spec_DNS spec ≫= dns_NodeLocalDNS with None => Ok false | Some enabled => deref_or_panic enabled end.

Definition argocd_addon c : outcome task_error bool :=
  spec ← config_spec c; Ok (existsb (λ v, bool_decide (addon_Name v = "argocd")) (spec_Addons spec)).

Definition ingress_nginx c : outcome task_error bool :=
  spec ← config_spec c; Ok (default false (mjoin (spec_Gateway spec ≫= gw_IngressNginx))).

Definition local_harbor c : outcome task_error bool :=
  spec ← config_spec c; Ok (bool_decide (lr_Type <$> (spec_Registry spec ≫= reg_LocalDeployment) = Some RegistryTypeHarbor)).

(** A nil registry section panics. *)
Definition local_registry (call : nat) c : outcome task_error bool :=
  spec ← config_spec c;
  registry ← deref_or_panic (spec_Registry spec);
  if decide (lr_Type <$> reg_LocalDeployment registry = Some "registry") then any_host (hosts_by_role call RoleRegistry c) else Ok false.

(** ** Network plugins *)

Definition DeployCalicoTask_IsRequired c : outcome task_error bool := plugin_is CNITypeCalico c.

Definition DeployCalicoTask_Plan c : outcome task_error (option ExecutionFragment) :=
  plan_fragment "DeployCalico" (
    _ ← control_node c;
    require_hosts "DeployCalico" (hosts_by_role 360 RoleMaster c) (λ masterHosts,
      executionHost ← deref (masterHosts !! 0);
      generateConfig ← build c (call "GenerateCalicoValues" "GenerateCalicoValues");
      distributeCalico ← build c (call "DistributeCalicoArtifacts" "DistributeCalico");
      installCalico ← build c (call "InstallCalicoHelmChart" "InstallCalico");
      installCalicoctl ← build c (call "InstallCalicoctl" "InstallCalicoctl");
      _ ← add_node "GenerateCalicoValues" generateConfig [executionHost];
      _ ← add_node "DistributeCalico" distributeCalico [executionHost];
      _ ← add_node "InstallCalico" installCalico [executionHost];
      _ ← add_node "InstallCalicoctl" installCalicoctl masterHosts;
      _ ← add_deps [("GenerateCalicoValues", "DistributeCalico"); ("DistributeCalico", "InstallCalico")];
      compute_ends)).

Definition CleanCalicoTask_IsRequired c : outcome task_error bool := plugin_is CNITypeCalico c.

Definition CleanCalicoTask_Plan c : outcome task_error (option ExecutionFragment) :=
  plan_fragment "CleanCalico" (
    unless_no_hosts (hosts_by_role 361 RoleMaster c) (λ masterHosts,
      executionHost ← deref (masterHosts !! 0);
      cleanCalicoStep ← build c (call "CleanCalico" "RemoveCalicoResources");
      removeCalicoctlStep ← build c (call "RemoveCalicoctl" "RemoveCalicoctlBinary");
      _ ← add_node "RemoveCalicoResources" cleanCalicoStep [executionHost];
      _ ← add_node "RemoveCalicoctlBinary" removeCalicoctlStep masterHosts;
      compute_ends)).

Definition DeployFlannelTask_IsRequired c : outcome task_error bool := plugin_is CNITypeFlannel c.

Definition DeployFlannelTask_Plan c : outcome task_error (option ExecutionFragment) :=
  plan_fragment "DeployFlannel" (
    controlNode ← control_node c;
    require_hosts "DeployFlannel" (hosts_by_role 362 RoleMaster c) (λ masterHosts,
      executionHost ← deref (masterHosts !! 0);
      generateStep ← build c (call "GenerateFlannelValues" "GenerateFlannelManifest");
      distributeStep ← build c (call "DistributeFlannelArtifacts" "DistributeFlannelManifest");
      installStep ← build c (call "InstallFlannelHelmChart" "InstallFlannel");
      _ ← add_node "GenerateFlannelManifest" generateStep [controlNode];
      _ ← add_node "DistributeFlannelManifest" distributeStep [executionHost];
      _ ← add_node "InstallFlannel" installStep [executionHost];
      _ ← add_deps [("GenerateFlannelManifest", "DistributeFlannelManifest");
                    ("DistributeFlannelManifest", "InstallFlannel")];
      compute_ends)).

Definition CleanFlannelTask_IsRequired c : outcome task_error bool := plugin_is CNITypeFlannel c.

Definition CleanFlannelTask_Plan c : outcome task_error (option ExecutionFragment) :=
  plan_fragment "CleanFlannel" (
    unless_no_hosts (hosts_by_role 363 RoleMaster c) (λ masterHosts,
      executionHost ← deref (masterHosts !! 0);
      workerHosts ← lift (hosts_by_role 364 RoleWorker c);
      let allHosts := masterHosts ++ workerHosts in
      if decide (length allHosts = 0) then mret tt else
      uninstallChartStep ← build c (call "UninstallFlannelHelmChart" "UninstallFlannelChart");
      cleanFilesStep ← build c (call "CleanFlannelNodeFiles" "CleanFlannelNodeFiles");
      _ ← add_node "UninstallFlannelChart" uninstallChartStep [executionHost];
      _ ← add_node "CleanFlannelNodeFiles" cleanFilesStep allHosts;
      _ ← add_dep "UninstallFlannelChart" "CleanFlannelNodeFiles";
      compute_ends)).

Definition DeployCiliumTask_IsRequired c : outcome task_error bool := plugin_is CNITypeCilium c.

Definition DeployCiliumTask_Plan c : outcome task_error (option ExecutionFragment) :=
  plan_fragment "DeployCilium" (
    controlNode ← control_node c;
    require_hosts "DeployCilium" (hosts_by_role 365 RoleMaster c) (λ masterHosts,
      executionHost ← deref (masterHosts !! 0);
      generateStep ← build c (call "GenerateCiliumValues" "GenerateCiliumManifest");
      distributeStep ← build c (call "DistributeCiliumArtifacts" "DistributeCiliumAssets");
      installStep ← build c (call "InstallCiliumHelmChart" "InstallCilium");
      _ ← add_node "GenerateCiliumManifest" generateStep [controlNode];
      _ ← add_node "DistributeCiliumAssets" distributeStep [executionHost];
      _ ← add_node "InstallCilium" installStep [executionHost];
      _ ← add_deps [("GenerateCiliumManifest", "DistributeCiliumAssets");
                    ("DistributeCiliumAssets", "InstallCilium")];
      compute_ends)).

Definition CleanCiliumTask_IsRequired c : outcome task_error bool := plugin_is CNITypeCilium c.

Definition CleanCiliumTask_Plan c : outcome task_error (option ExecutionFragment) :=
  plan_fragment "CleanCilium" (
    unless_no_hosts (hosts_by_role 366 RoleMaster c) (λ masterHosts,
      executionHost ← deref (masterHosts !! 0);
      workerHosts ← lift (hosts_by_role 367 RoleWorker c);
      let allHosts := masterHosts ++ workerHosts in
      if decide (length allHosts = 0) then mret tt else
      uninstallChartStep ← build c (call "UninstallCiliumHelmChart" "UninstallCiliumChartAndCRDs");
      cleanStateStep ← build c (call "CleanCiliumNodeState" "CleanCiliumNodeState");
      _ ← add_node "UninstallCiliumChartAndCRDs" uninstallChartStep [executionHost];
      _ ← add_node "CleanCiliumNodeState" cleanStateStep allHosts;
      _ ← add_dep "UninstallCiliumChartAndCRDs" "CleanCiliumNodeState";
      compute_ends)).

Definition DeployKubeovnTask_IsRequired c : outcome task_error bool := plugin_is CNITypeKubeOvn c.

Definition DeployKubeovnTask_Plan c : outcome task_error (option ExecutionFragment) :=
  plan_fragment "DeployKubeovn" (
    require_hosts "DeployKubeovn" (hosts_by_role 368 RoleMaster c) (λ masterHosts,
      executionHost ← deref (masterHosts !! 0);
      controlNode ← control_node c;
      generateValues ← build c (call "GenerateKubeovnValues" "GenerateKubeovnValues");
      distributeArtifacts ← build c (call "DistributeKubeovnArtifacts" "DistributeKubeovnArtifacts");
      installChart ← build c (call "InstallKubeOvnHelmChart" "InstallKubeovnChart");
      _ ← add_node "GenerateKubeovnValues" generateValues [executionHost];
      _ ← add_node "DistributeKubeovnArtifacts" distributeArtifacts [executionHost];
      _ ← add_node "InstallKubeovnChart" installChart [executionHost];
      _ ← add_deps [("GenerateKubeovnValues", "DistributeKubeovnArtifacts");
                    ("DistributeKubeovnArtifacts", "InstallKubeovnChart")];
      compute_ends)).

Definition CleanKubeovnTask_IsRequired c : outcome task_error bool := plugin_is CNITypeKubeOvn c.

Definition CleanKubeovnTask_Plan c : outcome task_error (option ExecutionFragment) :=
  plan_fragment "CleanKubeovn" (
    unless_no_hosts (hosts_by_role 369 RoleMaster c) (λ masterHosts,
      executionHost ← deref (masterHosts !! 0);
      cleanStep ← build c (call "CleanKubeovn" "UninstallKubeovnRelease");
      _ ← add_node "UninstallKubeovnRelease" cleanStep [executionHost];
      compute_ends)).

Definition DeployHybridnetTask_IsRequired c : outcome task_error bool := plugin_is CNITypeHybridnet c.

Definition DeployHybridnetTask_Plan c : outcome task_error (option ExecutionFragment) :=
  plan_fragment "DeployHybridnet" (
    require_hosts "DeployHybridnet" (hosts_by_role 370 RoleMaster c) (λ masterHosts,
      executionHost ← deref (masterHosts !! 0);
      controlNode ← control_node c;
      generateValues ← build c (call "GenerateHybridnetValues" "GenerateHybridnetValues");
      distributeArtifacts ← build c (call "DistributeHybridnetArtifacts" "DistributeHybridnetArtifacts");
      installChart ← build c (call "InstallHybridnetHelmChart" "InstallHybridnetChart");
      _ ← add_node "GenerateHybridnetValues" generateValues [executionHost];
      _ ← add_node "DistributeHybridnetArtifacts" distributeArtifacts [executionHost];
      _ ← add_node "InstallHybridnetChart" installChart [executionHost];
      _ ← add_deps [("GenerateHybridnetValues", "DistributeHybridnetArtifacts");
                    ("DistributeHybridnetArtifacts", "InstallHybridnetChart")];
      compute_ends)).

Definition CleanHybridnetTask_IsRequired c : outcome task_error bool := plugin_is CNITypeHybridnet c.

Definition CleanHybridnetTask_Plan c : outcome task_error (option ExecutionFragment) :=
  plan_fragment "CleanHybridnet" (
    unless_no_hosts (hosts_by_role 371 RoleMaster c) (λ masterHosts,
      executionHost ← deref (masterHosts !! 0);
      cleanStep ← build c (call "CleanHybridnet" "UninstallHybridnetRelease");
      _ ← add_node "UninstallHybridnetRelease" cleanStep [executionHost];
      compute_ends)).

Definition DeployMultusTask_IsRequired c : outcome task_error bool := multus_enabled c.

Definition DeployMultusTask_Plan c : outcome task_error (option ExecutionFragment) :=
  plan_fragment "DeployMultus" (
    require_hosts "DeployMultus" (hosts_by_role 372 RoleMaster c) (λ masterHosts,
      executionHost ← deref (masterHosts !! 0);
      controlNode ← control_node c;
      generateValues ← build c (call "GenerateMultusValues" "GenerateMultusValues");
      distributeArtifacts ← build c (call "DistributeMultusArtifacts" "DistributeMultusArtifacts");
      installChart ← build c (call "InstallMultusHelmChart" "InstallMultusChart");
      if existsb (λ s, bool_decide (s = None)) [generateValues; distributeArtifacts; installChart] then mret tt else
      _ ← add_node "GenerateMultusValues" generateValues [executionHost];
      _ ← add_node "DistributeMultusArtifacts" distributeArtifacts [executionHost];
      _ ← add_node "InstallMultusChart" installChart [executionHost];
      _ ← add_deps [("GenerateMultusValues", "DistributeMultusArtifacts");
                    ("DistributeMultusArtifacts", "InstallMultusChart")];
      compute_ends)).

Definition CleanMultusTask_IsRequired c : outcome task_error bool := multus_enabled c.

Definition CleanMultusTask_Plan c : outcome task_error (option ExecutionFragment) :=
  plan_fragment "CleanMultus" (
    unless_no_hosts (hosts_by_role 373 RoleMaster c) (λ masterHosts,
      executionHost ← deref (masterHosts !! 0);
      cleanStep ← build c (call "CleanMultus" "UninstallMultusRelease");
      _ ← add_node "UninstallMultusRelease" cleanStep [executionHost];
      compute_ends)).

(** *** The two tasks that choose the plugin *)

Definition InstallNetworkPluginTask_IsRequired c : outcome task_error bool :=
  plugin ← network_plugin c; Ok (bool_decide (plugin ≠ "")).

Definition InstallNetworkPluginTask_Plan c : outcome task_error (option ExecutionFragment) :=
  plugin ← network_plugin c;
  if decide (plugin = CNITypeCalico) then DeployCalicoTask_Plan c
  else if decide (plugin = CNITypeFlannel) then DeployFlannelTask_Plan c
  else if decide (plugin = CNITypeCilium) then DeployCiliumTask_Plan c
  else if decide (plugin = CNITypeKubeOvn) then DeployKubeovnTask_Plan c
  else if decide (plugin = CNITypeHybridnet) then DeployHybridnetTask_Plan c
  else if decide (plugin = CNITypeMultus) then DeployMultusTask_Plan c
  else Err (UnsupportedPlugin plugin).

Definition CleanNetworkPluginTask_IsRequired c : outcome task_error bool :=
  plugin ← network_plugin c; Ok (bool_decide (plugin ≠ "")).

Definition planCalico c hosts : M ExecutionFragment task_error unit :=
  removeCalico ← build c (call "CleanCalico" "RemoveCalico");
  removeCalicoctl ← build c (call "RemoveCalicoctl" "RemoveCalicoctl");
  removeCalicoNode ← add_node "RemoveCalico" removeCalico hosts;
  removeCtlNode ← add_node "RemoveCalicoctl" removeCalicoctl hosts;
  _ ← add_dep removeCalicoNode removeCtlNode;
  compute_ends.

(** [planFlannel], [planCilium], [planKubeovn], [planHybridnet] and [planMultus]. *)
Definition plan_clean c (builder name : string) hosts : M ExecutionFragment task_error unit :=
  clean ← build c (call builder name); _ ← add_node name clean hosts; compute_ends.

Definition planFlannel c hosts := plan_clean c "CleanFlannelNodeFiles" "CleanFlannelFiles" hosts.
Definition planCilium c hosts := plan_clean c "CleanCiliumNodeState" "CleanCiliumState" hosts.
Definition planKubeovn c hosts := plan_clean c "CleanKubeovn" "CleanKubeovn" hosts.
Definition planHybridnet c hosts := plan_clean c "CleanHybridnet" "CleanHybridnet" hosts.
Definition planMultus c hosts := plan_clean c "CleanMultus" "CleanMultus" hosts.

(** Every plugin but Calico is cleaned on the first master only. *)
Definition CleanNetworkPluginTask_Plan c : outcome task_error (option ExecutionFragment) :=
  plugin ← network_plugin c;
  plan_fragment "CleanNetworkPlugin" (
    require_hosts "CleanNetworkPlugin" (hosts_by_role 403 RoleMaster c) (λ masterHosts,
      first ← deref (masterHosts !! 0);
      if decide (plugin = CNITypeCalico) then planCalico c masterHosts
      else if decide (plugin = CNITypeFlannel) then planFlannel c [first]
      else if decide (plugin = CNITypeCilium) then planCilium c [first]
      else if decide (plugin = CNITypeKubeOvn) then planKubeovn c [first]
      else if decide (plugin = CNITypeHybridnet) then planHybridnet c [first]
      else if decide (plugin = CNITypeMultus) then planMultus c [first]
      else lift (Err (UnsupportedPlugin plugin)))).

(** ** CNI plugins *)

Definition InstallCNIPluginsTask_IsRequired c : outcome task_error bool := Ok true.

Definition InstallCNIPluginsTask_Plan c : outcome task_error (option ExecutionFragment) :=
  plan_fragment "InstallCNIPlugins" (
    controlNode ← control_node c;
    require_hosts "InstallCNIPlugins" (hosts_by_roles 374 RoleMaster RoleWorker c) (λ deployHosts,
      extractCNI ← build c (call "cni.ExtractCNIPlugins" "ExtractCNI");
      installCNI ← build c (call "cni.InstallCNIPlugins" "InstallCNI");
      _ ← add_node "ExtractCNI" extractCNI [controlNode];
      _ ← add_node "InstallCNI" installCNI deployHosts;
      _ ← add_dep "ExtractCNI" "InstallCNI";
      compute_ends)).

Definition CleanCNIPluginsTask_IsRequired c : outcome task_error bool := Ok true.

Definition CleanCNIPluginsTask_Plan c : outcome task_error (option ExecutionFragment) :=
  plan_fragment "CleanCNIPlugins" (
    unless_no_hosts (hosts_by_roles 376 RoleMaster RoleWorker c) (λ deployHosts,
      cleanCniStep ← build c (call "CleanCNI" "RemoveCNIDirectories");
      _ ← add_node_checked "RemoveCNIDirectories" cleanCniStep deployHosts;
      compute_ends)).

(** ** Storage *)

(** A storage section without Longhorn, or Longhorn without [Enabled], panics. *)
Definition DeployLonghornTask_IsRequired c : outcome task_error bool :=
  spec ← config_spec c;
  match spec_Storage spec with
  | None => Ok false
  | Some storage => enabled ← deref_or_panic (st_Longhorn storage); deref_or_panic enabled
  end.

Definition DeployLonghornTask_Plan c : outcome task_error (option ExecutionFragment) :=
  plan_fragment "DeployLonghorn" (
    controlNode ← control_node c;
    require_hosts "DeployLonghorn" (hosts_by_role 378 RoleMaster c) (λ masterHosts,
      executionHost ← deref (masterHosts !! 0);
      generateManifests ← build c (call "GenerateLonghornValues" "GenerateLonghornManifests");
      distributeLonghorn ← build c (call "DistributeLonghornArtifacts" "DistributeLonghorn");
      installLonghorn ← build c (call "InstallLonghornHelmChart" "InstallLonghorn");
      _ ← add_node "GenerateLonghornManifests" generateManifests [executionHost];
      _ ← add_node "DistributeLonghorn" distributeLonghorn [executionHost];
      _ ← add_node "InstallLonghorn" installLonghorn [executionHost];
      _ ← add_deps [("GenerateLonghornManifests", "DistributeLonghorn"); ("DistributeLonghorn", "InstallLonghorn")];
      compute_ends)).

(** Enabled or not. *)
Definition CleanLonghornTask_IsRequired c : outcome task_error bool :=
  spec ← config_spec c; Ok (bool_decide (is_Some (spec_Storage spec ≫= st_Longhorn))).

Definition CleanLonghornTask_Plan c : outcome task_error (option ExecutionFragment) :=
  plan_fragment "CleanLonghorn" (
    unless_no_hosts (hosts_by_roles 379 RoleMaster RoleWorker c) (λ allHosts,
      cleanStep ← build c (call_args "CleanLonghorn" "CleanLonghorn" ["true"]);
      _ ← add_node "CleanLonghorn" cleanStep allHosts;
      compute_ends)).

Definition DeployNfsTask_IsRequired c : outcome task_error bool := storage_enabled st_NFS c.

Definition DeployNfsTask_Plan c : outcome task_error (option ExecutionFragment) :=
  plan_fragment "DeployNfsProvisioner" (
    require_hosts "DeployNfsProvisioner" (hosts_by_role 381 RoleMaster c) (λ masterHosts,
      executionHost ← deref (masterHosts !! 0);
      controlNode ← control_node c;
      generateValues ← build c (call "GenerateNFSProvisionerValues" "GenerateNFSProvisionerValues");
      distributeArtifacts ← build c (call "DistributeNFSProvisionerArtifacts" "DistributeNFSProvisionerArtifacts");
      installChart ← build c (call "InstallNFSProvisionerHelmChart" "InstallNFSProvisionerChart");
      _ ← add_node "GenerateNFSProvisionerValues" generateValues [executionHost];
      _ ← add_node "DistributeNFSProvisionerArtifacts" distributeArtifacts [executionHost];
      _ ← add_node "InstallNFSProvisionerChart" installChart [executionHost];
      _ ← add_deps [("GenerateNFSProvisionerValues", "DistributeNFSProvisionerArtifacts");
                    ("DistributeNFSProvisionerArtifacts", "InstallNFSProvisionerChart")];
      compute_ends)).

Definition CleanNfsTask_IsRequired c : outcome task_error bool := storage_enabled st_NFS c.

Definition CleanNfsTask_Plan c : outcome task_error (option ExecutionFragment) :=
  plan_fragment "CleanNfsProvisioner" (
    unless_no_hosts (hosts_by_role 382 RoleMaster c) (λ masterHosts,
      executionHost ← deref (masterHosts !! 0);
      cleanStep ← build c (call "CleanNFSProvisioner" "UninstallNFSProvisionerRelease");
      _ ← add_node "UninstallNFSProvisionerRelease" cleanStep [executionHost];
      compute_ends)).

Definition DeployOpenebsTask_IsRequired c : outcome task_error bool := storage_enabled st_OpenEBS c.

Definition DeployOpenebsTask_Plan c : outcome task_error (option ExecutionFragment) :=
  plan_fragment "DeployOpenebs" (
    require_hosts "DeployOpenebs" (hosts_by_role 383 RoleMaster c) (λ masterHosts,
      executionHost ← deref (masterHosts !! 0);
      controlNode ← control_node c;
      generateValues ← build c (call "GenerateOpenEBSValues" "GenerateOpenEBSValues");
      distributeArtifacts ← build c (call "DistributeOpenEBSArtifacts" "DistributeOpenEBSArtifacts");
      installChart ← build c (call "InstallOpenEBSHelmChart" "InstallOpenEBSChart");
      _ ← add_node "GenerateOpenEBSValues" generateValues [executionHost];
      _ ← add_node "DistributeOpenEBSArtifacts" distributeArtifacts [executionHost];
      _ ← add_node "InstallOpenEBSChart" installChart [executionHost];
      _ ← add_deps [("GenerateOpenEBSValues", "DistributeOpenEBSArtifacts");
                    ("DistributeOpenEBSArtifacts", "InstallOpenEBSChart")];
      compute_ends)).

Definition CleanOpenebsTask_IsRequired c : outcome task_error bool := storage_enabled st_OpenEBS c.

Definition CleanOpenebsTask_Plan c : outcome task_error (option ExecutionFragment) :=
  plan_fragment "CleanOpenebs" (
    unless_no_hosts (hosts_by_role 384 RoleMaster c) (λ masterHosts,
      executionHost ← deref (masterHosts !! 0);
      cleanStep ← build c (call "CleanOpenEBS" "UninstallOpenEBSRelease");
      _ ← add_node "UninstallOpenEBSRelease" cleanStep [executionHost];
      compute_ends)).

(** ** DNS *)

Definition DeployCoreDNSTask_IsRequired c : outcome task_error bool := Ok true.

Definition DeployCoreDNSTask_Plan c : outcome task_error (option ExecutionFragment) :=
  plan_fragment "DeployCoreDNS" (
    require_hosts "DeployCoreDNS" (hosts_by_role 385 RoleMaster c) (λ masterHosts,
      executionHost ← deref (masterHosts !! 0);
      generateArtifacts ← build c (call "GenerateCoreDNSArtifacts" "GenerateCoreDNSArtifacts");
      installCoreDNS ← build c (call "InstallCoreDNS" "InstallCoreDNS");
      _ ← add_node "GenerateCoreDNSArtifacts" generateArtifacts [executionHost];
      _ ← add_node "InstallCoreDNS" installCoreDNS [executionHost];
      _ ← add_dep "GenerateCoreDNSArtifacts" "InstallCoreDNS";
      compute_ends)).

Definition CleanCoreDNSTask_IsRequired c : outcome task_error bool := Ok true.

Definition CleanCoreDNSTask_Plan c : outcome task_error (option ExecutionFragment) :=
  plan_fragment "CleanCoreDNS" (
    unless_no_hosts (hosts_by_role 386 RoleMaster c) (λ masterHosts,
      executionHost ← deref (masterHosts !! 0);
      cleanStep ← build c (call "CleanCoreDNS" "CleanCoreDNSResources");
      _ ← add_node "CleanCoreDNSResources" cleanStep [executionHost];
      compute_ends)).

Definition DeployNodeLocalDNSTask_IsRequired c : outcome task_error bool := node_local_dns c.

Definition DeployNodeLocalDNSTask_Plan c : outcome task_error (option ExecutionFragment) :=
  plan_fragment "DeployNodeLocalDNS" (
    require_hosts "DeployNodeLocalDNS" (hosts_by_role 387 RoleMaster c) (λ masterHosts,
      executionHost ← deref (masterHosts !! 0);
      generateManifests ← build c (call "GenerateNodeLocalDNSArtifacts" "GenerateNodeLocalDNSManifests");
      installNodeLocalDNS ← build c (call "InstallNodeLocalDNS" "InstallNodeLocalDNS");
      _ ← add_node "GenerateNodeLocalDNSManifests" generateManifests [executionHost];
      _ ← add_node "InstallNodeLocalDNS" installNodeLocalDNS [executionHost];
      _ ← add_dep "GenerateNodeLocalDNSManifests" "InstallNodeLocalDNS";
      compute_ends)).

Definition CleanNodeLocalDNSTask_IsRequired c : outcome task_error bool := node_local_dns c.

Definition CleanNodeLocalDNSTask_Plan c : outcome task_error (option ExecutionFragment) :=
  plan_fragment "CleanNodeLocalDNS" (
    unless_no_hosts (hosts_by_role 388 RoleMaster c) (λ masterHosts,
      executionHost ← deref (masterHosts !! 0);
      cleanStep ← build c (call "CleanNodeLocalDNS" "CleanNodeLocalDNSResources");
      _ ← add_node "CleanNodeLocalDNSResources" cleanStep [executionHost];
      compute_ends)).

(** ** Argo CD and the ingress controller *)

Definition DeployArgoCDTask_IsRequired c : outcome task_error bool := argocd_addon c.

Definition DeployArgoCDTask_Plan c : outcome task_error (option ExecutionFragment) :=
  plan_fragment "DeployArgoCD" (
    require_hosts "DeployArgoCD" (hosts_by_role 389 RoleMaster c) (λ masterHosts,
      executionHost ← deref (masterHosts !! 0);
      controlNode ← control_node c;
      generateValues ← build c (call "GenerateArgoCDValues" "GenerateArgoCDValues");
      distributeArtifacts ← build c (call "DistributeArgoCDArtifacts" "DistributeArgoCDArtifacts");
      installChart ← build c (call "InstallArgoCDHelmChart" "InstallArgoCDChart");
      _ ← add_node "GenerateArgoCDValues" generateValues [executionHost];
      _ ← add_node "DistributeArgoCDArtifacts" distributeArtifacts [executionHost];
      _ ← add_node "InstallArgoCDChart" installChart [executionHost];
      _ ← add_deps [("GenerateArgoCDValues", "DistributeArgoCDArtifacts");
                    ("DistributeArgoCDArtifacts", "InstallArgoCDChart")];
      compute_ends)).

Definition CleanArgoCDTask_IsRequired c : outcome task_error bool := argocd_addon c.

Definition CleanArgoCDTask_Plan c : outcome task_error (option ExecutionFragment) :=
  plan_fragment "CleanArgoCD" (
    unless_no_hosts (hosts_by_role 390 RoleMaster c) (λ masterHosts,
      executionHost ← deref (masterHosts !! 0);
      cleanStep ← build c (call "CleanArgoCD" "UninstallArgoCDRelease");
      _ ← add_node "UninstallArgoCDRelease" cleanStep [executionHost];
      compute_ends)).

Definition DeployIngressNginxTask_IsRequired c : outcome task_error bool := ingress_nginx c.

Definition DeployIngressNginxTask_Plan c : outcome task_error (option ExecutionFragment) :=
  plan_fragment "DeployIngressNginx" (
    controlNode ← control_node c;
    require_hosts "DeployIngressNginx" (hosts_by_role 391 RoleMaster c) (λ masterHosts,
      executionHost ← deref (masterHosts !! 0);
      generateStep ← build c (call "GenerateIngressNginxValues" "GenerateIngressNginxManifests");
      distributeStep ← build c (call "DistributeIngressNginxArtifacts" "InstallIngressNginx");
      installStep ← build c (call "InstallIngressNginxHelmChart" "InstallIngressNginx");
      _ ← add_node "GenerateIngressNginxManifests" generateStep [executionHost];
      _ ← add_node "DistributeIngressNginxArtifacts" distributeStep [controlNode];
      _ ← add_node "InstallIngressNginx" installStep [executionHost];
      _ ← add_deps [("GenerateIngressNginxManifests", "DistributeIngressNginxArtifacts");
                    ("DistributeIngressNginxArtifacts", "InstallIngressNginx")];
      compute_ends)).

Definition CleanIngressNginxTask_IsRequired c : outcome task_error bool := ingress_nginx c.

Definition CleanIngressNginxTask_Plan c : outcome task_error (option ExecutionFragment) :=
  plan_fragment "CleanIngressNginx" (
    unless_no_hosts (hosts_by_role 392 RoleMaster c) (λ masterHosts,
      executionHost ← deref (masterHosts !! 0);
      cleanStep ← build c (call "CleanIngressNginx" "UninstallIngressNginx");
      _ ← add_node "UninstallIngressNginx" cleanStep [executionHost];
      compute_ends)).

(** ** Registries *)

Definition DeployHarborTask_IsRequired c : outcome task_error bool := local_harbor c.

Definition DeployHarborTask_Plan c : outcome task_error (option ExecutionFragment) :=
  plan_fragment "DeployHarbor" (
    let controlNode := gl_controlNode (ctx_globals c) in
    registryHosts ← lift (hosts_by_role 393 RoleRegistry c);
    executionHost ← deref (registryHosts !! 0);
    allClusterHosts ← lift (hosts_by_roles 394 RoleMaster RoleWorker c);
    genCerts ← build c (call "GenerateHarborCerts" "GenerateHarborCerts");
    extractOnControlNode ← build c (call "ExtractHarbor" "ExtractHarborOnControlNode");
    genConfig ← build c (call "GenerateHarborConfig" "GenerateHarborConfig");
    distributeCACerts ← build c (call "DistributeHarborCACert" "DistributeHarborCA");
    uploadInstaller ← build c (call "UploadHarborInstaller" "UploadHarborInstaller");
    extractOnRegistryNode ← build c (call "ExtractHarborInstaller" "ExtractHarborOnRegistryNode");
    configureHarbor ← build c (call "ConfigureHarbor" "ConfigureHarbor");
    installAndStart ← build c (call "InstallAndStartHarbor" "InstallAndStartHarbor");
    _ ← add_node "GenerateHarborCerts" genCerts [controlNode];
    _ ← add_node "DistributeHarborCA" distributeCACerts allClusterHosts;
    _ ← add_dep "GenerateHarborCerts" "DistributeHarborCA";
    _ ← add_node "ExtractHarborOnControlNode" extractOnControlNode [controlNode];
    _ ← add_node "GenerateHarborConfig" genConfig [controlNode];
    _ ← add_deps [("ExtractHarborOnControlNode", "GenerateHarborConfig");
                  ("GenerateHarborCerts", "GenerateHarborConfig")];
    _ ← add_node "UploadHarborInstaller" uploadInstaller [executionHost];
    _ ← add_node "ExtractHarborOnRegistryNode" extractOnRegistryNode [executionHost];
    _ ← add_node "ConfigureHarbor" configureHarbor [executionHost];
    _ ← add_node "InstallAndStartHarbor" installAndStart [executionHost];
    _ ← add_deps [("UploadHarborInstaller", "ExtractHarborOnRegistryNode");
                  ("ExtractHarborOnRegistryNode", "ConfigureHarbor");
                  ("ConfigureHarbor", "InstallAndStartHarbor"); ("GenerateHarborConfig", "ConfigureHarbor");
                  ("DistributeHarborCA", "InstallAndStartHarbor")];
    compute_ends).

Definition CleanHarborTask_IsRequired c : outcome task_error bool := local_harbor c.

Definition CleanHarborTask_Plan c : outcome task_error (option ExecutionFragment) :=
  plan_fragment "CleanHarbor" (
    unless_no_hosts (hosts_by_role 396 RoleRegistry c) (λ registryHosts,
      executionHost ← deref (registryHosts !! 0);
      allClusterHosts ← lift (hosts_by_roles 397 RoleMaster RoleWorker c);
      stopAndRemove ← build c (call "StopAndRemoveHarbor" "StopAndRemoveHarbor");
      removeArtifacts ← build c (call "RemoveHarborArtifacts" "RemoveHarborArtifacts");
      removeCACerts ← build c (call "RemoveHarborCACert" "RemoveHarborCACerts");
      _ ← add_node "StopAndRemoveHarbor" stopAndRemove [executionHost];
      _ ← add_node "RemoveHarborArtifacts" removeArtifacts [executionHost];
      _ ← add_node "RemoveHarborCACerts" removeCACerts allClusterHosts;
      _ ← add_dep "StopAndRemoveHarbor" "RemoveHarborArtifacts";
      compute_ends)).

Definition DeployRegistryTask_IsRequired c : outcome task_error bool := local_registry 401 c.

Definition DeployRegistryTask_Plan c : outcome task_error (option ExecutionFragment) :=
  plan_fragment "DeployRegistry" (
    unless_no_hosts (hosts_by_role 399 RoleRegistry c) (λ registryHosts,
      controlNode ← control_node c;
      generateConfig ← build c (call "GenerateRegistryConfig" "GenerateRegistryConfig");
      extractBinary ← build c (call "ExtractRegistry" "ExtractRegistryBinary");
      distributeConfig ← build c (call "DistributeRegistryConfig" "DistributeRegistryConfig");
      installBinary ← build c (call "InstallRegistry" "InstallRegistryBinary");
      setupService ← build c (call "SetupRegistryService" "SetupRegistryService");
      enableService ← build c (call "EnableRegistryService" "EnableRegistryService");
      restartService ← build c (call "RestartRegistryService" "RestartRegistryService");
      _ ← add_node "GenerateRegistryConfig" generateConfig [controlNode];
      _ ← add_node "ExtractRegistryBinary" extractBinary [controlNode];
      _ ← add_node "DistributeRegistryConfig" distributeConfig registryHosts;
      _ ← add_node "InstallRegistryBinary" installBinary registryHosts;
      _ ← add_node "SetupRegistryService" setupService registryHosts;
      _ ← add_node "EnableRegistryService" enableService registryHosts;
      _ ← add_node "RestartRegistryService" restartService registryHosts;
      _ ← add_deps [("ExtractRegistryBinary", "InstallRegistryBinary");
                    ("GenerateRegistryConfig", "DistributeRegistryConfig");
                    ("DistributeRegistryConfig", "SetupRegistryService");
                    ("InstallRegistryBinary", "SetupRegistryService");
                    ("SetupRegistryService", "EnableRegistryService");
                    ("EnableRegistryService", "RestartRegistryService")];
      compute_ends)).

Definition CleanRegistryTask_IsRequired c : outcome task_error bool := local_registry 402 c.

Definition CleanRegistryTask_Plan c : outcome task_error (option ExecutionFragment) :=
  plan_fragment "CleanRegistry" (
    unless_no_hosts (hosts_by_role 400 RoleRegistry c) (λ registryHosts,
      stopService ← build c (call "StopRegistryService" "StopRegistryService");
      disableService ← build c (call "DisableRegistryService" "DisableRegistryService");
      removeArtifacts ← build c (call "RemoveRegistryArtifacts" "RemoveRegistryArtifacts");
      _ ← add_node "StopRegistryService" stopService registryHosts;
      _ ← add_node "DisableRegistryService" disableService registryHosts;
      _ ← add_node "RemoveRegistryArtifacts" removeArtifacts registryHosts;
      _ ← add_deps [("StopRegistryService", "DisableRegistryService");
                    ("DisableRegistryService", "RemoveRegistryArtifacts")];
      spec ← lift (config_spec c);
      registry ← lift (deref_or_panic (spec_Registry spec));
      _ ← (if from_option lr_DeleteDataOnClean false (reg_LocalDeployment registry) then
             removeData ← build c (call "RemoveRegistryData" "RemoveRegistryData");
             _ ← add_node "RemoveRegistryData" removeData registryHosts;
             add_dep "StopRegistryService" "RemoveRegistryData"
           else mret tt);
      compute_ends)).

(** ** Addons *)

Section addon.
Context (addon : Addon).

Definition InstallAddonTask_IsRequired c : outcome task_error bool :=
  Ok (bool_decide (addon_Enabled addon ≠ Some false)).

Definition source_name (verb kind : string) (index : nat) : string :=
  verb +:+ addon_Name addon +:+ "-" +:+ kind +:+ "-" +:+ decimal (Z.of_nat index).

(** [if step != nil { frag.AddNode(node) }]: the ID of the node when there is one. *)
Definition add_node_if (name : string) (step : option StepRef) hosts : M ExecutionFragment task_error (option NodeID) :=
  match step with None => mret None | Some _ => id ← add_node name step hosts; mret (Some id) end.

(** The three nodes are not ordered. *)
Definition planYamlSource c (index : nat) hosts : outcome task_error (option ExecutionFragment) :=
  plan_fragment (addon_Name addon +:+ "-yaml-" +:+ decimal (Z.of_nat index)) (
    downloadStep ← build c (call "DownloadAddonArtifacts" (addon_Name addon));
    _ ← add_node_if (source_name "Download-" "yaml" index) downloadStep hosts;
    distributeStep ← build c (call "DistributeAddonArtifacts" (addon_Name addon));
    _ ← add_node_if (source_name "Distribute-" "yaml" index) distributeStep hosts;
    applyStep ← build c (call_args "ApplyAddonYaml" (addon_Name addon) [decimal (Z.of_nat index)]);
    _ ← add_node_if (source_name "Apply-" "yaml" index) applyStep hosts;
    compute_ends).

(** The node after the one before it, if any; the second one is the last node now. *)
Definition add_node_after (last : NodeID) (name : string) (step : option StepRef) hosts : M ExecutionFragment task_error NodeID :=
  id ← add_node name step hosts; _ ← link_after last id; mret id.

Definition planHelmSource c (index : nat) (source : AddonSource) (helm : ChartSource) hosts
    : outcome task_error (option ExecutionFragment) :=
  let repoName := filepath_Base (chart_Repo helm) in
  let releaseName := if decide (chart_Name helm = "") then addon_Name addon else chart_Name helm in
  let chartPath :=
    if decide (chart_Repo helm = "") then
      if decide (chart_Path helm = "") then chart_Name helm else chart_Path helm
    else repoName +:+ "/" +:+ chart_Name helm in
  plan_fragment (addon_Name addon +:+ "-helm-" +:+ decimal (Z.of_nat index)) (
    downloadStep ← build c (call "DownloadAddonArtifacts" (addon_Name addon));
    downloadID ← add_node_if (source_name "Download-" "helm" index) downloadStep hosts;
    let last := default "" downloadID in
    distributeStep ← build c (call "DistributeAddonArtifacts" (addon_Name addon));
    last ← match distributeStep with
           | None => mret last
           | Some _ => add_node_after last (source_name "Distribute-" "helm" index) distributeStep hosts
           end;
    last ← (if decide (chart_Repo helm = "") then mret last
            else
              addRepoStep ← build c (call_args "AddRepo" ("AddRepo-" +:+ repoName) [repoName; chart_Repo helm]);
              add_node_after last (source_name "AddRepo-" "helm" index) addRepoStep hosts);
    installChartStep ← build c (call_args "InstallChart" ("InstallChart-" +:+ releaseName)
      ([chartPath; releaseName; as_Namespace source; chart_Version helm; chart_ValuesFile helm] ++ chart_Values helm));
    _ ← add_node_after last (source_name "InstallChart-" "helm" index) installChartStep hosts;
    compute_ends).

(** [if err := fragment.MergeFragment(source); err != nil { return nil, err }] *)
Definition merge_source (source : option ExecutionFragment) : M ExecutionFragment task_error unit :=
  wrap FragmentFailed (ExecutionFragment_MergeFragment source).

(** The error of [LinkFragments] is not looked at. *)
Definition link_sources (last : list NodeID) (source : option ExecutionFragment) : M ExecutionFragment task_error unit := λ ef,
  match LinkFragments last (from_option ef_EntryNodes [] source) ef with
  | (Panic, ef) => (Panic, ef)
  | (_, ef) => (Ok tt, ef)
  end.

Fixpoint install_sources c (i : nat) (last : list NodeID) (sources : list AddonSource) hosts : M ExecutionFragment task_error unit :=
  match sources with
  | [] => mret tt
  | source :: sources =>
      planned ← lift (if as_Yaml source then planYamlSource c i hosts
                      else match as_Chart source with
                           | Some helm => planHelmSource c i source helm hosts
                           | None => Err (NoSourceType (addon_Name addon) i)
                           end);
      _ ← merge_source planned;
      _ ← (if decide (0 < i ∧ 0 < length last) then link_sources last planned else mret tt);
      install_sources c (S i) (from_option ef_ExitNodes [] planned) sources hosts
  end.

Definition InstallAddonTask_Plan c : outcome task_error (option ExecutionFragment) :=
  plan_fragment ("InstallAddon-" +:+ addon_Name addon) (
    controlNode ← control_node c;
    _ ← install_sources c 0 [] (addon_Sources addon) [controlNode];
    compute_ends).

(** *** Removing an addon *)

Definition CleanAddonTask_IsRequired c : outcome task_error bool := Ok true.

Definition planYamlSourceCleanup c (index : nat) hosts : outcome task_error (option ExecutionFragment) :=
  plan_fragment (addon_Name addon +:+ "-clean-yaml-" +:+ decimal (Z.of_nat index)) (
    deleteStep ← build c (call_args "DeleteAddonYaml" (addon_Name addon) [decimal (Z.of_nat index)]);
    match deleteStep with
    | None => mret tt
    | Some _ => _ ← add_node (source_name "Delete-" "yaml" index) deleteStep hosts; compute_ends
    end).

Definition planHelmSourceCleanup c (index : nat) (source : AddonSource) (helm : ChartSource) hosts
    : outcome task_error (option ExecutionFragment) :=
  let releaseName := if decide (chart_Name helm = "") then addon_Name addon else chart_Name helm in
  plan_fragment (addon_Name addon +:+ "-clean-helm-" +:+ decimal (Z.of_nat index)) (
    uninstallStep ← build c (call_args "UninstallChart" ("UninstallChart-" +:+ releaseName) [releaseName; as_Namespace source]);
    _ ← add_node (source_name "UninstallChart-" "helm" index) uninstallStep hosts;
    compute_ends).

(** The fragments are linked when the last one that has nodes has last nodes. *)
Fixpoint clean_sources c (i : nat) (last : list NodeID) (sources : list AddonSource) hosts : M ExecutionFragment task_error unit :=
  match sources with
  | [] => mret tt
  | source :: sources =>
      if negb (as_Yaml source) && bool_decide (as_Chart source = None) then clean_sources c (S i) last sources hosts
      else
        planned ← lift (if as_Yaml source then planYamlSourceCleanup c i hosts
                        else helm ← deref_or_panic (as_Chart source); planHelmSourceCleanup c i source helm hosts);
        if ExecutionFragment_IsEmpty planned then clean_sources c (S i) last sources hosts
        else
          _ ← merge_source planned;
          _ ← (if decide (0 < length last)
               then wrap FragmentFailed (LinkFragments last (from_option ef_EntryNodes [] planned)) else mret tt);
          clean_sources c (S i) (from_option ef_ExitNodes [] planned) sources hosts
  end.

(** Without a control node there is nothing to clean. *)
Definition CleanAddonTask_Plan c : outcome task_error (option ExecutionFragment) :=
  plan_fragment ("CleanAddon-" +:+ addon_Name addon) (
    match GetControlNode c with
    | Ok controlNode => _ ← clean_sources c 0 [] (addon_Sources addon) [Some controlNode]; compute_ends
    | _ => mret tt
    end).
End addon.
End tasks.
