(* ===== verification/KubexmTasks.v ===== *)
(** The tasks that set up Kubernetes from its binaries, [task/kubernetes/kubexm/], and
    those of [task/etcd/], [task/os/], [task/preflight/], [task/pre/] and
    [task/packages/] that the other files leave. *)
From S2P Require Import Prelude.
From S2P Require Import Values.
From S2P Require Import Plan.
From S2P Require Import Cluster.
From S2P Require Import Context.
From S2P Require Import GoPath.
From S2P Require Import Task.
From S2P Require Import NodeTasks.

Definition packageManagerApt : string := "apt".
Definition packageManagerYum : string := "yum".
Definition packageManagerDnf : string := "dnf".

(** The type of the [PackageManager] in the facts of a host; [None] when the pointer is nil. *)
Class HostPackages := { facts_PackageManager : string → option string }.

Definition NewLocalHost : Host := MkHost "localhost" [] "amd64" "127.0.0.1".

Definition DefaultConfigPath : string := "/etc/kubexm".
Definition nginxConfigPath : string := filepath_Join [DefaultConfigPath; "repository"; "nginx.conf"].

Section tasks.
Context `{GoRange, Steps}.
Implicit Types (c : Context) (h : Host) (hosts : list (option Host)).

(** ** Control plane and workers set up from binaries: [kubernetes/kubexm/] *)

Definition GenerateKubePKITask_IsRequired c : outcome task_error bool := Ok true.

Definition GenerateKubePKITask_Plan c : outcome task_error (option ExecutionFragment) :=
  plan_fragment "GenerateKubePKI" (
    controlNode ← control_node c;
    generateKubeCA ← build c (call "GenerateKubeCA" "GenerateKubeCAs");
    generateKubeCerts ← build c (call "GenerateKubeCerts" "GenerateKubeComponentCerts");
    generateKubeletCerts ← build c (call "GenerateKubeletCertsForAllNodes" "GenerateKubeletCerts");
    generateKubeProxyCerts ← build c (call "GenerateKubeProxyCerts" "GenerateKubeProxyCerts");
    _ ← add_node "GenerateKubeCAs" generateKubeCA [controlNode];
    _ ← add_node "GenerateKubeComponentCerts" generateKubeCerts [controlNode];
    _ ← add_node "GenerateKubeletCerts" generateKubeletCerts [controlNode];
    _ ← add_node "GenerateKubeProxyCerts" generateKubeProxyCerts [controlNode];
    _ ← add_deps [("GenerateKubeCAs", "GenerateKubeComponentCerts"); ("GenerateKubeCAs", "GenerateKubeletCerts");
                  ("GenerateKubeCAs", "GenerateKubeProxyCerts")];
    compute_ends).

Definition GenerateControlPlaneKubeconfigsTask_IsRequired c : outcome task_error bool := Ok true.

Definition GenerateControlPlaneKubeconfigsTask_Plan c : outcome task_error (option ExecutionFragment) :=
  plan_fragment "GenerateControlPlaneConfigs" (
    unless_no_hosts (hosts_by_role 410 RoleMaster c) (λ masterHosts,
      createCMKubeconfig ← build c (call "CreateControllerManagerKubeconfig" "CreateControllerManagerKubeconfig");
      createSchedulerKubeconfig ← build c (call "CreateSchedulerKubeconfig" "CreateSchedulerKubeconfig");
      _ ← add_node "CreateControllerManagerKubeconfig" createCMKubeconfig masterHosts;
      _ ← add_node "CreateSchedulerKubeconfig" createSchedulerKubeconfig masterHosts;
      compute_ends)).

Definition GenerateNodePKITask_IsRequired c : outcome task_error bool := Ok true.

Definition GenerateNodePKITask_Plan c : outcome task_error (option ExecutionFragment) :=
  plan_fragment "GenerateNodePKI" (
    controlNode ← control_node c;
    generateKubeletCerts ← build c (call "GenerateKubeletCertsForAllNodes" "GenerateAllKubeletClientCerts");
    generateKubeProxyCerts ← build c (call "GenerateKubeProxyCerts" "GenerateKubeProxyClientCert");
    _ ← add_node "GenerateAllKubeletClientCerts" generateKubeletCerts [controlNode];
    _ ← add_node "GenerateKubeProxyClientCert" generateKubeProxyCerts [controlNode];
    compute_ends).

Definition ConfigureControlPlaneTask_IsRequired c : outcome task_error bool := Ok true.

Definition ConfigureControlPlaneTask_Plan c : outcome task_error (option ExecutionFragment) :=
  plan_fragment "ConfigureControlPlane" (
    unless_no_hosts (hosts_by_role 411 RoleMaster c) (λ masterHosts,
      configureApiServer ← build c (call "ConfigureKubeAPIServer" "ConfigureKubeAPIServer");
      installApiServerService ← build c (call "InstallKubeAPIServerService" "InstallKubeAPIServerService");
      configureControllerManager ← build c (call "ConfigureKubeControllerManager" "ConfigureKubeControllerManager");
      installControllerManagerService ← build c (call "InstallKubeControllerManagerService" "InstallKubeControllerManagerService");
      configureScheduler ← build c (call "ConfigureKubeScheduler" "ConfigureKubeScheduler");
      installSchedulerService ← build c (call "InstallKubeSchedulerService" "InstallKubeSchedulerService");
      _ ← add_node "ConfigureKubeAPIServer" configureApiServer masterHosts;
      _ ← add_node "InstallKubeAPIServerService" installApiServerService masterHosts;
      _ ← add_node "ConfigureKubeControllerManager" configureControllerManager masterHosts;
      _ ← add_node "InstallKubeControllerManagerService" installControllerManagerService masterHosts;
      _ ← add_node "ConfigureKubeScheduler" configureScheduler masterHosts;
      _ ← add_node "InstallKubeSchedulerService" installSchedulerService masterHosts;
      _ ← add_deps [("ConfigureKubeAPIServer", "InstallKubeAPIServerService");
                    ("ConfigureKubeControllerManager", "InstallKubeControllerManagerService");
                    ("ConfigureKubeScheduler", "InstallKubeSchedulerService")];
      compute_ends)).

Definition StartControlPlaneTask_IsRequired c : outcome task_error bool := Ok true.

Definition StartControlPlaneTask_Plan c : outcome task_error (option ExecutionFragment) :=
  plan_fragment "StartControlPlane" (
    unless_no_hosts (hosts_by_role 412 RoleMaster c) (λ masterHosts,
      enableApiServer ← build c (call "EnableKubeAPIServer" "EnableKubeAPIServer");
      restartApiServer ← build c (call "RestartKubeApiServer" "RestartKubeAPIServer");
      checkApiServerHealth ← build c (call "CheckAPIServerHealth" "CheckAPIServerHealth");
      enableControllerManager ← build c (call "EnableKubeControllerManager" "EnableKubeControllerManager");
      startControllerManager ← build c (call "StartKubeControllerManager" "StartKubeControllerManager");
      checkControllerManagerHealth ← build c (call "CheckControllerManagerHealth" "CheckControllerManagerHealth");
      enableScheduler ← build c (call "EnableKubeScheduler" "EnableKubeScheduler");
      startScheduler ← build c (call "StartKubeScheduler" "StartKubeScheduler");
      checkSchedulerHealth ← build c (call "CheckSchedulerHealth" "CheckSchedulerHealth");
      _ ← add_node "EnableKubeAPIServer" enableApiServer masterHosts;
      _ ← add_node "RestartKubeAPIServer" restartApiServer masterHosts;
      _ ← add_node "CheckAPIServerHealth" checkApiServerHealth masterHosts;
      _ ← add_node "EnableKubeControllerManager" enableControllerManager masterHosts;
      _ ← add_node "StartKubeControllerManager" startControllerManager masterHosts;
      _ ← add_node "CheckControllerManagerHealth" checkControllerManagerHealth masterHosts;
      _ ← add_node "EnableKubeScheduler" enableScheduler masterHosts;
      _ ← add_node "StartKubeScheduler" startScheduler masterHosts;
      _ ← add_node "CheckSchedulerHealth" checkSchedulerHealth masterHosts;
      _ ← add_deps [("EnableKubeAPIServer", "RestartKubeAPIServer");
                    ("RestartKubeAPIServer", "CheckAPIServerHealth");
                    ("EnableKubeControllerManager", "StartKubeControllerManager");
                    ("StartKubeControllerManager", "CheckControllerManagerHealth");
                    ("EnableKubeScheduler", "StartKubeScheduler"); ("StartKubeScheduler", "CheckSchedulerHealth");
                    ("CheckAPIServerHealth", "EnableKubeControllerManager");
                    ("CheckAPIServerHealth", "EnableKubeScheduler")];
      compute_ends)).

Definition GenerateAdminConfigTask_IsRequired c : outcome task_error bool := Ok true.

Definition GenerateAdminConfigTask_Plan c : outcome task_error (option ExecutionFragment) :=
  plan_fragment "GenerateAdminConfig" (
    require_hosts "GenerateAdminConfig" (hosts_by_role 426 RoleMaster c) (λ masterHosts,
      first ← deref (masterHosts !! 0);
      generateAdminConf ← build c (call "GenerateAdminKubeconfig" "GenerateAdminKubeconfig");
      _ ← add_node "GenerateAdminKubeconfig" generateAdminConf [first];
      compute_ends)).

Definition KubexmJoinMastersTask_IsRequired c : outcome task_error bool := more_hosts_than 1 (hosts_by_role 427 RoleMaster c).

(** [masterHosts[1:]] panics on an empty slice. *)
Definition KubexmJoinMastersTask_Plan c : outcome task_error (option ExecutionFragment) :=
  plan_fragment "JoinMasters" (
    masterHosts ← lift (hosts_by_role 413 RoleMaster c);
    _ ← deref (masterHosts !! 0);
    let joinMasterHosts := tail masterHosts in
    if decide (length joinMasterHosts = 0) then mret tt else
    distributeCerts ← build c (call "DistributeKubeCerts" "DistributeAllCertsToJoinMasters");
    distributeKubeconfigs ← build c (call "DistributeKubeconfigs" "DistributeKubeconfigsToJoinMasters");
    distributeKubeletCerts ← build c (call "DistributeKubeCACerts" "DistributeKubeletCertsToJoinMasters");
    installAPIServer ← build c (call "InstallKubeApiServer" "InstallKubeAPIServerOnJoinMasters");
    installCM ← build c (call "InstallKubeControllerManager" "InstallKubeControllerManagerOnJoinMasters");
    installScheduler ← build c (call "InstallKubeScheduler" "InstallKubeSchedulerOnJoinMasters");
    installKubelet ← build c (call "InstallKubelet" "InstallKubeletOnJoinMasters");
    installProxy ← build c (call "InstallKubeProxy" "InstallKubeProxyOnJoinMasters");
    configureAPIServer ← build c (call "ConfigureKubeAPIServer" "ConfigureKubeAPIServerOnJoinMasters");
    installAPIServerService ← build c (call "InstallKubeAPIServerService" "InstallKubeAPIServerServiceOnJoinMasters");
    configureCM ← build c (call "ConfigureKubeControllerManager" "ConfigureKubeControllerManagerOnJoinMasters");
    installCMService ← build c (call "InstallKubeControllerManagerService" "InstallKubeControllerManagerServiceOnJoinMasters");
    configureScheduler ← build c (call "ConfigureKubeScheduler" "ConfigureKubeSchedulerOnJoinMasters");
    installSchedulerService ← build c (call "InstallKubeSchedulerService" "InstallKubeSchedulerServiceOnJoinMasters");
    createKubeletConfig ← build c (call "CreateKubeletConfigYAML" "CreateKubeletConfigForJoinMasters");
    installKubeletService ← build c (call "InstallKubeletService" "InstallKubeletServiceOnJoinMasters");
    installKubeletDropIn ← build c (call "InstallKubeletDropIn" "InstallKubeletDropInOnJoinMasters");
    createProxyConfig ← build c (call "CreateKubeProxyConfigYAML" "CreateKubeProxyConfigForJoinMasters");
    installProxyService ← build c (call "InstallKubeProxyService" "InstallKubeProxyServiceOnJoinMasters");
    enableAPIServer ← build c (call "EnableKubeAPIServer" "EnableKubeAPIServerOnJoinMasters");
    restartAPIServer ← build c (call "RestartKubeApiServer" "RestartKubeAPIServerOnJoinMasters");
    checkAPIServerHealth ← build c (call "CheckAPIServerHealth" "CheckKubeAPIServerHealthOnJoinMasters");
    enableCM ← build c (call "EnableKubeControllerManager" "EnableKubeControllerManagerOnJoinMasters");
    startCM ← build c (call "StartKubeControllerManager" "StartKubeControllerManagerOnJoinMasters");
    enableScheduler ← build c (call "EnableKubeScheduler" "EnableKubeSchedulerOnJoinMasters");
    startScheduler ← build c (call "StartKubeScheduler" "StartKubeSchedulerOnJoinMasters");
    enableKubelet ← build c (call "EnableKubelet" "EnableKubeletOnJoinMasters");
    startKubelet ← build c (call "StartKubelet" "StartKubeletOnJoinMasters");
    enableProxy ← build c (call "EnableKubeProxy" "EnableKubeProxyOnJoinMasters");
    startProxy ← build c (call "StartKubeProxy" "StartKubeProxyOnJoinMasters");
    _ ← add_node "DistributeAllCertsToJoinMasters" distributeCerts joinMasterHosts;
    _ ← add_node "DistributeKubeconfigsToJoinMasters" distributeKubeconfigs joinMasterHosts;
    _ ← add_node "DistributeKubeletCertsToJoinMasters" distributeKubeletCerts joinMasterHosts;
    _ ← add_node "InstallKubeAPIServerOnJoinMasters" installAPIServer joinMasterHosts;
    _ ← add_node "InstallKubeControllerManagerOnJoinMasters" installCM joinMasterHosts;
    _ ← add_node "InstallKubeSchedulerOnJoinMasters" installScheduler joinMasterHosts;
    _ ← add_node "InstallKubeletOnJoinMasters" installKubelet joinMasterHosts;
    _ ← add_node "InstallKubeProxyOnJoinMasters" installProxy joinMasterHosts;
    _ ← add_node "ConfigureKubeAPIServerOnJoinMasters" configureAPIServer joinMasterHosts;
    _ ← add_node "InstallKubeAPIServerServiceOnJoinMasters" installAPIServerService joinMasterHosts;
    _ ← add_node "ConfigureKubeControllerManagerOnJoinMasters" configureCM joinMasterHosts;
    _ ← add_node "InstallKubeControllerManagerServiceOnJoinMasters" installCMService joinMasterHosts;
    _ ← add_node "ConfigureKubeSchedulerOnJoinMasters" configureScheduler joinMasterHosts;
    _ ← add_node "InstallKubeSchedulerServiceOnJoinMasters" installSchedulerService joinMasterHosts;
    _ ← add_node "CreateKubeletConfigForJoinMasters" createKubeletConfig joinMasterHosts;
    _ ← add_node "InstallKubeletServiceOnJoinMasters" installKubeletService joinMasterHosts;
    _ ← add_node "InstallKubeletDropInOnJoinMasters" installKubeletDropIn joinMasterHosts;
    _ ← add_node "CreateKubeProxyConfigForJoinMasters" createProxyConfig joinMasterHosts;
    _ ← add_node "InstallKubeProxyServiceOnJoinMasters" installProxyService joinMasterHosts;
    _ ← add_node "EnableKubeAPIServerOnJoinMasters" enableAPIServer joinMasterHosts;
    _ ← add_node "RestartKubeAPIServerOnJoinMasters" restartAPIServer joinMasterHosts;
    _ ← add_node "CheckKubeAPIServerHealthOnJoinMasters" checkAPIServerHealth joinMasterHosts;
    _ ← add_node "EnableKubeControllerManagerOnJoinMasters" enableCM joinMasterHosts;
    _ ← add_node "StartKubeControllerManagerOnJoinMasters" startCM joinMasterHosts;
    _ ← add_node "EnableKubeSchedulerOnJoinMasters" enableScheduler joinMasterHosts;
    _ ← add_node "StartKubeSchedulerOnJoinMasters" startScheduler joinMasterHosts;
    _ ← add_node "EnableKubeletOnJoinMasters" enableKubelet joinMasterHosts;
    _ ← add_node "StartKubeletOnJoinMasters" startKubelet joinMasterHosts;
    _ ← add_node "EnableKubeProxyOnJoinMasters" enableProxy joinMasterHosts;
    _ ← add_node "StartKubeProxyOnJoinMasters" startProxy joinMasterHosts;
    _ ← add_deps [("DistributeAllCertsToJoinMasters", "ConfigureKubeAPIServerOnJoinMasters");
                  ("DistributeKubeconfigsToJoinMasters", "ConfigureKubeAPIServerOnJoinMasters");
                  ("DistributeKubeletCertsToJoinMasters", "CreateKubeletConfigForJoinMasters");
                  ("InstallKubeAPIServerOnJoinMasters", "ConfigureKubeAPIServerOnJoinMasters");
                  ("InstallKubeControllerManagerOnJoinMasters", "ConfigureKubeControllerManagerOnJoinMasters");
                  ("InstallKubeSchedulerOnJoinMasters", "ConfigureKubeSchedulerOnJoinMasters");
                  ("InstallKubeletOnJoinMasters", "InstallKubeletServiceOnJoinMasters");
                  ("InstallKubeProxyOnJoinMasters", "InstallKubeProxyServiceOnJoinMasters");
                  ("ConfigureKubeAPIServerOnJoinMasters", "InstallKubeAPIServerServiceOnJoinMasters");
                  ("ConfigureKubeControllerManagerOnJoinMasters", "InstallKubeControllerManagerServiceOnJoinMasters");
                  ("ConfigureKubeSchedulerOnJoinMasters", "InstallKubeSchedulerServiceOnJoinMasters");
                  ("CreateKubeletConfigForJoinMasters", "InstallKubeletDropInOnJoinMasters");
                  ("InstallKubeletServiceOnJoinMasters", "InstallKubeletDropInOnJoinMasters");
                  ("CreateKubeProxyConfigForJoinMasters", "InstallKubeProxyServiceOnJoinMasters");
                  ("InstallKubeAPIServerServiceOnJoinMasters", "EnableKubeAPIServerOnJoinMasters");
                  ("InstallKubeControllerManagerServiceOnJoinMasters", "EnableKubeControllerManagerOnJoinMasters");
                  ("InstallKubeSchedulerServiceOnJoinMasters", "EnableKubeSchedulerOnJoinMasters");
                  ("InstallKubeletDropInOnJoinMasters", "EnableKubeletOnJoinMasters");
                  ("InstallKubeProxyServiceOnJoinMasters", "EnableKubeProxyOnJoinMasters");
                  ("EnableKubeAPIServerOnJoinMasters", "RestartKubeAPIServerOnJoinMasters");
                  ("RestartKubeAPIServerOnJoinMasters", "CheckKubeAPIServerHealthOnJoinMasters");
                  ("EnableKubeControllerManagerOnJoinMasters", "StartKubeControllerManagerOnJoinMasters");
                  ("EnableKubeSchedulerOnJoinMasters", "StartKubeSchedulerOnJoinMasters");
                  ("EnableKubeletOnJoinMasters", "StartKubeletOnJoinMasters");
                  ("EnableKubeProxyOnJoinMasters", "StartKubeProxyOnJoinMasters");
                  ("CheckKubeAPIServerHealthOnJoinMasters", "EnableKubeControllerManagerOnJoinMasters");
                  ("CheckKubeAPIServerHealthOnJoinMasters", "EnableKubeSchedulerOnJoinMasters");
                  ("StartKubeletOnJoinMasters", "StartKubeProxyOnJoinMasters")];
    compute_ends).

Definition DeployWorkerNodesTask_IsRequired c : outcome task_error bool := any_host (hosts_by_role 428 RoleWorker c).

Definition DeployWorkerNodesTask_Plan c : outcome task_error (option ExecutionFragment) :=
  plan_fragment "DeployWorkerNodes" (
    unless_no_hosts (hosts_by_role 414 RoleWorker c) (λ workerHosts,
      distributeCACerts ← build c (call "DistributeKubeCACerts" "DistributeCACertsToWorkers");
      distributeKubeletConfig ← build c (call "DistributeKubeletConfigForAllNodes" "DistributeKubeletCredentials");
      installKubelet ← build c (call "InstallKubelet" "InstallKubeletBinary");
      installKubeProxy ← build c (call "InstallKubeProxy" "InstallKubeProxyBinary");
      createKubeletConfig ← build c (call "CreateKubeletConfigYAML" "CreateKubeletConfigYAMLForWorkers");
      createKubeProxyConfig ← build c (call "CreateKubeProxyConfigYAML" "CreateKubeProxyConfigYAMLForWorkers");
      installKubeletService ← build c (call "InstallKubeletService" "InstallKubeletService");
      installKubeletDropIn ← build c (call "InstallKubeletDropIn" "InstallKubeletDropIn");
      enableKubelet ← build c (call "EnableKubelet" "EnableKubeletService");
      startKubelet ← build c (call "StartKubelet" "StartKubeletService");
      installProxyService ← build c (call "InstallKubeProxyService" "InstallKubeProxyService");
      enableProxy ← build c (call "EnableKubeProxy" "EnableKubeProxyService");
      startProxy ← build c (call "StartKubeProxy" "StartKubeProxyService");
      _ ← add_node "DistributeCACertsToWorkers" distributeCACerts workerHosts;
      _ ← add_node "DistributeKubeletCredentials" distributeKubeletConfig workerHosts;
      _ ← add_node "InstallKubeletBinary" installKubelet workerHosts;
      _ ← add_node "InstallKubeProxyBinary" installKubeProxy workerHosts;
      _ ← add_node "CreateKubeletConfigYAMLForWorkers" createKubeletConfig workerHosts;
      _ ← add_node "CreateKubeProxyConfigYAMLForWorkers" createKubeProxyConfig workerHosts;
      _ ← add_node "InstallKubeletService" installKubeletService workerHosts;
      _ ← add_node "InstallKubeletDropIn" installKubeletDropIn workerHosts;
      _ ← add_node "EnableKubeletService" enableKubelet workerHosts;
      _ ← add_node "StartKubeletService" startKubelet workerHosts;
      _ ← add_node "InstallKubeProxyService" installProxyService workerHosts;
      _ ← add_node "EnableKubeProxyService" enableProxy workerHosts;
      _ ← add_node "StartKubeProxyService" startProxy workerHosts;
      _ ← add_deps [("InstallKubeletBinary", "InstallKubeletService");
                    ("DistributeCACertsToWorkers", "CreateKubeletConfigYAMLForWorkers");
                    ("DistributeKubeletCredentials", "InstallKubeletDropIn");
                    ("CreateKubeletConfigYAMLForWorkers", "InstallKubeletDropIn");
                    ("InstallKubeletService", "InstallKubeletDropIn");
                    ("InstallKubeletDropIn", "EnableKubeletService");
                    ("EnableKubeletService", "StartKubeletService");
                    ("InstallKubeProxyBinary", "InstallKubeProxyService");
                    ("CreateKubeProxyConfigYAMLForWorkers", "InstallKubeProxyService");
                    ("InstallKubeProxyService", "EnableKubeProxyService");
                    ("EnableKubeProxyService", "StartKubeProxyService");
                    ("StartKubeletService", "StartKubeProxyService")];
      compute_ends)).

(** *** Tasks that no module runs *)

Definition DistributeControlPlaneAssetsTask_IsRequired c : outcome task_error bool := Ok true.

Definition DistributeControlPlaneAssetsTask_Plan c : outcome task_error (option ExecutionFragment) :=
  plan_fragment "DistributeControlPlaneAssets" (
    unless_no_hosts (hosts_by_role 415 RoleMaster c) (λ masterHosts,
      distributeKubeCerts ← build c (call "DistributeKubeCerts" "DistributeAllKubeCertsToMasters");
      distributeKubeconfigs ← build c (call "DistributeKubeconfigs" "DistributeControlPlaneKubeconfigs");
      installApiServer ← build c (call "InstallKubeApiServer" "InstallKubeApiServerBinary");
      installControllerManager ← build c (call "InstallKubeControllerManager" "InstallKubeControllerManagerBinary");
      installScheduler ← build c (call "InstallKubeScheduler" "InstallKubeSchedulerBinary");
      _ ← add_node "DistributeAllKubeCertsToMasters" distributeKubeCerts masterHosts;
      _ ← add_node "DistributeControlPlaneKubeconfigs" distributeKubeconfigs masterHosts;
      _ ← add_node "InstallKubeApiServerBinary" installApiServer masterHosts;
      _ ← add_node "InstallKubeControllerManagerBinary" installControllerManager masterHosts;
      _ ← add_node "InstallKubeSchedulerBinary" installScheduler masterHosts;
      compute_ends)).

Definition FinalizeClusterSetupTask_IsRequired c : outcome task_error bool := Ok true.

Definition FinalizeClusterSetupTask_Plan c : outcome task_error (option ExecutionFragment) :=
  plan_fragment "FinalizeClusterSetup" (
    require_hosts "FinalizeClusterSetup" (hosts_by_role 416 RoleMaster c) (λ masterHosts,
      executionHost ← deref (masterHosts !! 0);
      allHosts ← lift (hosts_by_role 417 "" c);
      applyRBAC ← build c (call "ApplyEssentialRBAC" "ApplyEssentialRBAC");
      installKubectl ← build c (call "InstallKubectl" "InstallKubectlOnAllNodes");
      configureKubectl ← build c (call "ConfigureKubectl" "ConfigureKubectlForRoot");
      copyKubeconfig ← build c (call "CopyKubeconfig" "CopyKubeconfigToUser");
      _ ← add_node "ApplyEssentialRBAC" applyRBAC [executionHost];
      _ ← add_node "InstallKubectlOnAllNodes" installKubectl allHosts;
      _ ← add_node "ConfigureKubectlForRoot" configureKubectl allHosts;
      _ ← add_node "CopyKubeconfigToUser" copyKubeconfig allHosts;
      _ ← add_deps [("InstallKubectlOnAllNodes", "ApplyEssentialRBAC");
                    ("InstallKubectlOnAllNodes", "ConfigureKubectlForRoot");
                    ("InstallKubectlOnAllNodes", "CopyKubeconfigToUser")];
      compute_ends)).

Definition GenerateControlPlaneConfigsTask_IsRequired c : outcome task_error bool := Ok true.

Definition GenerateControlPlaneConfigsTask_Plan c : outcome task_error (option ExecutionFragment) :=
  plan_fragment "GenerateControlPlaneConfigs" (
    unless_no_hosts (hosts_by_role 418 RoleMaster c) (λ masterHosts,
      configureApiServer ← build c (call "ConfigureKubeAPIServer" "ConfigureKubeAPIServer");
      configureControllerManager ← build c (call "ConfigureKubeControllerManager" "ConfigureKubeControllerManager");
      configureScheduler ← build c (call "ConfigureKubeScheduler" "ConfigureKubeScheduler");
      _ ← add_node "ConfigureKubeAPIServer" configureApiServer masterHosts;
      _ ← add_node "ConfigureKubeControllerManager" configureControllerManager masterHosts;
      _ ← add_node "ConfigureKubeScheduler" configureScheduler masterHosts;
      compute_ends)).

Definition GenerateNodeComponentConfigsTask_IsRequired c : outcome task_error bool := Ok true.

Definition GenerateNodeComponentConfigsTask_Plan c : outcome task_error (option ExecutionFragment) :=
  plan_fragment "GenerateNodeComponentConfigs" (
    unless_no_hosts (hosts_by_role 419 "" c) (λ allHosts,
      createKubeletConfig ← build c (call "CreateKubeletConfigYAML" "CreateKubeletConfigYAML");
      createKubeProxyConfig ← build c (call "CreateKubeProxyConfigYAML" "CreateKubeProxyConfigYAML");
      _ ← add_node "CreateKubeletConfigYAML" createKubeletConfig allHosts;
      _ ← add_node "CreateKubeProxyConfigYAML" createKubeProxyConfig allHosts;
      compute_ends)).

Definition GenerateNodeKubeconfigsTask_IsRequired c : outcome task_error bool := Ok true.

Definition GenerateNodeKubeconfigsTask_Plan c : outcome task_error (option ExecutionFragment) :=
  plan_fragment "GenerateNodeKubeconfigs" (
    unless_no_hosts (hosts_by_role 420 "" c) (λ allHosts,
      generateKubeletKubeconfig ← build c (call "CreateKubeletKubeconfig" "GenerateKubeletKubeconfig");
      generateKubeProxyKubeconfig ← build c (call "CreateKubeProxyKubeconfig" "GenerateKubeProxyKubeconfig");
      _ ← add_node "GenerateKubeletKubeconfig" generateKubeletKubeconfig allHosts;
      _ ← add_node "GenerateKubeProxyKubeconfig" generateKubeProxyKubeconfig allHosts;
      compute_ends)).

(** ** Etcd on all its hosts at once: [etcd/init_first_etcd.go] and [etcd/add_other_etcd.go] *)

Definition DeployFirstEtcdTask_IsRequired c : outcome task_error bool := etcd_by_kubexm c.

Definition DeployFirstEtcdTask_Plan c : outcome task_error (option ExecutionFragment) :=
  plan_fragment "DeployEtcdForFirstEtcd" (
    controlNode ← control_node c;
    etcdHosts ← lift (hosts_by_role 421 RoleEtcd c);
    extractEtcd ← build c (call "ExtractEtcd" "ExtractEtcd");
    distributeCerts ← build c (call "DistributeEtcdCerts" "DistributeEtcdCerts");
    installEtcd ← build c (call "InstallEtcd" "InstallEtcd");
    configureEtcd ← build c (call_args "ConfigureEtcd" "ConfigureEtcd" ["new"]);
    installService ← build c (call "InstallEtcdService" "InstallEtcdService");
    startEtcd ← build c (call "StartEtcd" "StartEtcd");
    checkHealth ← build c (call "CheckEtcdHealth" "CheckEtcdHealth");
    firstEtcd ← deref (etcdHosts !! 0);
    _ ← add_node "ExtractEtcd" extractEtcd [controlNode];
    _ ← add_node "DistributeEtcdCerts" distributeCerts etcdHosts;
    _ ← add_node "InstallEtcd" installEtcd etcdHosts;
    _ ← add_node "ConfigureEtcd" configureEtcd etcdHosts;
    _ ← add_node "InstallEtcdService" installService etcdHosts;
    _ ← add_node "StartEtcd" startEtcd etcdHosts;
    _ ← add_node "CheckEtcdHealth" checkHealth [firstEtcd];
    _ ← add_deps [("ExtractEtcd", "InstallEtcd"); ("InstallEtcd", "ConfigureEtcd");
                  ("DistributeEtcdCerts", "ConfigureEtcd"); ("ConfigureEtcd", "InstallEtcdService");
                  ("InstallEtcdService", "StartEtcd"); ("StartEtcd", "CheckEtcdHealth")];
    compute_ends).

Definition DeployEtcdTask_IsRequired c : outcome task_error bool := etcd_by_kubexm c.

Definition DeployEtcdTask_Plan c : outcome task_error (option ExecutionFragment) :=
  plan_fragment "DeployEtcd" (
    controlNode ← control_node c;
    etcdHosts ← lift (hosts_by_role 422 RoleEtcd c);
    extractEtcd ← build c (call "ExtractEtcd" "ExtractEtcd");
    distributeCerts ← build c (call "DistributeEtcdCerts" "DistributeEtcdCerts");
    installEtcd ← build c (call "InstallEtcd" "InstallEtcd");
    configureEtcd ← build c (call_args "ConfigureEtcd" "ConfigureEtcd" ["existing"]);
    installService ← build c (call "InstallEtcdService" "InstallEtcdService");
    startEtcd ← build c (call "StartEtcd" "StartEtcd");
    checkHealth ← build c (call "CheckEtcdHealth" "CheckEtcdHealth");
    firstEtcd ← deref (etcdHosts !! 0);
    _ ← add_node "ExtractEtcd" extractEtcd [controlNode];
    _ ← add_node "DistributeEtcdCerts" distributeCerts etcdHosts;
    _ ← add_node "InstallEtcd" installEtcd etcdHosts;
    _ ← add_node "ConfigureEtcd" configureEtcd etcdHosts;
    _ ← add_node "InstallEtcdService" installService etcdHosts;
    _ ← add_node "StartEtcd" startEtcd etcdHosts;
    _ ← add_node "CheckEtcdHealth" checkHealth [firstEtcd];
    _ ← add_deps [("ExtractEtcd", "InstallEtcd"); ("InstallEtcd", "ConfigureEtcd");
                  ("DistributeEtcdCerts", "ConfigureEtcd"); ("ConfigureEtcd", "InstallEtcdService");
                  ("InstallEtcdService", "StartEtcd"); ("StartEtcd", "CheckEtcdHealth")];
    compute_ends).

(** ** Hosts and assets *)

Definition PrepareOSNodesTask_IsRequired c : outcome task_error bool := Ok true.

Definition PrepareOSNodesTask_Plan c : outcome task_error (option ExecutionFragment) :=
  plan_fragment "PrepareOSNodes" (
    unless_no_hosts (hosts_by_role 423 "" c) (λ allHosts,
      disableSwap ← build c (call "DisableSwap" "DisableSwap");
      disableSelinux ← build c (call "DisableSelinux" "DisableSelinux");
      disableFirewall ← build c (call "DisableFirewall" "DisableFirewall");
      updateEtcHosts ← build c (call "UpdateEtcHosts" "UpdateEtcHosts");
      loadKernelModules ← build c (call "LoadKernelModules" "LoadKernelModules");
      configureSysctl ← build c (call "ConfigureSysctl" "ConfigureSysctl");
      configureSecurityLimits ← build c (call "ConfigureSecurityLimits" "ConfigureSecurityLimits");
      _ ← add_node "DisableSwap" disableSwap allHosts;
      _ ← add_node "DisableSelinux" disableSelinux allHosts;
      _ ← add_node "DisableFirewall" disableFirewall allHosts;
      _ ← add_node "UpdateEtcHosts" updateEtcHosts allHosts;
      _ ← add_node "LoadKernelModules" loadKernelModules allHosts;
      _ ← add_node "ConfigureSysctl" configureSysctl allHosts;
      _ ← add_node "ConfigureSecurityLimits" configureSecurityLimits allHosts;
      compute_ends)).

Definition PreflightCheckTask_IsRequired c : outcome task_error bool := Ok true.

Definition PreflightCheckTask_Plan c : outcome task_error (option ExecutionFragment) :=
  plan_fragment "PreflightCheck" (
    require_hosts "PreflightCheck" (hosts_by_role 424 "" c) (λ allHosts,
      controlNode ← control_node c;
      lintSpecStep ← build c (call "LintClusterSpec" "LintClusterSpec");
      checkTimeSyncStep ← build c (call "CheckTimeSync" "CheckTimeSync");
      checkDNSConfigStep ← build c (call "CheckDNSConfig" "CheckDNSConfig");
      checkConnectivityStep ← build c (call "CheckHostConnectivity" "CheckHostConnectivity");
      checkCommandsStep ← build c (call "CheckRequiredCommands" "CheckRequiredCommands");
      lintSpecNodeID ← add_node "LintClusterSpec" lintSpecStep [controlNode];
      checkTimeSyncNodeID ← add_node "CheckTimeSyncOnAllNodes" checkTimeSyncStep allHosts;
      checkDNSConfigNodeID ← add_node "CheckDNSConfigOnAllNodes" checkDNSConfigStep allHosts;
      checkConnectivityNodeID ← add_node "CheckConnectivityBetweenNodes" checkConnectivityStep allHosts;
      checkCommandsNodeID ← add_node "CheckCommandsOnAllNodes" checkCommandsStep allHosts;
      _ ← add_deps [(lintSpecNodeID, checkTimeSyncNodeID); (lintSpecNodeID, checkDNSConfigNodeID);
                    (lintSpecNodeID, checkConnectivityNodeID); (lintSpecNodeID, checkCommandsNodeID)];
      compute_ends)).

Definition PushImagesToRegistryTask_IsRequired c : outcome task_error bool :=
  if IsOfflineMode c then Ok true
  else
    spec ← config_spec c;
    Ok (bool_decide (default "" (spec_Registry spec ≫= reg_PrivateRegistry) ≠ "")).

Definition PushImagesToRegistryTask_Plan c : outcome task_error (option ExecutionFragment) :=
  plan_fragment "PushImagesToRegistry" (
    controlNode ← control_node c;
    pushImages ← build c (call "PushImages" "PushAllSavedImages");
    pushManifests ← build c (call "PushManifestList" "PushMultiArchManifests");
    _ ← add_node "PushAllSavedImages" pushImages [controlNode];
    _ ← add_node "PushMultiArchManifests" pushManifests [controlNode];
    _ ← add_dep "PushAllSavedImages" "PushMultiArchManifests";
    compute_ends).

Definition CreateRepositoryTask_IsRequired c : outcome task_error bool := Ok (IsOfflineMode c).

Definition CreateRepositoryTask_Plan `{HostPackages} c : outcome task_error (option ExecutionFragment) :=
  plan_fragment "CreateRepository" (
    repoHost ← control_node c;
    let repoDir := GetRepositoryDir c in
    facts ← lift (map_err ContextFailed (GetHostFacts repoHost c));
    packageManagerType ← deref (facts_PackageManager facts);
    createRepoMetadataStep ←
      (if decide (packageManagerType = packageManagerYum ∨ packageManagerType = packageManagerDnf)
       then build c (call_args "CreateYumRepo" "CreateYumRepoMetadata" [repoDir])
       else if decide (packageManagerType = packageManagerApt)
       then build c (call_args "CreateAptRepo" "CreateAptRepoMetadata" [repoDir])
       else lift (Err (UnsupportedPackageManager packageManagerType)));
    ensureRepoDir ← build c (call_args "Mkdir" "EnsureRepoDir" [repoDir]);
    ensureRepoDirNodeID ← add_node "EnsureRepoDir" ensureRepoDir [repoHost];
    createRepoMetadataNodeID ← add_node "CreateRepoMetadata" createRepoMetadataStep [repoHost];
    renderNginxConfigStep ← build c (call_args "RenderRepoNginxConfig" "RenderRepoNginxConfig" [repoDir; "8080"; nginxConfigPath]);
    renderNginxConfigNodeID ← add_node "RenderRepoNginxConfig" renderNginxConfigStep [repoHost];
    deployNginxPodStep ← build c (call_args "DeployRepoNginxPod" "DeployRepoNginxPod" ["8080"; nginxConfigPath]);
    deployNginxPodNodeID ← add_node "DeployRepoNginxPod" deployNginxPodStep [repoHost];
    _ ← add_deps [(ensureRepoDirNodeID, createRepoMetadataNodeID);
                  (createRepoMetadataNodeID, renderNginxConfigNodeID);
                  (renderNginxConfigNodeID, deployNginxPodNodeID)];
    compute_ends).

Definition ConfigureTimeTask_IsRequired c : outcome task_error bool :=
  spec ← config_spec c;
  Ok (bool_decide (0 < length (from_option sys_NTPServers [] (spec_System spec)))).

Definition ConfigureTimeTask_host c (ntpServers : list string) (last : NodeID) h : M ExecutionFragment task_error NodeID :=
  let hostName := host_GetName h in
  configureTimezoneStep ← build c (call "ConfigureTimezone" ("ConfigureTimezoneFor" +:+ hostName));
  configureStep ←
    (if decide (hostName ∈ ntpServers) then build c (call "ConfigureChronyAsServer" ("ConfigureChronyServerOn" +:+ hostName))
     else build c (call "ConfigureChronyAsClient" ("ConfigureChronyClientOn" +:+ hostName)));
  enableStep ← build c (call "EnableChrony" ("EnableChronyOn" +:+ hostName));
  restartStep ← build c (call "RestartChrony" ("RestartChronyOn" +:+ hostName));
  verifyStep ← build c (call "VerifyTimeSync" ("VerifyTimeSyncOn" +:+ hostName));
  configureTimezoneID ← add_node ("ConfigureTimezoneFor" +:+ hostName) configureTimezoneStep [Some h];
  configureID ← add_node ("ConfigureChronyFor" +:+ hostName) configureStep [Some h];
  enableID ← add_node ("EnableChronyFor" +:+ hostName) enableStep [Some h];
  restartID ← add_node ("RestartChronyFor" +:+ hostName) restartStep [Some h];
  verifyID ← add_node ("VerifyTimeSyncFor" +:+ hostName) verifyStep [Some h];
  _ ← add_deps [(configureTimezoneID, configureID); (configureID, enableID); (enableID, restartID);
                (restartID, verifyID)];
  _ ← link_after last configureID;
  mret verifyID.

Definition ConfigureTimeTask_Plan c : outcome task_error (option ExecutionFragment) :=
  plan_fragment "ConfigureNTP" (
    allHosts ← lift (hosts_by_role 425 "" c);
    spec ← lift (config_spec c);
    system ← lift (deref_or_panic (spec_System spec));
    _ ← rolling (ConfigureTimeTask_host c (sys_NTPServers system)) "" allHosts;
    compute_ends).

Definition DownloadAssetsTask_IsRequired c : outcome task_error bool := Ok true.

Definition DownloadAssetsTask_Plan c : outcome task_error (option ExecutionFragment) :=
  plan_fragment "DownloadAssets" (
    downloadBinariesStep ← build c (call "DownloadBinaries" "DownloadBinaries");
    _ ← add_node "DownloadBinaries" downloadBinariesStep [Some NewLocalHost];
    compute_ends).

Definition AssetManagerTask_IsRequired c : outcome task_error bool := Ok true.

Definition AssetManagerTask_Plan c : outcome task_error (option ExecutionFragment) :=
  plan_fragment "AssetManager" (
    assetStep ← build c (call "AssetManager" "AssetManager");
    _ ← add_node "AssetManager" assetStep [Some NewLocalHost];
    compute_ends).

End tasks.
