(* ===== verification/PkiTasks.v ===== *)
(** The tasks that renew certificates: [task/pki/kubexm/], [task/pki/etcd/] and
    [task/pki/kubeadm/].  Tasks of [pki/kubeadm/] whose name is also that of a task of
    [pki/kubexm/] have [Kubeadm] in front of it. *)
From S2P Require Import Prelude.
From S2P Require Import Values.
From S2P Require Import Plan.
From S2P Require Import Cluster.
From S2P Require Import Context.
From S2P Require Import Task.

(** ** What the steps on certificates leave in the caches ([common/cache_keys.go]) *)

(** [Get] of the module and the pipeline cache of a context, as they are while the
    tasks plan, which writes neither. *)
Class Caches := {
  ModuleCache_Get : Context → string → any * bool;
  PipelineCache_Get : Context → string → any * bool;
}.

(** [step.Meta().Name]; [None] when [Meta()] is nil. *)
Class StepMeta := { Meta_Name : StepRef → option string }.

(** A format of [cache_keys.go] is what follows the scope in it. *)
Definition scope_key (run pipeline module task : string) : string :=
  "kubexm.run[" +:+ run +:+ "].pipeline[" +:+ pipeline +:+ "].module[" +:+ module +:+ "].task[" +:+ task +:+ "].".

Definition CacheKubeadmK8sCACertRenew : string := "kubeadm.kubernetes.cacert.renew".
Definition CacheKubeadmK8sLeafCertRenew : string := "kubeadm.kubernetes.leaftcert.renew".
Definition CacheKubeadmEtcdCACertRenew : string := "kubeadm.etcd.cacert.renew".
Definition CacheKubeadmEtcdLeafCertRenew : string := "kubeadm.etcd.leafcert.renew".
Definition CacheKubexmEtcdCACertRenew : string := "kubexm.etcd.cacert.renew".
Definition CacheKubexmEtcdLeafCertRenew : string := "kubexm.etcd.leafcert.renew".

(** [fmt.Sprintf(format, ctx.GetRunID(), ctx.GetPipelineName(), ctx.GetModuleName(), task)] *)
Definition cache_key (format : string) (c : Context) (task : string) : string :=
  scope_key (gl_RunID (ctx_globals c)) (ctx_currentPipelineName c) (ctx_currentModuleName c) task +:+ format.

Section tasks.
Context `{GoRange, Steps, Caches, StepMeta}.
Implicit Types (c : Context) (h : Host) (hosts : list (option Host)).

(** [val, _ := cache.Get(key); b, _ := val.(bool)] *)
Definition module_flag_value (format : string) c (task : string) : bool :=
  (as_bool (ModuleCache_Get c (cache_key format c task)).1).1.

(** [if val, ok := cache.Get(key); ok { if b, isBool := val.(bool); isBool && b { ... } }] *)
Definition flag_of (r : any * bool) : bool := r.2 && (as_bool r.1).1.
Definition module_flag (format : string) c (task : string) : bool := flag_of (ModuleCache_Get c (cache_key format c task)).
Definition pipeline_flag (format : string) c (task : string) : bool := flag_of (PipelineCache_Get c (cache_key format c task)).

(** The flag of the CA or that of the leaf certificates. *)
Definition renewal_triggered c (task : string) : bool :=
  module_flag CacheKubeadmK8sCACertRenew c task || module_flag CacheKubeadmK8sLeafCertRenew c task.

Definition etcd_by_kubeadm c : outcome task_error bool :=
  spec ← config_spec c; Ok (bool_decide (etcd_Type <$> spec_Etcd spec = Some EtcdDeploymentTypeKubeadm)).

(** ** What these tasks write fragments with *)

(** [fragment.AddNode(node, id)], its error not looked at. *)
Definition add_node_as (id : NodeID) (name : string) (step : option StepRef) hosts : M ExecutionFragment task_error NodeID := λ ef,
  match ExecutionFragment_AddNode (Some (new_node name step hosts)) [id] ef with
  | (Ok id, ef) => (Ok id, ef)
  | (Err _, ef) => (Ok "", ef)
  | (Panic, ef) => (Panic, ef)
  end.

(** A node without hosts: [&plan.ExecutionNode{Name: name, Step: step}]. *)
Definition add_node_nowhere (name : string) (step : option StepRef) : M ExecutionFragment task_error NodeID := λ ef,
  match ExecutionFragment_AddNode (Some (MkNode name step None [] "" None ∅ "" "" "" None)) [] ef with
  | (Ok id, ef) => (Ok id, ef)
  | (Err _, ef) => (Ok "", ef)
  | (Panic, ef) => (Panic, ef)
  end.

Definition set_ends (entries exits : list NodeID) : M ExecutionFragment task_error unit := λ ef,
  (Ok tt, MkFragment (ef_Nodes ef) entries exits (ef_Name ef)).

Definition step_name (step : option StepRef) : M ExecutionFragment task_error string :=
  s ← deref step; deref (Meta_Name s).

Fixpoint host_names hosts : outcome task_error (list string) :=
  match hosts with
  | [] => Ok []
  | host :: hosts => h ← deref_or_panic host; names ← host_names hosts; Ok (host_GetName h :: names)
  end.

Fixpoint not_named (names : list string) hosts : outcome task_error (list (option Host)) :=
  match hosts with
  | [] => Ok []
  | host :: hosts =>
      h ← deref_or_panic host;
      others ← not_named names hosts;
      Ok (if decide (host_GetName h ∈ names) then others else Some h :: others)
  end.

(** The workers that are not masters too. *)
Definition pure_workers (masters workers : list (option Host)) : outcome task_error (list (option Host)) :=
  names ← host_names masters; not_named names workers.

(** ** Certificates of clusters set up from binaries: [pki/kubexm/] *)

Definition CheckClusterCertificatesTask_IsRequired c : outcome task_error bool := Ok true.

Definition CheckClusterCertificatesTask_Plan c : outcome task_error (option ExecutionFragment) :=
  plan_fragment "CheckClusterCertificates" (
    require_hosts "CheckClusterCertificates" (hosts_by_role 471 RoleMaster c) (λ masterNodes,
      firstMaster ← deref (masterNodes !! 0);
      controlNode ← control_node c;
      fetchPkiStep ← build c (call "KubxmFetchPKI" "FetchCorePKI");
      checkCaStep ← build c (call "KubexmCheckK8sCAExpiration" "CheckCAExpiration");
      checkLeafStep ← build c (call "KubexmCheckLeafCertsExpiration" "CheckLeafCertsExpiration");
      fetchPkiNodeID ← add_node "FetchCorePKIFromMaster" fetchPkiStep [firstMaster];
      checkCaNodeID ← add_node "CheckCAExpirationLocally" checkCaStep [controlNode];
      checkLeafNodeID ← add_node "CheckLeafCertsExpirationOnMaster" checkLeafStep [firstMaster];
      _ ← add_deps [(fetchPkiNodeID, checkCaNodeID); (fetchPkiNodeID, checkLeafNodeID)];
      compute_ends)).

Definition GenerateClusterCertsTask_IsRequired c : outcome task_error bool := Ok true.

Definition GenerateClusterCertsTask_Plan c : outcome task_error (option ExecutionFragment) :=
  plan_fragment "GenerateNewAssets" (
    controlNode ← control_node c;
    prepareAssetsStep ← build c (call "KubexmPrepareCAAssets" "PrepareCAAssets");
    renewCaStep ← build c (call "KubexmRenewK8sCA" "RenewK8sCA");
    renewLeafsStep ← build c (call "BinaryRenewAllLeafCerts" "RenewAllLeafCerts");
    createBundleStep ← build c (call "KubexmPrepareCATransition" "CreateCABundle");
    prepareAssetsNodeID ← add_node "PrepareWorkspaceForRenewal" prepareAssetsStep [controlNode];
    renewCaNodeID ← add_node "RenewCoreCAs" renewCaStep [controlNode];
    renewLeafsNodeID ← add_node "RenewAllLeafCertificates" renewLeafsStep [controlNode];
    createBundleNodeID ← add_node "CreateTransitionCABundle" createBundleStep [controlNode];
    _ ← add_deps [(prepareAssetsNodeID, renewCaNodeID); (prepareAssetsNodeID, createBundleNodeID);
                  (renewCaNodeID, renewLeafsNodeID); (renewCaNodeID, createBundleNodeID)];
    compute_ends).

Definition GenerateKubeconfigsTask_IsRequired c : outcome task_error bool := Ok true.

Definition GenerateKubeconfigsTask_Plan c : outcome task_error (option ExecutionFragment) :=
  plan_fragment "GenerateKubeconfigs" (
    controlNode ← control_node c;
    moveAssetsStep ← build c (call "kubexm.MoveNewAssets" "ActivateNewCertificates");
    createKubeconfigsStep ← build c (call "BinaryRenewAllKubeconfigs" "GenerateAllKubeconfigs");
    moveAssetsNodeID ← add_node "ActivateNewCertificates" moveAssetsStep [controlNode];
    createKubeconfigsNodeID ← add_node "CreateAllKubeconfigFiles" createKubeconfigsStep [controlNode];
    _ ← add_dep moveAssetsNodeID createKubeconfigsNodeID;
    compute_ends).

Definition RolloutLeafCertsToMastersTask_IsRequired c : outcome task_error bool := Ok true.

Definition RolloutLeafCertsToMastersTask_host c (last : NodeID) h : M ExecutionFragment task_error NodeID :=
  let hostName := host_GetName h in
  backupStep ← build c (call "KubexmBackupRemotePKI" ("BackupLeafsPKIFor" +:+ hostName));
  distributeStep ← build c (call "kubexm.DistributeLeafCerts" ("DistributeLeafsFor" +:+ hostName));
  restartApiServerStep ← build c (call "RestartKubeApiServer" ("RestartApiServerForLeafs" +:+ hostName));
  verifyApiServerStep ← build c (call "VerifyAPIServerHealth" ("VerifyApiServerForLeafs" +:+ hostName));
  restartControllerManagerStep ← build c (call "RestartKubeControllerManager" ("RestartControllerManagerForLeafs" +:+ hostName));
  verifyControllerManagerStep ← build c (call "VerifyControllerManagerHealth" ("VerifyControllerManagerForLeafs" +:+ hostName));
  restartSchedulerStep ← build c (call "RestartKubeScheduler" ("RestartSchedulerForLeafs" +:+ hostName));
  verifySchedulerStep ← build c (call "VerifySchedulerHealth" ("VerifySchedulerForLeafs" +:+ hostName));
  backupID ← add_node ("BackupLeafsPKI_" +:+ hostName) backupStep [Some h];
  distributeID ← add_node ("DistributeLeafCerts_" +:+ hostName) distributeStep [Some h];
  restartApiServerID ← add_node ("RestartApiServer_ForLeafs_" +:+ hostName) restartApiServerStep [Some h];
  verifyApiServerID ← add_node ("VerifyApiServer_ForLeafs_" +:+ hostName) verifyApiServerStep [Some h];
  restartControllerManagerID ← add_node ("RestartControllerManager_ForLeafs_" +:+ hostName) restartControllerManagerStep [Some h];
  verifyControllerManagerID ← add_node ("VerifyControllerManager_ForLeafs_" +:+ hostName) verifyControllerManagerStep [Some h];
  restartSchedulerID ← add_node ("RestartScheduler_ForLeafs_" +:+ hostName) restartSchedulerStep [Some h];
  verifySchedulerID ← add_node ("VerifyScheduler_ForLeafs_" +:+ hostName) verifySchedulerStep [Some h];
  _ ← add_deps [(backupID, distributeID); (distributeID, restartApiServerID);
                (restartApiServerID, verifyApiServerID); (verifyApiServerID, restartControllerManagerID);
                (restartControllerManagerID, verifyControllerManagerID);
                (verifyControllerManagerID, restartSchedulerID); (restartSchedulerID, verifySchedulerID)];
  _ ← link_after last backupID;
  mret verifySchedulerID.

Definition RolloutLeafCertsToMastersTask_Plan c : outcome task_error (option ExecutionFragment) :=
  plan_fragment "RolloutLeafCertsToMasters" (
    require_hosts "RolloutLeafCertsToMasters" (hosts_by_role 455 RoleMaster c) (λ masterHosts,
      last ← rolling (RolloutLeafCertsToMastersTask_host c) "" masterHosts;
      verifyClusterStep ← build c (call "CheckClusterHealth" "VerifyClusterHealthAfterLeafsRollout");
      firstMaster ← deref (masterHosts !! 0);
      verifyClusterID ← add_node "VerifyClusterHealthAfterLeafsRollout" verifyClusterStep [firstMaster];
      _ ← link_after last verifyClusterID;
      compute_ends)).

Definition RolloutK8sCABundleTask_IsRequired c : outcome task_error bool := Ok true.

Definition RolloutK8sCABundleTask_host c (last : NodeID) h : M ExecutionFragment task_error NodeID :=
  let hostName := host_GetName h in
  backupStep ← build c (call "KubexmBackupRemotePKI" ("BackupPKIFor" +:+ hostName));
  distributeBundleStep ← build c (call "KubexmDistributeK8sPKI" ("DistributeBundleFor" +:+ hostName));
  restartApiServerStep ← build c (call "RestartKubeApiServer" ("RestartApiServerFor" +:+ hostName));
  verifyApiServerStep ← build c (call "VerifyAPIServerHealth" ("VerifyApiServer-" +:+ hostName));
  restartCMStep ← build c (call "RestartKubeControllerManager" ("RestartControllerManagerFor" +:+ hostName));
  verifyCMStep ← build c (call "VerifyControllerManagerHealth" ("VerifyControllerManagerFor" +:+ hostName));
  restartSchedulerStep ← build c (call "RestartKubeScheduler" ("RestartSchedulerFor" +:+ hostName));
  verifySchedulerStep ← build c (call "VerifySchedulerHealth" ("VerifySchedulerFor" +:+ hostName));
  backupID ← add_node ("BackupPKIFor" +:+ hostName) backupStep [Some h];
  distributeBundleID ← add_node ("DistributeBundleFor" +:+ hostName) distributeBundleStep [Some h];
  restartApiServerID ← add_node ("RestartApiServerFor" +:+ hostName) restartApiServerStep [Some h];
  verifyApiServerID ← add_node ("VerifyApiServerFor" +:+ hostName) verifyApiServerStep [Some h];
  restartCMID ← add_node ("RestartControllerManagerFor" +:+ hostName) restartCMStep [Some h];
  verifyCMID ← add_node ("VerifyControllerManagerFor" +:+ hostName) verifyCMStep [Some h];
  restartSchedulerID ← add_node ("RestartSchedulerFor" +:+ hostName) restartSchedulerStep [Some h];
  verifySchedulerID ← add_node ("VerifySchedulerFor" +:+ hostName) verifySchedulerStep [Some h];
  _ ← add_deps [(backupID, distributeBundleID); (distributeBundleID, restartApiServerID);
                (restartApiServerID, verifyApiServerID); (verifyApiServerID, restartCMID);
                (restartCMID, verifyCMID); (verifyCMID, restartSchedulerID);
                (restartSchedulerID, verifySchedulerID)];
  _ ← link_after last backupID;
  mret verifySchedulerID.

Definition RolloutK8sCABundleTask_Plan c : outcome task_error (option ExecutionFragment) :=
  plan_fragment "RolloutK8sCABundle" (
    require_hosts "RolloutK8sCABundle" (hosts_by_role 454 RoleMaster c) (λ masterHosts,
      last ← rolling (RolloutK8sCABundleTask_host c) "" masterHosts;
      verifyClusterStep ← build c (call "CheckClusterHealth" "VerifyClusterHealthAfterBundleRollout");
      firstMaster ← deref (masterHosts !! 0);
      verifyClusterID ← add_node "VerifyClusterHealthAfterBundleRollout" verifyClusterStep [firstMaster];
      _ ← link_after last verifyClusterID;
      compute_ends)).

Definition FinalizeMastersTask_IsRequired c : outcome task_error bool := Ok true.

Definition FinalizeMastersTask_host c (last : NodeID) h : M ExecutionFragment task_error NodeID :=
  let hostName := host_GetName h in
  backupStep ← build c (call "BackupKubeconfigs" ("BackupMasterConfigsFor" +:+ hostName));
  distributeCAStep ← build c (call "KubexmDistributeK8sPKI" ("DistributeFinalCAFor" +:+ hostName));
  distributeMasterKubeconfigsStep ← build c (call "DistributeMasterKubeconfigs" ("DistributeMasterKubeconfigsFor" +:+ hostName));
  restartKubeletStep ← build c (call "RestartKubelet" ("RestartKubeletOnMasterFor" +:+ hostName));
  verifyKubeletStep ← build c (call "VerifyKubeletHealth" ("VerifyKubeletOnMasterFor" +:+ hostName));
  restartKubeProxyStep ← build c (call "RestartKubeProxy" ("RestartKubeProxyOnMasterFor" +:+ hostName));
  verifyKubeProxyStep ← build c (call "VerifyKubeProxyHealth" ("VerifyKubeProxyOnMasterFor" +:+ hostName));
  restartApiServerStep ← build c (call "RestartKubeApiServer" ("RestartApiServerFinalFor" +:+ hostName));
  verifyApiServerStep ← build c (call "VerifyAPIServerHealth" ("VerifyApiServerFinalFor" +:+ hostName));
  restartCMStep ← build c (call "RestartKubeControllerManager" ("RestartControllerManagerFinalFor" +:+ hostName));
  verifyCMStep ← build c (call "VerifyControllerManagerHealth" ("VerifyControllerManagerFinalFor" +:+ hostName));
  restartSchedulerStep ← build c (call "RestartKubeScheduler" ("RestartSchedulerFinalFor" +:+ hostName));
  verifySchedulerStep ← build c (call "VerifySchedulerHealth" ("VerifySchedulerFinalFor" +:+ hostName));
  barrierStep ← build c (call_args "NoOp" ("BarrierFinalFor" +:+ hostName) ["Wait for all components on master to be healthy"]);
  backupID ← add_node ("BackupMasterConfigsFor" +:+ hostName) backupStep [Some h];
  distributeCAID ← add_node ("DistributeFinalCAFor" +:+ hostName) distributeCAStep [Some h];
  distributeMasterKubeconfigsID ← add_node ("DistributeMasterKubeconfigsFor" +:+ hostName) distributeMasterKubeconfigsStep [Some h];
  restartKubeletID ← add_node ("RestartKubeletOnMasterFor" +:+ hostName) restartKubeletStep [Some h];
  verifyKubeletID ← add_node ("VerifyKubeletOnMasterFor" +:+ hostName) verifyKubeletStep [Some h];
  restartKubeProxyID ← add_node ("RestartKubeProxyOnMasterFor" +:+ hostName) restartKubeProxyStep [Some h];
  verifyKubeProxyID ← add_node ("VerifyKubeProxyOnMasterFor" +:+ hostName) verifyKubeProxyStep [Some h];
  restartApiServerID ← add_node ("RestartApiServerFinalFor" +:+ hostName) restartApiServerStep [Some h];
  verifyApiServerID ← add_node ("VerifyApiServerFinalFor" +:+ hostName) verifyApiServerStep [Some h];
  restartCMID ← add_node ("RestartControllerManagerFinalFor" +:+ hostName) restartCMStep [Some h];
  verifyCMID ← add_node ("VerifyControllerManagerFinalFor" +:+ hostName) verifyCMStep [Some h];
  restartSchedulerID ← add_node ("RestartSchedulerFinalFor" +:+ hostName) restartSchedulerStep [Some h];
  verifySchedulerID ← add_node ("VerifySchedulerFinalFor" +:+ hostName) verifySchedulerStep [Some h];
  barrierID ← add_node ("MasterFinalBarrierFor" +:+ hostName) barrierStep [Some h];
  _ ← add_deps [(backupID, distributeCAID); (backupID, distributeMasterKubeconfigsID);
                (distributeCAID, restartKubeletID); (distributeMasterKubeconfigsID, restartKubeletID);
                (distributeCAID, restartKubeProxyID); (distributeMasterKubeconfigsID, restartKubeProxyID);
                (restartKubeletID, verifyKubeletID); (restartKubeProxyID, verifyKubeProxyID);
                (distributeCAID, restartApiServerID); (distributeMasterKubeconfigsID, restartApiServerID);
                (verifyKubeletID, restartApiServerID); (restartApiServerID, verifyApiServerID);
                (verifyApiServerID, restartCMID); (restartCMID, verifyCMID); (verifyCMID, restartSchedulerID);
                (restartSchedulerID, verifySchedulerID); (verifyKubeletID, barrierID);
                (verifyKubeProxyID, barrierID); (verifySchedulerID, barrierID)];
  _ ← link_after last backupID;
  mret barrierID.

Definition FinalizeMastersTask_Plan c : outcome task_error (option ExecutionFragment) :=
  plan_fragment "FinalizeMasters" (
    require_hosts "FinalizeMasters" (hosts_by_role 453 RoleMaster c) (λ masterHosts,
      last ← rolling (FinalizeMastersTask_host c) "" masterHosts;
      _ ← (if decide (length masterHosts = 0) then mret tt else
             verifyClusterStep ← build c (call "CheckClusterHealth" "UltimateClusterHealthVerification");
             firstMaster ← deref (masterHosts !! 0);
             verifyClusterID ← add_node "UltimateClusterHealthVerification" verifyClusterStep [firstMaster];
             link_after last verifyClusterID);
      compute_ends)).

Definition UpdateWorkerNodesTask_IsRequired c : outcome task_error bool := Ok true.

Definition UpdateWorkerNodesTask_host c (last : NodeID) h : M ExecutionFragment task_error NodeID :=
  let hostName := host_GetName h in
  backupKubeletStep ← build c (call "KubexmBackupRemotePKI" ("BackupKubeletConfigFor" +:+ hostName));
  distributeCertStep ← build c (call "KubexmDistributeK8sPKI" ("DistributeWorkerCertsFor" +:+ hostName));
  distributeKubeconfigStep ← build c (call "DistributeWorkerKubeconfigs" ("DistributeWorkerKubeconfigsFor" +:+ hostName));
  restartKubeletStep ← build c (call "RestartKubelet" ("RestartKubeletFor" +:+ hostName));
  verifyKubeletStep ← build c (call "VerifyKubeletHealth" ("VerifyWorkerFor" +:+ hostName));
  restartKubeProxyStep ← build c (call "RestartKubeProxy" ("RestartKubeProxyFor" +:+ hostName));
  verifyKubeProxyStep ← build c (call "VerifyKubeProxyHealth" ("VerifyKubeProxyFor" +:+ hostName));
  backupKubeletID ← add_node ("BackupKubeletConfigFor" +:+ hostName) backupKubeletStep [Some h];
  distributeCertID ← add_node ("DistributeWorkerCertsFor" +:+ hostName) distributeCertStep [Some h];
  distributeKubeconfigID ← add_node ("DistributeWorkerKubeconfigsFor" +:+ hostName) distributeKubeconfigStep [Some h];
  restartKubeletID ← add_node ("RestartKubeletFor" +:+ hostName) restartKubeletStep [Some h];
  verifyKubeletID ← add_node ("VerifyKubeletFor" +:+ hostName) verifyKubeletStep [Some h];
  restartKubeProxyID ← add_node ("RestartKubeProxyFor" +:+ hostName) restartKubeProxyStep [Some h];
  verifyKubeProxyID ← add_node ("VerifyKubeletFor" +:+ hostName) verifyKubeProxyStep [Some h];
  _ ← add_deps [(backupKubeletID, distributeCertID); (backupKubeletID, distributeKubeconfigID);
                (distributeCertID, restartKubeletID); (distributeKubeconfigID, restartKubeletID);
                (distributeCertID, restartKubeProxyID); (distributeKubeconfigID, restartKubeProxyID);
                (restartKubeletID, verifyKubeletID); (restartKubeProxyID, verifyKubeProxyID)];
  _ ← link_after last backupKubeletID;
  barrierStep ← build c (call_args "NoOp" ("BarrierFor" +:+ hostName) [("Wait for all checks on node " +:+ hostName +:+ " to complete")]);
  barrierID ← add_node ("WorkerUpdateBarrier_" +:+ hostName) barrierStep [Some h];
  _ ← add_deps [(verifyKubeletID, barrierID); (verifyKubeProxyID, barrierID)];
  _ ← link_after last backupKubeletID;
  mret barrierID.

Definition UpdateWorkerNodesTask_Plan c : outcome task_error (option ExecutionFragment) :=
  plan_fragment "UpdateWorkerNodes" (
    workerHosts ← lift (hosts_by_role 456 RoleWorker c);
    masterHosts ← lift (hosts_by_role 457 RoleMaster c);
    pureWorkerHosts ← lift (pure_workers masterHosts workerHosts);
    if decide (length pureWorkerHosts = 0) then mret tt else
    last ← rolling (UpdateWorkerNodesTask_host c) "" pureWorkerHosts;
    _ ← (if decide (length masterHosts = 0) then mret tt else
           firstMaster ← deref (masterHosts !! 0);
           verifyClusterStep ← build c (call "CheckClusterHealth" "VerifyClusterHealthAfterWorkerRollout");
           verifyClusterID ← add_node "VerifyClusterHealthAfterWorkerRollout" verifyClusterStep [firstMaster];
           link_after last verifyClusterID);
    compute_ends).

Definition CleanupTask_IsRequired c : outcome task_error bool := Ok true.

Definition CleanupTask_Plan c : outcome task_error (option ExecutionFragment) :=
  plan_fragment "CleanupAfterRenewal" (
    require_hosts "CleanupAfterRenewal" (hosts_by_role 472 "" c) (λ allHosts,
      controlNode ← control_node c;
      localCleanupStep ← build c (call "LocalCleanup" "CleanupLocalWorkspace");
      remoteCleanupStep ← build c (call "RemoteCleanup" "CleanupRemoteBackups");
      _ ← add_node "CleanupLocalWorkspace" localCleanupStep [controlNode];
      _ ← add_node "CleanupRemoteBackups" remoteCleanupStep allHosts;
      compute_ends)).

(** ** Certificates of etcd: [pki/etcd/] *)

Definition CheckRenewalStatusTask_IsRequired c : outcome task_error bool := Ok true.

Definition CheckRenewalStatusTask_Plan c : outcome task_error (option ExecutionFragment) :=
  plan_fragment "CheckRenewalStatus" (
    controlNode ← control_node c;
    require_hosts "CheckRenewalStatus" (hosts_by_role 470 RoleEtcd c) (λ etcdNodes,
      restoreCaStep ← build c (call "RestoreCAFromRemote" "RestoreEtcdCAFromRemote");
      checkCaStep ← build c (call "CheckCAExpiration" "CheckEtcdCAExpiration");
      checkLeafStep ← build c (call "CheckLeafCertsExpiration" "CheckLeafCertificateExpiration");
      _ ← add_node "RestoreEtcdCAFromRemote" restoreCaStep [controlNode];
      _ ← add_node "CheckEtcdCAExpiration" checkCaStep [controlNode];
      _ ← add_node "CheckLeafCertificateExpiration" checkLeafStep etcdNodes;
      _ ← add_deps [("RestoreEtcdCAFromRemote", "CheckEtcdCAExpiration");
                    ("RestoreEtcdCAFromRemote", "CheckLeafCertificateExpiration")];
      compute_ends)).

Definition GenerateNewCertificatesTask_IsRequired c : outcome task_error bool :=
  Ok (module_flag_value CacheKubexmEtcdCACertRenew c "GenerateNewCertificates" ||
      module_flag_value CacheKubexmEtcdLeafCertRenew c "GenerateNewCertificates").

Definition GenerateNewCertificatesTask_Plan c : outcome task_error (option ExecutionFragment) :=
  plan_fragment "GenerateNewCertificates" (
    controlNode ← control_node c;
    prepareAssetsStep ← build c (call "PrepareAssets" "PrepareEtcdCARenewalAssets");
    resignCaStep ← build c (call "ResignCA" "ResignEtcdCA");
    resignCertStep ← build c (call "GenerateNewLeafCerts" "ResignEtcdCerts");
    createBundleStep ← build c (call "PrepareCATransition" "CreateCABundle");
    _ ← add_node "PrepareAssets" prepareAssetsStep [controlNode];
    _ ← add_node "ResignEtcdCA" resignCaStep [controlNode];
    _ ← add_node "GenerateNewEtcdLeafCerts" resignCertStep [controlNode];
    _ ← add_node "CreateCABundle" createBundleStep [controlNode];
    _ ← add_deps [("PrepareAssets", "ResignEtcdCA"); ("PrepareAssets", "CreateCABundle");
                  ("ResignEtcdCA", "GenerateNewEtcdLeafCerts"); ("ResignEtcdCA", "CreateCABundle")];
    compute_ends).

Definition DeployNewLeafCertsRollingTask_IsRequired c : outcome task_error bool :=
  Ok (module_flag_value CacheKubexmEtcdCACertRenew c "DeployNewLeafCertsRolling" ||
      module_flag_value CacheKubexmEtcdLeafCertRenew c "DeployNewLeafCertsRolling").

Definition DeployNewLeafCertsRollingTask_host c (last : NodeID) h : M ExecutionFragment task_error NodeID :=
  let nodeName := host_GetName h in
  backupStep ← build c (call "BackupRemoteEtcdCerts" ("BackupRemoteCerts_" +:+ nodeName));
  let backupNodeID := ("BackupRemoteCertsForLeafs_" +:+ nodeName) in
  _ ← add_node backupNodeID backupStep [Some h];
  _ ← link_after last backupNodeID;
  distLeafsStep ← build c (call "etcd.DistributeLeafCerts" ("DistributeLeafCerts_" +:+ nodeName));
  let distLeafsNodeID := ("DistributeLeafCerts_" +:+ nodeName) in
  _ ← add_node distLeafsNodeID distLeafsStep [Some h];
  _ ← add_dep backupNodeID distLeafsNodeID;
  restartStep ← build c (call "RestartEtcd" ("RestartEtcd_" +:+ nodeName));
  let restartNodeID := ("RestartEtcdForLeafs_" +:+ nodeName) in
  _ ← add_node restartNodeID restartStep [Some h];
  _ ← add_dep distLeafsNodeID restartNodeID;
  waitStep ← build c (call "WaitClusterHealthy" ("WaitClusterHealthy_" +:+ nodeName));
  let waitNodeID := ("WaitClusterHealthyForLeafs_" +:+ nodeName) in
  _ ← add_node waitNodeID waitStep [Some h];
  _ ← add_dep restartNodeID waitNodeID;
  mret waitNodeID.

Definition DeployNewLeafCertsRollingTask_Plan c : outcome task_error (option ExecutionFragment) :=
  plan_fragment "DeployNewLeafCertsRolling" (
    controlNode ← control_node c;
    unless_no_hosts (hosts_by_role 452 RoleEtcd c) (λ etcdNodes,
      last ← (if module_flag_value CacheKubexmEtcdCACertRenew c "DeployNewLeafCertsRolling" then
                moveAssetsStep ← build c (call "etcd.MoveNewAssets" "MoveNewAssetsToMainDir");
                let moveAssetsNodeID := "MoveNewAssets" in
                _ ← add_node moveAssetsNodeID moveAssetsStep [controlNode];
                mret moveAssetsNodeID
              else mret "");
      _ ← rolling (DeployNewLeafCertsRollingTask_host c) last etcdNodes;
      compute_ends)).

Definition DeployTrustBundleRollingTask_IsRequired c : outcome task_error bool := Ok (module_flag_value CacheKubexmEtcdCACertRenew c "DeployTrustBundleRolling").

Definition DeployTrustBundleRollingTask_host c (last : NodeID) h : M ExecutionFragment task_error NodeID :=
  let nodeName := host_GetName h in
  backupStep ← build c (call "BackupRemoteEtcdCerts" ("BackupRemoteCerts_" +:+ nodeName));
  let backupNodeID := ("BackupRemoteCertsForBundle_" +:+ nodeName) in
  _ ← add_node backupNodeID backupStep [Some h];
  _ ← add_dep last backupNodeID;
  distBundleStep ← build c (call "DistributeCA" ("DistributeCABundle_" +:+ nodeName));
  let distBundleNodeID := ("DistributeCABundle_" +:+ nodeName) in
  _ ← add_node distBundleNodeID distBundleStep [Some h];
  _ ← add_dep backupNodeID distBundleNodeID;
  restartStep ← build c (call "RestartEtcd" ("RestartEtcd_" +:+ nodeName));
  let restartNodeID := ("RestartEtcdForBundle_" +:+ nodeName) in
  _ ← add_node restartNodeID restartStep [Some h];
  _ ← add_dep distBundleNodeID restartNodeID;
  waitStep ← build c (call "WaitClusterHealthy" ("WaitClusterHealthy_" +:+ nodeName));
  let waitNodeID := ("WaitClusterHealthyForBundle_" +:+ nodeName) in
  _ ← add_node waitNodeID waitStep [Some h];
  _ ← add_dep restartNodeID waitNodeID;
  mret waitNodeID.

Definition DeployTrustBundleRollingTask_Plan c : outcome task_error (option ExecutionFragment) :=
  plan_fragment "DeployTrustBundleRolling" (
    controlNode ← control_node c;
    unless_no_hosts (hosts_by_role 451 RoleEtcd c) (λ etcdNodes,
      prepareBundleStep ← build c (call "PrepareCATransition" "PrepareCATransitionBundle");
      let prepareBundleNodeID := "PrepareCATransitionBundle" in
      _ ← add_node prepareBundleNodeID prepareBundleStep [controlNode];
      _ ← rolling (DeployTrustBundleRollingTask_host c) prepareBundleNodeID etcdNodes;
      compute_ends)).

Definition DeployFinalCARollingTask_IsRequired c : outcome task_error bool := Ok (module_flag_value CacheKubexmEtcdCACertRenew c "DeployFinalCARolling").

Definition DeployFinalCARollingTask_host c (last : NodeID) h : M ExecutionFragment task_error NodeID :=
  let nodeName := host_GetName h in
  distCAStep ← build c (call "DistributeCA" ("DistributeFinalCA_" +:+ nodeName));
  let distCANodeID := ("DistributeFinalCAFor" +:+ nodeName) in
  _ ← add_node distCANodeID distCAStep [Some h];
  _ ← link_after last distCANodeID;
  restartStep ← build c (call "RestartEtcd" ("RestartEtcdForFinalCA_" +:+ nodeName));
  let restartNodeID := ("RestartEtcdForFinalCA_" +:+ nodeName) in
  _ ← add_node restartNodeID restartStep [Some h];
  _ ← add_dep distCANodeID restartNodeID;
  waitStep ← build c (call "WaitClusterHealthy" ("WaitClusterHealthyForFinalCA_" +:+ nodeName));
  let waitNodeID := ("WaitClusterHealthyForFinalCA_" +:+ nodeName) in
  _ ← add_node waitNodeID waitStep [Some h];
  _ ← add_dep restartNodeID waitNodeID;
  mret waitNodeID.

Definition DeployFinalCARollingTask_Plan c : outcome task_error (option ExecutionFragment) :=
  plan_fragment "DeployFinalCARolling" (
    unless_no_hosts (hosts_by_role 450 RoleEtcd c) (λ etcdNodes,
      _ ← rolling (DeployFinalCARollingTask_host c) "" etcdNodes;
      compute_ends)).

Definition FinalizeWorkspaceTask_IsRequired c : outcome task_error bool := Ok (module_flag_value CacheKubexmEtcdCACertRenew c "FinalizeWorkspace").

Definition FinalizeWorkspaceTask_Plan c : outcome task_error (option ExecutionFragment) :=
  plan_fragment "FinalizeWorkspace" (
    controlNode ← control_node c;
    cleanupStep ← build c (call "CleanupTransitionAssets" "CleanupTransitionAssets");
    _ ← add_node "CleanupWorkspace" cleanupStep [controlNode];
    compute_ends).

(** ** Certificates of clusters set up by kubeadm: [pki/kubeadm/] *)

Definition CheckEtcdCertsExpirationTask_IsRequired c : outcome task_error bool := etcd_by_kubeadm c.

Definition CheckEtcdCertsExpirationTask_Plan c : outcome task_error (option ExecutionFragment) :=
  plan_fragment "CheckEtcdCertsExpiration" (
    require_hosts "CheckEtcdCertsExpiration" (hosts_by_role 473 RoleEtcd c) (λ etcdHosts,
      sourceHost ← deref (etcdHosts !! 0);
      controlNode ← control_node c;
      fetchPKIStep ← build c (call "KubeadmFetchFullPKI" "FetchEtcdPKI");
      checkEtcdCAStep ← build c (call "KubeadmCheckEtcdCAExpiration" "CheckEtcdCA");
      checkEtcdLeafCertStep ← build c (call "KubeadmCheckLeafCertsExpiration" "CheckEtcdLeafs");
      _ ← add_node_as "FetchEtcdPKI" "FetchEtcdPKI" fetchPKIStep [sourceHost];
      _ ← add_node_as "CheckEtcdCA" "CheckEtcdCA" checkEtcdCAStep [controlNode];
      _ ← add_node_as "CheckEtcdLeafs" "CheckEtcdLeafs" checkEtcdLeafCertStep [sourceHost];
      _ ← add_deps [("FetchEtcdPKI", "CheckEtcdCA"); ("FetchEtcdPKI", "CheckEtcdLeafs")];
      compute_ends)).

Definition KubeadmCheckClusterCertificatesTask_IsRequired c : outcome task_error bool :=
  spec ← config_spec c; k ← deref_or_panic (spec_Kubernetes spec); Ok (bool_decide (k8s_Type k = KubernetesDeploymentTypeKubeadm)).

Definition KubeadmCheckClusterCertificatesTask_Plan c : outcome task_error (option ExecutionFragment) :=
  plan_fragment "CheckClusterCertificates" (
    require_hosts "CheckClusterCertificates" (hosts_by_role 474 RoleMaster c) (λ masterNodes,
      controlNode ← control_node c;
      fetchPkiStep ← build c (call "KubeadmFetchFullPKI" "FetchK8sPKI");
      checkCaStep ← build c (call "KubeadmCheckK8sCAExpiration" "CheckK8sCAExpiration");
      checkLeafStep ← build c (call "KubeadmCheckLeafCertsExpiration" "CheckK8sLeafCertsExpiration");
      firstMaster ← deref (masterNodes !! 0);
      fetchPkiNodeID ← add_node "FetchKubernetesPKI" fetchPkiStep [controlNode];
      checkCaNodeID ← add_node "CheckKubernetesCAExpiration" checkCaStep [controlNode];
      checkLeafNodeID ← add_node "CheckKubernetesLeafCertsExpiration" checkLeafStep [firstMaster];
      _ ← add_deps [(fetchPkiNodeID, checkCaNodeID); (fetchPkiNodeID, checkLeafNodeID)];
      compute_ends)).

Definition GenerateEtcdCABundleCertsTask_IsRequired c : outcome task_error bool := etcd_by_kubeadm c.

Definition GenerateEtcdCABundleCertsTask_Plan c : outcome task_error (option ExecutionFragment) :=
  plan_fragment "GenerateEtcdCACerts" (
    controlNode ← control_node c;
    prepareCAAssetsStep ← build c (call "KubeadmPrepareStackedEtcdCAAssets" "PrepareEtcdCAAssets");
    renewCAStep ← build c (call "KubeadmRenewStackedEtcdCA" "RenewEtcdCA");
    renewLeafsStep ← build c (call "KubeadmRenewStackedEtcdLeafCerts" "RenewEtcdLeafs");
    createCABundleStep ← build c (call "KubeadmPrepareStackedEtcdCATransition" "CreateEtcdCABundle");
    _ ← add_node_as "PrepareEtcdCAAssets" "PrepareEtcdCAAssets" prepareCAAssetsStep [controlNode];
    _ ← add_node_as "RenewEtcdCA" "RenewEtcdCA" renewCAStep [controlNode];
    _ ← add_node_as "RenewEtcdLeafs" "RenewEtcdLeafs" renewLeafsStep [controlNode];
    _ ← add_node_as "CreateEtcdCABundle" "CreateEtcdCABundle" createCABundleStep [controlNode];
    _ ← add_deps [("PrepareEtcdCAAssets", "RenewEtcdCA"); ("RenewEtcdCA", "RenewEtcdLeafs");
                  ("RenewEtcdCA", "CreateEtcdCABundle")];
    compute_ends).

Definition GenerateLeafCertsTask_IsRequired c : outcome task_error bool := etcd_by_kubeadm c.

Definition GenerateLeafCertsTask_Plan c : outcome task_error (option ExecutionFragment) :=
  plan_fragment "GenerateEtcdLeafCerts" (
    controlNode ← control_node c;
    renewLeafsStep ← build c (call "KubeadmRenewStackedEtcdLeafCerts" "RenewEtcdLeafs");
    _ ← add_node_as "RenewEtcdLeafs" "RenewEtcdLeafs" renewLeafsStep [controlNode];
    compute_ends).

Definition GenerateK8sCACertsTask_IsRequired c : outcome task_error bool := Ok (module_flag CacheKubeadmK8sCACertRenew c "GenerateK8sCACerts").

Definition GenerateK8sCACertsTask_Plan c : outcome task_error (option ExecutionFragment) :=
  plan_fragment "GenerateK8sCACerts" (
    prepareAssetsStep ← build c (call "KubeadmPrepareCAAssets" "PrepareK8sCAAssets");
    renewCaStep ← build c (call "KubeadmRenewK8sCA" "RenewK8sCA");
    renewLeafStep ← build c (call "KubeadmRenewLeafCerts" "RenewK8sLeafCerts");
    generateCaBundle ← build c (call "KubeadmPrepareCATransition" "GenerateK8sCABundle");
    prepareAssetsNodeID ← add_node_nowhere "PrepareK8sCAAssets" prepareAssetsStep;
    renewCaNodeID ← add_node_nowhere "RenewK8sCA" renewCaStep;
    renewLeafNodeID ← add_node_nowhere "RenewK8sLeafCerts" renewLeafStep;
    generateBundleNodeID ← add_node_nowhere "GenerateK8sCABundle" generateCaBundle;
    _ ← add_deps [(prepareAssetsNodeID, renewCaNodeID); (renewCaNodeID, renewLeafNodeID);
                  (renewCaNodeID, generateBundleNodeID); (prepareAssetsNodeID, generateBundleNodeID)];
    compute_ends).

Definition GenerateK8sLeafCertsTask_IsRequired c : outcome task_error bool :=
  Ok (negb (module_flag CacheKubeadmK8sCACertRenew c "GenerateK8sLeafCerts") &&
      module_flag CacheKubeadmK8sLeafCertRenew c "GenerateK8sLeafCerts").

Definition GenerateK8sLeafCertsTask_Plan c : outcome task_error (option ExecutionFragment) :=
  plan_fragment "GenerateK8sLeafCerts" (
    renewLeafStep ← build c (call "KubeadmRenewLeafCerts" "RenewK8sLeafCerts");
    renewLeafNodeID ← add_node_nowhere "RenewK8sLeafCerts" renewLeafStep;
    set_ends [renewLeafNodeID] [renewLeafNodeID]).

Definition KubeadmGenerateKubeconfigsTask_IsRequired c : outcome task_error bool := Ok (renewal_triggered c "GenerateKubeconfigs").

Definition KubeadmGenerateKubeconfigsTask_Plan c : outcome task_error (option ExecutionFragment) :=
  plan_fragment "GenerateKubeconfigs" (
    controlNode ← control_node c;
    moveAssetsStep ← build c (call "KubeadmMoveNewAssets" "ActivateNewCertificates");
    createKubeconfigsStep ← build c (call "KubeadmCreateKubeconfigs" "CreateKubeconfigs");
    moveAssetsNodeID ← add_node "ActivateNewCertificates" moveAssetsStep [controlNode];
    createKubeconfigsNodeID ← add_node "CreateAllKubeconfigFiles" createKubeconfigsStep [controlNode];
    _ ← add_dep moveAssetsNodeID createKubeconfigsNodeID;
    compute_ends).

Definition RolloutMasterLeafCertsTask_IsRequired c : outcome task_error bool := Ok (renewal_triggered c "DistributeLeafCertsToMasters").

Definition RolloutMasterLeafCertsTask_host c (last : NodeID) h : M ExecutionFragment task_error NodeID :=
  let hostName := host_GetName h in
  distributeStep ← build c (call "KubeadmDistributeLeafCerts" ("DistributeLeafs-For-" +:+ hostName));
  restartStep ← build c (call "KubeadmRestartControlPlane" ("RestartCP-ForLeafs-" +:+ hostName));
  verifyStep ← build c (call "KubeadmVerifyControlPlaneHealth" ("VerifyCP-ForLeafs-" +:+ hostName));
  distributeID ← add_node ("DistributeLeafCerts_" +:+ hostName) distributeStep [Some h];
  restartID ← add_node ("RestartCP_ForLeafCerts_" +:+ hostName) restartStep [Some h];
  verifyID ← add_node ("VerifyCP_ForLeafCerts_" +:+ hostName) verifyStep [Some h];
  _ ← add_deps [(distributeID, restartID); (restartID, verifyID)];
  _ ← link_after last distributeID;
  mret verifyID.

Definition RolloutMasterLeafCertsTask_Plan c : outcome task_error (option ExecutionFragment) :=
  plan_fragment "DistributeLeafCertsToMasters" (
    require_hosts "DistributeLeafCertsToMasters" (hosts_by_role 462 RoleMaster c) (λ masterHosts,
      last ← rolling (RolloutMasterLeafCertsTask_host c) "" masterHosts;
      verifyClusterStep ← build c (call "KubeadmVerifyClusterHealth" "VerifyClusterHealthAfterLeafsRollout");
      firstMaster ← deref (masterHosts !! 0);
      verifyClusterID ← add_node "VerifyClusterHealthAfterLeafsRollout" verifyClusterStep [firstMaster];
      _ ← link_after last verifyClusterID;
      compute_ends)).

Definition RolloutMasterCertsCATask_IsRequired c : outcome task_error bool := Ok (module_flag CacheKubeadmK8sCACertRenew c "RolloutUpdateMasterCA").

Definition RolloutMasterCertsCATask_host c (last : NodeID) h : M ExecutionFragment task_error NodeID :=
  let hostName := host_GetName h in
  backupPkiStep ← build c (call "KubeadmBackupRemotePKI" ("BackupPKIFor" +:+ hostName));
  distributeBundleStep ← build c (call "KubeadmDistributeK8sPKI" ("DistributeBundleFor" +:+ hostName));
  restartControlPlaneStep ← build c (call "KubeadmRestartControlPlane" ("RestartControlPlaneFor" +:+ hostName));
  verifyControlPlaneStep ← build c (call "KubeadmVerifyControlPlaneHealth" ("VerifyControlPlaneFor" +:+ hostName));
  backupPkiName ← step_name backupPkiStep;
  distributeBundleName ← step_name distributeBundleStep;
  restartControlPlaneName ← step_name restartControlPlaneStep;
  verifyControlPlaneName ← step_name verifyControlPlaneStep;
  backupPkiID ← add_node backupPkiName backupPkiStep [Some h];
  distributeBundleID ← add_node distributeBundleName distributeBundleStep [Some h];
  restartControlPlaneID ← add_node restartControlPlaneName restartControlPlaneStep [Some h];
  verifyControlPlaneID ← add_node verifyControlPlaneName verifyControlPlaneStep [Some h];
  _ ← add_deps [(backupPkiID, distributeBundleID); (distributeBundleID, restartControlPlaneID);
                (restartControlPlaneID, verifyControlPlaneID)];
  _ ← link_after last backupPkiID;
  mret verifyControlPlaneID.

Definition RolloutMasterCertsCATask_Plan c : outcome task_error (option ExecutionFragment) :=
  plan_fragment "RolloutUpdateMasterCA" (
    require_hosts "RolloutUpdateMasterCA" (hosts_by_role 459 RoleMaster c) (λ masterHosts,
      last ← rolling (RolloutMasterCertsCATask_host c) "" masterHosts;
      verifyClusterStep ← build c (call "KubeadmVerifyClusterHealth" "VerifyClusterHealthAfterBundleRollout");
      firstMaster ← deref (masterHosts !! 0);
      verifyClusterName ← step_name verifyClusterStep;
      verifyClusterID ← add_node verifyClusterName verifyClusterStep [firstMaster];
      _ ← link_after last verifyClusterID;
      compute_ends)).

Definition KubeadmFinalizeMastersTask_IsRequired c : outcome task_error bool := Ok (renewal_triggered c "FinalizeMasters").

Definition KubeadmFinalizeMastersTask_host c (last : NodeID) h : M ExecutionFragment task_error NodeID :=
  let hostName := host_GetName h in
  distributeKubeconfigsStep ← build c (call "KubeadmDistributeKubeconfigs" ("DistributeKubeconfigsFor" +:+ hostName));
  distributeKubeletConfStep ← build c (call "KubeadmDistributeKubeletConfig" ("DistributeKubeletConfFor" +:+ hostName));
  distributeCA ← build c (call "KubeadmDistributeK8sPKI" ("DistributeCAFor" +:+ hostName));
  restartKubeletStep ← build c (call "KubeadmRestartKubelet" ("RestartKubeletFor" +:+ hostName));
  verifyKubeletStep ← build c (call "KubeadmVerifyWorkerHealth" ("VerifyKubeletFor" +:+ hostName));
  restartControlPlaneStep ← build c (call "KubeadmRestartControlPlane" ("RestartCPForFinal" +:+ hostName));
  verifyControlPlaneStep ← build c (call "KubeadmVerifyControlPlaneHealth" ("VerifyCPForFinalFor" +:+ hostName));
  distributeKubeconfigsID ← add_node ("DistributeKubeconfigsFor" +:+ hostName) distributeKubeconfigsStep [Some h];
  distributeKubeletConfID ← add_node ("DistributeKubeletConfFor" +:+ hostName) distributeKubeletConfStep [Some h];
  distributeCAID ← add_node ("DistributeCAFor" +:+ hostName) distributeCA [Some h];
  restartKubeletID ← add_node ("RestartKubeletFor" +:+ hostName) restartKubeletStep [Some h];
  verifyKubeletID ← add_node ("VerifyKubeletFor" +:+ hostName) verifyKubeletStep [Some h];
  restartCPID ← add_node ("RestartCP_FinalFor" +:+ hostName) restartControlPlaneStep [Some h];
  verifyCPID ← add_node ("VerifyCP_FinalFor" +:+ hostName) verifyControlPlaneStep [Some h];
  _ ← add_deps [(distributeKubeconfigsID, restartCPID); (distributeKubeletConfID, restartKubeletID);
                (distributeCAID, restartKubeletID); (distributeCAID, restartCPID);
                (restartKubeletID, verifyKubeletID); (verifyKubeletID, restartCPID); (restartCPID, verifyCPID)];
  _ ← link_after last distributeKubeconfigsID;
  _ ← link_after last distributeKubeletConfID;
  _ ← link_after last distributeCAID;
  mret verifyCPID.

Definition KubeadmFinalizeMastersTask_Plan c : outcome task_error (option ExecutionFragment) :=
  plan_fragment "FinalizeMasters" (
    require_hosts "FinalizeMasters" (hosts_by_role 458 RoleMaster c) (λ masterHosts,
      last ← rolling (KubeadmFinalizeMastersTask_host c) "" masterHosts;
      verifyClusterStep ← build c (call "KubeadmVerifyClusterHealth" "FinalClusterHealthVerification");
      firstMaster ← deref (masterHosts !! 0);
      verifyClusterID ← add_node "FinalClusterHealthVerification" verifyClusterStep [firstMaster];
      _ ← link_after last verifyClusterID;
      compute_ends)).

Definition KubeadmUpdateWorkerNodesTask_IsRequired c : outcome task_error bool := Ok (renewal_triggered c "UpdateWorkerNodes").

Definition KubeadmUpdateWorkerNodesTask_host c (last : NodeID) h : M ExecutionFragment task_error NodeID :=
  let hostName := host_GetName h in
  distributeCAStep ← build c (call "KubeadmDistributeK8sPKI" ("DistributeCAFor" +:+ hostName));
  distributeKubeletConfStep ← build c (call "KubeadmDistributeKubeletConfig" ("DistributeKubeletConfFor" +:+ hostName));
  restartKubeletStep ← build c (call "KubeadmRestartKubelet" ("RestartKubeletFor" +:+ hostName));
  verifyWorkerStep ← build c (call "KubeadmVerifyWorkerHealth" ("VerifyWorkerFor" +:+ hostName));
  distributeCAID ← add_node ("DistributeCAFor" +:+ hostName) distributeCAStep [Some h];
  distributeKubeletConfID ← add_node ("DistributeKubeletConfFor" +:+ hostName) distributeKubeletConfStep [Some h];
  restartKubeletID ← add_node ("RestartKubeletFor" +:+ hostName) restartKubeletStep [Some h];
  verifyWorkerID ← add_node ("VerifyWorkerFor" +:+ hostName) verifyWorkerStep [Some h];
  _ ← add_deps [(distributeCAID, distributeKubeletConfID); (distributeKubeletConfID, restartKubeletID);
                (restartKubeletID, verifyWorkerID)];
  _ ← link_after last distributeCAID;
  mret verifyWorkerID.

Definition KubeadmUpdateWorkerNodesTask_Plan c : outcome task_error (option ExecutionFragment) :=
  plan_fragment "UpdateWorkerNodes" (
    workerHosts ← lift (hosts_by_role 463 RoleWorker c);
    masterHosts ← lift (hosts_by_role 464 RoleMaster c);
    pureWorkerHosts ← lift (pure_workers masterHosts workerHosts);
    if decide (length pureWorkerHosts = 0) then mret tt else
    last ← rolling (KubeadmUpdateWorkerNodesTask_host c) "" pureWorkerHosts;
    firstMaster ← deref (masterHosts !! 0);
    verifyClusterStep ← build c (call "KubeadmVerifyClusterHealth" "VerifyClusterHealthAfterWorkerRollout");
    verifyClusterID ← add_node "VerifyClusterHealthAfterWorkerRollout" verifyClusterStep [firstMaster];
    _ ← link_after last verifyClusterID;
    compute_ends).

Definition RolloutEtcdCertsCATask_IsRequired c : outcome task_error bool := Ok (pipeline_flag CacheKubeadmEtcdCACertRenew c "RolloutEtcdCaCerts").

Definition RolloutEtcdCertsCATask_host c (last : NodeID) h : M ExecutionFragment task_error NodeID :=
  let hostName := host_GetName h in
  backupStep ← build c (call "KubeadmBackupRemotePKI" ("BackupFor" +:+ hostName));
  distributeStep ← build c (call "KubeadmDistributeStackedEtcdPKI" ("DistributeCAFor" +:+ hostName));
  restartStep ← build c (call "KubeadmRestartEtcd" ("RestartEtcdFor" +:+ hostName));
  verifyPodStep ← build c (call "KubeadmVerifyEtcdPodHealth" ("VerifyEtcdPodFor" +:+ hostName));
  backupName ← step_name backupStep;
  distributeName ← step_name distributeStep;
  restartName ← step_name restartStep;
  verifyPodName ← step_name verifyPodStep;
  backupID ← add_node backupName backupStep [Some h];
  distributeID ← add_node distributeName distributeStep [Some h];
  restartID ← add_node restartName restartStep [Some h];
  verifyPodID ← add_node verifyPodName verifyPodStep [Some h];
  _ ← add_deps [(backupID, distributeID); (distributeID, restartID); (restartID, verifyPodID)];
  _ ← link_after last backupID;
  mret verifyPodID.

Definition RolloutEtcdCertsCATask_Plan c : outcome task_error (option ExecutionFragment) :=
  plan_fragment "RolloutEtcdCaCerts" (
    require_hosts "RolloutEtcdCaCerts" (hosts_by_role 460 RoleEtcd c) (λ etcdHosts,
      opHost ← control_node c;
      last ← rolling (RolloutEtcdCertsCATask_host c) "" etcdHosts;
      verifyClusterStep ← build c (call "KubeadmVerifyEtcdClusterHealth" "VerifyClusterHealth");
      verifyClusterName ← step_name verifyClusterStep;
      verifyClusterID ← add_node verifyClusterName verifyClusterStep [opHost];
      _ ← link_after last verifyClusterID;
      compute_ends)).

Definition RolloutEtcdLeafCertsTask_IsRequired c : outcome task_error bool :=
  Ok (pipeline_flag CacheKubeadmEtcdCACertRenew c "RolloutEtcdLeafCerts" ||
      pipeline_flag CacheKubeadmEtcdLeafCertRenew c "RolloutEtcdLeafCerts").

Definition RolloutEtcdLeafCertsTask_host c (last : NodeID) h : M ExecutionFragment task_error NodeID :=
  let hostName := host_GetName h in
  backupStep ← build c (call "KubeadmBackupRemotePKI" ("BackupFor" +:+ hostName));
  distributeStep ← build c (call "KubeadmDistributeStackedEtcdLeafCerts" ("DistributeLeafsFor" +:+ hostName));
  restartStep ← build c (call "KubeadmRestartEtcd" ("RestartEtcdFor" +:+ hostName));
  verifyPodStep ← build c (call "KubeadmVerifyEtcdPodHealth" ("VerifyPodFor" +:+ hostName));
  backupName ← step_name backupStep;
  distributeName ← step_name distributeStep;
  restartName ← step_name restartStep;
  verifyPodName ← step_name verifyPodStep;
  backupID ← add_node backupName backupStep [Some h];
  distributeID ← add_node distributeName distributeStep [Some h];
  restartID ← add_node restartName restartStep [Some h];
  verifyPodID ← add_node verifyPodName verifyPodStep [Some h];
  _ ← add_deps [(backupID, distributeID); (distributeID, restartID); (restartID, verifyPodID)];
  _ ← link_after last backupID;
  mret verifyPodID.

Definition RolloutEtcdLeafCertsTask_Plan c : outcome task_error (option ExecutionFragment) :=
  plan_fragment "RolloutEtcdLeafCerts" (
    require_hosts "RolloutEtcdLeafCerts" (hosts_by_role 461 RoleEtcd c) (λ etcdHosts,
      opHost ← control_node c;
      last ← (if pipeline_flag CacheKubeadmEtcdCACertRenew c "RolloutEtcdLeafCerts" then
                moveStep ← build c (call "KubeadmMoveNewAssets" "MoveNewEtcdAssets");
                add_node_checked "MoveNewEtcdAssets" moveStep [opHost]
              else mret "");
      last ← rolling (RolloutEtcdLeafCertsTask_host c) last etcdHosts;
      verifyClusterStep ← build c (call "KubeadmVerifyEtcdClusterHealth" "VerifyClusterHealth");
      verifyClusterName ← step_name verifyClusterStep;
      verifyClusterID ← add_node verifyClusterName verifyClusterStep [opHost];
      _ ← link_after last verifyClusterID;
      compute_ends)).

Definition CleanupWorkspaceTask_IsRequired c : outcome task_error bool := Ok true.

Definition CleanupWorkspaceTask_Plan c : outcome task_error (option ExecutionFragment) :=
  plan_fragment "CleanupLocalWorkspace" (
    controlNode ← control_node c;
    cleanupStep ← build c (call "KubeadmLocalCleanup" "CleanupLocalWorkspace");
    _ ← add_node_as "CleanupLocalWorkspace" "CleanupLocalWorkspace" cleanupStep [controlNode];
    compute_ends).

Definition KubeadmCleanupTask_IsRequired c : outcome task_error bool := Ok (renewal_triggered c "CleanupRenewalAssets").

Definition KubeadmCleanupTask_Plan c : outcome task_error (option ExecutionFragment) :=
  plan_fragment "CleanupRenewalAssets" (
    require_hosts "CleanupRenewalAssets" (hosts_by_role 475 "" c) (λ allHosts,
      controlNode ← control_node c;
      localCleanupStep ← build c (call "KubeadmLocalCleanup" "CleanupLocalWorkspace");
      remoteCleanupStep ← build c (call "KubeadmRemoteCleanup" "CleanupRemoteBackups");
      _ ← add_node "CleanupLocalWorkspace" localCleanupStep [controlNode];
      _ ← add_node "CleanupRemoteBackups" remoteCleanupStep allHosts;
      compute_ends)).

End tasks.
