(* ===== verification/Module.v ===== *)
(** The modules: [src/internal/module/].

    A module plans one fragment out of the fragments of its tasks.  The tasks are
    handles, named by the call that constructs them; what their methods return,
    or that they panic, is left open ([Tasks]). *)
From S2P Require Import Prelude.
From S2P Require Import Values.
From S2P Require Import Plan.
From S2P Require Import Result.
From S2P Require Import Cluster.
From S2P Require Import Context.
From S2P Require Import Task.

(** ** Data *)

(** The tasks the modules construct. *)
Inductive task_kind : Type :=
| GreetingTask
| ConfirmTask (name prompt : string) (assumeYes : bool)
| ExtractBundleTask (path : string)
| InstallPrerequisitesTask
| PrepareAssetsTask
| InstallToolBinariesTask
| PreflightChecksTask
| VerifyArtifactsTask
| PackageAssetsTask (outputPath : string)
| CheckConnectivityTask
| DownloadAssetsTask
| ConfigureHostTask
| DisableServicesTask
| ConfigureKernelTask
| CleanOSNodesTask
| GenerateEtcdPKITask
| DeployEtcdClusterTask
| CleanEtcdTask
| DeployContainerdTask
| DeployDockerTask
| DeployCrioTask
| CleanContainerdTask
| CleanDockerTask
| CleanCrioTask
| InstallNetworkPluginTask
| CleanNetworkPluginTask
| InstallKubeComponentsTask
| BootstrapFirstMasterTask
| KubeadmJoinMastersTask
| JoinWorkersTask
| CleanKubernetesTask
| CleanKubeComponentsTask
| DrainNodeTask
| ResetNodeTask
| UpgradeControlPlaneTask (targetVersion : string)
| UpgradeWorkersTask (targetVersion : string)
| GenerateKubePKITask
| GenerateControlPlaneKubeconfigsTask
| GenerateNodePKITask
| ConfigureControlPlaneTask
| StartControlPlaneTask
| GenerateAdminKubeconfigTask
| KubexmJoinMastersTask
| DeployWorkerNodesTask
| BackupPKITask
| BackupEtcdTask
| BackupK8sConfigsTask
| RestorePKITask
| RestoreEtcdTask (snapshotPath : string)
| RestoreK8sConfigsTask
| CheckClusterHealthTask
| CheckAPIServerHealthTask
| CheckSchedulerHealthTask
| CheckControllerManagerHealthTask
| CheckKubeletHealthTask
| ReconfigureAPIServerTask
| ReconfigureSchedulerTask
| ReconfigureControllerManagerTask
| ReconfigureKubeletTask
| ReconfigureProxyTask
| InstallRegistryTask
| GenerateRegistryConfigTask
| DistributeRegistryConfigTask
| SetupRegistryServiceTask
| StartRegistryServiceTask
| StopRegistryServiceTask
| DisableRegistryServiceTask
| RemoveRegistryArtifactsTask
| RemoveRegistryDataTask
| GenerateClusterCertsTask
| GenerateKubeconfigsTask
| RolloutLeafCertsToMastersTask
| RolloutK8sCABundleTask
| FinalizeMastersTask
| UpdateWorkerNodesTask
| PKICleanupTask
| GenerateNewCertificatesTask
| DeployNewLeafCertsRollingTask
| DeployTrustBundleRollingTask
| DeployFinalCARollingTask
| FinalizeWorkspaceTask
| InstallAddonTask (addon : Addon)
| CleanAddonTask (addon : Addon)
| InstallKeepalivedTask
| DeployHAProxyAsDaemonTask
| DeployNginxAsDaemonTask
| DeployKubeVipTask
| DeployHAProxyOnWorkersTask
| DeployHAProxyAsStaticPodTask
| DeployNginxOnWorkersTask
| DeployNginxAsStaticPodTask
| UninstallHAProxyAsDaemonTask
| UninstallKeepalivedTask
| CleanNginxAsDaemonTask
| CleanKubeVipTask
| CleanHAProxyOnWorkersTask
| CleanHAProxyStaticPodTask
| CleanNginxOnWorkersTask
| CleanNginxStaticPodTask
| DeployLonghornTask
| DeployNfsTask
| DeployOpenebsTask
| CleanLonghornTask
| CleanNfsTask
| CleanOpenebsTask.

(** The modules the pipelines construct, by the call that constructs them. *)
Inductive module_kind : Type :=
| PreflightConnectivityModule
| PreflightModule (assumeYes : bool)
| InfrastructureModule
| LoadBalancerModule
| ControlPlaneModule
| NetworkModule
| WorkerModule
| AddonsModule
| AddonCleanupModule
| WorkerCleanupModule
| ControlPlaneCleanupModule
| NetworkCleanupModule
| LoadBalancerCleanupModule
| EtcdCleanupModule
| RuntimeCleanupModule
| StorageCleanupModule
| OsCleanupModule
| ControlPlaneUpgradeModule (targetVersion : string)
| WorkerUpgradeModule (targetVersion : string)
| NetworkUpgradeModule
| OsModule
| EtcdModule
| RuntimeModule
| RegistryModule (action : string)
| PKIModule (scope : string)
| BackupModule (backupType : string)
| RestoreModule (restoreType snapshotPath : string)
| HealthModule (component : string)
| ReconfigureModule (component : string)
| AssetsDownloadModule (workDir : string).

(** The dynamic type behind the context interfaces: [runtime.Context], which
    implements all of them, or some other type, by the assertions that succeed on
    it and its [GetClusterConfig]. *)
Inductive PipelineContext : Type :=
| RuntimeContext (c : Context)
| ForeignContext (is_ModuleContext is_TaskContext : bool) (cfg : option Cluster).

Definition pc_is_ModuleContext (ctx : PipelineContext) : bool :=
  match ctx with RuntimeContext _ => true | ForeignContext b _ _ => b end.

Definition pc_is_TaskContext (ctx : PipelineContext) : bool :=
  match ctx with RuntimeContext _ => true | ForeignContext _ b _ => b end.

Definition pc_GetClusterConfig (ctx : PipelineContext) : option Cluster :=
  match ctx with RuntimeContext c => GetClusterConfig c | ForeignContext _ _ cfg => cfg end.

Definition pc_Context (ctx : PipelineContext) : option Context :=
  match ctx with RuntimeContext c => Some c | ForeignContext _ _ _ => None end.

(** The interface [task.Task]. *)
Class Tasks := {
  task_Name : task_kind → string;
  task_IsRequired : task_kind → PipelineContext → outcome task_error bool;
  task_Plan : task_kind → PipelineContext → outcome task_error (option ExecutionFragment);
}.

(** The errors of the modules, by the call that failed; the wording of the
    messages is left out. *)
Inductive module_error : Type :=
| NotTaskContext
| RequiredCheckFailed (t : task_kind) (err : task_error)
| TaskPlanFailed (t : task_kind) (err : task_error)
| TaskMergeFailed (t : task_kind) (err : plan_error)
| MergeFailed (err : plan_error)
| TaskLinkFailed (t : task_kind) (err : plan_error)
| FragmentLinkFailed (err : plan_error)
| DuplicateTaskNode (id : NodeID) (t : task_kind)
| EntryNodeMissing (id : NodeID) (t : task_kind)
| PlanningTasksFailed (err : module_error)
| ContainerRuntimeNil
| UnsupportedRuntime (runtimeType : string).

(** What a [Plan] method returns: a fragment or an error. *)
Abbreviation planned_fragment := (outcome module_error (option ExecutionFragment)).

Definition ef_set_EntryNodes (ids : list NodeID) (ef : ExecutionFragment) : ExecutionFragment :=
  MkFragment (ef_Nodes ef) ids (ef_ExitNodes ef) (ef_Name ef).

Definition ef_set_ExitNodes (ids : list NodeID) (ef : ExecutionFragment) : ExecutionFragment :=
  MkFragment (ef_Nodes ef) (ef_EntryNodes ef) ids (ef_Name ef).

(** The last lines of most [Plan] methods. *)
Definition unique_ends (ef : ExecutionFragment) : ExecutionFragment :=
  MkFragment (ef_Nodes ef) (UniqueNodeIDs (ef_EntryNodes ef)) (UniqueNodeIDs (ef_ExitNodes ef)) (ef_Name ef).

Definition empty_fragment (name : string) : planned_fragment := Ok (Some (NewEmptyFragment name)).

Definition nonempty_or (name : string) (ef : ExecutionFragment) : planned_fragment :=
  if decide (mlen (ef_Nodes ef) = 0) then empty_fragment name else Ok (Some ef).

Section modules.
Context `{GoRange, Tasks}.
Implicit Types (ctx : PipelineContext) (t : task_kind) (ts : list task_kind).

(** ** Shared loops *)

(** The fragment under construction and [previousTaskExitNodes]. *)
Abbreviation chain_state := (ExecutionFragment * list NodeID)%type.

Definition with_task_context {A} ctx (body : outcome module_error A) : outcome module_error A :=
  if pc_is_TaskContext ctx then body else Err NotTaskContext.

Definition task_required ctx t : outcome module_error bool :=
  map_err (RequiredCheckFailed t) (task_IsRequired t ctx).

Definition plan_task ctx t : planned_fragment := map_err (TaskPlanFailed t) (task_Plan t ctx).

(** [CalculateEntryAndExitNodes] returns nothing: it sets the fields or panics. *)
Definition calculated (ef : ExecutionFragment) : planned_fragment :=
  match ExecutionFragment_CalculateEntryAndExitNodes ef with
  | (Ok _, ef) => Ok (Some ef)
  | _ => Panic
  end.

(** Merge and link the fragment of a task, unless it is nil or empty. *)
Definition chain_fragment (merge_err link_err : plan_error → module_error)
    (taskFrag : option ExecutionFragment) : M chain_state module_error unit := λ '(frag, prev),
  match taskFrag, ExecutionFragment_IsEmpty taskFrag with
  | Some ef, false =>
      match (on_fst merge_err (ExecutionFragment_MergeFragment (Some ef)) ≫= λ _,
             on_fst link_err
               (if decide (0 < length prev) then LinkFragments prev (ef_EntryNodes ef) else mret tt)) (frag, prev) with
      | (Ok _, (frag, _)) => (Ok tt, (frag, ef_ExitNodes ef))
      | (r, st) => (r, st)
      end
  | _, _ => (Ok tt, (frag, prev))
  end.

(** One turn of a loop over tasks that are always planned. *)
Definition chain_planned ctx (merge_err link_err : task_kind → plan_error → module_error) t
    : M chain_state module_error unit :=
  lift (plan_task ctx t) ≫= chain_fragment (merge_err t) (link_err t).

(** One turn of a loop that skips the tasks that are not required. *)
Definition chain_task ctx t : M chain_state module_error unit :=
  lift (task_required ctx t) ≫= λ isRequired : bool,
  if isRequired then chain_planned ctx TaskMergeFailed TaskLinkFailed t else mret tt.

Definition start (name : string) : chain_state := (NewExecutionFragment (name +:+ "-Fragment"), []).

(** The loop of [PreflightModule] and [AssetsDownloadModule] ([i > 0] holds
    whenever there are previous exit nodes). *)
Definition chain_Plan (name : string) ts ctx : planned_fragment :=
  with_task_context ctx (run_body (foreach ts (chain_task ctx)) (start name) (λ _ '(frag, _), calculated frag)).

(** The loop of the backup, restore, health, reconfigure and registry modules. *)
Definition chain_or_empty_Plan (name : string) ts ctx : planned_fragment :=
  with_task_context ctx (run_body (foreach ts (chain_task ctx)) (start name) (λ _ '(frag, prev),
    if decide (length prev = 0) then empty_fragment name else calculated frag)).

(** *** [BaseModule] *)

Definition BaseModule_Plan (name : string) ctx : planned_fragment := calculated (NewExecutionFragment name).

(** One turn of the loop of [PlanTasks]: merge, without a link. *)
Definition plan_and_merge ctx t : M ExecutionFragment module_error unit :=
  lift (task_required ctx t) ≫= λ required : bool,
  if required then
    lift (plan_task ctx t) ≫= λ taskFragment,
    wrap (TaskMergeFailed t) (ExecutionFragment_MergeFragment taskFragment)
  else mret tt.

Definition BaseModule_PlanTasks (name : string) ts ctx : planned_fragment :=
  with_task_context ctx (run_body (foreach ts (plan_and_merge ctx)) (NewExecutionFragment (name +:+ "-Fragment"))
    (λ _ frag, calculated frag)).

Definition BaseModule_PlanSingleTask ctx t : planned_fragment :=
  plan_task ctx t ≫= λ fragment, deref_or_panic fragment ≫= calculated.

(** *** Loops that merge and link in place *)

(** What the loop adds to the dependencies of an entry node. *)
Definition append_unique (prev deps : list NodeID) : list NodeID := UniqueNodeIDs (deps ++ prev).

(** The variant with a map [existingDeps] of the dependencies before the loop. *)
Definition append_missing (prev deps : list NodeID) : list NodeID := deps ++ filter (λ d, d ∉ deps) prev.

Definition link_entry (t : task_kind) (append : list NodeID → list NodeID) (id : NodeID)
    : M ExecutionFragment module_error unit := λ frag,
  match entries (ef_Nodes frag) !! id with
  | None => (Err (EntryNodeMissing id t), frag)
  | Some None => (Panic, frag)
  | Some (Some node) =>
      (Ok tt, ef_set_Nodes (<[id := Some (set_Dependencies (append (node_Dependencies node)) node)]>
                              (entries (ef_Nodes frag))) frag)
  end.

(** The merge written out names the duplicate and the task. *)
Definition merge_in_place t (ef : ExecutionFragment) : M ExecutionFragment module_error unit :=
  wrap (λ err, match err with MergeDuplicate id => DuplicateTaskNode id t | err => MergeFailed err end)
    (ExecutionFragment_MergeFragment (Some ef)).

Definition link_in_place t (append : list NodeID → list NodeID → list NodeID) (prev : list NodeID)
    (ef : ExecutionFragment) : M ExecutionFragment module_error unit :=
  foreach (ef_EntryNodes ef) (link_entry t (append prev)).

(** The fragment, [previousTaskExitNodes] and the flag of the loop. *)
Abbreviation inline_state := (ExecutionFragment * (list NodeID * bool))%type.

(** The first task with exit nodes gives the module its entries. *)
Definition inline_fragment (merge : ExecutionFragment → M ExecutionFragment module_error unit)
    (link : list NodeID → ExecutionFragment → M ExecutionFragment module_error unit)
    (taskFrag : option ExecutionFragment) : M inline_state module_error unit := λ '(frag, (prev, first)),
  match taskFrag, ExecutionFragment_IsEmpty taskFrag with
  | Some ef, false =>
      match (merge ef ≫= λ _,
             if negb first && bool_decide (0 < length prev) then link prev ef
             else if first then λ frag, (Ok tt, ef_set_EntryNodes (ef_EntryNodes frag ++ ef_EntryNodes ef) frag)
             else mret tt) frag with
      | (Ok _, frag) =>
          (Ok tt, (frag, if decide (0 < length (ef_ExitNodes ef)) then (ef_ExitNodes ef, false) else (prev, first)))
      | (r, frag) => (r, (frag, (prev, first)))
      end
  | _, _ => (Ok tt, (frag, (prev, first)))
  end.

Definition inline_task ctx (merge : task_kind → ExecutionFragment → M ExecutionFragment module_error unit)
    (link : task_kind → list NodeID → ExecutionFragment → M ExecutionFragment module_error unit) t
    : M inline_state module_error unit :=
  lift (with_task_context ctx (task_required ctx t)) ≫= λ taskIsRequired : bool,
  if taskIsRequired then lift (plan_task ctx t) ≫= inline_fragment (merge t) (link t) else mret tt.

Definition inline_Plan (name : string) merge link ts ctx : planned_fragment :=
  run_body (foreach ts (inline_task ctx merge link)) (NewExecutionFragment (name +:+ "-Fragment"), ([], true))
    (λ _ '(frag, (prev, _)), Ok (Some (unique_ends (ef_set_ExitNodes (ef_ExitNodes frag ++ prev) frag)))).

(** ** The modules *)

(** *** Placeholders *)

Definition ISCSIModule_Plan ctx : planned_fragment := empty_fragment "ISCSIClientManagement".
Definition ClusterBootstrapModule_Plan ctx : planned_fragment := empty_fragment "KubernetesClusterBootstrap".
Definition ClusterReadyModule_Plan ctx : planned_fragment := empty_fragment "ClusterFinalConfiguration".
Definition CoreComponentsModule_Plan ctx : planned_fragment := empty_fragment "CoreComponentsInstallation".

(** *** Chains *)

Definition PreflightModule_GetTasks (assumeYes : bool) : list task_kind :=
  [GreetingTask; ConfirmTask "InitialConfirmation" "Proceed with KubeXM operations?" assumeYes;
   ExtractBundleTask ""; InstallPrerequisitesTask; PrepareAssetsTask; InstallToolBinariesTask;
   PreflightChecksTask; VerifyArtifactsTask].

Definition PreflightModule_Plan (assumeYes : bool) ctx : planned_fragment :=
  chain_Plan "PreflightChecksAndSetup" (PreflightModule_GetTasks assumeYes) ctx.

Definition AssetsDownloadModule_GetTasks (outputPath : string) : list task_kind :=
  [PrepareAssetsTask; VerifyArtifactsTask; PackageAssetsTask outputPath].

Definition AssetsDownloadModule_Plan (outputPath : string) ctx : planned_fragment :=
  chain_Plan "AssetsDownload" (AssetsDownloadModule_GetTasks outputPath) ctx.

Definition BackupModule_tasks (backupType : string) : list task_kind :=
  if decide (backupType = "pki") then [BackupPKITask]
  else if decide (backupType = "etcd") then [BackupEtcdTask]
  else if decide (backupType = "kubernetes") then [BackupK8sConfigsTask]
  else [BackupPKITask; BackupEtcdTask; BackupK8sConfigsTask].

Definition BackupModule_Plan (backupType : string) ctx : planned_fragment :=
  chain_or_empty_Plan "Backup" (BackupModule_tasks backupType) ctx.

Definition RestoreModule_tasks (restoreType snapshotPath : string) : list task_kind :=
  if decide (restoreType = "pki") then [RestorePKITask]
  else if decide (restoreType = "etcd") then [RestoreEtcdTask snapshotPath]
  else if decide (restoreType = "kubernetes") then [RestoreK8sConfigsTask]
  else [RestorePKITask; RestoreEtcdTask snapshotPath; RestoreK8sConfigsTask].

Definition RestoreModule_Plan (restoreType snapshotPath : string) ctx : planned_fragment :=
  chain_or_empty_Plan "Restore" (RestoreModule_tasks restoreType snapshotPath) ctx.

Definition HealthModule_tasks (component : string) : list task_kind :=
  if decide (component = "all") then
    [CheckClusterHealthTask; CheckAPIServerHealthTask; CheckSchedulerHealthTask;
     CheckControllerManagerHealthTask; CheckKubeletHealthTask]
  else if decide (component = "apiserver") then [CheckAPIServerHealthTask]
  else if decide (component = "scheduler") then [CheckSchedulerHealthTask]
  else if decide (component = "controller-manager") then [CheckControllerManagerHealthTask]
  else if decide (component = "kubelet") then [CheckKubeletHealthTask]
  else [CheckClusterHealthTask].

Definition HealthModule_Plan (component : string) ctx : planned_fragment :=
  chain_or_empty_Plan "HealthCheck" (HealthModule_tasks component) ctx.

Definition ReconfigureModule_tasks (component : string) : list task_kind :=
  if decide (component = "apiserver") then [ReconfigureAPIServerTask]
  else if decide (component = "scheduler") then [ReconfigureSchedulerTask]
  else if decide (component = "controller-manager") then [ReconfigureControllerManagerTask]
  else if decide (component = "kubelet") then [ReconfigureKubeletTask]
  else if decide (component = "proxy") then [ReconfigureProxyTask]
  else if decide (component = "network") then []
  else [ReconfigureAPIServerTask; ReconfigureSchedulerTask; ReconfigureControllerManagerTask;
        ReconfigureKubeletTask; ReconfigureProxyTask].

Definition ReconfigureModule_Plan (component : string) ctx : planned_fragment :=
  chain_or_empty_Plan "Reconfigure" (ReconfigureModule_tasks component) ctx.

Definition RegistryModule_tasks (operation : string) : list task_kind :=
  if decide (operation = "uninstall") then
    [StopRegistryServiceTask; DisableRegistryServiceTask; RemoveRegistryArtifactsTask; RemoveRegistryDataTask]
  else [InstallRegistryTask; GenerateRegistryConfigTask; DistributeRegistryConfigTask;
        SetupRegistryServiceTask; StartRegistryServiceTask].

Definition RegistryModule_Plan (operation : string) ctx : planned_fragment :=
  chain_or_empty_Plan "Registry" (RegistryModule_tasks operation) ctx.

(** *** Modules on [PlanTasks] *)

(** [m.PlanTasks(ctx)], its error reported as the module's; the node counts that
    are only logged still dereference the fragment. *)
Definition plan_tasks_Plan (name : string) ts ctx : planned_fragment :=
  map_err PlanningTasksFailed (BaseModule_PlanTasks name ts ctx).

Definition OsModule_Plan ctx : planned_fragment :=
  plan_tasks_Plan "OSConfiguration" [ConfigureHostTask; DisableServicesTask; ConfigureKernelTask] ctx.

Definition OsCleanupModule_Plan ctx : planned_fragment := plan_tasks_Plan "OsCleanup" [CleanOSNodesTask] ctx.

Definition DownloadModule_Plan ctx : planned_fragment := plan_tasks_Plan "Download" [DownloadAssetsTask] ctx.

Definition PreflightConnectivityModule_Plan ctx : planned_fragment :=
  plan_tasks_Plan "PreflightConnectivity" [CheckConnectivityTask] ctx.

(** A nil cluster configuration panics, and so does a nil [Spec]. *)
Definition cluster_spec ctx : outcome module_error ClusterSpec := deref_or_panic (pc_GetClusterConfig ctx ≫= cl_Spec).

(** After [if clusterCfg == nil { ... }]. *)
Definition configured {A} ctx (nothing : A) (body : ClusterSpec → outcome module_error A) : outcome module_error A :=
  match pc_GetClusterConfig ctx with
  | None => Ok nothing
  | Some _ => cluster_spec ctx ≫= body
  end.

Definition NetworkCleanupModule_Plan ctx : planned_fragment :=
  cluster_spec ctx ≫= λ spec,
  match spec_Network spec with
  | None => empty_fragment "NetworkCleanup"
  | Some network =>
      if decide (net_Plugin network = "") then empty_fragment "NetworkCleanup"
      else plan_tasks_Plan "NetworkCleanup" [CleanNetworkPluginTask] ctx
  end.

Definition kubernetes_pki_tasks : list task_kind :=
  [GenerateClusterCertsTask; GenerateKubeconfigsTask; RolloutLeafCertsToMastersTask; RolloutK8sCABundleTask;
   FinalizeMastersTask; UpdateWorkerNodesTask; PKICleanupTask].

Definition etcd_pki_tasks : list task_kind :=
  [GenerateNewCertificatesTask; DeployNewLeafCertsRollingTask; DeployTrustBundleRollingTask;
   DeployFinalCARollingTask; FinalizeWorkspaceTask].

Definition PKIModule_tasks (certType : string) : list task_kind :=
  if decide (certType ∈ ["kubernetes-ca"; "kubernetes-certs"]) then kubernetes_pki_tasks
  else if decide (certType ∈ ["etcd-ca"; "etcd-certs"]) then etcd_pki_tasks
  else if decide (certType = "all") then kubernetes_pki_tasks ++ etcd_pki_tasks
  else [].

(** Whether the configuration says that kubeadm manages etcd. *)
Definition etcd_by_kubeadm ctx : outcome module_error bool :=
  configured ctx false (λ spec, Ok
    match spec_Etcd spec with
    | Some etcd => bool_decide (etcd_Type etcd = EtcdDeploymentTypeKubeadm)
    | None => false
    end).

Definition PKIModule_Plan (certType : string) ctx : planned_fragment :=
  let isEtcdTask := bool_decide (certType ∈ ["etcd-ca"; "etcd-certs"; "all"]) in
  (if isEtcdTask then etcd_by_kubeadm ctx else Ok false) ≫= λ by_kubeadm : bool,
  if by_kubeadm && bool_decide (certType ≠ "all")
  then empty_fragment "PKIRenewal"
  else if decide (length (PKIModule_tasks certType) = 0) then empty_fragment "PKIRenewal"
  else
    plan_tasks_Plan "PKIRenewal" (PKIModule_tasks certType) ctx ≫= λ moduleFragment,
    if ExecutionFragment_IsEmpty moduleFragment then empty_fragment "PKIRenewal" else Ok moduleFragment.

(** *** Modules that merge and link in place *)

Definition CalicoModule_Plan ctx : planned_fragment :=
  cluster_spec ctx ≫= λ spec,
  if decide (net_Plugin <$> spec_Network spec = Some CNITypeCalico) then
    inline_Plan "CNICalicoSetup"
      (λ _ ef, wrap MergeFailed (ExecutionFragment_MergeFragment (Some ef)))
      (λ _ prev ef, wrap FragmentLinkFailed (LinkFragments prev (ef_EntryNodes ef))) [] ctx
  else empty_fragment "CNICalicoSetup".

Definition KubeletModule_Plan ctx : planned_fragment :=
  inline_Plan "KubernetesKubeletSetup" merge_in_place (λ t, link_in_place t append_unique) [] ctx.

Definition ControlPlaneCleanupModule_Plan ctx : planned_fragment :=
  inline_Plan "KubernetesControlPlaneCleanup" merge_in_place (λ t, link_in_place t append_unique)
    [CleanKubernetesTask; CleanKubeComponentsTask] ctx.

Definition EtcdCleanupModule_Plan ctx : planned_fragment :=
  cluster_spec ctx ≫= λ spec,
  match spec_Etcd spec with
  | None => empty_fragment "EtcdClusterCleanup"
  | Some etcd =>
      if etcd_External etcd then empty_fragment "EtcdClusterCleanup"
      else inline_Plan "EtcdClusterCleanup" merge_in_place (λ t, link_in_place t append_unique) [CleanEtcdTask] ctx
  end.

(** [Spec.Kubernetes.ContainerRuntime.Type], if neither pointer is nil. *)
Definition runtime_type (spec : ClusterSpec) : option string :=
  spec_Kubernetes spec ≫= λ k, cr_Type <$> k8s_ContainerRuntime k.

Definition for_runtime (type name : string) ctx (body : planned_fragment) : planned_fragment :=
  cluster_spec ctx ≫= λ spec,
  if decide (runtime_type spec = Some type) then body else empty_fragment name.

Definition DockerModule_Plan ctx : planned_fragment :=
  for_runtime "docker" "DockerCriDockerdRuntime" ctx
    (inline_Plan "DockerCriDockerdRuntime" merge_in_place (λ t, link_in_place t append_missing) [DeployDockerTask] ctx).

Definition ContainerdModule_Plan ctx : planned_fragment :=
  for_runtime "containerd" "ContainerdRuntime" ctx
    (inline_Plan "ContainerdRuntime" merge_in_place (λ t, link_in_place t append_missing) [DeployContainerdTask] ctx).

Definition ContainerdCleanupModule_Plan ctx : planned_fragment :=
  for_runtime "containerd" "ContainerdCleanup" ctx
    (inline_Plan "ContainerdCleanup" merge_in_place (λ t, link_in_place t append_unique) [CleanContainerdTask] ctx).

(** [NodeResetModule] has no task: its loop links in place from the second
    effective task on. *)
Definition reset_fragment t (taskFrag : option ExecutionFragment) : M inline_state module_error unit :=
  λ '(frag, (prev, firstTaskProcessed)),
  match taskFrag, ExecutionFragment_IsEmpty taskFrag with
  | Some ef, false =>
      match (wrap (TaskMergeFailed t) (ExecutionFragment_MergeFragment (Some ef)) ≫= λ _,
             if firstTaskProcessed && bool_decide (0 < length prev) then link_in_place t append_unique prev ef
             else mret tt) frag with
      | (Ok _, frag) => (Ok tt, (frag, (ef_ExitNodes ef, true)))
      | (r, frag) => (r, (frag, (prev, firstTaskProcessed)))
      end
  | _, _ => (Ok tt, (frag, (prev, firstTaskProcessed)))
  end.

Definition reset_task ctx t : M inline_state module_error unit :=
  lift (task_required ctx t) ≫= λ taskIsRequired : bool,
  if taskIsRequired then lift (plan_task ctx t) ≫= reset_fragment t else mret tt.

Definition NodeResetModule_Plan ctx : planned_fragment :=
  with_task_context ctx (run_body (foreach [] (reset_task ctx))
    (NewExecutionFragment ("KubernetesNodeReset" +:+ "-Fragment"), ([], false)) (λ _ '(frag, _), calculated frag)).

(** *** Sequences of named tasks *)

(** Plan a task and merge its fragment, whatever it is; reading a field of a nil
    fragment afterwards panics. *)
Definition merge_fragment (merge_err : plan_error → module_error) (taskFrag : option ExecutionFragment)
    : M chain_state module_error ExecutionFragment :=
  on_fst merge_err (ExecutionFragment_MergeFragment taskFrag) ≫= λ _, deref taskFrag.

Definition merge_planned (merge_err : plan_error → module_error) (planned : planned_fragment)
    : M chain_state module_error ExecutionFragment := lift planned ≫= merge_fragment merge_err.

Definition plan_merge ctx t : M chain_state module_error ExecutionFragment :=
  merge_planned MergeFailed (plan_task ctx t).

Definition when_required ctx t (body : M chain_state module_error unit) : M chain_state module_error unit :=
  lift (task_required ctx t) ≫= λ required : bool, if required then body else mret tt.

Definition set_prev (ids : list NodeID) : M chain_state module_error unit := λ '(frag, _), (Ok tt, (frag, ids)).

Definition append_entries (ids : list NodeID) : M chain_state module_error unit := λ '(frag, prev),
  (Ok tt, (ef_set_EntryNodes (ef_EntryNodes frag ++ ids) frag, prev)).

Definition link_prev (ids : list NodeID) : M chain_state module_error unit :=
  get ≫= λ '(_, prev), on_fst FragmentLinkFailed (LinkFragments prev ids).

(** [if len(previousTaskExitNodes) > 0 { LinkFragments(...) }] *)
Definition link_if_prev (ids : list NodeID) : M chain_state module_error unit :=
  get ≫= λ '(_, prev), if decide (0 < length prev) then link_prev ids else mret tt.

(** A first step: its entries become entries of the module. *)
Definition entry_step ctx t : M chain_state module_error unit :=
  plan_merge ctx t ≫= λ ef, append_entries (ef_EntryNodes ef) ≫= λ _, set_prev (ef_ExitNodes ef).

(** A later step: its entries are linked to the exits so far. *)
Definition linked_step ctx t : M chain_state module_error unit :=
  plan_merge ctx t ≫= λ ef, link_if_prev (ef_EntryNodes ef) ≫= λ _, set_prev (ef_ExitNodes ef).

Definition finish_sequence (name : string) : unit → chain_state → planned_fragment := λ _ '(frag, prev),
  nonempty_or name (unique_ends (ef_set_ExitNodes prev frag)).

(** The third step appends its entries to the module's and is not linked; the task
    [GenerateNodePKITask] of the constructor is not planned. *)
Definition KubexmControlPlaneModule_Plan ctx : planned_fragment :=
  with_task_context ctx (run_body
    (when_required ctx GenerateKubePKITask (entry_step ctx GenerateKubePKITask) ≫= λ _,
     when_required ctx GenerateControlPlaneKubeconfigsTask (linked_step ctx GenerateControlPlaneKubeconfigsTask) ≫= λ _,
     when_required ctx ConfigureControlPlaneTask (entry_step ctx ConfigureControlPlaneTask) ≫= λ _,
     when_required ctx StartControlPlaneTask (linked_step ctx StartControlPlaneTask) ≫= λ _,
     when_required ctx GenerateAdminKubeconfigTask (linked_step ctx GenerateAdminKubeconfigTask) ≫= λ _,
     when_required ctx KubexmJoinMastersTask (linked_step ctx KubexmJoinMastersTask))
    (start "KubexmControlPlane") (finish_sequence "KubexmControlPlane")).

(** The fragment takes over the entries and exits of its one task. *)
Definition take_ends (ef : ExecutionFragment) : M chain_state module_error unit := λ '(frag, prev),
  (Ok tt, (ef_set_ExitNodes (ef_ExitNodes ef) (ef_set_EntryNodes (ef_EntryNodes ef) frag), prev)).

Definition KubexmWorkerModule_Plan ctx : planned_fragment :=
  with_task_context ctx (run_body
    (when_required ctx DeployWorkerNodesTask (plan_merge ctx DeployWorkerNodesTask ≫= take_ends))
    (start "KubexmWorker") (λ _ '(frag, _), nonempty_or "KubexmWorker" (unique_ends frag))).

(** The binaries are always planned; the two steps after them link without the
    length test, which [LinkFragments] makes itself. *)
Definition kubeadm_step ctx t : M chain_state module_error unit :=
  plan_merge ctx t ≫= λ ef, link_prev (ef_EntryNodes ef) ≫= λ _, set_prev (ef_ExitNodes ef).

Definition KubeadmControlPlaneModule_Plan ctx : planned_fragment :=
  with_task_context ctx (run_body
    (plan_merge ctx InstallKubeComponentsTask ≫= λ ef,
     append_entries (ef_EntryNodes ef) ≫= λ _,
     set_prev (UniqueNodeIDs (ef_ExitNodes ef)) ≫= λ _,
     when_required ctx BootstrapFirstMasterTask (kubeadm_step ctx BootstrapFirstMasterTask) ≫= λ _,
     when_required ctx KubeadmJoinMastersTask (kubeadm_step ctx KubeadmJoinMastersTask))
    (start "KubeadmControlPlane") (finish_sequence "KubeadmControlPlane")).

Definition KubeadmWorkerModule_Plan ctx : planned_fragment :=
  with_task_context ctx (run_body
    (when_required ctx InstallKubeComponentsTask (entry_step ctx InstallKubeComponentsTask) ≫= λ _,
     get ≫= λ '(_, lastBinariesExits),
     set_prev (UniqueNodeIDs lastBinariesExits) ≫= λ _,
     when_required ctx JoinWorkersTask
       (plan_merge ctx JoinWorkersTask ≫= λ ef,
        (if decide (0 < length (ef_EntryNodes ef)) then link_prev (ef_EntryNodes ef) else mret tt) ≫= λ _,
        set_prev (ef_ExitNodes ef)))
    (start "KubeadmWorker") (finish_sequence "KubeadmWorker")).

(** [NewControlPlaneModuleForType] and [NewWorkerModuleForType]: every type but
    kubexm is handled as kubeadm. *)
Definition deployment_type (spec : ClusterSpec) : string :=
  let kubeType := from_option k8s_Type "" (spec_Kubernetes spec) in
  if decide (kubeType = "") then KubernetesDeploymentTypeKubeadm else kubeType.

Definition ControlPlaneModule_Plan ctx : planned_fragment :=
  with_task_context ctx (cluster_spec ctx ≫= λ spec,
    if decide (deployment_type spec = KubernetesDeploymentTypeKubexm) then KubexmControlPlaneModule_Plan ctx
    else KubeadmControlPlaneModule_Plan ctx).

Definition WorkerModule_Plan ctx : planned_fragment :=
  with_task_context ctx (cluster_spec ctx ≫= λ spec,
    if decide (deployment_type spec = KubernetesDeploymentTypeKubexm) then KubexmWorkerModule_Plan ctx
    else KubeadmWorkerModule_Plan ctx).

(** *** Etcd and infrastructure *)

(** The installation is linked in place, or gives the module its entries when
    there is nothing to link to. *)
Definition EtcdModule_install ctx : M chain_state module_error unit :=
  merge_planned (TaskMergeFailed DeployEtcdClusterTask) (plan_task ctx DeployEtcdClusterTask) ≫= λ ef,
  get ≫= λ '(_, prev),
  (if decide (0 < length prev) then on_fst id (link_in_place DeployEtcdClusterTask append_unique prev ef)
   else append_entries (ef_EntryNodes ef)) ≫= λ _,
  set_prev (ef_ExitNodes ef).

Definition EtcdModule_Plan ctx : planned_fragment :=
  cluster_spec ctx ≫= λ spec,
  if decide (spec_Etcd spec = None) then empty_fragment "ETCDClusterManagement"
  else
    with_task_context ctx (run_body
      (when_required ctx GenerateEtcdPKITask
         (merge_planned (TaskMergeFailed GenerateEtcdPKITask) (plan_task ctx GenerateEtcdPKITask) ≫= λ ef,
          append_entries (ef_EntryNodes ef) ≫= λ _, set_prev (ef_ExitNodes ef)) ≫= λ _,
       when_required ctx DeployEtcdClusterTask (EtcdModule_install ctx))
      (start "ETCDClusterManagement") (finish_sequence "ETCDClusterManagement")).

(** [planTask] of [infrastructure.go]. *)
Definition planTask ctx t : planned_fragment :=
  with_task_context ctx (
    task_required ctx t ≫= λ isRequired : bool,
    if isRequired then plan_task ctx t else empty_fragment (task_Name t)).

Definition infrastructure_os_tasks : list task_kind :=
  [ConfigureHostTask; DisableServicesTask; ConfigureKernelTask].

(** The deployment task of the configured container runtime. *)
Definition infrastructure_runtime ctx : outcome module_error task_kind :=
  cluster_spec ctx ≫= λ spec,
  match runtime_type spec with
  | None => Err ContainerRuntimeNil
  | Some type =>
      if decide (type = "containerd") then Ok DeployContainerdTask
      else if decide (type = "docker") then Ok DeployDockerTask
      else if decide (type = "cri-o") then Ok DeployCrioTask
      else Err (UnsupportedRuntime type)
  end.

(** [lastOsTaskExitNodes] is the second local; the exit nodes assigned before the
    last call are replaced by it. *)
Definition InfrastructureModule_Plan ctx : planned_fragment :=
  run_body
    (foreach infrastructure_os_tasks
       (λ t, lift (planTask ctx t) ≫= chain_fragment MergeFailed FragmentLinkFailed) ≫= λ _,
     merge_planned MergeFailed (planTask ctx GenerateEtcdPKITask) ≫= λ etcdPkiFrag,
     link_prev (ef_EntryNodes etcdPkiFrag) ≫= λ _,
     merge_planned MergeFailed (planTask ctx DeployEtcdClusterTask) ≫= λ installEtcdFrag,
     on_fst FragmentLinkFailed (LinkFragments (ef_ExitNodes etcdPkiFrag) (ef_EntryNodes installEtcdFrag)) ≫= λ _,
     lift (infrastructure_runtime ctx) ≫= λ containerRuntimeTask,
     merge_planned MergeFailed (planTask ctx containerRuntimeTask) ≫= λ runtimeFrag,
     link_prev (ef_EntryNodes runtimeFrag))
    (start "CoreInfrastructureSetup") (λ _ '(frag, _), calculated frag).

(** *** One task *)

(** Merge the fragment of one task and take over its entries and exits. *)
Definition single_fragment (name : string) (taskFrag : option ExecutionFragment) : planned_fragment :=
  run_body (merge_fragment MergeFailed taskFrag ≫= take_ends) (start name) (λ _ '(frag, _), Ok (Some frag)).

Definition RuntimeModule_Plan ctx : planned_fragment :=
  with_task_context ctx (infrastructure_runtime ctx ≫= λ t, plan_task ctx t ≫= single_fragment "ContainerRuntime").

Definition RuntimeCleanupModule_Plan ctx : planned_fragment :=
  with_task_context ctx (cluster_spec ctx ≫= λ spec,
    match runtime_type spec with
    | None => empty_fragment "ContainerRuntimeCleanup"
    | Some type =>
        let clean t := plan_task ctx t ≫= single_fragment "ContainerRuntimeCleanup" in
        if decide (type = "containerd") then clean CleanContainerdTask
        else if decide (type = "docker") then clean CleanDockerTask
        else if decide (type = "cri-o") then clean CleanCrioTask
        else empty_fragment "ContainerRuntimeCleanup"
    end).

Definition NetworkModule_Plan ctx : planned_fragment :=
  with_task_context ctx (
    task_required ctx InstallNetworkPluginTask ≫= λ isRequired : bool,
    if isRequired then
      (plan_task ctx InstallNetworkPluginTask ≫= single_fragment "KubernetesNetworkSetup") ≫= λ moduleFragment,
      if ExecutionFragment_IsEmpty moduleFragment then empty_fragment "KubernetesNetworkSetup" else Ok moduleFragment
    else empty_fragment "KubernetesNetworkSetup").

Definition NetworkUpgradeModule_Plan ctx : planned_fragment :=
  with_task_context ctx (
    plan_task ctx InstallNetworkPluginTask ≫= λ taskFrag,
    if ExecutionFragment_IsEmpty taskFrag then empty_fragment "NetworkUpgrade"
    else run_body (wrap (TaskMergeFailed InstallNetworkPluginTask) (ExecutionFragment_MergeFragment taskFrag))
           (NewExecutionFragment ("NetworkUpgrade" +:+ "-Fragment")) (λ _, calculated)).

(** The drained fragment first, then the reset one; both tasks are always planned. *)
Definition WorkerCleanupModule_Plan ctx : planned_fragment :=
  with_task_context ctx (
    map_err PlanningTasksFailed (BaseModule_PlanSingleTask ctx DrainNodeTask) ≫= λ drainFrag,
    map_err PlanningTasksFailed (BaseModule_PlanSingleTask ctx ResetNodeTask) ≫= λ resetFrag,
    run_body
      (merge_fragment (TaskMergeFailed DrainNodeTask) drainFrag ≫= λ drain,
       merge_fragment (TaskMergeFailed ResetNodeTask) resetFrag ≫= λ reset,
       on_fst FragmentLinkFailed (LinkFragments (ef_ExitNodes drain) (ef_EntryNodes reset)))
      (start "WorkerCleanup") (λ _ '(frag, _), calculated frag)).

(** Both dereference [Spec.Kubernetes] without a nil test. *)
Definition upgrade_type ctx : outcome module_error string :=
  cluster_spec ctx ≫= λ spec, deref_or_panic (spec_Kubernetes spec) ≫= λ k,
  Ok (if decide (k8s_Type k = "") then KubernetesDeploymentTypeKubeadm else k8s_Type k).

Definition WorkerUpgradeModule_Plan (targetVersion : string) ctx : planned_fragment :=
  with_task_context ctx (upgrade_type ctx ≫= λ kubeType,
    if decide (kubeType = KubernetesDeploymentTypeKubeadm)
    then map_err PlanningTasksFailed (BaseModule_PlanSingleTask ctx (UpgradeWorkersTask targetVersion))
    else empty_fragment "WorkerUpgrade").

Definition ControlPlaneUpgradeModule_Plan (targetVersion : string) ctx : planned_fragment :=
  with_task_context ctx (upgrade_type ctx ≫= λ kubeType,
    run_body
      (if decide (kubeType = KubernetesDeploymentTypeKubeadm)
       then plan_merge ctx (UpgradeControlPlaneTask targetVersion) ≫= λ frag, set_prev (ef_ExitNodes frag)
       else mret tt)
      (start "ControlPlaneUpgrade") (λ _ '(frag, _),
        if decide (mlen (ef_Nodes frag) = 0) then empty_fragment "ControlPlaneUpgrade" else calculated frag)).

(** *** Load balancers *)

(** [GetLoadBalancerTasks] ([task/loadbalancer/loadbalancer.go]): a nil cluster or
    endpoint panics. *)
Definition cluster_ha ctx : outcome module_error (option HighAvailability) :=
  cluster_spec ctx ≫= λ spec,
  deref_or_panic (spec_ControlPlaneEndpoint spec) ≫= λ ep, Ok (ep_HighAvailability ep).

Definition is_kubexm (spec : ClusterSpec) : bool :=
  match spec_Kubernetes spec with
  | Some k => bool_decide (k8s_Type k = KubernetesDeploymentTypeKubexm)
  | None => false
  end.

(** An enabled external load balancer: its tasks, and whether the function
    returns at once. *)
Definition external_tasks (kh kn vip : list task_kind) (lb : option LoadBalancerConfig) : list task_kind * bool :=
  match lb with
  | Some l =>
      if lb_enabled lb then
        if decide (lb_Type l = "kubexm-kh") then (kh, false)
        else if decide (lb_Type l = "kubexm-kn") then (kn, false)
        else if decide (lb_Type l = "kube-vip") then (vip, false)
        else ([], bool_decide (lb_Type l = "external"))
      else ([], false)
  | None => ([], false)
  end.

Definition internal_tasks (haproxy nginx vip : list task_kind) (lb : option LoadBalancerConfig) : list task_kind :=
  match lb with
  | Some l =>
      if lb_enabled lb then
        if decide (lb_Type l = "haproxy") then haproxy
        else if decide (lb_Type l = "nginx") then nginx
        else if decide (lb_Type l = "kube-vip") then vip
        else []
      else []
  | None => []
  end.

(** Both functions, by their tasks for each kind of load balancer; [haproxy] and
    [nginx] depend on whether the cluster is deployed by kubexm. *)
Definition load_balancer_tasks (kh kn vip : list task_kind) (haproxy nginx : bool → list task_kind) ctx
    : outcome module_error (list task_kind) :=
  cluster_ha ctx ≫= λ ha,
  cluster_spec ctx ≫= λ spec,
  match ha with
  | Some h =>
      if ha_enabled ha then
        let '(tasks, stop) := external_tasks kh kn vip (ha_External h) in
        Ok (if stop : bool then tasks
            else tasks ++ internal_tasks (haproxy (is_kubexm spec)) (nginx (is_kubexm spec)) vip (ha_Internal h))
      else Ok []
  | None => Ok []
  end.

Definition GetLoadBalancerTasks ctx : outcome module_error (list task_kind) :=
  load_balancer_tasks [InstallKeepalivedTask; DeployHAProxyAsDaemonTask]
    [InstallKeepalivedTask; DeployNginxAsDaemonTask] [DeployKubeVipTask]
    (λ kubexm : bool, [if kubexm then DeployHAProxyOnWorkersTask else DeployHAProxyAsStaticPodTask])
    (λ kubexm : bool, [if kubexm then DeployNginxOnWorkersTask else DeployNginxAsStaticPodTask]) ctx.

Definition GetLoadBalancerCleanupTasks ctx : outcome module_error (list task_kind) :=
  load_balancer_tasks [UninstallHAProxyAsDaemonTask; UninstallKeepalivedTask]
    [CleanNginxAsDaemonTask; UninstallKeepalivedTask] [CleanKubeVipTask]
    (λ kubexm : bool, [if kubexm then CleanHAProxyOnWorkersTask else CleanHAProxyStaticPodTask])
    (λ kubexm : bool, [if kubexm then CleanNginxOnWorkersTask else CleanNginxStaticPodTask]) ctx.

(** The fragment of a task that plans other tasks; its entry and exit nodes are
    never set. *)
Definition deploy_tasks (name : string) ts ctx : planned_fragment :=
  run_body (foreach ts (chain_planned ctx (λ _, MergeFailed) (λ _, FragmentLinkFailed)))
    (NewExecutionFragment name, []) (λ _ '(frag, prev),
      if decide (length prev = 0) then empty_fragment name else Ok (Some frag)).

Definition DeployLoadBalancerTask_Plan ctx : planned_fragment :=
  GetLoadBalancerTasks ctx ≫= λ ts, deploy_tasks "DeployLoadBalancer" ts ctx.

(** The module around such a task. *)
Definition deploy_module (name : string) (planned : planned_fragment) : planned_fragment :=
  map_err PlanningTasksFailed planned ≫= λ frag,
  if ExecutionFragment_IsEmpty frag then empty_fragment name else single_fragment name frag.

Definition LoadBalancerModule_Plan ctx : planned_fragment :=
  with_task_context ctx (
    configured ctx false (λ spec, Ok (ha_enabled (spec_ControlPlaneEndpoint spec ≫= ep_HighAvailability))) ≫= λ enabled : bool,
    if enabled then deploy_module "LoadBalancerSetup" (DeployLoadBalancerTask_Plan ctx)
    else empty_fragment "LoadBalancerSetup").

Definition LoadBalancerCleanupModule_Plan ctx : planned_fragment :=
  with_task_context ctx (GetLoadBalancerCleanupTasks ctx ≫= λ ts,
    run_body (foreach ts (chain_planned ctx (λ _, MergeFailed) TaskLinkFailed)) (start "LoadBalancerCleanup")
      (λ _ '(frag, _), if decide (mlen (ef_Nodes frag) = 0) then empty_fragment "LoadBalancerCleanup"
                       else calculated frag)).

(** *** Storage and addons *)

Definition any_storage (s : Storage) : bool :=
  provider_enabled (st_Longhorn s) || provider_enabled (st_NFS s) || provider_enabled (st_OpenEBS s)
  || provider_enabled (st_RookCeph s).

(** The tasks of the enabled providers; Rook has none. *)
Definition storage_tasks (longhorn nfs openebs : task_kind) (s : Storage) : list task_kind :=
  (if provider_enabled (st_Longhorn s) then [longhorn] else []) ++
  (if provider_enabled (st_NFS s) then [nfs] else []) ++
  (if provider_enabled (st_OpenEBS s) then [openebs] else []).

Definition cluster_storage ctx : outcome module_error (option Storage) :=
  configured ctx None (λ spec, Ok (spec_Storage spec)).

Definition DeployStorageTask_Plan ctx : planned_fragment :=
  cluster_storage ctx ≫= λ storageSpec,
  match storageSpec with
  | None => empty_fragment "DeployStorage"
  | Some s =>
      if any_storage s
      then deploy_tasks "DeployStorage" (storage_tasks DeployLonghornTask DeployNfsTask DeployOpenebsTask s) ctx
      else empty_fragment "DeployStorage"
  end.

Definition StorageModule_Plan ctx : planned_fragment :=
  with_task_context ctx (
    cluster_storage ctx ≫= λ storageSpec,
    match storageSpec with
    | None => empty_fragment "StorageSetup"
    | Some s =>
        if any_storage s then deploy_module "StorageSetup" (DeployStorageTask_Plan ctx)
        else empty_fragment "StorageSetup"
    end).

(** The loop of the storage and addon cleanup modules. *)
Definition cleanup_tasks (name : string) ts ctx : planned_fragment :=
  if decide (length ts = 0) then empty_fragment name
  else run_body (foreach ts (chain_planned ctx TaskMergeFailed TaskLinkFailed)) (start name) (λ _ '(frag, prev),
         if decide (length prev = 0) then empty_fragment name else calculated frag).

Definition StorageCleanupModule_Plan ctx : planned_fragment :=
  with_task_context ctx (
    cluster_storage ctx ≫= λ storageSpec,
    match storageSpec with
    | None => empty_fragment "StorageCleanup"
    | Some s => cleanup_tasks "StorageCleanup" (storage_tasks CleanLonghornTask CleanNfsTask CleanOpenebsTask s) ctx
    end).

(** [GetTasks] of the addons module sets a nil [Enabled] to true, through the
    pointer the task gets. *)
Definition default_enabled (a : Addon) : Addon :=
  MkAddon (addon_Name a) (match addon_Enabled a with None => Some true | e => e end) (addon_Sources a).

Definition AddonsModule_GetTasks ctx : outcome module_error (list task_kind) :=
  cluster_spec ctx ≫= λ spec, Ok (map (λ a, InstallAddonTask (default_enabled a)) (spec_Addons spec)).

(** One turn of its loop: no links; all entries and exits are collected. *)
Definition addon_fragment t (taskFrag : option ExecutionFragment)
    : M (ExecutionFragment * (list NodeID * list NodeID)) module_error unit := λ '(frag, (ens, exs)),
  match taskFrag, ExecutionFragment_IsEmpty taskFrag with
  | Some ef, false =>
      match ExecutionFragment_MergeFragment (Some ef) frag with
      | (Ok _, frag) => (Ok tt, (frag, (ens ++ ef_EntryNodes ef, exs ++ ef_ExitNodes ef)))
      | (r, frag) => (map_err (TaskMergeFailed t) r, (frag, (ens, exs)))
      end
  | _, _ => (Ok tt, (frag, (ens, exs)))
  end.

Definition addon_task ctx t : M (ExecutionFragment * (list NodeID * list NodeID)) module_error unit :=
  lift (task_required ctx t) ≫= λ isRequired : bool,
  if isRequired then lift (plan_task ctx t) ≫= addon_fragment t else mret tt.

Definition AddonsModule_Plan ctx : planned_fragment :=
  with_task_context ctx (AddonsModule_GetTasks ctx ≫= λ ts,
    if decide (length ts = 0) then empty_fragment "ClusterAddonsDeployment"
    else run_body (foreach ts (addon_task ctx))
           (NewExecutionFragment ("ClusterAddonsDeployment" +:+ "-Fragment"), ([], []))
           (λ _ '(frag, (ens, exs)), nonempty_or "ClusterAddonsDeployment"
              (ef_set_ExitNodes (UniqueNodeIDs exs) (ef_set_EntryNodes (UniqueNodeIDs ens) frag)))).

(** An addon that is not enabled explicitly false is cleaned. *)
Definition AddonCleanupModule_Plan ctx : planned_fragment :=
  with_task_context ctx (
    configured ctx [] (λ spec, Ok (CleanAddonTask <$> filter (λ a, addon_Enabled a ≠ Some false) (spec_Addons spec)))
      ≫= λ ts, cleanup_tasks "AddonCleanup" ts ctx).

(** ** The interface [module.Module] *)

(** [Plan] of the module a pipeline constructs. *)
Definition module_Plan (md : module_kind) ctx : planned_fragment :=
  match md with
  | PreflightConnectivityModule => PreflightConnectivityModule_Plan ctx
  | PreflightModule assumeYes => PreflightModule_Plan assumeYes ctx
  | InfrastructureModule => InfrastructureModule_Plan ctx
  | LoadBalancerModule => LoadBalancerModule_Plan ctx
  | ControlPlaneModule => ControlPlaneModule_Plan ctx
  | NetworkModule => NetworkModule_Plan ctx
  | WorkerModule => WorkerModule_Plan ctx
  | AddonsModule => AddonsModule_Plan ctx
  | AddonCleanupModule => AddonCleanupModule_Plan ctx
  | WorkerCleanupModule => WorkerCleanupModule_Plan ctx
  | ControlPlaneCleanupModule => ControlPlaneCleanupModule_Plan ctx
  | NetworkCleanupModule => NetworkCleanupModule_Plan ctx
  | LoadBalancerCleanupModule => LoadBalancerCleanupModule_Plan ctx
  | EtcdCleanupModule => EtcdCleanupModule_Plan ctx
  | RuntimeCleanupModule => RuntimeCleanupModule_Plan ctx
  | StorageCleanupModule => StorageCleanupModule_Plan ctx
  | OsCleanupModule => OsCleanupModule_Plan ctx
  | ControlPlaneUpgradeModule v => ControlPlaneUpgradeModule_Plan v ctx
  | WorkerUpgradeModule v => WorkerUpgradeModule_Plan v ctx
  | NetworkUpgradeModule => NetworkUpgradeModule_Plan ctx
  | OsModule => OsModule_Plan ctx
  | EtcdModule => EtcdModule_Plan ctx
  | RuntimeModule => RuntimeModule_Plan ctx
  | RegistryModule action => RegistryModule_Plan action ctx
  | PKIModule scope => PKIModule_Plan scope ctx
  | BackupModule backupType => BackupModule_Plan backupType ctx
  | RestoreModule restoreType snapshotPath => RestoreModule_Plan restoreType snapshotPath ctx
  | HealthModule component => HealthModule_Plan component ctx
  | ReconfigureModule component => ReconfigureModule_Plan component ctx
  | AssetsDownloadModule workDir => AssetsDownloadModule_Plan workDir ctx
  end.
End modules.

(** What the pipelines use of a module. *)
Class Modules := {
  mod_Plan : module_kind → PipelineContext → planned_fragment;
}.

(** The modules of this file over any tasks. *)
Global Instance Tasks_Modules `{GoRange, Tasks} : Modules | 100 := {| mod_Plan := module_Plan |}.
