(* ===== verification/Tasks.v ===== *)
(** The tasks of the task files behind the interface of the modules: for a
    [runtime.Context] a modelled task is its own [IsRequired] and [Plan]; every
    other task, and a context of another type, is left to [other]. *)
From S2P Require Import Prelude.
From S2P Require Import Values.
From S2P Require Import Plan.
From S2P Require Import Result.
From S2P Require Import Cluster.
From S2P Require Import Context.
From S2P Require Import Task.
From S2P Require Import PreflightTasks.
From S2P Require Import OperationTasks.
From S2P Require Import NodeTasks.
From S2P Require Import LoadBalancerTasks.
From S2P Require Import ServiceTasks.
From S2P Require Import KubexmTasks.
From S2P Require Import PkiTasks.
From S2P Require Import Module.

(** The two methods of a task, and the name its constructor gives it. *)
Record task_methods : Type := MkTask {
  tm_Name : string;
  tm_IsRequired : Context → outcome task_error bool;
  tm_Plan : Context → outcome task_error (option ExecutionFragment);
}.

Section tasks.
Context `{GoRange, Steps}.

Definition operation_methods (t : task_kind) : option task_methods :=
  match t with
  | BackupPKITask => Some (MkTask "BackupPKI" BackupPKITask_IsRequired BackupPKITask_Plan)
  | BackupEtcdTask => Some (MkTask "BackupEtcd" BackupEtcdTask_IsRequired BackupEtcdTask_Plan)
  | BackupK8sConfigsTask => Some (MkTask "BackupK8sConfigs" BackupK8sConfigsTask_IsRequired BackupK8sConfigsTask_Plan)
  | RestorePKITask => Some (MkTask "RestorePKI" RestorePKITask_IsRequired RestorePKITask_Plan)
  | RestoreEtcdTask path => Some (MkTask "RestoreEtcd" RestoreEtcdTask_IsRequired (RestoreEtcdTask_Plan path))
  | RestoreK8sConfigsTask => Some (MkTask "RestoreK8sConfigs" RestoreK8sConfigsTask_IsRequired RestoreK8sConfigsTask_Plan)
  | CheckClusterHealthTask => Some (MkTask "CheckClusterHealth" CheckClusterHealthTask_IsRequired CheckClusterHealthTask_Plan)
  | CheckAPIServerHealthTask =>
      Some (MkTask "CheckAPIServerHealth" CheckAPIServerHealthTask_IsRequired CheckAPIServerHealthTask_Plan)
  | CheckSchedulerHealthTask =>
      Some (MkTask "CheckSchedulerHealth" CheckSchedulerHealthTask_IsRequired CheckSchedulerHealthTask_Plan)
  | CheckControllerManagerHealthTask =>
      Some (MkTask "CheckControllerManagerHealth" CheckControllerManagerHealthTask_IsRequired
              CheckControllerManagerHealthTask_Plan)
  | CheckKubeletHealthTask => Some (MkTask "CheckKubeletHealth" CheckKubeletHealthTask_IsRequired CheckKubeletHealthTask_Plan)
  | ReconfigureAPIServerTask =>
      Some (MkTask "ReconfigureAPIServer" ReconfigureAPIServerTask_IsRequired ReconfigureAPIServerTask_Plan)
  | ReconfigureSchedulerTask =>
      Some (MkTask "ReconfigureScheduler" ReconfigureSchedulerTask_IsRequired ReconfigureSchedulerTask_Plan)
  | ReconfigureControllerManagerTask =>
      Some (MkTask "ReconfigureControllerManager" ReconfigureControllerManagerTask_IsRequired
              ReconfigureControllerManagerTask_Plan)
  | ReconfigureKubeletTask => Some (MkTask "ReconfigureKubelet" ReconfigureKubeletTask_IsRequired ReconfigureKubeletTask_Plan)
  | ReconfigureProxyTask => Some (MkTask "ReconfigureProxy" ReconfigureProxyTask_IsRequired ReconfigureProxyTask_Plan)
  | InstallRegistryTask => Some (MkTask "InstallRegistry" InstallRegistryTask_IsRequired InstallRegistryTask_Plan)
  | GenerateRegistryConfigTask =>
      Some (MkTask "GenerateRegistryConfig" GenerateRegistryConfigTask_IsRequired GenerateRegistryConfigTask_Plan)
  | DistributeRegistryConfigTask =>
      Some (MkTask "DistributeRegistryConfig" DistributeRegistryConfigTask_IsRequired DistributeRegistryConfigTask_Plan)
  | SetupRegistryServiceTask =>
      Some (MkTask "SetupRegistryService" SetupRegistryServiceTask_IsRequired SetupRegistryServiceTask_Plan)
  | StartRegistryServiceTask =>
      Some (MkTask "StartRegistryService" StartRegistryServiceTask_IsRequired StartRegistryServiceTask_Plan)
  | StopRegistryServiceTask =>
      Some (MkTask "StopRegistryService" StopRegistryServiceTask_IsRequired StopRegistryServiceTask_Plan)
  | DisableRegistryServiceTask =>
      Some (MkTask "DisableRegistryService" DisableRegistryServiceTask_IsRequired DisableRegistryServiceTask_Plan)
  | RemoveRegistryArtifactsTask =>
      Some (MkTask "RemoveRegistryArtifacts" RemoveRegistryArtifactsTask_IsRequired RemoveRegistryArtifactsTask_Plan)
  | RemoveRegistryDataTask => Some (MkTask "RemoveRegistryData" RemoveRegistryDataTask_IsRequired RemoveRegistryDataTask_Plan)
  | _ => None
  end.

Definition preflight_methods (t : task_kind) : option task_methods :=
  match t with
  | CheckConnectivityTask => Some (MkTask "CheckConnectivity" CheckConnectivityTask_IsRequired CheckConnectivityTask_Plan)
  | GreetingTask => Some (MkTask "Greeting" GreetingTask_IsRequired GreetingTask_Plan)
  | ConfirmTask name prompt assumeYes =>
      Some (MkTask name ConfirmTask_IsRequired (ConfirmTask_Plan name prompt assumeYes))
  | ExtractBundleTask path => Some (MkTask "ExtractBundle" ExtractBundleTask_IsRequired (ExtractBundleTask_Plan path))
  | PackageAssetsTask path => Some (MkTask "PackageAssets" PackageAssetsTask_IsRequired (PackageAssetsTask_Plan path))
  | VerifyArtifactsTask => Some (MkTask "VerifyArtifacts" VerifyArtifactsTask_IsRequired VerifyArtifactsTask_Plan)
  | PrepareAssetsTask => Some (MkTask "PrepareAssets" PrepareAssetsTask_IsRequired PrepareAssetsTask_Plan)
  | InstallPrerequisitesTask =>
      Some (MkTask "InstallPrerequisites" InstallPrerequisitesTask_IsRequired InstallPrerequisitesTask_Plan)
  | InstallToolBinariesTask =>
      Some (MkTask "InstallToolBinaries" InstallToolBinariesTask_IsRequired InstallToolBinariesTask_Plan)
  | PreflightChecksTask => Some (MkTask "PreflightChecks" PreflightChecksTask_IsRequired PreflightChecksTask_Plan)
  | _ => None
  end.

Definition node_methods (t : task_kind) : option task_methods :=
  match t with
  | ConfigureHostTask => Some (MkTask "ConfigureHost" ConfigureHostTask_IsRequired ConfigureHostTask_Plan)
  | DisableServicesTask => Some (MkTask "DisableServices" DisableServicesTask_IsRequired DisableServicesTask_Plan)
  | ConfigureKernelTask => Some (MkTask "ConfigureKernel" ConfigureKernelTask_IsRequired ConfigureKernelTask_Plan)
  | CleanOSNodesTask => Some (MkTask "CleanOSNodes" CleanOSNodesTask_IsRequired CleanOSNodesTask_Plan)
  | GenerateEtcdPKITask => Some (MkTask "GenerateEtcdPKI" GenerateEtcdPKITask_IsRequired GenerateEtcdPKITask_Plan)
  | DeployEtcdClusterTask => Some (MkTask "DeployEtcdCluster" DeployEtcdClusterTask_IsRequired DeployEtcdClusterTask_Plan)
  | CleanEtcdTask => Some (MkTask "CleanEtcd" CleanEtcdTask_IsRequired CleanEtcdTask_Plan)
  | DeployContainerdTask => Some (MkTask "DeployContainerd" DeployContainerdTask_IsRequired DeployContainerdTask_Plan)
  | DeployDockerTask => Some (MkTask "DeployDocker" DeployDockerTask_IsRequired DeployDockerTask_Plan)
  | DeployCrioTask => Some (MkTask "DeployCrio" DeployCrioTask_IsRequired DeployCrioTask_Plan)
  | CleanContainerdTask => Some (MkTask "CleanContainerd" CleanContainerdTask_IsRequired CleanContainerdTask_Plan)
  | CleanDockerTask => Some (MkTask "CleanDocker" CleanDockerTask_IsRequired CleanDockerTask_Plan)
  | CleanCrioTask => Some (MkTask "CleanCrio" CleanCrioTask_IsRequired CleanCrioTask_Plan)
  | InstallKubeComponentsTask =>
      Some (MkTask "InstallKubeComponents" InstallKubeComponentsTask_IsRequired InstallKubeComponentsTask_Plan)
  | BootstrapFirstMasterTask =>
      Some (MkTask "BootstrapFirstMaster" BootstrapFirstMasterTask_IsRequired BootstrapFirstMasterTask_Plan)
  | KubeadmJoinMastersTask => Some (MkTask "JoinMasters" KubeadmJoinMastersTask_IsRequired KubeadmJoinMastersTask_Plan)
  | JoinWorkersTask => Some (MkTask "JoinWorkers" JoinWorkersTask_IsRequired JoinWorkersTask_Plan)
  | CleanKubernetesTask => Some (MkTask "CleanKubernetes" CleanKubernetesTask_IsRequired CleanKubernetesTask_Plan)
  | CleanKubeComponentsTask =>
      Some (MkTask "CleanKubeComponents" CleanKubeComponentsTask_IsRequired CleanKubeComponentsTask_Plan)
  | DrainNodeTask => Some (MkTask "DrainNode" DrainNodeTask_IsRequired DrainNodeTask_Plan)
  | ResetNodeTask => Some (MkTask "ResetNode" ResetNodeTask_IsRequired ResetNodeTask_Plan)
  | UpgradeControlPlaneTask _ =>
      Some (MkTask "UpgradeControlPlane" UpgradeControlPlaneTask_IsRequired UpgradeControlPlaneTask_Plan)
  | UpgradeWorkersTask _ => Some (MkTask "UpgradeWorkers" UpgradeWorkersTask_IsRequired UpgradeWorkersTask_Plan)
  | _ => None
  end.

(** [task/loadbalancer/]. *)
Definition lb_methods (t : task_kind) : option task_methods :=
  match t with
  | InstallKeepalivedTask =>
      Some (MkTask "InstallKeepalived" InstallKeepalivedTask_IsRequired InstallKeepalivedTask_Plan)
  | DeployHAProxyAsDaemonTask =>
      Some (MkTask "DeployHAProxyAsDaemon" DeployHAProxyAsDaemonTask_IsRequired DeployHAProxyAsDaemonTask_Plan)
  | DeployNginxAsDaemonTask =>
      Some (MkTask "DeployNginxAsDaemon" DeployNginxAsDaemonTask_IsRequired DeployNginxAsDaemonTask_Plan)
  | DeployKubeVipTask => Some (MkTask "DeployKubeVip" DeployKubeVipTask_IsRequired DeployKubeVipTask_Plan)
  | DeployHAProxyOnWorkersTask =>
      Some (MkTask "DeployHAProxyOnWorkers" DeployHAProxyOnWorkersTask_IsRequired DeployHAProxyOnWorkersTask_Plan)
  | DeployHAProxyAsStaticPodTask =>
      Some (MkTask "DeployHAProxyAsStaticPod" DeployHAProxyAsStaticPodTask_IsRequired DeployHAProxyAsStaticPodTask_Plan)
  | DeployNginxOnWorkersTask =>
      Some (MkTask "DeployNginxOnWorkers" DeployNginxOnWorkersTask_IsRequired DeployNginxOnWorkersTask_Plan)
  | DeployNginxAsStaticPodTask =>
      Some (MkTask "DeployNginxAsStaticPod" DeployNginxAsStaticPodTask_IsRequired DeployNginxAsStaticPodTask_Plan)
  | UninstallHAProxyAsDaemonTask =>
      Some (MkTask "UninstallHAProxyAsDaemon" UninstallHAProxyAsDaemonTask_IsRequired UninstallHAProxyAsDaemonTask_Plan)
  | UninstallKeepalivedTask =>
      Some (MkTask "UninstallKeepalived" UninstallKeepalivedTask_IsRequired UninstallKeepalivedTask_Plan)
  | CleanNginxAsDaemonTask =>
      Some (MkTask "CleanNginxAsDaemon" CleanNginxAsDaemonTask_IsRequired CleanNginxAsDaemonTask_Plan)
  | CleanKubeVipTask => Some (MkTask "CleanKubeVip" CleanKubeVipTask_IsRequired CleanKubeVipTask_Plan)
  | CleanHAProxyOnWorkersTask =>
      Some (MkTask "CleanHAProxyOnWorkers" CleanHAProxyOnWorkersTask_IsRequired CleanHAProxyOnWorkersTask_Plan)
  | CleanHAProxyStaticPodTask =>
      Some (MkTask "CleanHAProxyStaticPod" CleanHAProxyStaticPodTask_IsRequired CleanHAProxyStaticPodTask_Plan)
  | CleanNginxOnWorkersTask =>
      Some (MkTask "CleanNginxOnWorkers" CleanNginxOnWorkersTask_IsRequired CleanNginxOnWorkersTask_Plan)
  | CleanNginxStaticPodTask =>
      Some (MkTask "CleanNginxStaticPod" CleanNginxStaticPodTask_IsRequired CleanNginxStaticPodTask_Plan)
  | _ => None
  end.

(** [task/network/], [task/storage/] and [task/addon/]. *)
Definition service_methods (t : task_kind) : option task_methods :=
  match t with
  | InstallNetworkPluginTask =>
      Some (MkTask "InstallNetworkPlugin" InstallNetworkPluginTask_IsRequired InstallNetworkPluginTask_Plan)
  | CleanNetworkPluginTask =>
      Some (MkTask "CleanNetworkPlugin" CleanNetworkPluginTask_IsRequired CleanNetworkPluginTask_Plan)
  | DeployLonghornTask => Some (MkTask "DeployLonghorn" DeployLonghornTask_IsRequired DeployLonghornTask_Plan)
  | DeployNfsTask => Some (MkTask "DeployNfsProvisioner" DeployNfsTask_IsRequired DeployNfsTask_Plan)
  | DeployOpenebsTask => Some (MkTask "DeployOpenebs" DeployOpenebsTask_IsRequired DeployOpenebsTask_Plan)
  | CleanLonghornTask => Some (MkTask "CleanLonghorn" CleanLonghornTask_IsRequired CleanLonghornTask_Plan)
  | CleanNfsTask => Some (MkTask "CleanNfsProvisioner" CleanNfsTask_IsRequired CleanNfsTask_Plan)
  | CleanOpenebsTask => Some (MkTask "CleanOpenebs" CleanOpenebsTask_IsRequired CleanOpenebsTask_Plan)
  | InstallAddonTask addon =>
      Some (MkTask ("InstallAddon-" +:+ addon_Name addon) (InstallAddonTask_IsRequired addon) (InstallAddonTask_Plan addon))
  | CleanAddonTask addon =>
      Some (MkTask ("CleanAddon-" +:+ addon_Name addon) CleanAddonTask_IsRequired (CleanAddonTask_Plan addon))
  | _ => None
  end.

(** [task/kubernetes/kubexm/] and [task/packages/]. *)
Definition kubexm_methods (t : task_kind) : option task_methods :=
  match t with
  | DownloadAssetsTask => Some (MkTask "DownloadAssets" DownloadAssetsTask_IsRequired DownloadAssetsTask_Plan)
  | GenerateKubePKITask => Some (MkTask "GenerateKubePKI" GenerateKubePKITask_IsRequired GenerateKubePKITask_Plan)
  | GenerateControlPlaneKubeconfigsTask =>
      Some (MkTask "GenerateControlPlaneConfigs" GenerateControlPlaneKubeconfigsTask_IsRequired GenerateControlPlaneKubeconfigsTask_Plan)
  | GenerateNodePKITask => Some (MkTask "GenerateNodePKI" GenerateNodePKITask_IsRequired GenerateNodePKITask_Plan)
  | ConfigureControlPlaneTask =>
      Some (MkTask "ConfigureControlPlane" ConfigureControlPlaneTask_IsRequired ConfigureControlPlaneTask_Plan)
  | StartControlPlaneTask =>
      Some (MkTask "StartControlPlane" StartControlPlaneTask_IsRequired StartControlPlaneTask_Plan)
  | GenerateAdminKubeconfigTask =>
      Some (MkTask "GenerateAdminConfig" GenerateAdminConfigTask_IsRequired GenerateAdminConfigTask_Plan)
  | KubexmJoinMastersTask => Some (MkTask "JoinMasters" KubexmJoinMastersTask_IsRequired KubexmJoinMastersTask_Plan)
  | DeployWorkerNodesTask =>
      Some (MkTask "DeployWorkerNodes" DeployWorkerNodesTask_IsRequired DeployWorkerNodesTask_Plan)
  | _ => None
  end.

(** [task/pki/]. *)
Definition pki_methods `{Caches, StepMeta} (t : task_kind) : option task_methods :=
  match t with
  | GenerateClusterCertsTask =>
      Some (MkTask "GenerateNewAssets" GenerateClusterCertsTask_IsRequired GenerateClusterCertsTask_Plan)
  | GenerateKubeconfigsTask =>
      Some (MkTask "GenerateKubeconfigs" GenerateKubeconfigsTask_IsRequired GenerateKubeconfigsTask_Plan)
  | RolloutLeafCertsToMastersTask =>
      Some (MkTask "RolloutLeafCertsToMasters" RolloutLeafCertsToMastersTask_IsRequired RolloutLeafCertsToMastersTask_Plan)
  | RolloutK8sCABundleTask =>
      Some (MkTask "RolloutK8sCABundle" RolloutK8sCABundleTask_IsRequired RolloutK8sCABundleTask_Plan)
  | FinalizeMastersTask => Some (MkTask "FinalizeMasters" FinalizeMastersTask_IsRequired FinalizeMastersTask_Plan)
  | UpdateWorkerNodesTask =>
      Some (MkTask "UpdateWorkerNodes" UpdateWorkerNodesTask_IsRequired UpdateWorkerNodesTask_Plan)
  | PKICleanupTask => Some (MkTask "CleanupAfterRenewal" CleanupTask_IsRequired CleanupTask_Plan)
  | GenerateNewCertificatesTask =>
      Some (MkTask "GenerateNewCertificates" GenerateNewCertificatesTask_IsRequired GenerateNewCertificatesTask_Plan)
  | DeployNewLeafCertsRollingTask =>
      Some (MkTask "DeployNewLeafCertsRolling" DeployNewLeafCertsRollingTask_IsRequired DeployNewLeafCertsRollingTask_Plan)
  | DeployTrustBundleRollingTask =>
      Some (MkTask "DeployTrustBundleRolling" DeployTrustBundleRollingTask_IsRequired DeployTrustBundleRollingTask_Plan)
  | DeployFinalCARollingTask =>
      Some (MkTask "DeployFinalCARolling" DeployFinalCARollingTask_IsRequired DeployFinalCARollingTask_Plan)
  | FinalizeWorkspaceTask =>
      Some (MkTask "FinalizeWorkspace" FinalizeWorkspaceTask_IsRequired FinalizeWorkspaceTask_Plan)
  | _ => None
  end.

(** The first of the two that models the task. *)
Definition or_methods (ms ms' : task_kind → option task_methods) (t : task_kind) : option task_methods :=
  match ms t with Some tm => Some tm | None => ms' t end.

(** The constructors [New<Task>] that are modelled, but for those of [task/pki/]. *)
Definition methods_of : task_kind → option task_methods :=
  or_methods operation_methods (or_methods preflight_methods (or_methods node_methods
    (or_methods lb_methods (or_methods service_methods kubexm_methods)))).

Definition of_context {A} (f : Context → outcome task_error A) (other : PipelineContext → outcome task_error A)
    (ctx : PipelineContext) : outcome task_error A :=
  match ctx with RuntimeContext c => f c | ForeignContext _ _ _ => other ctx end.

(** The tasks of [ms], every other task left to [other]. *)
Definition with_methods (ms : task_kind → option task_methods) (other : Tasks) : Tasks := {|
  task_Name t := match ms t with Some tm => tm_Name tm | None => @task_Name other t end;
  task_IsRequired t :=
    match ms t with
    | Some tm => of_context (tm_IsRequired tm) (@task_IsRequired other t)
    | None => @task_IsRequired other t
    end;
  task_Plan t :=
    match ms t with
    | Some tm => of_context (tm_Plan tm) (@task_Plan other t)
    | None => @task_Plan other t
    end;
|}.

Definition Kubexm_Tasks (other : Tasks) : Tasks := with_methods methods_of other.

(** The tasks on certificates, which read the caches of the context. *)
Definition Pki_Tasks `{Caches, StepMeta} (other : Tasks) : Tasks := with_methods pki_methods other.
End tasks.
