(* ===== verification/ModuleSpec.v ===== *)
(** What the modules of [src/internal/module/] guarantee, whatever their tasks
    plan: the modules that chain their tasks, the ones that only collect them, and
    the ones whose fragment cannot be linked. *)
From S2P Require Import Prelude.
From S2P Require Import Values.
From S2P Require Import Plan.
From S2P Require Import Kahn.
From S2P Require Import GraphSpec.
From S2P Require Import FragmentSpec.
From S2P Require Import Assemble.
From S2P Require Import Sequence.
From S2P Require Import Result.
From S2P Require Import Cluster.
From S2P Require Import Context.
From S2P Require Import Task.
From S2P Require Import Module.

(** ** Specifications *)

(** The entry and exit nodes are the computed ones. *)
Definition computed_ends (ef : ExecutionFragment) : Prop :=
  ef_EntryNodes ef = fragment_entries (entries (ef_Nodes ef)) ∧
  ef_ExitNodes ef = fragment_exits (entries (ef_Nodes ef)).

(** The fragments side by side: no node changed. *)
Definition collects (frs : list ExecutionFragment) (nodes : node_map) : Prop :=
  (∀ id, is_Some (nodes !! id) ↔ ∃ ef, ef ∈ frs ∧ is_Some (entries (ef_Nodes ef) !! id)) ∧
  fragments_disjoint frs ∧
  (∀ ef id n, ef ∈ frs → entries (ef_Nodes ef) !! id = Some n → nodes !! id = Some n).

Definition nonempty_fragment (o : option ExecutionFragment) : option ExecutionFragment :=
  if ExecutionFragment_IsEmpty o then None else o.

Section specs.
Context `{Tasks}.

(** What a task contributes when it is planned, and when it is planned only if
    required. *)
Definition planned_of (ctx : PipelineContext) (t : task_kind) : option ExecutionFragment :=
  match task_Plan t ctx with Ok o => nonempty_fragment o | _ => None end.

Definition task_fragment (ctx : PipelineContext) (t : task_kind) : option ExecutionFragment :=
  match task_IsRequired t ctx with Ok true => planned_of ctx t | _ => None end.

Definition task_fragments (ctx : PipelineContext) (ts : list task_kind) : list ExecutionFragment :=
  omap (task_fragment ctx) ts.

(** The task reports no error. *)
Definition task_ok (ctx : PipelineContext) (t : task_kind) : Prop :=
  ∃ b, task_IsRequired t ctx = Ok b ∧ (b = true → ∃ o, task_Plan t ctx = Ok o).
End specs.

(** ** Computed ends *)

Lemma elem_of_sorted_ids nodes f id : id ∈ sorted_ids nodes f ↔ is_Some (nodes !! id) ∧ f id = true.
Proof.
  unfold sorted_ids. rewrite elem_of_sort_strings, list_elem_of_filter, elem_of_map_keys.
  destruct (f id); naive_solver.
Qed.

Lemma computed_fragment_valid ef prev :
  loop_valid (entries (ef_Nodes ef)) prev → computed_ends ef → fragment_valid ef.
Proof.
  intros (Hn & Hc & Ha & _) [Hen Hex]. split_and!; [done..| |].
  - intros id. rewrite Hen. by intros [? _]%elem_of_sorted_ids.
  - intros id. rewrite Hex. by intros [? _]%elem_of_sorted_ids.
Qed.

Lemma computed_ends_complete ef :
  fragment_valid ef → computed_ends ef → entries (ef_Nodes ef) ≠ ∅ → ends_complete ef.
Proof.
  intros Hv [Hen Hex] Hne. split_and!; [done..| |].
  - intros id Hid Hno. rewrite Hen. by apply elem_of_sorted_ids.
  - intros id Hid Hno. rewrite Hex. by apply elem_of_sorted_ids.
Qed.

Lemma ends_complete_exits ef : ends_complete ef → ef_ExitNodes ef ≠ [].
Proof.
  intros ((_ & _ & Ha & _) & Hne & _ & Hex) Hnil.
  apply map_choose in Hne as (x & n & Hx).
  destruct (reach_exit _ Ha x) as (e & He & Hno & _); [by eexists|].
  specialize (Hex e He Hno). rewrite Hnil in Hex. by apply elem_of_nil in Hex.
Qed.

Section modules.
Context `{GoRange, Tasks}.
Implicit Types (ctx : PipelineContext) (t : task_kind) (ts : list task_kind).

Lemma calculated_ok frag o :
  calculated frag = Ok o →
  ∃ ef, o = Some ef ∧ ef_Nodes ef = ef_Nodes frag ∧ ef_Name ef = ef_Name frag ∧ computed_ends ef ∧
    nodes_nonnil (entries (ef_Nodes ef)).
Proof.
  unfold calculated. destruct (ExecutionFragment_CalculateEntryAndExitNodes frag) as [[[]|?|] ef] eqn:Hcalc; [|done..].
  intros [= <-]. pose proof (calculate_fragment_nonnil _ _ Hcalc) as Hnn.
  rewrite calculate_fragment in Hcalc by done. simplify_eq. eexists. by split_and!.
Qed.

Lemma calculated_total frag :
  nodes_nonnil (entries (ef_Nodes frag)) → ∃ ef, calculated frag = Ok (Some ef).
Proof. intros Hnn. unfold calculated. rewrite calculate_fragment by done. by eexists. Qed.

(** ** Chains of tasks *)

Lemma chain_fragment_spec me le o frag prev m frag' prev' :
  ef_Nodes frag = Some m → chain_fragment me le o (frag, prev) = (Ok tt, (frag', prev')) →
  (nonempty_fragment o = None ∧ frag' = frag ∧ prev' = prev) ∨
  ∃ ef, nonempty_fragment o = Some ef ∧ prev' = ef_ExitNodes ef ∧ extends prev ef frag frag'.
Proof.
  intros Hm Hrun. unfold chain_fragment, nonempty_fragment in *.
  destruct o as [ef|]; [|simplify_eq; by left].
  destruct (ExecutionFragment_IsEmpty (Some ef)); [simplify_eq; by left|right].
  match type of Hrun with context [match ?t with (_, _) => _ end] =>
    destruct t as [[[]|?|] [g2 prev2]] eqn:Hbind; simplify_eq/= end.
  apply bind_ok in Hbind as ([] & st & Hmerge & Hl).
  apply on_fst_ok in Hmerge as (g1 & Hmerge & ->). apply on_fst_ok in Hl as (g3 & Hl & [= -> ->]).
  exists ef. split_and!; [done..|].
  eapply (merge_link_extends prev ef frag g1 _ m (LinkFragments prev (ef_EntryNodes ef))); [|done..].
  intros s s' m1 Hs Hlink. pose proof (LinkFragments_grown prev (ef_EntryNodes ef) s s' m1) as Hg. by apply Hg.
Qed.

Lemma chain_fragment_total me le o frag prev m :
  ef_Nodes frag = Some m → loop_valid m prev →
  (∀ ef, nonempty_fragment o = Some ef → fragment_valid ef ∧ m ##ₘ entries (ef_Nodes ef)) →
  ∃ frag' prev', chain_fragment me le o (frag, prev) = (Ok tt, (frag', prev')).
Proof.
  intros Hm Hlv Hfit. unfold chain_fragment, nonempty_fragment in *.
  destruct o as [ef|]; [|by eexists _, _].
  destruct (ExecutionFragment_IsEmpty (Some ef)); [by eexists _, _|].
  destruct (Hfit ef eq_refl) as [Hef Hd].
  pose proof (merge_total ef frag m) as Hmerge. specialize (Hmerge Hm Hd).
  change store_merge with (@ExecutionFragment_MergeFragment _) in Hmerge.
  unfold mbind, M_bind, on_fst at 1. rewrite Hmerge. simpl.
  pose proof (link_total prev ef m (ef_set_Nodes (m ∪ entries (ef_Nodes ef)) frag) Hlv Hef Hd) as Hl.
  destruct Hl as [g2 Hlink]; [done|].
  eexists (if decide (0 < length prev) then g2 else _), (ef_ExitNodes ef).
  unfold on_fst. case_decide; [by rewrite Hlink|done].
Qed.

Lemma plan_task_ok ctx t o : plan_task ctx t = Ok o ↔ task_Plan t ctx = Ok o.
Proof. apply map_err_ok. Qed.

Lemma task_required_ok ctx t b : task_required ctx t = Ok b ↔ task_IsRequired t ctx = Ok b.
Proof. apply map_err_ok. Qed.

Lemma chain_planned_chains ctx me le : chains (planned_of ctx) (chain_planned ctx me le).
Proof.
  intros t frag prev m frag' prev' Hm Hrun.
  apply bind_ok in Hrun as (o & st & [= Hp <-] & Hrun). apply plan_task_ok in Hp.
  unfold planned_of. rewrite Hp. by eapply chain_fragment_spec.
Qed.

Lemma chain_task_chains ctx : chains (task_fragment ctx) (chain_task ctx).
Proof.
  intros t frag prev m frag' prev' Hm Hrun.
  apply bind_ok in Hrun as (b & st & [= Hr <-] & Hrun). apply task_required_ok in Hr.
  unfold task_fragment. rewrite Hr. destruct b; [by eapply chain_planned_chains|].
  unfold mret, M_ret in Hrun. simplify_eq. by left.
Qed.

Lemma chain_task_total ctx ts :
  (∀ t, t ∈ ts → task_ok ctx t) → chains_total (task_fragment ctx) (chain_task ctx) ts.
Proof.
  intros Hok t frag prev m Hin Hm Hlv Hfit. destruct (Hok t Hin) as (b & Hr & Hp).
  unfold chain_task, mbind, M_bind, lift. rewrite (proj2 (task_required_ok ctx t b) Hr).
  unfold task_fragment in Hfit. rewrite Hr in Hfit. destruct b; [|by eexists _, _].
  destruct Hp as [o Ho]; [done|]. unfold chain_planned, mbind, M_bind, lift.
  rewrite (proj2 (plan_task_ok ctx t o) Ho). eapply chain_fragment_total; [done..|].
  unfold planned_of in Hfit. by rewrite Ho in Hfit.
Qed.

(** The loop over the tasks and what follows it. *)
Lemma chain_tasks_run name ts ctx (k : unit → ExecutionFragment * list NodeID → planned_fragment) o :
  run_body (foreach ts (chain_task ctx)) (start name) k = Ok o →
  ∃ m, k tt (MkFragment (Some m) [] [] (name +:+ "-Fragment"), last_exits (task_fragments ctx ts)) = Ok o ∧
    assembles (task_fragments ctx ts) m.
Proof.
  intros ([] & [frag prev] & Hrun & Hk)%run_body_ok. unfold start in Hrun.
  apply (chain_run (task_fragment ctx)) in Hrun as (m & -> & -> & Hm & _); [|apply chain_task_chains|done].
  by exists m.
Qed.

Lemma chain_tasks_total name ts ctx :
  (∀ t, t ∈ ts → task_ok ctx t) →
  (∀ f, f ∈ task_fragments ctx ts → fragment_valid f) → fragments_disjoint (task_fragments ctx ts) →
  ∃ m, foreach ts (chain_task ctx) (start name) =
         (Ok tt, (MkFragment (Some m) [] [] (name +:+ "-Fragment"), last_exits (task_fragments ctx ts))) ∧
    assembles (task_fragments ctx ts) m ∧ loop_valid m (last_exits (task_fragments ctx ts)).
Proof.
  intros Hok Hvalid Hdisj.
  destruct (chain_total (task_fragment ctx) (chain_task ctx) ts (NewExecutionFragment (name +:+ "-Fragment")))
    as (m & Hrun & Hm & Hlv); [apply chain_task_chains|by apply chain_task_total|done..|].
  by exists m.
Qed.

Lemma assembles_nonempty frs m : assembles frs m → (∀ f, f ∈ frs → ends_complete f) → frs ≠ [] → m ≠ ∅.
Proof.
  intros (Hdom & _) Hends Hne ->. destruct frs as [|f frs]; [done|].
  destruct (Hends f) as (_ & Hf & _); [left|]. apply map_choose in Hf as (x & n & Hx).
  assert (is_Some ((∅ : gmap NodeID (option ExecutionNode)) !! x)) as [? Hs]; [|by rewrite lookup_empty in Hs].
  apply Hdom. exists f. split; [left|by eexists].
Qed.

Lemma last_exits_nil frs : (∀ f, f ∈ frs → ends_complete f) → last_exits frs = [] → frs = [].
Proof.
  intros Hends. unfold last_exits. destruct (last frs) as [f|] eqn:Hlast; [|by intros _; apply last_None].
  intros Hnil. apply last_Some_elem_of in Hlast. by destruct (ends_complete_exits f (Hends f Hlast)).
Qed.

(** What a loop with computed ends gives for fragments fit to be chained. *)
Lemma chained_fragment frs m ef :
  assembles frs m → loop_valid m (last_exits frs) → (∀ f, f ∈ frs → ends_complete f) →
  ef_Nodes ef = Some m → computed_ends ef →
  assembles frs (entries (ef_Nodes ef)) ∧ sequential (node_deps (entries (ef_Nodes ef))) frs ∧
  fragment_valid ef ∧ (frs ≠ [] → ends_complete ef).
Proof.
  intros Hm Hlv Hends Hef Hcomp.
  assert (fragment_valid ef) as Hv by (eapply computed_fragment_valid; [rewrite Hef; exact Hlv|done]).
  rewrite Hef. simpl. split_and!; [done|by apply assembles_sequential|done|].
  intros Hne. apply computed_ends_complete; [done..|]. rewrite Hef. by eapply assembles_nonempty.
Qed.

Lemma chain_modules name ts ctx :
  pc_is_TaskContext ctx = true → (∀ t, t ∈ ts → task_ok ctx t) →
  (∀ f, f ∈ task_fragments ctx ts → ends_complete f) → fragments_disjoint (task_fragments ctx ts) →
  ∃ ef, chain_Plan name ts ctx = Ok (Some ef) ∧
    chain_or_empty_Plan name ts ctx =
      Ok (Some (if decide (task_fragments ctx ts = []) then NewEmptyFragment name else ef)) ∧
    assembles (task_fragments ctx ts) (entries (ef_Nodes ef)) ∧
    sequential (node_deps (entries (ef_Nodes ef))) (task_fragments ctx ts) ∧
    fragment_valid ef ∧ (task_fragments ctx ts ≠ [] → ends_complete ef).
Proof.
  intros Hctx Hok Hends Hdisj.
  assert (∀ f, f ∈ task_fragments ctx ts → fragment_valid f) as Hvalid by (intros f Hf; by apply Hends).
  unfold chain_Plan, chain_or_empty_Plan, with_task_context. rewrite Hctx.
  destruct (chain_tasks_total name ts ctx) as (m & Hrun & Hm & Hlv); [done..|].
  unfold run_body. rewrite !Hrun.
  destruct (calculated_total (MkFragment (Some m) [] [] (name +:+ "-Fragment"))) as [ef Hef]; [by apply Hlv|].
  rewrite Hef. exists ef. apply calculated_ok in Hef as Hc.
  destruct Hc as (? & [= <-] & Hnodes & _ & Hcomp & _).
  split; [done|]. split; [|by eapply chained_fragment].
  case_decide as Hlen; case_decide as Hnil; [done| | |done].
  - apply nil_length_inv in Hlen. by destruct (Hnil (last_exits_nil _ Hends Hlen)).
  - by rewrite Hnil in Hlen.
Qed.

(** The modules that chain their tasks ([PreflightModule] and
    [AssetsDownloadModule] by one loop; the backup, restore, health, reconfigure
    and registry modules by the other) plan a fragment when their tasks plan
    without error fragments with disjoint IDs that name all their first and last
    nodes: it consists of the fragments of the required tasks, every node of a
    task waits for every node of the tasks before it, and it is again a valid
    fragment that names all its first and last nodes; without any node the second
    loop gives the empty fragment. *)
Theorem chain_modules_spec name ts ctx :
  pc_is_TaskContext ctx = true → (∀ t, t ∈ ts → task_ok ctx t) →
  (∀ f, f ∈ task_fragments ctx ts → ends_complete f) → fragments_disjoint (task_fragments ctx ts) →
  ∃ ef, chain_Plan name ts ctx = Ok (Some ef) ∧
    chain_or_empty_Plan name ts ctx =
      Ok (Some (if decide (task_fragments ctx ts = []) then NewEmptyFragment name else ef)) ∧
    assembles (task_fragments ctx ts) (entries (ef_Nodes ef)) ∧
    sequential (node_deps (entries (ef_Nodes ef))) (task_fragments ctx ts) ∧
    fragment_valid ef ∧ (task_fragments ctx ts ≠ [] → ends_complete ef).
Proof. apply chain_modules. Qed.

(** ** Modules on [PlanTasks] *)

Lemma collects_nil : collects [] ∅.
Proof.
  split_and!; [|done|by intros ??? ?%elem_of_nil].
  intros id. rewrite lookup_empty. split; [by intros [? ?]|]. by intros (? & ?%elem_of_nil & _).
Qed.

Lemma collects_snoc frs ef m :
  collects frs m → m ##ₘ entries (ef_Nodes ef) → collects (frs ++ [ef]) (m ∪ entries (ef_Nodes ef)).
Proof.
  intros (Hdom & Hdisj & Hn) Hd. split_and!.
  - intros id. rewrite lookup_union_is_Some, Hdom. split.
    + intros [(fi & Hfi & Hs)|Hs]; [exists fi|exists ef]; (split; [set_solver|done]).
    + intros (fi & [Hfi| ->%list_elem_of_singleton]%elem_of_app & Hs); [left|by right]. by exists fi.
  - apply fragments_disjoint_sorted, StronglySorted_app. split_and!; [|by apply fragments_disjoint_sorted|].
    + intros f1 f2 Hf1 ->%list_elem_of_singleton. apply map_disjoint_alt. intros id.
      destruct (entries (ef_Nodes f1) !! id) eqn:Hid; [right|by left].
      assert (is_Some (m !! id)) as [x Hx] by (apply Hdom; exists f1; split; [done|by eexists]).
      by eapply map_disjoint_Some_l.
    + repeat constructor.
  - intros fi id n [Hfi| ->%list_elem_of_singleton]%elem_of_app Hid.
    + apply lookup_union_Some_l. by eapply Hn.
    + by apply lookup_union_Some_r.
Qed.

(** One turn: the fragment is merged, an empty one without effect. *)
Lemma plan_and_merge_collects ctx t frag frs m frag' :
  ef_Nodes frag = Some m → collects frs m → plan_and_merge ctx t frag = (Ok tt, frag') →
  ∃ m', frag' = ef_set_Nodes m' frag ∧
    collects (frs ++ match task_fragment ctx t with Some ef => [ef] | None => [] end) m'.
Proof.
  intros Hm Hcol Hrun. assert (ef_set_Nodes m frag = frag) as Hid by (destruct frag; simpl in *; by subst).
  apply bind_ok in Hrun as (b & st & [= Hr <-] & Hrun). apply task_required_ok in Hr.
  unfold task_fragment, planned_of, nonempty_fragment. rewrite Hr. destruct b.
  2:{ unfold mret, M_ret in Hrun. simplify_eq. exists m. by rewrite app_nil_r. }
  apply bind_ok in Hrun as (o & st & [= Hp <-] & Hrun). apply plan_task_ok in Hp. rewrite Hp.
  unfold wrap in Hrun. destruct (ExecutionFragment_MergeFragment o frag) as [[[]|?|] g] eqn:Hmerge; simplify_eq.
  destruct o as [ef|]; [|unfold ExecutionFragment_MergeFragment, mret, M_ret in Hmerge; simplify_eq; simpl;
    exists m; by rewrite app_nil_r].
  pose proof (merge_grown ef frag frag' m) as Hg. destruct Hg as [Hd ->]; [done..|]. simpl.
  exists (m ∪ entries (ef_Nodes ef)). split; [done|]. case_bool_decide as Hz; [|by apply collects_snoc].
  unfold mlen in Hz. apply map_size_empty_inv in Hz. by rewrite Hz, (right_id_L ∅ (∪)), app_nil_r.
Qed.

Lemma PlanTasks_collects name ts ctx o :
  BaseModule_PlanTasks name ts ctx = Ok o →
  ∃ ef, o = Some ef ∧ collects (task_fragments ctx ts) (entries (ef_Nodes ef)) ∧ computed_ends ef ∧
    nodes_nonnil (entries (ef_Nodes ef)).
Proof.
  unfold BaseModule_PlanTasks, with_task_context. destruct (pc_is_TaskContext ctx); [|done].
  intros ([] & frag & Hrun & Hcalc)%run_body_ok.
  eapply (foreach_ind (λ k frag, ∃ m, frag = ef_set_Nodes m (NewExecutionFragment (name +:+ "-Fragment")) ∧
    collects (task_fragments ctx k) m)) in Hrun as (m & -> & Hcol).
  - apply calculated_ok in Hcalc as (ef & -> & Hnodes & _ & Hcomp & Hnn). exists ef. by rewrite Hnodes in *.
  - exists ∅. split; [done|apply collects_nil].
  - intros k t frag1 frag2 _ (m & -> & Hcol) Hstep.
    eapply plan_and_merge_collects in Hstep as (m' & -> & Hcol'); [|done..].
    exists m'. split; [done|]. unfold task_fragments. by rewrite omap_snoc.
Qed.

Lemma plan_and_merge_total ctx t frag m :
  ef_Nodes frag = Some m → task_ok ctx t →
  (∀ ef, task_fragment ctx t = Some ef → m ##ₘ entries (ef_Nodes ef)) →
  ∃ frag', plan_and_merge ctx t frag = (Ok tt, frag').
Proof.
  intros Hm (b & Hr & Hp) Hfit. unfold plan_and_merge, mbind, M_bind, lift.
  rewrite (proj2 (task_required_ok ctx t b) Hr).
  unfold task_fragment, planned_of, nonempty_fragment in Hfit. rewrite Hr in Hfit.
  destruct b; [|by eexists]. destruct Hp as [o Ho]; [done|].
  rewrite (proj2 (plan_task_ok ctx t o) Ho). rewrite Ho in Hfit. unfold wrap.
  destruct o as [ef|]; [|by eexists].
  pose proof (merge_total ef frag m) as Hmerge.
  change store_merge with (@ExecutionFragment_MergeFragment _) in Hmerge. rewrite Hmerge; [by eexists|done|].
  simpl in Hfit. case_bool_decide as Hz; [|by apply Hfit].
  unfold mlen in Hz. apply map_size_empty_inv in Hz. rewrite Hz. apply map_disjoint_empty_r.
Qed.

Lemma collects_nonnil frs m : collects frs m → (∀ f, f ∈ frs → fragment_valid f) → nodes_nonnil m.
Proof.
  intros (Hdom & _ & Hsame) Hvalid id Hid.
  destruct (proj1 (Hdom id)) as (f & Hf & [n Hn]); [by eexists|].
  rewrite (Hsame f id n Hf Hn) in Hid. simplify_eq. by apply (Hvalid f Hf) in Hn.
Qed.

Lemma PlanTasks_total name ts ctx :
  pc_is_TaskContext ctx = true → (∀ t, t ∈ ts → task_ok ctx t) →
  (∀ f, f ∈ task_fragments ctx ts → fragment_valid f) → fragments_disjoint (task_fragments ctx ts) →
  ∃ ef, BaseModule_PlanTasks name ts ctx = Ok (Some ef).
Proof.
  intros Hctx Hok Hvalid Hdisj. unfold BaseModule_PlanTasks, with_task_context. rewrite Hctx.
  destruct (foreach_total (λ k frag, ∃ m, frag = ef_set_Nodes m (NewExecutionFragment (name +:+ "-Fragment")) ∧
    collects (task_fragments ctx k) m) ts (plan_and_merge ctx)
    (NewExecutionFragment (name +:+ "-Fragment"))) as (frag & Hrun & m & -> & Hcol).
  - exists ∅. split; [done|apply collects_nil].
  - intros k t frag [k' Hk] (m & -> & Hcol).
    destruct (plan_and_merge_total ctx t (ef_set_Nodes m (NewExecutionFragment (name +:+ "-Fragment"))) m)
      as [frag' Hrun]; [done|apply Hok; rewrite Hk; set_solver| |].
    { intros ef Hef. unfold task_fragments in *. rewrite Hk, !omap_app in Hdisj. simpl in Hdisj.
      rewrite Hef, <-app_assoc in Hdisj. eapply fragments_room; [done|apply Hcol]. }
    exists frag'. split; [done|].
    eapply plan_and_merge_collects in Hrun as (m' & -> & Hcol'); [|done..].
    exists m'. split; [done|]. unfold task_fragments. by rewrite omap_snoc.
  - unfold run_body. rewrite Hrun. apply calculated_total. by eapply collects_nonnil.
Qed.

(** A node whose fragment is closed only depends on nodes of the same fragment. *)
Lemma collects_closed frs m f y :
  collects frs m → f ∈ frs → is_Some (entries (ef_Nodes f) !! y) →
  node_deps m y = node_deps (entries (ef_Nodes f)) y.
Proof. intros (_ & _ & Hn) Hf [n Hy]. unfold node_deps. by rewrite (Hn f y n Hf Hy), Hy. Qed.

(** [PlanTasks], on which the OS configuration and the certificate renewal
    modules are built, puts the fragments of the required tasks side by side: the
    nodes are theirs, unchanged, the entry and exit nodes are computed over all of
    them, and no node of a task waits for a node of another task, directly or
    not, so that the order of the tasks in the module means nothing. *)
Theorem PlanTasks_unordered name ts ctx ef :
  BaseModule_PlanTasks name ts ctx = Ok (Some ef) →
  collects (task_fragments ctx ts) (entries (ef_Nodes ef)) ∧ computed_ends ef ∧
  ∀ i j fi fj x y, task_fragments ctx ts !! i = Some fi → task_fragments ctx ts !! j = Some fj → i ≠ j →
    fragment_valid fj → is_Some (entries (ef_Nodes fi) !! x) → is_Some (entries (ef_Nodes fj) !! y) →
    ¬ rtc (before (node_deps (entries (ef_Nodes ef)))) x y.
Proof.
  intros (ef' & [= <-] & Hcol & Hcomp & _)%PlanTasks_collects. split_and!; [done..|].
  intros i j fi fj x y Hi Hj Hij (_ & Hc & _) [nx Hx] Hy Hpath.
  assert (fj ∈ task_fragments ctx ts) as Hfj by by eapply list_elem_of_lookup_2.
  apply (closed_path _ (λ v, is_Some (entries (ef_Nodes fj) !! v))) in Hpath as [ny Hny]; [| |done].
  - pose proof Hcol as (_ & Hdisj & _). eapply map_disjoint_spec; [by apply (Hdisj i j fi fj)|done..].
  - intros v d Hv. rewrite (collects_closed _ _ _ _ Hcol Hfj Hv). apply Hc.
Qed.

Lemma collects_one f m : collects [f] m → assembles [f] m.
Proof.
  intros (Hdom & Hdisj & Hn). split_and!; [done..| |].
  - intros i ef id n [-> <-]%list_lookup_singleton_Some Hid. exists (node_Dependencies n). split.
    + rewrite (Hn f id (Some n)); [by destruct n|left|done].
    + intros d. split; [by left|]. intros [?|(k & f1 & f2 & _ & HSk & _)]; [done|].
      by apply list_lookup_singleton_Some in HSk as [? _].
  - intros ef id Hef Hid. by eapply Hn.
Qed.

(** ** Modules that take over unset ends *)

(** A task that plans other tasks leaves its entry and exit nodes unset. *)
Lemma deploy_tasks_no_ends name ts ctx o :
  deploy_tasks name ts ctx = Ok o → ∃ ef, o = Some ef ∧ ef_EntryNodes ef = [] ∧ ef_ExitNodes ef = [].
Proof.
  intros ([] & [frag prev] & Hrun & Hk)%run_body_ok.
  apply (chain_run (planned_of ctx)) in Hrun as (m & -> & -> & _); [|apply chain_planned_chains|done].
  case_decide; [unfold empty_fragment in Hk|]; simplify_eq; eauto.
Qed.

Lemma single_fragment_ends name taskFrag o :
  single_fragment name taskFrag = Ok o →
  ∃ ef ef', taskFrag = Some ef ∧ o = Some ef' ∧ ef_EntryNodes ef' = ef_EntryNodes ef ∧ ef_ExitNodes ef' = ef_ExitNodes ef.
Proof.
  intros ([] & [frag prev] & Hrun & Hk)%run_body_ok.
  apply bind_ok in Hrun as (ef & [frag1 prev1] & Hm & Htake).
  apply bind_ok in Hm as ([] & st & _ & Hd). unfold deref in Hd. destruct taskFrag as [ef0|]; simplify_eq.
  unfold take_ends in Htake. simplify_eq. eexists _, _. by split_and!.
Qed.

Lemma deploy_module_no_ends name ts ctx o n :
  deploy_module name (deploy_tasks n ts ctx) = Ok o →
  ∃ ef, o = Some ef ∧ ef_EntryNodes ef = [] ∧ ef_ExitNodes ef = [].
Proof.
  intros (frag & Hp & Hk)%outcome_bind_ok. apply map_err_ok, deploy_tasks_no_ends in Hp as (ef & -> & Hen & Hex).
  destruct (ExecutionFragment_IsEmpty _); [unfold empty_fragment in Hk; simplify_eq; eauto|].
  apply single_fragment_ends in Hk as (ef1 & ef2 & [= <-] & -> & H1 & H2). exists ef2. by rewrite H1, H2.
Qed.

Lemma LoadBalancerModule_no_ends ctx o :
  LoadBalancerModule_Plan ctx = Ok o → ∃ ef, o = Some ef ∧ ef_EntryNodes ef = [] ∧ ef_ExitNodes ef = [].
Proof.
  unfold LoadBalancerModule_Plan, with_task_context, empty_fragment.
  destruct (pc_is_TaskContext ctx); [|done]. intros ([] & _ & Hk)%outcome_bind_ok; [|simplify_eq; eauto].
  unfold DeployLoadBalancerTask_Plan in Hk. destruct (GetLoadBalancerTasks ctx) as [ts|e|]; [|done..].
  by eapply deploy_module_no_ends.
Qed.

Lemma StorageModule_no_ends ctx o :
  StorageModule_Plan ctx = Ok o → ∃ ef, o = Some ef ∧ ef_EntryNodes ef = [] ∧ ef_ExitNodes ef = [].
Proof.
  unfold StorageModule_Plan, with_task_context, empty_fragment, DeployStorageTask_Plan.
  destruct (pc_is_TaskContext ctx); [|done]. intros ([s|] & Hs & Hk)%outcome_bind_ok; [|simplify_eq; eauto].
  destruct (any_storage s) eqn:Hany; [|simplify_eq; eauto].
  rewrite Hs in Hk. simpl in Hk. rewrite Hany in Hk. by eapply deploy_module_no_ends.
Qed.
End modules.
