(* ===== verification/TaskSpec.v ===== *)
(** What the tasks promise the modules: a task whose builders, hosts and
    configuration are there plans a fragment without an error, and the fragment it
    plans is acyclic, names all its first and last nodes and only has nodes with
    the labels of the task, so that the fragments of different tasks share no ID.

    A program logic for the bodies of the tasks: what a body makes of the fragment
    under construction.  Every task labels its nodes: the label of a node is its
    ID up to the first separator, the name of a host following.  The invariant is
    that the labels are those of the task and that dependencies only go from
    earlier labels to later ones, which keeps the fragment acyclic. *)
From S2P Require Import Prelude.
From S2P Require Import Values.
From S2P Require Import Plan.
From S2P Require Import Kahn.
From S2P Require Import GraphSpec.
From S2P Require Import FragmentSpec.
From S2P Require Import Assemble.
From S2P Require Import Sequence.
From S2P Require Import Cluster.
From S2P Require Import Context.
From S2P Require Import Task.
From S2P Require Import PreflightTasks.
From S2P Require Import OperationTasks.
From S2P Require Import NodeTasks.
From S2P Require Import LoadBalancerTasks.
From S2P Require Import ServiceTasks.
From S2P Require Import KubexmTasks.
From S2P Require Import Module.
From S2P Require Import Tasks.
From S2P Require Import ModuleSpec.
From Stdlib Require Import Ascii.

(** ** Labels *)

Definition is_separator (a : ascii) : bool := bool_decide (a = "-"%char ∨ a = "_"%char).

(** The ID up to the first separator. *)
Fixpoint label (id : string) : string :=
  match id with
  | EmptyString => EmptyString
  | String a id => if is_separator a then EmptyString else String a (label id)
  end.

(** The position of a label in the list. *)
Fixpoint rank (L : list string) (l : string) : nat :=
  match L with
  | [] => 0
  | l' :: L => if decide (l = l') then 0 else S (rank L l)
  end.

Definition labelledb (L : list string) (id : NodeID) : bool := bool_decide (label id ∈ L).

(** A dependency that is either refused, one of its ends having no label of the
    task, or goes forward. *)
Definition forwardb (L : list string) (from to : NodeID) : bool :=
  negb (labelledb L from) || negb (labelledb L to) || bool_decide (rank L (label from) < rank L (label to)).

(** ** The states of a fragment under construction *)

(** Nodes with the labels [L], all dependencies going forward. *)
Record ranked (L : list string) (ef : ExecutionFragment) : Prop := {
  ranked_made : is_Some (ef_Nodes ef);
  ranked_nonnil : nodes_nonnil (entries (ef_Nodes ef));
  ranked_closed : nodes_closed (entries (ef_Nodes ef));
  ranked_label id : is_Some (entries (ef_Nodes ef) !! id) → label id ∈ L;
  ranked_dep id d : d ∈ node_deps (entries (ef_Nodes ef)) id → rank L (label d) < rank L (label id);
}.

Definition no_nodes (ef : ExecutionFragment) : Prop := entries (ef_Nodes ef) = ∅.

Definition fresh (L : list string) (ef : ExecutionFragment) : Prop := ranked L ef ∧ no_nodes ef.

(** A fragment to return: without nodes, or with its entry and exit nodes computed. *)
Definition finished (L : list string) (ef : ExecutionFragment) : Prop := ranked L ef ∧ (no_nodes ef ∨ computed_ends ef).

(** ** Triples *)

(** From a state in [P], [m] ends in a state in [Q] of its result; it only fails
    or panics when [F]. *)
Definition triple (F : Prop) {A} (P : ExecutionFragment → Prop) (m : M ExecutionFragment task_error A)
    (Q : A → ExecutionFragment → Prop) : Prop :=
  ∀ ef, P ef → match m ef with (Ok a, ef') => Q a ef' | _ => F end.

Section rules.
Context {F : Prop}.
Implicit Types (L : list string) (P I : ExecutionFragment → Prop).

Lemma triple_ret {A} P (a : A) (Q : A → ExecutionFragment → Prop) :
  (∀ ef, P ef → Q a ef) → triple F P (mret a) Q.
Proof. intros HQ ef HP. by apply HQ. Qed.

Lemma triple_bind {A B} P (m : M ExecutionFragment task_error A) (f : A → M ExecutionFragment task_error B) R Q :
  triple F P m R → (∀ a, triple F (R a) (f a) Q) → triple F P (m ≫= f) Q.
Proof.
  intros Hm Hf ef HP. unfold mbind, M_bind. specialize (Hm ef HP).
  destruct (m ef) as [[a|e|] ef']; [by apply Hf|done..].
Qed.

Lemma triple_conseq {A} P P' (m : M ExecutionFragment task_error A) Q Q' :
  triple F P' m Q' → (∀ ef, P ef → P' ef) → (∀ a ef, Q' a ef → Q a ef) → triple F P m Q.
Proof.
  intros Hm HP HQ ef Hef. specialize (Hm ef (HP ef Hef)).
  destruct (m ef) as [[a|e|] ef']; [by apply HQ|done..].
Qed.

Lemma triple_pre {A} P P' (m : M ExecutionFragment task_error A) Q :
  (∀ ef, P ef → P' ef) → triple F P' m Q → triple F P m Q.
Proof. intros HP Hm. by eapply triple_conseq. Qed.

Lemma triple_lift {A} P (o : outcome task_error A) (Q : A → ExecutionFragment → Prop) :
  (∀ a, o = Ok a → ∀ ef, P ef → Q a ef) → ((∀ a, o ≠ Ok a) → F) → triple F P (lift o) Q.
Proof. intros HQ HF ef HP. unfold lift. destruct o; [by apply HQ|by apply HF..]. Qed.

Lemma triple_deref {A} P (o : option A) (Q : A → ExecutionFragment → Prop) :
  (∀ a, o = Some a → ∀ ef, P ef → Q a ef) → (o = None → F) → triple F P (deref o) Q.
Proof. intros HQ HF ef HP. unfold deref. destruct o; [by apply HQ|by apply HF]. Qed.

Lemma triple_foreach {A} I (l : list A) body :
  (∀ x, x ∈ l → triple F I (body x) (λ _, I)) → triple F I (foreach l body) (λ _, I).
Proof.
  induction l as [|x l IH]; intros Hb; simpl; [by apply triple_ret|].
  eapply triple_bind; [apply Hb; left|]. intros []. apply IH. intros y Hy. apply Hb. by right.
Qed.

(** The invariant, and what each turn says of the value it appends. *)
Lemma triple_collect {A B} I (R : B → Prop) (l : list A) body :
  (∀ x, x ∈ l → triple F I (body x) (λ y ef, I ef ∧ R y)) →
  triple F I (collect l body) (λ ys ef, I ef ∧ Forall R ys).
Proof.
  induction l as [|x l IH]; intros Hb; simpl; [apply triple_ret; by intros; split|].
  eapply triple_bind; [apply Hb; left|]. intros y ef [HI Hy]. simpl.
  eapply (triple_bind I _ _ (λ ys ef, I ef ∧ Forall R ys)); [apply IH; intros; apply Hb; by right| |done].
  intros ys. apply triple_ret. intros ef' [? ?]. split; [done|]. by constructor.
Qed.

Lemma bind_keep {A B} P (m : M ExecutionFragment task_error A) (f : A → M ExecutionFragment task_error B) Q :
  triple F P m (λ _, P) → (∀ a, triple F P (f a) Q) → triple F P (m ≫= f) Q.
Proof. apply triple_bind. Qed.

(** ** Rules for the operations on fragments *)

Lemma ranked_insert L ef m id n :
  ef_Nodes ef = Some m → ranked L ef → label id ∈ L →
  (∀ d, d ∈ node_Dependencies n → is_Some (m !! d) ∧ rank L (label d) < rank L (label id)) →
  ranked L (ef_set_Nodes (<[id := Some n]> m) ef).
Proof.
  intros Hm [_ Hn Hc Hl Hd] Hid Hdeps. rewrite Hm in *. simpl in *.
  assert (∀ v, node_deps (<[id := Some n]> m) v = if decide (v = id) then node_Dependencies n else node_deps m v) as Hnd.
  { intros v. unfold node_deps. case_decide; subst; [by rewrite lookup_insert_eq|by rewrite lookup_insert_ne]. }
  split; simpl.
  - by eexists.
  - intros v [[??]|[??]]%lookup_insert_Some; [done|by eapply Hn].
  - intros v d. rewrite Hnd. rewrite lookup_insert_is_Some'. right.
    case_decide; subst; [by apply Hdeps|by eapply Hc].
  - intros v [<-|[_ ?]]%lookup_insert_is_Some; [done|by apply Hl].
  - intros v d. rewrite Hnd. case_decide; subst; [apply Hdeps|apply Hd].
Qed.

Lemma triple_add_node L name step hosts :
  labelledb L name = true →
  triple F (ranked L) (add_node name step hosts) (λ id ef, ranked L ef ∧ (id = name ∨ id = "")).
Proof.
  intros Hname%bool_decide_eq_true ef Hef. pose proof Hef as [[m Hm] _ _ _ _].
  unfold add_node, ExecutionFragment_AddNode. simpl.
  destruct (decide (name = "")); [by split; [|right]|].
  destruct (decide (is_Some _)); [by split; [|right]|].
  unfold store_node, mbind, M_bind. rewrite Hm. simpl. split; [|by left].
  apply (ranked_insert L ef m); [done..|]. by intros d ?%elem_of_nil.
Qed.

Lemma triple_add_dep L from to :
  forwardb L from to = true → triple F (ranked L) (add_dep from to) (λ _, ranked L).
Proof.
  unfold forwardb, labelledb. intros Hfw ef Hef. pose proof Hef as [[m Hm] Hn Hc Hl Hd].
  unfold add_dep, ExecutionFragment_AddDependency. rewrite Hm in *. simpl in *.
  destruct (decide (from = to)); [done|].
  destruct (m !! from) eqn:Hfrom; [|done]. destruct (m !! to) as [[tgt|]|] eqn:Hto; [| |done].
  2:{ by destruct (Hn to). }
  simpl. destruct (decide (from ∈ node_Dependencies tgt)); [done|]. rewrite Hm. simpl.
  assert (label from ∈ L) by (apply Hl; by eexists). assert (label to ∈ L) as Hlto by (apply Hl; by eexists).
  rewrite !bool_decide_eq_true_2 in Hfw by done. simpl in Hfw. apply bool_decide_eq_true in Hfw.
  apply (ranked_insert L ef m); [done..|]. simpl. intros d [Hin|Hin]%elem_of_app.
  - assert (d ∈ node_deps m to) as Hdep by (unfold node_deps; by rewrite Hto).
    split; [by eapply Hc|by apply Hd].
  - apply list_elem_of_singleton in Hin as ->. split; [by eexists|done].
Qed.

Lemma triple_add_deps L deps :
  forallb (λ '(from, to), forwardb L from to) deps = true →
  triple F (ranked L) (add_deps deps) (λ _, ranked L).
Proof.
  intros Hall. apply triple_foreach. intros [from to] Hin%list_elem_of_In.
  apply triple_add_dep. eapply forallb_forall in Hall; [|done]. done.
Qed.

Lemma ranked_set_ends L ef ens exs : ranked L ef → ranked L (MkFragment (ef_Nodes ef) ens exs (ef_Name ef)).
Proof. by intros [??]. Qed.

Lemma triple_set_entries L ids : triple F (ranked L) (set_entries ids) (λ _, ranked L).
Proof. intros ef Hef. by apply ranked_set_ends. Qed.

Lemma triple_compute_ends `{GoRange} L : triple F (ranked L) compute_ends (λ _, finished L).
Proof.
  intros ef Hef. pose proof Hef as [_ Hn _ _ _]. unfold compute_ends. rewrite calculate_fragment by done.
  split; [by apply ranked_set_ends|by right].
Qed.
End rules.

(** ** What a finished fragment is *)

Lemma ranked_acyclic L ef : ranked L ef → acyclic (node_deps (entries (ef_Nodes ef))).
Proof.
  intros [_ _ _ _ Hd] x Hx.
  assert (∀ u v, tc (before (node_deps (entries (ef_Nodes ef)))) u v → rank L (label u) < rank L (label v)) as Hlt.
  { induction 1 as [u v Huv|u v w Huv _ IH]; [by apply Hd|]. apply Hd in Huv. lia. }
  apply Hlt in Hx. lia.
Qed.

Lemma finished_ends_complete L ef :
  finished L ef → entries (ef_Nodes ef) ≠ ∅ → ends_complete ef.
Proof.
  intros [Hr [?|Hc]] Hne; [done|]. pose proof (ranked_acyclic L ef Hr). destruct Hr.
  apply computed_ends_complete; [|done..]. eapply (computed_fragment_valid ef []); [|done].
  split_and!; [done..|]. by intros ? ?%elem_of_nil.
Qed.

Lemma fresh_new L name : fresh L (NewExecutionFragment name).
Proof.
  split; [|done]. split; simpl.
  - by eexists.
  - intros id. by rewrite lookup_empty.
  - intros id d. unfold node_deps. rewrite lookup_empty. by intros ?%elem_of_nil.
  - intros id. rewrite lookup_empty. by intros [??].
  - intros id d. unfold node_deps. rewrite lookup_empty. by intros ?%elem_of_nil.
Qed.

Lemma fresh_ranked L ef : fresh L ef → ranked L ef.
Proof. by intros []. Qed.

Lemma fresh_finished L ef : fresh L ef → finished L ef.
Proof. intros []. by split; [|left]. Qed.

Lemma triple_fresh {F : Prop} {A} L (m : M ExecutionFragment task_error A) Q :
  triple F (ranked L) m Q → triple F (fresh L) m Q.
Proof. intros Hm ef Hef. by apply Hm, fresh_ranked. Qed.

(** ** Specifications *)

(** The labels of the tasks covered below, in an order that their dependencies
    follow. *)
Definition task_labels (t : task_kind) : option (list string) :=
  match t with
  | BackupPKITask => Some ["BackupPKI"]
  | BackupEtcdTask => Some ["BackupEtcd"]
  | BackupK8sConfigsTask => Some ["BackupK8sConfigs"]
  | RestorePKITask => Some ["RestorePKI"]
  | RestoreEtcdTask _ => Some ["StopEtcd"; "RestoreEtcd"; "StartEtcd"]
  | RestoreK8sConfigsTask => Some ["RestoreK8sConfigs"]
  | CheckClusterHealthTask => Some ["CheckClusterHealth"]
  | CheckAPIServerHealthTask => Some ["VerifyAPIServerHealth"]
  | CheckSchedulerHealthTask => Some ["VerifySchedulerHealth"]
  | CheckControllerManagerHealthTask => Some ["VerifyControllerManagerHealth"]
  | CheckKubeletHealthTask => Some ["VerifyKubeletHealth"]
  | ReconfigureAPIServerTask => Some ["ConfigureAPIServer"; "RestartAPIServer"]
  | ReconfigureSchedulerTask => Some ["ConfigureScheduler"; "RestartScheduler"]
  | ReconfigureControllerManagerTask => Some ["ConfigureControllerManager"; "RestartControllerManager"]
  | ReconfigureKubeletTask => Some ["GenerateKubeletConfig"; "RestartKubelet"]
  | ReconfigureProxyTask => Some ["GenerateProxyConfig"; "RestartProxy"]
  | InstallRegistryTask => Some ["InstallRegistry"]
  | GenerateRegistryConfigTask => Some ["GenerateRegistryConfig"]
  | DistributeRegistryConfigTask => Some ["DistributeRegistryConfig"]
  | SetupRegistryServiceTask => Some ["SetupRegistryService"]
  | StartRegistryServiceTask => Some ["EnableRegistryService"]
  | StopRegistryServiceTask => Some ["StopRegistryService"]
  | DisableRegistryServiceTask => Some ["DisableRegistryService"]
  | RemoveRegistryArtifactsTask => Some ["RemoveRegistryArtifacts"]
  | RemoveRegistryDataTask => Some ["RemoveRegistryData"]
  | CheckConnectivityTask => Some ["CheckConnectivity"]
  | GreetingTask => Some ["PrintWelcomeLogo"]
  | ConfirmTask _ _ _ => Some ["ConfirmActionNode"]
  | ExtractBundleTask _ => Some ["ExtractBundleOnControlNode"]
  | PackageAssetsTask _ => Some ["CompressBundle"]
  | VerifyArtifactsTask => Some []
  | PrepareAssetsTask => Some ["DownloadBinaries"; "DownloadHelmCharts"; "SaveContainerImages"; "DownloadAddonArtifacts"]
  | InstallPrerequisitesTask =>
      Some ["DistributeOfflinePackages"; "ExtractOfflinePackages"; "InstallOfflinePackages"; "InstallOnlinePackages"]
  | InstallToolBinariesTask => Some ["InstallToolBinaries"]
  | PreflightChecksTask =>
      Some ["CheckMinCPUCores"; "CheckMinMemory"; "CheckHostConnectivity"; "CheckDNSConfig"; "CheckRequiredCommands";
            "CheckTimeSync"; "LintClusterSpec"; "CheckVersionCompatibility"]
  | ConfigureHostTask => Some ["SetHostnameFor"; "UpdateEtcHosts"]
  | DisableServicesTask => Some ["DisableSwap"; "DisableSelinux"; "DisableFirewall"]
  | ConfigureKernelTask => Some ["LoadKernelModules"; "ConfigureSysctl"]
  | GenerateEtcdPKITask => Some ["GenerateEtcdCA"; "GenerateEtcdCerts"]
  | CleanEtcdTask => Some ["StopEtcd"; "DisableEtcd"; "RemoveEtcd"; "CleanEtcdFiles"]
  | DeployContainerdTask =>
      Some ["ExtractContainerd"; "ExtractCNI"; "InstallRunc"; "InstallCNI"; "InstallContainerd"; "ConfigureContainerd";
            "InstallContainerdService"; "StartContainerd"]
  | CleanContainerdTask => Some ["StopContainerd"; "DisableContainerd"; "CleanContainerdFiles"]
  | DeployDockerTask =>
      Some ["ExtractDocker"; "ExtractCriDockerd"; "InstallDocker"; "ConfigureDocker"; "InstallDockerService";
            "StartDocker"; "InstallCriDockerd"; "InstallCriDockerdService"; "StartCriDockerd"; "InstallCNIPlugins"]
  | CleanDockerTask =>
      Some ["StopCriDockerd"; "DisableCriDockerd"; "RemoveCriDockerd"; "StopDocker"; "DisableDocker"; "RemoveDocker";
            "CleanDockerFiles"]
  | DeployCrioTask =>
      Some ["ExtractCrio"; "InstallCrio"; "InstallCni"; "InstallCrictl"; "InstallPolicyJson"; "InstallCrioEnv";
            "ConfigureCrio"; "ConfigureRegistries"; "ConfigureAuth"; "InstallCrioService"; "EnableCrio"; "StartCrio"]
  | CleanCrioTask => Some ["StopCrio"; "DisableCrio"; "CleanCrioFiles"]
  | InstallKubeComponentsTask =>
      Some ["InstallKubelet"; "InstallKubeadm"; "InstallKubectl"; "InstallKubeletService"; "InstallKubeletDropin"]
  | BootstrapFirstMasterTask =>
      Some ["GenerateInitConfig"; "KubeadmInit"; "CheckControlPlaneHealth"; "WaitClusterHealthy"; "CopyAdminKubeconfig"]
  | KubeadmJoinMastersTask => Some ["GenerateJoinMasterConfig"; "ExecuteKubeadmJoinMaster"]
  | JoinWorkersTask => Some ["GenerateJoinWorkerConfig"; "ExecuteKubeadmJoinWorker"]
  | ResetNodeTask => Some ["KubeadmReset"]
  | CleanKubernetesTask => Some ["KubeadmReset"]
  | CleanKubeComponentsTask => Some ["CleanKubeComponents"]
  | UpgradeControlPlaneTask _ => Some ["UpgradeFirstMaster"; "UpgradeOtherMasters"]
  | UpgradeWorkersTask _ => Some ["UpgradeWorkers"]
  | InstallKeepalivedTask =>
      Some ["InstallKeepalivedPackage"; "GenerateKeepalivedConfig"; "DeployKeepalivedConfig"; "EnableKeepalivedService";
            "StartKeepalivedService"]
  | UninstallKeepalivedTask =>
      Some ["StopKeepalivedService"; "DisableKeepalivedService"; "RemoveKeepalivedPackage"; "RemoveKeepalivedConfig"]
  | DeployHAProxyAsDaemonTask =>
      Some ["RestartHAProxyService"; "EnableHAProxyService"; "InstallHAProxyPackage"; "CopyHAProxyDaemonConfig";
            "RenderHAProxyDaemonConfig"; "PrepareHaproxyDaemonDirs"]
  | UninstallHAProxyAsDaemonTask => Some ["StopHAProxyService"; "DisableHAProxyService"; "CleanHAProxy"]
  | DeployHAProxyAsStaticPodTask =>
      Some ["CopyHAProxyPodManifest"; "RenderHAProxyPodManifest"; "CopyHAProxyConfig"; "RenderHAProxyConfig";
            "PrepareHaproxyDirs"]
  | CleanHAProxyStaticPodTask => Some ["CleanHAProxyStaticPodResources"]
  | DeployHAProxyOnWorkersTask =>
      Some ["RestartHAProxyWorkerService"; "EnableHAProxyWorkerService"; "CopyHAProxyWorkerService";
            "RenderHAProxyWorkerService"; "CopyHAProxyWorkerConfig"; "RenderHAProxyWorkerConfig";
            "PrepareHaproxyWorkerDirs"]
  | CleanHAProxyOnWorkersTask =>
      Some ["StopHAProxyWorkerService"; "DisableHAProxyWorkerService"; "RemoveHAProxyWorkerConfig";
            "RemoveHAProxyWorkerServiceFile"]
  | DeployNginxAsDaemonTask =>
      Some ["RestartNginxService"; "EnableNginxService"; "InstallNginxPackage"; "CopyNginxDaemonConfig";
            "RenderNginxDaemonConfig"; "PrepareNginxDaemonDirs"]
  | CleanNginxAsDaemonTask => Some ["StopNginxService"; "DisableNginxService"; "CleanNginxPackage"]
  | DeployNginxAsStaticPodTask =>
      Some ["CopyNginxStaticPodManifest"; "RenderNginxStaticPodManifest"; "CopyNginxStaticPodConfig";
            "RenderNginxStaticPodConfig"; "PrepareNginxStaticPodDirs"]
  | CleanNginxStaticPodTask => Some ["CleanNginxStaticPodResources"]
  | DeployNginxOnWorkersTask =>
      Some ["RestartNginxWorkerService"; "EnableNginxWorkerService"; "InstallNginxWorkerPackage";
            "CopyNginxWorkerConfig"; "RenderNginxWorkerConfig"; "PrepareNginxWorkerDirs"]
  | CleanNginxOnWorkersTask =>
      Some ["StopNginxWorkerService"; "DisableNginxWorkerService"; "RemoveNginxWorkerConfig";
            "RemoveNginxWorkerServiceFile"]
  | DeployKubeVipTask => Some ["GenerateKubeVipManifestOnAllMasters"]
  | CleanKubeVipTask => Some ["CleanKubeVipManifestOnAllMasters"]
  | DeployLonghornTask => Some ["GenerateLonghornManifests"; "DistributeLonghorn"; "InstallLonghorn"]
  | CleanLonghornTask => Some ["CleanLonghorn"]
  | DeployNfsTask => Some ["GenerateNFSProvisionerValues"; "DistributeNFSProvisionerArtifacts"; "InstallNFSProvisionerChart"]
  | CleanNfsTask => Some ["UninstallNFSProvisionerRelease"]
  | DeployOpenebsTask => Some ["GenerateOpenEBSValues"; "DistributeOpenEBSArtifacts"; "InstallOpenEBSChart"]
  | CleanOpenebsTask => Some ["UninstallOpenEBSRelease"]
  | InstallNetworkPluginTask =>
      Some ["GenerateCalicoValues"; "DistributeCalico"; "InstallCalico"; "InstallCalicoctl"; "GenerateFlannelManifest";
            "DistributeFlannelManifest"; "InstallFlannel"; "GenerateCiliumManifest"; "DistributeCiliumAssets";
            "InstallCilium"; "GenerateKubeovnValues"; "DistributeKubeovnArtifacts"; "InstallKubeovnChart";
            "GenerateHybridnetValues"; "DistributeHybridnetArtifacts"; "InstallHybridnetChart"; "GenerateMultusValues";
            "DistributeMultusArtifacts"; "InstallMultusChart"]
  | CleanNetworkPluginTask =>
      Some ["RemoveCalico"; "RemoveCalicoctl"; "CleanFlannelFiles"; "CleanCiliumState"; "CleanKubeovn"; "CleanHybridnet";
            "CleanMultus"]
  | DownloadAssetsTask => Some ["DownloadBinaries"]
  | GenerateKubePKITask =>
      Some ["GenerateKubeCAs"; "GenerateKubeComponentCerts"; "GenerateKubeletCerts"; "GenerateKubeProxyCerts"]
  | GenerateControlPlaneKubeconfigsTask => Some ["CreateControllerManagerKubeconfig"; "CreateSchedulerKubeconfig"]
  | GenerateNodePKITask => Some ["GenerateAllKubeletClientCerts"; "GenerateKubeProxyClientCert"]
  | ConfigureControlPlaneTask =>
      Some ["ConfigureKubeAPIServer"; "InstallKubeAPIServerService"; "ConfigureKubeControllerManager";
            "InstallKubeControllerManagerService"; "ConfigureKubeScheduler"; "InstallKubeSchedulerService"]
  | StartControlPlaneTask =>
      Some ["EnableKubeAPIServer"; "RestartKubeAPIServer"; "CheckAPIServerHealth"; "EnableKubeControllerManager";
            "StartKubeControllerManager"; "CheckControllerManagerHealth"; "EnableKubeScheduler"; "StartKubeScheduler";
            "CheckSchedulerHealth"]
  | GenerateAdminKubeconfigTask => Some ["GenerateAdminKubeconfig"]
  | KubexmJoinMastersTask =>
      Some ["DistributeAllCertsToJoinMasters"; "DistributeKubeconfigsToJoinMasters";
            "DistributeKubeletCertsToJoinMasters"; "InstallKubeAPIServerOnJoinMasters";
            "InstallKubeControllerManagerOnJoinMasters"; "InstallKubeSchedulerOnJoinMasters";
            "InstallKubeletOnJoinMasters"; "InstallKubeProxyOnJoinMasters"; "ConfigureKubeAPIServerOnJoinMasters";
            "InstallKubeAPIServerServiceOnJoinMasters"; "ConfigureKubeControllerManagerOnJoinMasters";
            "InstallKubeControllerManagerServiceOnJoinMasters"; "ConfigureKubeSchedulerOnJoinMasters";
            "InstallKubeSchedulerServiceOnJoinMasters"; "CreateKubeletConfigForJoinMasters";
            "InstallKubeletServiceOnJoinMasters"; "InstallKubeletDropInOnJoinMasters";
            "CreateKubeProxyConfigForJoinMasters"; "InstallKubeProxyServiceOnJoinMasters";
            "EnableKubeAPIServerOnJoinMasters"; "RestartKubeAPIServerOnJoinMasters";
            "CheckKubeAPIServerHealthOnJoinMasters"; "EnableKubeControllerManagerOnJoinMasters";
            "StartKubeControllerManagerOnJoinMasters"; "EnableKubeSchedulerOnJoinMasters";
            "StartKubeSchedulerOnJoinMasters"; "EnableKubeletOnJoinMasters"; "StartKubeletOnJoinMasters";
            "EnableKubeProxyOnJoinMasters"; "StartKubeProxyOnJoinMasters"]
  | DeployWorkerNodesTask =>
      Some ["DistributeCACertsToWorkers"; "DistributeKubeletCredentials"; "InstallKubeletBinary";
            "InstallKubeProxyBinary"; "CreateKubeletConfigYAMLForWorkers"; "CreateKubeProxyConfigYAMLForWorkers";
            "InstallKubeletService"; "InstallKubeletDropIn"; "EnableKubeletService"; "StartKubeletService";
            "InstallKubeProxyService"; "EnableKubeProxyService"; "StartKubeProxyService"]
  | _ => None
  end.

Section ready.
Context `{GoRange, Steps}.

(** The builders build, every host is there, and so are the control node and the
    configuration. *)
Record ready (c : Context) : Prop := {
  ready_build sc : ∃ s, Build c sc = Ok s;
  ready_hosts k hri : entries (gl_hostInfoMap (ctx_globals c)) !! k = Some hri → hri_Host hri ≠ None;
  ready_control : is_Some (gl_controlNode (ctx_globals c));
  ready_spec : is_Some (GetClusterConfig c ≫= cl_Spec);
}.

(** A host with the role. *)
Definition has_host (c : Context) (role : string) : Prop := ∃ h, host_with_role role c h.

(** The network plugins that are supported. *)
Definition supported_plugins : list string :=
  [CNITypeCalico; CNITypeFlannel; CNITypeCilium; CNITypeKubeOvn; CNITypeHybridnet; CNITypeMultus].

(** What a task needs besides to plan without an error: the path of a snapshot, a
    host to work on, a builder that builds a step, a supported plugin. *)
Definition can_plan (c : Context) (t : task_kind) : Prop :=
  match t with
  | RestoreEtcdTask path => path ≠ ""
  | DeployContainerdTask | DeployDockerTask | InstallKubeComponentsTask => has_host c RoleMaster ∨ has_host c RoleWorker
  | DeployCrioTask => (has_host c RoleMaster ∨ has_host c RoleWorker) ∧ ∀ sc, Build c sc ≠ Ok None
  | BootstrapFirstMasterTask | KubeadmJoinMastersTask | KubexmJoinMastersTask | GenerateAdminKubeconfigTask
  | DeployLonghornTask | DeployNfsTask | DeployOpenebsTask => has_host c RoleMaster
  | InstallNetworkPluginTask | CleanNetworkPluginTask =>
      has_host c RoleMaster ∧ ∃ plugin, network_plugin c = Ok plugin ∧ plugin ∈ supported_plugins
  | _ => True
  end.

Definition spec_has (c : Context) (P : ClusterSpec → Prop) : Prop :=
  ∃ spec, GetClusterConfig c ≫= cl_Spec = Some spec ∧ P spec.

(** The endpoint says whether high availability is enabled, and has both load
    balancers. *)
Definition ha_written (spec : ClusterSpec) : Prop :=
  ∃ ep ha external internal, spec_ControlPlaneEndpoint spec = Some ep ∧ ep_HighAvailability ep = Some ha ∧
    is_Some (ha_Enabled ha) ∧ ha_External ha = Some external ∧ is_Some (lb_Enabled external) ∧
    ha_Internal ha = Some internal.

(** What a task needs to say whether it is required: the sections of the
    configuration it follows without looking whether they are there. *)
Definition can_answer (c : Context) (t : task_kind) : Prop :=
  match t with
  | DeployContainerdTask | DeployDockerTask | DeployCrioTask =>
      spec_has c (λ spec, is_Some (spec_Kubernetes spec ≫= k8s_ContainerRuntime))
  | InstallNetworkPluginTask | CleanNetworkPluginTask => spec_has c (λ spec, is_Some (spec_Network spec))
  | DeployLonghornTask =>
      spec_has c (λ spec, ∀ storage, spec_Storage spec = Some storage → is_Some (mjoin (st_Longhorn storage)))
  | _ => is_Some (lb_methods t) → spec_has c ha_written
  end.

Definition task_ready (c : Context) (t : task_kind) : Prop := ready c ∧ can_plan c t ∧ can_answer c t.
End ready.

(** ** Rules for what the tasks read *)

Section rules.
Context `{GoRange, Steps}.
Context (c : Context) (F : Prop).
Hypothesis unready : ¬ ready c → F.
Implicit Types (L : list string) (P I : ExecutionFragment → Prop).

Definition all_hosts (hosts : list (option Host)) : Prop := Forall is_Some hosts.

(** A call that gives hosts, none of them nil, in a ready context. *)
Definition gives_hosts (o : outcome task_error (list (option Host))) : Prop :=
  ready c → ∃ hosts, o = Ok hosts ∧ all_hosts hosts.

Lemma hosts_by_role_ready call role : gives_hosts (hosts_by_role call role c).
Proof.
  intros Hr. destruct (GetHostsByRole_run call role c) as (hs & Hrun & Hhs); [apply Hr|].
  exists hs. unfold hosts_by_role. rewrite Hrun. split; [done|].
  apply Forall_forall. intros o Ho. apply Hhs in Ho as (h & -> & _). by eexists.
Qed.

Lemma hosts_by_roles_ready call role1 role2 : gives_hosts (hosts_by_roles call role1 role2 c).
Proof.
  intros Hr. destruct (hosts_by_role_ready call role1 Hr) as (h1 & E1 & H1).
  destruct (hosts_by_role_ready (S call) role2 Hr) as (h2 & E2 & H2).
  exists (h1 ++ h2). unfold hosts_by_roles, mbind, outcome_bind. rewrite E1, E2. split; [done|]. by apply Forall_app.
Qed.

Lemma bind_build {A} P sc (f : option StepRef → M ExecutionFragment task_error A) Q :
  (∀ s, triple F P (f s) Q) → triple F P (build c sc ≫= f) Q.
Proof.
  intros Hf. apply (triple_bind P _ _ (λ _, P)); [|done]. apply triple_lift; [done|].
  intros Hno. apply unready. intros Hr. destruct (ready_build c Hr sc) as [s Hs]. apply (Hno s). by rewrite Hs.
Qed.

Lemma bind_build_nonnil {A} P sc (f : option StepRef → M ExecutionFragment task_error A) Q :
  (Build c sc = Ok None → F) → (∀ s, triple F P (f s) Q) → triple F P (build_nonnil c sc ≫= f) Q.
Proof.
  intros HF Hf ef HP. unfold build_nonnil, build, mbind, M_bind, lift.
  destruct (Build c sc) as [[s|]|e|] eqn:Hs; simpl; [by apply Hf|by apply HF|..].
  all: apply unready; intros Hr; destruct (ready_build c Hr sc) as [s ?]; congruence.
Qed.

Lemma bind_control_node {A} P (f : option Host → M ExecutionFragment task_error A) Q :
  (∀ h, triple F P (f h) Q) → triple F P (control_node c ≫= f) Q.
Proof.
  intros Hf. apply (triple_bind P _ _ (λ _, P)); [|done]. apply triple_lift; [done|].
  intros Hno. apply unready. intros Hr. destruct (ready_control c Hr) as [h Hh]. apply (Hno (Some h)).
  unfold GetControlNode. by rewrite Hh.
Qed.

Lemma bind_lift {A B} P (o : outcome task_error B) (f : B → M ExecutionFragment task_error A) Q :
  (ready c → ∃ b, o = Ok b) → (∀ b, o = Ok b → triple F P (f b) Q) → triple F P (lift o ≫= f) Q.
Proof.
  intros Ho Hf ef HP. unfold mbind, M_bind, lift. destruct o as [b|e|]; [by apply Hf| |];
    (apply unready; intros Hr; by destruct (Ho Hr)).
Qed.

Lemma config_spec_ready : ready c → ∃ spec, config_spec c = Ok spec (E := task_error).
Proof. intros Hr. unfold config_spec. destruct (ready_spec c Hr) as [spec ->]. by eexists. Qed.

Lemma backup_dir_ready : ready c → ∃ dir, backup_dir c = Ok dir.
Proof.
  intros Hr. unfold backup_dir. destruct (ready_spec c Hr) as [spec Hs].
  destruct (GetClusterConfig c); [by eexists|done].
Qed.

Lemma pki_source_ready : ready c → ∃ dir, pki_source c = Ok dir.
Proof. intros Hr. unfold pki_source. destruct (config_spec_ready Hr) as [spec ->]. by eexists. Qed.

Lemma bind_deref_host {A} P (o : option Host) (f : Host → M ExecutionFragment task_error A) Q :
  (ready c → is_Some o) → (∀ h, o = Some h → triple F P (f h) Q) → triple F P (deref o ≫= f) Q.
Proof.
  intros Ho Hf ef HP. unfold mbind, M_bind, deref. destruct o as [h|]; [by apply Hf|].
  apply unready. intros Hr. by destruct (Ho Hr).
Qed.

(** ** Rules for the shapes of the bodies *)

Lemma triple_unless_no_hosts L o body :
  gives_hosts o →
  (∀ hosts, hosts ≠ [] → (ready c → all_hosts hosts) → triple F (fresh L) (body hosts) (λ _, finished L)) →
  triple F (fresh L) (unless_no_hosts o body) (λ _, finished L).
Proof.
  intros Ho Hb. apply bind_lift; [intros Hr; destruct (Ho Hr) as (hs & -> & _); eauto|].
  intros hosts ->. case_decide as Hl; [apply triple_ret; by apply fresh_finished|].
  apply Hb; [by intros ->|]. intros Hr. by destruct (Ho Hr) as (? & [= ->] & ?).
Qed.

Lemma triple_require_hosts L task o body :
  gives_hosts o → (o = Ok [] → F) →
  (∀ hosts, hosts ≠ [] → (ready c → all_hosts hosts) → triple F (fresh L) (body hosts) (λ _, finished L)) →
  triple F (fresh L) (require_hosts task o body) (λ _, finished L).
Proof.
  intros Ho Hnone Hb. apply bind_lift; [intros Hr; destruct (Ho Hr) as (hs & -> & _); eauto|].
  intros hosts ->. case_decide as Hl; [intros ef _; apply Hnone; by destruct hosts|].
  apply Hb; [by intros ->|]. intros Hr. by destruct (Ho Hr) as (? & [= ->] & ?).
Qed.

(** A context without a host of the role. *)
Lemma no_hosts_by_role call role : ready c → hosts_by_role call role c = Ok [] → ¬ has_host c role.
Proof.
  intros Hr Ho [h Hh]. destruct (GetHostsByRole_run call role c) as (hs & Hrun & Hhs); [apply Hr|].
  unfold hosts_by_role in Ho. rewrite Hrun in Ho. injection Ho as ->.
  assert (Some h ∈ []) as ?%elem_of_nil by (apply Hhs; eauto). done.
Qed.

Lemma no_hosts_by_roles call role1 role2 :
  ready c → hosts_by_roles call role1 role2 c = Ok [] → ¬ (has_host c role1 ∨ has_host c role2).
Proof.
  intros Hr Ho. destruct (hosts_by_role_ready call role1 Hr) as (h1 & E1 & _).
  destruct (hosts_by_role_ready (S call) role2 Hr) as (h2 & E2 & _).
  unfold hosts_by_roles in Ho. rewrite E1 in Ho. simpl in Ho. rewrite E2 in Ho. simpl in Ho.
  injection Ho as [-> ->]%app_eq_nil. intros [?|?];
    [by apply (no_hosts_by_role call role1)|by apply (no_hosts_by_role (S call) role2)].
Qed.

Lemma bind_first {A} P (hosts : list (option Host)) (f : option Host → M ExecutionFragment task_error A) Q :
  (hosts = [] → F) → (∀ h, triple F P (f h) Q) → triple F P (deref (hosts !! 0) ≫= f) Q.
Proof. intros Hnil Hf ef HP. destruct hosts as [|h hosts]; [by apply Hnil|]. by apply (Hf h ef HP). Qed.

Lemma triple_per_host L hosts body :
  (ready c → all_hosts hosts) → (∀ h, triple F (ranked L) (body h) (λ _, ranked L)) →
  triple F (fresh L) (per_host hosts body) (λ _, finished L).
Proof.
  intros Hall Hb. apply triple_fresh.
  apply (triple_bind _ _ _ (λ ids ef, ranked L ef ∧ Forall (λ _, True) ids)).
  - apply triple_collect. intros o Ho. apply bind_deref_host.
    + intros Hr. by eapply Forall_forall in Ho; [|by apply Hall].
    + intros h _. eapply triple_conseq; [apply (Hb h)|done|done].
  - intros ids. apply (triple_bind _ _ _ (λ _, ranked L)); [|intros; apply triple_compute_ends].
    eapply triple_conseq; [apply triple_set_entries|by intros ? []|done].
Qed.

Lemma triple_on_first P hosts body Q :
  hosts ≠ [] → (ready c → all_hosts hosts) → (∀ h, triple F P (body h) Q) → triple F P (on_first hosts body) Q.
Proof.
  intros Hne Hall Hb. destruct hosts as [|o hosts]; [done|].
  change (triple F P (deref o ≫= body) Q). apply bind_deref_host; [|by intros].
  intros Hr. apply Hall in Hr. by inversion Hr.
Qed.

Lemma bind_add_node {A} L name step hosts (f : NodeID → M ExecutionFragment task_error A) Q :
  labelledb L name = true → (∀ id, id = name ∨ id = "" → triple F (ranked L) (f id) Q) →
  triple F (ranked L) (add_node name step hosts ≫= f) Q.
Proof.
  intros Hl Hf. eapply triple_bind; [by apply triple_add_node|]. intros id ef [Hef Hid]. by apply (Hf id).
Qed.

Lemma bind_ranked {A} L (m : M ExecutionFragment task_error unit) (f : unit → M ExecutionFragment task_error A) Q :
  triple F (ranked L) m (λ _, ranked L) → triple F (ranked L) (f tt) Q → triple F (ranked L) (m ≫= f) Q.
Proof. intros Hm Hf. eapply triple_bind; [done|]. by intros []. Qed.

Lemma triple_single_node L name step hosts :
  labelledb L name = true → triple F (fresh L) (single_node name step hosts) (λ _, finished L).
Proof.
  intros Hl. apply triple_fresh. apply bind_add_node; [done|]. intros id _.
  apply bind_ranked; [apply triple_set_entries|apply triple_compute_ends].
Qed.

Lemma triple_return_node L name step hosts :
  labelledb L name = true → triple F (ranked L) (add_node name step hosts) (λ _, ranked L).
Proof. intros Hl. eapply triple_conseq; [by apply triple_add_node|done|by intros ?? []]. Qed.
End rules.
