(* ===== verification/TaskContracts.v ===== *)
(** Every task with labelled nodes keeps the promise of [TaskSpec.v], by the rules for its
    body. *)
From S2P Require Import Prelude.
From S2P Require Import Values.
From S2P Require Import Plan.
From S2P Require Import Sequence.
From S2P Require Import Cluster.
From S2P Require Import Context.
From S2P Require Import Task.
From S2P Require Import PreflightTasks.
From S2P Require Import OperationTasks.
From S2P Require Import NodeTasks.
From S2P Require Import LoadBalancerTasks.
From S2P Require Import ServiceTasks.
From S2P Require Import KubexmTasks.
From S2P Require Import Module.
From S2P Require Import Tasks.
From S2P Require Import ModuleSpec.
From S2P Require Import TaskSpec.

Section contracts.
Context `{GoRange, Steps}.

(** A plan is a finished fragment with the labels [L]; it only fails when [F]. *)
Definition contract (F : Prop) (L : list string) (planned : outcome task_error (option ExecutionFragment)) : Prop :=
  match planned with Ok o => ∃ ef, o = Some ef ∧ finished L ef | _ => F end.

Lemma plan_fragment_contract (F : Prop) L name body :
  triple F (fresh L) body (λ _, finished L) → contract F L (plan_fragment name body).
Proof.
  intros Hb. specialize (Hb _ (fresh_new L name)). unfold plan_fragment, run_body, contract.
  destruct (body _) as [[[]|e|] ef]; [by eexists|done..].
Qed.

Context (c : Context) (F : Prop) (unready : ¬ ready c → F).

(** One step of a body. *)
Ltac step :=
  match goal with
  | |- triple _ _ (build _ _ ≫= _) _ => apply bind_build; [exact unready|intros ?]
  | |- triple _ _ (control_node _ ≫= _) _ => apply bind_control_node; [exact unready|intros ?]
  | |- triple _ (fresh _) (unless_no_hosts _ _) _ =>
      apply (triple_unless_no_hosts c); [exact unready|first [apply hosts_by_role_ready|apply hosts_by_roles_ready]|intros ???]
  | |- triple _ (fresh _) (per_host _ _) _ => apply (triple_per_host c); [exact unready|assumption|intros ?]
  | |- triple _ _ (on_first _ _) _ => apply (triple_on_first c); [exact unready|assumption|assumption|intros ?]
  | |- triple _ _ (lift (backup_dir _) ≫= _) _ =>
      apply (bind_lift c); [exact unready|apply backup_dir_ready|intros ??]
  | |- triple _ _ (lift (pki_source _) ≫= _) _ =>
      apply (bind_lift c); [exact unready|apply pki_source_ready|intros ??]
  | |- triple _ _ (lift (config_spec _) ≫= _) _ =>
      apply (bind_lift c); [exact unready|apply config_spec_ready|intros ??]
  | |- triple _ _ (single_node _ _ _) _ => apply triple_single_node; reflexivity
  | |- triple _ (fresh _) (add_node _ _ _ ≫= _) _ => apply triple_fresh
  | |- triple _ (ranked _) (add_node _ _ _ ≫= _) _ => apply bind_add_node; [reflexivity|intros ??]
  | |- triple _ (ranked _) (add_node _ _ _) _ => apply triple_return_node; reflexivity
  | |- triple _ (ranked _) (add_dep _ _ ≫= _) _ => apply bind_ranked; [step|]
  | |- triple _ (ranked _) (add_deps _ ≫= _) _ => apply bind_ranked; [step|]
  | |- triple _ (ranked _) (add_deps _) _ => apply triple_add_deps; vm_compute; reflexivity
  | |- triple _ (ranked _) (add_dep _ _) _ =>
      apply triple_add_dep; destruct_or?; subst; vm_compute; reflexivity
  | |- triple _ (fresh _) compute_ends _ => apply triple_fresh
  | |- triple _ (ranked _) compute_ends _ => apply triple_compute_ends
  | |- triple _ (ranked _) (mret _) _ => apply triple_ret; by intros
  | |- triple _ (fresh _) (mret _) _ => apply triple_ret; by intros ?? %fresh_finished
  | |- triple _ (ranked _) (if _ then _ else _) _ => case_match
  | |- triple _ (ranked _) ((if _ then _ else _) ≫= _) _ => apply bind_ranked; [step|]
  end.

Ltac steps := repeat (cbv beta iota zeta; step).
Ltac plan := apply plan_fragment_contract; steps.

(** ** Operations *)

Lemma named_host_node_triple L builder prefix h :
  (∀ x, labelledb L (prefix +:+ x) = true) →
  triple F (ranked L) (named_host_node c builder prefix h) (λ _, ranked L).
Proof. intros Hl. unfold named_host_node, host_node. steps. by apply triple_return_node. Qed.

Lemma host_node_triple L builder instance prefix h :
  (∀ x, labelledb L (prefix +:+ x) = true) →
  triple F (ranked L) (host_node c builder instance prefix h) (λ _, ranked L).
Proof. intros Hl. unfold host_node. steps. by apply triple_return_node. Qed.

Lemma configure_and_restart_triple L builder prefix service restart h :
  (∀ x, labelledb L (prefix +:+ x) = true) → (∀ x, labelledb L (restart +:+ x) = true) →
  labelledb L "" = false → (∀ x y, forwardb L (prefix +:+ x) (restart +:+ y) = true) →
  triple F (ranked L) (configure_and_restart c builder prefix service restart h) (λ _, ranked L).
Proof.
  intros Hp Hr Hnil Hfw. unfold configure_and_restart. steps.
  apply bind_add_node; [done|]. intros id1 Hid1. steps. apply bind_add_node; [done|]. intros id2 Hid2.
  apply bind_ranked; [|steps]. apply triple_add_dep.
  destruct Hid1, Hid2; subst; try apply Hfw; unfold forwardb; by rewrite Hnil, ?orb_true_r.
Qed.

Ltac host_nodes := plan; first [apply named_host_node_triple|apply host_node_triple]; reflexivity.
Ltac configures := plan; apply configure_and_restart_triple; [reflexivity|reflexivity|reflexivity|intros; vm_compute; reflexivity].

(** The labels of a task. *)
Definition labels_of (t : task_kind) : list string := default [] (task_labels t).

Definition keeps (t : task_kind) (planned : outcome task_error (option ExecutionFragment)) : Prop :=
  contract F (labels_of t) planned.

Lemma BackupPKI_keeps : keeps BackupPKITask (BackupPKITask_Plan c).
Proof. plan. Qed.

Lemma BackupEtcd_keeps : keeps BackupEtcdTask (BackupEtcdTask_Plan c).
Proof. plan. Qed.

Lemma BackupK8sConfigs_keeps : keeps BackupK8sConfigsTask (BackupK8sConfigsTask_Plan c).
Proof. host_nodes. Qed.

Lemma RestorePKI_keeps : keeps RestorePKITask (RestorePKITask_Plan c).
Proof. host_nodes. Qed.

Lemma RestoreEtcd_keeps path : (path = "" → F) → keeps (RestoreEtcdTask path) (RestoreEtcdTask_Plan path c).
Proof.
  intros Hpath. plan. unfold restore_etcd_host. case_decide; [by apply triple_lift; [|intros; apply Hpath]|]. steps.
Qed.

Lemma RestoreK8sConfigs_keeps : keeps RestoreK8sConfigsTask (RestoreK8sConfigsTask_Plan c).
Proof. host_nodes. Qed.

Lemma CheckClusterHealth_keeps : keeps CheckClusterHealthTask (CheckClusterHealthTask_Plan c).
Proof. plan. Qed.

Lemma CheckAPIServerHealth_keeps : keeps CheckAPIServerHealthTask (CheckAPIServerHealthTask_Plan c).
Proof. host_nodes. Qed.

Lemma CheckSchedulerHealth_keeps : keeps CheckSchedulerHealthTask (CheckSchedulerHealthTask_Plan c).
Proof. host_nodes. Qed.

Lemma CheckControllerManagerHealth_keeps :
  keeps CheckControllerManagerHealthTask (CheckControllerManagerHealthTask_Plan c).
Proof. host_nodes. Qed.

Lemma CheckKubeletHealth_keeps : keeps CheckKubeletHealthTask (CheckKubeletHealthTask_Plan c).
Proof. host_nodes. Qed.

Lemma ReconfigureAPIServer_keeps : keeps ReconfigureAPIServerTask (ReconfigureAPIServerTask_Plan c).
Proof. configures. Qed.

Lemma ReconfigureScheduler_keeps : keeps ReconfigureSchedulerTask (ReconfigureSchedulerTask_Plan c).
Proof. configures. Qed.

Lemma ReconfigureControllerManager_keeps :
  keeps ReconfigureControllerManagerTask (ReconfigureControllerManagerTask_Plan c).
Proof. configures. Qed.

Lemma ReconfigureKubelet_keeps : keeps ReconfigureKubeletTask (ReconfigureKubeletTask_Plan c).
Proof. configures. Qed.

Lemma ReconfigureProxy_keeps : keeps ReconfigureProxyTask (ReconfigureProxyTask_Plan c).
Proof. configures. Qed.

Lemma InstallRegistry_keeps : keeps InstallRegistryTask (InstallRegistryTask_Plan c).
Proof. host_nodes. Qed.

Lemma GenerateRegistryConfig_keeps : keeps GenerateRegistryConfigTask (GenerateRegistryConfigTask_Plan c).
Proof. plan. Qed.

Lemma DistributeRegistryConfig_keeps : keeps DistributeRegistryConfigTask (DistributeRegistryConfigTask_Plan c).
Proof. host_nodes. Qed.

Lemma SetupRegistryService_keeps : keeps SetupRegistryServiceTask (SetupRegistryServiceTask_Plan c).
Proof. host_nodes. Qed.

Lemma StartRegistryService_keeps : keeps StartRegistryServiceTask (StartRegistryServiceTask_Plan c).
Proof. host_nodes. Qed.

Lemma StopRegistryService_keeps : keeps StopRegistryServiceTask (StopRegistryServiceTask_Plan c).
Proof. host_nodes. Qed.

Lemma DisableRegistryService_keeps : keeps DisableRegistryServiceTask (DisableRegistryServiceTask_Plan c).
Proof. host_nodes. Qed.

Lemma RemoveRegistryArtifacts_keeps : keeps RemoveRegistryArtifactsTask (RemoveRegistryArtifactsTask_Plan c).
Proof. host_nodes. Qed.

Lemma RemoveRegistryData_keeps : keeps RemoveRegistryDataTask (RemoveRegistryDataTask_Plan c).
Proof. host_nodes. Qed.

(** ** Preflight *)

Lemma same_address_ready h hosts : all_hosts hosts → ∃ b, same_address h hosts = Ok b.
Proof.
  induction 1 as [|o hosts [ah ->] _ IH]; simpl; [by eexists|]. case_decide; [by eexists|done].
Qed.

Lemma add_etcd_hosts_ready etcd hosts :
  all_hosts etcd → all_hosts hosts → ∃ all, add_etcd_hosts etcd hosts = Ok all ∧ all_hosts all.
Proof.
  intros He. revert hosts. induction He as [|o etcd [h ->] _ IH]; intros hosts Hh; simpl; [by eexists|].
  destruct (same_address_ready h hosts Hh) as [b Hb]. rewrite Hb. simpl.
  destruct (IH (if b : bool then hosts else hosts ++ [Some h])) as (all & Hall & Hok).
  { destruct b; [done|]. apply Forall_app. split; [done|]. by repeat constructor. }
  exists all. by destruct b.
Qed.

Lemma getAllHosts_ready : gives_hosts c (CheckConnectivityTask_getAllHosts c).
Proof.
  intros Hr. unfold CheckConnectivityTask_getAllHosts.
  destruct (hosts_by_role_ready c 200 RoleMaster Hr) as (h1 & -> & H1).
  destruct (hosts_by_role_ready c 201 RoleWorker Hr) as (h2 & E2 & H2).
  destruct (hosts_by_role_ready c 202 RoleEtcd Hr) as (h3 & E3 & H3).
  destruct (hosts_by_role_ready c 203 RoleLoadBalancer Hr) as (h4 & E4 & H4).
  destruct (add_etcd_hosts_ready h3 (h1 ++ h2)) as (h5 & E5 & H5); [done|by apply Forall_app|].
  exists (h5 ++ h4). unfold mbind, outcome_bind. rewrite E2, E3, E5, E4. split; [done|]. by apply Forall_app.
Qed.

Lemma CheckConnectivity_keeps : keeps CheckConnectivityTask (CheckConnectivityTask_Plan c).
Proof.
  unfold CheckConnectivityTask_Plan, keeps. pose proof getAllHosts_ready as Hall.
  unfold mbind at 1, outcome_bind at 1. destruct (CheckConnectivityTask_getAllHosts c) as [hosts|e|].
  2,3: apply unready; intros Hr; by destruct (Hall Hr) as (? & ? & _).
  assert (ready c → all_hosts hosts) by (intros Hr; by destruct (Hall Hr) as (? & [= <-] & ?)).
  case_decide; [|plan]. eexists. split; [done|]. apply fresh_finished, fresh_new.
Qed.

Lemma Greeting_keeps : keeps GreetingTask (GreetingTask_Plan c).
Proof. plan. Qed.

Lemma Confirm_keeps name prompt assumeYes :
  keeps (ConfirmTask name prompt assumeYes) (ConfirmTask_Plan name prompt assumeYes c).
Proof. plan. Qed.

Lemma ExtractBundle_keeps path : keeps (ExtractBundleTask path) (ExtractBundleTask_Plan path c).
Proof. plan. Qed.

Lemma PackageAssets_keeps path : keeps (PackageAssetsTask path) (PackageAssetsTask_Plan path c).
Proof. plan. Qed.

Lemma VerifyArtifacts_keeps : keeps VerifyArtifactsTask (VerifyArtifactsTask_Plan c).
Proof. plan. Qed.

Lemma download_addon_triple L hosts a :
  (∀ x, labelledb L ("DownloadAddonArtifacts-" +:+ x) = true) →
  triple F (ranked L) (download_addon c hosts a) (λ _, ranked L).
Proof.
  intros Hl. unfold download_addon. case_decide; [by apply triple_ret|].
  destruct (hasRemoteSource a); [|by apply triple_ret]. steps.
  apply bind_add_node; [done|]. intros. by apply triple_ret.
Qed.

Lemma PrepareAssets_keeps : keeps PrepareAssetsTask (PrepareAssetsTask_Plan c).
Proof.
  plan. apply bind_ranked; [|steps]. apply triple_foreach. intros a _. apply download_addon_triple. reflexivity.
Qed.

Lemma InstallPrerequisites_keeps : keeps InstallPrerequisitesTask (InstallPrerequisitesTask_Plan c).
Proof. plan. apply triple_fresh. steps. Qed.

Lemma InstallToolBinaries_keeps : keeps InstallToolBinariesTask (InstallToolBinariesTask_Plan c).
Proof. plan. Qed.

Lemma PreflightChecks_keeps : keeps PreflightChecksTask (PreflightChecksTask_Plan c).
Proof. plan. Qed.

(** ** Load balancers *)

Lemma InstallKeepalived_keeps : keeps InstallKeepalivedTask (InstallKeepalivedTask_Plan c).
Proof. plan. Qed.

Lemma DeployHAProxyAsDaemon_keeps : keeps DeployHAProxyAsDaemonTask (DeployHAProxyAsDaemonTask_Plan c).
Proof. plan. Qed.

Lemma DeployNginxAsDaemon_keeps : keeps DeployNginxAsDaemonTask (DeployNginxAsDaemonTask_Plan c).
Proof. plan. Qed.

Lemma DeployKubeVip_keeps : keeps DeployKubeVipTask (DeployKubeVipTask_Plan c).
Proof. plan. Qed.

Lemma DeployHAProxyOnWorkers_keeps : keeps DeployHAProxyOnWorkersTask (DeployHAProxyOnWorkersTask_Plan c).
Proof. plan. Qed.

Lemma DeployHAProxyAsStaticPod_keeps : keeps DeployHAProxyAsStaticPodTask (DeployHAProxyAsStaticPodTask_Plan c).
Proof. plan. Qed.

Lemma DeployNginxOnWorkers_keeps : keeps DeployNginxOnWorkersTask (DeployNginxOnWorkersTask_Plan c).
Proof. plan. Qed.

Lemma DeployNginxAsStaticPod_keeps : keeps DeployNginxAsStaticPodTask (DeployNginxAsStaticPodTask_Plan c).
Proof. plan. Qed.

Lemma UninstallHAProxyAsDaemon_keeps : keeps UninstallHAProxyAsDaemonTask (UninstallHAProxyAsDaemonTask_Plan c).
Proof. plan. Qed.

Lemma UninstallKeepalived_keeps : keeps UninstallKeepalivedTask (UninstallKeepalivedTask_Plan c).
Proof. plan. Qed.

Lemma CleanNginxAsDaemon_keeps : keeps CleanNginxAsDaemonTask (CleanNginxAsDaemonTask_Plan c).
Proof. plan. Qed.

Lemma CleanKubeVip_keeps : keeps CleanKubeVipTask (CleanKubeVipTask_Plan c).
Proof. plan. Qed.

Lemma CleanHAProxyOnWorkers_keeps : keeps CleanHAProxyOnWorkersTask (CleanHAProxyOnWorkersTask_Plan c).
Proof. plan. Qed.

Lemma CleanHAProxyStaticPod_keeps : keeps CleanHAProxyStaticPodTask (CleanHAProxyStaticPodTask_Plan c).
Proof. plan. Qed.

Lemma CleanNginxOnWorkers_keeps : keeps CleanNginxOnWorkersTask (CleanNginxOnWorkersTask_Plan c).
Proof. plan. Qed.

Lemma CleanNginxStaticPod_keeps : keeps CleanNginxStaticPodTask (CleanNginxStaticPodTask_Plan c).
Proof. plan. Qed.

(** ** Nodes *)

(** What is wanting when a task that requires it fails. *)
Hypothesis no_master : (ready c → ¬ has_host c RoleMaster) → F.
Hypothesis no_node : (ready c → ¬ (has_host c RoleMaster ∨ has_host c RoleWorker)) → F.
Hypothesis no_step : (¬ ∀ sc, Build c sc ≠ Ok None) → F.
Hypothesis no_plugin : (¬ ∃ plugin, network_plugin c = Ok plugin ∧ plugin ∈ supported_plugins) → F.

Lemma no_master_hosts call : hosts_by_role call RoleMaster c = Ok [] → F.
Proof. intros Ho. apply no_master. intros Hr. by eapply no_hosts_by_role. Qed.

Lemma no_node_hosts call : masters_and_workers call c = Ok [] → F.
Proof. intros Ho. apply no_node. intros Hr. by eapply no_hosts_by_roles. Qed.

Lemma no_built_step sc : Build c sc = Ok None → F.
Proof. intros Hs. apply no_step. intros Hall. by apply (Hall sc). Qed.

Ltac node_step :=
  match goal with
  | |- triple _ (fresh _) (require_hosts _ _ _) _ =>
      apply (triple_require_hosts c); [exact unready|first [apply hosts_by_role_ready|apply hosts_by_roles_ready]|
        first [exact (no_master_hosts _)|exact (no_node_hosts _)]|intros ???]
  | |- triple _ _ (build_nonnil _ _ ≫= _) _ => apply (bind_build_nonnil c); [exact unready|apply no_built_step|intros ?]
  | |- triple _ _ (deref (?hosts !! 0) ≫= _) _ =>
      apply bind_first; [first [done|by intros ->; eapply no_master_hosts]|intros ?]
  | |- triple _ _ (lift (hosts_by_role _ _ _) ≫= _) _ =>
      apply (bind_lift c); [exact unready|
        intros Hr; edestruct hosts_by_role_ready as (? & ? & _); [exact Hr|by eexists]|intros ??]
  | |- triple _ (fresh _) (simple_node _ _ _ _ ≫= _) _ => apply triple_fresh, bind_ranked; [unfold simple_node|]
  | |- triple _ (fresh _) (if _ then _ else _) _ => first [case_decide|case_match]
  end.

Ltac node_plan := apply plan_fragment_contract; repeat (cbv beta iota zeta; first [progress steps|node_step]).

Lemma ConfigureHost_keeps : keeps ConfigureHostTask (ConfigureHostTask_Plan c).
Proof.
  node_plan. apply triple_fresh.
  apply (triple_bind _ _ _ (λ ids ef, ranked (labels_of ConfigureHostTask) ef ∧
    Forall (λ id, forwardb (labels_of ConfigureHostTask) id "UpdateEtcHosts" = true) ids)).
  - apply triple_collect. intros o Ho. unfold set_hostname. apply (bind_deref_host c); [exact unready| |intros h _].
    { intros Hr. match goal with Hall : ready c → all_hosts _ |- _ => by apply (proj1 (Forall_forall _ _) (Hall Hr)) end. }
    steps. eapply triple_conseq; [apply (triple_add_node (labels_of ConfigureHostTask)); reflexivity|done|].
    intros id ef [? Hid]. split; [done|]. destruct Hid; subst; vm_compute; reflexivity.
  - intros ids ef [Hef Hids]. revert ef Hef.
    change (triple F (ranked (labels_of ConfigureHostTask)) (updateEtcHostsStep ← build c (call "UpdateEtcHosts" "UpdateEtcHosts");
      updateEtcHostsNodeID ← add_node "UpdateEtcHosts" updateEtcHostsStep hosts;
      _ ← foreach ids (λ exitNodeID, add_dep exitNodeID updateEtcHostsNodeID); compute_ends) (λ _, finished (labels_of ConfigureHostTask))).
    steps. apply bind_ranked; [|steps]. apply triple_foreach. intros v Hv. apply triple_add_dep.
    pose proof (proj1 (Forall_forall _ _) Hids v Hv) as Hfw. destruct_or?; subst; [done|].
    unfold forwardb. by rewrite orb_true_r.
Qed.

Lemma DisableServices_keeps : keeps DisableServicesTask (DisableServicesTask_Plan c).
Proof. node_plan. Qed.

Lemma ConfigureKernel_keeps : keeps ConfigureKernelTask (ConfigureKernelTask_Plan c).
Proof. node_plan. Qed.

Lemma GenerateEtcdPKI_keeps : keeps GenerateEtcdPKITask (GenerateEtcdPKITask_Plan c).
Proof. node_plan. Qed.

Lemma CleanEtcd_keeps : keeps CleanEtcdTask (CleanEtcdTask_Plan c).
Proof. node_plan. Qed.

Lemma DeployContainerd_keeps : keeps DeployContainerdTask (DeployContainerdTask_Plan c).
Proof. node_plan. Qed.

Lemma CleanContainerd_keeps : keeps CleanContainerdTask (CleanContainerdTask_Plan c).
Proof. node_plan. Qed.

Lemma DeployDocker_keeps : keeps DeployDockerTask (DeployDockerTask_Plan c).
Proof. node_plan. Qed.

Lemma CleanDocker_keeps : keeps CleanDockerTask (CleanDockerTask_Plan c).
Proof. node_plan. Qed.

Lemma DeployCrio_keeps : keeps DeployCrioTask (DeployCrioTask_Plan c).
Proof. node_plan. Qed.

Lemma CleanCrio_keeps : keeps CleanCrioTask (CleanCrioTask_Plan c).
Proof. node_plan. Qed.

Lemma InstallKubeComponents_keeps : keeps InstallKubeComponentsTask (InstallKubeComponentsTask_Plan c).
Proof. node_plan. Qed.

Lemma BootstrapFirstMaster_keeps : keeps BootstrapFirstMasterTask (BootstrapFirstMasterTask_Plan c).
Proof. node_plan. Qed.

Lemma KubeadmJoinMasters_keeps : keeps KubeadmJoinMastersTask (KubeadmJoinMastersTask_Plan c).
Proof. node_plan. Qed.

Lemma JoinWorkers_keeps : keeps JoinWorkersTask (JoinWorkersTask_Plan c).
Proof. node_plan. Qed.

Lemma ResetNode_keeps : keeps ResetNodeTask (ResetNodeTask_Plan c).
Proof. node_plan. Qed.

Lemma CleanKubernetes_keeps : keeps CleanKubernetesTask (CleanKubernetesTask_Plan c).
Proof. node_plan. Qed.

Lemma CleanKubeComponents_keeps : keeps CleanKubeComponentsTask (CleanKubeComponentsTask_Plan c).
Proof. node_plan. Qed.

Lemma UpgradeControlPlane_keeps version : keeps (UpgradeControlPlaneTask version) (UpgradeControlPlaneTask_Plan c).
Proof. node_plan. Qed.

Lemma UpgradeWorkers_keeps version : keeps (UpgradeWorkersTask version) (UpgradeWorkersTask_Plan c).
Proof. node_plan. Qed.
(** ** Services and the deployment from binaries *)

Lemma InstallNetworkPlugin_keeps : keeps InstallNetworkPluginTask (InstallNetworkPluginTask_Plan c).
Proof.
  unfold keeps, InstallNetworkPluginTask_Plan. unfold mbind at 1, outcome_bind at 1.
  destruct (network_plugin c) as [plugin|e|] eqn:Hplugin; [|apply no_plugin; by intros (? & ? & _)..].
  repeat (case_decide; [node_plan|]). apply no_plugin. intros (? & [= <-] & Hin). unfold supported_plugins in Hin. rewrite !elem_of_cons, elem_of_nil in Hin. tauto.
Qed.

Lemma plan_clean_triple L builder name hosts :
  labelledb L name = true → triple F (ranked L) (plan_clean c builder name hosts) (λ _, finished L).
Proof. intros Hl. unfold plan_clean. steps. apply bind_add_node; [done|]. intros. steps. Qed.

Lemma CleanNetworkPlugin_keeps : keeps CleanNetworkPluginTask (CleanNetworkPluginTask_Plan c).
Proof.
  unfold keeps, CleanNetworkPluginTask_Plan. unfold mbind at 1, outcome_bind at 1.
  destruct (network_plugin c) as [plugin|e|] eqn:Hplugin; [|apply no_plugin; by intros (? & ? & _)..].
  node_plan; apply triple_fresh; [unfold planCalico; steps|apply plan_clean_triple; reflexivity..|].
  apply triple_lift; [done|]. intros _. apply no_plugin. intros (? & [= <-] & Hin). unfold supported_plugins in Hin. rewrite !elem_of_cons, elem_of_nil in Hin. tauto.
Qed.

Lemma DeployLonghorn_keeps : keeps DeployLonghornTask (DeployLonghornTask_Plan c).
Proof. node_plan. Qed.

Lemma DeployNfs_keeps : keeps DeployNfsTask (DeployNfsTask_Plan c).
Proof. node_plan. Qed.

Lemma DeployOpenebs_keeps : keeps DeployOpenebsTask (DeployOpenebsTask_Plan c).
Proof. node_plan. Qed.

Lemma CleanLonghorn_keeps : keeps CleanLonghornTask (CleanLonghornTask_Plan c).
Proof. node_plan. Qed.

Lemma CleanNfs_keeps : keeps CleanNfsTask (CleanNfsTask_Plan c).
Proof. node_plan. Qed.

Lemma CleanOpenebs_keeps : keeps CleanOpenebsTask (CleanOpenebsTask_Plan c).
Proof. node_plan. Qed.

Lemma DownloadAssets_keeps : keeps DownloadAssetsTask (DownloadAssetsTask_Plan c).
Proof. node_plan. Qed.

Lemma GenerateKubePKI_keeps : keeps GenerateKubePKITask (GenerateKubePKITask_Plan c).
Proof. node_plan. Qed.

Lemma GenerateControlPlaneKubeconfigs_keeps : keeps GenerateControlPlaneKubeconfigsTask (GenerateControlPlaneKubeconfigsTask_Plan c).
Proof. node_plan. Qed.

Lemma GenerateNodePKI_keeps : keeps GenerateNodePKITask (GenerateNodePKITask_Plan c).
Proof. node_plan. Qed.

Lemma ConfigureControlPlane_keeps : keeps ConfigureControlPlaneTask (ConfigureControlPlaneTask_Plan c).
Proof. node_plan. Qed.

Lemma StartControlPlane_keeps : keeps StartControlPlaneTask (StartControlPlaneTask_Plan c).
Proof. node_plan. Qed.

Lemma GenerateAdminConfig_keeps : keeps GenerateAdminKubeconfigTask (GenerateAdminConfigTask_Plan c).
Proof. node_plan. Qed.

Lemma KubexmJoinMasters_keeps : keeps KubexmJoinMastersTask (KubexmJoinMastersTask_Plan c).
Proof. node_plan. Qed.

Lemma DeployWorkerNodes_keeps : keeps DeployWorkerNodesTask (DeployWorkerNodesTask_Plan c).
Proof. node_plan. Qed.

End contracts.

(** ** All the tasks *)

Section tasks.
Context `{GoRange, Steps}.
Implicit Types (c : Context) (t : task_kind).

Definition plan_ready c t : Prop := ready c ∧ can_plan c t.

(** What is wanting contradicts what the task needs. *)
Ltac wanting := intros Hno [Hr' Hp]; cbn [can_plan] in Hp; tauto.

#[local] Opaque keeps.

Lemma methods_keep c t tm :
  methods_of t = Some tm → is_Some (task_labels t) → keeps (¬ plan_ready c t) t (tm_Plan tm c).
Proof.
  intros Htm [L HL]. assert (¬ ready c → ¬ plan_ready c t) as Hr by (by intros Hr [? _]).
  destruct t; try discriminate Htm; try discriminate HL; injection Htm as <-; simpl;
    lazymatch goal with
    | |- keeps _ ?t _ =>
        try (assert ((ready c → ¬ has_host c RoleMaster) → ¬ plan_ready c t) as Hmaster by wanting);
        try (assert ((ready c → ¬ (has_host c RoleMaster ∨ has_host c RoleWorker)) → ¬ plan_ready c t) as Hnode by wanting);
        try (assert ((¬ ∀ sc, Build c sc ≠ Ok None) → ¬ plan_ready c t) as Hstep by wanting);
        try (assert ((¬ ∃ plugin, network_plugin c = Ok plugin ∧ plugin ∈ supported_plugins) → ¬ plan_ready c t)
          as Hplugin by wanting)
    end.
  all: eauto 3 using BackupPKI_keeps, BackupEtcd_keeps, BackupK8sConfigs_keeps, RestorePKI_keeps,
    RestoreK8sConfigs_keeps, CheckClusterHealth_keeps, CheckAPIServerHealth_keeps, CheckSchedulerHealth_keeps,
    CheckControllerManagerHealth_keeps, CheckKubeletHealth_keeps, ReconfigureAPIServer_keeps,
    ReconfigureScheduler_keeps, ReconfigureControllerManager_keeps, ReconfigureKubelet_keeps, ReconfigureProxy_keeps,
    InstallRegistry_keeps, GenerateRegistryConfig_keeps, DistributeRegistryConfig_keeps, SetupRegistryService_keeps,
    StartRegistryService_keeps, StopRegistryService_keeps, DisableRegistryService_keeps,
    RemoveRegistryArtifacts_keeps, RemoveRegistryData_keeps.
  all: eauto 3 using CheckConnectivity_keeps, Greeting_keeps, Confirm_keeps, ExtractBundle_keeps, PackageAssets_keeps,
    VerifyArtifacts_keeps, PrepareAssets_keeps, InstallPrerequisites_keeps, InstallToolBinaries_keeps,
    PreflightChecks_keeps, ConfigureHost_keeps, DisableServices_keeps, ConfigureKernel_keeps, GenerateEtcdPKI_keeps,
    CleanEtcd_keeps, DeployContainerd_keeps, CleanContainerd_keeps, DeployDocker_keeps, CleanDocker_keeps,
    DeployCrio_keeps, CleanCrio_keeps.
  all: eauto 3 using InstallKubeComponents_keeps, BootstrapFirstMaster_keeps, KubeadmJoinMasters_keeps,
    JoinWorkers_keeps, ResetNode_keeps, CleanKubernetes_keeps, CleanKubeComponents_keeps, UpgradeControlPlane_keeps,
    UpgradeWorkers_keeps.
  all: eauto 3 using InstallKeepalived_keeps, DeployHAProxyAsDaemon_keeps, DeployNginxAsDaemon_keeps, DeployKubeVip_keeps,
    DeployHAProxyOnWorkers_keeps, DeployHAProxyAsStaticPod_keeps, DeployNginxOnWorkers_keeps,
    DeployNginxAsStaticPod_keeps, UninstallHAProxyAsDaemon_keeps, UninstallKeepalived_keeps,
    CleanNginxAsDaemon_keeps, CleanKubeVip_keeps, CleanHAProxyOnWorkers_keeps, CleanHAProxyStaticPod_keeps,
    CleanNginxOnWorkers_keeps, CleanNginxStaticPod_keeps.
  all: eauto 3 using InstallNetworkPlugin_keeps, CleanNetworkPlugin_keeps, DeployLonghorn_keeps, DeployNfs_keeps,
    DeployOpenebs_keeps, CleanLonghorn_keeps, CleanNfs_keeps, CleanOpenebs_keeps.
  all: eauto 3 using DownloadAssets_keeps, GenerateKubePKI_keeps, GenerateControlPlaneKubeconfigs_keeps, GenerateNodePKI_keeps,
    ConfigureControlPlane_keeps, StartControlPlane_keeps, GenerateAdminConfig_keeps, KubexmJoinMasters_keeps,
    DeployWorkerNodes_keeps.
  (* the snapshot of [RestoreEtcdTask] *)
  eapply RestoreEtcd_keeps; [done|]. by intros -> [_ ?].
Qed.

Lemma any_host_ready c o : gives_hosts c o → ready c → ∃ b, any_host o = Ok b.
Proof. intros Ho Hr. destruct (Ho Hr) as (hosts & -> & _). by eexists. Qed.

Lemma config_ready c {A} (f : ClusterSpec → outcome task_error A) :
  (∀ spec, ∃ a, f spec = Ok a) → ready c → ∃ a, (config_spec c ≫= f) = Ok a.
Proof. intros Hf Hr. destruct (config_spec_ready c Hr) as [spec ->]. apply Hf. Qed.

Lemma more_hosts_ready c n o : gives_hosts c o → ready c → ∃ b, more_hosts_than n o = Ok b.
Proof. intros Ho Hr. destruct (Ho Hr) as (hosts & -> & _). by eexists. Qed.

Lemma masters_and_ready c call role : ready c → ∃ b, masters_and call role c = Ok b.
Proof.
  intros Hr. unfold masters_and. destruct (more_hosts_ready c 1 _ (hosts_by_role_ready c call RoleMaster) Hr) as [b ->].
  simpl. destruct b; [|by eexists]. apply (any_host_ready c); [apply hosts_by_role_ready|done].
Qed.

(** The answer of the tasks of load balancers, once the endpoint is written. *)
Lemma lb_answers c t tm : lb_methods t = Some tm → ready c → spec_has c ha_written → ∃ b, tm_IsRequired tm c = Ok b.
Proof.
  intros Htm Hr (spec & Hs & ep & ha & ext & int & Hep & Hha & [en Hen] & Hext & [een Heen] & Hint).
  assert (config_spec c = Ok spec (E := task_error)) as Hspec by (unfold config_spec; by rewrite Hs).
  assert (high_availability c = Ok (Some ha)) as Hhigh.
  { unfold high_availability. rewrite Hspec. simpl. rewrite Hep. simpl. by rewrite Hha. }
  assert (∃ b, by_kubexm c = Ok b) as [kubexm Hk] by (unfold by_kubexm; rewrite Hspec; by eexists).
  assert (is_true_ptr (ha_Enabled ha) = en) as Htrue by (rewrite Hen; by destruct en).
  destruct t; try discriminate Htm; injection Htm as <-; simpl;
    unfold UninstallKeepalivedTask_IsRequired,
      UninstallHAProxyAsDaemonTask_IsRequired, DeployHAProxyAsDaemonTask_IsRequired, DeployNginxAsDaemonTask_IsRequired,
      DeployKubeVipTask_IsRequired, DeployHAProxyOnWorkersTask_IsRequired, DeployHAProxyAsStaticPodTask_IsRequired,
      DeployNginxOnWorkersTask_IsRequired, DeployNginxAsStaticPodTask_IsRequired, CleanNginxAsDaemonTask_IsRequired,
      CleanKubeVipTask_IsRequired, CleanHAProxyOnWorkersTask_IsRequired, CleanHAProxyStaticPodTask_IsRequired,
      CleanNginxOnWorkersTask_IsRequired, CleanNginxStaticPodTask_IsRequired,
      InstallKeepalivedTask_IsRequired, InstallHAProxyAsDaemonTask_IsRequired.
  all: rewrite ?Hhigh, ?Hspec; simpl; rewrite ?Hep; simpl; rewrite ?Hha; simpl;
    rewrite ?Hext, ?Hint, ?Hen; simpl; rewrite ?Heen; simpl;
    repeat (case_match; simpl; rewrite ?Hk; simpl).
  all: first [by eexists|by apply masters_and_ready|apply (more_hosts_ready c); [apply hosts_by_role_ready|done]
    |apply (any_host_ready c); [apply hosts_by_role_ready|done]].
  Unshelve. all: exact true.
Qed.

Lemma runtime_answers c type :
  spec_has c (λ spec, is_Some (spec_Kubernetes spec ≫= k8s_ContainerRuntime)) → ∃ b, runtime_is type c = Ok b.
Proof.
  intros (spec & Hs & [cr Hcr]). unfold runtime_is, config_spec. rewrite Hs. simpl.
  destruct (spec_Kubernetes spec) as [k|]; [|done]. simpl in *. rewrite Hcr. by eexists.
Qed.

Lemma network_answers c :
  spec_has c (λ spec, is_Some (spec_Network spec)) →
  ∃ b, (plugin ← network_plugin c; Ok (bool_decide (plugin ≠ "")) : outcome task_error bool) = Ok b.
Proof.
  intros (spec & Hs & [network Hn]). unfold network_plugin, config_spec. rewrite Hs. simpl. rewrite Hn. by eexists.
Qed.

Lemma methods_answer c t tm :
  methods_of t = Some tm → is_Some (task_labels t) → ready c → can_answer c t → ∃ b, tm_IsRequired tm c = Ok b.
Proof.
  intros Htm [L HL] Hr Hcan.
  destruct (lb_methods t) as [tm'|] eqn:Hlb.
  { assert (tm' = tm) as -> by (by destruct t; try discriminate Hlb; injection Hlb as <-; injection Htm as <-).
    apply (lb_answers c t tm Hlb Hr). destruct t; try discriminate Hlb; apply Hcan; by eexists. }
  destruct t; try discriminate Htm; try discriminate HL; try discriminate Hlb; clear Hlb; injection Htm as <-; simpl;
    try (by eexists);
    try (by apply (any_host_ready c); [first [apply hosts_by_role_ready|apply hosts_by_roles_ready]|]);
    try (by apply (more_hosts_ready c); [apply hosts_by_role_ready|]);
    try (apply (config_ready c); [|done]; intros spec; by eexists).
  - apply (config_ready c); [|done]. intros spec. case_match; by eexists.
  - by apply runtime_answers.
  - by apply runtime_answers.
  - by apply runtime_answers.
  - by apply network_answers.
  - by apply network_answers.
  - apply (config_ready c); [|done]. intros spec. case_decide; [by eexists|]. apply (any_host_ready c); [apply hosts_by_role_ready|done].
  - unfold InstallRegistryTask_IsRequired. destruct (hosts_by_role_ready c 248 RoleRegistry Hr) as (hosts & -> & _).
    simpl. case_decide; [|by eexists]. destruct (GetClusterConfig c); [|by eexists].
    apply (config_ready c); [|done]. intros spec. by eexists.
  - destruct Hcan as (spec & Hs & Hst). unfold DeployLonghornTask_IsRequired, config_spec. rewrite Hs. simpl.
    destruct (spec_Storage spec) as [storage|]; [|by eexists]. destruct (Hst storage eq_refl) as [enabled He].
    destruct (st_Longhorn storage) as [o|]; [|done]. simpl in He. rewrite He. by eexists.
Qed.

(** ** The promise *)

(** Reading the label of a node off a finished fragment. *)
Lemma finished_label L ef id : finished L ef → is_Some (entries (ef_Nodes ef) !! id) → label id ∈ L.
Proof. intros [Hr _]. by apply Hr. Qed.

#[local] Transparent keeps.

(** What [Plan] of a modelled task gives: an error or a panic only when the task
    is not ready; else a fragment without nodes, or one whose dependencies are
    acyclic and stay inside, that names all its first and last nodes. *)
Lemma plan_kept c t tm L :
  methods_of t = Some tm → task_labels t = Some L →
  match tm_Plan tm c with
  | Ok o => ∃ ef, o = Some ef ∧ (∀ id, is_Some (entries (ef_Nodes ef) !! id) → label id ∈ L) ∧
      (entries (ef_Nodes ef) = ∅ ∨ ends_complete ef)
  | _ => ¬ plan_ready c t
  end.
Proof.
  intros Htm HL. pose proof (methods_keep c t tm Htm) as Hk.
  unfold keeps, labels_of, contract in Hk. rewrite HL in Hk. specialize (Hk ltac:(by eexists)).
  destruct (tm_Plan tm c); [|done..]. destruct Hk as (ef & -> & Hf). exists ef. split; [done|].
  split; [by intros id; apply finished_label|].
  destruct (decide (entries (ef_Nodes ef) = ∅)); [by left|right]. by eapply finished_ends_complete.
Qed.
End tasks.
