(* ===== verification/TaskRuns.v ===== *)
(** The order in which the nodes of a task run: the bodies that only add named
    nodes and dependencies are run step by step, which gives the fragment they
    plan exactly. *)
From S2P Require Import Prelude.
From S2P Require Import Values.
From S2P Require Import Plan.
From S2P Require Import GraphSpec.
From S2P Require Import FragmentSpec.
From S2P Require Import Cluster.
From S2P Require Import Context.
From S2P Require Import Task.
From S2P Require Import LoadBalancerTasks.
From S2P Require Import Module.
From S2P Require Import Tasks.
From S2P Require Import ModuleSpec.
From S2P Require Import TaskSpec.

(** ** Specifications *)

(** The nodes of [order] and no others, each on its hosts, each waiting for the one
    before it and for nothing else. *)
Record chained (order : list (NodeID * list (option Host))) (m : node_map) : Prop := {
  chained_nodup : NoDup order.*1;
  chained_nodes id : is_Some (m !! id) ↔ id ∈ order.*1;
  chained_hosts id hosts : (id, hosts) ∈ order → ∃ n, m !! id = Some (Some n) ∧ node_Hosts n = Some hosts;
  chained_first first : head order.*1 = Some first → node_deps m first = [];
  chained_next i x y : order.*1 !! i = Some x → order.*1 !! S i = Some y → node_deps m y = [x];
}.

(** Besides, the first node is the only entry and the last one the only exit. *)
Definition runs_in_order (order : list (NodeID * list (option Host))) (ef : ExecutionFragment) : Prop :=
  chained order (entries (ef_Nodes ef)) ∧
  ef_EntryNodes ef = option_list (head order.*1) ∧ ef_ExitNodes ef = option_list (last order.*1).

(** Every node on the same hosts. *)
Definition all_on (hosts : list (option Host)) (ids : list NodeID) : list (NodeID * list (option Host)) :=
  (λ id, (id, hosts)) <$> ids.

(** The tasks of the load balancer modules: the role of the hosts they ask the
    context for, and the order in which their nodes run. *)
Definition lb_run (t : task_kind) : option (nat * string * list NodeID) :=
  match t with
  | InstallKeepalivedTask =>
      Some (310, RoleLoadBalancer, ["InstallKeepalivedPackage"; "GenerateKeepalivedConfig";
            "DeployKeepalivedConfig"; "EnableKeepalivedService"; "StartKeepalivedService"])
  | DeployHAProxyAsDaemonTask =>
      Some (318, RoleLoadBalancer, ["RestartHAProxyService"; "EnableHAProxyService"; "InstallHAProxyPackage";
            "CopyHAProxyDaemonConfig"; "RenderHAProxyDaemonConfig"; "PrepareHaproxyDaemonDirs"])
  | DeployNginxAsDaemonTask =>
      Some (324, RoleLoadBalancer, ["RestartNginxService"; "EnableNginxService"; "InstallNginxPackage";
            "CopyNginxDaemonConfig"; "RenderNginxDaemonConfig"; "PrepareNginxDaemonDirs"])
  | DeployKubeVipTask =>
      Some (330, RoleMaster, ["GenerateKubeVipManifestOnAllMasters"])
  | DeployHAProxyOnWorkersTask =>
      Some (322, RoleWorker, ["RestartHAProxyWorkerService"; "EnableHAProxyWorkerService";
            "CopyHAProxyWorkerService"; "RenderHAProxyWorkerService"; "CopyHAProxyWorkerConfig";
            "RenderHAProxyWorkerConfig"; "PrepareHaproxyWorkerDirs"])
  | DeployHAProxyAsStaticPodTask =>
      Some (320, RoleWorker, ["CopyHAProxyPodManifest"; "RenderHAProxyPodManifest"; "CopyHAProxyConfig";
            "RenderHAProxyConfig"; "PrepareHaproxyDirs"])
  | DeployNginxOnWorkersTask =>
      Some (328, RoleWorker, ["RestartNginxWorkerService"; "EnableNginxWorkerService"; "InstallNginxWorkerPackage";
            "CopyNginxWorkerConfig"; "RenderNginxWorkerConfig"; "PrepareNginxWorkerDirs"])
  | DeployNginxAsStaticPodTask =>
      Some (326, RoleWorker, ["CopyNginxStaticPodManifest"; "RenderNginxStaticPodManifest";
            "CopyNginxStaticPodConfig"; "RenderNginxStaticPodConfig"; "PrepareNginxStaticPodDirs"])
  | UninstallHAProxyAsDaemonTask =>
      Some (313, RoleLoadBalancer, ["StopHAProxyService"; "DisableHAProxyService"; "CleanHAProxy"])
  | UninstallKeepalivedTask =>
      Some (311, RoleLoadBalancer, ["StopKeepalivedService"; "DisableKeepalivedService"; "RemoveKeepalivedPackage";
            "RemoveKeepalivedConfig"])
  | CleanNginxAsDaemonTask =>
      Some (325, RoleLoadBalancer, ["StopNginxService"; "DisableNginxService"; "CleanNginxPackage"])
  | CleanKubeVipTask =>
      Some (331, RoleMaster, ["CleanKubeVipManifestOnAllMasters"])
  | CleanHAProxyOnWorkersTask =>
      Some (323, RoleWorker, ["StopHAProxyWorkerService"; "DisableHAProxyWorkerService";
            "RemoveHAProxyWorkerConfig"; "RemoveHAProxyWorkerServiceFile"])
  | CleanHAProxyStaticPodTask =>
      Some (321, RoleWorker, ["CleanHAProxyStaticPodResources"])
  | CleanNginxOnWorkersTask =>
      Some (329, RoleWorker, ["StopNginxWorkerService"; "DisableNginxWorkerService"; "RemoveNginxWorkerConfig";
            "RemoveNginxWorkerServiceFile"])
  | CleanNginxStaticPodTask =>
      Some (327, RoleWorker, ["CleanNginxStaticPodResources"])
  | _ => None
  end.

(** ** Running a body *)

(** The dependency added to the map. *)
Definition link (m : node_map) (from to : NodeID) : node_map :=
  match m !! to with
  | Some (Some n) => <[to := Some (set_Dependencies (node_Dependencies n ++ [from]) n)]> m
  | _ => m
  end.

(** The ends are there, and it is not yet. *)
Definition linkable (m : node_map) (from to : NodeID) : bool :=
  bool_decide (from ≠ to) && bool_decide (is_Some (m !! from)) &&
  match m !! to with Some (Some n) => bool_decide (from ∉ node_Dependencies n) | _ => false end.

Fixpoint link_all (m : node_map) (deps : list (NodeID * NodeID)) : node_map :=
  match deps with [] => m | (from, to) :: deps => link_all (link m from to) deps end.

Fixpoint all_linkable (m : node_map) (deps : list (NodeID * NodeID)) : bool :=
  match deps with
  | [] => true
  | (from, to) :: deps => linkable m from to && all_linkable (link m from to) deps
  end.

Section running.
Context `{GoRange, Steps}.
Implicit Types (m : node_map).

(** A fragment without ends. *)
Definition bare (m : node_map) (name : string) : ExecutionFragment := MkFragment (Some m) [] [] name.

Lemma run_build {A} c sc s (f : option StepRef → M ExecutionFragment task_error A) ef :
  Build c sc = Ok s → (build c sc ≫= f) ef = f s ef.
Proof. intros Hs. unfold build, lift, mbind, M_bind. by rewrite Hs. Qed.

Lemma run_add_node {A} m fname name step hosts (f : NodeID → M ExecutionFragment task_error A) :
  bool_decide (name ≠ "") && bool_decide (m !! name = None) = true →
  (add_node name step hosts ≫= f) (bare m fname) = f name (bare (<[name := Some (new_node name step hosts)]> m) fname).
Proof.
  intros [Hname%bool_decide_eq_true Hm%bool_decide_eq_true]%andb_true_iff.
  unfold mbind, M_bind, add_node, ExecutionFragment_AddNode. simpl.
  rewrite decide_False by done. rewrite decide_False by (rewrite Hm; by intros [? ?]). done.
Qed.

Lemma add_dep_link m fname from to :
  linkable m from to = true → add_dep from to (bare m fname) = (Ok tt, bare (link m from to) fname).
Proof.
  unfold linkable, link, add_dep, ExecutionFragment_AddDependency.
  intros [[Hne%bool_decide_eq_true [x Hx]%bool_decide_eq_true]%andb_true_iff Hto]%andb_true_iff.
  rewrite decide_False by done. simpl. rewrite Hx. destruct (m !! to) as [[n|]|]; [|done..].
  apply bool_decide_eq_true in Hto. simpl. by rewrite decide_False.
Qed.

Lemma run_add_deps {A} m fname deps (f : unit → M ExecutionFragment task_error A) :
  all_linkable m deps = true → (add_deps deps ≫= f) (bare m fname) = f tt (bare (link_all m deps) fname).
Proof.
  unfold mbind, M_bind, add_deps. revert m.
  induction deps as [|[from to] deps IH]; intros m; simpl; [done|].
  intros [Hl Hrest]%andb_true_iff. unfold mbind, M_bind. rewrite add_dep_link by done. by apply IH.
Qed.

Lemma run_add_dep {A} m fname from to (f : unit → M ExecutionFragment task_error A) :
  linkable m from to = true → (add_dep from to ≫= f) (bare m fname) = f tt (bare (link m from to) fname).
Proof. intros Hl. unfold mbind, M_bind. by rewrite add_dep_link. Qed.

Lemma run_compute_ends m fname :
  nodes_nonnil m →
  compute_ends (bare m fname) = (Ok tt, MkFragment (Some m) (fragment_entries m) (fragment_exits m) fname).
Proof. intros Hm. unfold compute_ends. by rewrite calculate_fragment. Qed.

Lemma run_with_hosts {A} (o : outcome task_error (list (option Host))) hosts
    (f : list (option Host) → M ExecutionFragment task_error A) ef :
  o = Ok hosts → (lift o ≫= f) ef = f hosts ef.
Proof. by intros ->. Qed.

(** ** Checking the order *)

Definition orderedb (order : list NodeID) m : bool :=
  bool_decide (NoDup order) && bool_decide ((map_to_list m).*1 ≡ₚ order) &&
  forallb (λ x, bool_decide (node_deps m x = [])) (option_list (head order)) &&
  forallb (λ '(x, y), bool_decide (node_deps m y = [x])) (zip order (tail order)).

Lemma orderedb_chained order hosts m :
  orderedb order m = true →
  Forall (λ '(_, n), n ≫= node_Hosts = Some hosts) (map_to_list m) → chained (all_on hosts order) m.
Proof.
  unfold orderedb. rewrite !andb_true_iff, !bool_decide_eq_true. intros [[[Hnd Hperm] Hfirst] Hnext] Hhosts.
  assert ((all_on hosts order).*1 = order) as Hids.
  { unfold all_on. rewrite <-list_fmap_compose. apply list_fmap_id. }
  assert (∀ id, is_Some (m !! id) ↔ id ∈ order) as Hdom.
  { intros id. rewrite <-Hperm, list_elem_of_fmap. split.
    - intros [n Hn]. exists (id, n). split; [done|]. by apply elem_of_map_to_list.
    - intros ([? n] & -> & Hin). exists n. by apply elem_of_map_to_list. }
  split; rewrite ?Hids; [done|done| | |].
  - intros id hs (id' & [= <- <-] & Hin)%list_elem_of_fmap. apply Hdom in Hin as [o Ho].
    apply elem_of_map_to_list in Ho as Ho'. apply (proj1 (Forall_forall _ _) Hhosts) in Ho'.
    destruct o as [n|]; [|done]. by exists n.
  - intros first Hh. rewrite Hh in Hfirst. simpl in Hfirst. rewrite andb_true_r in Hfirst.
    by apply bool_decide_eq_true in Hfirst.
  - intros i x y Hx Hy.
    assert ((x, y) ∈ zip order (tail order)) as Hin%list_elem_of_In.
    { apply list_elem_of_lookup. exists i. apply lookup_zip_Some. split; [done|].
      destruct order as [|o order]; [done|]. exact Hy. }
    eapply forallb_forall in Hnext; [|exact Hin]. by apply bool_decide_eq_true in Hnext.
Qed.

(** ** The ends of a chain *)

Lemma chained_position order m id :
  chained order m → is_Some (m !! id) → ∃ i, order.*1 !! i = Some id.
Proof. intros Hc Hid. by apply list_elem_of_lookup, Hc. Qed.

Lemma sorted_ids_one (f : NodeID → bool) m x :
  (∀ id, is_Some (m !! id) → f id = true ↔ id = x) → is_Some (m !! x) → sorted_ids m f = [x].
Proof.
  intros Hf Hx. change [x] with (sort_strings [x]). unfold sorted_ids. apply sorted_ids_unique.
  - apply NoDup_filter, NoDup_fst_map_to_list.
  - apply NoDup_singleton.
  - intros id. rewrite list_elem_of_filter, elem_of_map_keys, list_elem_of_singleton. split.
    + intros [Hid Hin]. apply Hf; [done|]. by apply Is_true_eq_true.
    + intros ->. split; [|done]. apply Is_true_eq_left. by apply Hf.
Qed.

Lemma chained_entry order m x : chained order m → head order.*1 = Some x → fragment_entries m = [x].
Proof.
  intros Hc Hx. unfold fragment_entries. apply sorted_ids_one.
  2:{ apply Hc. destruct order; [done|]. injection Hx as <-. left. }
  intros id Hid. unfold no_inner_deps. destruct (chained_position order m id Hc Hid) as [[|i] Hi].
  - rewrite head_lookup, Hi in Hx. injection Hx as ->. rewrite (chained_first _ _ Hc x); [done|].
    by rewrite head_lookup.
  - destruct (lookup_lt_is_Some_2 order.*1 i) as [y Hy]; [apply lookup_lt_Some in Hi; lia|].
    rewrite (chained_next _ _ Hc i y id Hy Hi). unfold any_existing. simpl. rewrite bool_decide_eq_true_2.
    + split; [done|]. intros ->. rewrite head_lookup in Hx.
      by pose proof (NoDup_lookup _ _ _ _ (chained_nodup _ _ Hc) Hx Hi).
    + apply Hc. by apply list_elem_of_lookup_2 in Hy.
Qed.

Lemma chained_exit order m x : chained order m → last order.*1 = Some x → fragment_exits m = [x].
Proof.
  intros Hc Hx. rewrite last_lookup in Hx. unfold fragment_exits. apply sorted_ids_one.
  2:{ apply Hc. by apply list_elem_of_lookup_2 in Hx. }
  intros id Hid. unfold no_dependents. rewrite forallb_forall.
  destruct (chained_position order m id Hc Hid) as [i Hi]. split.
  - intros Hno. destruct (decide (S i = length order.*1)) as [Hl|Hl]; [rewrite <-Hl in Hx; simpl in Hx; congruence|].
    destruct (lookup_lt_is_Some_2 order.*1 (S i)) as [y Hy]; [apply lookup_lt_Some in Hi; lia|].
    exfalso. assert (bool_decide (id ∉ node_deps m y) = true) as Hn%bool_decide_eq_true.
    { apply Hno, list_elem_of_In, elem_of_map_keys, Hc. by apply list_elem_of_lookup_2 in Hy. }
    apply Hn. rewrite (chained_next _ _ Hc i id y Hi Hy). left.
  - intros -> y Hy%list_elem_of_In%elem_of_map_keys. apply bool_decide_eq_true. intros Hin.
    destruct (chained_position order m y Hc Hy) as [[|j] Hj].
    + rewrite (chained_first _ _ Hc y) in Hin; [by apply elem_of_nil in Hin|]. by rewrite head_lookup.
    + destruct (lookup_lt_is_Some_2 order.*1 j) as [z Hz]; [apply lookup_lt_Some in Hj; lia|].
      rewrite (chained_next _ _ Hc j z y Hz Hj) in Hin. apply list_elem_of_singleton in Hin as <-.
      pose proof (NoDup_lookup _ _ _ _ (chained_nodup _ _ Hc) Hx Hz). apply lookup_lt_Some in Hj. lia.
Qed.

Lemma chained_runs order m fname :
  chained order m → order ≠ [] →
  runs_in_order order (MkFragment (Some m) (fragment_entries m) (fragment_exits m) fname).
Proof.
  intros Hc Hne. split; [done|]. simpl. destruct order as [|o order]; [done|].
  rewrite (chained_entry _ _ o.1 Hc) by done. split; [done|].
  destruct (last (o :: order).*1) as [x|] eqn:Hl; [by apply (chained_exit (o :: order))|].
  by apply last_None in Hl.
Qed.

Lemma chained_nonnil order m : chained order m → nodes_nonnil m.
Proof.
  intros Hc id Hid. assert (id ∈ order.*1) as ([id' hs] & Heq & Hin)%list_elem_of_fmap by (apply Hc; by eexists).
  simpl in Heq. subst id'. destruct (chained_hosts _ _ Hc _ _ Hin) as (n & Hn & _). congruence.
Qed.

(** ** Tasks that have nothing to do without hosts *)

Lemma plan_without_hosts name o body :
  o = Ok [] → plan_fragment name (unless_no_hosts o body) = Ok (Some (NewExecutionFragment name)).
Proof. by intros ->. Qed.

Lemma plan_with_hosts name o hosts body m :
  o = Ok hosts → hosts ≠ [] → nodes_nonnil m →
  body hosts (bare ∅ name) = compute_ends (bare m name) →
  plan_fragment name (unless_no_hosts o body) =
    Ok (Some (MkFragment (Some m) (fragment_entries m) (fragment_exits m) name)).
Proof.
  intros -> Hne Hm Hb. unfold plan_fragment, run_body, unless_no_hosts, lift, mbind, M_bind.
  rewrite decide_False by (by destruct hosts). change (NewExecutionFragment name) with (bare ∅ name).
  by rewrite Hb, run_compute_ends.
Qed.
End running.

(** The run ends by computing the entry and exit nodes of nodes with [P]. *)
Definition reaches `{GoRange} (fname : string) (r : outcome task_error unit * ExecutionFragment) (P : node_map → Prop) : Prop :=
  ∃ m, r = compute_ends (bare m fname) ∧ P m.

(** One step of a body in a ready context. *)
Ltac run_step Hr :=
  lazymatch goal with
  | |- reaches _ ((build ?c ?sc ≫= _) _) _ =>
      let s := fresh "s" in let Hs := fresh in
      destruct (ready_build c Hr sc) as [s Hs]; rewrite (run_build c sc s _ _ Hs); clear Hs; cbv beta zeta
  | |- reaches _ ((add_node _ _ _ ≫= _) _) _ => rewrite run_add_node by (vm_compute; reflexivity); cbv beta
  | |- reaches _ ((add_deps _ ≫= _) _) _ => rewrite run_add_deps by (vm_compute; reflexivity); cbv beta
  | |- reaches _ ((add_dep _ _ ≫= _) _) _ => rewrite run_add_dep by (vm_compute; reflexivity); cbv beta
  end.

Section load_balancers.
Context `{GoRange, Steps}.

(** What a task of the table plans. *)
Definition runs (order : list NodeID) (o : outcome task_error (list (option Host)))
    (planned : outcome task_error (option ExecutionFragment)) : Prop :=
  ∀ hosts, o = Ok hosts → ∃ ef, planned = Ok (Some ef) ∧
    (hosts = [] → entries (ef_Nodes ef) = ∅) ∧ (hosts ≠ [] → runs_in_order (all_on hosts order) ef).

Lemma runs_intro name order o body :
  (∀ hosts, hosts ≠ [] → reaches name (body hosts (bare ∅ name)) (chained (all_on hosts order))) →
  order ≠ [] → runs order o (plan_fragment name (unless_no_hosts o body)).
Proof.
  intros Hb Hne0 hosts Ho. destruct (decide (hosts = [])) as [->|Hne].
  - eexists. split; [by apply plan_without_hosts|]. by split.
  - destruct (Hb hosts Hne) as (m & Hrun & Hc). eexists. split.
    + eapply plan_with_hosts; [done..|by eapply chained_nonnil|exact Hrun].
    + split; [done|]. intros _. apply chained_runs; [done|]. by intros ?%fmap_nil_inv.
Qed.

Ltac ordered Hr :=
  apply runs_intro; [intros hosts _|done]; repeat run_step Hr; eexists; split; [reflexivity|];
  apply orderedb_chained; [vm_compute; reflexivity|vm_compute; repeat constructor].

Lemma lb_runs c t tm call role order :
  ready c → lb_run t = Some (call, role, order) → methods_of t = Some tm →
  runs order (hosts_by_role call role c) (tm_Plan tm c).
Proof.
  intros Hr Ht Htm.
  destruct t; try discriminate Ht; injection Ht as <- <- <-; injection Htm as <-; ordered Hr.
Qed.

(** The tasks of the load balancer modules in any ready context, whatever the
    other tasks do: the task always plans a fragment, without nodes when no host has
    the role; else its nodes are exactly those of the table, each on all the hosts
    of the role, and they run one after another in the order of the table.  In that
    order the six tasks that deploy HAProxy and Nginx restart the service, or copy
    its manifest, first, and prepare the directories of its configuration last. *)
Theorem load_balancer_tasks_run (other : Tasks) c t call role order hosts :
  ready c → lb_run t = Some (call, role, order) → hosts_by_role call role c = Ok hosts →
  ∃ ef, @task_Plan (Kubexm_Tasks other) t (RuntimeContext c) = Ok (Some ef) ∧
    (hosts = [] → entries (ef_Nodes ef) = ∅) ∧ (hosts ≠ [] → runs_in_order (all_on hosts order) ef).
Proof.
  intros Hr Ht Hh. assert (∃ tm, methods_of t = Some tm) as [tm Htm] by (destruct t; try discriminate Ht; by eexists).
  destruct (lb_runs c t tm call role order Hr Ht Htm hosts Hh) as (ef & Hplan & Hef).
  exists ef. split; [|done]. simpl. by rewrite Htm.
Qed.
End load_balancers.
