(* ===== verification/RollingSpec.v ===== *)
(** The renewal of certificates, and what decides that it is due.

    The tasks that roll new certificates out go through the hosts one after the
    other: the nodes of a host form a chain, and the first one waits for the last
    one of the host before.  The nodes of a host are named by a prefix and the name
    of the host; the state of a body is followed through the prefixes alone. *)
From S2P Require Import Prelude.
From S2P Require Import Values.
From S2P Require Import Plan.
From S2P Require Import GraphSpec.
From S2P Require Import FragmentSpec.
From S2P Require Import Cluster.
From S2P Require Import Context.
From S2P Require Import GoText.
From S2P Require Import Task.
From S2P Require Import PkiTasks.
From S2P Require Import TaskSpec.
From S2P Require Import TaskRuns.
From Stdlib Require Import Ascii.

(** ** Specifications *)




(** ** Names *)




(** ** Chains by recursion *)









(** ** The nodes of one host *)

(** What a node of a host waits for: the node of the same host with a prefix, or
    the last node of the host before. *)
Inductive wait : Type := Within (prefix : string) | After (id : NodeID).

#[export] Instance wait_eq_dec : EqDecision wait.
Proof. solve_decision. Defined.

Section blocks.
Context (h : Host).
Implicit Types (B : list (string * list wait)) (m : node_map) (P : list string).









(** *** Running the body of a host *)


Context (m0 : node_map) (fname : string).










(** *** A block that is a chain *)








End blocks.

(** ** All the hosts *)

Section hosts.
Context `{GoRange, Steps}.
Implicit Types (hosts : list (option Host)) (m : node_map).




End hosts.

(** ** The rolling tasks *)

Section tasks.
Context `{GoRange, Steps, Caches, StepMeta}.
Implicit Types (c : Context) (hosts : list (option Host)).



































End tasks.
