(* ===== verification/TaskNodes.v ===== *)
(** Which nodes a task plans, and on which hosts: triples that keep the exact list
    of the nodes of the fragment under construction. *)
From S2P Require Import Prelude.
From S2P Require Import Values.
From S2P Require Import Plan.
From S2P Require Import GraphSpec.
From S2P Require Import FragmentSpec.
From S2P Require Import Cluster.
From S2P Require Import Context.
From S2P Require Import Task.
From S2P Require Import NodeTasks.
From S2P Require Import TaskSpec.

(** The node [id] is there and runs on [hosts]. *)
Definition runs_on (nodes : node_map) (id : NodeID) (hosts : list (option Host)) : Prop :=
  ∃ n, nodes !! id = Some (Some n) ∧ node_Hosts n = Some hosts.

(** The nodes are exactly those listed. *)
Definition exact (l : list (NodeID * list (option Host))) (ef : ExecutionFragment) : Prop :=
  ∃ m, ef_Nodes ef = Some m ∧ (∀ id, is_Some (m !! id) ↔ id ∈ l.*1) ∧
    ∀ id hosts, (id, hosts) ∈ l → runs_on m id hosts.

(** At least the node [id] is there. *)
Definition has (id : NodeID) (ef : ExecutionFragment) : Prop :=
  is_Some (ef_Nodes ef) ∧ is_Some (entries (ef_Nodes ef) !! id).

(** What [Plan] gives when it gives a fragment. *)
Definition plans (planned : outcome task_error (option ExecutionFragment)) (P : ExecutionFragment → Prop) : Prop :=
  ∀ o, planned = Ok o → ∃ ef, o = Some ef ∧ P ef.

Lemma exact_new name : exact [] (NewExecutionFragment name).
Proof.
  exists ∅. split_and!; [done| |by intros ?? ?%elem_of_nil].
  intros id. rewrite lookup_empty. split; [by intros []|by intros ?%elem_of_nil].
Qed.

Lemma exact_has l ef id : exact l ef → id ∈ l.*1 → has id ef.
Proof. intros (m & Hm & Hdom & _) Hid. split; [by eexists|]. rewrite Hm. by apply Hdom. Qed.

Lemma exact_runs_on l ef id hosts : exact l ef → (id, hosts) ∈ l → runs_on (entries (ef_Nodes ef)) id hosts.
Proof. intros (m & -> & _ & Hl). apply Hl. Qed.

Lemma plan_fragment_plans name body P :
  triple True (exact []) body (λ _, P) → plans (plan_fragment name body) P.
Proof.
  intros Hb o Ho. apply run_body_ok in Ho as ([] & ef & Hrun & [= <-]). exists ef. split; [done|].
  pose proof (Hb _ (exact_new name)) as Hb'. by rewrite Hrun in Hb'.
Qed.

(** A state that only depends on which nodes there are, and on which hosts. *)
Class Stable (P : ExecutionFragment → Prop) : Prop := {
  stable_made ef : P ef → is_Some (ef_Nodes ef);
  stable_ends ef ens exs : P ef → P (MkFragment (ef_Nodes ef) ens exs (ef_Name ef));
  stable_deps ef m id n deps : ef_Nodes ef = Some m → m !! id = Some (Some n) → P ef →
    P (ef_set_Nodes (<[id := Some (set_Dependencies deps n)]> m) ef);
}.

Lemma runs_on_deps (m : node_map) id n deps id' hosts :
  m !! id = Some (Some n) → runs_on m id' hosts → runs_on (<[id := Some (set_Dependencies deps n)]> m) id' hosts.
Proof.
  intros Hid (n' & Hn' & Hh). destruct (decide (id' = id)) as [->|].
  - simplify_eq. exists (set_Dependencies deps n). by rewrite lookup_insert_eq.
  - exists n'. by rewrite lookup_insert_ne.
Qed.

Lemma dom_deps (m : node_map) id n deps id' :
  m !! id = Some (Some n) → is_Some (<[id := Some (set_Dependencies deps n)]> m !! id') ↔ is_Some (m !! id').
Proof. intros Hid. rewrite lookup_insert_is_Some'. split; [intros [->|?]; [by eexists|done]|by right]. Qed.

Global Instance exact_stable l : Stable (exact l).
Proof.
  split.
  - intros ef (m & -> & _). by eexists.
  - done.
  - intros ef m id n deps Hm Hid (m' & Hm' & Hdom & Hl). simplify_eq. eexists. split_and!; [done|..].
    + intros id'. by rewrite dom_deps.
    + intros id' hosts Hin. by apply runs_on_deps, Hl.
Qed.

Global Instance has_stable id : Stable (has id).
Proof.
  split.
  - by intros ef [? _].
  - done.
  - intros ef m id' n deps Hm Hid [_ Hh]. split; [by eexists|]. rewrite Hm in Hh. simpl. by rewrite dom_deps.
Qed.

Section rules.
Context (P : ExecutionFragment → Prop) `{!Stable P}.

Lemma stable_add_dep from to : triple True P (add_dep from to) (λ _, P).
Proof.
  intros ef HP. unfold add_dep, ExecutionFragment_AddDependency.
  destruct (stable_made ef HP) as [m Hm]. rewrite Hm. simpl.
  case_decide; [done|]. destruct (m !! from); [|done]. destruct (m !! to) as [[n|]|] eqn:Hto; [|done..].
  simpl. case_decide; [done|]. rewrite Hm. by apply stable_deps.
Qed.

Lemma stable_add_deps deps : triple True P (add_deps deps) (λ _, P).
Proof. apply triple_foreach. intros [from to] _. apply stable_add_dep. Qed.

Lemma stable_compute_ends `{GoRange} : triple True P compute_ends (λ _, P).
Proof.
  intros ef HP. unfold compute_ends.
  destruct (ExecutionFragment_CalculateEntryAndExitNodes ef) as [[[]|?|] ef'] eqn:Hcalc; [|done..].
  pose proof (calculate_fragment_nonnil _ _ Hcalc) as Hn. rewrite calculate_fragment in Hcalc by done.
  simplify_eq. by apply stable_ends.
Qed.
End rules.

Lemma triple_finish `{GoRange} P `{!Stable P} (Q : unit → ExecutionFragment → Prop) :
  (∀ ef, P ef → Q tt ef) → triple True P compute_ends Q.
Proof. intros HQ. eapply (triple_conseq P P); [by apply stable_compute_ends|done|]. intros []. apply HQ. Qed.

Lemma bind_deref {A B} P (o : option B) (f : B → M ExecutionFragment task_error A) Q :
  (∀ b, o = Some b → triple True P (f b) Q) → triple True P (deref o ≫= f) Q.
Proof. intros Hf ef HP. unfold mbind, M_bind, deref. destruct o; [by apply Hf|done]. Qed.

Lemma exact_add_node {A} l name step hosts (f : NodeID → M ExecutionFragment task_error A) Q :
  name ≠ "" → name ∉ l.*1 → triple True (exact ((name, hosts) :: l)) (f name) Q →
  triple True (exact l) (add_node name step hosts ≫= f) Q.
Proof.
  intros Hne Hnew Hf ef (m & Hm & Hdom & Hl).
  assert (m !! name = None) as Hno by (apply eq_None_not_Some; by rewrite Hdom).
  unfold mbind, M_bind, add_node, ExecutionFragment_AddNode. simpl. rewrite decide_False by done.
  rewrite decide_False by (rewrite Hm; simpl; rewrite Hno; by intros []).
  unfold store_node, mbind, M_bind. rewrite Hm. simpl. apply Hf. eexists. split_and!; [done|..].
  - intros id. rewrite lookup_insert_is_Some', Hdom. simpl. rewrite elem_of_cons. naive_solver.
  - intros id hs [[= -> ->]|Hin]%elem_of_cons.
    + eexists. by rewrite lookup_insert_eq.
    + destruct (Hl id hs Hin) as (n & Hn & ?). exists n. rewrite lookup_insert_ne; [done|]. by intros ->; simplify_eq.
Qed.

Lemma has_add_node id name step hosts : triple True (has id) (add_node name step hosts) (λ _, has id).
Proof.
  intros ef [[m Hm] Hid]. unfold add_node, ExecutionFragment_AddNode. simpl.
  case_decide; [by split; [eexists|]|]. case_decide; [by split; [eexists|]|].
  unfold store_node, mbind, M_bind. rewrite Hm in *. simpl. split; [by eexists|]. simpl.
  rewrite lookup_insert_is_Some'. by right.
Qed.

(** ** The nodes of the tasks *)

Section tasks.
Context `{GoRange, Steps}.
Context (c : Context).

Lemma bind_given {A B} P (o : outcome task_error B) (f : B → M ExecutionFragment task_error A) Q :
  (∀ b, o = Ok b → triple True P (f b) Q) → triple True P (lift o ≫= f) Q.
Proof.
  intros Hf. eapply (triple_bind _ _ _ (λ b ef, P ef ∧ o = Ok b)); [apply triple_lift; done|].
  intros b ef [HP ->]. by apply Hf.
Qed.

Lemma bind_stable {A} P `{!Stable P} (m : M ExecutionFragment task_error unit) (f : unit → M ExecutionFragment task_error A) Q :
  triple True P m (λ _, P) → triple True P (f tt) Q → triple True P (m ≫= f) Q.
Proof. intros Hm Hf. eapply triple_bind; [done|]. by intros []. Qed.

(** A list of IDs of the model: computed. *)
Ltac fresh_name := apply (bool_decide_unpack _); vm_compute; exact I.

Ltac step :=
  lazymatch goal with
  | |- triple _ _ (build _ _ ≫= _) _ => apply (bind_build c True (λ _, I)); intros ?
  | |- triple _ _ (control_node _ ≫= _) _ => apply (bind_control_node c True (λ _, I)); intros ?
  | |- triple _ (exact _) (add_node _ _ _ ≫= _) _ => apply exact_add_node; [done|fresh_name|]
  | |- triple _ (exact _) (simple_node _ _ _ _ ≫= _) _ => unfold simple_node; apply bind_stable; [apply _| |]
  | |- triple _ _ (add_deps _ ≫= _) _ => apply bind_stable; [apply _|apply (stable_add_deps _)|]
  | |- triple _ _ (add_dep _ _ ≫= _) _ => apply bind_stable; [apply _|apply (stable_add_dep _)|]
  end.

Ltac finish := apply (triple_finish _); intros ef Hef.

(** Where the tasks run: on the hosts of one or two calls of [GetHostsByRole]. *)

Lemma InstallKubeComponents_nodes :
  plans (InstallKubeComponentsTask_Plan c) (λ ef, ∃ hosts, masters_and_workers 288 c = Ok hosts ∧
    exact ((λ id, (id, hosts)) <$> ["InstallKubeletDropin"; "InstallKubeletService"; "InstallKubectl"; "InstallKubeadm";
      "InstallKubelet"]) ef).
Proof.
  apply plan_fragment_plans. apply bind_given. intros hosts Hhosts. case_decide; [by apply triple_lift|].
  repeat step. finish. by exists hosts.
Qed.

Lemma BootstrapFirstMaster_nodes :
  plans (BootstrapFirstMasterTask_Plan c) (λ ef, ∃ hosts first, hosts_by_role 290 RoleMaster c = Ok hosts ∧
    hosts !! 0 = Some first ∧
    exact ((λ id, (id, [first])) <$> ["CopyAdminKubeconfig"; "WaitClusterHealthy"; "CheckControlPlaneHealth";
      "KubeadmInit"; "GenerateInitConfig"]) ef).
Proof.
  apply plan_fragment_plans. apply bind_given. intros hosts Hhosts. case_decide; [by apply triple_lift|].
  apply bind_deref. intros first Hfirst.
  repeat step. finish. by exists hosts, first.
Qed.

(** [masterHosts[1:]] of another call of [GetHostsByRole]. *)
Lemma KubeadmJoinMasters_nodes :
  plans (KubeadmJoinMastersTask_Plan c) (λ ef, ∃ hosts, hosts_by_role 292 RoleMaster c = Ok hosts ∧
    (tail hosts ≠ [] →
     exact ((λ id, (id, tail hosts)) <$> ["ExecuteKubeadmJoinMaster"; "GenerateJoinMasterConfig"]) ef)).
Proof.
  apply plan_fragment_plans. apply bind_given. intros hosts Hhosts. apply bind_deref. intros first _. cbv zeta.
  case_decide as Hlen.
  - apply triple_ret. intros ef _. exists hosts. split; [done|]. intros []. by apply nil_length_inv.
  - repeat step. finish. by exists hosts.
Qed.

(** A loop over hosts: nothing when there are none. *)
Lemma unless_no_hosts_nodes o body (l : list (option Host) → list (NodeID * list (option Host))) :
  (∀ hosts, o = Ok hosts → hosts ≠ [] → triple True (exact []) (body hosts) (λ _, exact (l hosts))) →
  triple True (exact []) (unless_no_hosts o body)
    (λ _ ef, ∃ hosts, o = Ok hosts ∧ (hosts ≠ [] → exact (l hosts) ef)).
Proof.
  intros Hb. apply bind_given. intros hosts Hhosts. case_decide as Hlen.
  - apply triple_ret. intros ef _. exists hosts. split; [done|]. intros []. by apply nil_length_inv.
  - intros ef Hef. specialize (Hb hosts Hhosts). destruct (body hosts ef) as [[[]|e|] ef'] eqn:Hrun; [|done..].
    exists hosts. split; [done|]. intros Hne. specialize (Hb Hne ef Hef). by rewrite Hrun in Hb.
Qed.

Lemma JoinWorkers_nodes :
  plans (JoinWorkersTask_Plan c) (λ ef, ∃ hosts, hosts_by_role 294 RoleWorker c = Ok hosts ∧
    (hosts ≠ [] → exact ((λ id, (id, hosts)) <$> ["ExecuteKubeadmJoinWorker"; "GenerateJoinWorkerConfig"]) ef)).
Proof.
  apply plan_fragment_plans, (unless_no_hosts_nodes _ _ (λ hosts, (λ id, (id, hosts)) <$> _)). intros hosts _ _.
  repeat step. by finish.
Qed.

Lemma ResetNode_nodes :
  plans (ResetNodeTask_Plan c) (λ ef, ∃ hosts, hosts_by_role 296 RoleWorker c = Ok hosts ∧
    (hosts ≠ [] → exact [("KubeadmReset", hosts)] ef)).
Proof.
  apply plan_fragment_plans, (unless_no_hosts_nodes _ _ (λ hosts, [("KubeadmReset", hosts)])). intros hosts _ _.
  apply (triple_bind _ _ _ (λ _, exact [("KubeadmReset", hosts)])); [|intros; by finish].
  unfold simple_node. repeat step. by apply triple_ret.
Qed.

Lemma CleanKubernetes_nodes :
  plans (CleanKubernetesTask_Plan c) (λ ef, ∃ hosts, masters_and_workers 297 c = Ok hosts ∧
    (hosts ≠ [] → exact [("KubeadmReset", hosts)] ef)).
Proof.
  apply plan_fragment_plans, (unless_no_hosts_nodes _ _ (λ hosts, [("KubeadmReset", hosts)])). intros hosts _ _.
  apply (triple_bind _ _ _ (λ _, exact [("KubeadmReset", hosts)])); [|intros; by finish].
  unfold simple_node. repeat step. by apply triple_ret.
Qed.

(** *** Etcd *)

Lemma GenerateEtcdPKI_nodes : plans (GenerateEtcdPKITask_Plan c) (has "GenerateEtcdCA").
Proof.
  apply plan_fragment_plans. repeat step. finish. eapply exact_has; [done|]. simpl. set_solver.
Qed.

Lemma deploy_etcd_host_has id prep i last h :
  triple True (has id) (deploy_etcd_host c prep i last h) (λ _, has id).
Proof.
  unfold deploy_etcd_host. cbv zeta. do 2 step.
  apply (triple_bind _ _ _ (λ _, has id)).
  { case_decide; by apply triple_lift. }
  intros ?. do 3 step.
  do 6 (apply (triple_bind _ _ _ (λ _, has id)); [apply has_add_node|intros ?]).
  apply bind_stable; [apply _| |].
  { case_decide; [|by apply triple_ret]. apply triple_foreach. intros ??. apply (stable_add_deps _). }
  apply bind_stable; [apply _|apply (stable_add_deps _)|].
  apply bind_stable; [apply _| |by apply triple_ret].
  case_decide; [by apply triple_ret|apply (stable_add_deps _)].
Qed.

Lemma deploy_etcd_hosts_has id prep i last hosts :
  triple True (has id) (deploy_etcd_hosts c prep i last hosts) (λ _, has id).
Proof.
  revert i last. induction hosts as [|o hosts IH]; intros i last; simpl; [by apply triple_ret|].
  apply bind_deref. intros h _. apply (triple_bind _ _ _ (λ _, has id)); [apply deploy_etcd_host_has|].
  intros last'. apply IH.
Qed.

Lemma DeployEtcdCluster_nodes : plans (DeployEtcdClusterTask_Plan c) (has "GenerateEtcdCA").
Proof.
  apply plan_fragment_plans. step. apply bind_given. intros hosts _. case_decide; [by apply triple_lift|].
  repeat step. apply (triple_bind _ _ _ (λ _, has "GenerateEtcdCA")).
  - apply (triple_pre _ (has "GenerateEtcdCA")); [|apply deploy_etcd_hosts_has].
    intros ef Hef. eapply exact_has; [done|]. simpl. set_solver.
  - intros _. by finish.
Qed.
End tasks.
