(* ===== verification/StepRunner.v ===== *)
(** Running one step on one host: [runStepOnHost] of
    [src/internal/engine/executor.go], with the executor's options and
    constructors and the part of the interface [step.Step]
    ([src/internal/step/interface.go]) the engine calls. *)
From S2P Require Import Prelude.
From S2P Require Import Values.
From S2P Require Import Result.
From S2P Require Import GoPath.
From S2P Require Import Cluster.
From S2P Require Import Context.

(** ** Steps *)

(** What a call into code that may panic does: it returns, or panics with a value. *)
Inductive call (A : Type) : Type :=
| Returns (a : A)
| Panics (r : string).
Arguments Returns {A} a.
Arguments Panics {A} r.

(** The state bags, and everything outside the process.  Other goroutines may
    act between two calls: a step is any function of the world it finds. *)
Record World (X : Type) : Type := MkWorld {
  w_heap : Heap;
  w_ext : X;
}.
Arguments MkWorld {X} _ _.
Arguments w_heap {X} _.
Arguments w_ext {X} _.

Record Base : Type := MkBase {
  base_Timeout : Z;
  base_IgnoreError : bool;
}.

(** [None] for [step_Meta] and [step_Base] are the nil pointers; [step_Meta] is
    the name in the step's metadata. An error is its text. *)
Record Step (X : Type) : Type := MkStep {
  step_Meta : option string;
  step_Base : option Base;
  step_Precheck : Context → World X → call (bool * option string) * World X;
  step_Run : Context → World X → call (option StepResult * option string) * World X;
  step_Rollback : Context → World X → call (option string) * World X;
}.
Arguments MkStep {X} _ _ _ _ _.
Arguments step_Meta {X} _.
Arguments step_Base {X} _.
Arguments step_Precheck {X} _ _ _.
Arguments step_Run {X} _ _ _.
Arguments step_Rollback {X} _ _ _.

(** The clock and the sleep of the process. *)
Class Clock (X : Type) := {
  now : World X → Time;
  sleep : Z → World X → World X;
}.

(** ** The executor *)

Definition Second : Z := 1000000000.
Definition Minute : Z := 60 * Second.

Record ExecutorOptions : Type := MkOptions {
  opt_CheckpointDir : string;
  opt_ClusterName : string;
  opt_PipelineName : string;
  opt_DisableCheckpoint : bool;
  opt_Timeout : Z;
  opt_MaxRetries : Z;
  opt_RetryBaseDelay : Z;
  opt_RetryMaxDelay : Z;
}.

Definition zero_options : ExecutorOptions := MkOptions "" "" "" false 0 0 0 0.

(** [persister] is the directory of the [CheckpointPersister], if any. *)
Record dagExecutor : Type := MkExecutor {
  maxWorkers : nat;
  opts : ExecutorOptions;
  persister : option string;
  retryMaxRetries : Z;
  retryBaseDelay : Z;
  retryMaxDelay : Z;
}.

Definition NewExecutor : dagExecutor := MkExecutor 10 zero_options None 0 0 0.

Definition NewCheckpointExecutor (o : ExecutorOptions) : dagExecutor :=
  MkExecutor 10 o
    (if decide (opt_CheckpointDir o ≠ "") then
       if opt_DisableCheckpoint o then None else Some (opt_CheckpointDir o)
     else None)
    (if decide (opt_MaxRetries o <= 0)%Z then 0%Z else opt_MaxRetries o)
    (if decide (opt_RetryBaseDelay o <= 0)%Z then (1 * Second)%Z else opt_RetryBaseDelay o)
    (if decide (opt_RetryMaxDelay o <= 0)%Z then (30 * Second)%Z else opt_RetryMaxDelay o).

(** [engineCtx] is [None] when nil. *)
Definition NewCheckpointExecutorForPipeline (engineCtx : option Context) (pipelineName : string) : dagExecutor :=
  match engineCtx with
  | None => MkExecutor 10 zero_options None 0 0 0
  | Some c =>
      match cl_Name <$> GetClusterConfig c with
      | None | Some "" => MkExecutor 10 zero_options None 0 0 0
      | Some name =>
          let d := GetClusterWorkDir c in
          let clusterWorkDir := if decide (d = "" ∨ d = "/_INVALID_CLUSTER_") then "/tmp/kubexm" else d in
          NewCheckpointExecutor (MkOptions clusterWorkDir name pipelineName false 0 0 0 0)
      end
  end.

(** The delay before attempt [attempt >= 1]: a shift and a product of 64-bit
    integers, then the cap. *)
Definition retry_delay (e : dagExecutor) (attempt : Z) : Z :=
  let delay := wrap64 (retryBaseDelay e * wrap64 (Z.shiftl 1 (attempt - 1))) in
  if decide (delay > retryMaxDelay e)%Z then retryMaxDelay e else delay.

(** ** runStepOnHost *)

Section run.
Context {X : Type} `{Clock X}.
Implicit Types (s : Step X) (w : World X).

Abbreviation MW := (M (World X) Empty_set).

Definition hr_update (status : Status) (msg : string) (t : Time) (hr : HostResult) : HostResult :=
  hr_set_EndTime t (hr_set_Status status msg hr).

(** Roll back and add a failure to the message; nothing recovers a panic in
    [Rollback]. *)
Definition attempt_rollback s (stepCtx : Context) (hr : HostResult) : MW HostResult := λ w,
  match step_Rollback s stepCtx w with
  | (Panics _, w) => (Panic, w)
  | (Returns (Some rbErr), w) =>
      (Ok (hr_set_Status (hr_Status hr) (hr_Message hr +:+ ". Rollback failed: " +:+ rbErr) hr), w)
  | (Returns None, w) => (Ok hr, w)
  end.

(** The first closure: a panic becomes an error of [Precheck]. *)
Definition guarded_precheck s (stepCtx : Context) (name : string) w : bool * option string * World X :=
  match step_Precheck s stepCtx w with
  | (Returns (isDone, preErr), w) => (isDone, preErr, w)
  | (Panics r, w) => (false, Some ("PANIC in Precheck of step '" +:+ name +:+ "': " +:+ r), w)
  end.

(** The variables the retry loop updates. *)
Record attempt_state : Type := MkAttempt {
  at_hr : HostResult;
  at_result : option StepResult;
  at_runErr : option string;
}.

(** The second closure: a panic marks the host result and rolls back, and leaves
    [result] and [runErr] as they were. *)
Definition guarded_run s (stepCtx : Context) (name : string) (st : attempt_state) : MW attempt_state := λ w,
  match step_Run s stepCtx w with
  | (Returns (result, runErr), w) => (Ok (MkAttempt (at_hr st) result runErr), w)
  | (Panics r, w) =>
      let hr := hr_update StatusFailed ("PANIC in step '" +:+ name +:+ "': " +:+ r) (now w) (at_hr st) in
      (attempt_rollback s stepCtx hr ≫= λ hr, mret (MkAttempt hr (at_result st) (at_runErr st))) w
  end.

(** [for attempt := attempt0; attempt <= e.retryMaxRetries; attempt++], with
    [n] iterations left. *)
Fixpoint retry_loop (e : dagExecutor) s (stepCtx : Context) (host name : string) (ignore : bool)
    (n : nat) (attempt : Z) (st : attempt_state) : MW attempt_state := λ w,
  match n with
  | 0 => (Ok st, w)
  | S n =>
      let w := if decide (attempt > 0)%Z then sleep (retry_delay e attempt) w else w in
      match guarded_run s stepCtx name st w with
      | (Ok st, w) =>
          match at_runErr st with
          | None => (Ok st, w)
          | Some _ =>
              if ignore then (Ok st, w)
              else if decide (attempt >= retryMaxRetries e)%Z then (Ok st, w)
              else
                let hr := hr_set_Status StatusRunning "" (NewHostResult (now w) host) in
                retry_loop e s stepCtx host name ignore n (attempt + 1)
                  (MkAttempt hr (at_result st) (at_runErr st)) w
          end
      | stop => stop
      end
  end.

(** The tail: what [runErr] and [result] make of the host result. *)
Definition finish_run s (stepCtx : Context) (ignore : bool) (st : attempt_state) : MW HostResult := λ w,
  let hr := hr_set_EndTime (now w) (at_hr st) in
  match at_runErr st with
  | Some runErr =>
      if ignore then (Ok (hr_set_Status StatusSuccess ("Run failed but error ignored: " +:+ runErr) hr), w)
      else attempt_rollback s stepCtx (hr_set_Status StatusFailed ("Run failed: " +:+ runErr) hr) w
  | None =>
      (Ok match at_result st with
          | Some result =>
              match sr_Status result with
              | StepStatusSkipped =>
                  hr_set_Metadata (sr_Metadata result) (hr_set_Status StatusSuccess (sr_Message result) hr)
              | StepStatusCompleted =>
                  foldl (λ hr artifact, HostResult_AddArtifact artifact hr)
                    (hr_set_Metadata (sr_Metadata result) (hr_set_Status StatusSuccess (sr_Message result) hr))
                    (default [] (sr_Artifacts result))
              | StepStatusFailed =>
                  hr_set_Metadata (sr_Metadata result) (hr_set_Status StatusFailed (sr_Message result) hr)
              | _ => hr_set_Status StatusSuccess "Step executed successfully." hr
              end
          | None => hr_set_Status StatusSuccess "Step executed successfully." hr
          end, w)
  end.

Definition runStepOnHost (e : dagExecutor) (ctx : Context) (os : option (Step X)) : MW HostResult := λ w,
  match ctx_currentHost ctx, os with
  | None, _ | _, None => (Panic, w)
  | Some host, Some s =>
      match step_Meta s, step_Base s with
      | None, _ | _, None => (Panic, w)
      | Some name, Some base =>
          let hr := hr_set_EndTime (now w) (NewHostResult (now w) (host_GetName host)) in
          let timeout := if decide (base_Timeout base <= 0)%Z then (5 * Minute)%Z else base_Timeout base in
          let stepCtx := WithTimeout timeout ctx in
          match guarded_precheck s stepCtx name w with
          | (_, Some preErr, w) => (Ok (hr_update StatusFailed ("Precheck failed: " +:+ preErr) (now w) hr), w)
          | (true, None, w) =>
              (Ok (hr_update StatusSuccess "Skipped: Precheck condition already met." (now w) hr), w)
          | (false, None, w) =>
              let hr := hr_set_Status StatusRunning (hr_Message hr) hr in
              (retry_loop e s stepCtx (host_GetName host) name (base_IgnoreError base)
                 (Z.to_nat (retryMaxRetries e + 1)) 0 (MkAttempt hr None None)
               ≫= finish_run s stepCtx (base_IgnoreError base)) w
          end
      end
  end.

End run.

(** ** Specifications *)

Section spec.
Context {X : Type} `{Clock X}.
Implicit Types (s : Step X) (w : World X) (e : dagExecutor).

Definition rollback_returns s : Prop := ∀ ctx w, ∃ err w', step_Rollback s ctx w = (Returns err, w').


(** The context [runStepOnHost] hands to the step. *)
Definition step_ctx (base : Base) (ctx : Context) : Context :=
  WithTimeout (if decide (base_Timeout base <= 0)%Z then (5 * Minute)%Z else base_Timeout base) ctx.




(** ** Lemmas *)

Lemma attempt_rollback_returns s ctx hr w :
  rollback_returns s →
  ∃ rb w', step_Rollback s ctx w = (Returns rb, w') ∧
    attempt_rollback s ctx hr w =
      (Ok (match rb with
           | Some m => hr_set_Status (hr_Status hr) (hr_Message hr +:+ ". Rollback failed: " +:+ m) hr
           | None => hr
           end), w').
Proof.
  intros Hrb. destruct (Hrb ctx w) as (rb & w' & Hrun). exists rb, w'. split; [done|].
  unfold attempt_rollback. rewrite Hrun. by destruct rb.
Qed.

Lemma add_artifacts_keep arts hr :
  let hr' := foldl (λ hr artifact, HostResult_AddArtifact artifact hr) hr arts in
  hr_Status hr' = hr_Status hr ∧ hr_Message hr' = hr_Message hr ∧ hr_HostName hr' = hr_HostName hr.
Proof.
  revert hr. induction arts as [|a arts IH]; intros hr; [done|]. simpl.
  destruct (IH (HostResult_AddArtifact a hr)) as (-> & -> & ->).
  unfold HostResult_AddArtifact. by destruct (as_strings _).
Qed.

Lemma guarded_run_total s ctx name st w :
  rollback_returns s → ∃ st' w', guarded_run s ctx name st w = (Ok st', w') ∧
    hr_HostName (at_hr st') = hr_HostName (at_hr st).
Proof.
  intros Hrb. unfold guarded_run. destruct (step_Run s ctx w) as [[[r err]|p] w1]; [by eauto|].
  unfold mbind, M_bind.
  edestruct (attempt_rollback_returns s ctx) as (rb & w' & _ & ->); [done|].
  eexists _, _. split; [done|]. by destruct rb.
Qed.

Lemma retry_loop_total e s ctx host name ignore n a st w :
  rollback_returns s → hr_HostName (at_hr st) = host →
  ∃ st' w', retry_loop e s ctx host name ignore n a st w = (Ok st', w') ∧ hr_HostName (at_hr st') = host.
Proof.
  intros Hrb. revert a st w. induction n as [|n IH]; intros a st w Hhost; simpl; [eauto|].
  destruct (guarded_run_total s ctx name st
    (if decide (a > 0)%Z then sleep (retry_delay e a) w else w) Hrb) as (st1 & w1 & -> & Hst1).
  rewrite Hhost in Hst1.
  destruct (at_runErr st1); [|eauto]. destruct ignore; [eauto|]. case_decide; [eauto|].
  by apply IH.
Qed.

Lemma finish_run_total s ctx ignore st w :
  rollback_returns s →
  ∃ hr w', finish_run s ctx ignore st w = (Ok hr, w') ∧ hr_HostName hr = hr_HostName (at_hr st) ∧
    (hr_Status hr = StatusSuccess ∨ hr_Status hr = StatusFailed).
Proof.
  intros Hrb. unfold finish_run. destruct (at_runErr st) as [msg|].
  - destruct ignore; [by eexists _, _; split_and!; [done..|left]|].
    edestruct (attempt_rollback_returns s ctx) as (rb & w' & _ & ->); [done|].
    eexists _, _. split; [done|]. destruct rb; (split; [done|by right]).
  - eexists _, _. split; [done|]. destruct (at_result st) as [result|]; simpl; [destruct (sr_Status result); simpl|]; try (split; [done|auto]; fail).
    + match goal with |- context [foldl ?f ?hr ?l] => destruct (add_artifacts_keep l hr) as (-> & _ & ->) end.
      split; [done|by left].
Qed.



(** A step whose [Rollback] does not panic never crashes the executor,
    whatever [Precheck] and [Run] do: [runStepOnHost] returns a result that names
    the host and is [Success] or [Failed]. *)
Theorem runStepOnHost_total e s ctx host name base w :
  ctx_currentHost ctx = Some host → step_Meta s = Some name → step_Base s = Some base →
  rollback_returns s →
  ∃ hr w', runStepOnHost e ctx (Some s) w = (Ok hr, w') ∧
    hr_HostName hr = host_GetName host ∧ (hr_Status hr = StatusSuccess ∨ hr_Status hr = StatusFailed).
Proof.
  intros Hhost Hmeta Hbase Hrb. unfold runStepOnHost. rewrite Hhost, Hmeta, Hbase.
  destruct (guarded_precheck s _ name w) as [[[] [preErr|]] w1]; simpl;
    try (eexists _, _; split; [done|]; split; [done|]; (by left) || (by right); fail).
  unfold mbind, M_bind.
  match goal with |- context [retry_loop ?e ?s ?c ?h ?nm ?i ?n ?a ?st ?w] =>
    destruct (retry_loop_total e s c h nm i n a st w Hrb) as (st' & w' & -> & Hst') end; [done|].
  destruct (finish_run_total s (step_ctx base ctx) (base_IgnoreError base) st' w' Hrb)
    as (hr & w'' & Hfin & Hn & Hs).
  unfold step_ctx in Hfin. rewrite Hfin. exists hr, w''. by rewrite Hn, Hst'.
Qed.

(** A failing or panicking [Precheck] makes the host fail and one that
    reports the work done makes it succeed, in both cases without calling [Run]
    or [Rollback]: the world is the one [Precheck] left. *)
Theorem runStepOnHost_precheck e s ctx host name base w :
  ctx_currentHost ctx = Some host → step_Meta s = Some name → step_Base s = Some base →
  let '(o, w1) := step_Precheck s (step_ctx base ctx) w in
  match o with
  | Panics r => ∃ hr, runStepOnHost e ctx (Some s) w = (Ok hr, w1) ∧ hr_Status hr = StatusFailed ∧
      hr_Message hr = "Precheck failed: PANIC in Precheck of step '" +:+ name +:+ "': " +:+ r
  | Returns (_, Some err) => ∃ hr, runStepOnHost e ctx (Some s) w = (Ok hr, w1) ∧
      hr_Status hr = StatusFailed ∧ hr_Message hr = "Precheck failed: " +:+ err
  | Returns (true, None) => ∃ hr, runStepOnHost e ctx (Some s) w = (Ok hr, w1) ∧
      hr_Status hr = StatusSuccess
  | Returns (false, None) => True
  end.
Proof.
  intros Hhost Hmeta Hbase. unfold runStepOnHost. rewrite Hhost, Hmeta, Hbase.
  unfold guarded_precheck, step_ctx. simpl.
  destruct (step_Precheck s _ w) as [[[[] [err|]]|r] w1]; try done; by eexists.
Qed.


(** A step whose first [Run] panics is rolled back and then reported as a
    success: the closure that recovers the panic sets the host result to
    [Failed], but leaves [runErr] nil, and the code after the loop takes that for
    a step that ran. *)
Theorem runStepOnHost_run_panic_success e s ctx host name base w w1 w2 r :
  ctx_currentHost ctx = Some host → step_Meta s = Some name → step_Base s = Some base →
  rollback_returns s → (0 <= retryMaxRetries e)%Z →
  step_Precheck s (step_ctx base ctx) w = (Returns (false, None), w1) →
  step_Run s (step_ctx base ctx) w1 = (Panics r, w2) →
  ∃ hr rb w3, step_Rollback s (step_ctx base ctx) w2 = (Returns rb, w3) ∧
    runStepOnHost e ctx (Some s) w = (Ok hr, w3) ∧
    hr_Status hr = StatusSuccess ∧ hr_Message hr = "Step executed successfully.".
Proof.
  intros Hhost Hmeta Hbase Hrb Hmax Hpre Hrun. unfold runStepOnHost. rewrite Hhost, Hmeta, Hbase.
  unfold guarded_precheck. fold (step_ctx base ctx). rewrite Hpre. unfold mbind, M_bind.
  destruct (Z.to_nat (retryMaxRetries e + 1)) as [|n] eqn:Hn; [lia|].
  cbn [retry_loop]. rewrite decide_False by lia. unfold guarded_run. rewrite Hrun.
  unfold mbind, M_bind.
  match goal with |- context [attempt_rollback s ?c ?hr w2] =>
    destruct (attempt_rollback_returns s c hr w2 Hrb) as (rb & w3 & Hroll & ->) end.
  simpl. eexists _, rb, w3. by split_and!.
Qed.

End spec.

(** The backoff never exceeds the configured maximum, and doubles from the
    base until it reaches it as long as the product fits 64 bits. *)
Theorem retry_delay_backoff (e : dagExecutor) (attempt : Z) :
  (retry_delay e attempt <= retryMaxDelay e)%Z ∧
  ((1 <= attempt <= 62)%Z → (0 < retryBaseDelay e)%Z →
   (retryBaseDelay e * 2 ^ (attempt - 1) < 2 ^ 63)%Z →
   retry_delay e attempt = Z.min (retryBaseDelay e * 2 ^ (attempt - 1)) (retryMaxDelay e)).
Proof.
  unfold retry_delay. split; [case_decide; lia|].
  intros Ha Hb Hfit. rewrite Z.shiftl_mul_pow2, Z.mul_1_l by lia.
  assert (0 < 2 ^ (attempt - 1) < 2 ^ 63)%Z.
  { split; [apply Z.pow_pos_nonneg; lia|]. apply Z.pow_lt_mono_r; lia. }
  rewrite (wrap64_id (2 ^ (attempt - 1))) by lia.
  rewrite wrap64_id by nia. case_decide; lia.
Qed.

(** With the defaults of one and thirty seconds the product wraps at the
    thirty-fifth retry: the delay is negative and [time.Sleep] returns at once. *)
Example retry_delay_wraps :
  retry_delay (NewCheckpointExecutor (MkOptions "" "" "" false 0 40 0 0)) 35 = (-1266874889709551616)%Z.
Proof. reflexivity. Qed.
