(* ===== verification/NodeRunner.v ===== *)
(** Running one node of the graph on all its hosts: [runNode] of
    [src/internal/engine/executor.go], and the interface [NodeRunner] it offers
    the scheduler. *)
From S2P Require Import Prelude.
From S2P Require Import Values.
From S2P Require Import Plan.
From S2P Require Import Result.
From S2P Require Import GoPath.
From S2P Require Import Context.
From S2P Require Import StepRunner.

(** ** Data *)

Record workerResult : Type := MkWorkerResult {
  wr_nodeID : NodeID;
  wr_status : Status;
  wr_message : string;
  wr_err : option string;
  wr_hostResults : gomap HostResult;
  wr_output : gomap any;
}.

(** What the handles in a graph stand for: the steps and conditions the tasks put
    into the nodes. *)
Class Handles (X : Type) := {
  steps : StepRef → Step X;
  conditions : CondRef → Context → World X → call (bool * option string) * World X;
}.

(** ** runNode *)

Section run.
Context {X : Type} `{Clock X, Handles X, GoRange}.

Abbreviation MW := (M (World X) Empty_set).

Definition with_heap {A} (f : Heap → A * Heap) : MW A := λ w,
  let '(a, h) := f (w_heap w) in (Ok a, MkWorld h (w_ext w)).

(** [if name != "" { ctx = ctx.ForX(name) }] for the three scopes. *)
Definition scoped_context (node : ExecutionNode) (rootCtx : Context) (h : Heap) : Context * Heap :=
  let '(c, h) := if decide (node_PipelineName node = "") then (rootCtx, h)
                 else ForPipeline (node_PipelineName node) rootCtx h in
  let '(c, h) := if decide (node_ModuleName node = "") then (c, h)
                 else ForModule (node_ModuleName node) c h in
  if decide (node_TaskName node = "") then (c, h) else ForTask (node_TaskName node) c h.

(** The body of one host's goroutine, up to [runStepOnHost]. *)
Definition run_host (e : dagExecutor) (node : ExecutionNode) (gctx : GoContext) (scopedCtx : Context)
    (host : option Host) : MW HostResult := λ w,
  let execCtx := WithGoContext gctx (ForHost scopedCtx host) in
  match with_heap (SetRuntimeConfig (node_RuntimeConfig node) execCtx) w with
  | (Ok execCtx, w) => runStepOnHost e execCtx (steps <$> node_Step node) w
  | (Err err, w) => (Err err, w)
  | (Panic, w) => (Panic, w)
  end.

Definition host_error (node : ExecutionNode) (name : string) (hr : HostResult) : string :=
  "step '" +:+ node_StepName node +:+ "' on host '" +:+ name +:+ "' failed: " +:+ hr_Message hr.

(** The goroutines of the hosts, in the order in which they finish: each stores
    its result under the host's name, and the group keeps the first error. *)
Fixpoint run_hosts (e : dagExecutor) (node : ExecutionNode) (gctx : GoContext) (scopedCtx : Context)
    (order : list (option Host)) (hostResults : gmap string HostResult) (err : option string)
    : MW (gmap string HostResult * option string) := λ w,
  match order with
  | [] => (Ok (hostResults, err), w)
  | host :: order =>
      match run_host e node gctx scopedCtx host w with
      | (Ok hr, w) =>
          let name := from_option host_GetName "" host in
          let err' := if decide (hr_Status hr = StatusFailed) then Some (host_error node name hr) else None in
          run_hosts e node gctx scopedCtx order (<[name := hr]> hostResults)
            (match err with Some _ => err | None => err' end) w
      | (Err x, w) => (Err x, w)
      | (Panic, w) => (Panic, w)
      end
  end.

(** [for _, hr := range hostResults { for k, v := range hr.Metadata { output[k] = v } }] *)
Definition merge_metadata (hostResults : gmap string HostResult) : gmap string any :=
  foldl (λ output '(_, hr),
    foldl (λ output '(k, v), <[k := v]> output) output (range 71 (entries (hr_Metadata hr))))
    ∅ (range 70 hostResults).

Definition node_report (nodeID : NodeID) (hostResults : gmap string HostResult) (err : option string) : workerResult :=
  let tmp := NodeResult_AggregateStatus (MkNodeResult "" "" (OtherStatus "") 0 0 "" (Some hostResults) None) in
  MkWorkerResult nodeID (nr_Status tmp)
    (match err with Some msg => msg | None => "Node completed." end)
    err (Some hostResults) (Some (merge_metadata hostResults)).

Definition run_on_hosts (e : dagExecutor) (rootCtx : Context) (node : ExecutionNode) (nodeID : NodeID)
    (order : list (option Host)) : MW workerResult := λ w,
  let gctx := GoGroup (ctx_GoCtx rootCtx) in
  match with_heap (scoped_context node rootCtx) w with
  | (Ok scopedCtx, w) =>
      match run_hosts e node gctx scopedCtx order ∅ None w with
      | (Ok (hostResults, err), w) => (Ok (node_report nodeID hostResults err), w)
      | (Err x, w) => (Err x, w)
      | (Panic, w) => (Panic, w)
      end
  | (Err x, w) => (Err x, w)
  | (Panic, w) => (Panic, w)
  end.

(** [order] is the order in which the host goroutines finish, a permutation of
    the node's hosts. The graph's entry was tested non-nil by [worker]. *)
Definition runNode (e : dagExecutor) (rootCtx : Context) (g : ExecutionGraph) (nodeID : NodeID)
    (order : list (option Host)) : MW workerResult := λ w,
  match ExecutionGraph_GetNode nodeID g with
  | None => (Panic, w)
  | Some node =>
      match node_Condition node with
      | None => run_on_hosts e rootCtx node nodeID order w
      | Some c =>
          match conditions c rootCtx w with
          | (Panics _, w) => (Panic, w)
          | (Returns (_, Some err), w) =>
              (Ok (MkWorkerResult nodeID StatusFailed ("Condition check failed: " +:+ err) (Some err) None None), w)
          | (Returns (false, None), w) =>
              (Ok (MkWorkerResult nodeID StatusSkipped "Skipped: Condition not met" None None None), w)
          | (Returns (true, None), w) => run_on_hosts e rootCtx node nodeID order w
          end
      end
  end.

(** The hosts of a node. *)
Definition hosts_of (g : ExecutionGraph) (nodeID : NodeID) : list (option Host) :=
  match ExecutionGraph_GetNode nodeID g with
  | None => []
  | Some node => default [] (node_Hosts node)
  end.

End run.

(** ** The interface to the scheduler *)

(** A status a node may finish with. *)
Definition terminal (s : Status) : Prop := s = StatusSuccess ∨ s = StatusFailed ∨ s = StatusSkipped.

(** What a worker promises the scheduler: [node_runs w id res w'] relates the
    world in which a worker starts the node [id] to a result it may report. *)
Class NodeRunner (W : Type) := {
  node_runs : W → NodeID → workerResult → W → Prop;
  node_runs_id : ∀ w id res w', node_runs w id res w' → wr_nodeID res = id;
  node_runs_terminal : ∀ w id res w', node_runs w id res w' → terminal (wr_status res);
}.

(** ** Lemmas *)

Section lemmas.
Context {X : Type} `{Clock X, Handles X, GoRange}.

Lemma node_report_status id hrs err :
  wr_status (node_report id hrs err) =
    if decide (map_Exists (λ _ hr, hr_Status hr = StatusFailed) hrs) then StatusFailed else StatusSuccess.
Proof. unfold node_report. cbn [wr_status]. by rewrite AggregateStatus_eq. Qed.

Lemma runNode_report e c g id order w res w' :
  runNode e c g id order w = (Ok res, w') →
  wr_nodeID res = id ∧
  ((wr_status res = StatusFailed ∧ wr_err res ≠ None) ∨ wr_status res = StatusSkipped ∨
   ∃ hrs err, res = node_report id hrs err).
Proof.
  unfold runNode. destruct (ExecutionGraph_GetNode id g) as [node|]; [|done].
  assert (∀ w, run_on_hosts e c node id order w = (Ok res, w') → ∃ hrs err, res = node_report id hrs err) as Hrep.
  { intros w0. unfold run_on_hosts.
    destruct (with_heap _ w0) as [[c'| |] w1]; [|done..].
    destruct (run_hosts _ _ _ _ _ _ _ _) as [[[hrs err]| |] w2]; [|done..].
    intros [= <- <-]. eauto. }
  destruct (node_Condition node) as [cond|].
  - destruct (conditions cond c w) as [[[b [err|]]|r] w1]; [|destruct b|done].
    + destruct b; intros [= <- <-]; by eauto.
    + intros Hrun. apply Hrep in Hrun as (hrs & err & ->). split; [done|]. eauto.
    + intros [= <- <-]. by eauto.
  - intros Hrun. apply Hrep in Hrun as (hrs & err & ->). split; [done|]. eauto.
Qed.

Definition some_failed (hrs : gmap string HostResult) : Prop :=
  map_Exists (λ _ hr, hr_Status hr = StatusFailed) hrs.

Definition host_names (order : list (option Host)) : list string :=
  map (from_option host_GetName "") order.

(** The loop over distinct hosts: the results are keyed by the hosts' names and
    an error is kept exactly when a host failed. *)
Lemma run_hosts_spec e node gctx c order hrs err w hrs' err' w' :
  NoDup (host_names order) → (∀ n, n ∈ host_names order → hrs !! n = None) →
  (err ≠ None ↔ some_failed hrs) →
  run_hosts e node gctx c order hrs err w = (Ok (hrs', err'), w') →
  dom hrs' = dom hrs ∪ list_to_set (host_names order) ∧ (err' ≠ None ↔ some_failed hrs').
Proof.
  revert hrs err w. induction order as [|host order IH]; intros hrs err w Hnd Hfresh Herr Hrun; simpl in Hrun.
  { simplify_eq. split; [|done]. simpl. set_solver. }
  destruct (run_host e node gctx c host w) as [[hr| |] w1]; [|done..].
  simpl in Hnd. inversion Hnd as [|?? Hn Hnd']; subst.
  set (name := from_option host_GetName "" host) in *.
  assert (hrs !! name = None) as Hname by (apply Hfresh; left).
  apply IH in Hrun as [Hdom Herr']; [|done| |].
  - split; [|done]. rewrite Hdom, dom_insert_L. simpl. fold name. set_solver.
  - intros n Hin. rewrite lookup_insert_ne by (intros <-; done). apply Hfresh. by right.
  - unfold some_failed in *. rewrite map_Exists_insert by done. destruct err as [msg|].
    + split; [|done]. intros _. right. by apply Herr.
    + case_decide as Hst; split; try done; [by left|].
      intros [?|Hex]; [done|]. by apply Herr in Hex.
Qed.

(** A node that ran on distinctly named hosts reports a result for exactly
    those hosts, and reports [Failed], together with an error, exactly when some
    host failed, and [Success] otherwise, in whatever order the hosts finish. *)
Theorem runNode_aggregates e c g id node order w res w' hrs :
  ExecutionGraph_GetNode id g = Some node →
  order ≡ₚ hosts_of g id → NoDup (host_names (hosts_of g id)) →
  runNode e c g id order w = (Ok res, w') → wr_hostResults res = Some hrs →
  dom hrs = list_to_set (host_names (hosts_of g id)) ∧
  (wr_status res = StatusFailed ↔ some_failed hrs) ∧
  (wr_status res = StatusFailed ↔ wr_err res ≠ None) ∧
  (wr_status res = StatusFailed ∨ wr_status res = StatusSuccess).
Proof.
  intros Hnode Horder Hnd Hrun Hhrs.
  assert (host_names order ≡ₚ host_names (hosts_of g id)) as Hp by (unfold host_names; by rewrite Horder).
  assert (∀ w, run_on_hosts e c node id order w = (Ok res, w') →
    ∃ err, res = node_report id hrs err ∧ dom hrs = list_to_set (host_names (hosts_of g id)) ∧
      (err ≠ None ↔ some_failed hrs)) as Hrep.
  { intros w0. unfold run_on_hosts. destruct (with_heap _ w0) as [[c'| |] w1]; [|done..].
    destruct (run_hosts e node _ c' order ∅ None w1) as [[[hrs0 err]| |] w2] eqn:Hh; [|done..].
    intros [= <- <-]. simpl in Hhrs. simplify_eq. exists err. split; [done|].
    apply run_hosts_spec in Hh as [Hdom Herr].
    - split; [|done]. rewrite Hdom, dom_empty_L, Hp. set_solver.
    - by rewrite Hp.
    - intros. apply lookup_empty.
    - split; [done|]. by intros ?%map_Exists_empty. }
  assert (∃ w, run_on_hosts e c node id order w = (Ok res, w')) as [w0 Hw0].
  { revert Hrun. unfold runNode. rewrite Hnode. destruct (node_Condition node) as [cond|]; [|by eauto].
    destruct (conditions cond c w) as [[[[] [err|]]|r] w1]; try done; try by (intros [= <- <-]). eauto. }
  apply Hrep in Hw0 as (err & -> & Hdom & Herr). split; [done|].
  rewrite node_report_status. unfold some_failed in *. cbn [node_report wr_err].
  case_decide; naive_solver.
Qed.
End lemmas.

(** [runNode], with the host goroutines finishing in any order, is such a worker. *)
Global Program Instance runNode_NodeRunner {X} `{Clock X, Handles X, GoRange}
    (e : dagExecutor) (c : Context) (g : ExecutionGraph) : NodeRunner (World X) := {|
  node_runs w id res w' := ∃ order, order ≡ₚ hosts_of g id ∧ runNode e c g id order w = (Ok res, w');
|}.
Next Obligation. intros X ?? ? e c g w id res w' (order & _ & Hrun). by apply runNode_report in Hrun as [? _]. Qed.
Next Obligation.
  intros X ?? ? e c g w id res w' (order & _ & Hrun).
  apply runNode_report in Hrun as [_ [[-> _]|[->|(hrs & err & ->)]]]; [by right; left|by right; right|].
  rewrite node_report_status. unfold terminal. case_decide; auto.
Qed.
