(* ===== verification/Json.v ===== *)
(** What a round trip through [encoding/json] does to values: strings become valid
    UTF-8, integers in an [interface{}] become [float64], the keys of an object are
    written in their order and the last one of a name is kept. *)
From S2P Require Import Prelude.
From S2P Require Import Values.
From S2P Require Import GoText.
From Stdlib Require Import Ascii.

(** ** Strings *)

(** Every byte that is not part of a well-formed rune becomes U+FFFD. *)
Fixpoint valid_utf8_n (n : nat) (s : string) : string :=
  match n with
  | 0 => ""
  | S n => if decide (s = "") then "" else let '(r, s') := decode_rune s in r +:+ valid_utf8_n n s'
  end.

Definition json_string (s : string) : string := valid_utf8_n (String.length s) s.

(** ** Numbers *)

(** The [float64] nearest to an integer, of two the one whose last bit is 0. *)
Definition float64_of_int (z : Z) : Z :=
  let e := (Z.log2 (Z.abs z) - 52)%Z in
  if (e <=? 0)%Z then z else
  let q := Z.shiftr (Z.abs z) e in
  let r := (Z.abs z - Z.shiftl q e)%Z in
  let half := Z.shiftl 1 (e - 1) in
  let q := if ((half <? r) || ((half =? r) && Z.odd q))%Z then (q + 1)%Z else q in
  (Z.sgn z * Z.shiftl q e)%Z.

(** ** Objects *)

(** A map: the keys are written in the order of their bytes, and read back in that
    order, so that of two keys that become the same the last one stays. *)
Definition json_map {A} (f : A → A) (m : gmap string A) : gmap string A :=
  foldl (λ acc k, match m !! k with Some a => <[json_string k := f a]> acc | None => acc end) ∅
    (sort_strings (map_to_list m).*1).

(** The fields of a struct, or of a map of strings, as the map of strings they are
    read back as. *)
Definition json_fields (fields : list (string * string)) : list (string * string) :=
  map_to_list (json_map json_string (list_to_map fields)).

(** An [interface{}] value: numbers come back as [float64], lists and structs as
    generic lists and maps, pointers as values; a list here is not a nil slice. *)
Fixpoint json_any (a : any) : any :=
  match a with
  | AString s => AString (json_string s)
  | AInt z => AFloat64 (float64_of_int z)
  | AStrings l => AAnyStrings (json_string <$> l)
  | AAnyStrings l => AAnyStrings (json_string <$> l)
  | AStruct _ fields => AAnyMap (json_fields fields)
  | AAnyMap fields => AAnyMap (json_fields fields)
  | APtr a => json_any a
  | a => a
  end.

(** Channels and functions have no JSON form. *)
Fixpoint json_able (a : any) : bool :=
  match a with
  | AOpaque _ => false
  | APtr a => json_able a
  | _ => true
  end.

(** A map field marked [omitempty]: empty and nil both come back as nil. *)
Definition json_omitempty {A} (f : A → A) (m : gomap A) : gomap A :=
  if decide (mlen m = 0) then None else Some (json_map f (entries m)).

(** ** Examples *)

(** A lone byte 0xFF, and two bytes of a rune of three. *)
Example json_string_broken :
  json_string (String "a" (String "255" (String "226" (String "130" "b")))) = "a" +:+ rune_error +:+ rune_error +:+ rune_error +:+ "b".
Proof. reflexivity. Qed.

Example json_string_kept : json_string (String "226" (String "130" (String "172" "!"))) = String "226" (String "130" (String "172" "!")).
Proof. reflexivity. Qed.

Example float64_of_int_rounds :
  float64_of_int (2 ^ 53 + 1) = (2 ^ 53)%Z ∧ float64_of_int (2 ^ 53 + 3) = (2 ^ 53 + 4)%Z ∧ float64_of_int (- (2 ^ 53) - 1) = (- 2 ^ 53)%Z.
Proof. repeat split. Qed.

(** ** Lemmas *)

(** Integers of at most 53 bits are exact. *)
Lemma float64_of_int_exact z : (Z.abs z < 2 ^ 53)%Z → float64_of_int z = z.
Proof.
  intros Hz. unfold float64_of_int. rewrite (proj2 (Z.leb_le _ _)); [done|].
  destruct (decide (z = 0%Z)) as [->|Hne]; [done|].
  assert (Z.log2 (Z.abs z) < 53)%Z by (apply Z.log2_lt_pow2; lia). lia.
Qed.

(** What [decode_rune] gives, it gives again, whatever follows; and it makes progress. *)
Lemma decode_rune_spec c s : let '(r, s') := decode_rune (String c s) in
  (∀ t, decode_rune (r +:+ t) = (r, t)) ∧ r ≠ "" ∧ (String.length s' <= String.length s)%nat.
Proof.
  assert (∀ t, decode_rune (rune_error +:+ t) = (rune_error, t)) as Hbad by done.
  unfold decode_rune at 1. cbv zeta.
  destruct (byte c <? 0x80)%Z eqn:H1; [split_and!; [|done|done]; intros t; change (String c "" +:+ t) with (String c t); unfold decode_rune; cbv zeta; by rewrite H1|].
  destruct s as [|c2 s2]; [by split_and!|].
  destruct (negb _) eqn:H2; [by split_and!; [..|simpl; lia]|].
  destruct ((0xC2 <=? byte c) && (byte c <=? 0xDF))%Z eqn:H3.
  { split_and!; [|done|simpl; lia]. intros t. change (String c (String c2 "") +:+ t) with (String c (String c2 t)).
    unfold decode_rune. cbv zeta. by rewrite H1, H2, H3. }
  destruct s2 as [|c3 s3]; [by split_and!; [..|simpl; lia]|].
  destruct (negb (cont 0x80 0xBF c3)) eqn:H4; [by split_and!; [..|simpl; lia]|].
  destruct ((0xE0 <=? byte c) && (byte c <=? 0xEF))%Z eqn:H5.
  { split_and!; [|done|simpl; lia]. intros t.
    change (String c (String c2 (String c3 "")) +:+ t) with (String c (String c2 (String c3 t))).
    unfold decode_rune. cbv zeta. by rewrite H1, H2, H3, H4, H5. }
  destruct s3 as [|c4 s4]; [by split_and!; [..|simpl; lia]|].
  destruct (cont 0x80 0xBF c4 && _ && _) eqn:H6; [|by split_and!; [..|simpl; lia]].
  split_and!; [|done|simpl; lia]. intros t.
  change (String c (String c2 (String c3 (String c4 ""))) +:+ t) with (String c (String c2 (String c3 (String c4 t)))).
  unfold decode_rune. cbv zeta. by rewrite H1, H2, H3, H4, H5, H6.
Qed.

Lemma valid_utf8_again n m s : (String.length (valid_utf8_n n s) <= m)%nat →
  valid_utf8_n m (valid_utf8_n n s) = valid_utf8_n n s.
Proof.
  revert m s. induction n as [|n IH]; intros m s; simpl; [by destruct m|].
  destruct s as [|c s]; [by destruct m|]. rewrite (decide_False (P := String c s = "")) by done.
  pose proof (decode_rune_spec c s) as Hr. destruct (decode_rune (String c s)) as [r s']. destruct Hr as (Hagain & Hne & _).
  rewrite str_length_app. intros Hm. destruct r as [|d r]; [done|]. simpl in Hm. destruct m as [|m]; [lia|].
  cbn [valid_utf8_n]. rewrite decide_False by done. rewrite Hagain. f_equal. apply IH. lia.
Qed.

Lemma json_string_idem s : json_string (json_string s) = json_string s.
Proof. by apply valid_utf8_again. Qed.

Section objects.
Context {A : Type}.
Implicit Types (f : A → A) (m acc : gmap string A).

(** The fold of [json_map] from any start. *)
Definition json_fold f m acc (l : list string) : gmap string A :=
  foldl (λ acc k, match m !! k with Some a => <[json_string k := f a]> acc | None => acc end) acc l.

(** Every entry has a valid name and a value that was converted. *)
Lemma json_fold_image f m l acc :
  map_Forall (λ k a, json_string k = k ∧ f a = a) acc → (∀ a, f (f a) = f a) →
  map_Forall (λ k a, json_string k = k ∧ f a = a) (json_fold f m acc l).
Proof.
  intros Hacc Hf. revert acc Hacc. induction l as [|k l IH]; intros acc Hacc; [done|]. simpl. apply IH.
  destruct (m !! k); [|done]. apply map_Forall_insert_2; [|done]. by rewrite json_string_idem, Hf.
Qed.

(** When the names are valid and the values converted already, nothing changes. *)
Lemma json_fold_id f m l acc : map_Forall (λ k a, json_string k = k ∧ f a = a) m →
  ∀ k, json_fold f m acc l !! k = if decide (k ∈ l) then match m !! k with Some a => Some a | None => acc !! k end else acc !! k.
Proof.
  intros Hm. revert acc. induction l as [|j l IH]; intros acc k; [done|]. simpl. rewrite IH. destruct (m !! j) as [a|] eqn:Hj.
  - destruct (Hm j a Hj) as [-> ->]. destruct (decide (k = j)) as [->|Hne].
    + rewrite Hj, lookup_insert_eq. rewrite (decide_True (P := j ∈ j :: l)) by set_solver. by case_decide.
    + rewrite lookup_insert_ne by done. repeat case_decide; done || set_solver.
  - destruct (decide (k = j)) as [->|Hne]; [rewrite Hj; by repeat case_decide|]. repeat case_decide; done || set_solver.
Qed.

Lemma json_map_id f m : map_Forall (λ k a, json_string k = k ∧ f a = a) m → json_map f m = m.
Proof.
  intros Hm. apply map_eq. intros k. change (json_map f m) with (json_fold f m ∅ (sort_strings (map_to_list m).*1)).
  rewrite json_fold_id by done. case_decide as Hk; [destruct (m !! k) eqn:Hmk; by rewrite ?lookup_empty|].
  rewrite elem_of_sort_strings, elem_of_map_keys in Hk. apply eq_None_not_Some in Hk. by rewrite lookup_empty.
Qed.

Lemma json_map_image f m : (∀ a, f (f a) = f a) → map_Forall (λ k a, json_string k = k ∧ f a = a) (json_map f m).
Proof. intros Hf. apply json_fold_image; [apply map_Forall_empty|done]. Qed.

Lemma json_map_idem f m : (∀ a, f (f a) = f a) → json_map f (json_map f m) = json_map f m.
Proof. intros. by apply json_map_id, json_map_image. Qed.

Lemma json_fold_is_Some f m l acc j : is_Some (acc !! j) → is_Some (json_fold f m acc l !! j).
Proof.
  revert acc. induction l as [|k l IH]; intros acc Hj; [done|]. simpl. apply IH. destruct (m !! k); [|done].
  destruct (decide (json_string k = j)) as [->|]; [by rewrite lookup_insert_eq|by rewrite lookup_insert_ne].
Qed.

(** No name is lost, up to the conversion. *)
Lemma json_map_keeps f m k : is_Some (m !! k) → is_Some (json_map f m !! json_string k).
Proof.
  intros [a Ha]. change (json_map f m) with (json_fold f m ∅ (sort_strings (map_to_list m).*1)).
  assert (k ∈ sort_strings (map_to_list m).*1) as Hin by (by apply elem_of_sort_strings, elem_of_map_keys).
  revert Hin. generalize (∅ : gmap string A). induction (sort_strings _) as [|j l IH]; intros acc; [by intros ?%not_elem_of_nil|].
  intros [->|Hin]%elem_of_cons; simpl; [|by apply IH]. rewrite Ha. apply json_fold_is_Some. by rewrite lookup_insert_eq.
Qed.

Lemma json_map_empty f m : json_map f m = ∅ → m = ∅.
Proof.
  intros He. apply map_empty. intros k. apply eq_None_not_Some. intros Hk%(json_map_keeps f). rewrite He, lookup_empty in Hk.
  by destruct Hk.
Qed.

Lemma json_omitempty_idem f (m : gomap A) :
  (∀ a, f (f a) = f a) → json_omitempty f (json_omitempty f m) = json_omitempty f m.
Proof.
  intros Hf. unfold json_omitempty, mlen. destruct (decide (size (entries m) = 0)) as [Hm|Hm]; simpl; [done|].
  rewrite decide_False; [by rewrite json_map_idem|]. contradict Hm.
  apply map_size_empty_inv, json_map_empty in Hm. by rewrite Hm, map_size_empty.
Qed.
End objects.

Lemma json_fields_idem fields : json_fields (json_fields fields) = json_fields fields.
Proof. unfold json_fields. by rewrite list_to_map_to_list, json_map_idem by apply json_string_idem. Qed.

Lemma json_any_idem a : json_any (json_any a) = json_any a.
Proof.
  induction a; simpl; rewrite ?json_string_idem, ?json_fields_idem; try done;
    f_equal; rewrite <-list_fmap_compose; apply list_fmap_ext; intros; apply json_string_idem.
Qed.
