(* ===== verification/Checkpoint.v ===== *)
(** Checkpoints on disk: [src/internal/checkpoint/checkpoint.go].

    A file is represented by what [json.Unmarshal] makes of its bytes; the disk
    operations of one call are a list of primitive steps, so that a crash between
    two of them is a prefix of the list. *)
From S2P Require Import Prelude.
From S2P Require Import Values.
From S2P Require Import Result.
From S2P Require Import GoPath.
From S2P Require Import Json.

(** ** Data *)

Record HostState : Type := MkHostState {
  hs_Status : Status;
  hs_Message : string;
  hs_Stdout : string;
  hs_Stderr : string;
  hs_Metadata : gomap any;
  hs_StartTime : Time;
  hs_EndTime : Time;
}.

Record NodeState : Type := MkNodeState {
  ns_Status : Status;
  ns_StartedAt : Time;
  ns_CompletedAt : Time;
  ns_Message : string;
  ns_HostStates : gomap HostState;
  ns_Output : gomap any;
  ns_PrecheckSkipped : bool;
}.

Record ModuleState : Type := MkModuleState {
  ms_Status : Status;
  ms_CompletedNodes : list string;
  ms_FailedNodes : list string;
}.

Record ConfigSnapshot : Type := MkConfigSnapshot {
  cs_ConfigHash : string;
  cs_KubernetesVersion : string;
  cs_EtcdVersion : string;
  cs_ContainerRuntime : string;
}.

Record Checkpoint : Type := MkCheckpoint {
  ck_Version : Z;
  ck_ClusterName : string;
  ck_PipelineName : string;
  ck_GraphName : string;
  ck_CreatedAt : Time;
  ck_UpdatedAt : Time;
  ck_NodeStates : gomap NodeState;
  ck_ModuleStates : gomap ModuleState;
  ck_PipelineState : gomap any;
  ck_ConfigSnapshot : option ConfigSnapshot;
  ck_Status : Status;
  ck_LastCompletedNode : string;
  ck_ResumeCount : Z;
}.

Definition ck_set_UpdatedAt (t : Time) (c : Checkpoint) : Checkpoint :=
  MkCheckpoint (ck_Version c) (ck_ClusterName c) (ck_PipelineName c) (ck_GraphName c)
    (ck_CreatedAt c) t (ck_NodeStates c) (ck_ModuleStates c) (ck_PipelineState c)
    (ck_ConfigSnapshot c) (ck_Status c) (ck_LastCompletedNode c) (ck_ResumeCount c).

(** ** JSON *)

(** What a round trip through JSON makes of each record; see [Json] for the values. *)
Definition json_HostState (h : HostState) : HostState :=
  MkHostState (hs_Status h) (json_string (hs_Message h)) (json_string (hs_Stdout h)) (json_string (hs_Stderr h))
    (json_omitempty json_any (hs_Metadata h)) (hs_StartTime h) (hs_EndTime h).

Definition json_NodeState (n : NodeState) : NodeState :=
  MkNodeState (ns_Status n) (ns_StartedAt n) (ns_CompletedAt n) (json_string (ns_Message n))
    (json_omitempty json_HostState (ns_HostStates n)) (json_omitempty json_any (ns_Output n))
    (ns_PrecheckSkipped n).

Definition json_ModuleState (m : ModuleState) : ModuleState :=
  MkModuleState (ms_Status m) (json_string <$> ms_CompletedNodes m) (json_string <$> ms_FailedNodes m).

Definition json_ConfigSnapshot (s : ConfigSnapshot) : ConfigSnapshot :=
  MkConfigSnapshot (json_string (cs_ConfigHash s)) (json_string (cs_KubernetesVersion s))
    (json_string (cs_EtcdVersion s)) (json_string (cs_ContainerRuntime s)).

(** The checkpoint [json.Unmarshal] reads back from what [json.MarshalIndent] wrote. *)
Definition json_view (c : Checkpoint) : Checkpoint :=
  MkCheckpoint (ck_Version c) (json_string (ck_ClusterName c)) (json_string (ck_PipelineName c))
    (json_string (ck_GraphName c)) (ck_CreatedAt c) (ck_UpdatedAt c)
    (option_map (json_map json_NodeState) (ck_NodeStates c))
    (json_omitempty json_ModuleState (ck_ModuleStates c))
    (json_omitempty json_any (ck_PipelineState c)) (option_map json_ConfigSnapshot (ck_ConfigSnapshot c)) (ck_Status c)
    (json_string (ck_LastCompletedNode c)) (ck_ResumeCount c).

(** [Time.MarshalJSON] refuses a time outside the years 0 to 9999; times are in
    nanoseconds since the first day of the year 1. *)
Definition time_able (t : Time) : bool :=
  let day := (24 * 60 * 60 * 1000000000)%Z in ((-366 * day <=? t) && (t <? 3652059 * day))%Z.

Definition bag_able (m : gomap any) : bool :=
  forallb (λ '(_, a), json_able a) (map_to_list (entries m)).

Definition host_able (h : HostState) : bool :=
  bag_able (hs_Metadata h) && time_able (hs_StartTime h) && time_able (hs_EndTime h).

Definition node_able (n : NodeState) : bool :=
  time_able (ns_StartedAt n) && time_able (ns_CompletedAt n) && bag_able (ns_Output n)
  && forallb (λ '(_, h), host_able h) (map_to_list (entries (ns_HostStates n))).

Definition checkpoint_able (c : Checkpoint) : bool :=
  time_able (ck_CreatedAt c) && time_able (ck_UpdatedAt c) && bag_able (ck_PipelineState c)
  && forallb (λ '(_, n), node_able n) (map_to_list (entries (ck_NodeStates c))).

(** The bytes of a file: a document that decodes to a checkpoint, or bytes that
    do not decode. *)
Inductive content : Type :=
| Document (c : Checkpoint)
| Undecodable.

Definition json_Marshal (c : Checkpoint) : option content :=
  if checkpoint_able c then Some (Document (json_view c)) else None.

Definition json_Unmarshal (d : content) : option Checkpoint :=
  match d with Document c => Some c | Undecodable => None end.

(** ** The disk *)

Abbreviation disk := (gmap string content) (only parsing).

(** The primitive steps; [os.WriteFile] truncates the file, then fills it. *)
Inductive fs_op : Type :=
| OpMkdirAll (dir : string)
| OpTruncate (path : string)
| OpFill (path : string) (d : content)
| OpRename (from to : string)
| OpRemove (path : string).

Definition fs_apply (op : fs_op) (d : disk) : disk :=
  match op with
  | OpMkdirAll _ => d
  | OpTruncate p => <[p := Undecodable]> d
  | OpFill p c => <[p := c]> d
  | OpRename p q => match d !! p with Some c => <[q := c]> (delete p d) | None => d end
  | OpRemove p => delete p d
  end.

(** Which operations the operating system refuses, and what reading fails with. *)
Class Faults := {
  op_fault : fs_op → option string;
  read_fault : string → option string;
}.

Definition no_faults : Faults := {| op_fault _ := None; read_fault _ := None |}.

Inductive checkpoint_error : Type :=
| CheckpointNil
| MkdirFailed (err : string)
| MarshalFailed
| WriteFailed (err : string)
| RenameFailed (err : string)
| ReadFailed (err : string)
| UnmarshalFailed
| RemoveFailed (err : string).

Definition fs_step `{Faults} (err : string → checkpoint_error) (op : fs_op) : M disk checkpoint_error unit := λ d,
  match op_fault op with
  | Some msg => (Err (err msg), d)
  | None => (Ok tt, fs_apply op d)
  end.

(** ** Operations *)

Definition CheckpointPath (CheckpointDir clusterName pipelineName : string) : string :=
  filepath_Join [CheckpointDir; pipelineName +:+ ".checkpoint.json"].

(** [Save] stores the time into the checkpoint it is given, also when it fails. *)
Definition Save `{Faults} (now : Time) (CheckpointDir clusterName pipelineName : string)
    (ckpt : option Checkpoint) : M disk checkpoint_error (option Checkpoint) :=
  match ckpt with
  | None => fail CheckpointNil
  | Some c =>
      let c := ck_set_UpdatedAt now c in
      let path := CheckpointPath CheckpointDir clusterName pipelineName in
      fs_step MkdirFailed (OpMkdirAll (filepath_Dir path)) ≫= λ _,
      match json_Marshal c with
      | None => fail MarshalFailed
      | Some data =>
          let tmpPath := path +:+ ".tmp" in
          fs_step WriteFailed (OpTruncate tmpPath) ≫= λ _,
          fs_step WriteFailed (OpFill tmpPath data) ≫= λ _,
          fs_step RenameFailed (OpRename tmpPath path) ≫= λ _,
          mret (Some c)
      end
  end.

(** [Ok None] when there is no file. *)
Definition Load `{Faults} (CheckpointDir clusterName pipelineName : string) (d : disk)
    : outcome checkpoint_error (option Checkpoint) :=
  let path := CheckpointPath CheckpointDir clusterName pipelineName in
  match d !! path, read_fault path with
  | None, _ => Ok None
  | Some _, Some err => Err (ReadFailed err)
  | Some data, None =>
      match json_Unmarshal data with
      | None => Err UnmarshalFailed
      | Some c => Ok (Some c)
      end
  end.

(** [os.Remove] of a missing file is not an error. *)
Definition Delete `{Faults} (CheckpointDir clusterName pipelineName : string) : M disk checkpoint_error unit := λ d,
  let path := CheckpointPath CheckpointDir clusterName pipelineName in
  match d !! path with
  | None => (Ok tt, d)
  | Some _ => fs_step RemoveFailed (OpRemove path) d
  end.

Definition Exists (CheckpointDir clusterName pipelineName : string) (d : disk) : bool :=
  bool_decide (is_Some (d !! CheckpointPath CheckpointDir clusterName pipelineName)).

Definition FromCheckpoint (ckpt : option Checkpoint) : gomap NodeState :=
  match ckpt with None => None | Some c => ck_NodeStates c end.

(** ** Crashes *)

(** The steps a [Save] that meets no refusal performs, in order. *)
Definition save_ops (now : Time) (CheckpointDir clusterName pipelineName : string)
    (c : Checkpoint) : list fs_op :=
  let path := CheckpointPath CheckpointDir clusterName pipelineName in
  [OpMkdirAll (filepath_Dir path); OpTruncate (path +:+ ".tmp");
   OpFill (path +:+ ".tmp") (Document (json_view (ck_set_UpdatedAt now c)));
   OpRename (path +:+ ".tmp") path].

Definition fs_run (ops : list fs_op) (d : disk) : disk := foldl (λ d op, fs_apply op d) d ops.

(** ** Lemmas *)

Lemma json_strings_idem (l : list string) : json_string <$> (json_string <$> l) = json_string <$> l.
Proof. rewrite <-list_fmap_compose. apply list_fmap_ext. intros. apply json_string_idem. Qed.

Lemma json_HostState_idem h : json_HostState (json_HostState h) = json_HostState h.
Proof. unfold json_HostState. simpl. by rewrite !json_string_idem, json_omitempty_idem by apply json_any_idem. Qed.

Lemma json_NodeState_idem n : json_NodeState (json_NodeState n) = json_NodeState n.
Proof.
  unfold json_NodeState. simpl.
  by rewrite json_string_idem, !json_omitempty_idem by (apply json_any_idem || apply json_HostState_idem).
Qed.

Lemma json_ModuleState_idem m : json_ModuleState (json_ModuleState m) = json_ModuleState m.
Proof. unfold json_ModuleState. simpl. by rewrite !json_strings_idem. Qed.

(** A document decodes to something that encodes to it again. *)
Lemma json_view_idem c : json_view (json_view c) = json_view c.
Proof.
  unfold json_view. simpl. rewrite !json_string_idem, !json_omitempty_idem by (apply json_ModuleState_idem || apply json_any_idem).
  f_equal; [|by destruct (ck_ConfigSnapshot c) as [[]|]; simpl; unfold json_ConfigSnapshot; simpl; rewrite ?json_string_idem].
  destruct (ck_NodeStates c) as [m|]; simpl; [|done]. by rewrite json_map_idem by apply json_NodeState_idem.
Qed.

Lemma tmp_path_ne (p : string) : p +:+ ".tmp" ≠ p.
Proof.
  induction p as [|c p IH]; [done|]. change (String c (p +:+ ".tmp") ≠ String c p). congruence.
Qed.

(** ** Properties *)

Section properties.
Context `{Faults}.
Implicit Types (d : disk) (dir cluster pipeline : string).

Lemma fs_step_ok err op d d' : fs_step err op d = (Ok tt, d') → d' = fs_apply op d ∧ op_fault op = None.
Proof. unfold fs_step. destruct (op_fault op); [done|]. by intros [= <-]. Qed.

Lemma fs_step_err err op d e d' : fs_step err op d = (Err e, d') → d' = d.
Proof. unfold fs_step. destruct (op_fault op); [|done]. intros Hs. by simplify_eq. Qed.

Lemma fs_step_no_panic err op d d' : fs_step err op d ≠ (Panic, d').
Proof. unfold fs_step. by destruct (op_fault op). Qed.

(** The run of [Save], by the step it stops at. *)
Lemma Save_cases now dir cluster pipeline c d r d' :
  Save now dir cluster pipeline (Some c) d = (r, d') →
  let path := CheckpointPath dir cluster pipeline in
  let c' := ck_set_UpdatedAt now c in
  (r = Ok (Some c') ∧ checkpoint_able c' = true ∧ d' = fs_run (save_ops now dir cluster pipeline c) d) ∨
  (∃ e, r = Err e ∧ (d' = d ∨ d' = <[path +:+ ".tmp" := Undecodable]> d ∨
     d' = <[path +:+ ".tmp" := Document (json_view c')]> (<[path +:+ ".tmp" := Undecodable]> d))).
Proof.
  intros Hrun path c'. unfold Save, mbind, M_bind in Hrun. fold path c' in Hrun.
  destruct (fs_step MkdirFailed _ d) as [[[]|e|] d1] eqn:H1;
    [|apply fs_step_err in H1 as ->; simplify_eq; by eauto|by destruct (fs_step_no_panic _ _ _ _ H1)].
  apply fs_step_ok in H1 as [-> _]. simpl in Hrun.
  unfold json_Marshal in Hrun. destruct (checkpoint_able c') eqn:Hable; [|unfold fail in Hrun; simplify_eq/=; by eauto].
  destruct (fs_step WriteFailed (OpTruncate _) _) as [[[]|e|] d2] eqn:H2;
    [|apply fs_step_err in H2 as ->; simplify_eq; by eauto|by destruct (fs_step_no_panic _ _ _ _ H2)].
  apply fs_step_ok in H2 as [-> _].
  destruct (fs_step WriteFailed (OpFill _ _) _) as [[[]|e|] d3] eqn:H3;
    [|apply fs_step_err in H3 as ->; simplify_eq; right; eexists; split; [done|by right; left]|by destruct (fs_step_no_panic _ _ _ _ H3)].
  apply fs_step_ok in H3 as [-> _].
  destruct (fs_step RenameFailed _ _) as [[[]|e|] d4] eqn:H4;
    [|apply fs_step_err in H4 as ->; simplify_eq; right; eexists; split; [done|by right; right]|by destruct (fs_step_no_panic _ _ _ _ H4)].
  apply fs_step_ok in H4 as [-> _]. unfold mret, M_ret in Hrun. simplify_eq. by left.
Qed.

Lemma save_ops_content now dir cluster pipeline c d :
  let path := CheckpointPath dir cluster pipeline in
  fs_run (save_ops now dir cluster pipeline c) d !! path =
    Some (Document (json_view (ck_set_UpdatedAt now c))).
Proof.
  intros path. unfold fs_run, save_ops. fold path. simpl. rewrite lookup_insert_eq.
  by rewrite lookup_insert_eq.
Qed.

(** C39: what [Save] reports as saved, [Load] reads back when the file can be read: the
    checkpoint as JSON represents it (its strings made valid UTF-8, the integers among
    its values rounded to [float64]), with the time of the save in [UpdatedAt], and
    reading is stable under saving again; files other than the checkpoint and its temporary are
    untouched. *)
Theorem Save_Load_roundtrip now dir cluster pipeline ckpt d r d' :
  Save now dir cluster pipeline ckpt d = (Ok r, d') →
  read_fault (CheckpointPath dir cluster pipeline) = None →
  ∃ c, ckpt = Some c ∧ r = Some (ck_set_UpdatedAt now c) ∧
    Load dir cluster pipeline d' = Ok (Some (json_view (ck_set_UpdatedAt now c))) ∧
    json_view (json_view (ck_set_UpdatedAt now c)) = json_view (ck_set_UpdatedAt now c) ∧
    ∀ p, p ≠ CheckpointPath dir cluster pipeline → p ≠ CheckpointPath dir cluster pipeline +:+ ".tmp" →
      d' !! p = d !! p.
Proof.
  destruct ckpt as [c|]; [|done]. intros Hrun Hread. exists c. split; [done|].
  apply Save_cases in Hrun as [(Hr & _ & ->)|(e & ? & _)]; [|done]. simplify_eq.
  split_and!; [done| |apply json_view_idem|].
  - unfold Load. by rewrite save_ops_content, Hread.
  - intros p Hp Htmp. unfold fs_run, save_ops. simpl. rewrite lookup_insert_eq.
    by rewrite lookup_insert_ne, lookup_delete_ne, !lookup_insert_ne by done.
Qed.

(** C38: saving is atomic: a [Save] that reports an error leaves the checkpoint
    file as it was, and a crash between any two of its disk operations leaves it
    either as it was or holding the complete new checkpoint. *)
Theorem Save_atomic now dir cluster pipeline d :
  (∀ ckpt e d', Save now dir cluster pipeline ckpt d = (Err e, d') →
     d' !! CheckpointPath dir cluster pipeline = d !! CheckpointPath dir cluster pipeline) ∧
  (∀ c k, let d' := fs_run (take k (save_ops now dir cluster pipeline c)) d in
     d' !! CheckpointPath dir cluster pipeline = d !! CheckpointPath dir cluster pipeline ∨
     d' !! CheckpointPath dir cluster pipeline = Some (Document (json_view (ck_set_UpdatedAt now c)))).
Proof.
  set (path := CheckpointPath dir cluster pipeline).
  pose proof (tmp_path_ne path) as Hne. split.
  - intros [c|] e d' Hrun; [|by unfold Save, fail in Hrun; simplify_eq].
    apply Save_cases in Hrun as [(? & _)|(e' & _ & [-> | [-> | ->]])]; [done..| |].
    + by rewrite lookup_insert_ne by done.
    + by rewrite !lookup_insert_ne by done.
  - intros c k. destruct k as [|[|[|[|k]]]]; simpl; fold path.
    + by left.
    + by left.
    + left. by rewrite lookup_insert_ne by done.
    + left. by rewrite !lookup_insert_ne by done.
    + right. rewrite take_nil. simpl. rewrite lookup_insert_eq. by rewrite lookup_insert_eq.
Qed.

(** Deleting removes the checkpoint and nothing else: after it [Exists]
    is false and [Load] finds none, and deleting a missing checkpoint succeeds. *)
Theorem Delete_spec dir cluster pipeline d :
  (∀ d', Delete dir cluster pipeline d = (Ok tt, d') →
     d' = delete (CheckpointPath dir cluster pipeline) d ∧
     Exists dir cluster pipeline d' = false ∧ Load dir cluster pipeline d' = Ok None) ∧
  (Exists dir cluster pipeline d = false → Delete dir cluster pipeline d = (Ok tt, d)) ∧
  (∀ e d', Delete dir cluster pipeline d = (Err e, d') → d' = d).
Proof.
  unfold Delete, Exists, Load. set (path := CheckpointPath dir cluster pipeline).
  destruct (d !! path) eqn:Hd; split_and!.
  - intros d' [-> _]%fs_step_ok. simpl. by rewrite lookup_delete_eq.
  - done.
  - by intros e d' ->%fs_step_err.
  - intros d' [= <-]. by rewrite delete_id, Hd.
  - done.
  - done.
Qed.
End properties.

(** The cluster's name takes no part in the path: two clusters whose checkpoints
    share a directory share the checkpoint of a pipeline. *)
Lemma CheckpointPath_ignores_cluster dir cluster cluster' pipeline :
  CheckpointPath dir cluster pipeline = CheckpointPath dir cluster' pipeline.
Proof. done. Qed.
