(* ===== verification/Scheduler.v ===== *)
(** The executor of a graph: [Execute], [worker], [restoreNodeResult],
    [saveNodeState] and [dryRun] of [src/internal/engine/executor.go].

    The goroutine of [Execute] and its pool of workers communicate through two
    buffered channels; a run is a sequence of steps, each of which lets one of
    them act.  What a worker does to the world, and the worlds other goroutines
    leave it, are left open. *)
From S2P Require Import Prelude.
From S2P Require Import Values.
From S2P Require Import Plan.
From S2P Require Import Result.
From S2P Require Import GoPath.
From S2P Require Import Context.
From S2P Require Import StepRunner.
From S2P Require Import NodeRunner.
From S2P Require Import Checkpoint.

(** ** Checkpointed results *)

(** [restoreNodeResult], given a copy of the state. *)
Definition restore_host (hostname : string) (h : HostState) : HostResult :=
  MkHostResult hostname (hs_Status h) (hs_Message h) (hs_Stdout h) (hs_Stderr h)
    (hs_Metadata h) (hs_StartTime h) (hs_EndTime h).

Definition restoreNodeResult `{GoRange} (nodeState : NodeState) (nr : NodeResult) : NodeResult :=
  let states := entries (ns_HostStates nodeState) in
  let hosts :=
    if decide (size states = 0) then nr_HostResults nr
    else Some (foldl (λ m '(hostname, h), <[hostname := restore_host hostname h]> m)
                 (entries (nr_HostResults nr)) (range 90 states)) in
  MkNodeResult (nr_NodeName nr) (nr_StepName nr) (ns_Status nodeState)
    (if IsZero (ns_StartedAt nodeState) then nr_StartTime nr else ns_StartedAt nodeState)
    (if IsZero (ns_CompletedAt nodeState) then nr_EndTime nr else ns_CompletedAt nodeState)
    (ns_Message nodeState) hosts
    (if decide (0 < mlen (ns_Output nodeState)) then ns_Output nodeState else nr_Output nr).

Definition save_host (hr : HostResult) : HostState :=
  MkHostState (hr_Status hr) (hr_Message hr) (hr_Stdout hr) (hr_Stderr hr)
    (hr_Metadata hr) (hr_StartTime hr) (hr_EndTime hr).

(** [None] when the checkpoint's map is nil: the assignment panics. *)
Definition saveNodeState `{GoRange} (now : Time) (nodeID : NodeID) (nr : NodeResult)
    (hostResults : gomap HostResult) (output : gomap any) (ckpt : Checkpoint) : option Checkpoint :=
  match ck_NodeStates ckpt with
  | None => None
  | Some states =>
      let hosts := foldl (λ m '(hostname, hr), <[hostname := save_host hr]> m) ∅
                     (range 91 (entries hostResults)) in
      let nodeState := MkNodeState (nr_Status nr) (nr_StartTime nr) (nr_EndTime nr)
                         (nr_Message nr) (Some hosts) output false in
      Some (MkCheckpoint (ck_Version ckpt) (ck_ClusterName ckpt) (ck_PipelineName ckpt)
              (ck_GraphName ckpt) (ck_CreatedAt ckpt) now (Some (<[nodeID := nodeState]> states))
              (ck_ModuleStates ckpt) (ck_PipelineState ckpt) (ck_ConfigSnapshot ckpt)
              (ck_Status ckpt) nodeID (ck_ResumeCount ckpt))
  end.

Definition ck_set_Status (s : Status) (c : Checkpoint) : Checkpoint :=
  MkCheckpoint (ck_Version c) (ck_ClusterName c) (ck_PipelineName c) (ck_GraphName c)
    (ck_CreatedAt c) (ck_UpdatedAt c) (ck_NodeStates c) (ck_ModuleStates c) (ck_PipelineState c)
    (ck_ConfigSnapshot c) s (ck_LastCompletedNode c) (ck_ResumeCount c).

Definition ck_count_resume (c : Checkpoint) : Checkpoint :=
  MkCheckpoint (ck_Version c) (ck_ClusterName c) (ck_PipelineName c) (ck_GraphName c)
    (ck_CreatedAt c) (ck_UpdatedAt c) (ck_NodeStates c) (ck_ModuleStates c) (ck_PipelineState c)
    (ck_ConfigSnapshot c) (ck_Status c) (ck_LastCompletedNode c) (ck_ResumeCount c + 1).

(** ** The state of a run *)

Record exec_state (X : Type) : Type := MkExec {
  x_NodeResults : gmap NodeID NodeResult;
  x_inDegree : gmap NodeID Z;
  x_processed : nat;
  x_tasks : list NodeID;
  x_running : list NodeID;
  x_results : list workerResult;
  x_ckpt : option Checkpoint;
  x_disk : gmap string content;
  x_world : World X;
}.
Arguments MkExec {X} _ _ _ _ _ _ _ _ _.
Arguments x_NodeResults {X} _.
Arguments x_inDegree {X} _.
Arguments x_processed {X} _.
Arguments x_tasks {X} _.
Arguments x_running {X} _.
Arguments x_results {X} _.
Arguments x_ckpt {X} _.
Arguments x_disk {X} _.
Arguments x_world {X} _.

(** A send on a full channel. *)
Inductive blocked : Type := Blocked.

Section execute.
Context {X : Type} `{Clock X, GoRange, Faults}.
Variables (e : dagExecutor) (g : ExecutionGraph).

(** [e.persister != nil && e.opts.ClusterName != "" && e.opts.PipelineName != ""] *)
Definition checkpointing : option string :=
  match persister e with
  | Some dir =>
      if decide (opt_ClusterName (opts e) ≠ "" ∧ opt_PipelineName (opts e) ≠ "") then Some dir else None
  | None => None
  end.

Definition load_checkpoint (d : gmap string content) : option Checkpoint :=
  match checkpointing with
  | None => None
  | Some dir =>
      match Load dir (opt_ClusterName (opts e)) (opt_PipelineName (opts e)) d with
      | Ok (Some c) => Some (ck_count_resume c)
      | _ => None
      end
  end.

Definition init_checkpoint (ckpt : option Checkpoint) : option Checkpoint :=
  match ckpt, checkpointing with
  | Some c, _ => Some c
  | None, Some _ =>
      Some (MkCheckpoint 1 (opt_ClusterName (opts e)) (opt_PipelineName (opts e)) (g_Name g) 0 0
              (Some ∅) None None None StatusRunning "" 0)
  | None, None => None
  end.

(** [e.persister.Save(...)], whose error is only logged. *)
Definition save_checkpoint (t : Time) (ckpt : option Checkpoint) (d : gmap string content)
    : option Checkpoint * gmap string content :=
  match ckpt, persister e with
  | Some c, Some dir =>
      (Some (ck_set_UpdatedAt t c),
       (Save t dir (opt_ClusterName (opts e)) (opt_PipelineName (opts e)) (Some c) d).2)
  | _, _ => (ckpt, d)
  end.

(** *** Preparation *)

Abbreviation tables := (gmap NodeID Z * gmap NodeID (list NodeID) * gmap NodeID NodeResult)%type.

(** One node in the first loop of [Execute]. *)
Definition exec_table (t : Time) (ckpt : option Checkpoint) (id : NodeID) (node : ExecutionNode)
    (acc : tables) : tables :=
  let '(inDegree, dependents, results) := acc in
  let nr := NewNodeResult t (node_Name node) (node_StepName node) in
  let nr :=
    match entries (FromCheckpoint ckpt) !! id with
    | Some nodeState => restoreNodeResult nodeState nr
    | None => nr
    end in
  (<[id := Z.of_nat (length (node_Dependencies node))]> inDegree,
   foldl (λ m depID, <[depID := default [] (m !! depID) ++ [id]]> m) dependents (node_Dependencies node),
   <[id := nr]> results).

(** [alreadyDone], as the set of its keys. *)
Definition alreadyDone (ckpt : option Checkpoint) : gset NodeID :=
  dom (filter (λ '(_, s), ns_Status s = StatusSuccess ∨ ns_Status s = StatusSkipped)
    (entries (FromCheckpoint ckpt))).

(** The initial dispatch; [None] when a send blocks. *)
Fixpoint dispatch_entries (cap : nat) (done : gset NodeID) (l : list (NodeID * Z)) (tasks : list NodeID)
    : option (list NodeID) :=
  match l with
  | [] => Some tasks
  | (id, degree) :: l =>
      if decide (degree = 0%Z ∧ id ∉ done) then
        chan_send cap tasks id ≫= dispatch_entries cap done l
      else dispatch_entries cap done l tasks
  end.

(** *** One result *)

(** [for _, dependentID := range dependents[nodeID] { ... tasks <- dependentID }] *)
Fixpoint release (cap : nat) (vs : list NodeID) (inDegree : gmap NodeID Z) (tasks : list NodeID)
    : option (gmap NodeID Z * list NodeID) :=
  match vs with
  | [] => Some (inDegree, tasks)
  | v :: vs =>
      let d := (zlookup inDegree v - 1)%Z in
      if decide (d = 0%Z) then
        match chan_send cap tasks v with
        | None => None
        | Some tasks => release cap vs (<[v := d]> inDegree) tasks
        end
      else release cap vs (<[v := d]> inDegree) tasks
  end.

Definition skip_message (nodeID : NodeID) : string :=
  "Skipped due to upstream failure/skip of node '" +:+ nodeID +:+ "'".

Definition skip_result (t : Time) (nodeID : NodeID) (nr : NodeResult) : NodeResult :=
  MkNodeResult (nr_NodeName nr) (nr_StepName nr) StatusSkipped (nr_StartTime nr) t
    (skip_message nodeID) (nr_HostResults nr) (nr_Output nr).

(** The queue loop that skips everything downstream of [nodeID]; [None] is a nil
    node result, which panics, or running out of fuel. *)
Fixpoint cascade (fuel : nat) (t : Time) (dependents : gmap NodeID (list NodeID)) (nodeID : NodeID)
    (queue : list NodeID) (results : gmap NodeID NodeResult) (processed : nat)
    : option (gmap NodeID NodeResult * nat) :=
  match queue with
  | [] => Some (results, processed)
  | skipID :: queue =>
      match fuel with
      | 0 => None
      | S fuel =>
          match results !! skipID with
          | None => None
          | Some nr =>
              if decide (nr_Status nr = StatusPending) then
                cascade fuel t dependents nodeID (queue ++ default [] (dependents !! skipID))
                  (<[skipID := skip_result t nodeID nr]> results) (S processed)
              else cascade fuel t dependents nodeID queue results processed
          end
      end
  end.

(** Every node is expanded once at most. *)
Definition cascade_fuel (dependents : gmap NodeID (list NodeID)) (queue : list NodeID)
    (results : gmap NodeID NodeResult) : nat :=
  length queue + sum_list_with (λ v, length (default [] (dependents !! v))) (map_to_list results).*1.

(** The first non-nil bag of the root context, from the task scope outwards. *)
Definition output_bag (c : Context) : option loc :=
  let s := ctx_scopes c in
  match sc_TaskState s, sc_ModuleState s, sc_PipelineState s with
  | Some l, _, _ | None, Some l, _ | None, None, Some l => Some l
  | None, None, None => None
  end.

Definition merge_output (c : Context) (output : gomap any) (w : World X) : World X :=
  if decide (0 < mlen output) then
    match output_bag c with
    | Some l => MkWorld (set_all l (range 92 (entries output)) (w_heap w)) (w_ext w)
    | None => w
    end
  else w.

(** The part of the loop that records a node in the checkpoint and saves it. *)
Definition update_checkpoint (t : Time) (res : workerResult) (nr : NodeResult) (ckpt : option Checkpoint)
    (d : gmap string content) : option (option Checkpoint * gmap string content) :=
  match ckpt with
  | None => Some (None, d)
  | Some c =>
      match saveNodeState t (wr_nodeID res) nr (wr_hostResults res) (wr_output res) c with
      | None => None
      | Some c => Some (save_checkpoint t (Some c) d)
      end
  end.

(** The body of the loop of [Execute] on the result [res]. *)
Definition on_result (execCtx : Context) (dependents : gmap NodeID (list NodeID)) (res : workerResult)
    (st : exec_state X) : outcome blocked (exec_state X) :=
  let nodeID := wr_nodeID res in
  let w := x_world st in
  match x_NodeResults st !! nodeID with
  | None => Panic
  | Some nr0 =>
      let processed := if decide (nr_Status nr0 = StatusPending) then S (x_processed st) else x_processed st in
      let nr := MkNodeResult (nr_NodeName nr0) (nr_StepName nr0) (wr_status res) (nr_StartTime nr0)
                  (now w) (wr_message res) (wr_hostResults res) (nr_Output nr0) in
      let results := <[nodeID := nr]> (x_NodeResults st) in
      let w := merge_output execCtx (wr_output res) w in
      match update_checkpoint (now w) res nr (x_ckpt st) (x_disk st) with
      | None => Panic
      | Some (ckpt, d) =>
          let vs := default [] (dependents !! nodeID) in
          if decide (wr_status res = StatusFailed ∨ wr_status res = StatusSkipped) then
            match cascade (cascade_fuel dependents vs results) (now w) dependents nodeID vs results processed with
            | None => Panic
            | Some (results, processed) =>
                Ok (MkExec results (x_inDegree st) processed (x_tasks st) (x_running st) (x_results st) ckpt d w)
            end
          else
            match release (mlen (g_Nodes g)) vs (x_inDegree st) (x_tasks st) with
            | None => Err Blocked
            | Some (inDegree, tasks) =>
                Ok (MkExec results inDegree processed tasks (x_running st) (x_results st) ckpt d w)
            end
      end
  end.

(** *** Steps *)

Definition set_queues (tasks running : list NodeID) (results : list workerResult) (w : World X)
    (st : exec_state X) : exec_state X :=
  MkExec (x_NodeResults st) (x_inDegree st) (x_processed st) tasks running results
    (x_ckpt st) (x_disk st) w.

Inductive event : Type :=
| Took (id : NodeID)
| Dropped (id : NodeID)
| Reported (res : workerResult)
| Received (res : workerResult).

(** What may happen next: an idle worker takes a task, and drops it when the
    graph has no such node; a busy worker reports, provided the channel of results
    is not full; or [Execute] receives a result. *)
Inductive exec_step `{NR : NodeRunner (World X)} (execCtx : Context) (dependents : gmap NodeID (list NodeID))
    : exec_state X → event → exec_state X → Prop :=
| step_take st id tasks :
    x_tasks st = id :: tasks → length (x_running st) < maxWorkers e →
    is_Some (ExecutionGraph_GetNode id g) →
    exec_step execCtx dependents st (Took id)
      (set_queues tasks (x_running st ++ [id]) (x_results st) (x_world st) st)
| step_drop st id tasks :
    x_tasks st = id :: tasks → length (x_running st) < maxWorkers e →
    ExecutionGraph_GetNode id g = None →
    exec_step execCtx dependents st (Dropped id)
      (set_queues tasks (x_running st) (x_results st) (x_world st) st)
| step_report st running1 id running2 w res w' results :
    x_running st = running1 ++ id :: running2 →
    node_runs w id res w' →
    chan_send (mlen (g_Nodes g)) (x_results st) res = Some results →
    exec_step execCtx dependents st (Reported res)
      (set_queues (x_tasks st) (running1 ++ running2) results w' st)
| step_receive st res results st' :
    x_processed st < mlen (g_Nodes g) →
    x_results st = res :: results →
    on_result execCtx dependents res
      (set_queues (x_tasks st) (x_running st) results (x_world st) st) = Ok st' →
    exec_step execCtx dependents st (Received res) st'.

Inductive exec_trace `{NR : NodeRunner (World X)} (execCtx : Context) (dependents : gmap NodeID (list NodeID))
    : exec_state X → list event → exec_state X → Prop :=
| trace_nil st : exec_trace execCtx dependents st [] st
| trace_snoc st tr st1 ev st2 :
    exec_trace execCtx dependents st tr st1 → exec_step execCtx dependents st1 ev st2 →
    exec_trace execCtx dependents st (tr ++ [ev]) st2.

(** *** Execute *)

(** Everything before the loop, on a graph that passed [Validate]: the state and
    the [dependents] table; [None] is a nil node or a blocked send. *)
Definition exec_init (w : World X) (d : gmap string content) : option (exec_state X * gmap NodeID (list NodeID)) :=
  let nodes := entries (g_Nodes g) in
  let loaded := load_checkpoint d in
  match fold_nodes (range 80 nodes) (exec_table (now w) loaded) (∅, ∅, ∅) with
  | None => None
  | Some (inDegree, dependents, results) =>
      let '(ckpt, d) := save_checkpoint (now w) (init_checkpoint loaded) d in
      let done := alreadyDone ckpt in
      match dispatch_entries (size nodes) done (range 81 inDegree) [] with
      | None => None
      | Some tasks => Some (MkExec results inDegree (size done) tasks [] [] ckpt d w, dependents)
      end
  end.

(** After the loop: the status of the graph, and the fate of the checkpoint. *)
Definition any_failed (results : gmap NodeID NodeResult) : bool :=
  existsb (λ '(_, nr), bool_decide (nr_Status nr = StatusFailed)) (range 82 results).

Definition exec_finish (start : Time) (st : exec_state X) : GraphExecutionResult * gmap string content :=
  let failed := any_failed (x_NodeResults st) in
  let finalStatus := if failed then StatusFailed else StatusSuccess in
  let finalMessage := if failed then "Graph execution failed due to one or more node failures."
                      else "Graph execution completed successfully." in
  let t := now (x_world st) in
  let result := GraphExecutionResult_Finalize t finalStatus finalMessage
                  (MkGraphResult (g_Name g) start 0 StatusPending (x_NodeResults st) "") in
  (result,
   match x_ckpt st, persister e with
   | Some c, Some dir =>
       if failed then (save_checkpoint t (Some (ck_set_Status finalStatus c)) (x_disk st)).2
       else (Delete dir (opt_ClusterName (opts e)) (opt_PipelineName (opts e)) (x_disk st)).2
   | _, _ => x_disk st
   end).

(** [dryRun]: every node and host is reported as skipped. *)
Definition dry_run_host (t : Time) (hosts : gmap string HostResult) (h : Host) : gmap string HostResult :=
  <[host_GetName h := hr_set_EndTime t (hr_set_Status StatusSkipped "Dry run: Host operation skipped."
                        (NewHostResult t (host_GetName h)))]> hosts.

(** A nil host panics. *)
Fixpoint dry_run_hosts (t : Time) (l : list (option Host)) (hosts : gmap string HostResult) : option (gmap string HostResult) :=
  match l with
  | [] => Some hosts
  | None :: _ => None
  | Some h :: l => dry_run_hosts t l (dry_run_host t hosts h)
  end.

Fixpoint dryRun (t : Time) (l : list (NodeID * option ExecutionNode)) (results : gmap NodeID NodeResult)
    : option (gmap NodeID NodeResult) :=
  match l with
  | [] => Some results
  | (_, None) :: _ => None
  | (id, Some node) :: l =>
      match dry_run_hosts t (default [] (node_Hosts node)) ∅ with
      | None => None
      | Some hosts =>
          dryRun t l (<[id := MkNodeResult (node_Name node) (node_StepName node) StatusSkipped t t
                               "Dry run: Node execution skipped." (Some hosts) None]> results)
      end
  end.

Definition execution_context (execCtx : Context) : Context :=
  if decide (0 < opt_Timeout (opts e))%Z
  then WithGoContext (GoWithTimeout (ctx_GoCtx execCtx) (opt_Timeout (opts e))) execCtx
  else execCtx.

(** What [Execute] returns: a result and possibly the validation error. *)
Inductive Execute `{NR : NodeRunner (World X)} (execCtx : Context) (dry : bool) (w : World X) (d : gmap string content)
    : GraphExecutionResult → option plan_error → gmap string content → Prop :=
| Execute_dry results :
    dry = true → dryRun (now w) (range 83 (entries (g_Nodes g))) ∅ = Some results →
    Execute execCtx dry w d
      (MkGraphResult (g_Name g) (now w) 0 StatusPending results "") None d
| Execute_invalid err msg :
    dry = false → ExecutionGraph_Validate g = Err err →
    Execute execCtx dry w d
      (GraphExecutionResult_Finalize (now w) StatusFailed msg (NewGraphExecutionResult (now w) (g_Name g)))
      (Some err) d
| Execute_run st0 dependents tr st result d' :
    dry = false → ExecutionGraph_Validate g = Ok tt →
    exec_init w d = Some (st0, dependents) →
    exec_trace (execution_context execCtx) dependents st0 tr st →
    mlen (g_Nodes g) <= x_processed st →
    exec_finish (now w) st = (result, d') →
    Execute execCtx dry w d result None d'.

End execute.
