(* ===== verification/SchedulerSpec.v ===== *)
(** What the executor of [src/internal/engine/executor.go] guarantees: the
    invariant of a fresh run, its consequences for the order of execution and the
    final statuses, termination, and what a resumed run does. *)
From S2P Require Import Prelude.
From S2P Require Import Values.
From S2P Require Import Plan.
From S2P Require Import Kahn.
From S2P Require Import GraphSpec.
From S2P Require Import Result.
From S2P Require Import GoPath.
From S2P Require Import Context.
From S2P Require Import StepRunner.
From S2P Require Import NodeRunner.
From S2P Require Import Checkpoint.
From S2P Require Import Scheduler.

(** ** Sums over the nodes *)

Lemma sum_update {A} (f f' : A → nat) (l : list A) x :
  NoDup l → x ∈ l → (∀ y, y ≠ x → f y = f' y) →
  sum_list_with f l + f' x = sum_list_with f' l + f x.
Proof.
  intros Hnd Hx Heq. induction Hnd as [|y l Hy Hnd IH]; [by apply elem_of_nil in Hx|].
  simpl. apply elem_of_cons in Hx as [->|Hx].
  - assert (sum_list_with f l = sum_list_with f' l) as ->; [|lia].
    clear -Hy Heq. induction l as [|z l IH]; simpl; [done|].
    rewrite IH by set_solver. rewrite Heq by set_solver. done.
  - rewrite (Heq y) by (intros ->; done). specialize (IH Hx). lia.
Qed.

Lemma sum_list_with_le {A} (f f' : A → nat) (l : list A) :
  (∀ x, x ∈ l → f x <= f' x) → sum_list_with f l <= sum_list_with f' l.
Proof.
  induction l as [|x l IH]; intros Hle; simpl; [lia|].
  pose proof (Hle x). specialize (IH (λ y Hy, Hle y (list_elem_of_further _ _ _ Hy))).
  set_solver by lia.
Qed.

Lemma sum_list_with_zero {A} (f : A → nat) (l : list A) :
  sum_list_with f l = 0 ↔ ∀ x, x ∈ l → f x = 0.
Proof.
  induction l as [|x l IH]; simpl; [split; [by intros _ ? ?%elem_of_nil|done]|].
  split.
  - intros Hs y [->|Hy]%elem_of_cons; [lia|]. apply IH; [lia|done].
  - intros Hall. rewrite (Hall x) by left. apply IH. intros. apply Hall. by right.
Qed.

(** ** Statuses *)

Definition status (R : gmap NodeID NodeResult) (v : NodeID) : Status :=
  from_option nr_Status StatusPending (R !! v).

Lemma status_insert_eq R v nr : status (<[v := nr]> R) v = nr_Status nr.
Proof. unfold status. by rewrite lookup_insert_eq. Qed.

Lemma status_insert_ne R v w nr : w ≠ v → status (<[v := nr]> R) w = status R w.
Proof. intros. unfold status. by rewrite lookup_insert_ne. Qed.

Section statuses.
Context (nodes : node_map).

Definition node_ids : list NodeID := (map_to_list nodes).*1.

(** Every dependency of [v] succeeded. *)
Definition ready (R : gmap NodeID NodeResult) (v : NodeID) : Prop :=
  ∀ d, d ∈ node_deps nodes v → status R d = StatusSuccess.

(** The dependencies of [v] that did not succeed yet, with multiplicity. *)
Definition waiting (R : gmap NodeID NodeResult) (v : NodeID) : nat :=
  length (filter (λ d, status R d ≠ StatusSuccess) (node_deps nodes v)).

(** The nodes without a result. *)
Definition pending_count (R : gmap NodeID NodeResult) : nat :=
  sum_list_with (λ v, if decide (status R v = StatusPending) then 1 else 0) node_ids.

Lemma elem_of_node_ids v : v ∈ node_ids ↔ is_Some (nodes !! v).
Proof. apply elem_of_map_keys. Qed.

Lemma NoDup_node_ids : NoDup node_ids.
Proof. apply NoDup_fst_map_to_list. Qed.

Lemma length_node_ids : length node_ids = size nodes.
Proof. unfold node_ids. by rewrite length_fmap, length_map_to_list. Qed.

Lemma waiting_zero R v : waiting R v = 0 ↔ ready R v.
Proof.
  unfold waiting, ready. rewrite length_zero_iff_nil. split.
  - intros Hnil d Hd. destruct (decide (status R d = StatusSuccess)) as [?|Hne]; [done|].
    assert (d ∈ filter (λ d, status R d ≠ StatusSuccess) (node_deps nodes v)) as Hin
      by by apply list_elem_of_filter.
    rewrite Hnil in Hin. by apply elem_of_nil in Hin.
  - intros Hall. destruct (filter _ _) as [|d l] eqn:Heq; [done|].
    assert (d ∈ filter (λ d, status R d ≠ StatusSuccess) (node_deps nodes v)) as [Hne Hd]%list_elem_of_filter
      by (rewrite Heq; left).
    by apply Hall in Hd.
Qed.

Lemma waiting_ext R R' v :
  (∀ d, status R d = StatusSuccess ↔ status R' d = StatusSuccess) → waiting R v = waiting R' v.
Proof.
  intros Heq. unfold waiting. f_equal. apply list_filter_iff. intros d. by rewrite Heq.
Qed.

Lemma waiting_success R id nr v :
  status R id ≠ StatusSuccess → nr_Status nr = StatusSuccess →
  waiting (<[id := nr]> R) v + occ id (node_deps nodes v) = waiting R v.
Proof.
  intros Hid Hnr. unfold waiting. induction (node_deps nodes v) as [|d l IH]; [done|].
  rewrite !filter_cons. simpl. destruct (decide (id = d)) as [<-|Hne].
  - rewrite (decide_True (P := status R id ≠ StatusSuccess)) by done.
    rewrite decide_False by (rewrite status_insert_eq; naive_solver). simpl. lia.
  - rewrite status_insert_ne by done. case_decide; simpl; lia.
Qed.

Lemma pending_count_insert R v nr :
  is_Some (nodes !! v) → status R v = StatusPending → nr_Status nr ≠ StatusPending →
  pending_count R = S (pending_count (<[v := nr]> R)).
Proof.
  intros Hv Hp Hnr. unfold pending_count.
  pose proof (sum_update (λ v, if decide (status R v = StatusPending) then 1 else 0)
    (λ w, if decide (status (<[v := nr]> R) w = StatusPending) then 1 else 0) node_ids v) as Hs.
  cbn beta in Hs. rewrite status_insert_eq in Hs. rewrite decide_False, decide_True in Hs by done.
  assert (∀ w, w ≠ v → status (<[v := nr]> R) w = status R w) as Hne by (intros; by apply status_insert_ne).
  ospecialize* Hs; [apply NoDup_node_ids|by apply elem_of_node_ids|intros w Hw; by rewrite Hne|lia].
Qed.

Lemma pending_count_zero R :
  pending_count R = 0 ↔ ∀ v, is_Some (nodes !! v) → status R v ≠ StatusPending.
Proof.
  unfold pending_count. rewrite sum_list_with_zero. split.
  - intros Hall v Hv%elem_of_node_ids Hp. specialize (Hall v Hv). by rewrite decide_True in Hall.
  - intros Hall v Hv%elem_of_node_ids. rewrite decide_False; [done|]. by apply Hall.
Qed.
End statuses.

(** ** The cascade *)

Section cascade.
Context (nodes : node_map) (dependents : gmap NodeID (list NodeID)).
Hypothesis dependents_nodes : ∀ u v, v ∈ default [] (dependents !! u) → is_Some (nodes !! v).

Definition out (v : NodeID) : list NodeID := default [] (dependents !! v).

(** The expansions left: the edges out of the nodes still pending. *)
Definition potential (R : gmap NodeID NodeResult) : nat :=
  sum_list_with (λ v, if decide (status R v = StatusPending) then length (out v) else 0) (node_ids nodes).

(** [v] was pending and was skipped. *)
Definition newly_skipped (R R' : gmap NodeID NodeResult) (v : NodeID) : Prop :=
  status R v = StatusPending ∧ status R' v = StatusSkipped.

Lemma potential_insert R v nr :
  is_Some (nodes !! v) → status R v = StatusPending → nr_Status nr ≠ StatusPending →
  potential R = length (out v) + potential (<[v := nr]> R).
Proof.
  intros Hv Hp Hnr. unfold potential.
  pose proof (sum_update (λ v, if decide (status R v = StatusPending) then length (out v) else 0)
    (λ w, if decide (status (<[v := nr]> R) w = StatusPending) then length (out w) else 0)
    (node_ids nodes) v) as Hs.
  cbn beta in Hs. rewrite status_insert_eq in Hs. rewrite (decide_False (P := nr_Status nr = _)) in Hs by done.
  rewrite decide_True in Hs by done.
  assert (∀ w, w ≠ v → status (<[v := nr]> R) w = status R w) as Hne by (intros; by apply status_insert_ne).
  ospecialize* Hs; [apply NoDup_node_ids|by apply elem_of_node_ids|intros w Hw; by rewrite Hne|lia].
Qed.

Lemma cascade_spec fuel t id Q R p :
  (∀ v, is_Some (R !! v) ↔ is_Some (nodes !! v)) →
  (∀ v, v ∈ Q → is_Some (nodes !! v)) →
  length Q + potential R <= fuel →
  ∃ R' p', cascade fuel t dependents id Q R p = Some (R', p') ∧
    (∀ v, is_Some (R' !! v) ↔ is_Some (nodes !! v)) ∧
    (∀ v, status R' v = status R v ∨ newly_skipped R R' v) ∧
    (∀ v, v ∈ Q → status R' v ≠ StatusPending) ∧
    (∀ v w, newly_skipped R R' v → w ∈ out v → status R' w ≠ StatusPending) ∧
    (∀ v, newly_skipped R R' v → v ∈ Q ∨ ∃ u, newly_skipped R R' u ∧ v ∈ out u) ∧
    p' + pending_count nodes R' = p + pending_count nodes R ∧ p ≤ p'.
Proof.
  revert Q R p. induction fuel as [|fuel IH]; intros Q R p Hdom HQ Hfuel.
  { destruct Q as [|q Q]; simpl in Hfuel; [|lia]. exists R, p. split; [done|]. unfold newly_skipped.
    split_and!; [done|by left|by intros v ?%elem_of_nil|intros; naive_solver congruence..|done]. }
  destruct Q as [|q Q]; cbn [cascade].
  { exists R, p. split; [done|]. unfold newly_skipped.
    split_and!; [done|by left|by intros v ?%elem_of_nil|intros; naive_solver congruence..|done]. }
  assert (is_Some (nodes !! q)) as Hq by (apply HQ; left).
  destruct (proj2 (Hdom q) Hq) as [nr Hnr]. rewrite Hnr. simpl in Hfuel.
  assert (status R q = nr_Status nr) as Hst by (unfold status; by rewrite Hnr).
  case_decide as Hp.
  - set (R1 := <[q := skip_result t id nr]> R).
    assert (∀ w, w ≠ q → status R1 w = status R w) as Hne by (intros; by apply status_insert_ne).
    assert (status R1 q = StatusSkipped) as Hq1 by apply status_insert_eq.
    destruct (IH (Q ++ out q) R1 (S p)) as (R' & p' & Hrun & Hdom' & Hst' & HQ' & Hout & Hwhy & Hcount & Hle).
    + intros v. unfold R1. rewrite lookup_insert_is_Some', Hdom. naive_solver.
    + intros v [Hv|Hv]%elem_of_app; [apply HQ; by right|by eapply dependents_nodes].
    + rewrite length_app. rewrite (potential_insert R q (skip_result t id nr)) in Hfuel by (done || congruence).
      fold R1 in Hfuel. lia.
    + assert (status R' q = StatusSkipped) as HqR'.
      { destruct (Hst' q) as [->|[? _]]; congruence. }
      assert (∀ v, newly_skipped R R' v → v = q ∨ newly_skipped R1 R' v) as Hnew.
      { intros v [Hv1 Hv2]. destruct (decide (v = q)) as [->|?]; [by left|right].
        split; [by rewrite Hne|done]. }
      assert (∀ v, newly_skipped R1 R' v → newly_skipped R R' v) as Hnew'.
      { intros v [Hv1 Hv2]. destruct (decide (v = q)) as [->|?]; [congruence|].
        split; [by rewrite <-Hne|done]. }
      exists R', p'. split_and!; [exact Hrun|done|..].
      * intros v. destruct (decide (v = q)) as [->|?].
        -- right. by split; [congruence|].
        -- destruct (Hst' v) as [Heq|?]; [left; by rewrite Heq, Hne|right; auto].
      * intros v [->|Hv]%elem_of_cons; [congruence|]. apply HQ', elem_of_app. by left.
      * intros v w [->|Hv]%Hnew Hw; [|by eapply Hout]. apply HQ', elem_of_app. by right.
      * intros v [->|Hv]%Hnew; [left; left|].
        apply Hwhy in Hv as [[Hv|Hv]%elem_of_app|(u & Hu & Hv)].
        -- left. by right.
        -- right. exists q. split; [|done]. by split; [congruence|].
        -- right. exists u. auto.
      * rewrite (pending_count_insert nodes R q (skip_result t id nr)) by (done || congruence).
        fold R1. lia.
      * lia.
  - destruct (IH Q R p) as (R' & p' & Hrun & Hdom' & Hst' & HQ' & Hout & Hwhy & Hcount & Hle);
      [done|intros; apply HQ; by right|lia|].
    exists R', p'. split_and!; try done.
    + intros v [->|Hv]%elem_of_cons; [|by apply HQ'].
      destruct (Hst' q) as [->|[? _]]; congruence.
    + intros v Hv. destruct (Hwhy v Hv) as [?|?]; [left; by right|by right].
Qed.

Lemma cascade_fuel_enough Q R :
  (∀ v, is_Some (R !! v) ↔ is_Some (nodes !! v)) →
  length Q + potential R <= cascade_fuel dependents Q R.
Proof.
  intros Hdom. unfold cascade_fuel, potential. apply Nat.add_le_mono_l.
  assert (node_ids nodes ≡ₚ (map_to_list R).*1) as ->.
  2:{ apply sum_list_with_le. intros v _. unfold out. case_decide; lia. }
  apply NoDup_Permutation; [apply NoDup_node_ids|apply NoDup_fst_map_to_list|].
  intros v. by rewrite elem_of_node_ids, elem_of_map_keys, Hdom.
Qed.
End cascade.

(** ** Releasing dependents *)

Lemma relax_queue_length vs D Q : length Q <= length (relax vs D Q).2.
Proof.
  revert D Q. induction vs as [|v vs IH]; intros D Q; simpl; [lia|].
  case_decide; [|apply IH]. rewrite <-IH, length_app. lia.
Qed.

(** While the channel has room, releasing is the relaxation step of the cycle
    check of [Validate]. *)
Lemma release_relax cap vs D T :
  length (relax vs D T).2 <= cap → release cap vs D T = Some (relax vs D T).
Proof.
  revert D T. induction vs as [|v vs IH]; intros D T Hlen; simpl in *; [done|].
  case_decide as Hd.
  - unfold chan_send. rewrite decide_True; [by apply IH|].
    pose proof (relax_queue_length vs (<[v:=(zlookup D v - 1)%Z]> D) (T ++ [v])) as Hge.
    rewrite length_app in Hge. simpl in Hge. lia.
  - by apply IH.
Qed.

(** ** Preparation of a run *)

Lemma fold_nodes_ind_NoDup {A} (P : list NodeID → A → Prop) l (f : NodeID → ExecutionNode → A → A) acc :
  NoDup l.*1 → P [] acc → (∀ id, (id, None) ∉ l) →
  (∀ k id node acc, (id, Some node) ∈ l → id ∉ k → P k acc → P (k ++ [id]) (f id node acc)) →
  ∃ acc', fold_nodes l f acc = Some acc' ∧ P l.*1 acc'.
Proof.
  intros Hnd Hnil Hnn Hstep.
  assert (∀ l' k acc, l' ⊆ l → NoDup (k ++ l'.*1) → P k acc →
    ∃ acc', fold_nodes l' f acc = Some acc' ∧ P (k ++ l'.*1) acc') as Hgen.
  { induction l' as [|[id n] l' IH]; intros k acc' Hsub Hnd' HP; simpl.
    - exists acc'. by rewrite app_nil_r.
    - destruct n as [node|]; [|destruct (Hnn id); apply Hsub; left].
      destruct (IH (k ++ [id]) (f id node acc')) as (acc'' & Hrun & HP').
      + intros x Hx. apply Hsub. by right.
      + by rewrite <-app_assoc.
      + apply Hstep; [|intros Hin|done]; [apply Hsub; left|].
        simpl in Hnd'. apply NoDup_app in Hnd' as (_ & Hdisj & _).
        apply (Hdisj id Hin). left.
      + exists acc''. split; [done|]. by rewrite <-app_assoc in HP'. }
  destruct (Hgen l [] acc) as (acc' & Hrun & HP); [done..|]. eauto.
Qed.

(** The edges one node adds to the table of dependents. *)
Lemma add_dependents_occ id deps (m : gmap NodeID (list NodeID)) u v :
  occ v (default [] (foldl (λ m depID, <[depID := default [] (m !! depID) ++ [id]]> m) m deps !! u)) =
  occ v (default [] (m !! u)) + if decide (v = id) then occ u deps else 0.
Proof.
  revert m. induction deps as [|d deps IH]; intros m; simpl; [case_decide; lia|].
  rewrite IH. destruct (decide (u = d)) as [->|Hne].
  - rewrite lookup_insert_eq. simpl. rewrite occ_app. simpl. repeat case_decide; lia.
  - rewrite lookup_insert_ne by done. repeat case_decide; lia.
Qed.

Lemma dispatch_entries_spec cap done l T :
  length l + length T <= cap →
  dispatch_entries cap done l T =
    Some (T ++ (filter (λ '(id, degree), degree = 0%Z ∧ id ∉ done) l).*1).
Proof.
  revert T. induction l as [|[id z] l IH]; intros T Hlen; simpl in *; [by rewrite app_nil_r|].
  rewrite filter_cons. destruct (decide (z = 0%Z ∧ id ∉ done)) as [Hd|Hd].
  - unfold chan_send. rewrite decide_True by lia. simpl. rewrite IH.
    + simpl. by rewrite <-app_assoc.
    + rewrite length_app. simpl. lia.
  - by rewrite IH by lia.
Qed.

Section init.
Context {X : Type} `{Clock X, GoRange, Faults}.
Variables (e : dagExecutor) (g : ExecutionGraph) (nodes : node_map).
Hypothesis g_nodes : g_Nodes g = Some nodes.
Hypothesis nonnil : nodes_nonnil nodes.

(** The tables [Execute] builds, with the results restored from [ckpt]. *)
Lemma exec_table_spec t ckpt :
  ∃ inDegree dependents results,
    fold_nodes (range 80 nodes) (exec_table t ckpt) (∅, ∅, ∅) = Some (inDegree, dependents, results) ∧
    (∀ v, inDegree !! v = (λ _, Z.of_nat (length (node_deps nodes v))) <$> nodes !! v) ∧
    (∀ u v, occ v (default [] (dependents !! u)) = occ u (node_deps nodes v)) ∧
    (∀ v, is_Some (results !! v) ↔ is_Some (nodes !! v)) ∧
    (∀ v, is_Some (nodes !! v) → status results v =
       match entries (FromCheckpoint ckpt) !! v with Some s => ns_Status s | None => StatusPending end).
Proof.
  set (part (k : list NodeID) v := if decide (v ∈ k) then node_deps nodes v else []).
  edestruct (fold_nodes_ind_NoDup (λ k '(inDegree, dependents, results),
    (∀ v, (inDegree : gmap NodeID Z) !! v =
       if decide (v ∈ k) then Some (Z.of_nat (length (node_deps nodes v))) else None) ∧
    (∀ u v, occ v (default [] ((dependents : gmap NodeID (list NodeID)) !! u)) = occ u (part k v)) ∧
    (∀ v, is_Some ((results : gmap NodeID NodeResult) !! v) ↔ v ∈ k) ∧
    (∀ v, v ∈ k → status results v =
       match entries (FromCheckpoint ckpt) !! v with Some s => ns_Status s | None => StatusPending end))
    (range 80 nodes) (exec_table t ckpt) (∅, ∅, ∅))
    as ([[inDegree dependents] results] & Hrun & Hdeg & Hadj & Hdom & Hst).
  - apply NoDup_range_keys.
  - split_and!; [done|done| |by intros v ?%elem_of_nil].
    intros v. rewrite lookup_empty. split; [by intros [? ?]|by intros ?%elem_of_nil].
  - intros. by apply range_nonnil.
  - intros k id node [[D adj] R] Hin Hfresh (HD & Hadj & Hdom & Hst). simpl.
    apply node_deps_range in Hin as Hdeps. rewrite <-Hdeps. split_and!.
    + intros v. destruct (decide (id = v)) as [->|Hne].
      * rewrite lookup_insert_eq, decide_True by set_solver. done.
      * rewrite lookup_insert_ne, HD by done. apply decide_ext. set_solver.
    + intros u v. rewrite add_dependents_occ, Hadj. unfold part.
      destruct (decide (v = id)) as [->|Hne].
      * rewrite decide_False by done. rewrite decide_True by set_solver. done.
      * rewrite Nat.add_0_r. f_equal. apply decide_ext. set_solver.
    + intros v. rewrite lookup_insert_is_Some', Hdom, elem_of_app, list_elem_of_singleton. naive_solver.
    + intros v Hv. destruct (decide (v = id)) as [->|Hne].
      * rewrite status_insert_eq. destruct (entries (FromCheckpoint ckpt) !! id); done.
      * rewrite status_insert_ne by done. apply Hst. set_solver.
  - exists inDegree, dependents, results. split; [done|].
    assert (∀ v, v ∈ (range 80 nodes).*1 ↔ is_Some (nodes !! v)) as Hin by (intros; apply elem_of_range_keys).
    split_and!.
    + intros v. rewrite Hdeg. case_decide as Hv; rewrite Hin in Hv.
      * by destruct Hv as [? ->].
      * apply eq_None_not_Some in Hv. by rewrite Hv.
    + intros u v. rewrite Hadj. unfold part. case_decide as Hv; [done|]. rewrite Hin in Hv.
      apply eq_None_not_Some in Hv. unfold node_deps. by rewrite Hv.
    + intros v. by rewrite Hdom, Hin.
    + intros v Hv. apply Hst. by apply Hin.
Qed.

Lemma save_checkpoint_nodes t ckpt d :
  option_map ck_NodeStates (save_checkpoint e t ckpt d).1 = option_map ck_NodeStates ckpt.
Proof. unfold save_checkpoint. destruct ckpt; [|done]. by destruct (persister e). Qed.

Lemma FromCheckpoint_eq ckpt : FromCheckpoint ckpt = default None (option_map ck_NodeStates ckpt).
Proof. by destruct ckpt. Qed.

(** The state in which the loop of [Execute] starts. *)
Lemma exec_init_spec w d :
  ∃ st dependents, exec_init e g w d = Some (st, dependents) ∧
    let loaded := load_checkpoint e d in
    let done := alreadyDone (init_checkpoint e g loaded) in
    (∀ v, x_inDegree st !! v = (λ _, Z.of_nat (length (node_deps nodes v))) <$> nodes !! v) ∧
    (∀ u v, occ v (default [] (dependents !! u)) = occ u (node_deps nodes v)) ∧
    (∀ v, is_Some (x_NodeResults st !! v) ↔ is_Some (nodes !! v)) ∧
    (∀ v, is_Some (nodes !! v) → status (x_NodeResults st) v =
       match entries (FromCheckpoint loaded) !! v with Some s => ns_Status s | None => StatusPending end) ∧
    NoDup (x_tasks st) ∧
    (∀ v, v ∈ x_tasks st ↔ is_Some (nodes !! v) ∧ node_deps nodes v = [] ∧ v ∉ done) ∧
    x_running st = [] ∧ x_results st = [] ∧ x_processed st = size done ∧
    option_map ck_NodeStates (x_ckpt st) = option_map ck_NodeStates (init_checkpoint e g loaded) ∧ x_world st = w.
Proof.
  unfold exec_init. rewrite g_nodes. simpl.
  destruct (exec_table_spec (now w) (load_checkpoint e d)) as (D & adj & R & -> & HD & Hadj & Hdom & Hst).
  destruct (save_checkpoint e (now w) _ d) as [ckpt d'] eqn:Hsave.
  pose proof (save_checkpoint_nodes (now w) (init_checkpoint e g (load_checkpoint e d)) d) as Hck.
  rewrite Hsave in Hck. simpl in Hck.
  assert (alreadyDone ckpt = alreadyDone (init_checkpoint e g (load_checkpoint e d))) as Hdone
    by (unfold alreadyDone; by rewrite !FromCheckpoint_eq, Hck).
  assert (size D = size nodes) as Hsize.
  { rewrite <-!length_map_to_list. rewrite <-(length_fmap fst (map_to_list D)), <-(length_fmap fst (map_to_list nodes)).
    apply Permutation_length, NoDup_Permutation; [apply NoDup_fst_map_to_list..|].
    intros v. by rewrite !elem_of_map_keys, HD, fmap_is_Some. }
  rewrite dispatch_entries_spec by (rewrite length_range; simpl; lia).
  eexists _, _. split; [done|]. simpl. rewrite Hdone.
  split_and!; try done.
  - apply NoDup_fst_filter, NoDup_range_keys.
  - intros v. rewrite list_elem_of_fmap. split.
    + intros ([v' z] & -> & [[-> Hv] Hin%elem_of_range]%list_elem_of_filter). simpl.
      rewrite HD in Hin. destruct (nodes !! v') eqn:Hn; simplify_eq/=.
      split_and!; [done| |done]. apply length_zero_iff_nil. lia.
    + intros ([n Hn] & Hnil & Hv). exists (v, 0%Z). split; [done|]. apply list_elem_of_filter.
      split; [done|]. apply elem_of_range. by rewrite HD, Hn, Hnil.
Qed.
End init.

(** ** The invariant of a fresh run *)

Section run.
Context {X : Type} `{Clock X, GoRange, Faults, NodeRunner (World X)}.
Variables (e : dagExecutor) (g : ExecutionGraph) (nodes : node_map) (execCtx : Context)
  (dependents : gmap NodeID (list NodeID)).
Hypothesis g_nodes : g_Nodes g = Some nodes.
Hypothesis nonnil : nodes_nonnil nodes.
Hypothesis dependents_spec : ∀ u v, occ v (default [] (dependents !! u)) = occ u (node_deps nodes v).

Abbreviation state := (exec_state X).

(** The nodes handed out and not received back. *)
Definition inflight (st : state) : list NodeID :=
  x_tasks st ++ x_running st ++ (wr_nodeID <$> x_results st).

(** [v] was run and may report [s]. *)
Definition may_report (v : NodeID) (s : Status) : Prop :=
  ∃ (w w' : World X) res, node_runs w v res w' ∧ wr_status res = s.

(** What the results alone satisfy between two steps. *)
Record coherent (R : gmap NodeID NodeResult) : Prop := {
  co_dom : ∀ v, is_Some (R !! v) ↔ is_Some (nodes !! v);
  co_status : ∀ v, status R v = StatusPending ∨ terminal (status R v);
  co_ran : ∀ v, status R v = StatusSuccess ∨ status R v = StatusFailed → ready nodes R v;
  co_skip : ∀ v d, d ∈ node_deps nodes v → status R d = StatusFailed ∨ status R d = StatusSkipped →
    status R v = StatusSkipped;
  co_blame : ∀ v, status R v = StatusSkipped → ready nodes R v ∨
    ∃ d, d ∈ node_deps nodes v ∧ (status R d = StatusFailed ∨ status R d = StatusSkipped);
  co_origin : ∀ v, status R v ≠ StatusPending → ready nodes R v → may_report v (status R v);
}.

Record invariant (st : state) : Prop := {
  inv_coherent : coherent (x_NodeResults st);
  inv_processed : x_processed st + pending_count nodes (x_NodeResults st) = size nodes;
  inv_nodup : NoDup (inflight st);
  inv_inflight : ∀ v, v ∈ inflight st ↔
    is_Some (nodes !! v) ∧ status (x_NodeResults st) v = StatusPending ∧ ready nodes (x_NodeResults st) v;
  inv_degree : ∀ v, is_Some (nodes !! v) →
    x_inDegree st !! v = Some (Z.of_nat (waiting nodes (x_NodeResults st) v));
  inv_workers : length (x_running st) ≤ maxWorkers e;
  inv_reports : ∀ res, res ∈ x_results st → ∃ w w', node_runs w (wr_nodeID res) res w';
  inv_ckpt : ∀ c, x_ckpt st = Some c → is_Some (ck_NodeStates c);
}.

Lemma elem_of_dependents u v : v ∈ default [] (dependents !! u) ↔ u ∈ node_deps nodes v.
Proof. by rewrite <-!occ_pos, dependents_spec. Qed.

Lemma dependents_nodes u v : v ∈ default [] (dependents !! u) → is_Some (nodes !! v).
Proof. rewrite elem_of_dependents. apply node_deps_Some. Qed.

Lemma pending_not_nil : StatusPending ≠ StatusSuccess.
Proof. done. Qed.

Lemma terminal_not_pending s : terminal s → s ≠ StatusPending.
Proof. by intros [-> | [-> | ->]]. Qed.

(** *** A node that succeeded *)

Section success.
Variables (R : gmap NodeID NodeResult) (id : NodeID) (nr : NodeResult).
Hypothesis co : coherent R.
Hypothesis id_node : is_Some (nodes !! id).
Hypothesis id_pending : status R id = StatusPending.
Hypothesis id_ready : ready nodes R id.
Hypothesis nr_success : nr_Status nr = StatusSuccess.
Hypothesis id_reports : may_report id StatusSuccess.

Abbreviation R' := (<[id := nr]> R).

Lemma success_status v : status R' v = if decide (v = id) then StatusSuccess else status R v.
Proof. case_decide; [subst; by rewrite status_insert_eq|by rewrite status_insert_ne]. Qed.

Lemma success_ready v : ready nodes R v → ready nodes R' v.
Proof. intros Hv d Hd. rewrite success_status. case_decide; [done|by apply Hv]. Qed.

(** A node with a verdict has no pending dependency it would need. *)
Lemma success_ready_inv v :
  v ≠ id → status R v ≠ StatusPending → ready nodes R' v → ready nodes R v.
Proof.
  intros Hv Hnp Hr. destruct (co_status _ co v) as [?|[Hs|[Hs|Hs]]]; [done|..].
  - apply (co_ran _ co). by left.
  - apply (co_ran _ co). by right.
  - destruct (co_blame _ co v Hs) as [?|(d & Hd & Hbad)]; [done|].
    apply Hr in Hd. rewrite success_status in Hd. case_decide; subst; naive_solver congruence.
Qed.

Lemma success_coherent : coherent R'.
Proof.
  constructor.
  - intros v. rewrite lookup_insert_is_Some', (co_dom _ co). naive_solver.
  - intros v. rewrite success_status. case_decide; [by right; left|apply co].
  - intros v. rewrite success_status. case_decide as Hv; intros Hs.
    + subst. by apply success_ready.
    + by apply success_ready, (co_ran _ co).
  - intros v d Hd. rewrite !success_status. case_decide as Hdid; [by intros [?|?]|].
    intros Hbad. pose proof (co_skip _ co v d Hd Hbad) as Hv.
    case_decide; [subst; congruence|done].
  - intros v. rewrite success_status. case_decide as Hv; [done|]. intros Hs.
    destruct (co_blame _ co v Hs) as [?|(d & Hd & Hbad)]; [left; by apply success_ready|right].
    exists d. split; [done|]. rewrite success_status. case_decide; [|done].
    subst. naive_solver congruence.
  - intros v. rewrite success_status. case_decide as Hv; [by subst|]. intros Hnp Hr.
    apply (co_origin _ co); [done|]. by apply success_ready_inv.
Qed.
End success.

(** *** A node that failed or was skipped *)

Section failure.
Variables (R : gmap NodeID NodeResult) (id : NodeID) (nr : NodeResult) (R2 : gmap NodeID NodeResult).
Hypothesis co : coherent R.
Hypothesis id_node : is_Some (nodes !! id).
Hypothesis id_pending : status R id = StatusPending.
Hypothesis id_ready : ready nodes R id.
Hypothesis nr_bad : nr_Status nr = StatusFailed ∨ nr_Status nr = StatusSkipped.
Hypothesis id_reports : may_report id (nr_Status nr).

Abbreviation R1 := (<[id := nr]> R).
Hypothesis R2_dom : ∀ v, is_Some (R2 !! v) ↔ is_Some (nodes !! v).
Hypothesis R2_status : ∀ v, status R2 v = status R1 v ∨ newly_skipped R1 R2 v.
Hypothesis R2_queue : ∀ v, v ∈ out dependents id → status R2 v ≠ StatusPending.
Hypothesis R2_out : ∀ v w, newly_skipped R1 R2 v → w ∈ out dependents v → status R2 w ≠ StatusPending.
Hypothesis R2_why : ∀ v, newly_skipped R1 R2 v → v ∈ out dependents id ∨
  ∃ u, newly_skipped R1 R2 u ∧ v ∈ out dependents u.

(** A skipped node was pending, and has a dependency that did not succeed. *)
Lemma newly_blame v :
  newly_skipped R1 R2 v → v ≠ id ∧ status R v = StatusPending ∧
    ∃ d, d ∈ node_deps nodes v ∧ (status R2 d = StatusFailed ∨ status R2 d = StatusSkipped) ∧
      status R d = StatusPending.
Proof.
  assert (∀ v, newly_skipped R1 R2 v → v ≠ id) as Hid.
  { intros v' [Hp _] ->. rewrite status_insert_eq in Hp. naive_solver congruence. }
  assert (∀ v, newly_skipped R1 R2 v → status R v = StatusPending) as Hpend.
  { intros v' Hv. pose proof (Hid v' Hv). destruct Hv as [Hp _]. by rewrite status_insert_ne in Hp. }
  intros Hv. split_and!; [by apply Hid|by apply Hpend|].
  destruct (R2_why v Hv) as [Hin|(u & Hu & Hin)]; apply elem_of_dependents in Hin.
  - exists id. split_and!; [done| |done]. destruct (R2_status id) as [->|[? ?]]; [|by right].
    rewrite status_insert_eq. destruct nr_bad as [-> | ->]; auto.
  - exists u. split_and!; [done| |by apply Hpend]. right. apply Hu.
Qed.

(** The statuses afterwards: the node's own, the skipped ones, the old ones. *)
Lemma failure_status v :
  (v = id ∧ status R2 v = nr_Status nr) ∨ newly_skipped R1 R2 v ∨ (v ≠ id ∧ status R2 v = status R v).
Proof.
  destruct (decide (v = id)) as [->|Hv].
  - left. split; [done|]. destruct (R2_status id) as [->|Hnew]; [by rewrite status_insert_eq|].
    by destruct (newly_blame id Hnew).
  - destruct (R2_status v) as [Heq|Hnew]; [|by right; left]. rewrite status_insert_ne in Heq by done.
    by right; right.
Qed.

Lemma failure_success v : status R2 v = StatusSuccess ↔ status R v = StatusSuccess.
Proof.
  destruct (failure_status v) as [[-> Hs]|[Hnew|[Hv Hs]]].
  - rewrite Hs, id_pending. split; [|done]. naive_solver congruence.
  - destruct (newly_blame v Hnew) as (_ & -> & _). destruct Hnew as [_ ->]. done.
  - by rewrite Hs.
Qed.

Lemma failure_ready v : ready nodes R2 v ↔ ready nodes R v.
Proof. split; intros Hr d Hd; apply failure_success; by apply Hr. Qed.

Lemma failure_coherent : coherent R2.
Proof.
  constructor.
  - done.
  - intros v. destruct (failure_status v) as [[-> ->]|[[_ ->]|[_ ->]]]; [|by right; right; right|apply co].
    right. destruct nr_bad as [-> | ->]; [by right; left|by right; right].
  - intros v Hs. apply failure_ready.
    destruct (failure_status v) as [[-> _]|[[_ Hv]|[_ Hv]]]; [done|naive_solver congruence|].
    apply (co_ran _ co). by rewrite <-Hv.
  - intros v d Hd Hbad.
    assert (status R2 v ≠ StatusPending) as Hnp.
    { destruct (failure_status d) as [[-> Hs]|[Hnew|[Hdid Hs]]].
      - apply R2_queue. by apply elem_of_dependents.
      - apply (R2_out d); [done|]. by apply elem_of_dependents.
      - rewrite Hs in Hbad. pose proof (co_skip _ co v d Hd Hbad) as Hv.
        destruct (failure_status v) as [[-> ?]|[[? ?]|[? ->]]]; congruence. }
    assert (status R d ≠ StatusSuccess) as Hds by (rewrite <-failure_success; naive_solver congruence).
    destruct (failure_status v) as [[-> Hs]|[[_ Hs]|[Hv Hs]]]; [|done|].
    + by apply id_ready in Hd.
    + rewrite Hs in *. destruct (co_status _ co v) as [?|[?|[?|?]]]; [done|..|done].
      * destruct Hds. by apply (co_ran _ co v); [left|].
      * destruct Hds. by apply (co_ran _ co v); [right|].
  - intros v Hs. destruct (failure_status v) as [[-> _]|[Hnew|[Hv Hsv]]].
    + left. by apply failure_ready.
    + right. destruct (newly_blame v Hnew) as (_ & _ & d & Hd & Hbad & _). eauto.
    + rewrite Hsv in Hs. destruct (co_blame _ co v Hs) as [Hr|(d & Hd & Hbad)].
      * left. by apply failure_ready.
      * right. exists d. split; [done|].
        destruct (failure_status d) as [[-> _]|[Hnew|[_ ->]]]; [naive_solver congruence| |done].
        destruct (newly_blame d Hnew) as (_ & Hp & _). naive_solver congruence.
  - intros v Hnp Hr. apply failure_ready in Hr as Hr0.
    destruct (failure_status v) as [[-> ->]|[Hnew|[Hv Hs]]]; [done| |].
    + destruct (newly_blame v Hnew) as (_ & _ & d & Hd & Hbad & _). apply Hr in Hd.
      naive_solver congruence.
    + rewrite Hs in *. by apply (co_origin _ co).
Qed.
End failure.

(** *** Receiving a result *)

Section receive.
Variables (st : state) (res : workerResult) (rest : list workerResult).
Hypothesis inv : invariant st.
Hypothesis results_eq : x_results st = res :: rest.

Abbreviation R0 := (x_NodeResults st).
Abbreviation rid := (wr_nodeID res).

Lemma received_inflight : rid ∈ inflight st.
Proof. unfold inflight. rewrite results_eq. set_solver. Qed.

Lemma received_node : is_Some (nodes !! rid).
Proof. by apply (inv_inflight _ inv), received_inflight. Qed.
Lemma received_pending : status R0 rid = StatusPending.
Proof. by apply (inv_inflight _ inv), received_inflight. Qed.
Lemma received_ready : ready nodes R0 rid.
Proof. by apply (inv_inflight _ inv), received_inflight. Qed.

Lemma received_reports : may_report rid (wr_status res) ∧ terminal (wr_status res).
Proof.
  destruct (inv_reports _ inv res) as (w & w' & Hrun); [rewrite results_eq; left|].
  split; [by exists w, w', res|by eapply node_runs_terminal].
Qed.

(** The rest of what is in flight. *)
Lemma inflight_rest v :
  v ∈ x_tasks st ++ x_running st ++ (wr_nodeID <$> rest) ↔ v ∈ inflight st ∧ v ≠ rid.
Proof.
  pose proof (inv_nodup _ inv) as Hnd. unfold inflight in *. rewrite results_eq in *. simpl in *.
  rewrite !elem_of_app, elem_of_cons. rewrite !NoDup_app, NoDup_cons in Hnd.
  set_unfold. naive_solver.
Qed.

Lemma NoDup_rest : NoDup (x_tasks st ++ x_running st ++ (wr_nodeID <$> rest)).
Proof.
  pose proof (inv_nodup _ inv) as Hnd. unfold inflight in Hnd. rewrite results_eq in Hnd.
  simpl in Hnd. eapply sublist_NoDup; [done|].
  apply sublist_app; [done|]. apply sublist_app; [done|]. by constructor.
Qed.

Lemma occ_le_waiting v : occ rid (node_deps nodes v) ≤ waiting nodes R0 v.
Proof.
  pose proof (waiting_success nodes R0 rid (MkNodeResult "" "" StatusSuccess 0 0 "" None None) v) as Hw.
  rewrite <-Hw; [lia| |done]. by rewrite received_pending.
Qed.

(** A success releases exactly the dependents that waited for nothing else. *)
Lemma release_spec nr :
  nr_Status nr = StatusSuccess →
  ∃ D' new, release (size nodes) (out dependents rid) (x_inDegree st) (x_tasks st) = Some (D', x_tasks st ++ new) ∧
    (∀ v, is_Some (nodes !! v) → D' !! v = Some (Z.of_nat (waiting nodes (<[rid := nr]> R0) v))) ∧
    NoDup new ∧
    ∀ v, v ∈ new ↔ rid ∈ node_deps nodes v ∧ ready nodes (<[rid := nr]> R0) v.
Proof.
  intros Hnr.
  assert (∀ v, waiting nodes (<[rid := nr]> R0) v + occ rid (node_deps nodes v) = waiting nodes R0 v) as Hw
    by (intros v; apply waiting_success; [by rewrite received_pending|done]).
  destruct (relax (out dependents rid) (x_inDegree st) (x_tasks st)) as [D' Q'] eqn:Hrelax.
  pose proof Hrelax as Hspec. apply relax_spec in Hspec as (HD & new & -> & Hnd & Hnew).
  2:{ intros v Hv%dependents_nodes. exists (waiting nodes R0 v). split; [by apply (inv_degree _ inv)|].
      unfold out. rewrite dependents_spec. apply occ_le_waiting. }
  assert (∀ v, v ∈ new ↔ rid ∈ node_deps nodes v ∧ ready nodes (<[rid := nr]> R0) v) as Hiff.
  { intros v. rewrite Hnew, <-waiting_zero. unfold out. rewrite elem_of_dependents, dependents_spec.
    split; intros [Hin Hv]; (split; [done|]); apply node_deps_Some in Hin as Hs.
    - rewrite (inv_degree _ inv) in Hv by done. simplify_eq. specialize (Hw v). lia.
    - rewrite (inv_degree _ inv) by done. f_equal. specialize (Hw v). lia. }
  exists D', new. split_and!; [|..|done|done].
  - rewrite <-Hrelax. apply release_relax. rewrite Hrelax. simpl.
    rewrite <-length_node_ids. apply NoDup_subset_length.
    + apply NoDup_app. split_and!; [|..|done].
      * pose proof NoDup_rest as Hr. by apply NoDup_app in Hr as [? _].
      * intros v Hv Hn. apply Hiff in Hn as [Hn _].
        assert (v ∈ inflight st) as (_ & _ & Hr)%(inv_inflight _ inv) by (unfold inflight; set_solver).
        apply Hr in Hn. pose proof received_pending. congruence.
    + intros v [Hv|Hv]%elem_of_app; apply elem_of_node_ids.
      * apply (inv_inflight _ inv). unfold inflight. set_solver.
      * apply Hiff in Hv as [Hv _]. by eapply node_deps_Some.
  - intros v Hv. rewrite HD, (inv_degree _ inv) by done. simpl. unfold out. rewrite dependents_spec.
    f_equal. specialize (Hw v). lia.
Qed.

(** What receiving leaves, in either case. *)
Definition received_ok (st' : state) : Prop :=
  invariant st' ∧ x_running st' = x_running st ∧ x_results st' = rest ∧
  length (x_tasks st) ≤ length (x_tasks st') ∧
  pending_count nodes (x_NodeResults st') < pending_count nodes R0 ∧
  status (x_NodeResults st') rid = wr_status res ∧
  (∀ v, status R0 v ≠ StatusPending → status (x_NodeResults st') v = status R0 v) ∧
  (∀ v, v ≠ rid → status (x_NodeResults st') v = status R0 v ∨ status (x_NodeResults st') v = StatusSkipped).

Lemma receive_success nr p D' new ckpt d w :
  nr_Status nr = StatusSuccess → wr_status res = StatusSuccess → p = S (x_processed st) →
  (∀ v, is_Some (nodes !! v) → D' !! v = Some (Z.of_nat (waiting nodes (<[rid := nr]> R0) v))) →
  NoDup new → (∀ v, v ∈ new ↔ rid ∈ node_deps nodes v ∧ ready nodes (<[rid := nr]> R0) v) →
  (∀ c, ckpt = Some c → is_Some (ck_NodeStates c)) →
  received_ok (MkExec (<[rid := nr]> R0) D' p (x_tasks st ++ new) (x_running st) rest ckpt d w).
Proof.
  intros Hnr Hres -> HD Hnd Hnew Hck.
  pose proof received_node as Hid. pose proof received_pending as Hp. pose proof received_ready as Hr.
  destruct received_reports as [Hrep _]. rewrite Hres in Hrep.
  pose proof (inv_coherent _ inv) as co.
  pose proof (pending_count_insert nodes R0 rid nr Hid Hp) as Hcount.
  assert (∀ v, status (<[rid := nr]> R0) v = if decide (v = rid) then StatusSuccess else status R0 v) as Hst
    by (intros; by apply success_status).
  assert (∀ v, v ∈ new → v ∉ inflight st) as Hfresh.
  { intros v [Hv _]%Hnew (_ & _ & Hrv)%(inv_inflight _ inv). apply Hrv in Hv. congruence. }
  unfold received_ok. simpl. split; [constructor; simpl|].
  - by apply success_coherent.
  - pose proof (inv_processed _ inv). rewrite Hcount in * by congruence. lia.
  - unfold inflight. simpl. rewrite <-app_assoc, Permutation_app_swap_app.
    apply NoDup_app. split_and!; [done| |apply NoDup_rest].
    intros v Hv [Hin _]%inflight_rest. by apply (Hfresh v).
  - intros v. unfold inflight. simpl.
    assert (v ∈ (x_tasks st ++ new) ++ x_running st ++ (wr_nodeID <$> rest) ↔
      v ∈ new ∨ (v ∈ inflight st ∧ v ≠ rid)) as ->.
    { rewrite <-inflight_rest. rewrite !elem_of_app. naive_solver. }
    rewrite Hst. split.
    + intros [[Hv Hrv]%Hnew|[(Hn & Hpv & Hrv)%(inv_inflight _ inv) Hne]].
      * assert (v ≠ rid) as Hne by (intros ->; apply Hr in Hv; congruence).
        rewrite decide_False by done. split_and!; [by eapply node_deps_Some| |done].
        destruct (decide (status R0 v = StatusPending)) as [?|Hnp]; [done|].
        assert (ready nodes R0 v) as Hrv0 by (by eapply success_ready_inv).
        apply Hrv0 in Hv. congruence.
      * rewrite decide_False by done. split_and!; [done..|]. by apply success_ready.
    + case_decide as Hv; [by intros (_ & ? & _)|]. intros (Hn & Hpv & Hrv).
      destruct (decide (rid ∈ node_deps nodes v)) as [Hin|Hin]; [left; by apply Hnew|right].
      split; [|done]. apply (inv_inflight _ inv). split_and!; [done..|].
      intros d' Hd'. pose proof (Hrv d' Hd') as Hs. rewrite Hst in Hs. case_decide; [by subst|done].
  - done.
  - apply (inv_workers _ inv).
  - intros res' Hres'. apply (inv_reports _ inv). rewrite results_eq. by right.
  - done.
  - split_and!; [done..|rewrite length_app; lia| | | |].
    + rewrite Hcount by congruence. lia.
    + by rewrite status_insert_eq, Hres.
    + intros v Hv. rewrite Hst, decide_False by (intros ->; congruence). done.
    + intros v Hv. left. by rewrite Hst, decide_False.
Qed.

Lemma receive_failure nr R2 p ckpt d w :
  nr_Status nr = wr_status res → wr_status res = StatusFailed ∨ wr_status res = StatusSkipped →
  (∀ v, is_Some (R2 !! v) ↔ is_Some (nodes !! v)) →
  (∀ v, status R2 v = status (<[rid := nr]> R0) v ∨ newly_skipped (<[rid := nr]> R0) R2 v) →
  (∀ v, v ∈ out dependents rid → status R2 v ≠ StatusPending) →
  (∀ v w, newly_skipped (<[rid := nr]> R0) R2 v → w ∈ out dependents v → status R2 w ≠ StatusPending) →
  (∀ v, newly_skipped (<[rid := nr]> R0) R2 v → v ∈ out dependents rid ∨
     ∃ u, newly_skipped (<[rid := nr]> R0) R2 u ∧ v ∈ out dependents u) →
  p + pending_count nodes R2 = S (x_processed st) + pending_count nodes (<[rid := nr]> R0) →
  S (x_processed st) ≤ p →
  (∀ c, ckpt = Some c → is_Some (ck_NodeStates c)) →
  received_ok (MkExec R2 (x_inDegree st) p (x_tasks st) (x_running st) rest ckpt d w).
Proof.
  intros Hnr Hbad Hdom Hst2 Hq Hout Hwhy Hcount2 Hle Hck.
  pose proof received_node as Hid. pose proof received_pending as Hp. pose proof received_ready as Hr.
  destruct received_reports as [Hrep _]. rewrite <-Hnr in Hrep, Hbad.
  pose proof (inv_coherent _ inv) as co.
  assert (pending_count nodes R0 = S (pending_count nodes (<[rid := nr]> R0))) as Hcount
    by (apply pending_count_insert; [done..|]; naive_solver congruence).
  assert (∀ v, (v = rid ∧ status R2 v = nr_Status nr) ∨ newly_skipped (<[rid := nr]> R0) R2 v ∨
    (v ≠ rid ∧ status R2 v = status R0 v)) as Hst by (by eapply failure_status).
  assert (∀ v, ready nodes R2 v ↔ ready nodes R0 v) as Hready by (by eapply failure_ready).
  assert (∀ v, newly_skipped (<[rid := nr]> R0) R2 v → v ≠ rid ∧ status R0 v = StatusPending ∧ ¬ ready nodes R0 v) as Hnew.
  { intros v Hv. edestruct (newly_blame R0 rid nr R2) as (? & ? & d' & Hd' & _ & Hpd); [done..|].
    split_and!; [done..|]. intros Hrv. apply Hrv in Hd'. congruence. }
  unfold received_ok. simpl. split; [constructor; simpl|].
  - by eapply failure_coherent.
  - pose proof (inv_processed _ inv). lia.
  - apply NoDup_rest.
  - intros v. unfold inflight. simpl. rewrite inflight_rest, (inv_inflight _ inv), Hready. split.
    + intros [(Hn & Hpv & Hrv) Hne]. split_and!; [done| |done].
      destruct (Hst v) as [[? _]|[Hv|[_ ->]]]; [done| |done]. by apply Hnew in Hv as (_ & _ & ?).
    + intros (Hn & Hpv & Hrv).
      destruct (Hst v) as [[-> Hs]|[[_ Hv]|[Hv Hs]]]; [naive_solver congruence|congruence|].
      rewrite <-Hs. done.
  - intros v Hv. rewrite (inv_degree _ inv) by done. do 2 f_equal. apply waiting_ext.
    intros d'. symmetry. by eapply failure_success.
  - apply (inv_workers _ inv).
  - intros res' Hres'. apply (inv_reports _ inv). rewrite results_eq. by right.
  - done.
  - split_and!; [done..|lia| | |].
    + destruct (Hst rid) as [[_ ->]|[Hv|[? _]]]; [done| |done]. by apply Hnew in Hv as [? _].
    + intros v Hv. destruct (Hst v) as [[-> _]|[Hs|[_ ->]]]; [congruence| |done].
      by apply Hnew in Hs as (_ & ? & _).
    + intros v Hv. destruct (Hst v) as [[-> _]|[[_ Hs]|[_ Hs]]]; [done|by right|by left].
Qed.

Lemma saveNodeState_ok t id nr hosts output c :
  is_Some (ck_NodeStates c) →
  ∃ c', saveNodeState t id nr hosts output c = Some c' ∧ is_Some (ck_NodeStates c').
Proof. intros [m Hm]. unfold saveNodeState. rewrite Hm. eexists; split; [done|]. by eexists. Qed.

Lemma save_checkpoint_some t c d ckpt d' :
  save_checkpoint e t (Some c) d = (ckpt, d') → is_Some (ck_NodeStates c) →
  ∀ c', ckpt = Some c' → is_Some (ck_NodeStates c').
Proof.
  intros Hs Hc c' ->. pose proof (save_checkpoint_nodes e t (Some c) d) as Hf. rewrite Hs in Hf.
  simpl in Hf. simplify_eq. by rewrite Hf.
Qed.

Lemma update_checkpoint_ok t res' nr ckpt d :
  (∀ c, ckpt = Some c → is_Some (ck_NodeStates c)) →
  ∃ ckpt' d', update_checkpoint e t res' nr ckpt d = Some (ckpt', d') ∧
    ∀ c, ckpt' = Some c → is_Some (ck_NodeStates c).
Proof.
  intros Hck. unfold update_checkpoint. destruct ckpt as [c|]; [|by eexists _, _; split].
  destruct (saveNodeState_ok t (wr_nodeID res') nr (wr_hostResults res') (wr_output res') c)
    as (c' & -> & Hc'); [by apply Hck|].
  destruct (save_checkpoint e t (Some c') d) as [ckpt' d'] eqn:Hs.
  exists ckpt', d'. split; [done|]. by eapply save_checkpoint_some.
Qed.

Lemma on_result_ok w :
  ∃ st', on_result e g execCtx dependents res (set_queues (x_tasks st) (x_running st) rest w st) = Ok st' ∧
    received_ok st'.
Proof.
  unfold on_result. simpl.
  destruct (proj2 (co_dom _ (inv_coherent _ inv) rid) received_node) as [nr0 Hnr0]. rewrite Hnr0.
  rewrite (decide_True (P := nr_Status nr0 = StatusPending))
    by (pose proof received_pending as Hp; unfold status in Hp; by rewrite Hnr0 in Hp).
  set (nr := MkNodeResult _ _ (wr_status res) _ _ _ _ _).
  set (w1 := merge_output execCtx (wr_output res) w).
  destruct (update_checkpoint_ok (now w1) res nr (x_ckpt st) (x_disk st)) as (ckpt & d & Hup & Hck);
    [apply inv|].
  rewrite Hup.
  destruct received_reports as [_ Hterm].
  case_decide as Hbad.
  - destruct (cascade_spec nodes dependents dependents_nodes
      (cascade_fuel dependents (out dependents rid) (<[rid := nr]> R0)) (now w1) rid
      (out dependents rid) (<[rid := nr]> R0) (S (x_processed st)))
      as (R2 & p & Hrun & Hdom & Hst & Hq & Hout & Hwhy & Hcount & Hle).
    + intros v. rewrite lookup_insert_is_Some', (co_dom _ (inv_coherent _ inv)).
      pose proof received_node. naive_solver.
    + apply dependents_nodes.
    + apply cascade_fuel_enough. intros v. rewrite lookup_insert_is_Some', (co_dom _ (inv_coherent _ inv)).
      pose proof received_node. naive_solver.
    + unfold out in Hrun. rewrite Hrun. eexists; split; [done|]. by eapply (receive_failure nr).
  - assert (wr_status res = StatusSuccess) as Hsucc by (destruct Hterm as [?|[?|?]]; naive_solver).
    destruct (release_spec nr Hsucc) as (D' & new & Hrel & HD & Hnd & Hnew).
    assert (mlen (g_Nodes g) = size nodes) as -> by (unfold mlen; by rewrite g_nodes).
    unfold out in Hrel. rewrite Hrel. eexists; split; [done|]. by apply receive_success.
Qed.
End receive.

(** *** Every step *)

Lemma inflight_length st : invariant st → length (inflight st) ≤ pending_count nodes (x_NodeResults st).
Proof.
  intros inv. unfold pending_count.
  assert (sum_list_with (λ v, if decide (status (x_NodeResults st) v = StatusPending) then 1 else 0) (node_ids nodes)
    = length (filter (λ v, status (x_NodeResults st) v = StatusPending) (node_ids nodes))) as ->.
  { induction (node_ids nodes) as [|v l IH]; [done|]. rewrite filter_cons. simpl. rewrite IH. by case_decide. }
  apply NoDup_subset_length; [apply inv|].
  intros v Hv. apply (inv_inflight _ inv) in Hv as (Hn & Hp & _).
  apply list_elem_of_filter. split; [done|]. by apply elem_of_node_ids.
Qed.

(** Results that keep what the invariant reads of the queues. *)
Lemma invariant_queues st tasks running results w :
  invariant st →
  tasks ++ running ++ (wr_nodeID <$> results) ≡ₚ inflight st →
  length running ≤ maxWorkers e →
  (∀ res, res ∈ results → ∃ w w', node_runs w (wr_nodeID res) res w') →
  invariant (set_queues tasks running results w st).
Proof.
  intros inv Hperm Hlen Hrep. constructor; try apply inv; [|..|done|done].
  - unfold inflight. simpl. rewrite Hperm. apply inv.
  - intros v. unfold inflight. simpl. rewrite Hperm. apply inv.
Qed.

Lemma graph_node v : is_Some (nodes !! v) → is_Some (ExecutionGraph_GetNode v g).
Proof.
  intros [[n|] Hn]; unfold ExecutionGraph_GetNode; rewrite g_nodes; simpl; rewrite Hn; [by eexists|].
  by destruct (nonnil v).
Qed.

Definition rank (st : state) : nat :=
  4 * pending_count nodes (x_NodeResults st) -
  (length (x_tasks st) + 2 * length (x_running st) + 3 * length (x_results st)).

Lemma step_spec st ev st' :
  invariant st → exec_step e g execCtx dependents st ev st' →
  invariant st' ∧ rank st' < rank st ∧
  (∀ v, status (x_NodeResults st) v ≠ StatusPending →
     status (x_NodeResults st') v = status (x_NodeResults st) v) ∧
  (∀ v, status (x_NodeResults st') v = status (x_NodeResults st) v ∨
     status (x_NodeResults st') v = StatusSkipped ∨ ∃ res, ev = Received res ∧ v = wr_nodeID res) ∧
  match ev with
  | Took id => x_tasks st = id :: x_tasks st' ∧ x_running st' = x_running st ++ [id] ∧ x_results st' = x_results st
  | Dropped _ => False
  | Reported res => (∃ r1 r2, x_running st = r1 ++ wr_nodeID res :: r2 ∧ x_running st' = r1 ++ r2) ∧
      x_results st' = x_results st ++ [res]
  | Received res => x_results st = res :: x_results st' ∧ x_running st' = x_running st ∧ status (x_NodeResults st) (wr_nodeID res) = StatusPending ∧
      status (x_NodeResults st') (wr_nodeID res) = wr_status res
  end.
Proof.
  intros inv Hstep. pose proof (inflight_length st inv) as Hlen. unfold inflight in Hlen.
  rewrite !length_app, length_fmap in Hlen.
  destruct Hstep as [st id tasks Ht Hw Hn|st id tasks Ht Hw Hn|st r1 id r2 w res w' results Hr Hrun Hsend|st res rest st' Hp Hres Hon].
  - rewrite Ht in Hlen. simpl in Hlen. split_and!; [|unfold rank; simpl; rewrite Ht, length_app; simpl; lia|done|by left|done..].
    apply invariant_queues; [done| |rewrite length_app; simpl; lia|apply inv].
    unfold inflight. rewrite Ht, <-app_assoc. simpl. by rewrite <-!Permutation_middle.
  - exfalso. assert (is_Some (ExecutionGraph_GetNode id g)) as [? ?]; [|congruence].
    apply graph_node, (inv_inflight _ inv). unfold inflight. rewrite Ht. left.
  - apply node_runs_id in Hrun as Hid. unfold chan_send in Hsend. case_decide; simplify_eq.
    rewrite Hr, length_app in Hlen. simpl in Hlen.
    split_and!; [|unfold rank; simpl; rewrite Hr, !length_app; simpl; lia|done|by left|by exists r1, r2|done].
    apply invariant_queues; [done|..].
    + unfold inflight. rewrite Hr, fmap_app. simpl. f_equiv.
      rewrite <-(Permutation_middle r1 r2), app_assoc. by rewrite <-Permutation_cons_append.
    + pose proof (inv_workers _ inv) as Hwk. rewrite Hr in Hwk. rewrite !length_app in *. simpl in Hwk. lia.
    + intros res' [Hin|Hin]%elem_of_app; [by apply inv|]. apply list_elem_of_singleton in Hin as ->. by eexists _, _.
  - destruct (on_result_ok st res rest inv Hres (x_world st)) as (st2 & Hon2 & Hok).
    rewrite Hon in Hon2. simplify_eq. destruct Hok as (inv' & Hr & Hre & Hta & Hpe & Hs & Hmono & Hother).
    pose proof (inflight_length st2 inv') as Hlen'. unfold inflight in Hlen'.
    rewrite !length_app, length_fmap in Hlen'.
    split_and!; [done| |done| |by rewrite Hre|done|by eapply received_pending|done].
    2:{ intros v. destruct (decide (v = wr_nodeID res)) as [?|Hv]; [right; right; by eexists|].
        destruct (Hother v Hv); auto. }
    unfold rank. rewrite Hr, Hre in *. rewrite Hres in *. simpl in *. lia.
Qed.

(** Some step is possible while a node has no result, if workers return. *)
Lemma step_progress st :
  invariant st → acyclic (node_deps nodes) → nodes_closed nodes → 0 < maxWorkers e →
  (∀ w id, is_Some (nodes !! id) → ∃ res w', node_runs w id res w') →
  x_processed st < size nodes →
  ∃ ev st', exec_step e g execCtx dependents st ev st'.
Proof.
  intros inv Hac Hclosed Hmax Hruns Hp.
  assert (mlen (g_Nodes g) = size nodes) as Hmlen by (unfold mlen; by rewrite g_nodes).
  destruct (x_results st) as [|res rest] eqn:Hres.
  2:{ destruct (on_result_ok st res rest inv Hres (x_world st)) as (st' & Hon & _).
      exists (Received res), st'. eapply step_receive; [by rewrite Hmlen|done|done]. }
  destruct (x_running st) as [|id running] eqn:Hrun.
  2:{ assert (is_Some (nodes !! id)) as Hid.
      { apply (inv_inflight _ inv). unfold inflight. rewrite Hrun. set_solver. }
      destruct (Hruns (x_world st) id Hid) as (res & w' & Hr).
      assert (chan_send (mlen (g_Nodes g)) [] res = Some [res]) as Hsend.
      { unfold chan_send. rewrite decide_True; [done|]. rewrite Hmlen. simpl. lia. }
      rewrite <-Hres in Hsend. eexists _, _. by eapply (step_report _ _ _ _ _ []). }
  destruct (x_tasks st) as [|id tasks] eqn:Ht.
  2:{ eexists _, _. eapply step_take; [done|rewrite Hrun; simpl; lia|].
      apply graph_node, (inv_inflight _ inv). unfold inflight. rewrite Ht. left. }
  exfalso. assert (inflight st = []) as Hnone by (unfold inflight; by rewrite Ht, Hrun, Hres).
  assert (∀ v, is_Some (nodes !! v) → status (x_NodeResults st) v ≠ StatusPending) as Hall.
  { intros v Hv. pose proof (acyclic_sn (node_deps nodes) (node_ids nodes) Hac
      (λ v d Hd, proj2 (elem_of_node_ids nodes d) (Hclosed v d Hd)) v) as Hsn.
    induction Hsn as [v _ IH]. intros Hpend.
    assert (v ∈ inflight st) as Hin; [|rewrite Hnone in Hin; by apply elem_of_nil in Hin].
    apply (inv_inflight _ inv). split_and!; [done..|]. intros d Hd.
    assert (status (x_NodeResults st) d ≠ StatusPending) as Hd' by (apply IH; [done|by eapply Hclosed]).
    destruct (co_status _ (inv_coherent _ inv) d) as [?|[?|Hbad]]; [done..|].
    pose proof (co_skip _ (inv_coherent _ inv) v d Hd Hbad). congruence. }
  apply pending_count_zero in Hall. pose proof (inv_processed _ inv). lia.
Qed.

(** *** Traces *)

(** The nodes a trace handed to a worker. *)
Definition started (tr : list event) : list NodeID :=
  omap (λ ev, match ev with Took id => Some id | _ => None end) tr.

(** [v] was received back with status [s]. *)
Definition received (tr : list event) (v : NodeID) (s : Status) : Prop :=
  ∃ res, Received res ∈ tr ∧ wr_nodeID res = v ∧ wr_status res = s.

(** What holds after every trace of a fresh run. *)
Record trace_ok (st0 : state) (tr : list event) (st : state) : Prop := {
  tr_invariant : invariant st;
  tr_rank : length tr + rank st ≤ rank st0;
  tr_started : NoDup (started tr);
  tr_where : ∀ v, v ∈ started tr →
    v ∈ x_running st ++ (wr_nodeID <$> x_results st) ∨ status (x_NodeResults st) v ≠ StatusPending;
  tr_running : ∀ v, v ∈ x_running st → v ∈ started tr;
  tr_success : ∀ v, status (x_NodeResults st) v = StatusSuccess → received tr v StatusSuccess;
}.

Lemma received_snoc tr ev v s : received tr v s → received (tr ++ [ev]) v s.
Proof. intros (res & Hin & ? & ?). exists res. split; [|done]. set_solver. Qed.

Lemma started_snoc tr ev :
  started (tr ++ [ev]) = started tr ++ match ev with Took id => [id] | _ => [] end.
Proof. unfold started. rewrite omap_app. f_equal. by destruct ev. Qed.

Lemma trace_spec st0 tr st :
  invariant st0 → (∀ v, status (x_NodeResults st0) v ≠ StatusSuccess) → x_running st0 = [] →
  exec_trace e g execCtx dependents st0 tr st → trace_ok st0 tr st.
Proof.
  intros Hinv0 Hns Hrun0. induction 1 as [st|st tr st1 ev st2 Htr IH Hstep].
  { constructor; simpl; [done|lia|constructor|by intros v ?%elem_of_nil|by rewrite Hrun0; intros v ?%elem_of_nil|].
    intros v Hv. by destruct (Hns v). }
  destruct (IH Hinv0 Hns Hrun0) as [inv Hrank Hnd Hwhere Hrunning Hsucc].
  destruct (step_spec st1 ev st2 inv Hstep) as (inv2 & Hlt & Hmono & Hother & Hev).
  assert (∀ v, status (x_NodeResults st2) v = StatusSuccess → received (tr ++ [ev]) v StatusSuccess) as Hsucc2.
  { intros v Hv. destruct (Hother v) as [Heq|[?|(res & -> & ->)]].
    - apply received_snoc, Hsucc. congruence.
    - congruence.
    - exists res. split_and!; [set_solver|done|]. destruct Hev as (_ & _ & _ & Hs). congruence. }
  constructor; [done|rewrite length_app; simpl; lia| | | |done]; rewrite started_snoc.
  - destruct ev as [id|id|res|res]; rewrite ?app_nil_r; try done.
    destruct Hev as (Ht & _). apply NoDup_app. split_and!; [done| |apply NoDup_singleton].
    intros v Hv ->%list_elem_of_singleton.
    assert (id ∈ inflight st1) as (_ & Hp & _)%(inv_inflight _ inv) by (unfold inflight; rewrite Ht; left).
    destruct (Hwhere id Hv) as [Hin|?]; [|done].
    pose proof (inv_nodup _ inv) as Hnd1. unfold inflight in Hnd1. rewrite Ht in Hnd1. simpl in Hnd1.
    apply NoDup_cons in Hnd1 as [Hno _]. apply Hno, elem_of_app. by right.
  - intros v Hv. apply elem_of_app in Hv as [Hv|Hv].
    + destruct (Hwhere v Hv) as [Hin|Hp]; [|right; by rewrite Hmono].
      destruct ev as [id|id|res|res]; [|done|..].
      * destruct Hev as (_ & -> & ->). left. set_solver.
      * destruct Hev as ((r1 & r2 & Hr & ->) & ->). left. rewrite Hr in Hin. rewrite fmap_app. simpl. set_solver.
      * destruct Hev as (Hr & -> & _ & Hs). rewrite Hr in Hin. rewrite fmap_cons in Hin.
        destruct (decide (v = wr_nodeID res)) as [->|Hne]; [right|left; set_solver].
        rewrite Hs. destruct (inv_reports _ inv res) as (w & w' & Hn); [rewrite Hr; left|].
        by eapply terminal_not_pending, node_runs_terminal.
    + destruct ev as [id|id|res|res]; [|by apply elem_of_nil in Hv..].
      apply list_elem_of_singleton in Hv as ->. left. destruct Hev as (_ & -> & _). set_solver.
  - intros v Hv. apply elem_of_app. destruct ev as [id|id|res|res]; [|done|..].
    + destruct Hev as (_ & Hr & _). rewrite Hr in Hv. apply elem_of_app in Hv as [?|?]; [left; auto|by right].
    + left. destruct Hev as ((r1 & r2 & Hr & Hr2) & _). apply Hrunning. rewrite Hr. rewrite Hr2 in Hv. set_solver.
    + left. destruct Hev as (_ & Hr & _). apply Hrunning. by rewrite <-Hr.
Qed.

(** A run goes on until every node has a result. *)
Lemma trace_extends n st0 tr st :
  acyclic (node_deps nodes) → nodes_closed nodes → 0 < maxWorkers e →
  (∀ w id, is_Some (nodes !! id) → ∃ res w', node_runs w id res w') →
  invariant st → rank st ≤ n → exec_trace e g execCtx dependents st0 tr st →
  ∃ tr' st', exec_trace e g execCtx dependents st0 tr' st' ∧ size nodes ≤ x_processed st'.
Proof.
  intros Hac Hclosed Hmax Hruns. revert tr st. induction n as [|n IH]; intros tr st inv Hn Htr;
    (destruct (decide (size nodes ≤ x_processed st)) as [?|Hlt]; [by eauto|]);
    (destruct (step_progress st) as (ev & st' & Hstep); [done..|lia|]);
    destruct (step_spec st ev st' inv Hstep) as (inv' & Hr & _); [lia|].
  apply (IH (tr ++ [ev]) st'); [done|lia|]. by eapply trace_snoc.
Qed.

(** A run that is over: every node has a result and nothing is in flight. *)
Lemma finished_spec st :
  invariant st → size nodes ≤ x_processed st →
  (∀ v, is_Some (nodes !! v) → terminal (status (x_NodeResults st) v)) ∧ inflight st = [].
Proof.
  intros inv Hp. pose proof (inv_processed _ inv) as Hcount.
  assert (∀ v, is_Some (nodes !! v) → status (x_NodeResults st) v ≠ StatusPending) as Hall
    by (apply pending_count_zero; lia).
  split.
  - intros v Hv. destruct (co_status _ (inv_coherent _ inv) v); [by destruct (Hall v Hv)|done].
  - destruct (inflight st) as [|v l] eqn:Hin; [done|].
    assert (v ∈ inflight st) as (Hv & Hpv & _)%(inv_inflight _ inv) by (rewrite Hin; left).
    by destruct (Hall v Hv).
Qed.
End run.

(** ** Fresh runs *)

(** There is no checkpoint to resume from, or it records no node. *)
Definition fresh (e : dagExecutor) `{Faults} (d : gmap string content) : Prop :=
  ∀ c, load_checkpoint e d = Some c → ck_NodeStates c = Some ∅.

Section fresh.
Context {X : Type} `{Clock X, GoRange, Faults, NodeRunner (World X)}.

Lemma init_invariant e g nodes (w : World X) d st dependents :
  g_Nodes g = Some nodes → nodes_nonnil nodes → fresh e d →
  exec_init e g w d = Some (st, dependents) →
  (∀ u v, occ v (default [] (dependents !! u)) = occ u (node_deps nodes v)) ∧
  invariant e nodes st ∧ (∀ v, status (x_NodeResults st) v = StatusPending) ∧
  x_running st = [] ∧ rank nodes st ≤ 4 * size nodes.
Proof.
  intros Hg Hnn Hfresh Hinit.
  destruct (exec_init_spec e g nodes Hg Hnn w d) as (st' & deps' & Hinit' & Hdeg & Hadj & Hdom & Hst &
    Hnd & Htasks & Hrun & Hres & Hproc & Hck & _).
  rewrite Hinit in Hinit'. simplify_eq.
  assert (entries (FromCheckpoint (load_checkpoint e d)) = ∅) as Hnone.
  { destruct (load_checkpoint e d) as [c|] eqn:Hl; [|done]. simpl. by rewrite (Hfresh c Hl). }
  assert (alreadyDone (init_checkpoint e g (load_checkpoint e d)) = ∅) as Hdone.
  { unfold alreadyDone. unfold init_checkpoint.
    destruct (load_checkpoint e d) as [c|] eqn:Hl; simpl in *; [by rewrite Hnone|].
    by destruct (checkpointing e). }
  assert (∀ v, status (x_NodeResults st') v = StatusPending) as Hpend.
  { intros v. destruct (nodes !! v) as [n|] eqn:Hn.
    - rewrite Hst by (by eexists). by rewrite Hnone, lookup_empty.
    - unfold status. destruct (x_NodeResults st' !! v) eqn:Hv; [|done].
      assert (is_Some (nodes !! v)) as [? ?] by (apply Hdom; by eexists). congruence. }
  assert (pending_count nodes (x_NodeResults st') = size nodes) as Hcount.
  { rewrite <-length_node_ids. unfold pending_count.
    induction (node_ids nodes) as [|v l IH]; simpl; [done|]. by rewrite IH, Hpend, decide_True. }
  split_and!; [done| |done|done|unfold rank; lia].
  assert (∀ v, ready nodes (x_NodeResults st') v ↔ node_deps nodes v = []) as Hready.
  { intros v. unfold ready. destruct (node_deps nodes v) as [|d' l].
    - split; [done|]. by intros _ d' ?%elem_of_nil.
    - split; [|done]. intros Hr. pose proof (Hr d' (list_elem_of_here _ _)) as Hs. by rewrite Hpend in Hs. }
  constructor.
  - constructor; [done|..].
    + intros v. by left.
    + intros v. rewrite Hpend. by intros [?|?].
    + intros v d' _. rewrite Hpend. by intros [?|?].
    + intros v. by rewrite Hpend.
    + intros v. by rewrite Hpend.
  - rewrite Hproc, Hdone, Hcount. by rewrite size_empty.
  - unfold inflight. by rewrite Hrun, Hres, !app_nil_r.
  - intros v. unfold inflight. rewrite Hrun, Hres, !app_nil_r, Htasks, Hready, Hdone. set_solver.
  - intros v [n Hn]. rewrite Hdeg, Hn. simpl. do 2 f_equal. unfold waiting.
    induction (node_deps nodes v) as [|d' l IH]; [done|]. rewrite filter_cons, Hpend, decide_True by done.
    simpl. by rewrite IH.
  - rewrite Hrun. simpl. lia.
  - rewrite Hres. by intros res ?%elem_of_nil.
  - intros c Hc. rewrite Hc in Hck. unfold init_checkpoint in Hck.
    destruct (load_checkpoint e d) as [c'|] eqn:Hl; simpl in Hck.
    + simplify_eq. rewrite Hck, (Hfresh c' Hl). by eexists.
    + destruct (checkpointing e); simpl in Hck; simplify_eq. rewrite Hck. by eexists.
Qed.

(** Every worker that starts a node of the graph returns. *)
Definition workers_return (g : ExecutionGraph) : Prop :=
  ∀ w id, is_Some (entries (g_Nodes g) !! id) → ∃ res w', node_runs w id res w'.

(** What holds along a run, for the theorems below. *)
Lemma run_trace_ok e g execCtx w d st0 dependents tr st :
  well_formed g → fresh e d → exec_init e g w d = Some (st0, dependents) →
  exec_trace e g execCtx dependents st0 tr st →
  ∃ nodes, g_Nodes g = Some nodes ∧ nodes_nonnil nodes ∧ nodes_closed nodes ∧
    acyclic (node_deps nodes) ∧
    (∀ u v, occ v (default [] (dependents !! u)) = occ u (node_deps nodes v)) ∧
    trace_ok e nodes st0 tr st ∧ rank nodes st0 ≤ 4 * size nodes.
Proof.
  intros (nodes & Hg & Hnn & Hcl & Hac & _) Hfresh Hinit Htr.
  destruct (init_invariant e g nodes w d st0 dependents Hg Hnn Hfresh Hinit)
    as (Hdeps & Hinv & Hst & Hrun & Hrank).
  exists nodes. split_and!; try done.
  eapply trace_spec; try done. intros v. by rewrite Hst.
Qed.

(** A fresh run over a valid graph can go on to its end. *)
Lemma complete_run e g execCtx (w : World X) d :
  well_formed g → fresh e d → 0 < maxWorkers e → workers_return g →
  ∃ st0 dependents tr st, exec_init e g w d = Some (st0, dependents) ∧
    exec_trace e g execCtx dependents st0 tr st ∧ mlen (g_Nodes g) ≤ x_processed st.
Proof.
  intros (nodes & Hg & Hnn & Hcl & Hac & _) Hfresh Hmax Hret.
  destruct (exec_init_spec e g nodes Hg Hnn w d) as (st0 & dependents & Hinit & _).
  destruct (init_invariant e g nodes w d st0 dependents Hg Hnn Hfresh Hinit) as (Hdeps & inv & _).
  destruct (trace_extends e g nodes execCtx dependents Hg Hnn Hdeps
    (rank nodes st0) st0 [] st0) as (tr & st & Htr & Hp); try done.
  { intros w0 id Hid. apply Hret. by rewrite Hg. }
  { apply trace_nil. }
  exists st0, dependents, tr, st. split_and!; [done..|]. unfold mlen. by rewrite Hg.
Qed.

(** C1: in a fresh run over a valid graph a node is handed to a worker at most
    once, only after every one of its dependencies was received back as a
    success, at most [maxWorkers] nodes run at a time, and a node succeeds only if
    its dependencies did. *)
Theorem Execute_dispatch_order e g execCtx w d st0 dependents tr st :
  well_formed g → fresh e d → exec_init e g w d = Some (st0, dependents) →
  exec_trace e g execCtx dependents st0 tr st →
  NoDup (started tr) ∧ length (x_running st) ≤ maxWorkers e ∧
  (∀ v dep, v ∈ x_running st → dep ∈ node_deps (entries (g_Nodes g)) v → received tr dep StatusSuccess) ∧
  (∀ v dep, status (x_NodeResults st) v = StatusSuccess → dep ∈ node_deps (entries (g_Nodes g)) v →
     status (x_NodeResults st) dep = StatusSuccess).
Proof.
  intros Hwf Hfresh Hinit Htr.
  destruct (run_trace_ok e g execCtx w d st0 dependents tr st Hwf Hfresh Hinit Htr)
    as (nodes & Hg & Hnn & Hcl & Hac & Hdeps & Hok & _).
  rewrite Hg. simpl. pose proof (tr_invariant _ _ _ _ _ Hok) as inv. split_and!.
  - apply Hok.
  - apply (inv_workers _ _ _ inv).
  - intros v dep Hv Hdep. apply (tr_success _ _ _ _ _ Hok).
    assert (v ∈ inflight st) as (_ & _ & Hr)%(inv_inflight _ _ _ inv) by (unfold inflight; set_solver).
    by apply Hr.
  - intros v dep Hv Hdep. apply (co_ran _ _ (inv_coherent _ _ _ inv) v); [by left|done].
Qed.

(** C3: a run over a valid graph that found no checkpointed node, with at least one
    worker and steps that return, never gets stuck: while some node has no result a
    step is possible; receiving a result never panics nor blocks on the channel of
    tasks; and a run takes at most four steps per node.  (A resumed run can hang:
    see [resume_deadlock].) *)
Theorem Execute_no_deadlock e g execCtx w d st0 dependents tr st :
  well_formed g → fresh e d → 0 < maxWorkers e → workers_return g →
  exec_init e g w d = Some (st0, dependents) →
  exec_trace e g execCtx dependents st0 tr st →
  length tr ≤ 4 * mlen (g_Nodes g) ∧
  (x_processed st < mlen (g_Nodes g) → ∃ ev st', exec_step e g execCtx dependents st ev st') ∧
  (∀ res rest w', x_results st = res :: rest →
     ∃ st', on_result e g execCtx dependents res
       (set_queues (x_tasks st) (x_running st) rest w' st) = Ok st').
Proof.
  intros Hwf Hfresh Hmax Hret Hinit Htr.
  destruct (run_trace_ok e g execCtx w d st0 dependents tr st Hwf Hfresh Hinit Htr)
    as (nodes & Hg & Hnn & Hcl & Hac & Hdeps & Hok & Hrank).
  pose proof (tr_invariant _ _ _ _ _ Hok) as inv.
  assert (entries (g_Nodes g) = nodes ∧ mlen (g_Nodes g) = size nodes) as [Hen Hlen]
    by (unfold mlen; by rewrite Hg).
  unfold workers_return in Hret. rewrite Hlen. rewrite Hen in Hret. split_and!.
  - pose proof (tr_rank _ _ _ _ _ Hok). lia.
  - intros Hp. by apply (step_progress e g nodes execCtx dependents Hg Hnn Hdeps st).
  - intros res rest w' Hres.
    destruct (on_result_ok e g nodes execCtx dependents Hg Hnn Hdeps st res rest inv Hres w') as (st' & Hon & _).
    by exists st'.
Qed.

(** C2: when a run over a valid graph that found no checkpointed node is over, every
    node has a final status and nothing is left in the channels or with the workers:
    a node all of whose dependencies succeeded has a status its own run reported, and
    a node with a dependency that did not succeed is skipped. *)
Theorem Execute_final_statuses e g execCtx w d st0 dependents tr st :
  well_formed g → fresh e d → exec_init e g w d = Some (st0, dependents) →
  exec_trace e g execCtx dependents st0 tr st → mlen (g_Nodes g) ≤ x_processed st →
  x_tasks st = [] ∧ x_running st = [] ∧ x_results st = [] ∧
  ∀ v, is_Some (entries (g_Nodes g) !! v) →
    terminal (status (x_NodeResults st) v) ∧
    (ready (entries (g_Nodes g)) (x_NodeResults st) v → may_report (X := X) v (status (x_NodeResults st) v)) ∧
    (¬ ready (entries (g_Nodes g)) (x_NodeResults st) v → status (x_NodeResults st) v = StatusSkipped).
Proof.
  intros Hwf Hfresh Hinit Htr Hp.
  destruct (run_trace_ok e g execCtx w d st0 dependents tr st Hwf Hfresh Hinit Htr)
    as (nodes & Hg & Hnn & Hcl & Hac & Hdeps & Hok & _).
  unfold mlen in Hp. rewrite Hg in *. simpl in *.
  pose proof (tr_invariant _ _ _ _ _ Hok) as inv.
  destruct (finished_spec e nodes st inv Hp) as [Hterm Hnone]. unfold inflight in Hnone.
  apply app_eq_nil in Hnone as [Ht [Hr Hres]%app_eq_nil]. apply fmap_nil_inv in Hres.
  split_and!; [done..|]. intros v Hv. split_and!; [by apply Hterm|..].
  - intros Hready. apply (co_origin _ _ (inv_coherent _ _ _ inv)); [|done].
    by apply terminal_not_pending, Hterm.
  - intros Hnr. destruct (Hterm v Hv) as [Hs|[Hs|Hs]]; [|by destruct Hnr; apply (co_ran _ _ (inv_coherent _ _ _ inv)); auto..|done].
    by destruct Hnr; apply (co_ran _ _ (inv_coherent _ _ _ inv)); auto.
Qed.

(** The nodes' verdicts decide every final status: a node whose dependencies all
    succeeded ends with its verdict, any other is skipped. *)
Lemma final_status_unique (nodes : node_map) (verdict : NodeID → Status) (s1 s2 : NodeID → Status) :
  acyclic (node_deps nodes) → nodes_closed nodes →
  (∀ s, s = s1 ∨ s = s2 → ∀ v, is_Some (nodes !! v) →
     ((∀ dep, dep ∈ node_deps nodes v → s dep = StatusSuccess) → s v = verdict v) ∧
     (¬ (∀ dep, dep ∈ node_deps nodes v → s dep = StatusSuccess) → s v = StatusSkipped)) →
  ∀ v, is_Some (nodes !! v) → s1 v = s2 v.
Proof.
  intros Hac Hcl Hspec v Hv.
  pose proof (acyclic_sn (node_deps nodes) (node_ids nodes) Hac
    (λ v d Hd, proj2 (elem_of_node_ids nodes d) (Hcl v d Hd)) v) as Hsn.
  induction Hsn as [v _ IH].
  assert (∀ dep, dep ∈ node_deps nodes v → s1 dep = s2 dep) as Heq
    by (intros dep Hdep; apply IH; [done|by eapply Hcl]).
  destruct (Hspec s1 (or_introl eq_refl) v Hv) as [Hy1 Hn1].
  destruct (Hspec s2 (or_intror eq_refl) v Hv) as [Hy2 Hn2].
  destruct (decide (Forall (λ dep, s1 dep = StatusSuccess) (node_deps nodes v))) as [Hall|Hnot];
    rewrite Forall_forall in *.
  - rewrite Hy1, Hy2; [done|intros dep Hdep|done]. rewrite <-Heq by done. by apply Hall.
  - rewrite Hn1, Hn2; [done| |].
    + intros Hall. apply Hnot. intros dep Hdep. rewrite Heq by done. by apply Hall.
    + intros Hall. by apply Hnot.
Qed.

(** C5: the final statuses do not depend on the schedule: two complete runs over the
    same valid graph that both found no checkpointed node, by any two executors, in
    any worlds and interleavings, give every node the same status, when what a node
    reports is determined by the node. *)
Theorem Execute_schedule_independent (verdict : NodeID → Status) g
    e1 c1 w1 d1 i1 dep1 tr1 st1 e2 c2 w2 d2 i2 dep2 tr2 st2 :
  (∀ w v res w', node_runs w v res w' → wr_status res = verdict v) →
  well_formed g → fresh e1 d1 → fresh e2 d2 →
  exec_init e1 g w1 d1 = Some (i1, dep1) → exec_trace e1 g c1 dep1 i1 tr1 st1 →
  mlen (g_Nodes g) ≤ x_processed st1 →
  exec_init e2 g w2 d2 = Some (i2, dep2) → exec_trace e2 g c2 dep2 i2 tr2 st2 →
  mlen (g_Nodes g) ≤ x_processed st2 →
  ∀ v, is_Some (entries (g_Nodes g) !! v) →
    status (x_NodeResults st1) v = status (x_NodeResults st2) v.
Proof.
  intros Hverdict Hwf Hf1 Hf2 Hi1 Ht1 Hp1 Hi2 Ht2 Hp2.
  assert (∀ e c w d i dep tr st, fresh e d → exec_init e g w d = Some (i, dep) →
    exec_trace e g c dep i tr st → mlen (g_Nodes g) ≤ x_processed st →
    ∀ v, is_Some (entries (g_Nodes g) !! v) →
      (ready (entries (g_Nodes g)) (x_NodeResults st) v → status (x_NodeResults st) v = verdict v) ∧
      (¬ ready (entries (g_Nodes g)) (x_NodeResults st) v → status (x_NodeResults st) v = StatusSkipped))
    as Hspec.
  { intros e c w d i dep tr st Hf Hi Ht Hp v Hv.
    destruct (run_trace_ok e g c w d i dep tr st Hwf Hf Hi Ht) as (nodes & Hg & _ & _ & _ & _ & Hok & _).
    unfold mlen in Hp. rewrite Hg in *. simpl in *. pose proof (tr_invariant _ _ _ _ _ Hok) as inv.
    destruct (finished_spec e nodes st inv Hp) as [Hterm _]. split.
    - intros Hready.
      destruct (co_origin _ _ (inv_coherent _ _ _ inv) v) as (w0 & w0' & res & Hrun & <-);
        [by apply terminal_not_pending, Hterm|done|]. by eapply Hverdict.
    - intros Hnr. destruct (Hterm v Hv) as [Hs|[Hs|Hs]]; [..|done];
        destruct Hnr; apply (co_ran _ _ (inv_coherent _ _ _ inv)); auto. }
  pose proof Hwf as (nodes & Hg & _ & Hcl & Hac & _). rewrite Hg in *. simpl in *.
  apply (final_status_unique nodes verdict); [done..|].
  intros s [-> | ->] v Hv; [by eapply (Hspec e1)|by eapply (Hspec e2)].
Qed.

Lemma any_failed_spec (results : gmap NodeID NodeResult) :
  any_failed results = true ↔ ∃ v nr, results !! v = Some nr ∧ nr_Status nr = StatusFailed.
Proof.
  unfold any_failed. rewrite existsb_exists. split.
  - intros ([v nr] & Hin%list_elem_of_In%elem_of_range & Hs%bool_decide_eq_true). by exists v, nr.
  - intros (v & nr & Hin & Hs). exists (v, nr). split; [|by apply bool_decide_eq_true].
    by apply list_elem_of_In, elem_of_range.
Qed.

(** What every completed run over a valid graph returns. *)
Lemma Execute_result e g execCtx w d result err d' :
  well_formed g → fresh e d → Execute e g execCtx false w d result err d' →
  err = None ∧ dom (ger_NodeResults result) = dom (entries (g_Nodes g)) ∧
  (∀ v, is_Some (entries (g_Nodes g) !! v) → terminal (status (ger_NodeResults result) v)) ∧
  (ger_Status result = StatusFailed ↔ ∃ v, status (ger_NodeResults result) v = StatusFailed) ∧
  (ger_Status result = StatusFailed ∨ ger_Status result = StatusSuccess).
Proof.
  intros Hwf Hfresh Hex.
  assert (ExecutionGraph_Validate g = Ok tt) as Hvalid
    by (destruct (Validate_cases g) as [[-> _]|(err0 & _ & He)];
        [done|by destruct (well_formed_no_error g err0 Hwf)]).
  destruct Hex as [results Hdry|err msg _ Herr|st0 dependents tr st result d' _ _ Hinit Htr Hp Hfin];
    [done|congruence|].
  destruct (run_trace_ok e g _ w d st0 dependents tr st Hwf Hfresh Hinit Htr)
    as (nodes & Hg & _ & _ & _ & _ & Hok & _).
  unfold mlen in Hp. rewrite Hg in *. simpl in *. pose proof (tr_invariant _ _ _ _ _ Hok) as inv.
  destruct (finished_spec e nodes st inv Hp) as [Hterm _].
  unfold exec_finish in Hfin. simplify_eq. simpl. split_and!; [done| |done| |].
  - apply set_eq. intros v. by rewrite !elem_of_dom, (co_dom _ _ (inv_coherent _ _ _ inv)).
  - assert ((∃ v, status (x_NodeResults st) v = StatusFailed) ↔ any_failed (x_NodeResults st) = true) as ->.
    { rewrite any_failed_spec. unfold status. split.
      - intros [v Hv]. destruct (x_NodeResults st !! v) as [nr|] eqn:Hnr; [|done]. by exists v, nr.
      - intros (v & nr & Hnr & Hs). exists v. by rewrite Hnr. }
    by destruct (any_failed _).
  - destruct (any_failed _); auto.
Qed.

(** C4: [Execute], not in dry-run mode, on a valid graph with no checkpointed
    node, with at least one worker and steps that return, returns: there is a run to
    the end, and every result it can return has one final result per node of the
    graph, no error, and the status [Failed] exactly when some node failed and
    [Success] otherwise. *)
Theorem Execute_returns e g execCtx w d :
  well_formed g → fresh e d → 0 < maxWorkers e → workers_return g →
  (∃ result d', Execute e g execCtx false w d result None d') ∧
  ∀ result err d', Execute e g execCtx false w d result err d' →
    err = None ∧ dom (ger_NodeResults result) = dom (entries (g_Nodes g)) ∧
    (∀ v, is_Some (entries (g_Nodes g) !! v) → terminal (status (ger_NodeResults result) v)) ∧
    (ger_Status result = StatusFailed ↔ ∃ v, status (ger_NodeResults result) v = StatusFailed) ∧
    (ger_Status result = StatusFailed ∨ ger_Status result = StatusSuccess).
Proof.
  intros Hwf Hfresh Hmax Hret. split; [|intros; by eapply Execute_result].
  assert (ExecutionGraph_Validate g = Ok tt) as Hvalid
    by (destruct (Validate_cases g) as [[-> _]|(err & _ & He)];
        [done|by destruct (well_formed_no_error g err Hwf)]).
  destruct (complete_run e g (execution_context e execCtx) w d) as (st0 & dependents & tr & st & Hinit & Htr & Hp);
    [done..|].
  destruct (exec_finish e g (now w) st) as [result d'] eqn:Hfin.
  exists result, d'. by eapply Execute_run.
Qed.

(** The nodes a resumed run takes as done: those its checkpoint records. *)
Definition recorded_done (e : dagExecutor) (g : ExecutionGraph) (d : gmap string content) : gset NodeID :=
  alreadyDone (init_checkpoint e g (load_checkpoint e d)).

(** C40: a resumed run waits for ever: when the checkpoint has a node to spare,
    that is when not all nodes of a valid graph are recorded as done, and every
    node not recorded as done has a dependency, the loop starts with no task and
    no step is possible, although nodes are left: nothing accounts to the
    dependents of a recorded node for its success. *)
Theorem resume_deadlock e g execCtx w d st0 dependents :
  well_formed g → exec_init e g w d = Some (st0, dependents) →
  size (recorded_done e g d) < mlen (g_Nodes g) →
  (∀ v, is_Some (entries (g_Nodes g) !! v) → v ∉ recorded_done e g d → node_deps (entries (g_Nodes g)) v ≠ []) →
  x_processed st0 < mlen (g_Nodes g) ∧
  ∀ ev st, ¬ exec_step e g execCtx dependents st0 ev st.
Proof.
  intros (nodes & Hg & Hnn & _) Hinit. set (done := recorded_done e g d). intros Hleft Hdeps.
  destruct (exec_init_spec e g nodes Hg Hnn w d) as (st & deps' & Hinit' & _ & _ & _ & _ & _ & Htasks & Hrun & Hres & Hproc & _).
  rewrite Hinit in Hinit'. simplify_eq. fold (recorded_done e g d) done in Hproc, Htasks. rewrite Hg in Hdeps. simpl in Hdeps.
  split; [by rewrite Hproc|]. intros ev st' Hstep.
  assert (x_tasks st = []) as Hnil.
  { destruct (x_tasks st) as [|v l]; [done|].
    assert (v ∈ v :: l) as (Hv & Hd & Hnd)%Htasks by left. by destruct (Hdeps v Hv Hnd). }
  destruct Hstep as [| |? running1 ? ? ? ? ? ? Heq|]; [congruence..| |congruence].
  rewrite Hrun in Heq. by destruct running1.
Qed.
End fresh.
