(* ===== verification/Pipeline.v ===== *)
(** Planning and running a pipeline: [src/internal/pipeline/pipeline.go],
    [safe_plan.go] and the pipelines of [src/internal/pipeline/cluster/], over the
    modules behind the interface [Modules]. *)
From S2P Require Import Prelude.
From S2P Require Import Values.
From S2P Require Import Plan.
From S2P Require Import Result.
From S2P Require Import GoPath.
From S2P Require Import Cluster.
From S2P Require Import Context.
From S2P Require Import Task.
From S2P Require Import Module.
From S2P Require Import StepRunner.
From S2P Require Import NodeRunner.
From S2P Require Import Checkpoint.
From S2P Require Import Scheduler.

(** ** Data *)

(** The errors of [EnsureAssetsAvailable]. *)
Inductive asset_error : Type :=
| ConnectivityCheckFailed (err : module_error)
| WorkDirNotAvailable
| DownloadPlanningFailed (err : module_error).

Inductive pipeline_error : Type :=
| NotModuleContext
| ModulePlanFailed (md : module_kind) (err : module_error)
| ModuleMergeFailed (md : module_kind) (err : plan_error)
| DuplicateNodeID (id : NodeID) (md : module_kind)
| ModuleLinkFailed (err : plan_error)
| FinalGraphInvalid (err : plan_error)
| TargetVersionRequired
| SnapshotPathRequired
| EtcdUpgradeNotImplemented
| NotRuntimeContext
| AssetPreparationFailed (err : asset_error)
| PlanningPhaseFailed (err : pipeline_error)
| ExecutionPhaseFailed (err : plan_error).

(** [pipeline.Base] and the fields of the pipeline types. *)
Definition DefaultPipelineTimeout : Z := 30 * Minute.

Record PipelineBase : Type := MkPipelineBase {
  pb_Name : string;
  pb_Description : string;
  pb_Timeout : Z;
  pb_IgnoreError : bool;
}.

Definition NewBase (name description : string) : PipelineBase :=
  MkPipelineBase name description DefaultPipelineTimeout false.

Definition Base_GetTimeout (b : PipelineBase) : Z :=
  if decide (pb_Timeout b <= 0)%Z then DefaultPipelineTimeout else pb_Timeout b.

(** A pipeline: its base, its modules ([None] is a nil slice) and the options of
    its type. *)
Record Pipeline : Type := MkPipeline {
  p_Base : PipelineBase;
  p_PipelineModules : option (list module_kind);
  p_AssumeYes : bool;
  p_TargetVersion : string;
  p_SnapshotPath : string;
}.

Definition p_Name (p : Pipeline) : string := pb_Name (p_Base p).

(** The pipelines copy the slice, a nil one to an empty one. *)
Definition p_Modules (p : Pipeline) : list module_kind := default [] (p_PipelineModules p).

Definition new_pipeline (name description : string) (modules : list module_kind) (assumeYes : bool) : Pipeline :=
  MkPipeline (NewBase name description) (Some modules) assumeYes "" "".

(** *** Constructors *)

Definition NewCreateClusterPipeline (assumeYes : bool) : Pipeline :=
  new_pipeline "CreateNewCluster" "Creates a new Kubernetes cluster with all necessary components"
    [PreflightConnectivityModule; PreflightModule assumeYes; InfrastructureModule; LoadBalancerModule;
     ControlPlaneModule; NetworkModule; WorkerModule; AddonsModule] assumeYes.

Definition NewDeleteClusterPipeline (assumeYes : bool) : Pipeline :=
  new_pipeline "DeleteCluster" "Deletes an existing Kubernetes cluster and cleans up all resources"
    [PreflightConnectivityModule; PreflightModule assumeYes; AddonCleanupModule; WorkerCleanupModule;
     ControlPlaneCleanupModule; NetworkCleanupModule; LoadBalancerCleanupModule; EtcdCleanupModule;
     RuntimeCleanupModule; StorageCleanupModule; OsCleanupModule] assumeYes.

Definition NewUpgradeClusterPipeline (targetVersion : string) (assumeYes : bool) : Pipeline :=
  let targetVersion := if decide (targetVersion = "") then "unknown" else targetVersion in
  MkPipeline (NewBase "UpgradeCluster" "Upgrades an existing Kubernetes cluster to a target version")
    (Some [PreflightConnectivityModule; PreflightModule assumeYes; ControlPlaneUpgradeModule targetVersion;
           WorkerUpgradeModule targetVersion; NetworkUpgradeModule]) assumeYes targetVersion "".

Definition NewAddNodesPipeline (assumeYes : bool) : Pipeline :=
  new_pipeline "AddNodes" "Adds new nodes to an existing Kubernetes cluster"
    [PreflightConnectivityModule; PreflightModule assumeYes; OsModule; EtcdModule; RuntimeModule; WorkerModule]
    assumeYes.

Definition NewDeleteNodesPipeline (assumeYes : bool) : Pipeline :=
  new_pipeline "DeleteNodes" "Deletes specific nodes from an existing Kubernetes cluster"
    [PreflightModule assumeYes; WorkerCleanupModule] assumeYes.

Definition NewCreateRegistryPipeline (assumeYes : bool) : Pipeline :=
  new_pipeline "CreateRegistry" "Creates a container registry for the cluster"
    [PreflightConnectivityModule; PreflightModule assumeYes; RegistryModule "install"] assumeYes.

Definition NewDeleteRegistryPipeline (assumeYes : bool) : Pipeline :=
  new_pipeline "DeleteRegistry" "Deletes a container registry from the cluster"
    [PreflightConnectivityModule; PreflightModule assumeYes; RegistryModule "uninstall"] assumeYes.

Definition NewRenewAllPipeline (assumeYes : bool) : Pipeline :=
  new_pipeline "RenewAll" "Renews all certificates (Kubernetes + etcd, CA + leaf) in the cluster"
    [PreflightConnectivityModule; PreflightModule assumeYes; PKIModule "all"] assumeYes.

Definition NewRenewEtcdCAPipeline (assumeYes : bool) : Pipeline :=
  new_pipeline "RenewEtcdCA" "Renews all etcd CA certificates (CA + leaf certs) in the cluster"
    [PreflightConnectivityModule; PreflightModule assumeYes; PKIModule "etcd-ca"] assumeYes.

Definition NewRenewEtcdLeafPipeline (assumeYes : bool) : Pipeline :=
  new_pipeline "RenewEtcdLeaf" "Renews only etcd leaf certificates (preserves existing CA) in the cluster"
    [PreflightConnectivityModule; PreflightModule assumeYes; PKIModule "etcd-certs"] assumeYes.

Definition NewRenewKubernetesCAPipeline (assumeYes : bool) : Pipeline :=
  new_pipeline "RenewKubernetesCA" "Renews all Kubernetes CA certificates (CA + leaf certs) in the cluster"
    [PreflightConnectivityModule; PreflightModule assumeYes; PKIModule "kubernetes-ca"] assumeYes.

Definition NewRenewKubernetesLeafPipeline (assumeYes : bool) : Pipeline :=
  new_pipeline "RenewKubernetesLeaf" "Renews only Kubernetes leaf certificates (preserves existing CA) in the cluster"
    [PreflightConnectivityModule; PreflightModule assumeYes; PKIModule "kubernetes-certs"] assumeYes.

(** [if !valid[x] { x = "all" }] *)
Definition or_all (valid : list string) (x : string) : string :=
  if decide (x ∈ valid) then x else "all".

Definition NewBackupPipeline (backupType : string) : Pipeline :=
  let backupType := or_all ["all"; "pki"; "etcd"; "kubernetes"] backupType in
  new_pipeline "Backup" ("Backup cluster data (" +:+ backupType +:+ ")")
    [PreflightConnectivityModule; BackupModule backupType] false.

Definition NewRestorePipeline (restoreType snapshotPath : string) (assumeYes : bool) : Pipeline :=
  let restoreType := or_all ["all"; "pki"; "etcd"; "kubernetes"] restoreType in
  MkPipeline (NewBase "Restore" ("Restore cluster data (" +:+ restoreType +:+ ")"))
    (Some [PreflightConnectivityModule; PreflightModule assumeYes; RestoreModule restoreType snapshotPath])
    assumeYes "" snapshotPath.

Definition NewHealthPipeline (component : string) : Pipeline :=
  let component := or_all ["all"; "apiserver"; "scheduler"; "controller-manager"; "kubelet"; "cluster"] component in
  new_pipeline "HealthCheck" ("Check health status of cluster components (" +:+ component +:+ ")")
    [PreflightConnectivityModule; HealthModule component] false.

Definition NewReconfigurePipeline (component : string) (assumeYes : bool) : Pipeline :=
  let component :=
    if decide (component = "network") then "all"
    else or_all ["all"; "apiserver"; "scheduler"; "controller-manager"; "kubelet"; "proxy"] component in
  new_pipeline "Reconfigure" ("Reconfigure cluster components (" +:+ component +:+ ")")
    [PreflightConnectivityModule; PreflightModule assumeYes; ReconfigureModule component] assumeYes.

Definition NewUpgradeEtcdPipeline (targetVersion : string) : Pipeline :=
  MkPipeline (NewBase "UpgradeEtcd" "Upgrades etcd cluster to a target version")
    (Some [PreflightConnectivityModule; EtcdModule]) false targetVersion "".

(** [pipeline/assets/download.go] *)
Definition NewDownloadAssetsPipeline (outputPath : string) : Pipeline :=
  let outputPath := if decide (outputPath = "") then "./packages" else outputPath in
  new_pipeline "DownloadAssets" "Download and package all assets for offline installation"
    [AssetsDownloadModule outputPath] false.

(** ** Planning *)

(** [SafePlan]: the results are not named, so the value the deferred function
    gives [err] is lost, and a panic makes the call return two nil values. *)
Definition SafePlan (planFn : outcome pipeline_error ExecutionGraph)
    : option ExecutionGraph * option pipeline_error :=
  match planFn with
  | Ok g => (Some g, None)
  | Err err => (None, Some err)
  | Panic => (None, None)
  end.

(** [SafeModulePlan], likewise. *)
Definition SafeModulePlan `{Modules} (ctx : PipelineContext) (md : module_kind)
    : option ExecutionFragment * option module_error :=
  match mod_Plan md ctx with
  | Ok moduleFragment => (moduleFragment, None)
  | Err err => (None, Some err)
  | Panic => (None, None)
  end.

Section plan.
Context `{GoRange, Modules}.
Implicit Types (ctx : PipelineContext) (mods : list module_kind).

(** The graph under construction and [previousModuleExitNodes]. *)
Abbreviation plan_state := (ExecutionGraph * list NodeID)%type.

(** One module in the loop of most pipelines: plan, merge, link. *)
Definition plan_module_linked ctx (md : module_kind) : M plan_state pipeline_error unit := λ '(g, prev),
  match SafeModulePlan ctx md with
  | (_, Some err) => (Err (ModulePlanFailed md err), (g, prev))
  | (moduleFragment, None) =>
      match moduleFragment, ExecutionFragment_IsEmpty moduleFragment with
      | Some ef, false =>
          match (on_fst (ModuleMergeFailed md) (ExecutionGraph_MergeFragment (Some ef)) ≫= λ _,
                 on_fst ModuleLinkFailed
                   (if decide (0 < length prev) then LinkFragments prev (ef_EntryNodes ef) else mret tt)) (g, prev) with
          | (Ok _, (g, _)) => (Ok tt, (g, ef_ExitNodes ef))
          | (r, st) => (r, st)
          end
      | _, _ => (Ok tt, (g, prev))
      end
  end.

(** [node.Dependencies = plan.UniqueNodeIDs(append(node.Dependencies, prev...))] for
    an entry node, if the graph has it; a nil node panics. *)
Definition link_entry_inline (prev : list NodeID) (id : NodeID) : M ExecutionGraph plan_error unit := λ g,
  match entries (g_Nodes g) !! id with
  | None => (Ok tt, g)
  | Some None => (Panic, g)
  | Some (Some node) =>
      (Ok tt, g_set_Nodes (<[id := Some (set_Dependencies (UniqueNodeIDs (node_Dependencies node ++ prev)) node)]>
                             (entries (g_Nodes g))) g)
  end.

Definition link_entries_inline (prev entryNodes : list NodeID) : M ExecutionGraph plan_error unit :=
  foreach entryNodes (link_entry_inline prev).

(** The error of the merge written out in the cluster pipelines. *)
Definition inline_merge_error (md : module_kind) (err : plan_error) : pipeline_error :=
  match err with MergeDuplicate id => DuplicateNodeID id md | err => ModuleMergeFailed md err end.

(** One module in the loop of the create, delete and upgrade pipelines, which
    merge and link in place. *)
Definition plan_module_inline ctx (md : module_kind) : M plan_state pipeline_error unit := λ '(g, prev),
  match SafeModulePlan ctx md with
  | (_, Some err) => (Err (ModulePlanFailed md err), (g, prev))
  | (moduleFragment, None) =>
      match moduleFragment with
      | None => (Ok tt, (g, prev))
      | Some ef =>
          if decide (mlen (ef_Nodes ef) = 0) then (Ok tt, (g, prev))
          else
            match (on_fst (inline_merge_error md) (ExecutionGraph_MergeFragment (Some ef)) ≫= λ _,
                   on_fst ModuleLinkFailed
                     (if decide (0 < length prev) then link_entries_inline prev (ef_EntryNodes ef) else mret tt)) (g, prev) with
            | (Ok _, (g, _)) => (Ok tt, (g, ef_ExitNodes ef))
            | (r, st) => (r, st)
            end
      end
  end.

(** The function given to [SafePlan]: the loop over the modules, then the entry
    and exit nodes, then the validation. *)
Definition plan_with (plan_module : PipelineContext → module_kind → M plan_state pipeline_error unit)
    ctx (name : string) mods : outcome pipeline_error ExecutionGraph :=
  if pc_is_ModuleContext ctx then
    match foreach mods (plan_module ctx) (NewExecutionGraph name, []) with
    | (Err err, _) => Err err
    | (Panic, _) => Panic
    | (Ok _, (g, _)) =>
        match ExecutionGraph_CalculateEntryAndExitNodes g with
        | (Ok _, g) =>
            match ExecutionGraph_Validate g with
            | Ok _ => Ok g
            | Err err => Err (FinalGraphInvalid err)
            | Panic => Panic
            end
        | _ => Panic
        end
    end
  else Err NotModuleContext.

Definition plan_linked ctx (p : Pipeline) : option ExecutionGraph * option pipeline_error :=
  SafePlan (plan_with plan_module_linked ctx (p_Name p) (p_Modules p)).

Definition plan_inline ctx (p : Pipeline) : option ExecutionGraph * option pipeline_error :=
  SafePlan (plan_with plan_module_inline ctx (p_Name p) (p_Modules p)).

(** *** The [Plan] methods *)

Definition CreateClusterPipeline_Plan ctx (p : Pipeline) := plan_inline ctx p.
Definition DeleteClusterPipeline_Plan ctx (p : Pipeline) := plan_inline ctx p.
Definition DownloadAssetsPipeline_Plan ctx (p : Pipeline) := plan_inline ctx p.

Definition UpgradeClusterPipeline_Plan ctx (p : Pipeline) : option ExecutionGraph * option pipeline_error :=
  SafePlan (if decide (p_TargetVersion p = "" ∨ p_TargetVersion p = "unknown") then Err TargetVersionRequired
            else plan_with plan_module_inline ctx (p_Name p) (p_Modules p)).

Definition AddNodesPipeline_Plan ctx (p : Pipeline) := plan_linked ctx p.
Definition DeleteNodesPipeline_Plan ctx (p : Pipeline) := plan_linked ctx p.
Definition CreateRegistryPipeline_Plan ctx (p : Pipeline) := plan_linked ctx p.
Definition DeleteRegistryPipeline_Plan ctx (p : Pipeline) := plan_linked ctx p.
Definition RenewAllPipeline_Plan ctx (p : Pipeline) := plan_linked ctx p.
Definition RenewEtcdCAPipeline_Plan ctx (p : Pipeline) := plan_linked ctx p.
Definition RenewEtcdLeafPipeline_Plan ctx (p : Pipeline) := plan_linked ctx p.
Definition RenewKubernetesCAPipeline_Plan ctx (p : Pipeline) := plan_linked ctx p.
Definition RenewKubernetesLeafPipeline_Plan ctx (p : Pipeline) := plan_linked ctx p.
Definition BackupPipeline_Plan ctx (p : Pipeline) := plan_linked ctx p.
Definition HealthPipeline_Plan ctx (p : Pipeline) := plan_linked ctx p.
Definition ReconfigurePipeline_Plan ctx (p : Pipeline) := plan_linked ctx p.

Definition RestorePipeline_Plan ctx (p : Pipeline) : option ExecutionGraph * option pipeline_error :=
  SafePlan (if decide (p_SnapshotPath p = "") then Err SnapshotPathRequired
            else plan_with plan_module_linked ctx (p_Name p) (p_Modules p)).

(** It is not wrapped in [SafePlan]. *)
Definition UpgradeEtcdPipeline_Plan ctx (p : Pipeline) : option ExecutionGraph * option pipeline_error :=
  (None, Some EtcdUpgradeNotImplemented).

End plan.

(** ** Assets *)

(** What [os.Stat] reports of a path. *)
Inductive file_stat : Type :=
| StatNotExist
| StatError
| StatSize (n : Z).

Definition essentialComponents : list string := ["etcd"; "kubernetes"; "helm"].

Definition essentialFiles : gmap string (list string) :=
  list_to_map [("etcd", ["etcd.tar.gz"; "etcdctl.tar.gz"]);
               ("kubernetes", ["kubelet.tar.gz"; "kubeadm.tar.gz"; "kubectl.tar.gz"]);
               ("helm", ["helm.tar.gz"])].

Definition stat_exists (s : file_stat) : bool := match s with StatNotExist => false | _ => true end.

Definition stat_valid (s : file_stat) : bool :=
  match s with
  | StatNotExist => false
  | StatSize n => negb (bool_decide (n = 0%Z))
  | StatError => true
  end.

(** The loops stop at the first path that is missing or empty. *)
Definition DetectOfflineMode `{GoRange} (stat : string → file_stat) (c : Context) : bool :=
  match GetClusterConfig c with
  | None => false
  | Some _ =>
      let workDir := GetGlobalWorkDir c in
      if decide (workDir = "") then false
      else
        let packagesDir := filepath_Join [workDir; "packages"] in
        if negb (stat_exists (stat packagesDir)) then false
        else if negb (forallb (λ component, stat_exists (stat (filepath_Join [packagesDir; component])))
                        essentialComponents) then false
        else forallb (λ '(component, files),
               let compDir := filepath_Join [packagesDir; component] in
               forallb (λ file, stat_valid (stat (filepath_Join [compDir; file]))) files)
               (range 100 essentialFiles)
  end.

(** The fragment the download module plans is inspected and dropped: nothing
    executes it. *)
Definition EnsureAssetsAvailable `{GoRange, Modules} (stat : string → file_stat) (c : Context) : outcome asset_error unit :=
  let ctx := RuntimeContext c in
  if DetectOfflineMode stat c then Ok tt
  else
    map_err ConnectivityCheckFailed (mod_Plan PreflightConnectivityModule ctx) ≫= λ _,
    let workDir := GetGlobalWorkDir c in
    if decide (workDir = "") then Err WorkDirNotAvailable
    else map_err DownloadPlanningFailed (mod_Plan (AssetsDownloadModule workDir) ctx) ≫= λ _, Ok tt.

(** ** Running *)

Section run.
Context {X : Type} `{Clock X, Handles X, GoRange, Faults, Modules}.
Implicit Types (ctx : PipelineContext) (p : Pipeline) (w : World X) (d : gmap string content).

(** [currentGraph]: the graph given to [Run], or else the planned one. *)
Definition current_graph (graph : option ExecutionGraph) (planned : option ExecutionGraph * option pipeline_error)
    : option ExecutionGraph + pipeline_error :=
  match graph with
  | Some g => inl (Some g)
  | None => match planned with (_, Some err) => inr (PlanningPhaseFailed err) | (g, None) => inl g end
  end.

(** [currentGraph == nil || currentGraph.IsEmpty()] *)
Definition nothing_to_run (g : option ExecutionGraph) : bool :=
  match g with None => true | Some g => ExecutionGraph_IsEmpty g end.

Definition empty_result (p : Pipeline) : GraphExecutionResult :=
  MkGraphResult (p_Name p) 0 0 StatusSuccess ∅ "".

(** The [Run] method all pipelines share, after the preparation of assets:
    [planned] is what its [Plan] returns for [ctx]. *)
Inductive pipeline_Run (p : Pipeline) (planned : option ExecutionGraph * option pipeline_error)
    ctx (graph : option ExecutionGraph) (dryRun : bool) w d
    : option GraphExecutionResult → option pipeline_error → gmap string content → Prop :=
| Run_not_context :
    pc_Context ctx = None →
    pipeline_Run p planned ctx graph dryRun w d None (Some NotRuntimeContext) d
| Run_plan_failed err :
    is_Some (pc_Context ctx) → current_graph graph planned = inr err →
    pipeline_Run p planned ctx graph dryRun w d None (Some err) d
| Run_nothing g :
    is_Some (pc_Context ctx) → current_graph graph planned = inl g → nothing_to_run g = true →
    pipeline_Run p planned ctx graph dryRun w d (Some (empty_result p)) None d
| Run_executed engineCtx g result err d' :
    pc_Context ctx = Some engineCtx → current_graph graph planned = inl (Some g) →
    nothing_to_run (Some g) = false →
    (let e := NewCheckpointExecutorForPipeline (Some engineCtx) (p_Name p) in
     Execute (NR := runNode_NodeRunner e (execution_context e engineCtx) g) e g engineCtx dryRun w d result err d') →
    pipeline_Run p planned ctx graph dryRun w d (Some result) (ExecutionPhaseFailed <$> err) d'.

(** [CreateClusterPipeline.Run] prepares the assets first, after the assertion on
    the context; a panic there unwinds the caller. *)
Inductive CreateClusterPipeline_Run (stat : string → file_stat) (p : Pipeline) ctx
    (graph : option ExecutionGraph) (dryRun : bool) w d
    : option GraphExecutionResult → option pipeline_error → gmap string content → Prop :=
| Create_not_context :
    pc_Context ctx = None →
    CreateClusterPipeline_Run stat p ctx graph dryRun w d None (Some NotRuntimeContext) d
| Create_assets_failed engineCtx err :
    pc_Context ctx = Some engineCtx → EnsureAssetsAvailable stat engineCtx = Err err →
    CreateClusterPipeline_Run stat p ctx graph dryRun w d None (Some (AssetPreparationFailed err)) d
| Create_run engineCtx result err d' :
    pc_Context ctx = Some engineCtx → EnsureAssetsAvailable stat engineCtx = Ok tt →
    pipeline_Run p (CreateClusterPipeline_Plan ctx p) ctx graph dryRun w d result err d' →
    CreateClusterPipeline_Run stat p ctx graph dryRun w d result err d'.

Definition DeleteClusterPipeline_Run p ctx := pipeline_Run p (DeleteClusterPipeline_Plan ctx p) ctx.
Definition UpgradeClusterPipeline_Run p ctx := pipeline_Run p (UpgradeClusterPipeline_Plan ctx p) ctx.
Definition AddNodesPipeline_Run p ctx := pipeline_Run p (AddNodesPipeline_Plan ctx p) ctx.
Definition DeleteNodesPipeline_Run p ctx := pipeline_Run p (DeleteNodesPipeline_Plan ctx p) ctx.
Definition CreateRegistryPipeline_Run p ctx := pipeline_Run p (CreateRegistryPipeline_Plan ctx p) ctx.
Definition DeleteRegistryPipeline_Run p ctx := pipeline_Run p (DeleteRegistryPipeline_Plan ctx p) ctx.
Definition RenewAllPipeline_Run p ctx := pipeline_Run p (RenewAllPipeline_Plan ctx p) ctx.
Definition RenewEtcdCAPipeline_Run p ctx := pipeline_Run p (RenewEtcdCAPipeline_Plan ctx p) ctx.
Definition RenewEtcdLeafPipeline_Run p ctx := pipeline_Run p (RenewEtcdLeafPipeline_Plan ctx p) ctx.
Definition RenewKubernetesCAPipeline_Run p ctx := pipeline_Run p (RenewKubernetesCAPipeline_Plan ctx p) ctx.
Definition RenewKubernetesLeafPipeline_Run p ctx := pipeline_Run p (RenewKubernetesLeafPipeline_Plan ctx p) ctx.
Definition BackupPipeline_Run p ctx := pipeline_Run p (BackupPipeline_Plan ctx p) ctx.
Definition RestorePipeline_Run p ctx := pipeline_Run p (RestorePipeline_Plan ctx p) ctx.
Definition HealthPipeline_Run p ctx := pipeline_Run p (HealthPipeline_Plan ctx p) ctx.
Definition ReconfigurePipeline_Run p ctx := pipeline_Run p (ReconfigurePipeline_Plan ctx p) ctx.
Definition DownloadAssetsPipeline_Run p ctx := pipeline_Run p (DownloadAssetsPipeline_Plan ctx p) ctx.
Definition UpgradeEtcdPipeline_Run p ctx := pipeline_Run p (UpgradeEtcdPipeline_Plan ctx p) ctx.

End run.
