(* ===== verification/PipelineSpec.v ===== *)
(** What planning a pipeline guarantees ([src/internal/pipeline/cluster/]): the
    shape and validity of the planned graph, when planning succeeds, and what
    becomes of a panic. *)
From S2P Require Import Prelude.
From S2P Require Import Values.
From S2P Require Import Plan.
From S2P Require Import Kahn.
From S2P Require Import GraphSpec.
From S2P Require Import FragmentSpec.
From S2P Require Import Assemble.
From S2P Require Import Result.
From S2P Require Import GoPath.
From S2P Require Import Cluster.
From S2P Require Import Context.
From S2P Require Import Task.
From S2P Require Import Module.
From S2P Require Import StepRunner.
From S2P Require Import NodeRunner.
From S2P Require Import Checkpoint.
From S2P Require Import Scheduler.
From S2P Require Import SchedulerSpec.
From S2P Require Import Pipeline.

(** ** Specifications *)

(** The two ways the pipelines put modules together. *)
Inductive style : Type := Linked | Inline.

Section specs.
Context `{GoRange, Modules}.

Definition plan_module (s : style) : PipelineContext → module_kind → M (ExecutionGraph * list NodeID) pipeline_error unit :=
  match s with Linked => plan_module_linked | Inline => plan_module_inline end.

(** The fragment a module contributes, if it is not empty. *)
Definition fragment_of (ctx : PipelineContext) (md : module_kind) : option ExecutionFragment :=
  match SafeModulePlan ctx md with
  | (Some ef, None) => if ExecutionFragment_IsEmpty (Some ef) then None else Some ef
  | _ => None
  end.

Definition fragments_of (ctx : PipelineContext) (mods : list module_kind) : list ExecutionFragment :=
  omap (fragment_of ctx) mods.
End specs.

(** ** The loop over the modules *)

Section modules.
Context `{GoRange, Modules}.
Implicit Types (ctx : PipelineContext) (mods : list module_kind).

(** Linking entry by entry; an entry the graph does not have is passed over. *)
Lemma link_entries_inline_grown prev ents g g' m :
  g_Nodes g = Some m → link_entries_inline prev ents g = (Ok tt, g') →
  ∃ m', g' = g_set_Nodes m' g ∧ grown prev ents m m'.
Proof.
  intros Hg Hrun. unfold link_entries_inline in Hrun.
  assert (g_set_Nodes m g = g) as Hset by (pose proof (store_set_nodes m g) as Hl; by apply Hl).
  eapply (foreach_ind (λ k g', ∃ m', g' = g_set_Nodes m' g ∧ grown prev k m m')) in Hrun; [done| |].
  { exists m. by split; [|apply grown_refl]. }
  intros k id t t' _ (m1 & -> & Hgrown) Hrun1. unfold link_entry_inline in Hrun1. simpl in Hrun1.
  destruct (m1 !! id) as [[n|]|] eqn:Hid; simplify_eq.
  - eexists; split; [done|]. apply grown_snoc; [done|done|]. intros d.
    by rewrite elem_of_UniqueNodeIDs, elem_of_app.
  - exists m1. split; [done|]. by apply grown_missing.
Qed.

Lemma link_inline_total prev ents g m :
  g_Nodes g = Some m → nodes_nonnil m →
  ∃ g', link_entries_inline prev ents g = (Ok tt, g').
Proof.
  intros Hg Hnn.
  unfold link_entries_inline.
  destruct (foreach_total (λ (_ : list NodeID) g', ∃ m', g_Nodes g' = Some m' ∧ nodes_nonnil m') ents
    (link_entry_inline prev) g) as (g' & Hrun & _); [by exists m| |exists g'; exact Hrun].
  intros k id t _ (m1 & Ht & Hm1). unfold link_entry_inline. rewrite Ht. simpl.
  destruct (m1 !! id) as [[n|]|] eqn:Hid; [|by destruct (Hm1 id)|].
  - eexists; split; [done|]. eexists; split; [done|]. intros v. destruct (decide (id = v)) as [->|Hne].
    + by rewrite lookup_insert_eq.
    + rewrite lookup_insert_ne by done. apply Hm1.
  - eexists; split; [done|]. by exists m1.
Qed.

(** The two styles differ in the link and in the wording of a merge error. *)
Definition module_link (s : style) (prev ents : list NodeID) : M ExecutionGraph plan_error unit :=
  match s with Linked => LinkFragments prev ents | Inline => link_entries_inline prev ents end.

Definition module_merge_error (s : style) : module_kind → plan_error → pipeline_error :=
  match s with Linked => ModuleMergeFailed | Inline => inline_merge_error end.

Lemma module_link_grown s prev ents g g' m :
  g_Nodes g = Some m → module_link s prev ents g = (Ok tt, g') →
  ∃ m', g' = g_set_Nodes m' g ∧ grown prev ents m m'.
Proof.
  intros Hg. destruct s; [|by apply link_entries_inline_grown].
  intros Hrun. pose proof (LinkFragments_grown prev ents g g' m) as Hl. by apply Hl.
Qed.

(** One turn of the loop, in both styles. *)
Lemma plan_module_eq s ctx md g prev :
  (SafeModulePlan ctx md).2 = None →
  plan_module s ctx md (g, prev) =
  match fragment_of ctx md with
  | None => (Ok tt, (g, prev))
  | Some ef =>
      match (on_fst (module_merge_error s md) (ExecutionGraph_MergeFragment (Some ef)) ≫= λ _,
             on_fst ModuleLinkFailed
               (if decide (0 < length prev) then module_link s prev (ef_EntryNodes ef) else mret tt)) (g, prev) with
      | (Ok _, (g, _)) => (Ok tt, (g, ef_ExitNodes ef))
      | (r, st) => (r, st)
      end
  end.
Proof.
  unfold fragment_of. destruct (SafeModulePlan ctx md) as [[ef|] [err|]] eqn:Hplan; intros [=];
    destruct s; cbn [plan_module]; [unfold plan_module_linked|unfold plan_module_inline|
      unfold plan_module_linked|unfold plan_module_inline]; rewrite Hplan; [by simpl; case_bool_decide| |done..].
  simpl. destruct (decide (mlen (ef_Nodes ef) = 0)) as [Hz|Hz].
  - by rewrite bool_decide_true.
  - by rewrite bool_decide_false.
Qed.

Lemma plan_module_failed s ctx md err st :
  (SafeModulePlan ctx md).2 = Some err → plan_module s ctx md st = (Err (ModulePlanFailed md err), st).
Proof.
  destruct (SafeModulePlan ctx md) as [ef oerr] eqn:Hplan. simpl. intros ->.
  destruct s, st; cbn [plan_module]; [unfold plan_module_linked|unfold plan_module_inline]; by rewrite Hplan.
Qed.

Lemma plan_module_chains s ctx : chains (fragment_of ctx) (plan_module s ctx).
Proof.
  intros md g prev m g' prev' Hg Hrun.
  destruct ((SafeModulePlan ctx md).2) as [err|] eqn:Herr.
  { rewrite (plan_module_failed s ctx md err) in Hrun by done. done. }
  rewrite plan_module_eq in Hrun by done. destruct (fragment_of ctx md) as [ef|]; simplify_eq; [right|by left].
  match type of Hrun with context [match ?t with (_, _) => _ end] =>
    destruct t as [[[]|?|] [g2 prev2]] eqn:Hbind; simplify_eq/= end.
  apply bind_ok in Hbind as ([] & st & Hm & Hl).
  apply on_fst_ok in Hm as (g1 & Hm & ->). apply on_fst_ok in Hl as (g3 & Hl & [= -> ->]).
  exists ef. split_and!; [done..|].
  eapply (merge_link_extends prev ef g g1 _ m (module_link s prev (ef_EntryNodes ef))); [|done..].
  intros t t' m1. apply module_link_grown.
Qed.

Lemma plan_module_total s ctx mods :
  (∀ md, md ∈ mods → (SafeModulePlan ctx md).2 = None) →
  chains_total (fragment_of ctx) (plan_module s ctx) mods.
Proof.
  intros Hok md g prev m Hin Hg Hlv Hfit. rewrite plan_module_eq by auto.
  destruct (fragment_of ctx md) as [ef|]; [|by eexists _, _].
  destruct (Hfit ef eq_refl) as [Hef Hd]. pose proof (merge_total ef g m) as Hmerge. specialize (Hmerge Hg Hd). change store_merge with (@ExecutionGraph_MergeFragment _) in Hmerge.
  unfold mbind, M_bind, on_fst at 1. rewrite Hmerge. simpl.
  set (g1 := g_set_Nodes (m ∪ entries (ef_Nodes ef)) g).
  assert (∃ g2, module_link s prev (ef_EntryNodes ef) g1 = (Ok tt, g2)) as [g2 Hlink].
  { destruct s; [by eapply link_total|]. eapply link_inline_total; [done|].
    destruct Hlv as (? & ? & ? & _), Hef as (? & ? & ? & _). by apply union_valid. }
  eexists (if decide (0 < length prev) then g2 else g1), (ef_ExitNodes ef).
  unfold on_fst. case_decide; [by rewrite Hlink|done].
Qed.

(** The graph that is planned. *)
Lemma plan_graph s ctx name mods g :
  plan_with (plan_module s) ctx name mods = Ok g →
  well_formed g ∧ ∃ m, assembles (fragments_of ctx mods) m ∧
    g = MkGraph name (Some m) (sorted_ids m (no_deps m)) (sorted_ids m (no_dependents m)).
Proof.
  unfold plan_with. destruct (pc_is_ModuleContext ctx); [|done].
  destruct (foreach mods (plan_module s ctx) _) as [[[]|?|] [g0 prev]] eqn:Hloop; [|done..].
  apply (chain_run (fragment_of ctx)) in Hloop as (m & -> & _ & Hm & _); [|apply plan_module_chains|done].
  cbn [store_set ExecutionGraph_NodeStore g_set_Nodes NewExecutionGraph g_Name g_EntryNodes g_ExitNodes].
  destruct (ExecutionGraph_CalculateEntryAndExitNodes _) as [[[]|?|] g1] eqn:Hcalc; [|done..].
  destruct (ExecutionGraph_Validate g1) as [[]|?|] eqn:Hval; [|done..]. intros [= <-].
  destruct (Validate_cases g1) as [[_ Hwf]|(e & Heq & _)]; [|congruence].
  split; [done|]. exists m. split; [done|].
  assert (nodes_nonnil m) as Hnn.
  { destruct Hwf as (m1 & Hm1 & Hnn & _). unfold ExecutionGraph_CalculateEntryAndExitNodes in Hcalc.
    simpl in Hcalc. repeat case_match; simplify_eq/=; done. }
  rewrite (calculate_graph (MkGraph name (Some m) [] [])) in Hcalc by done. by simplify_eq.
Qed.

(** A valid graph with its entry and exit nodes computed is well formed. *)
Lemma calculated_well_formed name m :
  nodes_nonnil m → nodes_closed m → acyclic (node_deps m) →
  well_formed (MkGraph name (Some m) (sorted_ids m (no_deps m)) (sorted_ids m (no_dependents m))).
Proof.
  intros Hn Hc Ha. exists m. split_and!; [done..| |]; intros id Hid; simpl in Hid; unfold sorted_ids in Hid;
    apply elem_of_sort_strings, list_elem_of_filter in Hid as [Hnd Hin]; [|by apply elem_of_map_keys].
  split; [by apply elem_of_map_keys|]. unfold no_deps in Hnd. by apply bool_decide_unpack in Hnd.
Qed.

(** C31: whatever the modules plan, in either style, the graph a pipeline
    plans is valid; its nodes are those of the non-empty fragments of its modules,
    whose IDs are disjoint; a node depends exactly on what it depended on in its
    fragment and, as an entry node of a fragment, on every exit node of the
    fragment before it; and the graph's entry and exit nodes are those without
    dependencies and without dependents. *)
Theorem plan_assembles s ctx name mods g :
  plan_with (plan_module s) ctx name mods = Ok g →
  well_formed g ∧ assembles (fragments_of ctx mods) (entries (g_Nodes g)) ∧
  g_EntryNodes g = sorted_ids (entries (g_Nodes g)) (no_deps (entries (g_Nodes g))) ∧
  g_ExitNodes g = sorted_ids (entries (g_Nodes g)) (no_dependents (entries (g_Nodes g))).
Proof. by intros (Hwf & m & Hm & ->)%plan_graph. Qed.

Lemma plan_total s ctx name mods :
  pc_is_ModuleContext ctx = true →
  (∀ md, md ∈ mods → (SafeModulePlan ctx md).2 = None) →
  (∀ ef, ef ∈ fragments_of ctx mods → fragment_valid ef) → fragments_disjoint (fragments_of ctx mods) →
  ∃ g, plan_with (plan_module s) ctx name mods = Ok g.
Proof.
  intros Hctx Hok Hvalid Hdisj. unfold plan_with. rewrite Hctx.
  destruct (chain_total (fragment_of ctx) (plan_module s ctx) mods (NewExecutionGraph name))
    as (m & -> & _ & Hn & Hc & Ha & _); [apply plan_module_chains|by apply plan_module_total|done..|].
  cbn [store_set ExecutionGraph_NodeStore g_set_Nodes NewExecutionGraph g_Name g_EntryNodes g_ExitNodes].
  rewrite calculate_graph by done. cbn [g_Name g_Nodes entries default].
  set (g := MkGraph _ _ _ _).
  destruct (Validate_cases g) as [[-> _]|(e & Herr & He)]; [by eexists|]. exfalso.
  by apply (well_formed_no_error g e (calculated_well_formed name m Hn Hc Ha)).
Qed.

(** Planning succeeds, in either style, when the modules plan without
    error and their non-empty fragments are valid and have disjoint IDs. *)
Theorem plan_succeeds s ctx name mods :
  pc_is_ModuleContext ctx = true →
  (∀ md, md ∈ mods → (SafeModulePlan ctx md).2 = None) →
  (∀ ef, ef ∈ fragments_of ctx mods → fragment_valid ef) → fragments_disjoint (fragments_of ctx mods) →
  ∃ g, plan_with (plan_module s) ctx name mods = Ok g.
Proof. apply plan_total. Qed.

(** *** Panics *)

Definition panics (ctx : PipelineContext) (md : module_kind) : bool :=
  match mod_Plan md ctx with Panic => true | _ => false end.

(** A module whose [Plan] panics is left out without a word: the pipeline
    plans, error or not, what it plans for the modules that do not panic. The error
    the deferred function of [SafeModulePlan] makes of the panic is lost. *)
Theorem plan_skips_panicking_modules s ctx name mods :
  plan_with (plan_module s) ctx name mods =
  plan_with (plan_module s) ctx name (filter (λ md, panics ctx md = false) mods).
Proof.
  unfold plan_with. destruct (pc_is_ModuleContext ctx); [|done].
  assert (∀ st, foreach mods (plan_module s ctx) st =
    foreach (filter (λ md, panics ctx md = false) mods) (plan_module s ctx) st) as ->; [|done].
  induction mods as [|md mods IH]; intros st; [done|]. rewrite filter_cons. case_decide as Hp.
  - cbn [foreach]. unfold mbind, M_bind.
    destruct (plan_module s ctx md st) as [[[]|?|] st']; [apply IH|done..].
  - rewrite <-IH. cbn [foreach]. unfold mbind, M_bind.
    assert (plan_module s ctx md st = (Ok tt, st)) as ->; [|done].
    unfold panics in Hp. destruct (mod_Plan md ctx) as [r|r|] eqn:Hplan; [done..|].
    destruct s, st; cbn [plan_module]; [unfold plan_module_linked|unfold plan_module_inline];
      unfold SafeModulePlan; by rewrite Hplan.
Qed.
End modules.

(** ** Running what was planned *)

Section run.
Context {X : Type} `{Clock X, Handles X, GoRange, Faults, Modules}.
Implicit Types (ctx : PipelineContext) (p : Pipeline) (w : World X) (d : gmap string content).

(** What [Plan] returns for a pipeline of either style. *)
Definition planned (s : style) ctx p : option ExecutionGraph * option pipeline_error :=
  SafePlan (plan_with (plan_module s) ctx (p_Name p) (p_Modules p)).

(** When planning itself panics, [Plan] returns neither a graph nor an
    error, and [Run] reports a successful run of no node, executing nothing. *)
Theorem Run_planning_panic s ctx p c dryRun w d :
  pc_Context ctx = Some c → plan_with (plan_module s) ctx (p_Name p) (p_Modules p) = Panic →
  planned s ctx p = (None, None) ∧
  ∀ result err d', pipeline_Run p (planned s ctx p) ctx None dryRun w d result err d' ↔
    result = Some (empty_result p) ∧ err = None ∧ d' = d.
Proof.
  intros Hctx Hpanic. unfold planned. rewrite Hpanic. split; [done|]. intros result err d'. split.
  - inversion 1; simplify_eq/=; done.
  - intros (-> & -> & ->). by eapply Run_nothing.
Qed.

(** C6: what the [Run] the pipelines share reports of a run that is not a dry one, is
    given no graph, finds no checkpointed node and whose planning does not panic:
    without a result it reports an error and leaves the disk alone, and the context
    is not a runtime context or planning failed; with one it reports no error, the
    context is one and planning succeeded, the result has a final status for exactly
    the nodes of the fragments its modules planned, and it is [Failed] exactly when
    some node failed and [Success] otherwise. *)
Theorem pipeline_Run_reports s ctx p w d result err d' :
  plan_with (plan_module s) ctx (p_Name p) (p_Modules p) ≠ Panic →
  (∀ c, pc_Context ctx = Some c → fresh (NewCheckpointExecutorForPipeline (Some c) (p_Name p)) d) →
  pipeline_Run p (planned s ctx p) ctx None false w d result err d' →
  match result with
  | None => err ≠ None ∧ d' = d ∧
      (pc_Context ctx = None ∨ ∃ e, plan_with (plan_module s) ctx (p_Name p) (p_Modules p) = Err e)
  | Some r => err = None ∧
      is_Some (pc_Context ctx) ∧ (∃ g, plan_with (plan_module s) ctx (p_Name p) (p_Modules p) = Ok g) ∧
      (∀ id, is_Some (ger_NodeResults r !! id) ↔
         ∃ ef, ef ∈ fragments_of ctx (p_Modules p) ∧ is_Some (entries (ef_Nodes ef) !! id)) ∧
      (∀ id, is_Some (ger_NodeResults r !! id) → terminal (status (ger_NodeResults r) id)) ∧
      (ger_Status r = StatusFailed ↔ ∃ id, status (ger_NodeResults r) id = StatusFailed) ∧
      (ger_Status r = StatusFailed ∨ ger_Status r = StatusSuccess)
  end.
Proof.
  unfold planned. intros Hnp Hfresh Hrun.
  destruct (plan_with _ _ _ _) as [g|e|] eqn:Hplan; [|clear Hnp|done].
  - apply plan_graph in Hplan as (Hwf & m & (Hdom & _) & ->).
    inversion Hrun as [Hc|? _ Hcur|g' Hsome Hcur Hempty|c g' r err' d1 Hc Hcur _ Hex]; simplify_eq/=; [by auto|..].
    + apply bool_decide_eq_true, map_size_empty_inv in Hempty. simpl in Hempty. subst m.
      assert (∀ id, ¬ is_Some ((∅ : gmap NodeID NodeResult) !! id)) as Hno
        by (intros id; rewrite lookup_empty; by intros [? ?]).
      split; [done|]. split; [done|]. split; [by eauto|]. split_and!; [| | |by right].
      * intros id. rewrite <-Hdom. by rewrite !lookup_empty.
      * intros id Hid. by destruct (Hno id).
      * split; [done|]. intros [id Hid]. unfold status in Hid. by rewrite lookup_empty in Hid.
    + apply Execute_result in Hex as (-> & Hd & Hterm & Hst); [|done|by apply Hfresh].
      simpl in *. split; [done|]. split; [by eexists|]. split; [by eauto|]. split_and!; [| |apply Hst|apply Hst].
      * intros id. by rewrite <-Hdom, <-!elem_of_dom, Hd.
      * intros id Hid. apply Hterm. by rewrite <-elem_of_dom, <-Hd, elem_of_dom.
  - inversion Hrun; simplify_eq/=; eauto.
Qed.
End run.
