(* ===== verification/TaskPipelineSpec.v ===== *)
(** From the tasks to the graph of a pipeline: the pipelines whose modules all
    chain their tasks run the tasks of all their modules one after another, and a
    module that leaves its entry and exit nodes unset cuts the order of a
    pipeline in two.

    The contract of the tasks towards the modules, and what it gives the pipelines
    that only consist of such tasks: backup, restore, health, reconfiguration,
    registry and asset download plan in any context that is ready for them. *)
From S2P Require Import Prelude.
From S2P Require Import Values.
From S2P Require Import Plan.
From S2P Require Import Kahn.
From S2P Require Import GraphSpec.
From S2P Require Import FragmentSpec.
From S2P Require Import Assemble.
From S2P Require Import Sequence.
From S2P Require Import Result.
From S2P Require Import Cluster.
From S2P Require Import Context.
From S2P Require Import Task.
From S2P Require Import PreflightTasks.
From S2P Require Import OperationTasks.
From S2P Require Import NodeTasks.
From S2P Require Import Module.
From S2P Require Import Tasks.
From S2P Require Import ModuleSpec.
From S2P Require Import TaskSpec.
From S2P Require Import TaskContracts.
From S2P Require Import StepRunner.
From S2P Require Import Pipeline.
From S2P Require Import PipelineSpec.

(** ** Specifications *)

(** The tasks of a module that chains them; [PreflightConnectivityModule] is built
    on [PlanTasks], but has one task. *)
Definition module_tasks (md : module_kind) : option (list task_kind) :=
  match md with
  | PreflightConnectivityModule => Some [CheckConnectivityTask]
  | OsCleanupModule => Some [CleanOSNodesTask]
  | PreflightModule assumeYes => Some (PreflightModule_GetTasks assumeYes)
  | AssetsDownloadModule outputPath => Some (AssetsDownloadModule_GetTasks outputPath)
  | RegistryModule operation => Some (RegistryModule_tasks operation)
  | BackupModule backupType => Some (BackupModule_tasks backupType)
  | RestoreModule restoreType snapshotPath => Some (RestoreModule_tasks restoreType snapshotPath)
  | HealthModule component => Some (HealthModule_tasks component)
  | ReconfigureModule component => Some (ReconfigureModule_tasks component)
  | _ => None
  end.

Definition tasks_of (md : module_kind) : list task_kind := default [] (module_tasks md).

Definition pipeline_tasks (mods : list module_kind) : list task_kind := mods ≫= tasks_of.

(** ** Lists of fragments in groups *)

Lemma sequential_mono deps deps' frs :
  (∀ x y, tc (before deps) x y → tc (before deps') x y) → sequential deps frs → sequential deps' frs.
Proof.
  unfold sequential. rewrite !StronglySorted_lookup. intros Hmono Hs i j fi fj Hij Hi Hj x y Hx Hy.
  by apply Hmono, (Hs i j fi fj).
Qed.

Lemma fragments_disjoint_concat (L : list (ExecutionFragment * list ExecutionFragment)) :
  fragments_disjoint (concat L.*2) →
  (∀ ef frs, (ef, frs) ∈ L → ∀ id, is_Some (entries (ef_Nodes ef) !! id) →
     ∃ f, f ∈ frs ∧ is_Some (entries (ef_Nodes f) !! id)) →
  fragments_disjoint L.*1.
Proof.
  rewrite !fragments_disjoint_sorted. induction L as [|[ef frs] L IH]; simpl; [constructor|].
  intros (Hout & _ & Hrest)%StronglySorted_app Hin. constructor.
  - apply IH; [done|]. intros ef' frs' Hin'. apply Hin. by right.
  - apply Forall_forall. intros ef2 ([ef2' frs2] & -> & H2)%list_elem_of_fmap. simpl.
    apply map_disjoint_spec. intros id n1 n2 H1 Hn2.
    destruct (Hin ef frs) with (id := id) as (f1 & Hf1 & [x1 Hx1]); [left|by eexists|].
    destruct (Hin ef2' frs2) with (id := id) as (f2 & Hf2 & [x2 Hx2]); [by right|by eexists|].
    eapply map_disjoint_spec; [apply (Hout f1 f2 Hf1)|done..].
    apply list_elem_of_In, in_concat. exists frs2. rewrite <-!list_elem_of_In.
    split; [|done]. apply list_elem_of_fmap. by exists (ef2', frs2).
Qed.

Lemma fragments_disjoint_app frs1 frs2 :
  fragments_disjoint (frs1 ++ frs2) → fragments_disjoint frs1 ∧ fragments_disjoint frs2.
Proof. rewrite !fragments_disjoint_sorted. by intros (? & ? & ?)%StronglySorted_app. Qed.

(** ** A fragment without ends *)

(** When the fragment at [i] names no exits and the one after it no entries to
    link, no path crosses from one side to the other. *)
Lemma assembles_cut frs m i k j fk fj x y :
  assembles frs m → (∀ f, f ∈ frs → fragment_valid f) →
  (∀ f f', frs !! i = Some f → frs !! S i = Some f' → ef_ExitNodes f = [] ∨ ef_EntryNodes f' = []) →
  k ≤ i → i < j → frs !! k = Some fk → frs !! j = Some fj →
  is_Some (entries (ef_Nodes fk) !! x) → is_Some (entries (ef_Nodes fj) !! y) →
  ¬ rtc (before (node_deps m)) x y.
Proof.
  intros Has Hvalid Hcut Hk Hj Hfk Hfj [nx Hx] Hy Hpath. pose proof Has as (_ & Hdisj & Hnodes & Hnil).
  apply (closed_path _ (λ v, ∃ l f, i < l ∧ frs !! l = Some f ∧ is_Some (entries (ef_Nodes f) !! v))) in Hpath
    as (l & f & Hl & Hf & [n Hn]); [| |by exists j, fj].
  { eapply map_disjoint_spec; [apply (Hdisj k l fk f Hfk Hf); lia|done..]. }
  intros v d (l & f & Hl & Hf & [[n|] Hn]) Hd.
  2:{ unfold node_deps in Hd. rewrite (Hnil f v) in Hd; [|by eapply list_elem_of_lookup_2|done].
      by apply elem_of_nil in Hd. }
  destruct (Hnodes l f v n Hf Hn) as (deps & Hm & Hdeps). unfold node_deps in Hd. rewrite Hm in Hd. simpl in Hd.
  apply Hdeps in Hd as [Hd|(l' & f1 & f2 & H1 & H2 & Hle & Hex & Hen)].
  - exists l, f. split_and!; [done..|].
    destruct (Hvalid f) as (_ & Hcl & _); [by eapply list_elem_of_lookup_2|].
    apply (Hcl v). unfold node_deps. by rewrite Hn.
  - destruct (decide (l' = i)) as [->|Hne].
    { destruct (Hcut f1 f2 H1 H2) as [Hnil'|Hnil']; rewrite Hnil' in *; set_solver. }
    exists l', f1. split_and!; [lia|done|].
    destruct (Hvalid f1) as (_ & _ & _ & _ & Hexv); [by eapply list_elem_of_lookup_2|]. by apply Hexv.
Qed.

Section pipelines.
Context `{GoRange, Tasks}.
Implicit Types (ctx : PipelineContext) (mods : list module_kind) (ts : list task_kind).

(** ** Planning one module *)

(** The tasks of a module plan without error fragments fit to be chained. *)
Definition tasks_fit ctx ts : Prop :=
  (∀ t, t ∈ ts → task_ok ctx t) ∧ (∀ f, f ∈ task_fragments ctx ts → ends_complete f) ∧
  fragments_disjoint (task_fragments ctx ts).

(** A planned module: no error, and its fragment is the chain of its tasks'. *)
Definition module_chained ctx md ts : Prop :=
  (SafeModulePlan ctx md).2 = None ∧
  match fragment_of ctx md with
  | None => task_fragments ctx ts = []
  | Some ef => ends_complete ef ∧ assembles (task_fragments ctx ts) (entries (ef_Nodes ef)) ∧
      sequential (node_deps (entries (ef_Nodes ef))) (task_fragments ctx ts)
  end.

Lemma module_chained_intro ctx md ts ef :
  mod_Plan md ctx = Ok (Some ef) →
  assembles (task_fragments ctx ts) (entries (ef_Nodes ef)) →
  sequential (node_deps (entries (ef_Nodes ef))) (task_fragments ctx ts) →
  (task_fragments ctx ts ≠ [] → ends_complete ef) → module_chained ctx md ts.
Proof.
  intros Hplan Has Hseq Hends. unfold module_chained, fragment_of, SafeModulePlan. rewrite Hplan.
  split; [done|]. destruct (ExecutionFragment_IsEmpty (Some ef)) eqn:Hemp; [|split_and!; [|done..]; apply Hends].
  - destruct (task_fragments ctx ts) eqn:Hfr; [done|]. destruct Hends as (_ & Hne & _); [done|].
    simpl in Hemp. apply bool_decide_eq_true, map_size_empty_inv in Hemp. done.
  - intros Hnil. rewrite Hnil in Has. destruct Has as (Hdom & _).
    simpl in Hemp. apply bool_decide_eq_false in Hemp. apply Hemp, map_size_empty_iff, map_empty. intros id.
    apply eq_None_not_Some. intros (? & []%elem_of_nil & _)%Hdom.
Qed.

(** The chain modules, whichever of the two loops they have. *)
Lemma chain_module_chained ctx md name ts :
  pc_is_TaskContext ctx = true → tasks_fit ctx ts →
  mod_Plan md ctx = chain_Plan name ts ctx ∨ mod_Plan md ctx = chain_or_empty_Plan name ts ctx →
  module_chained ctx md ts.
Proof.
  intros Hctx (Hok & Hends & Hdisj) Hplan.
  destruct (chain_modules name ts ctx) as (ef & H1 & H2 & Has & Hseq & _ & Hec); [done..|].
  rewrite H1, H2 in Hplan. destruct Hplan as [Hplan|Hplan]; [by eapply module_chained_intro|].
  case_decide as Hnil; [|by eapply module_chained_intro].
  eapply module_chained_intro; [done|..|done]; rewrite Hnil; [apply assembles_nil|constructor].
Qed.

Lemma one_task_chained ctx md name t :
  pc_is_TaskContext ctx = true → tasks_fit ctx [t] →
  mod_Plan md ctx = plan_tasks_Plan name [t] ctx → module_chained ctx md [t].
Proof.
  intros Hctx (Hok & Hends & Hdisj) Hplan.
  destruct (PlanTasks_total name [t] ctx) as [ef Hef]; [done..| |done|].
  { intros f Hf. by destruct (Hends f Hf). }
  unfold plan_tasks_Plan in Hplan. rewrite Hef in Hplan. simpl in Hplan.
  apply PlanTasks_collects in Hef as (? & [= <-] & Hcol & Hcomp & Hnn).
  assert (assembles (task_fragments ctx [t]) (entries (ef_Nodes ef))) as Has.
  { unfold task_fragments in *. simpl in *. destruct (task_fragment ctx t); [by apply collects_one|].
    destruct Hcol as (Hdom & _). replace (entries (ef_Nodes ef)) with (∅ : node_map); [apply assembles_nil|].
    symmetry. apply map_empty. intros id. apply eq_None_not_Some. by intros (? & []%elem_of_nil & _)%Hdom. }
  eapply module_chained_intro; [done..|by apply assembles_sequential|]. intros Hne.
  unfold task_fragments in *. simpl in *. destruct (task_fragment ctx t) as [f|]; [|done].
  destruct (Hends f) as ((Hn & Hc & Ha & _) & Hf & _); [left|].
  assert (entries (ef_Nodes ef) = entries (ef_Nodes f)) as Heq.
  { destruct Hcol as (Hdom & _ & Hsame). apply map_eq. intros id.
    destruct (entries (ef_Nodes f) !! id) as [n|] eqn:Hid; [apply (Hsame f); [left|done]|].
    apply eq_None_not_Some. intros (f' & ->%list_elem_of_singleton & Hs)%Hdom. rewrite Hid in Hs. by destruct Hs. }
  apply computed_ends_complete; [|done|by rewrite Heq].
  eapply (computed_fragment_valid ef []); [|done]. rewrite Heq. split_and!; [done..|]. by intros ? ?%elem_of_nil.
Qed.
Lemma module_tasks_chained ctx md ts :
  pc_is_TaskContext ctx = true → module_tasks md = Some ts → tasks_fit ctx ts → module_chained ctx md ts.
Proof.
  intros Hctx Hmd Hfit. destruct md; simpl in Hmd; simplify_eq.
  (* one task on [PlanTasks], or one of the two chain loops *)
  all: first [eapply one_task_chained; [done|done|reflexivity]
             |eapply chain_module_chained; [done|done|by left]
             |eapply chain_module_chained; [done|done|by right]].
Qed.

(** ** Planning a pipeline *)

(** The fragments the modules contribute, each with those of its tasks. *)
Definition grouped ctx mods : list (ExecutionFragment * list ExecutionFragment) :=
  omap (λ md, (λ ef, (ef, task_fragments ctx (tasks_of md))) <$> fragment_of ctx md) mods.

Lemma grouped_fst ctx mods : (grouped ctx mods).*1 = fragments_of ctx mods.
Proof.
  unfold grouped, fragments_of. induction mods as [|md mods IH]; [done|]. simpl.
  destruct (fragment_of ctx md); simpl; [f_equal|]; done.
Qed.

Lemma grouped_snd ctx mods :
  (∀ md, md ∈ mods → module_chained ctx md (tasks_of md)) →
  concat (grouped ctx mods).*2 = task_fragments ctx (pipeline_tasks mods).
Proof.
  induction mods as [|md mods IH]; intros Hmods; [done|].
  unfold task_fragments, pipeline_tasks in *. rewrite bind_cons, omap_app, <-IH by set_solver.
  destruct (Hmods md) as [_ Hmd]; [left|]. unfold grouped. simpl.
  destruct (fragment_of ctx md) as [ef|]; [done|]. unfold task_fragments in Hmd. by rewrite Hmd.
Qed.

Lemma grouped_elem ctx mods ef frs :
  (∀ md, md ∈ mods → module_chained ctx md (tasks_of md)) → (ef, frs) ∈ grouped ctx mods →
  ends_complete ef ∧ assembles frs (entries (ef_Nodes ef)) ∧ sequential (node_deps (entries (ef_Nodes ef))) frs.
Proof.
  intros Hmods (md & Hmd & Heq)%list_elem_of_omap. destruct (Hmods md Hmd) as [_ Hch].
  destruct (fragment_of ctx md); simplify_eq/=. done.
Qed.

Lemma tasks_fit_sub ctx mods md : tasks_fit ctx (pipeline_tasks mods) → md ∈ mods → tasks_fit ctx (tasks_of md).
Proof.
  intros (Hok & Hends & Hdisj) (k & k' & ->)%list_elem_of_split.
  unfold pipeline_tasks, task_fragments, tasks_fit in *. rewrite bind_app in *. simpl in *.
  rewrite !omap_app in Hends, Hdisj.
  apply fragments_disjoint_app in Hdisj as [_ [Hdisj _]%fragments_disjoint_app].
  split_and!; [intros t Ht; apply Hok; set_solver|intros f Hf; apply Hends; set_solver|done].
Qed.

Lemma fragments_of_elem ctx mods ef :
  ef ∈ fragments_of ctx mods → ∃ md, md ∈ mods ∧ fragment_of ctx md = Some ef.
Proof. intros (md & ? & ?)%list_elem_of_omap. by exists md. Qed.

(** The node set and the order of a graph put together from groups. *)
Lemma grouped_graph ctx mods m :
  (∀ md, md ∈ mods → module_chained ctx md (tasks_of md)) → assembles (fragments_of ctx mods) m →
  (∀ id, is_Some (m !! id) ↔
     ∃ f, f ∈ task_fragments ctx (pipeline_tasks mods) ∧ is_Some (entries (ef_Nodes f) !! id)) ∧
  sequential (node_deps m) (task_fragments ctx (pipeline_tasks mods)).
Proof.
  intros Hmods Has. rewrite <-(grouped_snd ctx mods), <-(grouped_fst ctx mods) in * by done. split.
  - intros id. destruct Has as (Hdom & _). rewrite Hdom. split.
    + intros (ef & ([ef' frs] & -> & Hin)%list_elem_of_fmap & Hid).
      destruct (grouped_elem ctx mods ef' frs) as (_ & (Hd & _) & _); [done..|].
      apply Hd in Hid as (f & Hf & Hid). exists f. split; [|done].
      apply list_elem_of_In, in_concat. exists frs. rewrite <-!list_elem_of_In. split; [|done].
      apply list_elem_of_fmap. by exists (ef', frs).
    + intros (f & (frs & Hfrs%list_elem_of_In & Hf%list_elem_of_In)%list_elem_of_In%in_concat & Hid).
      apply list_elem_of_fmap in Hfrs as ([ef frs'] & -> & Hin).
      destruct (grouped_elem ctx mods ef frs') as (_ & (Hd & _) & _); [done..|].
      exists ef. split; [apply list_elem_of_fmap; by exists (ef, frs')|]. apply Hd. by exists f.
  - apply sequential_concat.
    + apply assembles_sequential; [done|]. intros ef ([ef' frs] & -> & Hin)%list_elem_of_fmap.
      by apply (grouped_elem ctx mods ef' frs).
    + intros ef frs Hin. destruct (grouped_elem ctx mods ef frs) as (_ & Hch & Hseq); [done..|]. split.
      * eapply sequential_mono; [|done]. intros x y. eapply assembles_tc_path; [done|].
        apply list_elem_of_fmap. by exists (ef, frs).
      * intros f id Hf Hid. destruct Hch as (Hd & _). apply Hd. by exists f.
Qed.

Lemma task_pipelines_run s ctx name mods :
  pc_is_ModuleContext ctx = true → pc_is_TaskContext ctx = true →
  (∀ md, md ∈ mods → is_Some (module_tasks md)) → tasks_fit ctx (pipeline_tasks mods) →
  ∃ g, plan_with (plan_module s) ctx name mods = Ok g ∧ well_formed g ∧
    (∀ id, is_Some (entries (g_Nodes g) !! id) ↔
       ∃ f, f ∈ task_fragments ctx (pipeline_tasks mods) ∧ is_Some (entries (ef_Nodes f) !! id)) ∧
    sequential (node_deps (entries (g_Nodes g))) (task_fragments ctx (pipeline_tasks mods)).
Proof.
  intros Hmctx Htctx Hmods Hfit.
  assert (∀ md, md ∈ mods → module_chained ctx md (tasks_of md)) as Hch.
  { intros md Hmd. destruct (Hmods md Hmd) as [ts Hts]. unfold tasks_of. rewrite Hts.
    apply module_tasks_chained; [done..|]. eapply (tasks_fit_sub ctx mods md) in Hfit; [|done].
    unfold tasks_of in Hfit. by rewrite Hts in Hfit. }
  destruct (plan_total s ctx name mods) as [g Hg]; [done|..].
  - intros md Hmd. by apply Hch.
  - intros ef (md & Hmd & Hef)%fragments_of_elem. destruct (Hch md Hmd) as [_ H1]. rewrite Hef in H1.
    by destruct H1 as ((? & _) & _).
  - rewrite <-grouped_fst. apply fragments_disjoint_concat.
    + rewrite grouped_snd by done. apply Hfit.
    + intros ef frs Hin id Hid. destruct (grouped_elem ctx mods ef frs) as (_ & (Hd & _) & _); [done..|]. by apply Hd.
  - exists g. split; [done|]. apply plan_graph in Hg as (Hwf & m & Has & ->). split; [done|].
    by apply grouped_graph.
Qed.

(** C30: the pipelines whose modules all chain their tasks (backup, restore,
    health, reconfigure, registry and asset download) plan, in either style, when
    the context is right and the tasks plan without error fragments with disjoint
    IDs that name all their first and last nodes: the graph is valid, consists of
    the nodes of the required tasks, and every node of a task waits, directly or
    not, for every node of the tasks before it, whichever modules they belong to. *)
Theorem task_pipelines_sequential s ctx name mods :
  pc_is_ModuleContext ctx = true → pc_is_TaskContext ctx = true →
  (∀ md, md ∈ mods → is_Some (module_tasks md)) → tasks_fit ctx (pipeline_tasks mods) →
  ∃ g, plan_with (plan_module s) ctx name mods = Ok g ∧ well_formed g ∧
    (∀ id, is_Some (entries (g_Nodes g) !! id) ↔
       ∃ f, f ∈ task_fragments ctx (pipeline_tasks mods) ∧ is_Some (entries (ef_Nodes f) !! id)) ∧
    sequential (node_deps (entries (g_Nodes g))) (task_fragments ctx (pipeline_tasks mods)).
Proof. apply task_pipelines_run. Qed.

(** When the cluster is highly available the load balancer module names
    neither entry nor exit nodes for the fragment it plans, so nothing a pipeline
    plans after it waits for anything planned before it or by it, nor does the
    load balancer wait for what comes before: the control plane of a new cluster
    does not wait for etcd and the container runtime. *)
Theorem load_balancer_cuts_order s ctx name mods1 mods2 g lb k j fk fj x y :
  let frs := fragments_of ctx (mods1 ++ LoadBalancerModule :: mods2) in
  let i := length (fragments_of ctx mods1) in
  plan_with (plan_module s) ctx name (mods1 ++ LoadBalancerModule :: mods2) = Ok g →
  (∀ f, f ∈ frs → fragment_valid f) → fragment_of ctx LoadBalancerModule = Some lb →
  k ≤ i → i ≤ j → k < j → frs !! k = Some fk → frs !! j = Some fj →
  is_Some (entries (ef_Nodes fk) !! x) → is_Some (entries (ef_Nodes fj) !! y) →
  ¬ rtc (before (node_deps (entries (g_Nodes g)))) x y.
Proof.
  intros frs i Hplan Hvalid Hlb Hki Hij Hkj Hfk Hfj Hx Hy.
  apply plan_graph in Hplan as (_ & m & Has & ->). simpl.
  assert (frs = fragments_of ctx mods1 ++ lb :: fragments_of ctx mods2) as Hfrs.
  { unfold frs, fragments_of. rewrite omap_app. simpl. by rewrite Hlb. }
  assert (frs !! i = Some lb) as Hi by (rewrite Hfrs; by apply list_lookup_middle).
  assert (ef_EntryNodes lb = [] ∧ ef_ExitNodes lb = []) as [Hen Hex].
  { unfold fragment_of, SafeModulePlan in Hlb. simpl in Hlb.
    destruct (LoadBalancerModule_Plan ctx) as [o|?|] eqn:Hp; [|done..].
    apply LoadBalancerModule_no_ends in Hp as (ef & -> & ? & ?). by case_match; simplify_eq. }
  (* the cut is before the load balancer when [j] is its index, and else after it *)
  destruct (decide (j = i)) as [->|Hne].
  - apply (assembles_cut frs m (i - 1) k i fk fj); try done; [|lia..].
    intros f f' _. replace (S (i - 1)) with i by lia. rewrite Hi. intros [= <-]. by right.
  - apply (assembles_cut frs m i k j fk fj); try done; [|lia].
    intros f f' Hf _. rewrite Hi in Hf. simplify_eq. by left.
Qed.
End pipelines.

Section operations.
Context `{GoRange, Steps} (other : Tasks).
#[local] Hint Extern 0 Tasks => exact (Kubexm_Tasks other) : typeclass_instances.
Implicit Types (c : Context) (t : task_kind) (ts : list task_kind).

(** ** The contract *)

Lemma labels_methods t : is_Some (task_labels t) → ∃ tm, methods_of t = Some tm.
Proof. intros [L HL]. destruct t; try discriminate HL; by eexists. Qed.

(** C8: the contract of the modelled tasks that name their nodes by labels, whatever
    the other tasks do, for a [runtime.Context] that is ready (the builders build,
    the hosts, the control node and the configuration are there).  [Plan] fails or
    panics only for want of what the task needs ([can_plan]: a snapshot path, a host
    of some role, a supported network plugin, steps that are not nil); else it
    returns a fragment without nodes, or one whose dependencies stay inside and have
    no cycle and that names all its first and last nodes, every node bearing a label
    of the task.  [IsRequired] answers when the sections of the configuration it
    follows are there ([can_answer]). *)
Theorem tasks_keep_contract c t L :
  task_labels t = Some L →
  match task_Plan t (RuntimeContext c) with
  | Ok o => ∃ ef, o = Some ef ∧ (∀ id, is_Some (entries (ef_Nodes ef) !! id) → label id ∈ L) ∧
      (entries (ef_Nodes ef) = ∅ ∨ ends_complete ef)
  | _ => ¬ (ready c ∧ can_plan c t)
  end ∧
  (ready c ∧ can_answer c t → ∃ b, task_IsRequired t (RuntimeContext c) = Ok b).
Proof.
  intros HL. destruct (labels_methods t) as [tm Htm]; [by eexists|]. simpl. rewrite Htm. simpl.
  split; [by apply plan_kept|]. intros [Hr Hcan]. apply (methods_answer c t); [done|by eexists|done..].
Qed.

(** ** Tasks with labels of their own *)

Lemma task_fragment_kept c t f :
  is_Some (task_labels t) → task_fragment (RuntimeContext c) t = Some f →
  ends_complete f ∧ ∀ id, is_Some (entries (ef_Nodes f) !! id) → label id ∈ labels_of t.
Proof.
  intros [L HL]. destruct (labels_methods t) as [tm Htm]; [by eexists|].
  unfold task_fragment, planned_of, nonempty_fragment. simpl. rewrite Htm. simpl.
  destruct (tm_IsRequired tm c) as [[]|e|]; [|done..]. pose proof (plan_kept c t tm L Htm HL) as Hk.
  destruct (tm_Plan tm c) as [o|e|]; [|done..]. destruct Hk as (ef & -> & Hl & Hends). simpl.
  case_bool_decide as Hz; [done|]. intros [= <-]. split; [|unfold labels_of; by rewrite HL].
  destruct Hends as [Hnil|?]; [|done]. destruct Hz. unfold mlen. by rewrite Hnil.
Qed.

Lemma task_ready_ok c t : is_Some (task_labels t) → task_ready c t → task_ok (RuntimeContext c) t.
Proof.
  intros [L HL] Hr. destruct (labels_methods t) as [tm Htm]; [by eexists|]. unfold task_ok. simpl. rewrite Htm. simpl.
  destruct Hr as (Hready & Hplan & Hanswer).
  destruct (methods_answer c t tm Htm ltac:(by eexists) Hready Hanswer) as [b Hb]. exists b. split; [done|]. intros _.
  pose proof (plan_kept c t tm L Htm HL) as Hk. destruct (tm_Plan tm c); [by eexists|by destruct Hk..].
Qed.

Lemma labelled_fragments_disjoint c ts :
  Forall (λ t, is_Some (task_labels t)) ts → NoDup (ts ≫= labels_of) →
  fragments_disjoint (task_fragments (RuntimeContext c) ts).
Proof.
  intros Hl Hnd. apply fragments_disjoint_sorted. induction Hl as [|t ts Ht Hts IH]; [constructor|].
  rewrite bind_cons in Hnd. apply NoDup_app in Hnd as (_ & Hdis & Hnd).
  unfold task_fragments. simpl. destruct (task_fragment (RuntimeContext c) t) as [f|] eqn:Hf; [|by apply IH].
  constructor; [by apply IH|]. apply Forall_forall. intros f' (t' & Ht' & Hf')%list_elem_of_omap.
  apply map_disjoint_spec. intros id n n' Hn Hn'.
  apply task_fragment_kept in Hf as [_ Hlab]; [|done].
  apply task_fragment_kept in Hf' as [_ Hlab']; [|by apply (proj1 (Forall_forall _ _) Hts)].
  apply (Hdis (label id)); [apply Hlab; by eexists|]. apply list_elem_of_bind. exists t'.
  split; [apply Hlab'; by eexists|done].
Qed.

(** Tasks that can be chained, whatever the modules they belong to. *)
Definition chainable ts : Prop := Forall (λ t, is_Some (task_labels t)) ts ∧ NoDup (ts ≫= labels_of).

Lemma chainable_fit c ts :
  chainable ts → (∀ t, t ∈ ts → task_ready c t) → tasks_fit (RuntimeContext c) ts.
Proof.
  intros [Hl Hnd] Hr. split_and!.
  - intros t Ht. apply task_ready_ok; [|by apply Hr]. by apply (proj1 (Forall_forall _ _) Hl).
  - intros f (t & Ht & Hf)%list_elem_of_omap. eapply task_fragment_kept; [|done].
    by apply (proj1 (Forall_forall _ _) Hl).
  - by apply labelled_fragments_disjoint.
Qed.

(** ** The pipelines *)

Inductive operation_pipeline : Pipeline → Prop :=
| is_backup backupType : operation_pipeline (NewBackupPipeline backupType)
| is_restore restoreType snapshotPath assumeYes :
    snapshotPath ≠ "" → operation_pipeline (NewRestorePipeline restoreType snapshotPath assumeYes)
| is_health component : operation_pipeline (NewHealthPipeline component)
| is_reconfigure component assumeYes : operation_pipeline (NewReconfigurePipeline component assumeYes)
| is_create_registry assumeYes : operation_pipeline (NewCreateRegistryPipeline assumeYes)
| is_delete_registry assumeYes : operation_pipeline (NewDeleteRegistryPipeline assumeYes)
| is_download outputPath : operation_pipeline (NewDownloadAssetsPipeline outputPath).

Definition chainableb ts : bool :=
  forallb (λ t, bool_decide (is_Some (task_labels t))) ts && bool_decide (NoDup (ts ≫= labels_of)).

Lemma chainableb_spec ts : chainableb ts = true → chainable ts.
Proof.
  unfold chainableb. rewrite andb_true_iff, bool_decide_eq_true. intros [Hl Hnd]. split; [|done].
  apply Forall_forall. intros t Ht%list_elem_of_In. eapply forallb_forall in Hl; [|done].
  by apply bool_decide_eq_true in Hl.
Qed.

Lemma or_all_elem valid x : "all" ∈ valid → or_all valid x ∈ valid.
Proof. intros. unfold or_all. by case_decide. Qed.

(** What is checked of the modules of a pipeline; the last part is about [c] once
    it is ready. *)
Definition operable (mods : list module_kind) : Prop :=
  forallb (λ md, bool_decide (is_Some (module_tasks md))) mods = true ∧
  chainableb (pipeline_tasks mods) = true ∧
  Forall (λ t, ∀ c, ready c → task_ready c t) (pipeline_tasks mods).

(** At a concrete list of modules, each part by computation. *)
Ltac operable_concrete :=
  split_and!; [vm_compute; reflexivity|vm_compute; reflexivity|];
  unfold pipeline_tasks, tasks_of; simpl;
  repeat (apply Forall_cons; split;
    [intros ? ?; split; [assumption|split; [first [exact I|assumption]|by intros [? ?]]]|]);
  constructor.

(** A component that is one of a few names. *)
Ltac each_name H := rewrite !elem_of_cons, elem_of_nil in H; destruct_or? H; subst.

Lemma operation_pipeline_operable p : operation_pipeline p → operable (p_Modules p).
Proof.
  intros Hp. destruct Hp as [x|x path y Hpath|x|x y|y|y|x]; unfold p_Modules; simpl; [..|operable_concrete].
  5, 6: operable_concrete.
  4: set (n := if decide (x = "network") then _ else _);
     assert (n ∈ ["all"; "apiserver"; "scheduler"; "controller-manager"; "kubelet"; "proxy"]) as Hn
       by (subst n; case_decide; [left|by apply or_all_elem; left]); clearbody n.
  1-3: match goal with |- context [or_all ?l ?x] =>
         assert (or_all l x ∈ l) as Hn by (apply or_all_elem; left); revert Hn; generalize (or_all l x) as n; intros n Hn end.
  all: each_name Hn; operable_concrete.
Qed.

(** C7: the backup, restore, health, reconfiguration, registry and asset download
    pipelines, a restore given the path of a snapshot and the others any arguments,
    plan in either style for a [runtime.Context] that is ready: the graph is valid
    and runs the required tasks one after another, in the order of the modules
    and of the tasks in them. *)
Theorem operation_pipelines_plan s p c name :
  operation_pipeline p → ready c →
  ∃ g, plan_with (plan_module s) (RuntimeContext c) name (p_Modules p) = Ok g ∧ well_formed g ∧
    (∀ id, is_Some (entries (g_Nodes g) !! id) ↔
       ∃ f, f ∈ task_fragments (RuntimeContext c) (pipeline_tasks (p_Modules p)) ∧
            is_Some (entries (ef_Nodes f) !! id)) ∧
    sequential (node_deps (entries (g_Nodes g))) (task_fragments (RuntimeContext c) (pipeline_tasks (p_Modules p))).
Proof.
  intros (Hmods & Hch & Hready)%operation_pipeline_operable Hr. apply task_pipelines_run; [done|done| |].
  - intros md Hmd%list_elem_of_In. eapply forallb_forall in Hmods; [|done]. by apply bool_decide_eq_true in Hmods.
  - apply chainable_fit; [by apply chainableb_spec|]. intros t Ht.
    by apply (proj1 (Forall_forall _ _) Hready t Ht).
Qed.
End operations.
