(* ===== verification/ClusterPlans.v ===== *)
(** What becomes of the pipelines on whole clusters with the tasks of
    [Tasks.v]: tasks that two modules of one pipeline plan, or two tasks of one
    module, make the IDs collide, and the masters that are joined are not the
    rest of those that the first one was chosen from. *)
From S2P Require Import Prelude.
From S2P Require Import Values.
From S2P Require Import Plan.
From S2P Require Import Kahn.
From S2P Require Import GraphSpec.
From S2P Require Import FragmentSpec.
From S2P Require Import Assemble.
From S2P Require Import Sequence.
From S2P Require Import Result.
From S2P Require Import Cluster.
From S2P Require Import Context.
From S2P Require Import Task.
From S2P Require Import NodeTasks.
From S2P Require Import Module.
From S2P Require Import Tasks.
From S2P Require Import ModuleSpec.
From S2P Require Import TaskSpec.
From S2P Require Import TaskNodes.
From S2P Require Import StepRunner.
From S2P Require Import Pipeline.
From S2P Require Import PipelineSpec.

(** ** Nodes that stay in the fragment of a module *)

(** The fragment is the first part of the locals of a loop. *)
Definition chain_has (id : NodeID) {P} (st : ExecutionFragment * P) : Prop := has id st.1.

(** The fragment has the node [id] after [m], if it had it before. *)
Definition retains (id : NodeID) {P A} (m : M (ExecutionFragment * P) module_error A) : Prop :=
  ∀ st a st', m st = (Ok a, st') → chain_has id st → chain_has id st'.

Section retains.
Context `{GoRange} (id : NodeID).
Context {P : Type}.

Lemma retains_bind {A B} (m : M (ExecutionFragment * P) module_error A) (f : A → M (ExecutionFragment * P) module_error B) :
  retains id m → (∀ a, retains id (f a)) → retains id (m ≫= f).
Proof. intros Hm Hf st b st' (a & t & H1 & H2)%bind_ok Hst. eapply Hf; [done|]. by eapply Hm. Qed.

Lemma retains_ret {A} (a : A) : retains id (P := P) (mret a).
Proof. by intros st b st' [= -> ->]. Qed.

Lemma retains_lift {A} (o : outcome module_error A) : retains id (P := P) (lift o).
Proof. by intros st b st' [= _ ->]. Qed.

Lemma merge_has (err : plan_error → module_error) ef frag (prev : P) frag' prev' a :
  on_fst err (ExecutionFragment_MergeFragment (Some ef)) (frag, prev) = (Ok a, (frag', prev')) →
  is_Some (ef_Nodes frag) →
  has id frag ∨ is_Some (entries (ef_Nodes ef) !! id) → has id frag'.
Proof.
  intros (g & Hm & [= -> ->])%on_fst_ok [m Hf] Hor. destruct a.
  pose proof (merge_grown ef frag g m) as Hg. destruct Hg as [Hd ->]; [done..|].
  split; [by eexists|]. simpl. apply lookup_union_is_Some. destruct Hor as [[_ Hh]|Hh]; [left|by right].
  by rewrite Hf in Hh.
Qed.

Lemma retains_get : retains id (P := P) get.
Proof. by intros st a st' [= _ <-]. Qed.

Lemma retains_foreach {A} (l : list A) body :
  (∀ x, x ∈ l → retains id (P := P) (body x)) → retains id (foreach l body).
Proof.
  induction l as [|x l IH]; intros Hb; simpl; [apply retains_ret|].
  apply retains_bind; [apply Hb; left|]. intros _. apply IH. intros y Hy. apply Hb. by right.
Qed.

End retains.

Section chains.
Context `{GoRange} (id : NodeID).

Lemma retains_merge_fragment err o : retains id (merge_fragment err o).
Proof.
  intros [frag prev] ef [frag' prev'] (? & [f1 p1] & Hm & Hd)%bind_ok Hst.
  unfold deref in Hd. destruct o as [ef0|]; simplify_eq. eapply merge_has; [done|apply Hst|by left].
Qed.

Lemma merge_fragment_made err o st ef st' :
  merge_fragment err o st = (Ok ef, st') → is_Some (ef_Nodes st.1) → is_Some (ef_Nodes st'.1).
Proof.
  destruct st as [frag prev]. intros ([] & [f1 p1] & Hm & Hd)%bind_ok [m Hf].
  unfold deref in Hd. destruct o as [ef0|]; simplify_eq. apply on_fst_ok in Hm as (g & Hm & [= -> ->]).
  pose proof (merge_grown ef frag g m) as Hg. destruct Hg as [_ ->]; [done..|]. by eexists.
Qed.

Lemma retains_link_prev ids : retains id (link_prev ids).
Proof.
  intros [frag prev] a [frag' prev'] ([f1 p1] & t & [= <- <- <-] & Hl)%bind_ok Hst.
  apply on_fst_ok in Hl as (g & Hl & [= -> ->]). destruct a, Hst as [[m Hm] Hh].
  pose proof (LinkFragments_grown prev ids frag g m) as Hg. destruct Hg as (m' & -> & Hdom & _); [done..|].
  split; [by eexists|]. simpl in *. rewrite Hm in Hh. by apply Hdom.
Qed.

Lemma retains_set_prev ids : retains id (set_prev ids).
Proof. by intros [frag prev] a st' [= _ <-]. Qed.

Lemma retains_append_entries ids : retains id (append_entries ids).
Proof. by intros [frag prev] a st' [= _ <-]. Qed.

Lemma retains_link_if_prev ids : retains id (link_if_prev ids).
Proof.
  apply retains_bind; [apply retains_get|]. intros [f p]. case_decide; [apply retains_link_prev|apply retains_ret].
Qed.

(** *** Loops that link in place *)

Lemma link_in_place_has t append prev ef frag frag' a :
  link_in_place t append prev ef frag = (Ok a, frag') → has id frag → has id frag'.
Proof.
  destruct a. intros Hrun Hh.
  eapply (foreach_ind (λ _ frag, has id frag)) in Hrun; [done|done|].
  clear. intros k v frag frag' _ Hh Hstep. unfold link_entry in Hstep. pose proof Hh as [[m Hm] _].
  rewrite Hm in Hstep. simpl in Hstep. destruct (m !! v) as [[n|]|] eqn:Hv; simplify_eq.
  by apply (stable_deps frag m v n).
Qed.

(** The fragment of a task of such a loop. *)
Lemma inline_fragment_has t append o frag prev first frag' p' a :
  inline_fragment (merge_in_place t) (link_in_place t append) o (frag, (prev, first)) = (Ok a, (frag', p')) →
  is_Some (ef_Nodes frag) →
  has id frag ∨ (∃ ef, o = Some ef ∧ is_Some (entries (ef_Nodes ef) !! id)) → has id frag'.
Proof.
  unfold inline_fragment. intros Hrun Hmade Hor. destruct o as [ef|].
  2:{ injection Hrun as _ <- _. by destruct Hor as [?|(? & ? & _)]. }
  destruct (ExecutionFragment_IsEmpty (Some ef)) eqn:Hemp.
  { injection Hrun as _ <- _. destruct Hor as [?|(? & [= <-] & Hid)]; [done|].
    simpl in Hemp. apply bool_decide_eq_true in Hemp. unfold mlen in Hemp. apply map_size_empty_inv in Hemp.
    rewrite Hemp, lookup_empty in Hid. by destruct Hid. }
  match type of Hrun with context [match ?t frag with (_, _) => _ end] => destruct (t frag) as [[[]|e|] g] eqn:Hm end; [|done..].
  injection Hrun as _ <- _. apply bind_ok in Hm as ([] & g1 & Hmerge & Hl).
  assert (has id g1) as Hg1.
  { unfold merge_in_place, wrap in Hmerge.
    destruct (ExecutionFragment_MergeFragment (Some ef) frag) as [[[]|?|] g2] eqn:Hm2; simplify_eq.
    destruct Hmade as [m Hm]. pose proof (merge_grown ef frag g1 m) as Hg. destruct Hg as [_ ->]; [done..|].
    split; [by eexists|]. simpl. apply lookup_union_is_Some.
    destruct Hor as [[_ Hh]|(? & [= <-] & Hh)]; [left; by rewrite Hm in Hh|by right]. }
  destruct (negb first && bool_decide (0 < length prev)); [by eapply link_in_place_has|].
  destruct first; injection Hl as <-; [exact Hg1|done].
Qed.

(** A fragment with a node that is already there cannot be merged. *)
Lemma merge_planned_conflict err ef frag prev a st' :
  merge_planned err (Ok (Some ef)) (frag, prev) = (Ok a, st') →
  has id frag → is_Some (entries (ef_Nodes ef) !! id) → False.
Proof.
  intros (o & t & [= <- <-] & Hm)%bind_ok [[m Hf] [n1 Hid]] [n2 Hef]. apply bind_ok in Hm as ([] & [f1 p1] & Hm & _).
  apply on_fst_ok in Hm as (g & Hm & _). pose proof (merge_grown ef frag g m) as Hg. destruct Hg as [Hd _]; [done..|].
  rewrite Hf in Hid. by eapply map_disjoint_spec in Hd.
Qed.
End chains.

(** Go through the statements of a module. *)
Ltac retain :=
  repeat match goal with
  | |- retains _ (let '(_, _) := ?p in _) => destruct p
  | |- retains _ (_ ≫= _) => apply retains_bind; [|intros ?]
  | |- retains _ (if _ then _ else _) => case_match
  | |- retains _ (mret _) => apply retains_ret
  | |- retains _ (lift _) => apply retains_lift
  | |- retains _ get => apply retains_get
  | |- retains _ (merge_fragment _ _) => apply retains_merge_fragment
  | |- retains _ (link_prev _) => apply retains_link_prev
  | |- retains _ (link_if_prev _) => apply retains_link_if_prev
  | |- retains _ (set_prev _) => apply retains_set_prev
  | |- retains _ (append_entries _) => apply retains_append_entries
  | |- retains _ (plan_merge _ _) => unfold plan_merge, merge_planned
  | |- retains _ (when_required _ _ _) => unfold when_required
  | |- retains _ (kubeadm_step _ _) => unfold kubeadm_step
  | |- retains _ (entry_step _ _) => unfold entry_step
  end.

Section modules.
Context `{GoRange, Steps} (other : Tasks).
#[local] Hint Extern 0 Tasks => exact (Kubexm_Tasks other) : typeclass_instances.
Implicit Types (c : Context) (t : task_kind) (md : module_kind).

(** ** Kubernetes with kubeadm *)

Lemma merge_planned_has err planned id st a st' :
  merge_planned err planned st = (Ok a, st') → is_Some (ef_Nodes st.1) →
  (∀ o, planned = Ok o → ∃ ef, o = Some ef ∧ is_Some (entries (ef_Nodes ef) !! id)) →
  planned = Ok (Some a) ∧ chain_has id st' ∧ is_Some (entries (ef_Nodes a) !! id).
Proof.
  intros (o & t & Hl & Hm)%bind_ok Hst Hid. unfold lift in Hl. simplify_eq.
  destruct (Hid o eq_refl) as (ef & -> & Hef). apply bind_ok in Hm as (? & [f p] & Hm & Hd).
  unfold deref in Hd. simplify_eq. destruct t as [f0 p0]. split_and!; [done| |done].
  unfold chain_has. simpl. eapply merge_has; [done|done|by right].
Qed.

Lemma start_made name : is_Some (ef_Nodes (start name).1).
Proof. by eexists. Qed.

Lemma plan_task_runtime c t tm o :
  methods_of t = Some tm → plan_task (RuntimeContext c) t = Ok o → tm_Plan tm c = Ok o.
Proof. intros Htm Hp%plan_task_ok. simpl in Hp. by rewrite Htm in Hp. Qed.

Lemma kubelet_planned c o :
  plan_task (RuntimeContext c) InstallKubeComponentsTask = Ok o →
  ∃ ef, o = Some ef ∧ is_Some (entries (ef_Nodes ef) !! "InstallKubelet").
Proof.
  intros Hp. eapply plan_task_runtime in Hp; [|done]. simpl in Hp.
  apply InstallKubeComponents_nodes in Hp as (ef & -> & hosts & _ & Hex). exists ef. split; [done|].
  eapply exact_has; [done|]. simpl. set_solver.
Qed.

(** A fragment that has nodes is returned. *)
Lemma finish_sequence_has name id st o :
  finish_sequence name tt st = Ok o → chain_has id st →
  ∃ ef, o = Some ef ∧ is_Some (entries (ef_Nodes ef) !! id).
Proof.
  destruct st as [frag prev]. unfold finish_sequence, nonempty_or, unique_ends, chain_has. simpl. intros Hk [Hm Hid].
  case_decide as Hz; simplify_eq.
  - unfold mlen in Hz. apply map_size_empty_inv in Hz. rewrite Hz, lookup_empty in Hid. by destruct Hid.
  - eexists. by split.
Qed.

Lemma KubeadmControlPlane_kubelet c o :
  KubeadmControlPlaneModule_Plan (RuntimeContext c) = Ok o →
  ∃ ef, o = Some ef ∧ is_Some (entries (ef_Nodes ef) !! "InstallKubelet").
Proof.
  intros ([] & st & Hrun & Hfin)%run_body_ok. eapply finish_sequence_has; [done|].
  apply bind_ok in Hrun as (ef & t & Hplan & Hrest).
  eapply merge_planned_has in Hplan as (_ & Ht & _); [|apply start_made|apply kubelet_planned].
  revert Hrest Ht. generalize t. intros t0 Hrest. revert Hrest.
  match goal with |- ?m t0 = _ → _ => assert (retains "InstallKubelet" m) as Hret by retain end.
  apply Hret.
Qed.

Lemma KubeadmWorker_kubelet c o :
  KubeadmWorkerModule_Plan (RuntimeContext c) = Ok o →
  ∃ ef, o = Some ef ∧ is_Some (entries (ef_Nodes ef) !! "InstallKubelet").
Proof.
  intros ([] & st & Hrun & Hfin)%run_body_ok. eapply finish_sequence_has; [done|].
  apply bind_ok in Hrun as ([] & t & Hfirst & Hrest).
  assert (chain_has "InstallKubelet" t) as Ht.
  { apply bind_ok in Hfirst as (b & t1 & [= Hreq <-] & Hfirst). simpl in Hreq. simplify_eq.
    apply bind_ok in Hfirst as (ef & t2 & Hplan & Hfirst).
    eapply merge_planned_has in Hplan as (_ & Ht & _); [|apply start_made|apply kubelet_planned].
    revert Hfirst Ht. match goal with |- ?m t2 = _ → _ => assert (retains "InstallKubelet" m) as Hret by retain end.
    apply Hret. }
  revert Hrest Ht. match goal with |- ?m t = _ → _ => assert (retains "InstallKubelet" m) as Hret by retain end.
  apply Hret.
Qed.

(** ** Modules that share a node *)

Lemma plan_no_error s ctx name mods g md :
  plan_with (plan_module s) ctx name mods = Ok g → md ∈ mods → (SafeModulePlan ctx md).2 = None.
Proof.
  intros Hplan Hmd. unfold plan_with in Hplan. destruct (pc_is_ModuleContext ctx); [|done].
  destruct (foreach mods (plan_module s ctx) _) as [[[]|?|] st] eqn:Hloop; [|done..]. clear Hplan.
  revert md Hmd. apply Forall_forall.
  eapply (foreach_ind (λ k _, Forall (λ md, (SafeModulePlan ctx md).2 = None) k)) in Hloop; [done|done|].
  intros k md st1 st2 _ Hk Hstep. apply Forall_app. split; [done|]. constructor; [|done].
  destruct ((SafeModulePlan ctx md).2) as [err|] eqn:Herr; [|done].
  rewrite (plan_module_failed s ctx md err) in Hstep by done. done.
Qed.

Definition not_panicking ctx md : Prop := panics ctx md = false.

(** A module that does not panic has planned a fragment, in a pipeline that plans. *)
Lemma planned_module s ctx name mods g md :
  plan_with (plan_module s) ctx name mods = Ok g → md ∈ mods → not_panicking ctx md → ∃ o, mod_Plan md ctx = Ok o.
Proof.
  intros Hplan Hmd Hp. eapply plan_no_error in Hplan; [|done]. revert Hplan Hp.
  unfold SafeModulePlan, not_panicking, panics. destruct (mod_Plan md ctx) as [o|e|]; [by eexists|done..].
Qed.

Lemma fragment_of_has ctx md ef id :
  mod_Plan md ctx = Ok (Some ef) → is_Some (entries (ef_Nodes ef) !! id) → fragment_of ctx md = Some ef.
Proof.
  intros Hp [n Hid]. unfold fragment_of, SafeModulePlan. rewrite Hp. simpl. case_bool_decide as Hz; [|done].
  unfold mlen in Hz. apply map_size_empty_inv in Hz. by rewrite Hz, lookup_empty in Hid.
Qed.

(** Two modules that would plan a node of the same ID keep a pipeline from being
    planned, unless one of them panics. *)
Lemma shared_node s ctx name k1 md1 k2 md2 k3 id g :
  (∀ o, mod_Plan md1 ctx = Ok o → ∃ ef, o = Some ef ∧ is_Some (entries (ef_Nodes ef) !! id)) →
  (∀ o, mod_Plan md2 ctx = Ok o → ∃ ef, o = Some ef ∧ is_Some (entries (ef_Nodes ef) !! id)) →
  not_panicking ctx md1 → not_panicking ctx md2 →
  plan_with (plan_module s) ctx name (k1 ++ md1 :: k2 ++ md2 :: k3) ≠ Ok g.
Proof.
  intros H1 H2 Hp1 Hp2 Hplan.
  destruct (planned_module _ _ _ _ _ md1 Hplan) as [o1 Ho1]; [set_solver|done|].
  destruct (planned_module _ _ _ _ _ md2 Hplan) as [o2 Ho2]; [set_solver|done|].
  destruct (H1 o1 Ho1) as (f1 & -> & [n1 Hf1]). destruct (H2 o2 Ho2) as (f2 & -> & [n2 Hf2]).
  apply plan_graph in Hplan as (_ & m & (_ & Hdis%fragments_disjoint_sorted & _) & _).
  unfold fragments_of in Hdis. rewrite omap_app in Hdis. simpl in Hdis.
  rewrite (fragment_of_has ctx md1 f1 id Ho1 ltac:(by eexists)), omap_app in Hdis. simpl in Hdis.
  rewrite (fragment_of_has ctx md2 f2 id Ho2 ltac:(by eexists)) in Hdis.
  apply StronglySorted_app in Hdis as (_ & _ & Hdis). apply StronglySorted_inv in Hdis as [_ Hall].
  assert (entries (ef_Nodes f1) ##ₘ entries (ef_Nodes f2)) as Hd; [|by eapply map_disjoint_spec in Hd].
  apply (proj1 (Forall_forall _ _) Hall). set_solver.
Qed.

(** ** Creating a cluster *)

Lemma kubeadm_modules c spec :
  GetClusterConfig c ≫= cl_Spec = Some spec → deployment_type spec ≠ KubernetesDeploymentTypeKubexm →
  mod_Plan ControlPlaneModule (RuntimeContext c) = KubeadmControlPlaneModule_Plan (RuntimeContext c) ∧
  mod_Plan WorkerModule (RuntimeContext c) = KubeadmWorkerModule_Plan (RuntimeContext c).
Proof.
  intros Hspec Htype.
  assert (cluster_spec (RuntimeContext c) = Ok spec) as Hs by (unfold cluster_spec; simpl; by rewrite Hspec).
  simpl. unfold ControlPlaneModule_Plan, WorkerModule_Plan, with_task_context. simpl.
  rewrite Hs. unfold mbind, outcome_bind. by rewrite !decide_False by done.
Qed.

(** C9: a new cluster is never planned when it is deployed with kubeadm, the
    default: the control plane module and the worker module both plan the
    installation of the Kubernetes components, whose nodes have the same IDs, so
    that planning ends in an error in either style, unless one of the two modules
    panics and is left out. *)
Theorem create_cluster_never_planned s c spec name assumeYes g :
  GetClusterConfig c ≫= cl_Spec = Some spec → deployment_type spec ≠ KubernetesDeploymentTypeKubexm →
  not_panicking (RuntimeContext c) ControlPlaneModule → not_panicking (RuntimeContext c) WorkerModule →
  plan_with (plan_module s) (RuntimeContext c) name (p_Modules (NewCreateClusterPipeline assumeYes)) ≠ Ok g.
Proof.
  intros Hspec Htype Hp1 Hp2. destruct (kubeadm_modules c spec Hspec Htype) as [Hcp Hw].
  apply (shared_node s _ name
    [PreflightConnectivityModule; PreflightModule assumeYes; InfrastructureModule; LoadBalancerModule]
    ControlPlaneModule [NetworkModule] WorkerModule [AddonsModule] "InstallKubelet"); [| |done..].
  - rewrite Hcp. apply KubeadmControlPlane_kubelet.
  - rewrite Hw. apply KubeadmWorker_kubelet.
Qed.
(** ** Deleting a cluster *)

(** Every host is there, one of them a worker. *)
Definition has_worker c : Prop :=
  (∀ k hri, entries (gl_hostInfoMap (ctx_globals c)) !! k = Some hri → hri_Host hri ≠ None) ∧
  ∃ h, host_with_role RoleWorker c h.

Lemma worker_hosts c call hosts : has_worker c → hosts_by_role call RoleWorker c = Ok hosts → hosts ≠ [].
Proof.
  intros [Hnn [h Hh]] Hrun ->. apply map_err_ok in Hrun.
  destruct (GetHostsByRole_run call RoleWorker c Hnn) as (hs & Heq & Hhs). rewrite Heq in Hrun. simplify_eq.
  apply (not_elem_of_nil (Some h)), Hhs. by exists h.
Qed.

Lemma reset_planned c o :
  has_worker c → plan_task (RuntimeContext c) ResetNodeTask = Ok o →
  ∃ ef, o = Some ef ∧ is_Some (entries (ef_Nodes ef) !! "KubeadmReset").
Proof.
  intros Hw Hp. eapply plan_task_runtime in Hp; [|done]. simpl in Hp.
  apply ResetNode_nodes in Hp as (ef & -> & hosts & Hh & Hex). exists ef. split; [done|].
  eapply exact_has; [apply Hex; by eapply worker_hosts|]. simpl. set_solver.
Qed.

Lemma clean_planned c o :
  has_worker c → plan_task (RuntimeContext c) CleanKubernetesTask = Ok o →
  ∃ ef, o = Some ef ∧ is_Some (entries (ef_Nodes ef) !! "KubeadmReset").
Proof.
  intros Hw Hp. eapply plan_task_runtime in Hp; [|done]. simpl in Hp.
  apply CleanKubernetes_nodes in Hp as (ef & -> & hosts & Hh & Hex). exists ef. split; [done|].
  eapply exact_has; [apply Hex|simpl; set_solver].
  apply outcome_bind_ok in Hh as (h1 & _ & (h2 & H2 & [= <-])%outcome_bind_ok).
  apply worker_hosts in H2; [|done]. by destruct h1.
Qed.

Lemma PlanSingleTask_nodes ctx t o :
  BaseModule_PlanSingleTask ctx t = Ok o →
  ∃ ef ef', plan_task ctx t = Ok (Some ef) ∧ o = Some ef' ∧ ef_Nodes ef' = ef_Nodes ef.
Proof.
  intros (f & Hp & (ef & Hf & Hc)%outcome_bind_ok)%outcome_bind_ok. unfold deref_or_panic in Hf.
  destruct f as [ef0|]; simplify_eq. apply calculated_ok in Hc as (ef' & -> & Hn & _). by exists ef, ef'.
Qed.

Lemma WorkerCleanup_reset c o :
  has_worker c → WorkerCleanupModule_Plan (RuntimeContext c) = Ok o →
  ∃ ef, o = Some ef ∧ is_Some (entries (ef_Nodes ef) !! "KubeadmReset").
Proof.
  intros Hw (drain & _ & (reset & Hr%map_err_ok & ([] & [frag prev] & Hrun & Hc)%run_body_ok)%outcome_bind_ok)%outcome_bind_ok.
  apply PlanSingleTask_nodes in Hr as (ef0 & ef & Hp & -> & Hn).
  destruct (reset_planned c _ Hw Hp) as (? & [= <-] & Hid). rewrite <-Hn in Hid.
  apply bind_ok in Hrun as (d & [f1 p1] & Hd & Hrun). apply bind_ok in Hrun as (r & [f2 p2] & Hr & Hl).
  assert (is_Some (ef_Nodes f1)) as Hf1.
  { apply (merge_fragment_made _ _ _ _ _ Hd). by eexists. }
  assert (has "KubeadmReset" f2) as Hf2.
  { apply bind_ok in Hr as (? & [f0 p0] & Hm & Hr). unfold deref in Hr. simplify_eq.
    eapply merge_has; [done|done|by right]. }
  apply on_fst_ok in Hl as (g & Hl & [= -> ->]). destruct Hf2 as [[m Hm] Hid2].
  pose proof (LinkFragments_grown (ef_ExitNodes d) (ef_EntryNodes r) f2 g m) as Hg.
  destruct Hg as (m' & -> & Hdom & _); [done..|].
  apply calculated_ok in Hc as (ef' & -> & Hn' & _). exists ef'. split; [done|]. rewrite Hn'. simpl.
  rewrite Hm in Hid2. by apply Hdom.
Qed.

Lemma inline_task_clean c st a st' :
  has_worker c → is_Some (ef_Nodes st.1) →
  inline_task (RuntimeContext c) merge_in_place (λ t, link_in_place t append_unique) CleanKubernetesTask st = (Ok a, st') →
  chain_has "KubeadmReset" st'.
Proof.
  intros Hw Hmade (b & t & [= <- <-] & Hrun)%bind_ok. simpl in Hrun.
  apply bind_ok in Hrun as (o & t & [= Ho <-] & Hrun). destruct st as [frag [prev first]], st' as [frag' p'].
  eapply inline_fragment_has; [done|done|]. right. by apply (clean_planned c).
Qed.

Lemma inline_task_retains c t id st a st' :
  inline_task (RuntimeContext c) merge_in_place (λ t, link_in_place t append_unique) t st = (Ok a, st') →
  chain_has id st → chain_has id st'.
Proof.
  intros (b & t1 & [= _ <-] & Hrun)%bind_ok Hst. destruct b; [|by unfold mret, M_ret in Hrun; simplify_eq].
  apply bind_ok in Hrun as (o & t1 & [= _ <-] & Hrun). destruct st as [frag [prev first]], st' as [frag' p'].
  eapply inline_fragment_has; [done|apply Hst|by left].
Qed.

Lemma ControlPlaneCleanup_reset c o :
  has_worker c → ControlPlaneCleanupModule_Plan (RuntimeContext c) = Ok o →
  ∃ ef, o = Some ef ∧ is_Some (entries (ef_Nodes ef) !! "KubeadmReset").
Proof.
  intros Hw ([] & [frag [prev first]] & Hrun & [= <-])%run_body_ok.
  apply bind_ok in Hrun as ([] & st1 & H1 & Hrun). apply bind_ok in Hrun as ([] & st2 & H2 & [= ->]).
  apply (inline_task_clean c) in H1; [|done|by eexists]. eapply (inline_task_retains c) in H2; [|done].
  eexists. split; [done|]. apply H2.
Qed.

(** C10: a cluster with a worker is never deleted: the reset of the workers and
    the cleanup of the control plane both plan a node [KubeadmReset], so that
    planning ends in an error in either style, unless one of the two modules panics
    and is left out. *)
Theorem delete_cluster_never_planned s c name assumeYes g :
  has_worker c →
  not_panicking (RuntimeContext c) WorkerCleanupModule →
  not_panicking (RuntimeContext c) ControlPlaneCleanupModule →
  plan_with (plan_module s) (RuntimeContext c) name (p_Modules (NewDeleteClusterPipeline assumeYes)) ≠ Ok g.
Proof.
  intros Hw Hp1 Hp2.
  apply (shared_node s _ name [PreflightConnectivityModule; PreflightModule assumeYes; AddonCleanupModule]
    WorkerCleanupModule [] ControlPlaneCleanupModule
    [NetworkCleanupModule; LoadBalancerCleanupModule; EtcdCleanupModule; RuntimeCleanupModule; StorageCleanupModule;
     OsCleanupModule] "KubeadmReset"); [| |done..].
  - intros o. by apply WorkerCleanup_reset.
  - intros o. by apply ControlPlaneCleanup_reset.
Qed.

(** ** Etcd deployed by the program *)

Lemma etcd_pki_planned c o :
  plan_task (RuntimeContext c) GenerateEtcdPKITask = Ok o →
  ∃ ef, o = Some ef ∧ is_Some (entries (ef_Nodes ef) !! "GenerateEtcdCA").
Proof.
  intros Hp. eapply plan_task_runtime in Hp; [|done]. apply GenerateEtcdPKI_nodes in Hp as (ef & -> & _ & ?). by exists ef.
Qed.

Lemma etcd_deploy_planned c o :
  plan_task (RuntimeContext c) DeployEtcdClusterTask = Ok o →
  ∃ ef, o = Some ef ∧ is_Some (entries (ef_Nodes ef) !! "GenerateEtcdCA").
Proof.
  intros Hp. eapply plan_task_runtime in Hp; [|done]. apply DeployEtcdCluster_nodes in Hp as (ef & -> & _ & ?). by exists ef.
Qed.

Lemma etcd_required c t :
  etcd_by_kubexm c = Ok true → t = GenerateEtcdPKITask ∨ t = DeployEtcdClusterTask →
  task_required (RuntimeContext c) t = Ok true ∧ planTask (RuntimeContext c) t = plan_task (RuntimeContext c) t.
Proof.
  intros He Ht.
  assert (task_required (RuntimeContext c) t = Ok true) as Hr.
  { apply task_required_ok. destruct Ht; subst; exact He. }
  split; [done|]. unfold planTask, with_task_context. simpl. by rewrite Hr.
Qed.

(** The second of the two fragments does not merge. *)
Lemma etcd_merge_conflict c err st a st' :
  chain_has "GenerateEtcdCA" st →
  merge_planned err (plan_task (RuntimeContext c) DeployEtcdClusterTask) st = (Ok a, st') → False.
Proof.
  intros Hst Hm. destruct st as [frag prev].
  destruct (plan_task (RuntimeContext c) DeployEtcdClusterTask) as [o|e|] eqn:Hp; [|done..].
  destruct (etcd_deploy_planned c o Hp) as (ef & -> & Hid). by eapply merge_planned_conflict.
Qed.

Lemma EtcdModule_fails c o : etcd_by_kubexm c = Ok true → EtcdModule_Plan (RuntimeContext c) ≠ Ok o.
Proof.
  intros He. destruct (etcd_required c GenerateEtcdPKITask He) as [Hr1 _]; [by left|].
  destruct (etcd_required c DeployEtcdClusterTask He) as [Hr2 _]; [by right|].
  intros (spec & Hspec & Hk)%outcome_bind_ok. case_decide as Hnil.
  { apply outcome_bind_ok in He as (spec' & Hs' & [= He]). unfold config_spec, cluster_spec in *. simpl in Hspec.
    destruct (GetClusterConfig c ≫= cl_Spec); simplify_eq/=. rewrite Hnil in He. done. }
  unfold with_task_context in Hk. simpl in Hk. apply run_body_ok in Hk as ([] & st & Hrun & _).
  apply bind_ok in Hrun as ([] & st1 & H1 & H2). unfold when_required in H1, H2. rewrite Hr1 in H1. rewrite Hr2 in H2.
  apply bind_ok in H1 as (b & t & [= <- <-] & H1). apply bind_ok in H2 as (b & t & [= <- <-] & H2).
  apply bind_ok in H1 as (ef & t & Hm & H1).
  eapply merge_planned_has in Hm as (_ & Ht & _); [|apply start_made|apply etcd_pki_planned].
  apply bind_ok in H2 as (ef2 & t2 & Hm2 & _). eapply etcd_merge_conflict; [|done].
  apply bind_ok in H1 as ([] & t3 & Ha & Hs).
  eapply retains_set_prev; [done|]. by eapply retains_append_entries.
Qed.

Lemma infrastructure_os_made c st st' :
  foreach infrastructure_os_tasks (λ t, lift (planTask (RuntimeContext c) t) ≫= chain_fragment MergeFailed FragmentLinkFailed) st =
    (Ok tt, st') → is_Some (ef_Nodes st.1) → is_Some (ef_Nodes st'.1).
Proof.
  intros Hrun Hst. eapply (foreach_ind (λ _ st, is_Some (ef_Nodes st.1))) in Hrun; [done|done|].
  clear. intros k t [frag prev] [frag' prev'] _ [m Hm] (o & st & [= _ <-] & Hrun)%bind_ok.
  eapply chain_fragment_spec in Hrun as [(_ & -> & _)|(ef & _ & _ & (m1 & m2 & _ & _ & -> & _))]; [|by eexists|done].
  by eexists.
Qed.

Lemma InfrastructureModule_fails c o : etcd_by_kubexm c = Ok true → InfrastructureModule_Plan (RuntimeContext c) ≠ Ok o.
Proof.
  intros He. destruct (etcd_required c GenerateEtcdPKITask He) as [_ Hr1]; [by left|].
  destruct (etcd_required c DeployEtcdClusterTask He) as [_ Hr2]; [by right|].
  intros ([] & st & Hrun & _)%run_body_ok. apply bind_ok in Hrun as ([] & st1 & Hos & Hrun).
  apply infrastructure_os_made in Hos; [|apply start_made]. rewrite Hr1, Hr2 in Hrun.
  apply bind_ok in Hrun as (pki & st2 & Hpki & Hrun).
  eapply merge_planned_has in Hpki as (_ & Hpki & _); [|done|apply etcd_pki_planned].
  apply bind_ok in Hrun as ([] & st3 & Hl & Hrun). pose proof (retains_link_prev _ _ _ _ _ Hl Hpki) as Hst3.
  apply bind_ok in Hrun as (dep & st4 & Hdep & _). by eapply etcd_merge_conflict.
Qed.

(** Where etcd is to be deployed by the program itself (type [kubexm]), the
    task that generates its certificates and the task that deploys it both plan
    the nodes [GenerateEtcdCA] and [GenerateEtcdCerts], in one fragment: the
    infrastructure module and the etcd module never plan, and neither does any
    pipeline with one of them (creating a cluster, adding nodes), in either style,
    unless the module panics and is left out. *)
Theorem kubexm_etcd_never_planned s c name mods md g :
  etcd_by_kubexm c = Ok true → md ∈ mods → md = InfrastructureModule ∨ md = EtcdModule →
  (∀ o, mod_Plan md (RuntimeContext c) ≠ Ok o) ∧
  (not_panicking (RuntimeContext c) md → plan_with (plan_module s) (RuntimeContext c) name mods ≠ Ok g).
Proof.
  intros He Hmd Hor.
  assert (∀ o, mod_Plan md (RuntimeContext c) ≠ Ok o) as Hno.
  { intros o. destruct Hor; subst; [by apply InfrastructureModule_fails|by apply EtcdModule_fails]. }
  split; [done|]. intros Hp Hplan. apply (planned_module _ _ _ _ _ md) in Hplan as [o Ho]; [|done|done]. by apply (Hno o).
Qed.
End modules.

(** ** The masters of kubeadm *)

(** Another order for the second call. *)
Definition range_turned (turned : nat) : GoRange.
Proof.
  refine {| range := λ A site m, if decide (site = turned) then reverse (map_to_list m) else map_to_list m |}.
  intros A site m. case_decide; [apply reverse_Permutation|done].
Defined.

(** The hosts of a list of entries that have the role. *)
Definition entry_host (role : string) (x : string * HostRuntimeInfo) : option (option Host) :=
  h ← hri_Host x.2; if existsb (λ r, bool_decide (r = role)) (host_GetRoles h) then Some (Some h) else None.

Lemma hosts_with_role_omap role l hosts :
  Forall (λ x, hri_Host x.2 ≠ None) l → hosts_with_role role l hosts = Ok (hosts ++ omap (entry_host role) l).
Proof.
  intros Hl. revert hosts. induction Hl as [|[k hri] l Hx _ IH]; intros hosts; simpl; [by rewrite app_nil_r|].
  unfold entry_host at 1. simpl in *. destruct (hri_Host hri) as [h|]; [|done]. simpl.
  destruct (existsb _ _); rewrite IH; [|done]. by rewrite <-app_assoc.
Qed.

Lemma hosts_with_role_ok role l hosts hs : hosts_with_role role l hosts = Ok hs → Forall (λ x, hri_Host x.2 ≠ None) l.
Proof.
  revert hosts. induction l as [|[k hri] l IH]; intros hosts Hrun; simpl in *; [done|].
  destruct (hri_Host hri) as [h|] eqn:Hh; [|done]. constructor; [simpl; by rewrite Hh|]. by eapply IH.
Qed.

Lemma omap_reverse {A B} (f : A → option B) l : omap f (reverse l) = reverse (omap f l).
Proof.
  induction l as [|x l IH]; [done|]. rewrite reverse_cons, omap_app, IH. simpl.
  destruct (f x); simpl; [by rewrite reverse_cons|by rewrite app_nil_r].
Qed.

(** Every call but the turned one gives the hosts in one order, that one in the
    reverse order. *)
Lemma hosts_turned turned call role c hosts :
  role ≠ "" → call ≠ turned → @hosts_by_role (range_turned turned) call role c = Ok hosts →
  @hosts_by_role (range_turned turned) turned role c = Ok (reverse hosts).
Proof.
  intros Hrole Hcall Hrun%map_err_ok. apply map_err_ok. unfold GetHostsByRole in *.
  destruct (gl_hostInfoMap (ctx_globals c)) as [m|]; [|by simplify_eq].
  rewrite decide_False in Hrun |- * by done. simpl in *.
  rewrite decide_False in Hrun by done. rewrite decide_True by done.
  pose proof (hosts_with_role_ok _ _ _ _ Hrun) as Hall. rewrite hosts_with_role_omap in Hrun by done.
  injection Hrun as <-. rewrite hosts_with_role_omap, omap_reverse; [done|]. by rewrite reverse_Permutation.
Qed.

(** The first master and the masters to join come from two calls that each
    choose their own order: where the second goes the other way round,
    [kubeadm init] runs on the first master, [kubeadm join] runs on that master
    again, and on the last one neither is ever run. *)
Theorem first_master_joined_again `{Steps} c hosts o o' :
  let _ := range_turned 292 in
  hosts_by_role 290 RoleMaster c = Ok hosts → 1 < length hosts →
  BootstrapFirstMasterTask_Plan c = Ok o → KubeadmJoinMastersTask_Plan c = Ok o' →
  ∃ boot join first middle last, o = Some boot ∧ o' = Some join ∧ hosts = first :: middle ++ [last] ∧
    runs_on (entries (ef_Nodes boot)) "KubeadmInit" [first] ∧
    runs_on (entries (ef_Nodes join)) "ExecuteKubeadmJoinMaster" (reverse (first :: middle)).
Proof.
  intros R. subst R. intros Hhosts Hlen Hboot Hjoin.
  apply BootstrapFirstMaster_nodes in Hboot as (boot & -> & hosts1 & first & H1 & Hfirst & Hb).
  apply KubeadmJoinMasters_nodes in Hjoin as (join & -> & hosts2 & H2 & Hj).
  rewrite Hhosts in H1. injection H1 as <-.
  pose proof (hosts_turned 292 290 RoleMaster c hosts ltac:(done) ltac:(done) Hhosts) as Hturn.
  rewrite Hturn in H2. injection H2 as <-.
  destruct hosts as [|x rest]; [done|]. injection Hfirst as ->.
  destruct rest as [|last middle _] using rev_ind; [simpl in Hlen; lia|].
  rewrite reverse_cons, reverse_snoc in Hj. simpl in Hj. rewrite <-reverse_cons in Hj.
  exists boot, join, first, middle, last. split_and!; [done..| |].
  - eapply exact_runs_on; [done|]. simpl. set_solver.
  - eapply exact_runs_on; [apply Hj|simpl; set_solver]. rewrite reverse_cons. by destruct (reverse middle).
Qed.
