(* ===== verification/Witnesses.v ===== *)
(** Concrete inputs at which the theorems of the development apply: a graph of
    three nodes, a run of it, a step that fails, a disk, a pipeline.

    Concrete tasks at which the theorems about modules and their pipelines apply:
    a backup of two required tasks, and a cluster with a load balancer.

    A small cluster of two masters and a worker, with steps that always build: the
    theorems about the tasks and about whole clusters at concrete inputs. *)
From S2P Require Import Prelude.
From S2P Require Import Values.
From S2P Require Import Plan.
From S2P Require Import Kahn.
From S2P Require Import GraphSpec.
From S2P Require Import FragmentSpec.
From S2P Require Import Assemble.
From S2P Require Import Sequence.
From S2P Require Import Result.
From S2P Require Import GoPath.
From S2P Require Import Cluster.
From S2P Require Import Context.
From S2P Require Import Task.
From S2P Require Import PreflightTasks.
From S2P Require Import OperationTasks.
From S2P Require Import NodeTasks.
From S2P Require Import PkiTasks.
From S2P Require Import Module.
From S2P Require Import Tasks.
From S2P Require Import ModuleSpec.
From S2P Require Import TaskSpec.
From S2P Require Import TaskRuns.
From S2P Require Import RollingSpec.
From S2P Require Import TaskNodes.
From S2P Require Import StepRunner.
From S2P Require Import NodeRunner.
From S2P Require Import Checkpoint.
From S2P Require Import Scheduler.
From S2P Require Import SchedulerSpec.
From S2P Require Import Pipeline.
From S2P Require Import PipelineSpec.
From S2P Require Import TaskPipelineSpec.
From S2P Require Import ClusterPlans.

Section concrete_runs.
#[local] Existing Instance range_forward.
#[local] Existing Instance no_faults.

(** ** Graphs *)

Definition demo_node (name : string) (deps : list NodeID) : ExecutionNode :=
  MkNode name (Some ("step-" +:+ name)) None deps "" None ∅ "" "" "" None.

(** [a] before [b] before [c]. *)
Definition demo_nodes : node_map :=
  {[ "a" := Some (demo_node "a" []); "b" := Some (demo_node "b" ["a"]); "c" := Some (demo_node "c" ["b"]) ]}.

Definition demo_graph : ExecutionGraph := MkGraph "demo" (Some demo_nodes) ["a"] ["c"].

Definition demo_fragment : ExecutionFragment := MkFragment (Some demo_nodes) ["a"] ["c"] "demo".

Definition other_nodes : node_map := {[ "x" := Some (demo_node "x" []) ]}.

Definition other_fragment : ExecutionFragment := MkFragment (Some other_nodes) ["x"] ["x"] "other".

Lemma demo_well_formed : well_formed demo_graph.
Proof. destruct (Validate_cases demo_graph) as [[_ H]|(e & H & _)]; [done|by vm_compute in H]. Qed.

Lemma demo_nonnil : nodes_nonnil demo_nodes.
Proof. destruct demo_well_formed as (m & [= <-] & H & _). done. Qed.

Lemma Graph_CalculateEntryAndExitNodes_spec_witness :
  nodes_nonnil (entries (g_Nodes (MkGraph "demo" (Some demo_nodes) [] []))) ∧
  ExecutionGraph_CalculateEntryAndExitNodes (MkGraph "demo" (Some demo_nodes) [] []) = (Ok tt, demo_graph).
Proof.
  split; [apply demo_nonnil|].
  rewrite (Graph_CalculateEntryAndExitNodes_spec (MkGraph "demo" (Some demo_nodes) [] []) demo_nonnil).
  reflexivity.
Defined.

Lemma Fragment_CalculateEntryAndExitNodes_spec_witness :
  nodes_nonnil (entries (ef_Nodes (MkFragment (Some demo_nodes) [] [] "demo"))) ∧
  ExecutionFragment_CalculateEntryAndExitNodes (MkFragment (Some demo_nodes) [] [] "demo") = (Ok tt, demo_fragment).
Proof.
  split; [apply demo_nonnil|].
  rewrite (Fragment_CalculateEntryAndExitNodes_spec (MkFragment (Some demo_nodes) [] [] "demo") demo_nonnil).
  reflexivity.
Defined.

Lemma MergeFragment_disjoint_union_witness :
  (∃ r m', ExecutionGraph_MergeFragment (Some other_fragment) demo_graph = (r, g_set_Nodes m' demo_graph) ∧
     merged demo_nodes other_nodes m' r) ∧
  (∃ r m', ExecutionFragment_MergeFragment (Some other_fragment) demo_fragment = (r, ef_set_Nodes m' demo_fragment) ∧
     merged demo_nodes other_nodes m' r).
Proof. exact (MergeFragment_disjoint_union demo_graph demo_fragment other_fragment demo_nodes demo_nodes eq_refl eq_refl). Defined.

Definition joined_graph : ExecutionGraph := MkGraph "joined" (Some (demo_nodes ∪ other_nodes)) [] [].

Lemma joined_well_formed : well_formed joined_graph.
Proof. destruct (Validate_cases joined_graph) as [[_ H]|(e & H & _)]; [done|by vm_compute in H]. Qed.

Lemma node_deps_x : node_deps (demo_nodes ∪ other_nodes) "x" = [].
Proof. reflexivity. Qed.

(** Linking the exit [c] of the first part to the entry [x] of the second. *)
Lemma LinkFragments_acyclic_witness :
  ∃ g', LinkFragments ["c"] ["x"] joined_graph = (Ok tt, g') ∧ acyclic (node_deps (graph_nodes g')) ∧
    node_deps (graph_nodes g') "x" = ["c"].
Proof.
  destruct (LinkFragments_acyclic ["c"] ["x"] joined_graph) as (g' & Hrun & Hac).
  - destruct joined_well_formed as (m & [= <-] & _ & _ & Hac & _). exact Hac.
  - intros id ->%list_elem_of_singleton. by eexists.
  - intros id ->%list_elem_of_singleton. by eexists.
  - intros f t ->%list_elem_of_singleton ->%list_elem_of_singleton Hpath.
    assert (∀ x y, rtc (before (node_deps (demo_nodes ∪ other_nodes))) x y → y = "c" → x ≠ "x") as Hno.
    { induction 1 as [y|x y z Hxy _ IH]; [by intros ->|]. intros Hz ->.
      specialize (IH Hz). unfold before in Hxy.
      apply node_deps_Some in Hxy as Hy.
      assert (y = "a" ∨ y = "b" ∨ y = "c" ∨ y = "x") as [-> | [-> | [-> | ->]]].
      { apply elem_of_dom in Hy. assert (dom (demo_nodes ∪ other_nodes) = {["a"; "b"; "c"; "x"]}) as Hd by reflexivity.
        rewrite Hd in Hy. set_solver. }
      all: vm_compute in Hxy; set_solver. }
    by eapply Hno.
  - exists g'. split_and!; [done..|]. vm_compute in Hrun. injection Hrun as <-. reflexivity.
Defined.

(** ** Contexts and steps *)

Definition demo_globals : Globals :=
  MkGlobals None "/work" false false 0 false
    (Some {[ "h1" := MkHostInfo (Some (MkHost "h1" ["master"; "etcd"] "amd64" "10.0.0.1")) None None;
             "h2" := MkHostInfo (Some (MkHost "h2" ["worker"] "arm64" "10.0.0.2")) None None ]}) None "run".

(** A context with a task bag, and a heap that has it. *)
Definition demo_context : Context :=
  MkContext Background false demo_globals (Some (MkHost "h1" ["master"; "etcd"] "amd64" "10.0.0.1")) "" 0
    (MkScopes None None None (Some 0)) "" "" "" None.

Definition demo_heap : Heap := MkHeap {[ 0 := {[ "k" := AInt 1 ]} ]} 1.

Lemma Export_Import_witness :
  let h := demo_heap in
  Import "task" "name" demo_context (Export "task" "name" (AString "v") demo_context h).2 = (AString "v", true) ∧
  Import "" "k" demo_context (Export "task" "name" (AString "v") demo_context h).2 = (AInt 1, true).
Proof.
  destruct (Export_Import "task" "name" (AString "v") demo_context demo_heap) as (Hok & _ & _).
  destruct (Hok _ eq_refl) as [Himp Hother]. split; [exact Himp|].
  etransitivity; [apply (Hother "" "k"); done|]. reflexivity.
Defined.

Lemma SetRuntimeConfig_visibility_witness :
  heap_ok demo_heap ∧
  let '(c, h) := SetRuntimeConfig {[ "cfg" := ABool true ]} demo_context demo_heap in
  GetFromRuntimeConfig "cfg" c h = (ABool true, true) ∧ GetFromRuntimeConfig "cfg" demo_context h = (ABool true, true).
Proof.
  assert (heap_ok demo_heap) as Hok.
  { intros l [b Hl]. unfold demo_heap in Hl. simpl in Hl. apply lookup_singleton_Some in Hl as [<- _]. simpl. lia. }
  split; [exact Hok|].
  destruct (SetRuntimeConfig {[ "cfg" := ABool true ]} demo_context demo_heap) as [c h] eqn:Hset.
  destruct (SetRuntimeConfig_visibility _ _ _ _ _ Hok Hset) as [Hvis _]. split.
  - apply Hvis. apply lookup_singleton_eq.
  - vm_compute in Hset. injection Hset as <- <-. reflexivity.
Defined.

Definition demo_clock : Clock nat := {| now w := Z.of_nat (w_ext w); sleep d w := MkWorld (w_heap w) (S (w_ext w)) |}.
#[local] Existing Instance demo_clock.

Definition demo_world : World nat := MkWorld demo_heap 0.

(** A step that fails before the clock reaches [n] and then succeeds. *)
Definition flaky_step (n : nat) : Step nat :=
  MkStep (Some "flaky") (Some (MkBase 0 false)) (λ _ w, (Returns (false, None), w))
    (λ _ w, (Returns (None, if decide (w_ext w < n) then Some "not yet" else None), w))
    (λ _ w, (Returns None, w)).

Definition panicking_step : Step nat :=
  MkStep (Some "bad") (Some (MkBase 0 false)) (λ _ w, (Returns (false, None), w))
    (λ _ w, (Panics "nil map", w)) (λ _ w, (Returns None, w)).

Definition done_step : Step nat :=
  MkStep (Some "done") (Some (MkBase 0 false)) (λ _ w, (Returns (true, None), w))
    (λ _ w, (Panics "unreachable", w)) (λ _ w, (Panics "unreachable", w)).

Definition retrying : dagExecutor := NewCheckpointExecutor (MkOptions "" "" "" false 0 3 0 0).

Lemma runStepOnHost_total_witness :
  ∃ hr w', runStepOnHost NewExecutor demo_context (Some panicking_step) demo_world = (Ok hr, w') ∧
    hr_HostName hr = "h1" ∧ (hr_Status hr = StatusSuccess ∨ hr_Status hr = StatusFailed).
Proof.
  apply (runStepOnHost_total NewExecutor panicking_step demo_context (MkHost "h1" ["master"; "etcd"] "amd64" "10.0.0.1")
    "bad" (MkBase 0 false)); [done..|]. intros c w. by eexists _, _.
Defined.

Lemma runStepOnHost_precheck_witness :
  ∃ hr, runStepOnHost NewExecutor demo_context (Some done_step) demo_world = (Ok hr, demo_world) ∧
    hr_Status hr = StatusSuccess.
Proof.
  exact (runStepOnHost_precheck NewExecutor done_step demo_context (MkHost "h1" ["master"; "etcd"] "amd64" "10.0.0.1")
    "done" (MkBase 0 false) demo_world eq_refl eq_refl eq_refl).
Defined.


Lemma runStepOnHost_run_panic_success_witness :
  ∃ hr rb w3, step_Rollback panicking_step (step_ctx (MkBase 0 false) demo_context) demo_world = (Returns rb, w3) ∧
    runStepOnHost NewExecutor demo_context (Some panicking_step) demo_world = (Ok hr, w3) ∧
    hr_Status hr = StatusSuccess ∧ hr_Message hr = "Step executed successfully.".
Proof.
  apply (runStepOnHost_run_panic_success NewExecutor panicking_step demo_context
    (MkHost "h1" ["master"; "etcd"] "amd64" "10.0.0.1") "bad" (MkBase 0 false) demo_world demo_world demo_world "nil map");
    try done. intros c w. by eexists _, _.
Defined.

Lemma retry_delay_backoff_witness : retry_delay retrying 3 = (4 * Second)%Z.
Proof. destruct (retry_delay_backoff retrying 3) as [_ H]. exact (H ltac:(lia) ltac:(done) ltac:(done)). Defined.

(** ** Nodes *)

Definition demo_handles : Handles nat := {|
  steps r := if decide (r = "step-bad") then panicking_step else flaky_step (if decide (r = "step-slow") then 9 else 0);
  conditions _ _ w := (Returns (true, None), w);
|}.
#[local] Existing Instance demo_handles.

Definition two_hosts : list (option Host) :=
  [Some (MkHost "h1" ["master"] "amd64" "10.0.0.1"); Some (MkHost "h2" ["worker"] "amd64" "10.0.0.2")].

(** A node whose step fails on both hosts, with no retry. *)
Definition slow_node : ExecutionNode :=
  MkNode "slow" (Some "step-slow") (Some two_hosts) [] "slow" None ∅ "p" "m" "t" (Some "always").

Definition slow_graph : ExecutionGraph := MkGraph "slow" (Some {[ "slow" := Some slow_node ]}) ["slow"] ["slow"].

Lemma runNode_aggregates_witness :
  ∃ res w' hrs, runNode NewExecutor demo_context slow_graph "slow" (reverse two_hosts) demo_world = (Ok res, w') ∧
    wr_hostResults res = Some hrs ∧ dom hrs = {["h1"; "h2"]} ∧ wr_status res = StatusFailed ∧ some_failed hrs.
Proof.
  destruct (runNode NewExecutor demo_context slow_graph "slow" (reverse two_hosts) demo_world)
    as [[res|x|] w'] eqn:Hrun; [|by vm_compute in Hrun..].
  destruct (wr_hostResults res) as [hrs|] eqn:Hhrs; [|by vm_compute in Hrun; injection Hrun as <- <-].
  destruct (runNode_aggregates NewExecutor demo_context slow_graph "slow" slow_node (reverse two_hosts)
    demo_world res w' hrs) as (Hdom & Hfailed & _ & _); [done|apply reverse_Permutation| |done|done|].
  { apply (bool_decide_unpack _). vm_compute. exact I. }
  assert (wr_status res = StatusFailed) as Hst by (clear - Hrun; vm_compute in Hrun; by injection Hrun as <- <-).
  exists res, w', hrs. split_and!; [done|done| |done|by apply Hfailed]. rewrite Hdom. reflexivity.
Defined.

(** ** Checkpoints *)

Definition is_ok {S E A} (r : outcome E A * S) : bool := match r.1 with Ok _ => true | _ => false end.

Definition demo_checkpoint : Checkpoint :=
  MkCheckpoint 1 "c" "p" "demo" 0 0
    (Some {[ "a" := MkNodeState StatusSuccess 1 2 "" None (Some {[ "out" := AInt 3 ]}) false ]})
    None None None StatusRunning "a" 0.

Lemma Save_Load_roundtrip_witness :
  ∃ d', Save 7 "/d" "c" "p" (Some demo_checkpoint) ∅ = (Ok (Some (ck_set_UpdatedAt 7 demo_checkpoint)), d') ∧
    Load "/d" "c" "p" d' = Ok (Some (json_view (ck_set_UpdatedAt 7 demo_checkpoint))).
Proof.
  assert (is_ok (Save 7 "/d" "c" "p" (Some demo_checkpoint) ∅) = true) as Hok by reflexivity.
  destruct (Save 7 "/d" "c" "p" (Some demo_checkpoint) ∅) as [[r|x|] d'] eqn:Hsave; [|done..]. clear Hok.
  destruct (Save_Load_roundtrip 7 "/d" "c" "p" (Some demo_checkpoint) ∅ r d' Hsave eq_refl)
    as (c & [= <-] & -> & Hload & _).
  exists d'. by split.
Defined.

Definition demo_disk : gmap string content := {[ CheckpointPath "/d" "c" "p" := Document demo_checkpoint ]}.

Lemma Save_atomic_witness :
  (fs_run (take 2 (save_ops 7 "/d" "c" "p" demo_checkpoint)) demo_disk) !! CheckpointPath "/d" "c" "p" =
    Some (Document demo_checkpoint).
Proof.
  destruct (Save_atomic 7 "/d" "c" "p" demo_disk) as [_ H].
  destruct (H demo_checkpoint 2) as [Heq|Heq]; [rewrite Heq; reflexivity|by vm_compute in Heq].
Defined.

Lemma Delete_spec_witness :
  Delete "/d" "c" "p" demo_disk = (Ok tt, ∅) ∧ Load "/d" "c" "p" ∅ = Ok None.
Proof.
  destruct (Delete_spec "/d" "c" "p" demo_disk) as (H & _ & _).
  assert (is_ok (Delete "/d" "c" "p" demo_disk) = true) as Hok by reflexivity.
  destruct (Delete "/d" "c" "p" demo_disk) as [[[]|x|] d'] eqn:Hdel; [|done..]. clear Hok.
  destruct (H d' eq_refl) as (-> & _ & Hload).
  assert (delete (CheckpointPath "/d" "c" "p") demo_disk = ∅) as Hd by reflexivity.
  rewrite Hd in *. by split.
Defined.

(** ** Runs *)

(** Of the nodes of [demo_graph], [a] succeeds and [b] fails. *)
Definition demo_verdict (id : NodeID) : Status := if decide (id = "b") then StatusFailed else StatusSuccess.

Definition demo_result (id : NodeID) : workerResult := MkWorkerResult id (demo_verdict id) "" None None None.

Program Definition demo_runner : NodeRunner (World nat) :=
  {| node_runs w id res w' := res = demo_result id ∧ w' = w |}.
Next Obligation. by intros w id res w' [-> _]. Qed.
Next Obligation. intros w id res w' [-> _]. simpl. unfold terminal, demo_verdict. case_decide; auto. Qed.

Section runs.
#[local] Existing Instance demo_runner.

Lemma demo_workers_return : workers_return demo_graph.
Proof. intros w id _. by exists (demo_result id), w. Qed.

Lemma demo_fresh : fresh NewExecutor ∅.
Proof. done. Qed.

Lemma demo_run :
  ∃ st0 dependents tr st, exec_init NewExecutor demo_graph demo_world ∅ = Some (st0, dependents) ∧
    exec_trace NewExecutor demo_graph demo_context dependents st0 tr st ∧
    mlen (g_Nodes demo_graph) ≤ x_processed st.
Proof.
  apply complete_run; [apply demo_well_formed|apply demo_fresh|simpl; lia|apply demo_workers_return].
Qed.

Lemma Execute_dispatch_order_witness :
  ∃ st0 dependents tr st, exec_init NewExecutor demo_graph demo_world ∅ = Some (st0, dependents) ∧
    exec_trace NewExecutor demo_graph demo_context dependents st0 tr st ∧ NoDup (started tr) ∧
    (status (x_NodeResults st) "c" = StatusSuccess → status (x_NodeResults st) "b" = StatusSuccess).
Proof.
  destruct demo_run as (st0 & dependents & tr & st & Hinit & Htr & _).
  destruct (Execute_dispatch_order NewExecutor demo_graph demo_context demo_world ∅ st0 dependents tr st
    demo_well_formed demo_fresh Hinit Htr) as (Hnd & _ & _ & Hord).
  exists st0, dependents, tr, st. split_and!; [done..|].
  intros Hc. apply (Hord "c" "b" Hc). vm_compute. left.
Defined.

Lemma Execute_no_deadlock_witness :
  ∃ st0 dependents tr st, exec_init NewExecutor demo_graph demo_world ∅ = Some (st0, dependents) ∧
    exec_trace NewExecutor demo_graph demo_context dependents st0 tr st ∧ length tr ≤ 12.
Proof.
  destruct demo_run as (st0 & dependents & tr & st & Hinit & Htr & _).
  destruct (Execute_no_deadlock NewExecutor demo_graph demo_context demo_world ∅ st0 dependents tr st
    demo_well_formed demo_fresh ltac:(simpl; lia) demo_workers_return Hinit Htr) as (Hlen & _).
  exists st0, dependents, tr, st. by split_and!.
Defined.

Lemma Execute_final_statuses_witness :
  ∃ st0 dependents tr st, exec_init NewExecutor demo_graph demo_world ∅ = Some (st0, dependents) ∧
    exec_trace NewExecutor demo_graph demo_context dependents st0 tr st ∧
    x_tasks st = [] ∧ terminal (status (x_NodeResults st) "a").
Proof.
  destruct demo_run as (st0 & dependents & tr & st & Hinit & Htr & Hp).
  destruct (Execute_final_statuses NewExecutor demo_graph demo_context demo_world ∅ st0 dependents tr st
    demo_well_formed demo_fresh Hinit Htr Hp) as (Ht & _ & _ & Hall).
  exists st0, dependents, tr, st. split_and!; [done..|].
  apply Hall. vm_compute. eauto.
Defined.

(** Two runs, by two executors, from two worlds. *)
Lemma Execute_schedule_independent_witness :
  ∃ i1 dep1 tr1 st1 i2 dep2 tr2 st2,
    exec_trace NewExecutor demo_graph demo_context dep1 i1 tr1 st1 ∧
    exec_trace retrying demo_graph demo_context dep2 i2 tr2 st2 ∧
    status (x_NodeResults st1) "c" = status (x_NodeResults st2) "c".
Proof.
  destruct demo_run as (i1 & dep1 & tr1 & st1 & Hi1 & Ht1 & Hp1).
  assert (fresh retrying ∅) as Hf2 by done.
  destruct (complete_run retrying demo_graph demo_context (MkWorld demo_heap 5) ∅)
    as (i2 & dep2 & tr2 & st2 & Hi2 & Ht2 & Hp2);
    [apply demo_well_formed|done|simpl; lia|apply demo_workers_return|].
  exists i1, dep1, tr1, st1, i2, dep2, tr2, st2. split_and!; [done..|].
  apply (Execute_schedule_independent demo_verdict demo_graph
      NewExecutor demo_context demo_world ∅ i1 dep1 tr1 st1
      retrying demo_context (MkWorld demo_heap 5) ∅ i2 dep2 tr2 st2); try done.
  - intros w v res w' [-> _]. done.
  - apply demo_well_formed.
Defined.

Lemma Execute_returns_witness :
  ∃ result d', Execute NewExecutor demo_graph demo_context false demo_world ∅ result None d'.
Proof.
  apply (Execute_returns NewExecutor demo_graph demo_context demo_world ∅
    demo_well_formed demo_fresh ltac:(simpl; lia) demo_workers_return).
Defined.

(** A run resumed from a checkpoint in which [a] is done. *)
Definition resuming : dagExecutor := NewCheckpointExecutor (MkOptions "/d" "c" "p" false 0 0 0 0).

Lemma resume_deadlock_witness :
  ∃ st0 dependents, exec_init resuming demo_graph demo_world demo_disk = Some (st0, dependents) ∧
    x_processed st0 < 3 ∧ ∀ ev st, ¬ exec_step resuming demo_graph demo_context dependents st0 ev st.
Proof.
  destruct (exec_init_spec resuming demo_graph demo_nodes eq_refl demo_nonnil demo_world demo_disk)
    as (st0 & dependents & Hinit & _).
  exists st0, dependents. split; [exact Hinit|].
  apply (resume_deadlock resuming demo_graph demo_context demo_world demo_disk st0 dependents
    demo_well_formed Hinit).
  - apply (bool_decide_unpack _). vm_compute. exact I.
  - assert (recorded_done resuming demo_graph demo_disk = {["a"]})
      as -> by reflexivity.
    intros v Hv Hnd. apply elem_of_dom in Hv. change (v ∈ dom demo_nodes) in Hv.
    assert (dom demo_nodes = {["a"; "b"; "c"]}) as Hd by reflexivity. rewrite Hd in Hv. clear - Hv Hnd.
    apply elem_of_union in Hv as [[->%elem_of_singleton | ->%elem_of_singleton]%elem_of_union | ->%elem_of_singleton];
      [|done|done]. by destruct Hnd; apply elem_of_singleton.
Defined.
End runs.

(** ** Pipelines *)

(** One module plans nothing, one plans [demo_fragment], one panics, one plans
    [other_fragment], one plans a node that is nil. *)
Definition demo_modules : Modules := {|
  mod_Plan md _ :=
    match md with
    | PreflightModule _ => Ok (Some demo_fragment)
    | LoadBalancerModule => Panic
    | NetworkModule => Ok (Some other_fragment)
    | WorkerModule => Ok (Some (MkFragment (Some {[ "n" := None ]}) [] [] "nil"))
    | _ => Ok None
    end;
|}.
#[local] Existing Instance demo_modules.

Definition demo_pipeline_context : PipelineContext := RuntimeContext demo_context.

Definition good_modules : list module_kind :=
  [PreflightConnectivityModule; PreflightModule true; LoadBalancerModule; NetworkModule].

Lemma plan_assembles_witness :
  ∃ g, plan_with (plan_module Inline) demo_pipeline_context "p" good_modules = Ok g ∧
    well_formed g ∧ assembles [demo_fragment; other_fragment] (entries (g_Nodes g)) ∧
    node_deps (entries (g_Nodes g)) "x" = ["c"].
Proof.
  assert (is_ok (plan_with (plan_module Inline) demo_pipeline_context "p" good_modules, tt) = true) as Hok by reflexivity.
  destruct (plan_with (plan_module Inline) demo_pipeline_context "p" good_modules) as [g|e|] eqn:Hplan; [|done..].
  destruct (plan_assembles Inline demo_pipeline_context "p" good_modules g Hplan) as (Hwf & Has & _).
  exists g. split_and!; [done|exact Hwf|exact Has|]. vm_compute in Hplan. by injection Hplan as <-.
Defined.

Lemma plan_succeeds_witness :
  ∃ g, plan_with (plan_module Linked) demo_pipeline_context "p" good_modules = Ok g.
Proof.
  assert (fragments_of demo_pipeline_context good_modules = [demo_fragment; other_fragment]) as Hfrs by reflexivity.
  assert (∀ ef, ef ∈ [demo_fragment; other_fragment] → fragment_valid ef) as Hvalid.
  { intros ef Hef.
    assert (∀ m, well_formed (MkGraph "" (Some m) [] []) → nodes_nonnil m ∧ nodes_closed m ∧ acyclic (node_deps m)) as Hparts.
    { intros m (m' & [= <-] & ? & ? & ? & _). done. }
    apply elem_of_cons in Hef as [->|[->|?%elem_of_nil]%elem_of_cons]; [..|done]; unfold fragment_valid; cbn [ef_Nodes entries default].
    - destruct (Hparts demo_nodes) as (? & ? & ?);
        [destruct (Validate_cases (MkGraph "" (Some demo_nodes) [] [])) as [[_ H]|(e & H & _)]; [done|by vm_compute in H]|].
      split_and!; [done..| |]; intros id ->%list_elem_of_singleton; vm_compute; eauto.
    - destruct (Hparts other_nodes) as (? & ? & ?);
        [destruct (Validate_cases (MkGraph "" (Some other_nodes) [] [])) as [[_ H]|(e & H & _)]; [done|by vm_compute in H]|].
      split_and!; [done..| |]; intros id ->%list_elem_of_singleton; vm_compute; eauto. }
  apply plan_succeeds; [done| |by rewrite Hfrs|].
  - intros md Hmd. unfold good_modules in Hmd.
    repeat (apply elem_of_cons in Hmd as [->|Hmd]; [reflexivity|]). by apply elem_of_nil in Hmd.
  - rewrite Hfrs. assert (demo_nodes ##ₘ other_nodes) as Hd by (apply (bool_decide_unpack _); vm_compute; exact I).
    intros [|[|i]] [|[|j]] fi fj Hi Hj Hne; simplify_eq/=; [exact Hd|by symmetry].
Defined.

Definition panicking_pipeline : Pipeline := new_pipeline "bad" "" [PreflightModule true; WorkerModule] true.

Lemma Run_planning_panic_witness :
  pipeline_Run panicking_pipeline (planned Linked demo_pipeline_context panicking_pipeline)
    demo_pipeline_context None false demo_world ∅ (Some (empty_result panicking_pipeline)) None ∅.
Proof.
  assert (plan_with (plan_module Linked) demo_pipeline_context (p_Name panicking_pipeline)
    (p_Modules panicking_pipeline) = Panic) as Hpanic by (vm_compute; reflexivity).
  destruct (Run_planning_panic Linked demo_pipeline_context panicking_pipeline demo_context false demo_world ∅
    eq_refl Hpanic) as [_ H].
  by apply H.
Defined.

Definition one_module_pipeline : Pipeline := new_pipeline "one" "" [NetworkModule] true.

Definition one_graph : ExecutionGraph := MkGraph "one" (Some other_nodes) ["x"] ["x"].

(** The pipeline of one node is planned, run and reported. *)
Lemma pipeline_Run_reports_witness :
  ∃ r d', pipeline_Run one_module_pipeline (planned Linked demo_pipeline_context one_module_pipeline)
      demo_pipeline_context None false demo_world ∅ (Some r) None d' ∧
    terminal (status (ger_NodeResults r) "x").
Proof.
  set (e := NewCheckpointExecutorForPipeline (Some demo_context) "one").
  assert (well_formed one_graph) as Hwf.
  { destruct (Validate_cases one_graph) as [[_ H]|(err & H & _)]; [done|by vm_compute in H]. }
  assert (plan_with (plan_module Linked) demo_pipeline_context "one" [NetworkModule] = Ok one_graph) as Hplan by reflexivity.
  assert (fresh e ∅) as Hfresh by done.
  destruct (complete_run (H2 := runNode_NodeRunner e (execution_context e demo_context) one_graph)
    e one_graph (execution_context e demo_context) demo_world ∅) as (st0 & dependents & tr & st & Hinit & Htr & Hp);
    [done|done|simpl; lia| |].
  { intros w id Hid. apply elem_of_dom in Hid. change (id ∈ dom other_nodes) in Hid.
    assert (dom other_nodes = {["x"]}) as Hd by reflexivity. rewrite Hd in Hid. apply elem_of_singleton in Hid as ->.
    eexists _, _, []. split; [done|]. cbn. reflexivity. }
  destruct (exec_finish e one_graph (now demo_world) st) as [r d'] eqn:Hfin.
  assert (pipeline_Run one_module_pipeline (planned Linked demo_pipeline_context one_module_pipeline)
    demo_pipeline_context None false demo_world ∅ (Some r) None d') as Hrun.
  { eapply (Run_executed _ _ _ _ _ _ _ demo_context one_graph r None); [done| |done|].
    - unfold planned. change (p_Name one_module_pipeline) with "one".
      change (p_Modules one_module_pipeline) with [NetworkModule]. by rewrite Hplan.
    - eapply Execute_run; done. }
  exists r, d'. split; [exact Hrun|].
  destruct (pipeline_Run_reports Linked demo_pipeline_context one_module_pipeline demo_world ∅ (Some r) None d')
    as (_ & _ & _ & Hdom & Hterm & _); [|by intros c [= <-]|exact Hrun|].
  - change (p_Name one_module_pipeline) with "one". change (p_Modules one_module_pipeline) with [NetworkModule].
    by rewrite Hplan.
  - apply Hterm, Hdom. exists other_fragment. split; [vm_compute; left|vm_compute; eauto].
Defined.
End concrete_runs.

Section concrete_tasks.
#[local] Existing Instance range_forward.

(** ** Deciding that a concrete fragment can be chained *)

Definition graph_of (ef : ExecutionFragment) : ExecutionGraph := MkGraph "" (ef_Nodes ef) [] [].

Definition all_in (nodes : node_map) (ids : list NodeID) : bool :=
  forallb (λ id, bool_decide (is_Some (nodes !! id))) ids.

Definition validb (ef : ExecutionFragment) : bool :=
  is_ok (ExecutionGraph_Validate (graph_of ef), tt) &&
  all_in (entries (ef_Nodes ef)) (ef_EntryNodes ef) && all_in (entries (ef_Nodes ef)) (ef_ExitNodes ef).

Definition endsb (ef : ExecutionFragment) : bool :=
  let nodes := entries (ef_Nodes ef) in
  validb ef && negb (bool_decide (nodes = ∅)) &&
  bool_decide (sorted_ids nodes (no_inner_deps nodes) ⊆ ef_EntryNodes ef) &&
  bool_decide (sorted_ids nodes (no_dependents nodes) ⊆ ef_ExitNodes ef).

Fixpoint disjointb (frs : list ExecutionFragment) : bool :=
  match frs with
  | [] => true
  | f :: frs => forallb (λ f', bool_decide (entries (ef_Nodes f) ##ₘ entries (ef_Nodes f'))) frs && disjointb frs
  end.

Lemma all_in_spec nodes ids : all_in nodes ids = true → ∀ id, id ∈ ids → is_Some (nodes !! id).
Proof. intros Hall id Hid%list_elem_of_In. eapply forallb_forall in Hall; [|done]. by apply bool_decide_eq_true in Hall. Qed.

Lemma validb_spec ef : validb ef = true → fragment_valid ef.
Proof.
  unfold validb. rewrite !andb_true_iff. intros [[Hok Hen] Hex].
  destruct (Validate_cases (graph_of ef)) as [[_ (m & Hm & Hn & Hc & Ha & _)]|(e & He & _)];
    [|by rewrite He in Hok].
  simpl in Hm. unfold fragment_valid. rewrite Hm in *. split_and!; [done..| |]; by apply all_in_spec.
Qed.

Lemma endsb_spec ef : endsb ef = true → ends_complete ef.
Proof.
  unfold endsb. rewrite !andb_true_iff, negb_true_iff. intros [[[Hv Hne] Hen] Hex].
  apply bool_decide_eq_false in Hne. apply bool_decide_eq_true in Hen, Hex.
  split; [by apply validb_spec|]. split_and!; [done|..]; intros id Hid Hno; [apply Hen|apply Hex];
    by apply elem_of_sorted_ids.
Qed.

Lemma disjointb_spec frs : disjointb frs = true → fragments_disjoint frs.
Proof.
  rewrite fragments_disjoint_sorted. induction frs as [|f frs IH]; simpl; [constructor|].
  rewrite andb_true_iff. intros [Hf Hfrs]. constructor; [by apply IH|].
  apply Forall_forall. intros f' Hf'%list_elem_of_In. eapply forallb_forall in Hf; [|done].
  by apply bool_decide_eq_true in Hf.
Qed.

Lemma forallb_elem {A} (P : A → Prop) (p : A → bool) l :
  (∀ x, p x = true → P x) → forallb p l = true → ∀ x, x ∈ l → P x.
Proof. intros HP Hl x Hx%list_elem_of_In. apply HP. by eapply forallb_forall in Hl. Qed.

(** ** Tasks *)

Definition one_node (id : NodeID) : ExecutionFragment :=
  MkFragment (Some {[ id := Some (demo_node id []) ]}) [id] [id] id.

Definition pki_fragment : ExecutionFragment :=
  MkFragment (Some {[ "certs" := Some (demo_node "certs" []); "keys" := Some (demo_node "keys" ["certs"]) ]})
    ["certs"] ["keys"] "pki".

(** The etcd backup is not required; the other tasks plan one or two nodes. *)
Definition demo_tasks : Tasks := {|
  task_Name _ := "task";
  task_IsRequired t _ := match t with BackupEtcdTask => Ok false | _ => Ok true end;
  task_Plan t _ :=
    match t with
    | CheckConnectivityTask => Ok (Some (one_node "connect"))
    | BackupPKITask => Ok (Some pki_fragment)
    | BackupK8sConfigsTask => Ok (Some (one_node "configs"))
    | ConfigureHostTask => Ok (Some (one_node "host"))
    | ConfigureKernelTask => Ok (Some (one_node "kernel"))
    | DeployKubeVipTask => Ok (Some (one_node "vip"))
    | InstallNetworkPluginTask => Ok (Some (one_node "cni"))
    | _ => Ok None
    end;
|}.
#[local] Existing Instance demo_tasks.

Definition taskb (ctx : PipelineContext) (t : task_kind) : bool :=
  match task_IsRequired t ctx, task_Plan t ctx with Ok _, Ok _ => true | _, _ => false end.

Lemma taskb_spec ctx t : taskb ctx t = true → task_ok ctx t.
Proof.
  unfold taskb, task_ok. destruct (task_IsRequired t ctx) as [b|e|]; [|done..].
  destruct (task_Plan t ctx) as [o|e|]; [|done..]. intros _. exists b. split; [done|]. by exists o.
Qed.

Definition vip_cluster : Cluster := MkCluster "demo"
  (Some (MkClusterSpec None None None None
     (Some (MkEndpoint (Some (MkHighAvailability (Some true) (Some (MkLoadBalancer (Some true) "kube-vip")) None))))
     None None [] None None None None)).

Definition vip_context : PipelineContext := ForeignContext true true (Some vip_cluster).

(** ** Modules *)

Definition backup_tasks : list task_kind := BackupModule_tasks "all".

Lemma chain_modules_spec_witness :
  ∃ ef, BackupModule_Plan "all" vip_context = Ok (Some ef) ∧
    runs_before (node_deps (entries (ef_Nodes ef))) pki_fragment (one_node "configs").
Proof.
  destruct (chain_modules_spec "Backup" backup_tasks vip_context) as (ef & _ & Hplan & _ & Hseq & _).
  - reflexivity.
  - apply (forallb_elem _ (taskb vip_context)); [apply taskb_spec|reflexivity].
  - apply (forallb_elem _ endsb); [apply endsb_spec|vm_compute; reflexivity].
  - apply disjointb_spec. vm_compute. reflexivity.
  - exists ef. split; [exact Hplan|].
    change (task_fragments vip_context backup_tasks) with [pki_fragment; one_node "configs"] in Hseq.
    apply StronglySorted_inv in Hseq as [_ Hf]. by apply Forall_inv in Hf.
Defined.

Lemma PlanTasks_unordered_witness :
  ∃ ef, BaseModule_PlanTasks "OSConfiguration" [ConfigureHostTask; ConfigureKernelTask] vip_context = Ok (Some ef) ∧
    ¬ rtc (before (node_deps (entries (ef_Nodes ef)))) "host" "kernel".
Proof.
  destruct (BaseModule_PlanTasks "OSConfiguration" [ConfigureHostTask; ConfigureKernelTask] vip_context)
    as [[ef|]|e|] eqn:Hplan; try (vm_compute in Hplan; discriminate).
  exists ef. split; [reflexivity|].
  destruct (PlanTasks_unordered _ _ _ _ Hplan) as (_ & _ & Hun).
  apply (Hun 0 1 (one_node "host") (one_node "kernel")); try (vm_compute; eauto; reflexivity); [done|].
  apply validb_spec. vm_compute. reflexivity.
Defined.

(** ** Pipelines *)

Definition backup_modules : list module_kind := [PreflightConnectivityModule; BackupModule "all"].

Lemma task_pipelines_sequential_witness :
  ∃ g, plan_with (plan_module Linked) vip_context "Backup" backup_modules = Ok g ∧
    sequential (node_deps (entries (g_Nodes g))) [one_node "connect"; pki_fragment; one_node "configs"].
Proof.
  destruct (task_pipelines_sequential Linked vip_context "Backup" backup_modules) as (g & Hplan & _ & _ & Hseq).
  - reflexivity.
  - reflexivity.
  - intros md [->|[->|[]%elem_of_nil]%elem_of_cons]%elem_of_cons; by eexists.
  - split_and!; [apply (forallb_elem _ (taskb vip_context)); [apply taskb_spec|reflexivity]|
      apply (forallb_elem _ endsb); [apply endsb_spec|vm_compute; reflexivity]|
      apply disjointb_spec; vm_compute; reflexivity].
  - exists g. split; [exact Hplan|exact Hseq].
Defined.

Definition vip_fragment : ExecutionFragment :=
  MkFragment (Some {[ "vip" := Some (demo_node "vip" []) ]}) [] [] "LoadBalancerSetup-Fragment".

Definition vip_modules : list module_kind := [PreflightConnectivityModule; LoadBalancerModule; NetworkModule].

Lemma vip_fragments :
  fragment_of vip_context LoadBalancerModule = Some vip_fragment ∧
  fragments_of vip_context vip_modules =
    [MkFragment (Some {[ "connect" := Some (demo_node "connect" []) ]}) ["connect"] ["connect"]
       "PreflightConnectivity-Fragment"; vip_fragment;
     MkFragment (Some {[ "cni" := Some (demo_node "cni" []) ]}) ["cni"] ["cni"] "KubernetesNetworkSetup-Fragment"].
Proof. split; vm_compute; reflexivity. Qed.

(** The network plugin does not wait for the connectivity check. *)
Lemma load_balancer_cuts_order_witness :
  ∃ g, plan_with (plan_module Inline) vip_context "p" vip_modules = Ok g ∧
    ¬ rtc (before (node_deps (entries (g_Nodes g)))) "connect" "cni".
Proof.
  assert (is_ok (plan_with (plan_module Inline) vip_context "p" vip_modules, tt) = true) as Hok by (vm_compute; reflexivity).
  destruct (plan_with (plan_module Inline) vip_context "p" vip_modules) as [g|e|] eqn:Hplan; [|discriminate Hok..].
  exists g. split; [reflexivity|]. destruct vip_fragments as [Hlb Hfrs].
  pose proof (load_balancer_cuts_order Inline vip_context "p" [PreflightConnectivityModule] [NetworkModule]
    g vip_fragment 0 2) as Hcut. cbv zeta in Hcut.
  change ([PreflightConnectivityModule] ++ LoadBalancerModule :: [NetworkModule]) with vip_modules in Hcut.
  rewrite Hfrs in Hcut.
  assert (length (fragments_of vip_context [PreflightConnectivityModule]) = 1) as Hlen by (vm_compute; reflexivity).
  rewrite Hlen in Hcut. eapply Hcut; [exact Hplan| |exact Hlb|lia|lia|lia|reflexivity|reflexivity|..].
  - apply (forallb_elem _ validb); [apply validb_spec|vm_compute; reflexivity].
  - vm_compute. eauto.
  - vm_compute. eauto.
Defined.
End concrete_tasks.

Section concrete_operations.
#[local] Existing Instance range_forward.

(** Every builder builds a step named by its instance. *)
#[local] Instance demo_steps : Steps := {|
  Build _ sc := Ok (Some (sc_instance sc));
  Timestamp := "20250101-000000";
|}.

(** The tasks that are not modelled are not required. *)
Definition no_tasks : Tasks := {|
  task_Name _ := "task";
  task_IsRequired _ _ := Ok false;
  task_Plan _ _ := Ok None;
|}.

#[local] Hint Extern 0 Tasks => exact (Kubexm_Tasks no_tasks) : typeclass_instances.

Definition m1 : Host := MkHost "m1" ["master"; "etcd"] "amd64" "10.0.0.1".
Definition m2 : Host := MkHost "m2" ["master"] "amd64" "10.0.0.2".
Definition w1 : Host := MkHost "w1" ["worker"] "amd64" "10.0.0.3".

Definition host_entry (h : Host) : HostRuntimeInfo := MkHostInfo (Some h) None None.

(** The type of etcd is a parameter; kubeadm deploys Kubernetes. *)
Definition small_cluster (etcd_type : string) : Cluster := MkCluster "small"
  (Some (MkClusterSpec None (Some (MkKubernetes "" (Some (MkContainerRuntime "containerd"))))
     (Some (MkEtcd etcd_type false)) None None None None [] None None None None)).

Definition small_context (etcd_type : string) : Context :=
  MkContext Background false
    (MkGlobals (Some (small_cluster etcd_type)) "/work" false false 0 false
       (Some {[ "m1" := host_entry m1; "m2" := host_entry m2; "w1" := host_entry w1 ]}) (Some m1) "run")
    None "" 0 (MkScopes None None None None) "" "" "" None.

Lemma small_hosts etcd_type k hri :
  entries (gl_hostInfoMap (ctx_globals (small_context etcd_type))) !! k = Some hri → hri_Host hri ≠ None.
Proof.
  simpl. intros Hk. do 2 (apply lookup_insert_Some in Hk as [[_ <-]|[_ Hk]]; [done|]).
  by apply lookup_singleton_Some in Hk as [_ <-].
Qed.

Lemma small_ready etcd_type : TaskSpec.ready (small_context etcd_type).
Proof. split; [intros sc; by eexists|apply small_hosts|by eexists|by eexists]. Qed.

(** ** The tasks *)

Definition restore_plan : outcome task_error (option ExecutionFragment) :=
  task_Plan (RestoreEtcdTask "/snap.db") (RuntimeContext (small_context "kubeadm")).

Lemma small_has_worker : has_host (small_context "kubeadm") RoleWorker.
Proof. exists w1, "w1", (host_entry w1). split; [reflexivity|]. split; [reflexivity|]. right. by left. Qed.

Definition has_nodes (planned : outcome task_error (option ExecutionFragment)) : bool :=
  match planned with Ok o => negb (ExecutionFragment_IsEmpty o) | _ => false end.

(** Containerd goes to the masters and the worker, when the configuration asks for it. *)
Lemma tasks_keep_contract_witness :
  (∃ ef, restore_plan = Ok (Some ef) ∧ ends_complete ef) ∧
  (∃ o, task_Plan DeployContainerdTask (RuntimeContext (small_context "kubeadm")) = Ok o) ∧
  ∃ b, task_IsRequired DeployContainerdTask (RuntimeContext (small_context "kubeadm")) = Ok b.
Proof.
  split; [|split].
  2: { destruct (tasks_keep_contract no_tasks (small_context "kubeadm") DeployContainerdTask _ eq_refl) as [Hplan _].
    destruct (task_Plan _ _) as [o|e|]; [by exists o|exfalso..]; apply Hplan; (split; [apply small_ready|right; exact small_has_worker]). }
  2: { apply (tasks_keep_contract no_tasks (small_context "kubeadm") DeployContainerdTask _ eq_refl). split; [apply small_ready|].
    eexists. split; [reflexivity|]. by eexists. }
  destruct (tasks_keep_contract no_tasks (small_context "kubeadm") (RestoreEtcdTask "/snap.db")
    ["StopEtcd"; "RestoreEtcd"; "StartEtcd"] eq_refl) as [Hplan _].
  assert (has_nodes restore_plan = true) as Hn by (vm_compute; reflexivity).
  change (task_Plan (RestoreEtcdTask "/snap.db") (RuntimeContext (small_context "kubeadm")))
    with restore_plan in Hplan.
  destruct restore_plan as [o|e|]; [|discriminate Hn..].
  destruct Hplan as (ef & -> & _ & Hends). exists ef. split; [reflexivity|]. destruct Hends as [Hnil|Hends]; [|exact Hends].
  exfalso. simpl in Hn. unfold mlen in Hn. rewrite Hnil, map_size_empty in Hn. discriminate Hn.
Defined.

(** Caches without flags, and steps with their names. *)
#[local] Instance no_flags : Caches := {| ModuleCache_Get _ _ := (ANil, false); PipelineCache_Get _ _ := (ANil, false) |}.
#[local] Instance named_steps : StepMeta := {| Meta_Name s := Some s |}.







Lemma operation_pipelines_plan_witness :
  ∃ g, plan_with (plan_module Linked)
      (RuntimeContext (small_context "kubeadm")) "Backup" (p_Modules (NewBackupPipeline "all")) = Ok g ∧ well_formed g ∧
    is_Some (entries (g_Nodes g) !! "BackupK8sConfigs-m2").
Proof.
  destruct (operation_pipelines_plan no_tasks Linked (NewBackupPipeline "all") (small_context "kubeadm") "Backup"
    (is_backup "all") (small_ready "kubeadm")) as (g & Hplan & Hwf & Hnodes & _).
  exists g. split; [exact Hplan|]. split; [exact Hwf|]. apply Hnodes.
  eexists. split; [apply list_elem_of_In; vm_compute; do 3 right; left; reflexivity|]. vm_compute. by eexists.
Defined.

(** ** Whole clusters *)

Lemma create_cluster_never_planned_witness :
  ¬ ∃ g, plan_with (plan_module Inline)
    (RuntimeContext (small_context "kubeadm")) "CreateNewCluster" (p_Modules (NewCreateClusterPipeline true)) = Ok g.
Proof.
  intros [g Hg]. revert Hg. eapply (create_cluster_never_planned no_tasks Inline (small_context "kubeadm")); [reflexivity|discriminate|
    vm_compute; reflexivity..].
Defined.

Lemma small_worker etcd_type : has_worker (small_context etcd_type).
Proof.
  split; [apply small_hosts|]. exists w1, "w1", (host_entry w1). split; [reflexivity|]. split; [reflexivity|].
  right. by left.
Qed.

Lemma delete_cluster_never_planned_witness :
  ¬ ∃ g, plan_with (plan_module Inline)
    (RuntimeContext (small_context "kubeadm")) "DeleteCluster" (p_Modules (NewDeleteClusterPipeline true)) = Ok g.
Proof.
  intros [g Hg]. revert Hg. apply (delete_cluster_never_planned no_tasks Inline (small_context "kubeadm")); [apply small_worker|
    vm_compute; reflexivity..].
Defined.

Lemma kubexm_etcd_never_planned_witness :
  (∀ o, EtcdModule_Plan (RuntimeContext (small_context "kubexm")) ≠ Ok o) ∧
  ¬ ∃ g, plan_with (plan_module Linked)
    (RuntimeContext (small_context "kubexm")) "AddNodes" (p_Modules (NewAddNodesPipeline true)) = Ok g.
Proof.
  assert (∀ g, (∀ o, EtcdModule_Plan (RuntimeContext (small_context "kubexm")) ≠ Ok o) ∧
    (not_panicking no_tasks (RuntimeContext (small_context "kubexm")) EtcdModule →
     plan_with (plan_module Linked) (RuntimeContext (small_context "kubexm")) "AddNodes" (p_Modules (NewAddNodesPipeline true)) ≠ Ok g)) as Hall.
  { intros g. apply (kubexm_etcd_never_planned no_tasks Linked (small_context "kubexm") "AddNodes" _ EtcdModule g);
      [reflexivity|do 3 right; left|right; reflexivity]. }
  split; [apply (Hall (NewExecutionGraph ""))|]. intros [g Hg]. revert Hg. apply (Hall g). vm_compute. reflexivity.
Defined.

(** With the second call turned, [m1] is bootstrapped and joined, [m2] neither. *)
Lemma first_master_joined_again_witness :
  ∃ boot join,
    @BootstrapFirstMasterTask_Plan (range_turned 292) _ (small_context "kubeadm") = Ok (Some boot) ∧
    @KubeadmJoinMastersTask_Plan (range_turned 292) _ (small_context "kubeadm") = Ok (Some join) ∧
    runs_on (entries (ef_Nodes boot)) "KubeadmInit" [Some m1] ∧
    runs_on (entries (ef_Nodes join)) "ExecuteKubeadmJoinMaster" [Some m1].
Proof.
  destruct (@BootstrapFirstMasterTask_Plan (range_turned 292) _ (small_context "kubeadm")) as [o|e|] eqn:H1;
    [|vm_compute in H1; discriminate H1..].
  destruct (@KubeadmJoinMastersTask_Plan (range_turned 292) _ (small_context "kubeadm")) as [o'|e|] eqn:H2;
    [|vm_compute in H2; discriminate H2..].
  destruct (first_master_joined_again (small_context "kubeadm") [Some m1; Some m2] o o')
    as (boot & join & first & middle & last & -> & -> & Hl & Hb & Hj); [vm_compute; reflexivity|simpl; lia|exact H1|exact H2|].
  destruct middle as [|x [|y middle]]; [|discriminate Hl|discriminate Hl].
  injection Hl as <- <-. exists boot, join. split; [reflexivity|]. split; [reflexivity|]. split; [exact Hb|exact Hj].
Defined.
End concrete_operations.
